(* ===== verification/_CoqProject ===== *)
-Q . S2P
Prelude.v
ByteBuffer.v
Messages.v
Text.v
Float.v
StatTables.v
Stats.v
StatsFacts.v
AbilityTime.v
AbilityTimeFacts.v
StatMods.v
StatModsFacts.v
StatModsRun.v
Items.v
Inventory.v
InventoryMove.v
InventoryStock.v
InventoryRemove.v
InventoryFile.v
Party.v
Trade.v
Quest.v
QuestHandlers.v
QuestSafety.v
QuestLife.v
QuestFile.v
QuestRun.v
Entities.v
Cluster.v
ClusterFacts.v
StdSort.v
Scheduler.v
SchedulerFacts.v
Auction.v
AuctionHouse.v
AuctionFacts.v
AuctionSales.v
AuctionRun.v
Loot.v
LootFacts.v
Clans.v
ClansFacts.v
Crafting.v
CraftingFacts.v
FileReader.v
ConfigString.v
Gamble.v
Shop.v
ShopFacts.v
Script.v
ScriptPlayer.v
ScriptTypes.v
ScriptSafety.v
ScriptRun.v
ScriptText.v
ScriptImp.v
ScriptRefine.v
