(* ===== verification/Prelude.v ===== *)
(** * The item, message, party, trade, quest and script core of the TAWD game server

    This development models a part of the C++ server of the repository (under
    [src/SOURCE/Server]) and proves what its operations do. The server keeps the
    state of an online role playing game: clients send queries and messages,
    handlers change the state and answer with packets. Modelled here is the part
    in which players own things (items, inventories, their storage in character
    files, trades, parties, and the packets all of it is sent in), the quests they
    take, the auction house with the store and the scheduler it works on, the stats of
    creatures, and the script language in which the behaviour of the world is written.

    ** The files

    - [Prelude]: machine integers, list searches and sums, tactics and hints.
    - [ByteBuffer] ([ByteBuffer.cpp]): the big-endian wire encoding. A buffer
      being written is the list of its bytes, [wpos += PutX(&buffer[wpos], v)]
      is [buffer ++ PutX v].
    - [Messages] ([Util.cpp], [Forms.h], [query/Query.cpp]): the packet builders
      [PrepExt_...] and the query responses. [seal] is the size field written
      last.
    - [Text] ([Util.cpp]): splitting, escaping, numbers, change tracking.
    - [Float]: the [float] and [double] arithmetic of the source: a [float] is its
      32 bits, and conversions, [atof], [%g] and the four operations round as the
      processor does.
    - [StatTables] ([Stats.h], tables of [Stats.cpp]): the identifiers, types and
      members of the stats. [Stats] ([Stats.cpp], [DecodePackets.h], packets of
      [Creature.cpp]): every operation on a set of stats, written against a
      table, since [SetHealthToInteger] changes it. [StatsFacts]: its theorems.
    - [AbilityTime] ([AbilityTime.cpp], parts of [Ability2.cpp], [Character.cpp]
      and [query/AbilityHandlers.cpp]): cooldowns and the tiers of buffs.
      [AbilityTimeFacts]: its theorems.
    - [StatMods] ([Creature.cpp], [Creature.h], part of [Simulator.cpp]): the
      modifiers of the stats of a creature. The event an ability runs when it ends
      is the class [AbilityHost], with its laws [AbilityHostLaws]. Lemmas per
      operation are in [StatModsFacts]; [StatModsRun] has the step relation
      [mods_step] and the theorems on every state it reaches.
    - [Items] ([Item.h], [Item.cpp], part of [VirtualItem.cpp] and [Gamble.h]):
      item definitions, the tables of names, the item store and its searches. The
      class [ItemDb] is what the store promises to the other components: the
      definition an identifier names, which carries that identifier;
      [ItemManager_db] is the store as an instance of it.
    - [Inventory] ([Inventory.h], [Inventory.cpp]): item slots, containers and
      every operation of [InventoryManager], written against [ItemDb]. Its
      well-formedness is [Inv_wf], the number of items of a kind is [held].
      Theorems on it are in [InventoryMove] (moving, merging and swapping),
      [InventoryStock] (free slots, additions, buyback, equipment tests) and
      [InventoryRemove] (removal and expiry).
    - [InventoryFile] ([Character.cpp], section [INV]): saving and loading.
    - [Party] ([PartyManager.h], [PartyManager.cpp], part of [PVP.cpp] and of
      [query/PlayerHandlers.cpp]): parties, loot tags and party messages.
    - [Trade] ([Trade.h], [Trade.cpp], [query/TradeHandlers.cpp] from
      [trade.start] on): trades between two players, over their inventories.
    - [Quest] ([Quest.cpp], [Quest.h], the quest section of [Character.cpp]): quest
      definitions, references and the journal of a player, as jobs on that state.
      [QuestHandlers] ([query/QuestHandlers.cpp]): the queries, over the class
      [QuestHost]. [QuestSafety]: weakest preconditions of jobs, and progress
      ([moves]); [QuestLife]: the invariant [journal_ok] and the life cycle
      ([phase], [phase_step]); [QuestFile]: saving, loading and resolving;
      [QuestRun]: the theorems.
    - [Entities] ([Entities.cpp], list values of [Cluster.cpp]): how records are stored
      under sections and keys. A reader or writer is a state with the operations of the
      classes [EntityReader] and [EntityWriter]; what a record relies on are the classes
      [ReaderSpec] and [WriterSpec], and what it promises is [EntityLaws]. [Act] is the
      monad of actions on a state that may go wrong.
    - [Cluster] ([Cluster.cpp]): readers and writers over the Redis store, and the
      operations of the manager. The server and its client library are the class [Redis],
      whose laws are the documented effect and reply of each command; [Keyspace_redis] is
      an instance. [ClusterFacts] proves [ReaderSpec] and [WriterSpec] of it, and from
      them what saving, loading and removing an entity does.
    - [StdSort]: [std::sort] as a class with its documented laws, merge sort an instance.
      [Scheduler] ([Scheduler.cpp]): timed tasks; [SchedulerFacts]: its theorems.
    - [Auction] ([AuctionHouse.h], [AuctionHouse.cpp]): items, bids, their storage,
      searches and messages. [AuctionHouse] ([AuctionHouse.cpp],
      [query/AuctionHouseHandlers.cpp]): the manager and the queries, on a [World] of
      characters, players, accounts, store, scheduler and lock. [AuctionFacts]: stored
      items, timers and the end of an auction; [AuctionSales]: buying; [AuctionRun]:
      listing, searching, bidding and starting.
    - [FileReader] ([FileReader.cpp]): the line reader of every loader.
    - [Script] ([ScriptDef] and [ScriptCompiler] of [ScriptCore.cpp]): the
      compiler of the script language. The virtual methods of [ScriptDef] are the
      class [CompilerHost].
    - [ScriptPlayer] ([ScriptPlayer] of [ScriptCore.cpp]): the interpreter. The
      instructions a derived class adds are the class [PlayerHost].
    - Theorems on them: [ScriptTypes] (compiled scripts are well typed, for every
      host that keeps [CompilerHostLaws]), [ScriptSafety] (no reachable state of a
      player goes wrong, for every host that keeps [PlayerHostLaws]), [ScriptRun]
      (loops, waiting, the event queue), [ScriptText] (tokens and lines),
      [ScriptImp] (the meaning of structured programs and their code) and
      [ScriptRefine] (the two agree).

    ** How code becomes definitions

    An operation is a function from the state to the state, the value it returns
    and the packets it sends; a record is the fields of a class that the modelled
    operations use. A pointer is an index or key into the store that owns the
    object; two names of one object are the same key, so aliasing is visible
    ([Party.DoKick] reads an erased list element, [Inventory.ItemMove] may have
    one manager or two). Undefined behaviour (a NULL or dangling pointer that is
    used, reading past a buffer) is [None]. [int], [short], [char] and [long]
    are [Z] with the wrap-around of their width written where a value is stored
    ([i32], [u16], ...). Time, configuration values and what comes from outside
    are arguments. Logging is left out.

    Recursion is structural on lists; these loops of the code carry fuel.
    [scan_remove] gets two turns more than the container has items, each turn
    passes an item; [next_looter] gets one turn per member, which is the bound of
    the [for] loop it models; [print_digits] gets one turn per binary digit;
    [read_file] gets two turns more than the file has characters, each turn but
    the last reads one ([read_file_total]); [remove_loop] gets two turns more than
    the creature has modifiers ([removal_ends]), and [RemoveBuffIndex] and
    [Dismount] call each other at most two deep; [remove_invalid] gets a turn per
    entry, each removes one ([remove_invalid_spec]); [run_queue] needs a turn for every
    task of the queue and every task they add, which has no bound: it is [NoFuel] when the
    fuel is too little. The loops that run a script
    ([RunAtSpeed], [RunUntilWait], [RunScript]) may run for ever, which is the
    outcome [OutOfFuel] for every fuel. The
    range searches of [Items] walk the rest of the item list and are [None] when
    they run off its end.

    ** The theorems

    - Conservation: moving items ([ItemMove_conserves]), removing exactly a
      number of them ([RemoveItemsAndUpdate_removes]), adding
      ([AddItem_Ex_adds]), trading ([trade_accept_exchanges]), expiry
      ([RemoveExpired_removes]).
    - Invariants and safety of inventories: [ItemMove_wf], [ItemMove_hands],
      [ItemMove_refused_unchanged], [ItemMove_bound_refused] and the way around
      it ([ItemMove_swaps_bound_item]), [GetFreeSlot_least], [slot_counts],
      [AddBuyBack_bounded], [FixBuyBack_fixes], [VerifyEquipItem_default].
    - Round trips: the wire ([Put_Get_integers], [PutStringUTF_roundtrip],
      [messages_frame], [query_result_roundtrip]), texts ([Split_Join],
      [number_text_roundtrip], [URLDecode_URLEncode]), identifiers
      ([CCSID_roundtrip], [container_names]), files ([inventory_file_roundtrip]).
    - The item store: [GetPointerByID_pure], [EnumPointersByQuery_spec],
      [NotifyDestroy_spec].
    - Parties: [GetNextLooter_round_robin], [DoQuit_leaves],
      [AcceptInvite_joins], [DoDisband_keeps_leader].
    - Stats: [stats_typed] (no operation leaves the type or the room of a member),
      [stats_wire_roundtrip], [stats_file_roundtrip].
    - Modifiers: in every reachable state the books are exact ([modifiers_exact]),
      the stats show the totals ([stats_show_modifiers]), what is saved are the own
      values ([saved_without_modifiers]), and removal ends ([removal_ends]).
    - Cooldowns and buffs: [cooldowns_roundtrip], [buffs_roundtrip], [buff_tiers].
    - Quests: [journal_safe] (no operation is undefined, the journal stays well
      formed), [phases_follow] (it implements the life cycle of each quest),
      [relogin_phases], [objective_counts], [selected_rewards].
    - The store: [saved_then_read], [stored_list_roundtrip], [RemoveEntity_removes].
    - The scheduler: [operations_keep_wf], [cycles_submit_due].
    - The auction house: [buy_now_sells], [new_auction_is_listed], [Search_finds],
      [Bid_rules], [LoadItems_times_all], [stored_auction_forgets].
    - Scripts: [compile_typed], [compiled_script_safe],
      [compiled_program_refines] (the compiler and interpreter implement the
      big-step meaning of [if], [else] and [recompare] programs, and such a script
      ends exactly when the program does), [RunAtSpeed_terminates],
      [wait_resumes], [exec_queue_drains], [Tokenize_print], [read_file_Join].
    - What goes wrong: [unbounded_runs_hang], [ExecQueue_unknown_label],
      [BinaryBuffer_PutStringUTF_loses_text],
      [EnumPointersByRange_diverges], [DoKick_deposes_leader], and for trades
      [duplicate_offer_duplicates], [offer_changed_after_acceptance],
      [restart_charges_third_party]; for modifiers [ridden_removal_diverges],
      [kept_modifiers_stop_counting]; for quests [redeem_pays_next],
      [large_objective_never_completes], [talk_skips_objectives],
      [leave_guild_keeps_first]; for the scheduler [cancelled_head_runs_next]; for the
      auction house [auctions_attract_no_bids], [bought_item_expires],
      [refused_purchase_keeps_lock], [missing_item_is_found].

    Where a theorem needs sizes bounded (stack counts below 2^30, at most 65536
    slots in a container), the bound is a hypothesis such as [count_ok], [max_ok]
    or [stack_limits_ok], far above what the game uses.

    ** Not modelled, and the plan

    The socket layer, the shards of the cluster, the script engine bindings, the web
    interface and vendored libraries are input and output or foreign code. World
    simulation, combat and creatures are large and mostly floating point.
    Random item generation draws from a generator that is not modelled. Planned
    next, in this order: the commands and the loader of quests
    ([QuestAction.cpp], [Quest.cpp]), shop sales and buyback
    ([query/TradeHandlers.cpp]), the item handlers ([query/ItemHandlers.cpp]) over [Inventory], clans and guilds, crafting and
    item sets; and for parties an invariant over all reachable states. *)

From Stdlib Require Export ZArith Lia Bool.
From stdpp Require Export base tactics list list_numbers gmap strings option.

#[export] Set Default Goal Selector "!".

Declare Scope tawd_scope.
Delimit Scope tawd_scope with tawd.
#[global] Open Scope Z_scope.

(** ** Machine integers

    C++ integers are [Z]; the wrap-around of the width is written out where a
    value is stored. [int] is 32 bits, [short] 16, [char] 8, [long] 64. *)

Definition unsigned (w : Z) (z : Z) : Z := z mod 2 ^ w.
Definition signed (w : Z) (z : Z) : Z := (z + 2 ^ (w - 1)) mod 2 ^ w - 2 ^ (w - 1).

Abbreviation u8 := (unsigned 8).
Abbreviation u16 := (unsigned 16).
Abbreviation u32 := (unsigned 32).
Abbreviation u64 := (unsigned 64).
Abbreviation i8 := (signed 8).
Abbreviation i16 := (signed 16).
Abbreviation i32 := (signed 32).
Abbreviation i64 := (signed 64).

Definition in_signed (w : Z) (z : Z) : Prop := - 2 ^ (w - 1) <= z < 2 ^ (w - 1).
Definition in_unsigned (w : Z) (z : Z) : Prop := 0 <= z < 2 ^ w.

Abbreviation in_i32 := (in_signed 32).
Abbreviation in_u32 := (in_unsigned 32).

(** ** List searches shared by the components

    [find_idx p l] is the first index whose element satisfies [p]: the loop
    [for(i..) if(p(v[i])) return i;] that most of the managers are made of. *)

Fixpoint find_idx {A} (p : A -> bool) (l : list A) : option nat :=
  match l with
  | [] => None
  | x :: l' => if p x then Some 0%nat else S <$> find_idx p l'
  end.

(** [idx o] is the C++ convention for such a result: the index, or -1. *)
Definition idx (o : option nat) : Z :=
  match o with Some i => Z.of_nat i | None => -1 end.

Fixpoint sumZ {A} (f : A -> Z) (l : list A) : Z :=
  match l with
  | [] => 0
  | x :: l' => f x + sumZ f l'
  end.

Definition countb {A} (p : A -> bool) (l : list A) : Z :=
  sumZ (fun x => if p x then 1 else 0) l.

(** [switch(x) { case k: return v; ... default: return dflt; }]. *)
Fixpoint switch {A} (x : Z) (cases : list (Z * A)) (dflt : A) : A :=
  match cases with
  | [] => dflt
  | (k, v) :: cases' => if x =? k then v else switch x cases' dflt
  end.

(** ** Tactics *)


(** Case analysis on the boolean tests of the translated code. *)
Ltac case_test :=
  match goal with
  | |- context [if ?b then _ else _] => let E := fresh "E" in destruct b eqn:E
  | H : context [if ?b then _ else _] |- _ => let E := fresh "E" in destruct b eqn:E
  end.

(** Turn boolean comparison hypotheses into propositions. *)
Ltac to_prop :=
  repeat match goal with
  | H : (_ && _) = true |- _ => apply andb_true_iff in H as [? ?]
  | H : (_ || _) = false |- _ => apply orb_false_iff in H as [? ?]
  | H : (_ && _) = false |- _ => apply andb_false_iff in H
  | H : (_ || _) = true |- _ => apply orb_true_iff in H
  | H : negb _ = true |- _ => apply negb_true_iff in H
  | H : negb _ = false |- _ => apply negb_false_iff in H
  | H : (_ =? _) = true |- _ => apply Z.eqb_eq in H
  | H : (_ =? _) = false |- _ => apply Z.eqb_neq in H
  | H : (_ <? _) = true |- _ => apply Z.ltb_lt in H
  | H : (_ <? _) = false |- _ => apply Z.ltb_ge in H
  | H : (_ <=? _) = true |- _ => apply Z.leb_le in H
  | H : (_ <=? _) = false |- _ => apply Z.leb_gt in H
  | H : (_ =? _)%nat = true |- _ => apply Nat.eqb_eq in H
  | H : (_ =? _)%nat = false |- _ => apply Nat.eqb_neq in H
  | H : (_ <? _)%nat = true |- _ => apply Nat.ltb_lt in H
  | H : (_ <? _)%nat = false |- _ => apply Nat.ltb_ge in H
  end.

(** ** Results of operations with loops

    [Undef] is undefined behaviour, [NoFuel] a loop that has not ended within the
    fuel. *)

Inductive Res (A : Type) := Ret (a : A) | Undef | NoFuel.
Arguments Ret {A} a.
Arguments Undef {A}.
Arguments NoFuel {A}.

#[export] Instance Res_ret : MRet Res := fun A a => Ret a.
#[export] Instance Res_bind : MBind Res := fun A B f r =>
  match r with Ret a => f a | Undef => Undef | NoFuel => NoFuel end.

(** An operation without a loop. *)
Definition lift {A} (o : option A) : Res A := match o with Some a => Ret a | None => Undef end.

Lemma Ret_bind {A B} (r : Res A) (k : A -> Res B) b : (r ≫= k) = Ret b <-> exists a, r = Ret a /\ k a = Ret b.
Proof. destruct r; simpl; split; try done; [by exists a|by intros (? & [= <-] & ?)|by intros (? & ? & _)..]. Qed.

Lemma lift_Ret {A} (o : option A) a : lift o = Ret a <-> o = Some a.
Proof. destruct o; simpl; split; congruence. Qed.

(** ** Machine integers: lemmas *)

Lemma unsigned_id w z : in_unsigned w z -> unsigned w z = z.
Proof. intros. by apply Z.mod_small. Qed.

Lemma signed_id w z : 0 < w -> in_signed w z -> signed w z = z.
Proof.
  intros Hw [H1 H2]. unfold signed.
  assert (2 ^ w = 2 * 2 ^ (w - 1)) as E.
  { rewrite <- Z.pow_succ_r by lia. f_equal. lia. }
  rewrite Z.mod_small; lia.
Qed.

Lemma unsigned_range w z : 0 <= w -> in_unsigned w (unsigned w z).
Proof. intros. apply Z.mod_pos_bound, Z.pow_pos_nonneg; lia. Qed.

Lemma signed_range w z : 0 < w -> in_signed w (signed w z).
Proof.
  intros Hw. unfold signed, in_signed.
  assert (2 ^ w = 2 * 2 ^ (w - 1)) as E.
  { rewrite <- Z.pow_succ_r by lia. f_equal. lia. }
  pose proof (Z.mod_pos_bound (z + 2 ^ (w - 1)) (2 ^ w)
    ltac:(apply Z.pow_pos_nonneg; lia)). lia.
Qed.

Lemma i32_id z : in_i32 z -> i32 z = z.
Proof. apply signed_id. lia. Qed.

Lemma unsigned_signed w z : unsigned w (signed w z) = unsigned w z.
Proof.
  unfold unsigned, signed. rewrite Zminus_mod_idemp_l. f_equal. lia.
Qed.

Lemma signed_unsigned w z : signed w (unsigned w z) = signed w z.
Proof. unfold unsigned, signed. by rewrite Zplus_mod_idemp_l. Qed.

Lemma unsigned_idem w z : unsigned w (unsigned w z) = unsigned w z.
Proof. unfold unsigned. apply Zmod_mod. Qed.

(** ** Searches: lemmas *)

Section Search.
Context {A : Type} (p : A -> bool).

Lemma find_idx_Some l i :
  find_idx p l = Some i ->
  exists x, l !! i = Some x /\ p x = true /\
    forall j y, (j < i)%nat -> l !! j = Some y -> p y = false.
Proof.
  revert i. induction l as [|x l IH]; intros i; simpl; [done|].
  destruct (p x) eqn:E.
  - intros [= <-]. exists x. split_and!; [done..|]. intros; lia.
  - destruct (find_idx p l) as [i'|]; [|done]. intros [= <-].
    destruct (IH i' eq_refl) as (y & Hy & Hp & Hlt).
    exists y. split_and!; [done..|]. intros [|j] z Hj Hz; simplify_eq/=; [done|].
    apply (Hlt j); [lia|done].
Qed.

Lemma find_idx_lookup l i :
  find_idx p l = Some i -> exists x, l !! i = Some x /\ p x = true.
Proof. intros (x & ? & ? & _)%find_idx_Some. eauto. Qed.

Lemma find_idx_None l : find_idx p l = None <-> Forall (fun x => p x = false) l.
Proof.
  induction l as [|x l IH]; simpl; [by split|].
  destruct (p x) eqn:E.
  - split; [done|]. intros H. inversion H; congruence.
  - destruct (find_idx p l); simpl; split.
    + done.
    + intros H. inversion H as [|? ? _ H3]; subst. apply IH in H3. done.
    + intros _. constructor; [done|]. by apply IH.
    + done.
Qed.

Lemma find_idx_is_Some l : is_Some (find_idx p l) <-> exists x, x ∈ l /\ p x = true.
Proof.
  split.
  - intros [i (x & Hx & Hp)%find_idx_lookup]. exists x. split; [|done].
    by eapply list_elem_of_lookup_2.
  - intros (x & Hx & Hp). destruct (find_idx p l) eqn:E; [by eexists|].
    apply find_idx_None in E.
    apply list_elem_of_lookup in Hx as [j Hj].
    apply (Forall_lookup_1 _ _ _ _ E) in Hj. congruence.
Qed.

(** The search for a key that is unique finds its element. *)
Lemma find_idx_unique {K} (key : A -> K) l r x :
  NoDup (key <$> l) -> l !! r = Some x -> (forall y, p y = true <-> key y = key x) ->
  find_idx p l = Some r.
Proof.
  intros Hnd Hr Hp. destruct (find_idx p l) as [r'|] eqn:E.
  - destruct (find_idx_lookup _ _ E) as (y & Hy & Hpy). f_equal.
    apply (NoDup_lookup (key <$> l) r' r (key x)); [done|..]; rewrite list_lookup_fmap.
    + rewrite Hy. simpl. f_equal. by apply Hp.
    + by rewrite Hr.
  - apply find_idx_None in E. apply (Forall_lookup_1 _ _ _ _ E) in Hr.
    by rewrite (proj2 (Hp x) eq_refl) in Hr.
Qed.

Lemma idx_nonneg (o : option nat) : 0 <= idx o <-> is_Some o.
Proof. destruct o; simpl; split; intros; [by eexists|lia|lia|by destruct H]. Qed.

Lemma idx_lt0 (o : option nat) : idx o = -1 <-> o = None.
Proof. destruct o; simpl; split; intros; [lia|done..]. Qed.

End Search.

(** ** Sums: lemmas *)

Section Sums.
Context {A : Type} (f : A -> Z).

Lemma sumZ_app l1 l2 : sumZ f (l1 ++ l2) = sumZ f l1 + sumZ f l2.
Proof. induction l1; simpl; lia. Qed.

Lemma sumZ_delete (l : list A) i x :
  l !! i = Some x -> sumZ f (delete i l) = sumZ f l - f x.
Proof.
  revert i. induction l as [|y l IH]; intros [|i] H; simplify_eq/=; [lia|].
  rewrite (IH i H). lia.
Qed.

Lemma sumZ_insert (l : list A) i x y :
  l !! i = Some x -> sumZ f (<[i:=y]> l) = sumZ f l - f x + f y.
Proof.
  revert i. induction l as [|z l IH]; intros [|i] H; simplify_eq/=; [lia|].
  rewrite (IH i H). lia.
Qed.

Lemma sumZ_nonneg l : Forall (fun x => 0 <= f x) l -> 0 <= sumZ f l.
Proof. induction 1; simpl; lia. Qed.

Lemma sumZ_ext (g : A -> Z) l : (forall x, x ∈ l -> f x = g x) -> sumZ f l = sumZ g l.
Proof.
  induction l as [|x l IH]; intros H; simpl; [done|].
  rewrite (H x) by left. rewrite IH; [done|]. intros y Hy. apply H. by right.
Qed.

Lemma sumZ_perm l1 l2 : l1 ≡ₚ l2 -> sumZ f l1 = sumZ f l2.
Proof. induction 1; simpl; lia. Qed.

End Sums.

#[export] Instance sumZ_Proper {A} (f : A -> Z) : Proper ((≡ₚ) ==> eq) (sumZ f).
Proof. intros l1 l2. apply sumZ_perm. Qed.

Create HintDb tawd.
Create Rewrite HintDb tawd.
#[export] Hint Resolve unsigned_range signed_range : tawd.
#[export] Hint Rewrite @sumZ_app @length_app @length_insert : tawd.
