(* ===== verification/ByteBuffer.v ===== *)
(** * ByteBuffer: the big-endian wire encoding

    Models [src/SOURCE/Server/ByteBuffer.cpp]. A [char*] buffer that is being
    filled is the list of the bytes written so far, each a [Z] in 0..255; the
    idiom [wpos += PutX(&buffer[wpos], v)] is then [buffer ++ PutX v], and the
    value the C++ function returns is the length of the list. A buffer that is
    being read is the list of the bytes from the read position on; reading past
    its end, which is undefined behaviour in C++, is [None]. Every getter
    returns its value and the amount it adds to [advance].

    C strings are [string]; [cstr] is the part a [char*] reader sees. A [float]
    is its IEEE bit pattern (a 32-bit [Z]). *)

From S2P Require Import Prelude.

(** ** Bytes of C strings *)

Definition byte_of_ascii (c : Ascii.ascii) : Z := Z.of_N (Ascii.N_of_ascii c).
Definition ascii_of_byte (b : Z) : Ascii.ascii := Ascii.ascii_of_N (Z.to_N b).

Definition bytes_of (s : string) : list Z :=
  byte_of_ascii <$> String.list_ascii_of_string s.
Definition string_of (l : list Z) : string :=
  String.string_of_list_ascii (ascii_of_byte <$> l).

(** The characters before the first NUL. *)
Fixpoint cstr (s : string) : string :=
  match s with
  | EmptyString => EmptyString
  | String c s' => if byte_of_ascii c =? 0 then EmptyString else String c (cstr s')
  end.

Definition strlen (s : string) : Z := Z.of_nat (String.length (cstr s)).

Definition is_byte (b : Z) : Prop := 0 <= b < 256.

(** ** Writers into a raw buffer *)

Definition PutByte (val : Z) : list Z := [Z.land val 0xFF].

Definition PutShort (val : Z) : list Z :=
  [Z.shiftr (Z.land val 0xFF00) 8; Z.land val 0x00FF].

Definition PutShortReq : Z := 2.

(** [val & 0xFF000000] is computed in [unsigned int]. *)
Definition PutInteger (val : Z) : list Z :=
  [Z.shiftr (Z.land (u32 val) 0xFF000000) 24;
   Z.shiftr (Z.land val 0x00FF0000) 16;
   Z.shiftr (Z.land val 0x0000FF00) 8;
   Z.land val 0x000000FF].

Definition PutIntegerReq : Z := 4.

(** The four bytes of a [float] in memory on the little-endian targets the
    server is built for, lowest address first. *)
Definition float_memory (bits : Z) : list Z :=
  [Z.land bits 0xFF; Z.land (Z.shiftr bits 8) 0xFF;
   Z.land (Z.shiftr bits 16) 0xFF; Z.land (Z.shiftr bits 24) 0xFF].

Definition PutFloat (bits : Z) : list Z :=
  match float_memory bits with
  | [d0; d1; d2; d3] => [d3; d2; d1; d0]
  | _ => []
  end.

Definition PutStringUTF (tocopy : string) : list Z :=
  let len := strlen tocopy in
  if len <? 255 then Z.land len 0xFF :: bytes_of (cstr tocopy)
  else 0xFF :: Z.shiftr (Z.land len 0xFF00) 8 :: Z.land len 0x00FF
         :: bytes_of (cstr tocopy).

(** The number of bytes [PutStringUTF] writes. *)
Definition PutStringReq (tocopy : string) : Z :=
  let len := strlen tocopy in if len <? 255 then len + 1 else len + 3.

(** [PutShort(&buffer[pos], v)] into a part of the buffer already written. *)
Fixpoint write_at (pos : nat) (new buffer : list Z) : list Z :=
  match pos, buffer with
  | S pos', b :: buffer' => b :: write_at pos' new buffer'
  | O, _ => new ++ drop (length new) buffer
  | S _, [] => []
  end.

(** ** Readers *)

Definition GetByte (buffer : list Z) : option (Z * Z) :=
  match buffer with
  | b0 :: _ => Some (b0, 1)
  | _ => None
  end.

(** [short retval], returned as [unsigned short]. *)
Definition GetShort (buffer : list Z) : option (Z * Z) :=
  match buffer with
  | b0 :: b1 :: _ => Some (u16 (i16 (Z.lor (Z.shiftl b0 8) b1)), 2)
  | _ => None
  end.

Definition GetInteger (buffer : list Z) : option (Z * Z) :=
  match buffer with
  | b0 :: b1 :: b2 :: b3 :: _ =>
      Some (i32 (Z.lor (Z.lor (Z.lor (Z.shiftl b0 24) (Z.shiftl b1 16)) (Z.shiftl b2 8)) b3), 4)
  | _ => None
  end.

(** The bytes are stored back in memory order and read as a [float]. *)
Definition GetFloat (buffer : list Z) : option (Z * Z) :=
  match buffer with
  | b0 :: b1 :: b2 :: b3 :: _ =>
      Some (Z.lor (Z.lor (Z.lor b3 (Z.shiftl b2 8)) (Z.shiftl b1 16)) (Z.shiftl b0 24), 4)
  | _ => None
  end.

(** The text copied into [recbuf] (at most [bufsize - 1] bytes; [recbuf] is
    NUL-terminated after them) and the advance, which is that of the whole
    string. A byte missing from [buffer] among those copied is [None]. *)
Definition GetStringUTF (buffer : list Z) (bufsize : Z) : option (list Z * Z) :=
  match buffer with
  | [] => None
  | b0 :: rest =>
      let header :=
        if b0 =? 0xFF then
          match rest with
          | b1 :: b2 :: rest' => Some (Z.lor (Z.shiftl b1 8) b2, 3, rest')
          | _ => None
          end
        else Some (b0, 1, rest) in
      match header with
      | None => None
      | Some (len, pos, text) =>
          let tocopy := if bufsize - 1 <? len then bufsize - 1 else len in
          if Z.of_nat (length text) <? tocopy then None
          else Some (take (Z.to_nat tocopy) text, len + pos)
      end
  end.

(** The copied text as a [std::string]: up to its first NUL. *)
Definition GetCPPStringUTF (buffer : list Z) (bufsize : Z) : option (string * Z) :=
  match GetStringUTF buffer bufsize with
  | Some (text, advance) => Some (cstr (string_of text), advance)
  | None => None
  end.

(** ** The growable [BinaryBuffer]

    [mData.insert(mData.end(), tocopy[0], tocopy[len])] is, for two arguments of
    type [char], the overload [insert(pos, count, value)]: it appends
    [tocopy[0]] copies of the terminating NUL. A negative [char] becomes a
    count near 2^64 and [insert] throws [length_error]: [None]. *)
Module BinaryBuffer.

Record BinaryBuffer := mkBinaryBuffer { mData : list Z; mWritePos : Z }.

Definition new : BinaryBuffer := mkBinaryBuffer [] 0.

Definition push (b : BinaryBuffer) (l : list Z) : BinaryBuffer :=
  mkBinaryBuffer (mData b ++ l) (mWritePos b).

Definition PutByte (b : BinaryBuffer) (value : Z) : BinaryBuffer :=
  push b [Z.land value 0xFF].

Definition PutShort (b : BinaryBuffer) (value : Z) : BinaryBuffer :=
  push b [Z.shiftr (Z.land value 0xFF00) 8; Z.land value 0x00FF].

Definition PutInteger (b : BinaryBuffer) (value : Z) : BinaryBuffer :=
  push b [Z.shiftr (Z.land (u32 value) 0xFF000000) 24;
          Z.shiftr (Z.land value 0x00FF0000) 16;
          Z.shiftr (Z.land value 0x0000FF00) 8;
          Z.land value 0x000000FF].

(** [tocopy[0]] as the element count of [insert]; the NUL of an empty string
    counts 0. *)
Definition insert_chars (tocopy : string) : option (list Z) :=
  match cstr tocopy with
  | EmptyString => Some []
  | String c _ =>
      let n := i8 (byte_of_ascii c) in
      if n <? 0 then None else Some (replicate (Z.to_nat n) 0)
  end.

Definition PutStringUTF (b : BinaryBuffer) (tocopy : string) : option BinaryBuffer :=
  let len := strlen tocopy in
  if len <? 255 then
    let b1 := push b [u8 len] in
    if 0 <? len then push b1 <$> insert_chars tocopy else Some b1
  else
    let b1 := push b [0xFF; Z.shiftr (Z.land len 0xFF00) 8; Z.land len 0x00FF] in
    push b1 <$> insert_chars tocopy.

Definition GetSize (b : BinaryBuffer) : Z := Z.of_nat (length (mData b)).

End BinaryBuffer.

(** ** Lemmas *)

Lemma byte_of_ascii_range c : is_byte (byte_of_ascii c).
Proof.
  unfold is_byte, byte_of_ascii. pose proof (Ascii.N_ascii_bounded c). lia.
Qed.

Lemma ascii_byte c : ascii_of_byte (byte_of_ascii c) = c.
Proof.
  unfold ascii_of_byte, byte_of_ascii. rewrite N2Z.id. apply Ascii.ascii_N_embedding.
Qed.

Lemma string_of_bytes s : string_of (bytes_of s) = s.
Proof.
  unfold string_of, bytes_of. induction s as [|c s IH]; simpl; [done|].
  rewrite ascii_byte. f_equal. exact IH.
Qed.

Lemma bytes_of_length s : length (bytes_of s) = String.length s.
Proof.
  unfold bytes_of. rewrite length_fmap. induction s; simpl; congruence.
Qed.

Lemma bytes_of_range s : Forall is_byte (bytes_of s).
Proof.
  unfold bytes_of. apply Forall_fmap, Forall_true. apply byte_of_ascii_range.
Qed.

Lemma cstr_idem s : cstr (cstr s) = cstr s.
Proof.
  induction s as [|c s IH]; simpl; [done|].
  destruct (byte_of_ascii c =? 0) eqn:E; simpl; [done|]. by rewrite E, IH.
Qed.

Lemma strlen_nonneg s : 0 <= strlen s.
Proof. unfold strlen. lia. Qed.

(** A mask of [k] ones starting at bit [n] selects the digit of weight [2^n]. *)
Lemma byte_at (v n : Z) :
  0 <= n -> Z.shiftr (Z.land v (Z.shiftl 0xFF n)) n = Z.land (Z.shiftr v n) 0xFF.
Proof.
  intros. rewrite Z.shiftr_land. f_equal.
  rewrite Z.shiftr_shiftl_l by lia. by replace (n - n) with 0 by lia.
Qed.

Lemma land_ff v : Z.land v 0xFF = v mod 256.
Proof. change 0xFF with (Z.ones 8). by rewrite Z.land_ones. Qed.

Lemma byte_at' (v n : Z) :
  0 <= n -> Z.shiftr (Z.land v (Z.shiftl 0xFF n)) n = (v / 2 ^ n) mod 256.
Proof. intros. by rewrite byte_at, land_ff, Z.shiftr_div_pow2 by lia. Qed.

Lemma PutByte_mod v : PutByte v = [v mod 256].
Proof. unfold PutByte. by rewrite land_ff. Qed.

Lemma PutShort_mod v : PutShort v = [(v / 256) mod 256; v mod 256].
Proof.
  unfold PutShort. rewrite land_ff. f_equal.
  change 0xFF00 with (Z.shiftl 0xFF 8). by rewrite byte_at' by lia.
Qed.

Lemma PutInteger_mod v :
  PutInteger v =
    [(u32 v / 2 ^ 24) mod 256; (v / 2 ^ 16) mod 256; (v / 256) mod 256; v mod 256].
Proof.
  unfold PutInteger. rewrite land_ff.
  change 0xFF000000 with (Z.shiftl 0xFF 24).
  change 0x00FF0000 with (Z.shiftl 0xFF 16).
  change 0x0000FF00 with (Z.shiftl 0xFF 8).
  by rewrite !byte_at' by lia.
Qed.

Lemma mod256_byte v : is_byte (v mod 256).
Proof. apply Z.mod_pos_bound. lia. Qed.
#[export] Hint Resolve mod256_byte byte_of_ascii_range bytes_of_range : tawd.

Lemma PutByte_bytes v : Forall is_byte (PutByte v).
Proof. rewrite PutByte_mod. eauto with tawd. Qed.

Lemma PutShort_bytes v : Forall is_byte (PutShort v).
Proof. rewrite PutShort_mod. eauto with tawd. Qed.

Lemma PutInteger_bytes v : Forall is_byte (PutInteger v).
Proof. rewrite PutInteger_mod. do 4 (constructor; [apply mod256_byte|]). constructor. Qed.

Lemma PutStringUTF_bytes s : Forall is_byte (PutStringUTF s).
Proof.
  unfold PutStringUTF. destruct (strlen s <? 255).
  - constructor; [rewrite land_ff|]; eauto with tawd.
  - change 0xFF00 with (Z.shiftl 0xFF 8). rewrite byte_at', land_ff by lia.
    constructor; [unfold is_byte; lia|].
    constructor; [apply mod256_byte|]. constructor; [apply mod256_byte|].
    apply bytes_of_range.
Qed.

Lemma PutStringUTF_length s : Z.of_nat (length (PutStringUTF s)) = PutStringReq s.
Proof.
  unfold PutStringUTF, PutStringReq. pose proof (bytes_of_length (cstr s)).
  unfold strlen in *. case_test; simpl; lia.
Qed.

(** Disjoint bit fields add up. *)
Lemma lor_shiftl_add a b n : 0 <= n -> 0 <= b < 2 ^ n -> Z.lor (Z.shiftl a n) b = a * 2 ^ n + b.
Proof.
  intros Hn Hb. rewrite <- Z.shiftl_mul_pow2 by lia.
  rewrite <- Z.add_lor_land.
  enough (Z.land (Z.shiftl a n) b = 0) by lia.
  destruct (Z.eq_dec b 0) as [->|Hb0]; [by rewrite Z.land_0_r|].
  apply Z.bits_inj'. intros i Hi. rewrite Z.land_spec, Z.bits_0.
  destruct (Z.lt_ge_cases i n).
  - by rewrite Z.shiftl_spec_low by lia.
  - rewrite andb_comm, (Z.bits_above_log2 b i); [done|lia|].
    apply Z.log2_lt_pow2; [lia|]. apply Z.lt_le_trans with (2 ^ n); [lia|].
    apply Z.pow_le_mono_r; lia.
Qed.

(** Reading back what the writers wrote, from a longer buffer. *)
Lemma GetByte_PutByte v rest : GetByte (PutByte v ++ rest) = Some (u8 v, 1).
Proof. by rewrite PutByte_mod. Qed.

Lemma GetShort_PutShort_lemma v rest :
  GetShort (PutShort v ++ rest) = Some (u16 v, 2).
Proof.
  rewrite PutShort_mod. simpl. do 2 f_equal.
  rewrite lor_shiftl_add by (try lia; apply mod256_byte).
  rewrite unsigned_signed. unfold unsigned.
  change (2 ^ 8) with 256. change (2 ^ 16) with (256 * 256).
  rewrite (Z.rem_mul_r v 256 256) by lia.
  rewrite (Z.mod_small (_ * 256 + _)); [lia|].
  pose proof (mod256_byte v). pose proof (mod256_byte (v / 256)).
  unfold is_byte in *. lia.
Qed.

Lemma u32_digits v :
  (u32 v / 2 ^ 24) mod 256 * 2 ^ 24 + (v / 2 ^ 16) mod 256 * 2 ^ 16
    + (v / 256) mod 256 * 2 ^ 8 + v mod 256 = u32 v.
Proof.
  unfold unsigned. change (2 ^ 32) with (2 ^ 24 * 256).
  rewrite (Z.rem_mul_r v (2 ^ 24) 256) at 1 by lia.
  rewrite (Z.mul_comm (2 ^ 24) ((v / 2 ^ 24) mod 256)), Z.div_add by lia.
  rewrite (Z.div_small (v mod 2 ^ 24)) by (apply Z.mod_pos_bound; lia).
  rewrite Z.add_0_l, Zmod_mod.
  rewrite (Z.rem_mul_r v (2 ^ 24) 256) by lia.
  change (2 ^ 24) with (2 ^ 16 * 256) at 3. rewrite (Z.rem_mul_r v (2 ^ 16) 256) by lia.
  change (2 ^ 16) with (256 * 256) at 3. rewrite (Z.rem_mul_r v 256 256) by lia.
  lia.
Qed.

Lemma GetInteger_PutInteger_lemma v rest :
  GetInteger (PutInteger v ++ rest) = Some (i32 v, 4).
Proof.
  rewrite PutInteger_mod. simpl. do 2 f_equal.
  pose proof (mod256_byte (u32 v / 2 ^ 24)) as H3.
  pose proof (mod256_byte (v / 2 ^ 16)) as H2.
  pose proof (mod256_byte (v / 256)) as H1.
  pose proof (mod256_byte v) as H0.
  pose proof (u32_digits v) as E.
  set (d3 := (u32 v / 2 ^ 24) mod 256) in *. set (d2 := (v / 2 ^ 16) mod 256) in *.
  set (d1 := (v / 256) mod 256) in *. set (d0 := v mod 256) in *.
  unfold is_byte in *.
  replace (Z.shiftl d3 24) with (Z.shiftl (Z.shiftl d3 8) 16) by (by rewrite Z.shiftl_shiftl by lia).
  rewrite <- Z.shiftl_lor, (lor_shiftl_add d3 d2 8) by lia.
  replace (Z.shiftl (d3 * 2 ^ 8 + d2) 16) with (Z.shiftl (Z.shiftl (d3 * 2 ^ 8 + d2) 8) 8)
    by (by rewrite Z.shiftl_shiftl by lia).
  rewrite <- Z.shiftl_lor, (lor_shiftl_add _ d1 8), (lor_shiftl_add _ d0 8) by lia.
  rewrite <- (signed_unsigned 32 v), <- E. f_equal. lia.
Qed.

Lemma GetFloat_PutFloat_lemma bits rest :
  in_u32 bits -> GetFloat (PutFloat bits ++ rest) = Some (bits, 4).
Proof.
  intros Hb. unfold PutFloat, float_memory. cbn [app GetFloat]. do 2 f_equal.
  rewrite !land_ff, !Z.shiftr_div_pow2 by lia.
  pose proof (mod256_byte bits) as H0. pose proof (mod256_byte (bits / 2 ^ 8)) as H1.
  pose proof (mod256_byte (bits / 2 ^ 16)) as H2. pose proof (mod256_byte (bits / 2 ^ 24)) as H3.
  unfold is_byte in *.
  rewrite (Z.lor_comm (bits mod 256)), lor_shiftl_add by lia.
  rewrite (Z.lor_comm (_ + _)), lor_shiftl_add by lia.
  rewrite (Z.lor_comm (_ + _)), lor_shiftl_add by lia.
  pose proof (u32_digits bits) as E. rewrite (unsigned_id 32 bits Hb) in E.
  change (2 ^ 8) with 256 in *. lia.
Qed.

Lemma GetStringUTF_PutStringUTF_lemma s rest bufsize :
  strlen s < 65536 -> strlen s < bufsize ->
  GetStringUTF (PutStringUTF s ++ rest) bufsize =
    Some (bytes_of (cstr s), PutStringReq s).
Proof.
  intros Hlen Hbuf. unfold PutStringUTF, PutStringReq.
  pose proof (strlen_nonneg s) as H0.
  assert (Z.of_nat (length (bytes_of (cstr s))) = strlen s) as Hl
    by (by rewrite bytes_of_length).
  assert (forall b, take (Z.to_nat (strlen s)) (bytes_of (cstr s) ++ b) = bytes_of (cstr s)) as Ht.
  { intros b. replace (Z.to_nat (strlen s)) with (length (bytes_of (cstr s))) by lia.
    by rewrite take_app_length. }
  destruct (strlen s <? 255) eqn:E; to_prop; simpl.
  - rewrite land_ff, Z.mod_small by lia.
    destruct (strlen s =? 255) eqn:E1; to_prop; [lia|].
    destruct (bufsize - 1 <? strlen s) eqn:E2; to_prop; [lia|].
    rewrite length_app. destruct (_ <? strlen s) eqn:E3; to_prop; [lia|].
    by rewrite Ht.
  - change 0xFF00 with (Z.shiftl 0xFF 8). rewrite byte_at', land_ff by lia.
    rewrite lor_shiftl_add by (try lia; apply mod256_byte).
    assert ((strlen s / 2 ^ 8) mod 256 * 2 ^ 8 + strlen s mod 256 = strlen s) as ->.
    { change (2 ^ 8) with 256.
      rewrite (Z.mod_small (_ / _)); [|split; [apply Z.div_pos; lia|apply Z.div_lt_upper_bound; lia]].
      pose proof (Z.div_mod (strlen s) 256 ltac:(lia)). lia. }
    destruct (bufsize - 1 <? strlen s) eqn:E2; to_prop; [lia|].
    rewrite length_app. destruct (_ <? strlen s) eqn:E3; to_prop; [lia|].
    by rewrite Ht.
Qed.

(** ** Properties *)

(** A string written by [PutStringUTF] (either header form: one byte below
    255 bytes, [0xFF] and a 16-bit length from there) is read back by
    [GetCPPStringUTF] from any longer buffer, and [advance] moves by exactly the
    [PutStringReq] bytes written, for every string shorter than 65536 bytes that
    fits the receiving buffer. *)
Theorem PutStringUTF_roundtrip (s : string) (rest : list Z) (bufsize : Z)
    (Hlen : strlen s < 65536) (Hbuf : strlen s < bufsize) :
  GetCPPStringUTF (PutStringUTF s ++ rest) bufsize = Some (cstr s, PutStringReq s).
Proof.
  unfold GetCPPStringUTF. rewrite GetStringUTF_PutStringUTF_lemma by done.
  by rewrite string_of_bytes, cstr_idem.
Qed.

Lemma PutStringUTF_roundtrip_witness :
  strlen "valkal" < 65536 /\ strlen "valkal" < 32 /\
  GetCPPStringUTF (PutStringUTF "valkal" ++ [7; 7]) 32 = Some (cstr "valkal", 7).
Proof.
  split; [reflexivity|]. split; [reflexivity|].
  exact (PutStringUTF_roundtrip "valkal" [7; 7] 32 eq_refl eq_refl).
Defined.

(** [GetInteger] inverts [PutInteger] for every 32-bit [int] and [GetShort]
    inverts [PutShort] for every 16-bit value, whatever follows in the buffer;
    outside those ranges the value comes back reduced to the width. *)
Theorem Put_Get_integers (v : Z) (rest : list Z) :
  GetInteger (PutInteger v ++ rest) = Some (i32 v, 4) /\
  GetShort (PutShort v ++ rest) = Some (u16 v, 2) /\
  GetByte (PutByte v ++ rest) = Some (u8 v, 1).
Proof.
  split_and!.
  - apply GetInteger_PutInteger_lemma.
  - apply GetShort_PutShort_lemma.
  - apply GetByte_PutByte.
Qed.

(** [BinaryBuffer::PutStringUTF] does not append the text: for every
    non-empty string below 255 bytes whose first character is ASCII, the buffer
    grows by the length byte followed by [tocopy[0]] zero bytes, so unlike the
    raw-buffer writer the string cannot be read back. *)
Theorem BinaryBuffer_PutStringUTF_loses_text (b : BinaryBuffer.BinaryBuffer)
    (c : Ascii.ascii) (s : string)
    (Hc : 0 < byte_of_ascii c < 128) (Hlen : strlen (String c s) < 255) :
  BinaryBuffer.mData <$> BinaryBuffer.PutStringUTF b (String c s) =
    Some (BinaryBuffer.mData b ++
          strlen (String c s) :: replicate (Z.to_nat (byte_of_ascii c)) 0).
Proof.
  unfold BinaryBuffer.PutStringUTF.
  assert (cstr (String c s) = String c (cstr s)) as Hs.
  { simpl. destruct (byte_of_ascii c =? 0) eqn:E; to_prop; [lia|done]. }
  assert (0 < strlen (String c s)) as Hpos.
  { unfold strlen. rewrite Hs. simpl. lia. }
  unfold BinaryBuffer.insert_chars. rewrite Hs.
  rewrite (signed_id 8) by (unfold in_signed; lia).
  destruct (_ <? 255) eqn:E1; to_prop; [|lia].
  destruct (0 <? _) eqn:E2; to_prop; [|lia].
  destruct (byte_of_ascii c <? 0) eqn:E3; to_prop; [lia|].
  rewrite unsigned_id by (unfold in_unsigned; lia).
  simpl. f_equal. by rewrite <- app_assoc.
Qed.

Lemma BinaryBuffer_PutStringUTF_loses_text_witness :
  BinaryBuffer.mData <$> BinaryBuffer.PutStringUTF BinaryBuffer.new (String (ascii_of_byte 9) "A") =
    Some [2; 0; 0; 0; 0; 0; 0; 0; 0; 0].
Proof.
  exact (BinaryBuffer_PutStringUTF_loses_text BinaryBuffer.new (ascii_of_byte 9) "A"
           (conj eq_refl eq_refl) eq_refl).
Defined.
