(* ===== verification/Messages.v ===== *)
(** * Messages: the packets the server prepares

    Models the [PrepExt_*] writers of [src/SOURCE/Server/Util.cpp] and the
    [QueryResponse] builder of [src/SOURCE/Server/query/Query.cpp]. Each writer
    fills the buffer it is given from index 0 and returns the number of bytes;
    here it is the list of those bytes. The size placeholder written first as
    [PutShort(&buffer[1], 0)] and overwritten last by
    [PutShort(&buffer[1], wpos - 3)] is [seal]. *)

From S2P Require Import Prelude ByteBuffer.

(** [PutShort(&buffer[1], wpos - 3)]. *)
Definition seal (buffer : list Z) : list Z :=
  write_at 1 (PutShort (Z.of_nat (length buffer) - 3)) buffer.

Definition INFOMSG_INFO : Z := 0.
Definition INFOMSG_ERROR : Z := 1.

Section PrepExt.

Definition PrepExt_Chat (characterID : Z) (display_name channel message : string) : list Z :=
  seal (PutByte 50 ++ PutShort 0 ++ PutInteger characterID ++
        PutStringUTF display_name ++ PutStringUTF channel ++ PutStringUTF message).

Definition PrepExt_Broadcast (message : string) : list Z :=
  seal (PutByte 0 ++ PutShort 0 ++ PutStringUTF message ++ PutByte 14).

Definition PrepExt_Info (message : string) (eventID : Z) : list Z :=
  seal (PutByte 0 ++ PutShort 0 ++ PutStringUTF message ++ PutByte eventID).

Definition PrepExt_SetAvatar (creatureID : Z) : list Z :=
  seal (PutByte 0x04 ++ PutShort 0 ++ PutInteger creatureID ++ PutByte 0x01).

Definition PrepExt_SetTimeOfDay (timeOfDay : string) : list Z :=
  seal (PutByte 42 ++ PutShort 0 ++ PutByte 2 ++ PutStringUTF "NA" ++ PutInteger 999 ++
        PutShort 999 ++ PutStringUTF "NA" ++ PutStringUTF timeOfDay).

Definition PrepExt_SetWeather (type : string) (weight : Z) : list Z :=
  seal (PutByte 42 ++ PutShort 0 ++ PutByte 3 ++ PutStringUTF type ++ PutShort weight).

Definition PrepExt_Thunder (weight : Z) : list Z :=
  seal (PutByte 42 ++ PutShort 0 ++ PutByte 4 ++ PutShort weight).

Definition PrepExt_AbilityEvent (creatureID abilityID abilityEvent : Z) : list Z :=
  seal (PutByte 60 ++ PutShort 0 ++ PutInteger creatureID ++ PutShort abilityID ++
        PutByte abilityEvent ++ PutInteger 0 ++ PutInteger 0 ++ PutByte 0).

Definition PrepExt_CancelUseEvent (CreatureID : Z) : list Z :=
  seal (PutByte 4 ++ PutShort 0 ++ PutInteger CreatureID ++ PutByte 11 ++
        PutStringUTF "" ++ PutInteger (-1)).

Definition PrepExt_ActorJump (actor : Z) : list Z :=
  seal (PutByte 4 ++ PutShort 0 ++ PutInteger actor ++ PutByte 3).

Definition PrepExt_RemoveCreature (actorID : Z) : list Z :=
  seal (PutByte 4 ++ PutShort 0 ++ PutInteger actorID ++ PutByte 0).

Definition PrepExt_Damage (actorID : Z) (damageString ability : string)
    (critical absorbed : Z) : list Z :=
  seal (PutByte 4 ++ PutShort 0 ++ PutInteger actorID ++ PutByte 7 ++
        PutStringUTF damageString ++ PutStringUTF ability ++ PutByte critical ++
        PutByte absorbed).

Definition PrepExt_SendInfoMessage (message : string) (eventID : Z) : list Z :=
  seal (PutByte 0 ++ PutShort 0 ++ PutStringUTF message ++ PutByte eventID).

Definition PrepExt_SendFallDamage (damage : Z) : list Z :=
  seal (PutByte 0 ++ PutShort 0 ++ PutStringUTF "" ++ PutByte 11 ++ PutInteger damage).

Definition PrepExt_GenericChatMessage (creatureID : Z) (name channel message : string) : list Z :=
  seal (PutByte 0x32 ++ PutShort 0 ++ PutInteger creatureID ++ PutStringUTF name ++
        PutStringUTF channel ++ PutStringUTF message).

Definition PrepExt_CooldownExpired (actor : Z) (cooldownCategory : string) : list Z :=
  seal (PutByte 4 ++ PutShort 0 ++ PutInteger actor ++ PutByte 22 ++
        PutStringUTF cooldownCategory).

Definition PrepExt_ChangeTarget (sourceID targetID : Z) : list Z :=
  seal (PutByte 4 ++ PutShort 0 ++ PutInteger sourceID ++ PutByte 5 ++ PutInteger targetID).

(** The global [g_ProtocolVersion] is an argument. *)
Definition PrepExt_ExperienceGain (g_ProtocolVersion CreatureID ExpAmount : Z) : list Z :=
  seal (PutByte 4 ++ PutShort 0 ++ PutInteger CreatureID ++ PutByte 21 ++
        PutInteger ExpAmount ++
        (if 38 <=? g_ProtocolVersion then PutByte 0 else [])).

Definition PrepExt_QueryResponseNull (queryIndex : Z) : list Z :=
  seal (PutByte 1 ++ PutShort 0 ++ PutInteger queryIndex ++ PutShort 0).

Definition PrepExt_QueryResponseString (queryIndex : Z) (strData : string) : list Z :=
  seal (PutByte 1 ++ PutShort 0 ++ PutInteger queryIndex ++ PutShort 1 ++ PutByte 1 ++
        PutStringUTF strData).

Definition PrepExt_QueryResponseString2 (queryIndex : Z) (strData1 strData2 : string) : list Z :=
  seal (PutByte 1 ++ PutShort 0 ++ PutInteger queryIndex ++ PutShort 1 ++ PutByte 2 ++
        PutStringUTF strData1 ++ PutStringUTF strData2).

(** [count] as clamped by the writers: at most 255 strings are sent. *)
Definition clamp255 (size : Z) : Z := if 255 <? size then 255 else size.

Definition PrepExt_QueryResponseStringRows (queryIndex : Z) (strData : list string) : list Z :=
  let count := clamp255 (Z.of_nat (length strData)) in
  seal (PutByte 1 ++ PutShort 0 ++ PutInteger queryIndex ++ PutShort count ++
        concat (map (fun s => PutByte 1 ++ PutStringUTF s) (take (Z.to_nat count) strData))).

Definition PrepExt_QueryResponseStringList (queryIndex : Z) (strData : list string) : list Z :=
  let count := clamp255 (Z.of_nat (length strData)) in
  seal (PutByte 1 ++ PutShort 0 ++ PutInteger queryIndex ++ PutShort 1 ++ PutByte count ++
        concat (map PutStringUTF (take (Z.to_nat count) strData))).

(** One row of a multi-string response, its string count clamped. *)
Definition write_row (row : list string) : list Z :=
  let stringCount := clamp255 (Z.of_nat (length row)) in
  PutByte stringCount ++ concat (map PutStringUTF (take (Z.to_nat stringCount) row)).

Definition PrepExt_QueryResponseMultiString (queryIndex : Z) (strData : list (list string)) : list Z :=
  seal (PutByte 1 ++ PutShort 0 ++ PutInteger queryIndex ++
        PutShort (Z.of_nat (length strData)) ++ concat (map write_row strData)).

Definition PrepExt_QueryResponseError (queryIndex : Z) (message : string) : list Z :=
  seal (PutByte 1 ++ PutShort 0 ++ PutInteger queryIndex ++ PutShort 0x7000 ++
        PutStringUTF message).

Definition PrepExt_Achievement (creatureID : Z) (achievement scoreSpec : string) : list Z :=
  seal (PutByte 55 ++ PutShort 0 ++ PutInteger creatureID ++ PutStringUTF achievement ++
        PutStringUTF scoreSpec).

Definition PrepExt_SendBookOpen (bookID page op : Z) : list Z :=
  seal (PutByte 96 ++ PutShort 0 ++ PutByte op ++ PutInteger bookID ++ PutInteger page).

Definition PrepExt_SendUICommand (op window : string) : list Z :=
  seal (PutByte 89 ++ PutShort 0 ++ PutStringUTF op ++ PutStringUTF window).

Definition PrepExt_Refashion : list Z := seal (PutByte 53 ++ PutShort 0 ++ PutByte 0).

Definition PrepExt_Craft : list Z := seal (PutByte 54 ++ PutShort 0 ++ PutByte 0).

Definition PrepExt_SendFormClose (formId : Z) : list Z :=
  seal (PutByte 52 ++ PutShort 0 ++ PutInteger formId ++ PutShort 1).

End PrepExt.

(** ** Forms ([Forms.h]) *)

Record FormItem := mkFormItem {
  mName : string; mType : Z; mValue : string; mCells : Z; mWidth : Z; mStyle : string }.

Record FormRow := mkFormRow { mGroup : string; mItems : list FormItem; mHeight : Z }.

Record FormDefinition := mkFormDefinition {
  mTitle : string; mDescription : string; mRows : list FormRow; mId : Z }.

Definition write_form_item (i : FormItem) : list Z :=
  PutStringUTF (mName i) ++ PutShort (mType i) ++ PutStringUTF (mValue i) ++
  PutShort (mCells i) ++ PutShort (mWidth i) ++ PutStringUTF (mStyle i).

Definition write_form_row (r : FormRow) : list Z :=
  PutStringUTF (mGroup r) ++ PutShort (mHeight r) ++
  PutShort (i32 (Z.of_nat (length (mItems r)))) ++ concat (map write_form_item (mItems r)).

Section PrepExtForms.

Definition PrepExt_SendFormOpen (form : FormDefinition) : list Z :=
  seal (PutByte 52 ++ PutShort 0 ++ PutInteger (mId form) ++ PutShort 0 ++
        PutStringUTF (mTitle form) ++ PutStringUTF (mDescription form) ++
        PutShort (Z.of_nat (length (mRows form))) ++
        concat (map write_form_row (mRows form))).

Definition PrepExt_SendEffect (sourceID : Z) (effectName : string) (targetID : Z) : list Z :=
  seal (PutByte 4 ++ PutShort 0 ++ PutInteger sourceID ++
        PutByte (if targetID =? 0 then 4 else 12) ++ PutStringUTF effectName ++
        (if targetID =? 0 then [] else PutInteger targetID)).

Definition PrepExt_SendHeartbeatMessage (elapsedMilliseconds : Z) : list Z :=
  seal (PutByte 90 ++ PutShort 0 ++ PutInteger elapsedMilliseconds).

Definition MODMESSAGE_EVENT_EMOTE := 2.
Definition MODMESSAGE_EVENT_EMOTE_CONTROL := 3.
Definition MODMESSAGE_EVENT_STOP_SWIM := 40.
Definition MODMESSAGE_EVENT_START_SWIM := 41.

Definition PrepExt_SendAdvancedEmote (creatureID : Z) (emoteName : string)
    (emoteSpeed : Z) (loop : Z) : list Z :=
  seal (PutByte 100 ++ PutShort 0 ++ PutByte MODMESSAGE_EVENT_EMOTE ++
        PutInteger creatureID ++ PutStringUTF emoteName ++ PutFloat emoteSpeed ++
        PutByte (if loop =? 0 then 0 else 1)).

Definition PrepExt_SendEmoteControl (creatureID emoteEvent : Z) : list Z :=
  seal (PutByte 100 ++ PutShort 0 ++ PutByte MODMESSAGE_EVENT_EMOTE_CONTROL ++
        PutInteger creatureID ++ PutByte emoteEvent).

Definition PrepExt_ModStopSwimFlag (swim : bool) : list Z :=
  seal (PutByte 100 ++ PutShort 0 ++
        PutByte (if swim then MODMESSAGE_EVENT_START_SWIM else MODMESSAGE_EVENT_STOP_SWIM)).

Definition PrepExt_CreatureEventPortalRequest (actorID : Z) (casterName locationName : string) : list Z :=
  seal (PutByte 4 ++ PutShort 0 ++ PutInteger actorID ++ PutByte 24 ++
        PutStringUTF casterName ++ PutStringUTF locationName).

Definition PrepExt_CreatureEventVaultSize (actorID vaultSize deliverySlots : Z) : list Z :=
  seal (PutByte 4 ++ PutShort 0 ++ PutInteger actorID ++ PutByte 25 ++
        PutInteger vaultSize ++ PutInteger deliverySlots).

(** [TradeEventTypes], [CloseReasons] and [CurrencyCategory] of [Globals.h]. *)
Definition TradeEventTypes_REQUEST := 0.
Definition TradeEventTypes_REQUEST_ACCEPTED := 1.
Definition TradeEventTypes_REQUEST_CLOSED := 2.
Definition TradeEventTypes_ITEM_ADDED := 3.
Definition TradeEventTypes_ITEM_REMOVED := 4.
Definition TradeEventTypes_CURRENCY_OFFERED := 5.
Definition TradeEventTypes_OFFER_MADE := 6.
Definition TradeEventTypes_OFFER_ACCEPTED := 7.
Definition TradeEventTypes_OFFER_CANCELED := 8.
Definition TradeEventTypes_ITEMS_OFFERED := 9.

Definition CloseReasons_COMPLETE := 0.
Definition CloseReasons_TIMEOUT := 1.
Definition CloseReasons_DISTANCE := 2.
Definition CloseReasons_CANCELED := 3.
Definition CloseReasons_INSUFFICIENT_FUNDS := 4.
Definition CloseReasons_INSUFFICIENT_SPACE := 5.

Definition CurrencyCategory_COPPER := 0.
Definition CurrencyCategory_CREDITS := 1.

Definition PrepExt_TradeCurrencyOffer (offeringPlayerID tradeAmount : Z) : list Z :=
  seal (PutByte 51 ++ PutShort 0 ++ PutInteger offeringPlayerID ++
        PutByte TradeEventTypes_CURRENCY_OFFERED ++ PutByte 1 ++
        PutByte CurrencyCategory_COPPER ++ PutInteger tradeAmount).

End PrepExtForms.

(** ** The [QueryResponse] builder

    [throw logic_error(what)] is [inl what]; a returned size is the written
    bytes in [inr]. The object is passed and returned; [Row()->push_back] on
    the last row is [push_back]. *)
Module QueryResponse.

Record QueryResponse := mkQueryResponse {
  mQueryID : Z; mResponse : list (list string); mBufferSet : bool; mCommitted : bool }.

(** The two constructors: without and with a buffer. *)
Definition new (queryID : Z) : QueryResponse := mkQueryResponse queryID [] false false.
Definition new_with_buffer (queryID : Z) : QueryResponse := mkQueryResponse queryID [] true false.

Definition Row (r : QueryResponse) : QueryResponse :=
  mkQueryResponse (mQueryID r) (mResponse r ++ [[]]) (mBufferSet r) (mCommitted r).

Definition AddRow (r : QueryResponse) (cols : list string) : QueryResponse :=
  mkQueryResponse (mQueryID r) (mResponse r ++ [cols]) (mBufferSet r) (mCommitted r).

Definition commit (r : QueryResponse) : QueryResponse :=
  mkQueryResponse (mQueryID r) (mResponse r) (mBufferSet r) true.

(** No clamping here: a row of more than 255 strings has its count truncated. *)
Definition write_row (row : list string) : list Z :=
  PutByte (Z.of_nat (length row)) ++ concat (map PutStringUTF row).

Definition Write (r : QueryResponse) : string + (list Z * QueryResponse) :=
  if mCommitted r then inl "Already committed"%string
  else inr (seal (PutByte 1 ++ PutShort 0 ++ PutInteger (mQueryID r) ++
                  PutShort (Z.of_nat (length (mResponse r))) ++
                  concat (map write_row (mResponse r))), commit r).

Definition Data (r : QueryResponse) : string + (list Z * QueryResponse) := Write r.

Definition contains_data (r : QueryResponse) : bool :=
  match mResponse r with [] => false | _ => true end.

Definition StringR (r : QueryResponse) (str : string) : string + (list Z * QueryResponse) :=
  if contains_data r then inl "This response contains data."%string
  else if negb (mBufferSet r) then inl "Not constructed with buffer."%string
  else Write (AddRow r [str]).

Definition Error (r : QueryResponse) (err : string) : string + (list Z * QueryResponse) :=
  if contains_data r then inl "This response contains data."%string
  else if negb (mBufferSet r) then inl "Not constructed with buffer."%string
  else if mCommitted r then inl "Already committed"%string
  else inr (seal (PutByte 1 ++ PutShort 0 ++ PutInteger (mQueryID r) ++ PutShort 0x7000 ++
                  PutStringUTF err), commit r).

Definition Null (r : QueryResponse) : string + (list Z * QueryResponse) :=
  if contains_data r then inl "This response contains data."%string
  else if negb (mBufferSet r) then inl "Not constructed with buffer."%string
  else Write r.

End QueryResponse.

(** ** The client's view: framing and query results

    The stream the client reads is a sequence of frames, an opcode byte, a
    16-bit size and that many bytes; a query result is a query index, a row
    count and for each row a string count and the strings. These decoders are
    the specification the writers are proved against. *)

Definition parse_frame (buffer : list Z) : option (Z * list Z * list Z) :=
  match buffer with
  | op :: rest =>
      match GetShort rest with
      | Some (size, _) =>
          let body := drop 2 rest in
          if Z.of_nat (length body) <? size then None
          else Some (op, take (Z.to_nat size) body, drop (Z.to_nat size) body)
      | None => None
      end
  | [] => None
  end.

Fixpoint parse_frames (fuel : nat) (buffer : list Z) : option (list (Z * list Z)) :=
  match fuel, buffer with
  | _, [] => Some []
  | O, _ => None
  | S fuel', _ =>
      match parse_frame buffer with
      | Some (op, body, rest) => cons (op, body) <$> parse_frames fuel' rest
      | None => None
      end
  end.

Fixpoint decode_strings (n : nat) (buffer : list Z) : option (list string * list Z) :=
  match n with
  | O => Some ([], buffer)
  | S n' =>
      match GetCPPStringUTF buffer 65537 with
      | Some (s, advance) =>
          match decode_strings n' (drop (Z.to_nat advance) buffer) with
          | Some (l, rest) => Some (s :: l, rest)
          | None => None
          end
      | None => None
      end
  end.

Fixpoint decode_rows (n : nat) (buffer : list Z) : option (list (list string) * list Z) :=
  match n with
  | O => Some ([], buffer)
  | S n' =>
      match GetByte buffer with
      | Some (count, _) =>
          match decode_strings (Z.to_nat count) (drop 1 buffer) with
          | Some (row, rest) =>
              match decode_rows n' rest with
              | Some (rows, rest') => Some (row :: rows, rest')
              | None => None
              end
          | None => None
          end
      | None => None
      end
  end.

(** A whole query result message: its query index and rows. *)
Definition decode_query_result (buffer : list Z) : option (Z * list (list string)) :=
  match parse_frame buffer with
  | Some (1, body, []) =>
      match GetInteger body with
      | Some (queryIndex, _) =>
          match GetShort (drop 4 body) with
          | Some (rowCount, _) =>
              match decode_rows (Z.to_nat rowCount) (drop 6 body) with
              | Some (rows, []) => Some (queryIndex, rows)
              | _ => None
              end
          | None => None
          end
      | None => None
      end
  | _ => None
  end.

(** The messages of this file as one type, their writer and their opcode. *)
Inductive ServerMessage :=
| MChat (characterID : Z) (display_name channel message : string)
| MBroadcast (message : string)
| MInfo (message : string) (eventID : Z)
| MSetAvatar (creatureID : Z)
| MSetTimeOfDay (timeOfDay : string)
| MSetWeather (type : string) (weight : Z)
| MThunder (weight : Z)
| MAbilityEvent (creatureID abilityID abilityEvent : Z)
| MCancelUseEvent (CreatureID : Z)
| MActorJump (actor : Z)
| MRemoveCreature (actorID : Z)
| MDamage (actorID : Z) (damageString ability : string) (critical absorbed : Z)
| MSendInfoMessage (message : string) (eventID : Z)
| MSendFallDamage (damage : Z)
| MGenericChatMessage (creatureID : Z) (name channel message : string)
| MCooldownExpired (actor : Z) (cooldownCategory : string)
| MChangeTarget (sourceID targetID : Z)
| MExperienceGain (version CreatureID ExpAmount : Z)
| MQueryResponseNull (queryIndex : Z)
| MQueryResponseString (queryIndex : Z) (strData : string)
| MQueryResponseString2 (queryIndex : Z) (strData1 strData2 : string)
| MQueryResponseStringRows (queryIndex : Z) (strData : list string)
| MQueryResponseStringList (queryIndex : Z) (strData : list string)
| MQueryResponseMultiString (queryIndex : Z) (strData : list (list string))
| MQueryResponseError (queryIndex : Z) (message : string)
| MAchievement (creatureID : Z) (achievement scoreSpec : string)
| MSendBookOpen (bookID page op : Z)
| MSendUICommand (op window : string)
| MRefashion
| MCraft
| MSendFormClose (formId : Z)
| MSendFormOpen (form : FormDefinition)
| MSendEffect (sourceID : Z) (effectName : string) (targetID : Z)
| MSendHeartbeatMessage (elapsedMilliseconds : Z)
| MSendAdvancedEmote (creatureID : Z) (emoteName : string) (emoteSpeed loop : Z)
| MSendEmoteControl (creatureID emoteEvent : Z)
| MModStopSwimFlag (swim : bool)
| MTradeCurrencyOffer (offeringPlayerID tradeAmount : Z)
| MCreatureEventPortalRequest (actorID : Z) (casterName locationName : string)
| MCreatureEventVaultSize (actorID vaultSize deliverySlots : Z).

Definition write_message (m : ServerMessage) : list Z :=
  match m with
  | MChat a b c d => PrepExt_Chat a b c d
  | MBroadcast a => PrepExt_Broadcast a
  | MInfo a b => PrepExt_Info a b
  | MSetAvatar a => PrepExt_SetAvatar a
  | MSetTimeOfDay a => PrepExt_SetTimeOfDay a
  | MSetWeather a b => PrepExt_SetWeather a b
  | MThunder a => PrepExt_Thunder a
  | MAbilityEvent a b c => PrepExt_AbilityEvent a b c
  | MCancelUseEvent a => PrepExt_CancelUseEvent a
  | MActorJump a => PrepExt_ActorJump a
  | MRemoveCreature a => PrepExt_RemoveCreature a
  | MDamage a b c d e => PrepExt_Damage a b c d e
  | MSendInfoMessage a b => PrepExt_SendInfoMessage a b
  | MSendFallDamage a => PrepExt_SendFallDamage a
  | MGenericChatMessage a b c d => PrepExt_GenericChatMessage a b c d
  | MCooldownExpired a b => PrepExt_CooldownExpired a b
  | MChangeTarget a b => PrepExt_ChangeTarget a b
  | MExperienceGain a b c => PrepExt_ExperienceGain a b c
  | MQueryResponseNull a => PrepExt_QueryResponseNull a
  | MQueryResponseString a b => PrepExt_QueryResponseString a b
  | MQueryResponseString2 a b c => PrepExt_QueryResponseString2 a b c
  | MQueryResponseStringRows a b => PrepExt_QueryResponseStringRows a b
  | MQueryResponseStringList a b => PrepExt_QueryResponseStringList a b
  | MQueryResponseMultiString a b => PrepExt_QueryResponseMultiString a b
  | MQueryResponseError a b => PrepExt_QueryResponseError a b
  | MAchievement a b c => PrepExt_Achievement a b c
  | MSendBookOpen a b c => PrepExt_SendBookOpen a b c
  | MSendUICommand a b => PrepExt_SendUICommand a b
  | MRefashion => PrepExt_Refashion
  | MCraft => PrepExt_Craft
  | MSendFormClose a => PrepExt_SendFormClose a
  | MSendFormOpen a => PrepExt_SendFormOpen a
  | MSendEffect a b c => PrepExt_SendEffect a b c
  | MSendHeartbeatMessage a => PrepExt_SendHeartbeatMessage a
  | MSendAdvancedEmote a b c d => PrepExt_SendAdvancedEmote a b c d
  | MSendEmoteControl a b => PrepExt_SendEmoteControl a b
  | MModStopSwimFlag a => PrepExt_ModStopSwimFlag a
  | MTradeCurrencyOffer a b => PrepExt_TradeCurrencyOffer a b
  | MCreatureEventPortalRequest a b c => PrepExt_CreatureEventPortalRequest a b c
  | MCreatureEventVaultSize a b c => PrepExt_CreatureEventVaultSize a b c
  end.

(** The opcode the client dispatches on. *)
Definition opcode (m : ServerMessage) : Z :=
  match m with
  | MBroadcast _ | MInfo _ _ | MSendInfoMessage _ _ | MSendFallDamage _ => 0
  | MQueryResponseNull _ | MQueryResponseString _ _ | MQueryResponseString2 _ _ _
  | MQueryResponseStringRows _ _ | MQueryResponseStringList _ _
  | MQueryResponseMultiString _ _ | MQueryResponseError _ _ => 1
  | MSetAvatar _ | MCancelUseEvent _ | MActorJump _ | MRemoveCreature _
  | MDamage _ _ _ _ _ | MCooldownExpired _ _ | MChangeTarget _ _
  | MExperienceGain _ _ _ | MSendEffect _ _ _
  | MCreatureEventPortalRequest _ _ _ | MCreatureEventVaultSize _ _ _ => 4
  | MSetTimeOfDay _ | MSetWeather _ _ | MThunder _ => 42
  | MChat _ _ _ _ | MGenericChatMessage _ _ _ _ => 50
  | MTradeCurrencyOffer _ _ => 51
  | MSendFormClose _ | MSendFormOpen _ => 52
  | MRefashion => 53
  | MCraft => 54
  | MAchievement _ _ _ => 55
  | MAbilityEvent _ _ _ => 60
  | MSendUICommand _ _ => 89
  | MSendHeartbeatMessage _ => 90
  | MSendBookOpen _ _ _ => 96
  | MSendAdvancedEmote _ _ _ _ | MSendEmoteControl _ _ | MModStopSwimFlag _ => 100
  end.

(** The message fits its 16-bit size field. *)
Definition fits (buffer : list Z) : Prop := Z.of_nat (length buffer) - 3 < 65536.

(** ** Lemmas *)

Lemma seal_frame op body :
  seal (PutByte op ++ PutShort 0 ++ body) =
    op mod 256 :: PutShort (Z.of_nat (length body)) ++ body.
Proof.
  unfold seal. rewrite PutByte_mod, !PutShort_mod. simpl. rewrite drop_0.
  replace (Z.of_nat (S (S (S (length body)))) - 3) with (Z.of_nat (length body)) by lia.
  done.
Qed.

Lemma fits_seal op body :
  fits (seal (PutByte op ++ PutShort 0 ++ body)) <-> Z.of_nat (length body) < 65536.
Proof.
  unfold fits. rewrite seal_frame, PutShort_mod. cbn [length app]. lia.
Qed.

Lemma parse_frame_seal op body rest :
  0 <= op < 256 -> Z.of_nat (length body) < 65536 ->
  parse_frame (seal (PutByte op ++ PutShort 0 ++ body) ++ rest) = Some (op, body, rest).
Proof.
  intros Hop Hlen. rewrite seal_frame. unfold parse_frame. cbn [app].
  rewrite <- (app_assoc (PutShort _)), GetShort_PutShort_lemma.
  rewrite unsigned_id by (unfold in_unsigned; lia).
  rewrite PutShort_mod. cbn [app skipn]. rewrite !drop_0, length_app.
  destruct (_ <? _) eqn:E; to_prop; [lia|].
  rewrite Nat2Z.id, take_app_length, drop_app_length, Z.mod_small by done. done.
Qed.

Lemma write_message_sealed m :
  exists body, write_message m = seal (PutByte (opcode m) ++ PutShort 0 ++ body).
Proof. destruct m; eexists; reflexivity. Qed.

Lemma opcode_byte m : 0 <= opcode m < 256.
Proof. destruct m; simpl; lia. Qed.

Lemma parse_frame_message m rest :
  fits (write_message m) ->
  parse_frame (write_message m ++ rest) = Some (opcode m, drop 3 (write_message m), rest).
Proof.
  intros Hfit. destruct (write_message_sealed m) as [body E]. rewrite E in *.
  assert (drop 3 (seal (PutByte (opcode m) ++ PutShort 0 ++ body)) = body) as ->.
  { by rewrite seal_frame, PutShort_mod. }
  apply parse_frame_seal; [apply opcode_byte|]. by apply fits_seal in Hfit.
Qed.

Lemma write_message_nonempty m : exists b l, write_message m = b :: l.
Proof. destruct (write_message_sealed m) as [body ->]. rewrite seal_frame. eauto. Qed.

Lemma decode_strings_app l rest :
  Forall (fun s => strlen s < 65536) l ->
  decode_strings (length l) (concat (map PutStringUTF l) ++ rest) = Some (map cstr l, rest).
Proof.
  induction 1 as [|s l Hs Hl IH]; simpl; [done|].
  rewrite <- app_assoc. unfold GetCPPStringUTF.
  rewrite GetStringUTF_PutStringUTF_lemma by lia.
  rewrite string_of_bytes, cstr_idem. cbn [fst snd].
  rewrite <- (PutStringUTF_length s), Nat2Z.id, drop_app_length, IH. done.
Qed.

Definition row_ok (row : list string) : Prop :=
  Z.of_nat (length row) <= 255 /\ Forall (fun s => strlen s < 65536) row.

Lemma decode_rows_app rows rest :
  Forall row_ok rows ->
  decode_rows (length rows) (concat (map QueryResponse.write_row rows) ++ rest) =
    Some (map (map cstr) rows, rest).
Proof.
  induction 1 as [|row rows [Hn Hs] Hl IH]; [done|].
  cbn [length decode_rows map concat].
  replace (QueryResponse.write_row row) with
    (PutByte (Z.of_nat (length row)) ++ concat (map PutStringUTF row)) by done.
  rewrite <- !app_assoc.
  rewrite GetByte_PutByte, unsigned_id by (unfold in_unsigned; lia).
  rewrite Nat2Z.id, PutByte_mod. cbn [app skipn]; rewrite ?drop_0.
  rewrite decode_strings_app, IH by done. done.
Qed.

Lemma decode_query_result_rows queryIndex rows :
  in_i32 queryIndex -> Forall row_ok rows -> Z.of_nat (length rows) < 65536 ->
  let b := seal (PutByte 1 ++ PutShort 0 ++ PutInteger queryIndex ++
             PutShort (Z.of_nat (length rows)) ++ concat (map QueryResponse.write_row rows)) in
  fits b -> decode_query_result b = Some (queryIndex, map (map cstr) rows).
Proof.
  intros Hq Hrows Hn b Hfit. unfold decode_query_result.
  rewrite <- (app_nil_r b). subst b.
  apply fits_seal in Hfit. rewrite parse_frame_seal by (done || lia).
  rewrite GetInteger_PutInteger_lemma, i32_id by done.
  rewrite PutInteger_mod. cbn [app skipn]; rewrite ?drop_0.
  rewrite GetShort_PutShort_lemma, unsigned_id by (unfold in_unsigned; lia).
  rewrite PutShort_mod. cbn [app skipn]; rewrite ?drop_0.
  rewrite Nat2Z.id, <- (app_nil_r (concat _)), decode_rows_app by done. done.
Qed.

Lemma clamp255_id n : n <= 255 -> clamp255 n = n.
Proof. intros. unfold clamp255. case_test; to_prop; lia. Qed.

Lemma write_row_clamped row :
  Z.of_nat (length row) <= 255 -> write_row row = QueryResponse.write_row row.
Proof.
  intros. unfold write_row, QueryResponse.write_row.
  rewrite clamp255_id by done. rewrite Nat2Z.id, take_ge by lia. done.
Qed.

(** ** Properties *)

(** C33. Any sequence of server messages written one after the other into the
    send buffer, each small enough for its 16-bit size field, is cut back by the
    client's framing into exactly those messages: every message is announced by
    its own opcode and its size field covers its body and nothing else. *)
Theorem messages_frame (ms : list ServerMessage)
    (Hfit : Forall (fun m => fits (write_message m)) ms) :
  parse_frames (length ms) (concat (map write_message ms)) =
    Some (map (fun m => (opcode m, drop 3 (write_message m))) ms).
Proof.
  induction Hfit as [|m ms Hm Hms IH]; simpl; [done|].
  destruct (write_message_nonempty m) as (b & l & Hb).
  pose proof (parse_frame_message m (concat (map write_message ms)) Hm) as Hp.
  rewrite Hb in Hp |- *. cbn [app] in Hp |- *. rewrite Hp, IH. done.
Qed.

Lemma messages_frame_witness :
  parse_frames 2 (write_message (MQueryResponseString 7 "OK") ++
                  write_message (MTradeCurrencyOffer 4 100) ++ []) =
  Some [(1, [0; 0; 0; 7; 0; 1; 1; 2; 79; 75]);
        (51, [0; 0; 0; 4; 5; 1; 0; 0; 0; 0; 100])].
Proof.
  exact (messages_frame [MQueryResponseString 7 "OK"; MTradeCurrencyOffer 4 100]
           ltac:(repeat constructor)).
Defined.

(** A query result built with [QueryResponse] (or with
    [PrepExt_QueryResponseMultiString]) decodes on the client to the query index
    and exactly the rows that were added, as long as the message fits, every row
    has at most 255 strings and every string is below 65536 bytes. *)
Theorem query_result_roundtrip (queryIndex : Z) (rows : list (list string))
    (Hq : in_i32 queryIndex) (Hrows : Forall row_ok rows)
    (Hn : Z.of_nat (length rows) < 65536)
    (Hfit : fits (PrepExt_QueryResponseMultiString queryIndex rows)) :
  decode_query_result (PrepExt_QueryResponseMultiString queryIndex rows) =
    Some (queryIndex, map (map cstr) rows) /\
  exists b r,
    QueryResponse.Write (foldl QueryResponse.AddRow (QueryResponse.new queryIndex) rows) =
      inr (b, r) /\
    b = PrepExt_QueryResponseMultiString queryIndex rows /\ QueryResponse.mCommitted r = true.
Proof.
  assert (PrepExt_QueryResponseMultiString queryIndex rows =
    seal (PutByte 1 ++ PutShort 0 ++ PutInteger queryIndex ++
      PutShort (Z.of_nat (length rows)) ++ concat (map QueryResponse.write_row rows))) as E.
  { unfold PrepExt_QueryResponseMultiString. do 6 f_equal.
    clear Hn Hfit. induction Hrows as [|row l [Hr _] _ IH]; simpl; [done|].
    by rewrite write_row_clamped, IH. }
  split.
  - rewrite E in Hfit |- *. exact (decode_query_result_rows _ _ Hq Hrows Hn Hfit).
  - assert (forall r l, foldl QueryResponse.AddRow r l =
      QueryResponse.mkQueryResponse (QueryResponse.mQueryID r) (QueryResponse.mResponse r ++ l)
        (QueryResponse.mBufferSet r) (QueryResponse.mCommitted r)) as Hf.
    { intros r l. revert r. induction l as [|x l IH]; intros [q m b c]; simpl.
      - by rewrite app_nil_r.
      - rewrite IH. simpl. by rewrite <- app_assoc. }
    rewrite Hf, E. eexists _, _. split_and!; reflexivity.
Qed.

Lemma query_result_roundtrip_witness :
  decode_query_result (PrepExt_QueryResponseMultiString 12 [["clan"%string; "motd"%string]; []]) =
    Some (12, [["clan"%string; "motd"%string]; []]).
Proof.
  assert (Forall row_ok [["clan"%string; "motd"%string]; []]) as H.
  { repeat constructor; by vm_compute. }
  exact (proj1 (query_result_roundtrip 12 [["clan"%string; "motd"%string]; []]
    ltac:(vm_compute; intuition congruence) H eq_refl eq_refl)).
Defined.

(** A [QueryResponse] answers once: after any successful [Write], [Data],
    [String], [Error] or [Null], every later call of one of them throws, so a
    handler cannot put two results in one response. *)
Theorem query_response_commits_once (r r' : QueryResponse.QueryResponse) (b : list Z) (s : string)
    (H : QueryResponse.Write r = inr (b, r') \/ QueryResponse.Data r = inr (b, r') \/
         QueryResponse.StringR r s = inr (b, r') \/ QueryResponse.Error r s = inr (b, r') \/
         QueryResponse.Null r = inr (b, r')) :
  (exists e, QueryResponse.Write r' = inl e) /\ (exists e, QueryResponse.Data r' = inl e) /\
  (forall s', exists e, QueryResponse.StringR r' s' = inl e) /\
  (forall s', exists e, QueryResponse.Error r' s' = inl e) /\
  (exists e, QueryResponse.Null r' = inl e).
Proof.
  assert (QueryResponse.mCommitted r' = true) as Hc.
  { unfold QueryResponse.Data, QueryResponse.StringR, QueryResponse.Error,
      QueryResponse.Null, QueryResponse.Write in H.
    decompose [or] H; clear H; repeat case_test; simplify_eq/=; done. }
  unfold QueryResponse.Data, QueryResponse.StringR, QueryResponse.Error,
    QueryResponse.Null, QueryResponse.Write.
  cbn. rewrite Hc.
  split_and!; intros; repeat case_test; eauto.
Qed.

Lemma query_response_commits_once_witness :
  exists e, QueryResponse.Write
    (QueryResponse.commit (QueryResponse.new_with_buffer 3)) = inl e.
Proof.
  exact (proj1 (query_response_commits_once (QueryResponse.new_with_buffer 3)
    _ _ EmptyString (or_introl eq_refl))).
Defined.
