(* ===== verification/Text.v ===== *)
(** * Text: the string helpers

    Models the string functions of namespace [Util] in
    [src/SOURCE/Server/Util.cpp] and the C library conversions the server's
    parsers rely on ([strtol], [atoi], the [%d] and [%X] conversions of
    [sprintf]), in the C locale. A [std::string] is [string]. *)

From S2P Require Import Prelude ByteBuffer.

Abbreviation code := byte_of_ascii.
Abbreviation chr := ascii_of_byte.

(** ** The C library conversions *)

Definition isspace (c : Ascii.ascii) : bool := (code c =? 32) || ((9 <=? code c) && (code c <=? 13)).

(** The value of a digit in base up to 16, or -1. *)
Definition digit_value (c : Ascii.ascii) : Z :=
  let n := code c in
  if (48 <=? n) && (n <=? 57) then n - 48
  else if (65 <=? n) && (n <=? 70) then n - 55
  else if (97 <=? n) && (n <=? 102) then n - 87
  else -1.

Definition is_digit (base : Z) (c : Ascii.ascii) : bool :=
  (0 <=? digit_value c) && (digit_value c <? base).

Fixpoint skip_space (s : string) : string :=
  match s with
  | String c s' => if isspace c then skip_space s' else s
  | EmptyString => s
  end.

Fixpoint scan_digits (base : Z) (s : string) (acc : Z) : Z :=
  match s with
  | String c s' => if is_digit base c then scan_digits base s' (acc * base + digit_value c) else acc
  | EmptyString => acc
  end.

(** The optional sign and, in base 16, the optional [0x] before a digit. *)
Definition skip_sign (s : string) : Z * string :=
  match s with
  | String c s' => if code c =? 45 then (-1, s') else if code c =? 43 then (1, s') else (1, s)
  | EmptyString => (1, s)
  end.

Definition skip_0x (base : Z) (s : string) : string :=
  match s with
  | String c0 (String cx (String d s')) =>
      if (base =? 16) && (code c0 =? 48) && ((code cx =? 120) || (code cx =? 88)) && is_digit 16 d
      then String d s' else s
  | _ => s
  end.

Definition clamp_long (z : Z) : Z := Z.max (- 2 ^ 63) (Z.min z (2 ^ 63 - 1)).

Definition strtol (s : string) (base : Z) : Z :=
  let (sign, s1) := skip_sign (skip_space s) in
  clamp_long (sign * scan_digits base (skip_0x base s1) 0).

Definition atoi (s : string) : Z := i32 (strtol s 10).

(** [sprintf] of an unsigned value in a base, upper case, and [%d]. *)
Definition digit_char (d : Z) : Ascii.ascii := chr (if d <? 10 then 48 + d else 55 + d).

Fixpoint print_digits (fuel : nat) (base n : Z) (acc : string) : string :=
  match fuel with
  | O => acc
  | S fuel' =>
      if n <? base then String (digit_char n) acc
      else print_digits fuel' base (n / base) (String (digit_char (n mod base)) acc)
  end.

Definition print_unsigned (base n : Z) : string := print_digits (S (Z.to_nat (Z.log2 n))) base n "".

Definition sprintf_X (n : Z) : string := print_unsigned 16 n.
Definition sprintf_d (n : Z) : string :=
  if n <? 0 then String (chr 45) (print_unsigned 10 (- n)) else print_unsigned 10 n.

(** [%lu]. *)
Definition sprintf_lu (n : Z) : string := print_unsigned 10 n.

(** [strtoul(s, NULL, 0)]: the base is that of a C constant. *)
Definition constant_base (s : string) : Z :=
  match s with
  | String c0 s' =>
      if code c0 =? 48 then
        match s' with
        | String cx (String d _) =>
            if ((code cx =? 120) || (code cx =? 88)) && is_digit 16 d then 16 else 8
        | _ => 8
        end
      else 10
  | EmptyString => 10
  end.

Definition strtoul (s : string) : Z :=
  let (sign, s1) := skip_sign (skip_space s) in
  let base := constant_base s1 in
  let v := scan_digits base (skip_0x base s1) 0 in
  if 2 ^ 64 <=? v then 2 ^ 64 - 1 else u64 (sign * v).

(** ** Splitting and joining *)

(** [Split]: every match of [delim] ends a piece and the search resumes one
    character after the start of the match. [cur] is the piece being read,
    reversed. [delim] is not empty. *)
Fixpoint split_from (delim s : string) (cur : string) : list string :=
  match s with
  | EmptyString => [cur]
  | String c s' =>
      if String.prefix delim s then cur :: split_from delim s' EmptyString
      else split_from delim s' (cur +:+ String c EmptyString)
  end.

Definition Split (source delim : string) : list string := split_from delim source EmptyString.

Fixpoint Join (src : list string) (delim : string) : string :=
  match src with
  | [] => EmptyString
  | [s] => s
  | s :: src' => s +:+ delim +:+ Join src' delim
  end.

Definition backslash : Ascii.ascii := chr 92.

Fixpoint unescape_from (escaped : bool) (s : string) : string :=
  match s with
  | EmptyString => EmptyString
  | String c s' =>
      if (code c =? 92) && negb escaped then unescape_from true s'
      else String c (unescape_from false s')
  end.

Definition Unescape (source : string) : string := unescape_from false source.

(** [SplitEscaped] with [*delim = d]; escapes are kept in the pieces. *)
Fixpoint split_escaped_from (d : Ascii.ascii) (escaped : bool) (s cur : string) : list string :=
  match s with
  | EmptyString => [cur]
  | String c s' =>
      if (code c =? 92) && negb escaped then
        split_escaped_from d true s' (cur +:+ String c EmptyString)
      else if negb escaped && (code c =? code d) then
        cur :: split_escaped_from d escaped s' EmptyString
      else split_escaped_from d false s' (cur +:+ String c EmptyString)
  end.

(** The body of the [do] loop runs once before the length is tested:
    [source.at(0)] throws on an empty source. *)
Definition SplitEscaped (source : string) (d : Ascii.ascii) : option (list string) :=
  match source with
  | EmptyString => None
  | _ => Some (split_escaped_from d false source EmptyString)
  end.

(** ** Small helpers *)

Definition ClipInt (value min max : Z) : Z :=
  if value <? min then min else if max <? value then max else value.

Definition ClipIntMin (value min : Z) : Z := if value <? min then min else value.

Definition lower (c : Ascii.ascii) : Ascii.ascii :=
  if (65 <=? code c) && (code c <=? 90) then chr (code c + 32) else c.

Fixpoint map_string (f : Ascii.ascii -> Ascii.ascii) (s : string) : string :=
  match s with
  | EmptyString => EmptyString
  | String c s' => String (f c) (map_string f s')
  end.

Definition ToLowerCase (input : string) : string := map_string lower input.

Fixpoint same_lower (s1 s2 : string) : bool :=
  match s1, s2 with
  | String c1 s1', String c2 s2' =>
      if negb (code (lower c1) =? code (lower c2)) then false else same_lower s1' s2'
  | _, _ => true
  end.

Definition CaseInsensitiveStringCompare (str1 str2 : string) : bool :=
  if negb (Nat.eqb (String.length str1) (String.length str2)) then false else same_lower str1 str2.

Definition Replace (source : string) (find replace : Ascii.ascii) : string :=
  map_string (fun c => if code c =? code find then replace else c) source.

Definition GetInteger (strList : list string) (index : nat) : Z :=
  if (length strList <=? index)%nat then 0
  else atoi (cstr (nth index strList EmptyString)).

Definition GetString (strList : list string) (index : nat) : option string :=
  if (length strList <=? index)%nat then None
  else Some (cstr (nth index strList EmptyString)).

Definition GetSafeString (strList : list string) (index : nat) : string :=
  if (length strList <=? index)%nat then EmptyString
  else cstr (nth index strList EmptyString).

(** [SanitizeClientString]: bytes below 32 or from 127 (a negative [char] is
    below 32) become a dot. *)
Definition SanitizeClientString (s : string) : string :=
  map_string (fun c => let n := i8 (code c) in
                if (n <? 32) || (127 <=? n) then chr 46 else c) (cstr s).

(** What [SafeFormat] leaves of a text in a buffer of [maxCount] bytes: [vsnprintf] is
    given one byte less. *)
Definition SafeFormat (maxCount : nat) (s : string) : string := String.substring 0 (maxCount - 2) (cstr s).

(** ** URL encoding *)

Definition isalnum (c : Ascii.ascii) : bool :=
  let n := code c in
  ((48 <=? n) && (n <=? 57)) || ((65 <=? n) && (n <=? 90)) || ((97 <=? n) && (n <=? 122)).

Definition url_plain (c : Ascii.ascii) : bool :=
  isalnum c || (code c =? 45) || (code c =? 95) || (code c =? 46) || (code c =? 126).

(** A lower-case hex digit, as [ostream << hex] prints it. *)
Definition hex_lower (d : Z) : Ascii.ascii := chr (if d <? 10 then 48 + d else 87 + d).

Fixpoint URLEncode (str : string) : string :=
  match str with
  | EmptyString => EmptyString
  | String c s =>
      if url_plain c then String c (URLEncode s)
      else String (chr 37) (String (hex_lower (code c / 16))
             (String (hex_lower (code c mod 16)) (URLEncode s)))
  end.

(** [sscanf(two characters, "%x", &ii)]: blanks, an optional sign, digits; when
    there is no digit [ii] keeps its value. *)
Definition scan_x (s : string) (ii : Z) : Z :=
  let (sign, s1) := skip_sign (skip_space (cstr s)) in
  match s1 with
  | String d _ => if is_digit 16 d then u32 (sign * scan_digits 16 s1 0) else ii
  | EmptyString => ii
  end.

(** The in-place [URLDecode]; [ii] starts uninitialised and is an argument. A
    percent sign near the end takes what is left and ends the loop. *)
Fixpoint url_decode (ii : Z) (s : string) : string :=
  match s with
  | EmptyString => EmptyString
  | String c s' =>
      if code c =? 37 then
        match s' with
        | String a (String b s'') =>
            let ii' := scan_x (String a (String b EmptyString)) ii in
            String (chr (u8 ii')) (url_decode ii' s'')
        | _ => String (chr (u8 (scan_x s' ii))) EmptyString
        end
      else if code c =? 43 then String (chr 32) (url_decode ii s')
      else String c (url_decode ii s')
  end.

Definition URLDecode (ii : Z) (str : string) : string := url_decode ii str.

(** ** [ChangeData]: pending autosave changes ([Util.h]) *)

Record ChangeData := mkChangeData { FirstChange : Z; PendingChanges : Z; LastChange : Z }.

Definition ChangeData_new : ChangeData := mkChangeData 0 0 0.

(** The global [g_ServerTime] is an argument of the methods. *)
Definition AddChange (g_ServerTime : Z) (c : ChangeData) : ChangeData :=
  let pending := i32 (PendingChanges c + 1) in
  mkChangeData (if pending =? 1 then g_ServerTime else FirstChange c) pending g_ServerTime.

Definition IsLastChangeSince (g_ServerTime : Z) (c : ChangeData) (milliseconds : Z) : bool :=
  milliseconds <=? u64 (g_ServerTime - LastChange c).

Definition ClearPending (g_ServerTime : Z) (c : ChangeData) : ChangeData :=
  mkChangeData 0 0 g_ServerTime.

Definition CheckUpdateAndClear (g_ServerTime : Z) (c : ChangeData) (milliseconds : Z)
  : bool * ChangeData :=
  if PendingChanges c =? 0 then (false, c)
  else if milliseconds <=? u64 (g_ServerTime - FirstChange c)
       then (true, ClearPending g_ServerTime c) else (false, c).

(** ** Lemmas *)

Fixpoint all_chars (p : Ascii.ascii -> bool) (s : string) : bool :=
  match s with
  | EmptyString => true
  | String c s' => p c && all_chars p s'
  end.

(** A fact about every character or digit, checked by enumeration. *)
Lemma all_chars_mono (p q : Ascii.ascii -> bool) s :
  (forall c, p c = true -> q c = true) -> all_chars p s = true -> all_chars q s = true.
Proof.
  intros Hpq. induction s as [|c s IH]; [done|]. cbn [all_chars].
  rewrite !andb_true_iff. intros [Hc Hs]. auto.
Qed.

Lemma all_chars_app (p : Ascii.ascii -> bool) s1 s2 : all_chars p (s1 +:+ s2) = all_chars p s1 && all_chars p s2.
Proof.
  induction s1 as [|c s1 IH]; [done|]. change (String c s1 +:+ s2) with (String c (s1 +:+ s2)).
  cbn [all_chars]. by rewrite IH, andb_assoc.
Qed.

Lemma small_range_forall (n : Z) (p : Z -> bool) :
  forallb p (seqZ 0 n) = true -> forall d, 0 <= d < n -> p d = true.
Proof.
  intros H d Hd. rewrite forallb_forall in H. apply H.
  apply list_elem_of_In, elem_of_seqZ. lia.
Qed.

Lemma chr_range_forall (p : Ascii.ascii -> bool) :
  forallb (fun z => p (chr z)) (seqZ 0 256) = true -> forall c, p c = true.
Proof.
  intros H c. rewrite <- (ascii_byte c).
  apply (small_range_forall 256 (fun z => p (chr z)) H). apply byte_of_ascii_range.
Qed.

Lemma digit_value_char d : 0 <= d < 16 -> digit_value (digit_char d) = d.
Proof.
  intros. apply Z.eqb_eq.
  by apply (small_range_forall 16 (fun d => digit_value (digit_char d) =? d)).
Qed.

Lemma is_digit_char base d : 0 <= d < base -> base <= 16 -> is_digit base (digit_char d) = true.
Proof.
  intros. unfold is_digit. rewrite digit_value_char by lia.
  apply andb_true_iff. rewrite Z.leb_le, Z.ltb_lt. lia.
Qed.

Lemma is_digit_facts c :
  is_digit 16 c = true ->
  isspace c = false /\ (code c =? 45) = false /\ (code c =? 43) = false /\
  (code c =? 120) = false /\ (code c =? 88) = false.
Proof.
  intros H.
  pose proof (chr_range_forall (fun c => implb (is_digit 16 c)
    (negb (isspace c) && negb (code c =? 45) && negb (code c =? 43) &&
     negb (code c =? 120) && negb (code c =? 88))) eq_refl c) as E.
  cbv beta in E. rewrite H in E. simpl in E. to_prop. by rewrite !Z.eqb_neq.
Qed.

Lemma is_digit_mono base c : base <= 16 -> is_digit base c = true -> is_digit 16 c = true.
Proof.
  unfold is_digit. intros. to_prop. apply andb_true_iff. rewrite Z.leb_le, Z.ltb_lt. lia.
Qed.

Section Printing.
Context (base : Z) (Hbase : 2 <= base <= 16).

Lemma print_digits_all fuel n acc :
  0 <= n -> all_chars (is_digit base) acc = true ->
  all_chars (is_digit base) (print_digits fuel base n acc) = true.
Proof.
  revert n acc. induction fuel as [|fuel IH]; intros n acc Hn Hacc; simpl; [done|].
  pose proof (Z.mod_pos_bound n base ltac:(lia)).
  case_test; to_prop; simpl.
  - by rewrite is_digit_char, Hacc by lia.
  - apply IH; [apply Z.div_pos; lia|]. simpl. by rewrite is_digit_char, Hacc by lia.
Qed.

Lemma scan_print_digits fuel n acc :
  0 <= n < base ^ Z.of_nat fuel -> (0 < fuel)%nat ->
  scan_digits base (print_digits fuel base n acc) 0 = scan_digits base acc n.
Proof.
  revert n acc. induction fuel as [|fuel IH]; intros n acc Hn Hf; [lia|].
  pose proof (Z.mod_pos_bound n base ltac:(lia)).
  simpl. case_test; to_prop.
  - simpl. rewrite is_digit_char, digit_value_char by lia. done.
  - rewrite Nat2Z.inj_succ, Z.pow_succ_r in Hn by lia.
    assert (0 < fuel)%nat as Hf' by (destruct fuel; simpl in *; lia).
    rewrite IH; [|split; [apply Z.div_pos|apply Z.div_lt_upper_bound]; lia|done].
    simpl. rewrite is_digit_char, digit_value_char by lia.
    f_equal. pose proof (Z.div_mod n base ltac:(lia)). lia.
Qed.

Lemma scan_print_unsigned n :
  0 <= n -> scan_digits base (print_unsigned base n) 0 = n.
Proof.
  intros Hn. unfold print_unsigned. rewrite scan_print_digits; [done| |lia].
  split; [done|]. destruct (Z.eq_dec n 0) as [->|].
  - apply Z.pow_pos_nonneg; lia.
  - rewrite Nat2Z.inj_succ, Z2Nat.id by apply Z.log2_nonneg.
    apply Z.lt_le_trans with (2 ^ Z.succ (Z.log2 n)); [apply Z.log2_spec; lia|].
    apply Z.pow_le_mono_l. lia.
Qed.

Lemma print_unsigned_all n : 0 <= n -> all_chars (is_digit base) (print_unsigned base n) = true.
Proof. intros. by apply print_digits_all. Qed.

(** A string of digits is not touched by the blank, sign and prefix skipping. *)
Lemma skip_0x_digits s : all_chars (is_digit base) s = true -> skip_0x base s = s.
Proof.
  intros Hs. destruct s as [|c0 [|cx [|d s]]]; [done..|]. simpl in *. to_prop.
  destruct (is_digit_facts cx) as (_ & _ & _ & E4 & E5).
  { eapply is_digit_mono; [|done]; lia. }
  by rewrite E4, E5, andb_false_r.
Qed.

Lemma skip_sign_digits s :
  all_chars (is_digit base) s = true -> skip_sign (skip_space s) = (1, s).
Proof.
  intros Hs. destruct s as [|c0 s]; [done|]. simpl in Hs. to_prop.
  destruct (is_digit_facts c0) as (E1 & E2 & E3 & _).
  { eapply is_digit_mono; [|done]; lia. }
  simpl. rewrite E1. simpl. by rewrite E2, E3.
Qed.

Lemma strtol_digits s :
  all_chars (is_digit base) s = true ->
  strtol s base = clamp_long (scan_digits base s 0).
Proof.
  intros Hs. unfold strtol. rewrite skip_sign_digits, skip_0x_digits by done. f_equal. lia.
Qed.

Lemma strtol_minus s :
  all_chars (is_digit base) s = true ->
  strtol (String (chr 45) s) base = clamp_long (- scan_digits base s 0).
Proof.
  intros Hs. unfold strtol.
  change (skip_sign (skip_space (String (chr 45) s))) with (-1, s).
  cbv beta iota. rewrite skip_0x_digits by done. reflexivity.
Qed.

Lemma strtol_print n : 0 <= n < 2 ^ 63 -> strtol (print_unsigned base n) base = n.
Proof.
  intros. rewrite strtol_digits by (apply print_unsigned_all; lia).
  rewrite scan_print_unsigned by lia. unfold clamp_long. lia.
Qed.

End Printing.

Lemma print_digits_nonempty base fuel n c acc : print_digits fuel base n (String c acc) <> EmptyString.
Proof.
  revert n c acc. induction fuel as [|fuel IH]; intros; simpl; [done|].
  case_test; [done|apply IH].
Qed.

Lemma atoi_sprintf_d_lemma n : in_i32 n -> atoi (sprintf_d n) = n.
Proof.
  intros Hn. unfold atoi, sprintf_d. unfold in_signed in Hn. simpl in Hn.
  apply eq_trans with (i32 n); [f_equal|by apply i32_id].
  case_test; to_prop.
  - rewrite strtol_minus by (lia || (apply print_unsigned_all; lia)).
    rewrite scan_print_unsigned by lia. unfold clamp_long. lia.
  - rewrite strtol_print by lia. done.
Qed.

Lemma print_digits_head fuel n acc :
  0 < n < 10 ^ Z.of_nat fuel ->
  exists c s, print_digits fuel 10 n acc = String c s /\ (code c =? 48) = false.
Proof.
  revert n acc. induction fuel as [|fuel IH]; intros n acc Hn; [simpl in Hn; lia|].
  simpl. case_test; to_prop.
  - exists (digit_char n), acc. split; [done|]. apply Z.eqb_neq. intros E0.
    assert (digit_value (digit_char n) = n) as Hd by (apply digit_value_char; lia).
    unfold digit_value in Hd. rewrite E0 in Hd. simpl in Hd. lia.
  - apply IH. rewrite Nat2Z.inj_succ, Z.pow_succ_r in Hn by lia.
    split; [apply Z.div_str_pos; lia|apply Z.div_lt_upper_bound; lia].
Qed.

Lemma strtoul_print n : 0 <= n < 2 ^ 64 -> strtoul (sprintf_lu n) = n.
Proof.
  intros Hn. unfold strtoul, sprintf_lu. destruct (decide (n = 0)) as [->|Hnz]; [done|].
  rewrite (skip_sign_digits 10) by (lia || (apply print_unsigned_all; lia)).
  assert (constant_base (print_unsigned 10 n) = 10) as ->.
  { unfold print_unsigned. destruct (print_digits_head (S (Z.to_nat (Z.log2 n))) n EmptyString)
      as (c & s & -> & Hc); [|simpl; by rewrite Hc].
    split; [lia|]. rewrite Nat2Z.inj_succ, Z2Nat.id by apply Z.log2_nonneg.
    apply Z.lt_le_trans with (2 ^ Z.succ (Z.log2 n)); [apply Z.log2_spec; lia|].
    apply Z.pow_le_mono_l. lia. }
  rewrite skip_0x_digits by (lia || (apply print_unsigned_all; lia)).
  rewrite scan_print_unsigned by lia. rewrite (proj2 (Z.leb_gt _ _)) by lia.
  rewrite Z.mul_1_l. by apply unsigned_id.
Qed.

Lemma sprintf_lu_d n : 0 <= n -> sprintf_lu n = sprintf_d n.
Proof. intros Hn. unfold sprintf_lu, sprintf_d. by destruct (Z.ltb_spec n 0); [lia|]. Qed.

Lemma cstr_length s : (String.length (cstr s) <= String.length s)%nat.
Proof. induction s as [|c s IH]; simpl; [lia|]. case_match; simpl; lia. Qed.

Lemma substring_length k s : (String.length (String.substring 0 k s) <= k)%nat.
Proof. revert s. induction k as [|k IH]; intros [|c s]; simpl; [lia..|]. specialize (IH s). lia. Qed.

Lemma substring_whole s : String.substring 0 (String.length s) s = s.
Proof. induction s as [|c s IH]; [done|]. cbn. by rewrite IH. Qed.

Section SplitJoin.
Context (d : Ascii.ascii).

Lemma prefix_nil s : String.prefix EmptyString s = true.
Proof. by destruct s. Qed.

Lemma split_from_nonempty s cur : split_from (String d EmptyString) s cur <> [].
Proof.
  revert cur. induction s as [|c s IH]; intros cur; simpl; [done|].
  destruct (Ascii.ascii_dec d c); rewrite ?prefix_nil; [done|apply IH].
Qed.

Lemma string_app_assoc (a b c : string) : (a +:+ b) +:+ c = a +:+ (b +:+ c).
Proof.
  induction a as [|x a IH]; [done|].
  change (String x ((a +:+ b) +:+ c) = String x (a +:+ (b +:+ c))). by rewrite IH.
Qed.

Lemma string_app_nil (a : string) : a +:+ EmptyString = a.
Proof.
  induction a as [|x a IH]; [done|].
  change (String x (a +:+ EmptyString) = String x a). by rewrite IH.
Qed.

Lemma string_length_app a b : String.length (a +:+ b) = (String.length a + String.length b)%nat.
Proof.
  induction a as [|c a IH]; [done|].
  change (S (String.length (a +:+ b)) = S (String.length a + String.length b)). by rewrite IH.
Qed.

Lemma join_cons x l delim : l <> [] -> Join (x :: l) delim = x +:+ delim +:+ Join l delim.
Proof. by destruct l. Qed.

Lemma join_split_from s cur :
  Join (split_from (String d EmptyString) s cur) (String d EmptyString) = cur +:+ s.
Proof.
  revert cur. induction s as [|c s IH]; intros cur; simpl.
  - by rewrite string_app_nil.
  - destruct (Ascii.ascii_dec d c) as [<-|].
    + rewrite prefix_nil, join_cons by apply split_from_nonempty. by rewrite IH.
    + rewrite IH, string_app_assoc. done.
Qed.

Definition lacks (s : string) : bool := all_chars (fun c => negb (code c =? code d)) s.

Lemma split_from_lacking s cur rest :
  lacks s = true ->
  split_from (String d EmptyString) (s +:+ rest) cur =
    split_from (String d EmptyString) rest (cur +:+ s).
Proof.
  revert cur. unfold lacks. induction s as [|c s IH]; intros cur H; simpl in *.
  - by rewrite string_app_nil.
  - to_prop. destruct (Ascii.ascii_dec d c) as [<-|]; [congruence|].
    rewrite IH by done. by rewrite string_app_assoc.
Qed.

Lemma split_join_lemma l :
  l <> [] -> forallb lacks l = true ->
  Split (Join l (String d EmptyString)) (String d EmptyString) = l.
Proof.
  intros Hne Hl. unfold Split. induction l as [|x l IH]; [done|].
  simpl in Hl. apply andb_true_iff in Hl as [Hx Hl].
  destruct l as [|y l].
  - simpl. rewrite <- (string_app_nil x) at 1. by rewrite split_from_lacking.
  - rewrite join_cons by done. rewrite split_from_lacking by done.
    change (String d EmptyString +:+ Join (y :: l) (String d EmptyString)) with
      (String d (Join (y :: l) (String d EmptyString))).
    cbn [split_from String.prefix]. destruct (Ascii.ascii_dec d d); [|done].
    rewrite prefix_nil, (IH ltac:(done) Hl). done.
Qed.

(** A printed number lacks every delimiter that is not a digit or a minus. *)
Lemma sprintf_d_lacks n :
  is_digit 10 d = false -> (code d =? 45) = false -> lacks (sprintf_d n) = true.
Proof.
  intros Hd Hm.
  assert (forall s, all_chars (is_digit 10) s = true -> lacks s = true) as Hall.
  { unfold lacks. induction s as [|c s IH]; simpl; [done|]. intros [Hc Hs]%andb_true_iff.
    rewrite (IH Hs), andb_true_r. apply negb_true_iff, Z.eqb_neq. intros E.
    unfold is_digit, digit_value in *. rewrite E in Hc. congruence. }
  unfold sprintf_d. case_test; to_prop.
  - unfold lacks. cbn [all_chars]. change (code (chr 45)) with 45.
    rewrite (Z.eqb_sym 45), (proj2 (Z.eqb_neq _ _) Hm). apply Hall, print_unsigned_all; lia.
  - apply Hall, print_unsigned_all; lia.
Qed.

End SplitJoin.

Lemma lacks_cstr s : lacks (chr 0) s = true -> cstr s = s.
Proof.
  unfold lacks. induction s as [|c s IH]; simpl; [done|]. intros [Hc Hs]%andb_true_iff.
  change (byte_of_ascii c) with (code c). change (code (chr 0)) with 0 in Hc.
  apply negb_true_iff in Hc. by rewrite Hc, IH.
Qed.

Lemma sprintf_d_cstr z : cstr (sprintf_d z) = sprintf_d z.
Proof. by apply lacks_cstr, sprintf_d_lacks. Qed.
Lemma scan_x_digit a s ii ii' :
  is_digit 16 a = true -> scan_x (String a s) ii = scan_x (String a s) ii'.
Proof.
  intros Ha. destruct (is_digit_facts a Ha) as (E1 & E2 & E3 & _).
  assert ((code a =? 0) = false) as E0.
  { pose proof (chr_range_forall (fun c => implb (is_digit 16 c) (negb (code c =? 0))) eq_refl a)
      as E. cbv beta in E. rewrite Ha in E. simpl in E. to_prop. by apply Z.eqb_neq. }
  unfold scan_x. cbn [cstr]. rewrite E0. cbn [skip_space]. rewrite E1. cbn [skip_sign].
  by rewrite E2, E3, Ha.
Qed.

Lemma hex_pair_decodes c ii :
  chr (u8 (scan_x (String (hex_lower (code c / 16))
    (String (hex_lower (code c mod 16)) EmptyString)) ii)) = c.
Proof.
  pose proof (chr_range_forall (fun c => is_digit 16 (hex_lower (code c / 16)) &&
    (u8 (scan_x (String (hex_lower (code c / 16))
      (String (hex_lower (code c mod 16)) EmptyString)) 0) =? code c)) eq_refl c) as E.
  cbv beta in E. apply andb_true_iff in E as [E1 E2]. apply Z.eqb_eq in E2.
  by rewrite (scan_x_digit _ _ ii 0), E2, ascii_byte by done.
Qed.

Lemma url_plain_facts c : url_plain c = true -> (code c =? 37) = false /\ (code c =? 43) = false.
Proof.
  intros H.
  pose proof (chr_range_forall (fun c => implb (url_plain c)
    (negb (code c =? 37) && negb (code c =? 43))) eq_refl c) as E.
  cbv beta in E. rewrite H in E. simpl in E. to_prop. by rewrite !Z.eqb_neq.
Qed.

(** ** Properties *)

(** Splitting at a one-character delimiter loses nothing: joining the pieces
    gives back the source, and splitting a join of pieces that do not contain the
    delimiter gives back the pieces. This is the round trip the server's saved
    lists ("a,b,c" values) rely on. *)
Theorem Split_Join (d : Ascii.ascii) (s : string) (l : list string)
    (Hne : l <> []) (Hl : forallb (lacks d) l = true) :
  Join (Split s (String d EmptyString)) (String d EmptyString) = s /\
  Split (Join l (String d EmptyString)) (String d EmptyString) = l.
Proof.
  split; [by apply join_split_from|by apply split_join_lemma].
Qed.

Lemma Split_Join_witness :
  Split "12,4" "," = ["12"%string; "4"%string] /\ Join (Split "1,,2" ",") "," = "1,,2"%string.
Proof.
  split.
  - exact (proj2 (Split_Join (chr 44) "" ["12"%string; "4"%string] ltac:(discriminate) eq_refl)).
  - exact (proj1 (Split_Join (chr 44) "1,,2" [""%string] ltac:(discriminate) eq_refl)).
Defined.

(** Numbers survive their text form: [strtol(_, 16)] of the [%X] text of any
    32-bit unsigned (a container/slot id) is the number, and [atoi] of the [%d]
    text of any [int] is the [int]. *)
Theorem number_text_roundtrip (u n : Z) (Hu : in_u32 u) (Hn : in_i32 n) :
  strtol (sprintf_X u) 16 = u /\ atoi (sprintf_d n) = n.
Proof.
  split; [|by apply atoi_sprintf_d_lemma].
  unfold in_unsigned in Hu. apply strtol_print; lia.
Qed.

Lemma number_text_roundtrip_witness :
  strtol (sprintf_X 0x10017) 16 = 0x10017 /\ atoi (sprintf_d (-405)) = -405.
Proof.
  exact (number_text_roundtrip 0x10017 (-405) ltac:(unfold in_unsigned; lia)
    ltac:(unfold in_signed; lia)).
Defined.

(** [URLDecode] inverts [URLEncode] on every string, whatever the
    uninitialised scan variable holds. *)
Theorem URLDecode_URLEncode (ii : Z) (s : string) : URLDecode ii (URLEncode s) = s.
Proof.
  unfold URLDecode. revert ii. induction s as [|c s IH]; intros ii; [done|].
  cbn [URLEncode]. destruct (url_plain c) eqn:E.
  - destruct (url_plain_facts c E) as [E1 E2]. cbn [url_decode]. by rewrite E1, E2, IH.
  - cbn [url_decode]. change (code (chr 37) =? 37) with true. cbv beta iota.
    by rewrite hex_pair_decodes, IH.
Qed.
