(* ===== verification/Float.v ===== *)
(** * Floating point numbers

    [float] and [double] as the server uses them: conversions from and to
    integers and text, and the arithmetic of a few handlers. A [float] is the 32
    bits that are stored and sent ([ByteBuffer.PutFloat]). A finite value is a
    sign, an integer mantissa and a power of two; results are rounded to the
    nearest value, ties to the even mantissa. The hexadecimal notation and the
    names [inf] and [nan] of [atof] are left out. *)

From S2P Require Import Prelude Text.

(** ** Formats *)

Record Format := mkFormat {
  prec : Z;     (* bits of the mantissa *)
  emin : Z;     (* the least exponent of the last bit *)
  emax : Z }.   (* the greatest *)

Definition single : Format := mkFormat 24 (-149) 104.
Definition double : Format := mkFormat 53 (-1074) 971.

Inductive Value := Finite (neg : bool) (m e : Z) | Infinite (neg : bool) | NotANumber.

(** ** Rounding *)

Definition div_half_even (n d : Z) : Z :=
  let q := n / d in
  let r := n mod d in
  if (2 * r <? d) || ((2 * r =? d) && Z.even q) then q else q + 1.

(** [2^k <= n / d < 2^(k + 1)]. *)
Definition log2_ratio (n d : Z) : Z :=
  let k := Z.log2 n - Z.log2 d in
  if n * 2 ^ Z.max 0 (- k) <? d * 2 ^ Z.max 0 k then k - 1 else k.

(** The value of the format nearest to [n / d]. *)
Definition round_ratio (f : Format) (neg : bool) (n d : Z) : Value :=
  if n =? 0 then Finite neg 0 (emin f)
  else
    let e := Z.max (emin f) (log2_ratio n d - (prec f - 1)) in
    let m := div_half_even (n * 2 ^ Z.max 0 (- e)) (d * 2 ^ Z.max 0 e) in
    let '(m1, e1) := if m =? 2 ^ prec f then (2 ^ (prec f - 1), e + 1) else (m, e) in
    if emax f <? e1 then Infinite neg else Finite neg m1 e1.

Definition num (m e : Z) : Z := m * 2 ^ Z.max 0 e.
Definition den (e : Z) : Z := 2 ^ Z.max 0 (- e).

Definition round_value (f : Format) (v : Value) : Value :=
  match v with
  | Finite neg m e => round_ratio f neg (num m e) (den e)
  | _ => v
  end.

(** ** The bits of a [float] *)

Definition sign_bit (neg : bool) : Z := if neg then 2 ^ 31 else 0.

Definition encode (v : Value) : Z :=
  match v with
  | Finite neg m e => sign_bit neg + (if m <? 2 ^ 23 then m else (e + 150) * 2 ^ 23 + (m - 2 ^ 23))
  | Infinite neg => sign_bit neg + 255 * 2 ^ 23
  | NotANumber => 255 * 2 ^ 23 + 2 ^ 22
  end.

Definition decode (bits : Z) : Value :=
  let neg := 2 ^ 31 <=? bits in
  let ex := (bits / 2 ^ 23) mod 2 ^ 8 in
  let frac := bits mod 2 ^ 23 in
  if ex =? 0 then Finite neg frac (-149)
  else if ex =? 255 then if frac =? 0 then Infinite neg else NotANumber
  else Finite neg (frac + 2 ^ 23) (ex - 150).

(** ** Conversions *)

Definition signed_value (neg : bool) (z : Z) : Z := if neg then - z else z.

(** [(float)z]. *)
Definition float_of_int (z : Z) : Z := encode (round_ratio single (z <? 0) (Z.abs z) 1).

(** [(int)v]: truncated; the x86 conversion gives the least integer when the
    result does not fit. *)
Definition truncate (v : Value) : Z :=
  match v with
  | Finite neg m e =>
      let z := signed_value neg (num m e / den e) in
      if (- 2 ^ 31 <=? z) && (z <? 2 ^ 31) then z else - 2 ^ 31
  | _ => - 2 ^ 31
  end.

Definition int_of_float (bits : Z) : Z := truncate (decode bits).

(** [(short)v]: the conversion goes through [int]. *)
Definition short_of_float (bits : Z) : Z := i16 (int_of_float bits).

(** [atof] reads a decimal number: the mantissa [m] with [k] digits after the
    point, then the exponent. *)
Fixpoint scan_mantissa (s : string) (m : Z) (k : Z) (dot digits : bool) : Z * Z * bool * string :=
  match s with
  | String c s' =>
      if is_digit 10 c then scan_mantissa s' (m * 10 + digit_value c) (if dot then k + 1 else k) dot true
      else if negb dot && (code c =? 46) then scan_mantissa s' m k true digits
      else (m, k, digits, s)
  | EmptyString => (m, k, digits, s)
  end.

(** An exponent has a digit after the [e] and its sign. *)
Definition scan_exponent (s : string) : Z :=
  match s with
  | String c s' =>
      if (code c =? 101) || (code c =? 69) then
        let '(sign, s2) := skip_sign s' in sign * scan_digits 10 s2 0
      else 0
  | EmptyString => 0
  end.

Definition atof (s : string) : Value :=
  let '(sign, s1) := skip_sign (skip_space s) in
  let '(m, k, digits, s2) := scan_mantissa s1 0 0 false false in
  if negb digits then Finite false 0 (emin double)
  else
    let e := scan_exponent s2 - k in
    round_ratio double (sign <? 0) (m * 10 ^ Z.max e 0) (10 ^ Z.max (- e) 0).

(** [(int)atof(s)] and [(float)atof(s)]. *)
Definition atof_int (s : string) : Z := truncate (atof s).
Definition atof_float (s : string) : Z := encode (round_value single (atof s)).

(** ** Arithmetic on [float] *)

Definition float_mul (x y : Z) : Z :=
  encode (match decode x, decode y with
          | Finite s1 m1 e1, Finite s2 m2 e2 =>
              round_ratio single (xorb s1 s2) (num (m1 * m2) (e1 + e2)) (den (e1 + e2))
          | NotANumber, _ | _, NotANumber => NotANumber
          | Infinite s1, Finite s2 m _ | Finite s2 m _, Infinite s1 =>
              if m =? 0 then NotANumber else Infinite (xorb s1 s2)
          | Infinite s1, Infinite s2 => Infinite (xorb s1 s2)
          end).

(** A sum that is zero is [+0] unless both operands are [-0]. *)
Definition float_add (x y : Z) : Z :=
  encode (match decode x, decode y with
          | Finite s1 m1 e1, Finite s2 m2 e2 =>
              let e := Z.min e1 e2 in
              let z := signed_value s1 (m1 * 2 ^ (e1 - e)) + signed_value s2 (m2 * 2 ^ (e2 - e)) in
              round_ratio single (if z =? 0 then s1 && s2 else z <? 0) (num (Z.abs z) e) (den e)
          | NotANumber, _ | _, NotANumber => NotANumber
          | Infinite s1, Finite _ _ _ | Finite _ _ _, Infinite s1 => Infinite s1
          | Infinite s1, Infinite s2 => if eqb s1 s2 then Infinite s1 else NotANumber
          end).

Definition float_neg (x : Z) : Z := if 2 ^ 31 <=? x then x - 2 ^ 31 else x + 2 ^ 31.
Definition float_sub (x y : Z) : Z := float_add x (float_neg y).

(** [x == y]. *)
Definition float_eqb (x y : Z) : bool :=
  match decode x, decode y with
  | NotANumber, _ | _, NotANumber => false
  | Finite s1 m1 e1, Finite s2 m2 e2 => (x =? y) || ((m1 =? 0) && (m2 =? 0))
  | _, _ => x =? y
  end.

(** [x < 0] and [0 < x]. *)
Definition float_ltb0 (x : Z) : bool :=
  match decode x with Finite neg m _ => neg && (0 <? m) | Infinite neg => neg | NotANumber => false end.
Definition float_gtb0 (x : Z) : bool :=
  match decode x with Finite neg m _ => negb neg && (0 <? m) | Infinite neg => negb neg | NotANumber => false end.

(** [x < y]: the rounded difference has the sign of the exact one. *)
Definition float_ltb (x y : Z) : bool := float_ltb0 (float_sub x y).

(** [(unsigned long)x]: undefined when the result does not fit. *)
Definition ulong_of_float (x : Z) : option Z :=
  match decode x with
  | Finite neg m e =>
      let z := signed_value neg (num m e / den e) in
      if (0 <=? z) && (z <? 2 ^ 64) then Some z else None
  | _ => None
  end.

(** [DoubleEquivalent]: [fabs(left - right) <= 0.001]; the difference of the
    values that are compared is exact. *)
Definition DoubleEquivalent (left right : Value) : bool :=
  match left, right, atof "0.001" with
  | Finite s1 m1 e1, Finite s2 m2 e2, Finite _ m e0 =>
      let e := Z.min e1 e2 in
      let z := signed_value s1 (m1 * 2 ^ (e1 - e)) - signed_value s2 (m2 * 2 ^ (e2 - e)) in
      num (Z.abs z) e * den e0 <=? num m e0 * den e
  | _, _, _ => false
  end.

(** ** [printf("%g")] *)

(** The decimal exponent of [n / d], searched from [x] on. *)
Fixpoint decimal_exponent (fuel : nat) (x n d : Z) : Z :=
  match fuel with
  | O => x
  | S fuel' =>
      if n * 10 ^ Z.max 0 (- (x + 1)) <? d * 10 ^ Z.max 0 (x + 1) then x
      else decimal_exponent fuel' (x + 1) n d
  end.

Fixpoint zeros (n : nat) : string :=
  match n with O => EmptyString | S n' => String (chr 48) (zeros n') end.

(** The digits without the zeros at the end. *)
Fixpoint strip_zeros (s : string) : string :=
  match s with
  | EmptyString => EmptyString
  | String c s' =>
      match strip_zeros s' with
      | EmptyString => if code c =? 48 then EmptyString else String c EmptyString
      | t => String c t
      end
  end.

Definition with_fraction (whole frac : string) : string :=
  match strip_zeros frac with
  | EmptyString => whole
  | f => whole +:+ "." +:+ f
  end.

(** Six significant digits [ds] of a number with decimal exponent [x]. *)
Definition layout_g (ds : string) (x : Z) : string :=
  if (x <? -4) || (6 <=? x) then
    let ex := sprintf_d (Z.abs x) in
    with_fraction (String.substring 0 1 ds) (String.substring 1 5 ds) +:+ "e" +:+
      (if x <? 0 then "-" else "+") +:+ (if Z.abs x <? 10 then "0" +:+ ex else ex)
  else if x <? 0 then with_fraction "0" (zeros (Z.to_nat (- x - 1)) +:+ ds)
  else with_fraction (String.substring 0 (Z.to_nat (x + 1)) ds)
         (String.substring (Z.to_nat (x + 1)) (Z.to_nat (5 - x)) ds).

Definition print_g (v : Value) : string :=
  match v with
  | NotANumber => "nan"
  | Infinite neg => if neg then "-inf" else "inf"
  | Finite neg m e =>
      let minus := if neg then "-" else EmptyString in
      if m =? 0 then minus +:+ "0"
      else
        let n := num m e in
        let d := den e in
        let x := decimal_exponent 700 (-330) n d in
        let q := div_half_even (n * 10 ^ Z.max 0 (5 - x)) (d * 10 ^ Z.max 0 (x - 5)) in
        if q =? 10 ^ 6 then minus +:+ layout_g (sprintf_d (10 ^ 5)) (x + 1)
        else minus +:+ layout_g (sprintf_d q) x
  end.

Definition sprintf_g (bits : Z) : string := print_g (decode bits).

(** ** Lemmas *)

(** Rounding goes to a nearest multiple. *)
Lemma div_half_even_nearest n d : 0 < d -> 2 * Z.abs (div_half_even n d * d - n) <= d.
Proof.
  intros Hd. unfold div_half_even.
  pose proof (Z.div_mod n d ltac:(lia)). pose proof (Z.mod_pos_bound n d Hd).
  destruct (_ || _) eqn:E.
  - assert (2 * (n mod d) <= d) by (apply orb_true_iff in E as [E|E]; to_prop; lia). nia.
  - to_prop. nia.
Qed.

Lemma div_half_even_exact q d : 0 < d -> div_half_even (q * d) d = q.
Proof.
  intros Hd. unfold div_half_even. rewrite Z.div_mul, Z.mod_mul by lia.
  by rewrite (proj2 (Z.ltb_lt _ _)) by lia.
Qed.

Lemma pow2_pos k : 0 <= k -> 0 < 2 ^ k.
Proof. intros. by apply Z.pow_pos_nonneg. Qed.

Lemma log2_ratio_integer z : 0 < z -> log2_ratio z 1 = Z.log2 z.
Proof.
  intros Hz. unfold log2_ratio. change (Z.log2 1) with 0. rewrite Z.sub_0_r.
  pose proof (Z.log2_nonneg z). pose proof (Z.log2_spec z Hz).
  by rewrite Z.max_l, Z.max_r, (proj2 (Z.ltb_ge _ _)) by lia.
Qed.

(** An integer with at most 24 bits is a [float]: its mantissa is shifted to the
    width. *)
Lemma round_integer neg z :
  0 < z < 2 ^ 24 ->
  round_ratio single neg z 1 = Finite neg (z * 2 ^ (23 - Z.log2 z)) (Z.log2 z - 23).
Proof.
  intros Hz. unfold round_ratio. rewrite (proj2 (Z.eqb_neq z 0)) by lia. cbn [emin prec emax single].
  pose proof (Z.log2_nonneg z). pose proof (Z.log2_spec z ltac:(lia)) as [H1 H2].
  assert (Z.log2 z < 24) by (apply Z.log2_lt_pow2; lia).
  rewrite log2_ratio_integer by lia.
  replace (Z.max (-149) (Z.log2 z - (24 - 1))) with (Z.log2 z - 23) by lia.
  rewrite (Z.max_l 0 (Z.log2 z - 23)), (Z.max_r 0 (- (Z.log2 z - 23))) by lia.
  replace (1 * 2 ^ 0) with 1 by done. replace (- (Z.log2 z - 23)) with (23 - Z.log2 z) by lia.
  rewrite <- (Z.mul_1_r (z * 2 ^ (23 - Z.log2 z))), div_half_even_exact by lia.
  rewrite (Z.mul_1_r (z * _)).
  assert (z * 2 ^ (23 - Z.log2 z) < 2 ^ 24) as Hlt.
  { assert (2 ^ 24 = 2 ^ Z.succ (Z.log2 z) * 2 ^ (23 - Z.log2 z)) as ->
      by (rewrite <- Z.pow_add_r by lia; f_equal; lia).
    pose proof (pow2_pos (23 - Z.log2 z) ltac:(lia)). nia. }
  rewrite (proj2 (Z.eqb_neq _ (2 ^ 24))) by lia.
  by rewrite (proj2 (Z.ltb_ge _ _)) by lia.
Qed.

Lemma normal_mantissa z :
  0 < z < 2 ^ 24 -> 2 ^ 23 <= z * 2 ^ (23 - Z.log2 z) < 2 ^ 24.
Proof.
  intros Hz. pose proof (Z.log2_nonneg z). pose proof (Z.log2_spec z ltac:(lia)) as [H1 H2].
  assert (Z.log2 z < 24) by (apply Z.log2_lt_pow2; lia).
  pose proof (pow2_pos (23 - Z.log2 z) ltac:(lia)).
  assert (2 ^ 23 = 2 ^ Z.log2 z * 2 ^ (23 - Z.log2 z)) as E by (rewrite <- Z.pow_add_r by lia; f_equal; lia).
  assert (2 ^ 24 = 2 ^ Z.succ (Z.log2 z) * 2 ^ (23 - Z.log2 z)) as E2
    by (rewrite <- Z.pow_add_r by lia; f_equal; lia).
  rewrite E, E2. nia.
Qed.

(** The values a [float] holds. *)
Definition canonical (m e : Z) : Prop :=
  0 <= m < 2 ^ 24 /\ -149 <= e <= 104 /\ (m < 2 ^ 23 -> e = -149).

Lemma decode_parts neg x f :
  0 <= x < 2 ^ 8 -> 0 <= f < 2 ^ 23 ->
  let bits := sign_bit neg + (x * 2 ^ 23 + f) in
  (2 ^ 31 <=? bits) = neg /\ (bits / 2 ^ 23) mod 2 ^ 8 = x /\ bits mod 2 ^ 23 = f.
Proof.
  intros Hx Hf bits.
  assert (bits = ((if neg then 2 ^ 8 else 0) + x) * 2 ^ 23 + f) as E.
  { unfold bits, sign_bit. destruct neg; lia. }
  split_and!.
  - unfold bits, sign_bit. destruct neg; [apply Z.leb_le|apply Z.leb_gt]; lia.
  - rewrite E, Z.div_add_l, (Z.div_small f), Z.add_0_r by lia.
    destruct neg; [rewrite Z.add_comm, <- (Z.mul_1_l (2 ^ 8)) at 1; rewrite Z.mod_add by lia|];
      by rewrite Z.mod_small by lia.
  - rewrite E, Z.add_comm, Z.mod_add by lia. by rewrite Z.mod_small.
Qed.

Lemma decode_encode neg m e : canonical m e -> decode (encode (Finite neg m e)) = Finite neg m e.
Proof.
  intros (Hm & He & Hsub). unfold encode, decode. destruct (m <? 2 ^ 23) eqn:E; to_prop.
  - rewrite (Hsub E). destruct (decode_parts neg 0 m ltac:(lia) ltac:(lia)) as (H1 & H2 & H3).
    rewrite Z.mul_0_l, Z.add_0_l in H1, H2, H3. by rewrite H1, H2, H3.
  - destruct (decode_parts neg (e + 150) (m - 2 ^ 23) ltac:(lia) ltac:(lia)) as (H1 & H2 & H3).
    rewrite H1, H2, H3. rewrite !(proj2 (Z.eqb_neq _ _)) by lia. f_equal; lia.
Qed.

Lemma float_of_int_decode z :
  z <> 0 -> Z.abs z < 2 ^ 24 ->
  decode (float_of_int z) =
    Finite (z <? 0) (Z.abs z * 2 ^ (23 - Z.log2 (Z.abs z))) (Z.log2 (Z.abs z) - 23).
Proof.
  intros Hnz Hz. unfold float_of_int. rewrite round_integer by lia.
  apply decode_encode. pose proof (normal_mantissa (Z.abs z) ltac:(lia)).
  pose proof (Z.log2_nonneg (Z.abs z)).
  assert (Z.log2 (Z.abs z) < 24) by (apply Z.log2_lt_pow2; lia).
  repeat split; lia.
Qed.

(** Integers of at most 24 bits survive the conversion to [float] and back. *)
Lemma int_of_float_of_int z : Z.abs z < 2 ^ 24 -> int_of_float (float_of_int z) = z.
Proof.
  intros Hz. destruct (decide (z = 0)) as [->|Hnz]; [done|].
  unfold int_of_float. rewrite float_of_int_decode by done. unfold truncate, num, den.
  set (k := Z.log2 (Z.abs z)).
  assert (0 <= k < 24) by (split; [apply Z.log2_nonneg|apply Z.log2_lt_pow2; lia]).
  rewrite (Z.max_l 0), (Z.max_r 0) by lia. replace (- (k - 23)) with (23 - k) by lia.
  rewrite Z.pow_0_r, Z.mul_1_r, Z.div_mul by (pose proof (pow2_pos (23 - k)); lia).
  assert (signed_value (z <? 0) (Z.abs z) = z) as ->.
  { unfold signed_value. destruct (z <? 0) eqn:E; to_prop; lia. }
  by rewrite (proj2 (Z.leb_le _ _)), (proj2 (Z.ltb_lt _ _)) by lia.
Qed.

Lemma short_of_float_of_int z : in_signed 16 z -> short_of_float (float_of_int z) = z.
Proof.
  intros Hz. unfold short_of_float, in_signed in *. rewrite int_of_float_of_int by lia.
  by apply signed_id.
Qed.

(** ** The results of rounding *)

Lemma div_half_even_le n d q : 0 < d -> n <= q * d -> div_half_even n d <= q.
Proof.
  intros Hd Hn. unfold div_half_even.
  pose proof (Z.div_mod n d ltac:(lia)). pose proof (Z.mod_pos_bound n d Hd).
  destruct (_ || _) eqn:E; [nia|].
  assert (n mod d <> 0) by (to_prop; lia). nia.
Qed.

Lemma div_half_even_ge n d q : 0 < d -> q * d <= n -> q <= div_half_even n d.
Proof.
  intros Hd Hn. unfold div_half_even.
  pose proof (Z.div_mod n d ltac:(lia)). pose proof (Z.mod_pos_bound n d Hd).
  destruct (_ || _) eqn:E; nia.
Qed.

(** A comparison with [2^k] for an exponent of either sign, after scaling by [2^c]. *)
Lemma scaled x y k c :
  0 <= c + k -> 0 <= c -> x * 2 ^ Z.max 0 k <= y * 2 ^ Z.max 0 (- k) <-> x * 2 ^ (c + k) <= y * 2 ^ c.
Proof.
  intros H1 H2. destruct (Z_lt_le_dec k 0).
  - rewrite Z.max_l, Z.max_r, Z.pow_0_r by lia.
    assert (2 ^ c = 2 ^ (c + k) * 2 ^ (- k)) as -> by (rewrite <- Z.pow_add_r by lia; f_equal; lia).
    pose proof (pow2_pos (c + k) H1). split; intros; nia.
  - rewrite Z.max_r, Z.max_l, Z.pow_0_r by lia.
    rewrite Z.pow_add_r by lia. pose proof (pow2_pos c H2). split; intros; nia.
Qed.

Lemma log2_ratio_spec n d :
  0 < n -> 0 < d ->
  let k := log2_ratio n d in
  d * 2 ^ Z.max 0 k <= n * 2 ^ Z.max 0 (- k) /\
  n * 2 ^ Z.max 0 (- (k + 1)) < d * 2 ^ Z.max 0 (k + 1).
Proof.
  intros Hn Hd. unfold log2_ratio.
  pose proof (Z.log2_spec n Hn) as [Hn1 Hn2]. pose proof (Z.log2_spec d Hd) as [Hd1 Hd2].
  pose proof (Z.log2_nonneg n). pose proof (Z.log2_nonneg d).
  set (a := Z.log2 n) in *. set (b := Z.log2 d) in *.
  pose proof (pow2_pos a ltac:(lia)). pose proof (pow2_pos b ltac:(lia)).
  pose proof (Z.pow_succ_r 2 a ltac:(lia)). pose proof (Z.pow_succ_r 2 b ltac:(lia)).
  pose proof (Z.pow_succ_r 2 (Z.succ a) ltac:(lia)).
  destruct (_ <? _) eqn:E; to_prop.
  - split.
    + apply (scaled d n _ (Z.succ b)); [lia..|].
      replace (Z.succ b + (a - b - 1)) with a by lia. nia.
    + by replace (a - b - 1 + 1) with (a - b) by lia.
  - split; [done|]. apply Z.lt_nge. intros Hc.
    apply (scaled d n _ (Z.succ b)) in Hc; [|lia..].
    replace (Z.succ b + (a - b + 1)) with (Z.succ (Z.succ a)) in Hc by lia. nia.
Qed.

(** The bounds of the mantissa that [round_ratio] computes. *)
Lemma mantissa_le n d k e :
  0 < d -> n * 2 ^ Z.max 0 (- (k + 1)) < d * 2 ^ Z.max 0 (k + 1) -> k + 1 <= e + 24 ->
  div_half_even (n * 2 ^ Z.max 0 (- e)) (d * 2 ^ Z.max 0 e) <= 2 ^ 24.
Proof.
  intros Hd Hup He. pose proof (pow2_pos (Z.max 0 e) ltac:(lia)).
  apply div_half_even_le; [nia|]. rewrite Z.mul_assoc.
  set (c := Z.abs k + Z.abs e + 25).
  assert (n * 2 ^ c < d * 2 ^ (c + (k + 1))) as H2.
  { apply Z.lt_nge. intros Hc. apply (scaled d n _ c) in Hc; lia. }
  replace (Z.max 0 e) with (Z.max 0 (- - e)) by lia. apply (scaled n (2 ^ 24 * d) (- e) (c + e)); [lia..|].
  replace (c + e + - e) with c by lia.
  assert (2 ^ (c + (k + 1)) <= 2 ^ (c + e + 24)) as H3 by (apply Z.pow_le_mono_r; lia).
  rewrite (Z.pow_add_r 2 (c + e) 24) in H3 by lia. nia.
Qed.

Lemma mantissa_ge n d k :
  0 < d -> d * 2 ^ Z.max 0 k <= n * 2 ^ Z.max 0 (- k) ->
  2 ^ 23 <= div_half_even (n * 2 ^ Z.max 0 (- (k - 23))) (d * 2 ^ Z.max 0 (k - 23)).
Proof.
  intros Hd Hlo. pose proof (pow2_pos (Z.max 0 (k - 23)) ltac:(lia)).
  apply div_half_even_ge; [nia|]. rewrite Z.mul_assoc.
  set (c := Z.abs k + 25). apply (scaled d n _ c) in Hlo; [|lia..].
  apply (scaled (2 ^ 23 * d) n _ c); [lia..|].
  replace (c + k) with (23 + (c + (k - 23))) in Hlo by lia.
  rewrite Z.pow_add_r in Hlo by lia. lia.
Qed.

Lemma div_half_even_nonneg n d : 0 <= n -> 0 < d -> 0 <= div_half_even n d.
Proof. intros. by apply div_half_even_ge. Qed.

(** What is rounded to a [float] fits its mantissa and exponent. *)
Lemma round_ratio_canonical neg n d :
  0 <= n -> 0 < d ->
  match round_ratio single neg n d with
  | Finite s m e => s = neg /\ canonical m e
  | Infinite s => s = neg
  | NotANumber => False
  end.
Proof.
  intros Hn Hd. unfold round_ratio. cbn [emin prec emax single].
  destruct (n =? 0) eqn:E0; to_prop; [by repeat split|].
  destruct (log2_ratio_spec n d ltac:(lia) Hd) as [Hlo Hup].
  set (k := log2_ratio n d) in *. set (e := Z.max (-149) (k - (24 - 1))).
  pose proof (mantissa_le n d k e Hd Hup ltac:(lia)) as Hm.
  pose proof (div_half_even_nonneg (n * 2 ^ Z.max 0 (- e)) (d * 2 ^ Z.max 0 e)
    ltac:(pose proof (pow2_pos (Z.max 0 (- e)) ltac:(lia)); nia)
    ltac:(pose proof (pow2_pos (Z.max 0 e) ltac:(lia)); nia)) as Hm0.
  assert (e = k - 23 -> 2 ^ 23 <= div_half_even (n * 2 ^ Z.max 0 (- e)) (d * 2 ^ Z.max 0 e)) as Hge.
  { intros ->. by apply mantissa_ge. }
  set (m := div_half_even _ _) in *.
  destruct (m =? 2 ^ 24) eqn:E; to_prop.
  - case_test; to_prop; [done|]. repeat split; lia.
  - case_test; to_prop; [done|]. repeat split; lia.
Qed.

Lemma encode_range neg n d : 0 <= n -> 0 < d -> in_u32 (encode (round_ratio single neg n d)).
Proof.
  intros Hn Hd. pose proof (round_ratio_canonical neg n d Hn Hd) as H. unfold in_unsigned.
  destruct (round_ratio single neg n d) as [s m e|s|]; [|subst; destruct neg; simpl; lia|done].
  destruct H as [-> (Hm & He & Hs)]. unfold encode, sign_bit.
  destruct (m <? 2 ^ 23) eqn:E; to_prop; destruct neg; lia.
Qed.

(** What [double] rounding gives has a mantissa that is not negative. *)
Definition nonneg_value (v : Value) : Prop :=
  match v with Finite _ m _ => 0 <= m | _ => True end.

Lemma round_ratio_nonneg f neg n d :
  0 <= n -> 0 < d -> 0 < prec f -> nonneg_value (round_ratio f neg n d).
Proof.
  intros Hn Hd Hp. unfold round_ratio. destruct (n =? 0); [done|].
  set (e := Z.max (emin f) _).
  pose proof (div_half_even_nonneg (n * 2 ^ Z.max 0 (- e)) (d * 2 ^ Z.max 0 e)
    ltac:(pose proof (pow2_pos (Z.max 0 (- e)) ltac:(lia)); nia)
    ltac:(pose proof (pow2_pos (Z.max 0 e) ltac:(lia)); nia)) as Hm0.
  destruct (_ =? 2 ^ prec f).
  - destruct (emax f <? _); simpl; [done|]. pose proof (pow2_pos (prec f - 1) ltac:(lia)). lia.
  - by destruct (emax f <? _).
Qed.

Lemma encode_round_value v : nonneg_value v -> in_u32 (encode (round_value single v)).
Proof.
  destruct v as [neg m e|[]|]; intros H; simpl in *; unfold in_unsigned; [|lia..].
  apply encode_range; unfold num, den.
  - pose proof (pow2_pos (Z.max 0 e) ltac:(lia)). nia.
  - apply pow2_pos. lia.
Qed.

Lemma float_of_int_range z : in_u32 (float_of_int z).
Proof. apply encode_range; lia. Qed.

Lemma scan_mantissa_nonneg s m k dot digits :
  0 <= m -> 0 <= (scan_mantissa s m k dot digits).1.1.1.
Proof.
  revert m k dot digits. induction s as [|c s IH]; intros m k dot digits Hm; simpl; [done|].
  destruct (is_digit 10 c) eqn:E; [apply IH|destruct (_ && _); [by apply IH|done]].
  unfold is_digit in E. lia.
Qed.

Lemma atof_float_range s : in_u32 (atof_float s).
Proof.
  apply encode_round_value. unfold atof.
  destruct (skip_sign _) as [sign s1].
  pose proof (scan_mantissa_nonneg s1 0 0 false false ltac:(lia)) as Hm.
  destruct (scan_mantissa _ _ _ _ _) as [[[m k] digits] s2]. simpl in Hm.
  destruct digits; [|done]. simpl negb. cbv iota.
  apply round_ratio_nonneg; [|apply Z.pow_pos_nonneg; lia|done].
  pose proof (Z.pow_pos_nonneg 10 (Z.max (scan_exponent s2 - k) 0) ltac:(lia) ltac:(lia)). nia.
Qed.

Lemma truncate_range v : in_i32 (truncate v).
Proof.
  unfold in_signed. destruct v as [neg m e|neg|]; simpl; [|lia..].
  case_test; to_prop; lia.
Qed.

(** ** Sums of integers *)

Lemma log2_ratio_shift z j : 0 < z -> 0 <= j -> log2_ratio (z * 2 ^ j) (2 ^ j) = Z.log2 z.
Proof.
  intros Hz Hj. unfold log2_ratio. rewrite Z.log2_mul_pow2, Z.log2_pow2 by lia.
  replace (j + Z.log2 z - j) with (Z.log2 z) by lia.
  pose proof (Z.log2_nonneg z). pose proof (Z.log2_spec z Hz). pose proof (pow2_pos j Hj).
  rewrite Z.max_l, Z.max_r, Z.pow_0_r by lia. rewrite (proj2 (Z.ltb_ge _ _)); [done|nia].
Qed.

(** An integer is rounded alike whatever the denominator it is written with. *)
Lemma round_shift neg z j :
  0 <= z < 2 ^ 24 -> 0 <= j ->
  round_ratio single neg (z * 2 ^ j) (2 ^ j) = round_ratio single neg z 1.
Proof.
  intros Hz Hj. pose proof (pow2_pos j Hj). destruct (decide (z = 0)) as [->|Hnz]; [done|].
  unfold round_ratio. rewrite !(proj2 (Z.eqb_neq _ 0)) by nia.
  rewrite log2_ratio_shift, log2_ratio_integer by lia. cbn [emin prec emax single].
  pose proof (Z.log2_nonneg z). assert (Z.log2 z < 24) by (apply Z.log2_lt_pow2; lia).
  replace (Z.max (-149) (Z.log2 z - (24 - 1))) with (- (23 - Z.log2 z)) by lia.
  set (k := 23 - Z.log2 z). rewrite Z.opp_involutive, (Z.max_r 0 k), (Z.max_l 0 (- k)), Z.pow_0_r by lia.
  pose proof (pow2_pos k ltac:(lia)).
  replace (z * 2 ^ j * 2 ^ k) with (z * 2 ^ k * (2 ^ j * 1)) by lia.
  rewrite div_half_even_exact by lia.
  assert (div_half_even (z * 2 ^ k) (1 * 1) = z * 2 ^ k) as ->; [|done].
  rewrite <- (Z.mul_1_r (z * 2 ^ k)) at 1. by apply div_half_even_exact.
Qed.

Lemma decode_int z :
  Z.abs z < 2 ^ 24 ->
  exists s m e, decode (float_of_int z) = Finite s m e /\ -149 <= e <= 0 /\
    signed_value s m = z * 2 ^ (- e) /\ s = (z <? 0) /\ 0 <= m.
Proof.
  intros Hz. destruct (decide (z = 0)) as [->|Hnz]; [by exists false, 0, (-149)|].
  rewrite float_of_int_decode by done. pose proof (Z.log2_nonneg (Z.abs z)).
  assert (Z.log2 (Z.abs z) < 24) by (apply Z.log2_lt_pow2; lia).
  do 3 eexists. split_and!; [done|lia|lia| |done|].
  - replace (- (Z.log2 (Z.abs z) - 23)) with (23 - Z.log2 (Z.abs z)) by lia.
    unfold signed_value. destruct (z <? 0) eqn:E; to_prop; [rewrite Z.abs_neq by lia; lia|by rewrite Z.abs_eq by lia].
  - pose proof (pow2_pos (23 - Z.log2 (Z.abs z)) ltac:(lia)). nia.
Qed.

(** The sum of two values that are integers. *)
Lemma add_values s1 m1 e1 s2 m2 e2 a b :
  e1 <= 0 -> e2 <= 0 -> signed_value s1 m1 = a * 2 ^ (- e1) -> signed_value s2 m2 = b * 2 ^ (- e2) ->
  Z.abs (a + b) < 2 ^ 24 -> (a + b = 0 -> s1 && s2 = false) ->
  let e := Z.min e1 e2 in
  let z := signed_value s1 (m1 * 2 ^ (e1 - e)) + signed_value s2 (m2 * 2 ^ (e2 - e)) in
  encode (round_ratio single (if z =? 0 then s1 && s2 else z <? 0) (num (Z.abs z) e) (den e)) =
    float_of_int (a + b).
Proof.
  intros He1 He2 H1 H2 Hab Hs e z.
  assert (forall s m k, signed_value s (m * k) = signed_value s m * k) as Hm
    by (intros [] m k; unfold signed_value; lia).
  assert (z = (a + b) * 2 ^ (- e)) as Hz.
  { unfold z. rewrite !Hm, H1, H2, <- !Z.mul_assoc, <- !Z.pow_add_r by lia.
    replace (- e1 + (e1 - e)) with (- e) by lia. replace (- e2 + (e2 - e)) with (- e) by lia. lia. }
  pose proof (pow2_pos (- e) ltac:(lia)) as Hp. unfold num, den.
  rewrite (Z.max_l 0 e), (Z.max_r 0 (- e)), Z.pow_0_r, Z.mul_1_r by lia.
  assert (Z.abs z = Z.abs (a + b) * 2 ^ (- e)) as -> by (rewrite Hz, Z.abs_mul, (Z.abs_eq (2 ^ _)) by lia; done).
  rewrite round_shift by lia. unfold float_of_int. do 2 f_equal.
  destruct (z =? 0) eqn:E; to_prop.
  - assert (a + b = 0) as E2 by nia. rewrite (Hs E2), E2. done.
  - rewrite Hz in E |- *. destruct (a + b <? 0) eqn:E2; to_prop; [apply Z.ltb_lt|apply Z.ltb_ge]; nia.
Qed.

Lemma float_add_int a b :
  Z.abs a < 2 ^ 24 -> Z.abs b < 2 ^ 24 -> Z.abs (a + b) < 2 ^ 24 ->
  float_add (float_of_int a) (float_of_int b) = float_of_int (a + b).
Proof.
  intros Ha Hb Hab. destruct (decode_int a Ha) as (s1 & m1 & e1 & D1 & ? & ? & S1 & _).
  destruct (decode_int b Hb) as (s2 & m2 & e2 & D2 & ? & ? & S2 & _).
  unfold float_add. rewrite D1, D2. apply add_values; [lia..|]. intros. subst s1 s2.
  apply andb_false_iff. rewrite !Z.ltb_ge. lia.
Qed.

Lemma decode_neg x : in_u32 x ->
  decode (float_neg x) = match decode x with
                         | Finite s m e => Finite (negb s) m e
                         | Infinite s => Infinite (negb s)
                         | NotANumber => NotANumber
                         end.
Proof.
  intros Hx. unfold in_unsigned in Hx. unfold decode, float_neg.
  assert (forall y, (y + 2 ^ 31) mod 2 ^ 23 = y mod 2 ^ 23) as H1.
  { intros y. change (2 ^ 31) with (2 ^ 8 * 2 ^ 23). by rewrite Z.mod_add by lia. }
  assert (forall y, ((y + 2 ^ 31) / 2 ^ 23) mod 2 ^ 8 = (y / 2 ^ 23) mod 2 ^ 8) as H2.
  { intros y. change (2 ^ 31) with (2 ^ 8 * 2 ^ 23). rewrite Z.div_add by lia.
    rewrite <- (Z.mul_1_l (2 ^ 8)) at 1. by rewrite Z.mod_add by lia. }
  destruct (2 ^ 31 <=? x) eqn:E; to_prop.
  - rewrite <- (H1 (x - 2 ^ 31)), <- (H2 (x - 2 ^ 31)). replace (x - 2 ^ 31 + 2 ^ 31) with x by lia.
    rewrite (proj2 (Z.leb_gt _ _)) by lia. by repeat case_test.
  - rewrite H1, H2, (proj2 (Z.leb_le _ _)) by lia. by repeat case_test.
Qed.

Lemma float_sub_int a b :
  Z.abs a < 2 ^ 24 -> Z.abs b < 2 ^ 24 -> Z.abs (a - b) < 2 ^ 24 ->
  float_sub (float_of_int a) (float_of_int b) = float_of_int (a - b).
Proof.
  intros Ha Hb Hab. destruct (decode_int a Ha) as (s1 & m1 & e1 & D1 & ? & ? & S1 & ?).
  destruct (decode_int b Hb) as (s2 & m2 & e2 & D2 & ? & H2 & S2 & ?).
  unfold float_sub, float_add. rewrite decode_neg, D1, D2 by apply float_of_int_range.
  apply (add_values s1 m1 e1 (negb s2) m2 e2 a (- b)); [lia|lia|done| |lia|].
  - unfold signed_value in *. destruct s2; simpl; lia.
  - intros. subst s1 s2. destruct (a <? 0) eqn:E; [|done]. to_prop.
    rewrite (proj2 (Z.ltb_lt b 0)) by lia. done.
Qed.

Lemma float_add_range x y : in_u32 (float_add x y).
Proof.
  assert (forall s, in_u32 (encode (Infinite s))) as Hinf by (intros []; unfold in_unsigned; simpl; lia).
  assert (in_u32 (encode NotANumber)) as Hnan by (unfold in_unsigned; simpl; lia).
  unfold float_add. destruct (decode x) as [s1 m1 e1|s1|], (decode y) as [s2 m2 e2|s2|]; try done.
  - set (e := Z.min e1 e2). apply encode_range; [|apply pow2_pos; lia].
    unfold num. pose proof (pow2_pos (Z.max 0 e) ltac:(lia)). nia.
  - by case_match.
Qed.
