(* ===== verification/StatTables.v ===== *)
(** * The tables of character stats ([Stats.h], [Stats.cpp])

    Every stat of a creature has an entry in [StatList]: its identifier on the
    wire, its type, its name in files and scripts, and the member of
    [CharacterStatSet] that holds it. Code that handles stats goes through this
    table and reads and writes members by their offset. [offsetof] is the place of
    a member in the structure, [msizeof] its size. *)

From S2P Require Import Prelude.

(** [StatType]. *)
Inductive StatType := SHORT | INTEGER | FLOAT | CSTRING | STRING.

#[export] Instance StatType_eq_dec : EqDecision StatType.
Proof. solve_decision. Defined.

(** The types of the members; [Tchars n] is [char[n]]. *)
Inductive MemberType := Tshort | Tint | Tfloat | Tchars (n : Z) | Tstring.

Module DebuffType.
Definition NONE : Z := 0.
Definition CONTROL : Z := 1.
Definition STAT : Z := 2.
End DebuffType.

(** [StatUpdateType]. *)
Definition SUT_None : Z := 0x00.
Definition SUT_Player : Z := 0x01.
Definition SUT_NonPlayer : Z := 0x02.
Definition SUT_Appearance : Z := 0x04.
Definition SUT_CDefExt : Z := 0x08.
Definition SUT_All : Z := Z.lor SUT_Player SUT_NonPlayer.

Module STAT.
Definition APPEARANCE : Z := 0.
Definition EQ_APPEARANCE : Z := 1.
Definition LEVEL : Z := 2.
Definition DISPLAY_NAME : Z := 3.
Definition STRENGTH : Z := 4.
Definition DEXTERITY : Z := 5.
Definition CONSTITUTION : Z := 6.
Definition PSYCHE : Z := 7.
Definition SPIRIT : Z := 8.
Definition ARMOR_RATING : Z := 30.
Definition MELEE_ATTACK_SPEED : Z := 31.
Definition MAGIC_ATTACK_SPEED : Z := 32.
Definition BASE_DAMAGE_MELEE : Z := 33.
Definition BASE_DAMAGE_FIRE : Z := 34.
Definition BASE_DAMAGE_FROST : Z := 35.
Definition BASE_DAMAGE_MYSTIC : Z := 36.
Definition BASE_DAMAGE_DEATH : Z := 37.
Definition DAMAGE_RESIST_MELEE : Z := 38.
Definition DAMAGE_RESIST_FIRE : Z := 39.
Definition DAMAGE_RESIST_FROST : Z := 40.
Definition DAMAGE_RESIST_MYSTIC : Z := 41.
Definition DAMAGE_RESIST_DEATH : Z := 42.
Definition BASE_MOVEMENT : Z := 43.
Definition BASE_LUCK : Z := 44.
Definition BASE_HEALTH : Z := 45.
Definition WILL_MAX : Z := 46.
Definition WILL_REGEN : Z := 47.
Definition MIGHT_MAX : Z := 48.
Definition MIGHT_REGEN : Z := 49.
Definition BASE_DODGE : Z := 50.
Definition BASE_DEFLECT : Z := 51.
Definition BASE_PARRY : Z := 52.
Definition BASE_BLOCK : Z := 53.
Definition BASE_MELEE_TO_HIT : Z := 54.
Definition BASE_MELEE_CRITICAL : Z := 55.
Definition BASE_MAGIC_SUCCESS : Z := 56.
Definition BASE_MAGIC_CRITICAL : Z := 57.
Definition OFFHAND_WEAPON_DAMAGE : Z := 58.
Definition CASTING_SETBACK_CHANCE : Z := 59.
Definition CHANNELING_BREAK_CHANCE : Z := 60.
Definition BASE_HEALING : Z := 61.
Definition AGGRO_RADIUS_MOD : Z := 62.
Definition HATE_GAIN_RATE : Z := 63.
Definition EXPERIENCE_GAIN_RATE : Z := 64.
Definition COIN_GAIN_RATE : Z := 65.
Definition MAGIC_LOOT_DROP_RATE : Z := 66.
Definition INVENTORY_CAPACITY : Z := 67.
Definition VIS_WEAPON : Z := 69.
Definition SUB_NAME : Z := 70.
Definition ALTERNATE_IDLE_ANIM : Z := 71.
Definition SELECTIVE_EQ_OVERRIDE : Z := 72.
Definition HEALTH : Z := 80.
Definition WILL : Z := 81.
Definition WILL_CHARGES : Z := 82.
Definition MIGHT : Z := 83.
Definition MIGHT_CHARGES : Z := 84.
Definition SSIZE : Z := 85.
Definition PROFESSION : Z := 86.
Definition WEAPON_DAMAGE_2H : Z := 87.
Definition WEAPON_DAMAGE_1H : Z := 88.
Definition WEAPON_DAMAGE_POLE : Z := 89.
Definition WEAPON_DAMAGE_SMALL : Z := 90.
Definition WEAPON_DAMAGE_BOW : Z := 91.
Definition WEAPON_DAMAGE_THROWN : Z := 92.
Definition WEAPON_DAMAGE_WAND : Z := 93.
Definition EXTRA_DAMAGE_FIRE : Z := 94.
Definition EXTRA_DAMAGE_FROST : Z := 95.
Definition EXTRA_DAMAGE_MYSTIC : Z := 96.
Definition EXTRA_DAMAGE_DEATH : Z := 97.
Definition APPEARANCE_OVERRIDE : Z := 98.
Definition INVISIBILITY_DISTANCE : Z := 99.
Definition TRANSLOCATE_DESTINATION : Z := 100.
Definition LOOTABLE_PLAYER_IDS : Z := 101.
Definition MASTER : Z := 102.
Definition REZ_PENDING : Z := 103.
Definition LOOT_SEEABLE_PLAYER_IDS : Z := 104.
Definition LOOT : Z := 105.
Definition BASE_STATS : Z := 107.
Definition HEALTH_MOD : Z := 108.
Definition HEROISM : Z := 110.
Definition EXPERIENCE : Z := 111.
Definition TOTAL_ABILITY_POINTS : Z := 112.
Definition CURRENT_ABILITY_POINTS : Z := 113.
Definition COPPER : Z := 114.
Definition CREDITS : Z := 115.
Definition AI_MODULE : Z := 120.
Definition CREATURE_CATEGORY : Z := 121.
Definition RARITY : Z := 122.
Definition SPAWN_TABLE_POINTS : Z := 123.
Definition AI_PACKAGE : Z := 124.
Definition BONUS_HEALTH : Z := 125.
Definition DR_MOD_MELEE : Z := 126.
Definition DR_MOD_FIRE : Z := 127.
Definition DR_MOD_FROST : Z := 128.
Definition DR_MOD_MYSTIC : Z := 129.
Definition DR_MOD_DEATH : Z := 130.
Definition DMG_MOD_MELEE : Z := 131.
Definition DMG_MOD_FIRE : Z := 132.
Definition DMG_MOD_FROST : Z := 133.
Definition DMG_MOD_MYSTIC : Z := 134.
Definition DMG_MOD_DEATH : Z := 135.
Definition PVP_TEAM : Z := 136.
Definition PVP_KILLS : Z := 137.
Definition PVP_DEATHS : Z := 138.
Definition PVP_STATE : Z := 139.
Definition PVP_FLAG_CAPTURES : Z := 140.
Definition MOD_MELEE_TO_HIT : Z := 141.
Definition MOD_MELEE_TO_CRIT : Z := 142.
Definition MOD_MAGIC_TO_HIT : Z := 143.
Definition MOD_MAGIC_TO_CRIT : Z := 144.
Definition MOD_PARRY : Z := 145.
Definition MOD_BLOCK : Z := 146.
Definition MOD_MOVEMENT : Z := 147.
Definition MOD_HEALTH_REGEN : Z := 148.
Definition MOD_ATTACK_SPEED : Z := 149.
Definition MOD_CASTING_SPEED : Z := 150.
Definition MOD_HEALING : Z := 151.
Definition TOTAL_SIZE : Z := 152.
Definition AGGRO_PLAYERS : Z := 153.
Definition MOD_LUCK : Z := 154.
Definition HEALTH_REGEN : Z := 155.
Definition BLEEDING : Z := 156.
Definition DAMAGE_SHIELD : Z := 157.
Definition HIDE_NAMEBOARD : Z := 158.
Definition HIDE_MINIMAP : Z := 159.
Definition CREDIT_DROPS : Z := 160.
Definition HEROISM_GAIN_RATE : Z := 161.
Definition QUEST_EXP_GAIN_RATE : Z := 162.
Definition DROP_GAIN_RATE : Z := 163.
Definition TAGS : Z := 164.
Definition MAX_HEALTH_PC : Z := 165.
Definition MIN_HEALTH_PC : Z := 166.
End STAT.

(** [CharacterStatSet]: the members in the order of the structure. *)
Definition members : list (string * MemberType) :=
  [("appearance", Tstring);
   ("eq_appearance", Tstring);
   ("level", Tshort);
   ("display_name", Tchars 64);
   ("strength", Tshort);
   ("dexterity", Tshort);
   ("constitution", Tshort);
   ("psyche", Tshort);
   ("spirit", Tshort);
   ("armor_rating", Tshort);
   ("melee_attack_speed", Tshort);
   ("magic_attack_speed", Tshort);
   ("base_damage_melee", Tshort);
   ("base_damage_fire", Tshort);
   ("base_damage_frost", Tshort);
   ("base_damage_mystic", Tshort);
   ("base_damage_death", Tshort);
   ("damage_resist_melee", Tshort);
   ("damage_resist_fire", Tshort);
   ("damage_resist_frost", Tshort);
   ("damage_resist_mystic", Tshort);
   ("damage_resist_death", Tshort);
   ("base_movement", Tshort);
   ("base_luck", Tshort);
   ("base_health", Tshort);
   ("will_max", Tshort);
   ("will_regen", Tfloat);
   ("might_max", Tshort);
   ("might_regen", Tfloat);
   ("base_dodge", Tshort);
   ("base_deflect", Tshort);
   ("base_parry", Tshort);
   ("base_block", Tshort);
   ("base_melee_to_hit", Tshort);
   ("base_melee_critical", Tshort);
   ("base_magic_success", Tshort);
   ("base_magic_critical", Tshort);
   ("offhand_weapon_damage", Tshort);
   ("casting_setback_chance", Tshort);
   ("channeling_break_chance", Tshort);
   ("base_healing", Tshort);
   ("aggro_radius_mod", Tshort);
   ("hate_gain_rate", Tshort);
   ("experience_gain_rate", Tshort);
   ("coin_gain_rate", Tshort);
   ("magic_loot_drop_rate", Tshort);
   ("inventory_capacity", Tshort);
   ("vis_weapon", Tshort);
   ("sub_name", Tchars 64);
   ("alternate_idle_anim", Tchars 32);
   ("selective_eq_override", Tchars 32);
   ("health", Tint);
   ("will", Tshort);
   ("will_charges", Tshort);
   ("might", Tshort);
   ("might_charges", Tshort);
   ("size", Tshort);
   ("profession", Tshort);
   ("weapon_damage_2h", Tshort);
   ("weapon_damage_1h", Tshort);
   ("weapon_damage_pole", Tshort);
   ("weapon_damage_small", Tshort);
   ("weapon_damage_box", Tshort);
   ("weapon_damage_thrown", Tshort);
   ("weapon_damage_wand", Tshort);
   ("extra_damage_fire", Tshort);
   ("extra_damage_frost", Tshort);
   ("extra_damage_mystic", Tshort);
   ("extra_damage_death", Tshort);
   ("appearance_override", Tstring);
   ("invisibility_distance", Tfloat);
   ("translocate_destination", Tstring);
   ("lootable_player_ids", Tstring);
   ("master", Tshort);
   ("rez_pending", Tshort);
   ("loot_seeable_player_ids", Tstring);
   ("loot", Tchars 64);
   ("base_stats", Tchars 64);
   ("health_mod", Tshort);
   ("heroism", Tshort);
   ("experience", Tint);
   ("total_ability_points", Tshort);
   ("current_ability_points", Tshort);
   ("copper", Tint);
   ("credits", Tint);
   ("ai_module", Tchars 64);
   ("creature_category", Tchars 32);
   ("rarity", Tshort);
   ("spawn_table_points", Tshort);
   ("ai_package", Tchars 64);
   ("bonus_health", Tshort);
   ("dr_mod_melee", Tint);
   ("dr_mod_fire", Tint);
   ("dr_mod_frost", Tint);
   ("dr_mod_mystic", Tint);
   ("dr_mod_death", Tint);
   ("dmg_mod_melee", Tint);
   ("dmg_mod_fire", Tint);
   ("dmg_mod_frost", Tint);
   ("dmg_mod_mystic", Tint);
   ("dmg_mod_death", Tint);
   ("pvp_team", Tshort);
   ("pvp_kills", Tint);
   ("pvp_deaths", Tint);
   ("pvp_state", Tchars 32);
   ("pvp_flag_captures", Tint);
   ("mod_melee_to_hit", Tfloat);
   ("mod_melee_to_crit", Tfloat);
   ("mod_magic_to_hit", Tfloat);
   ("mod_magic_to_crit", Tfloat);
   ("mod_parry", Tfloat);
   ("mod_block", Tfloat);
   ("mod_movement", Tint);
   ("mod_health_regen", Tfloat);
   ("mod_attack_speed", Tfloat);
   ("mod_casting_speed", Tfloat);
   ("mod_healing", Tfloat);
   ("total_size", Tfloat);
   ("aggro_players", Tshort);
   ("mod_luck", Tfloat);
   ("health_regen", Tfloat);
   ("bleeding", Tshort);
   ("damage_shield", Tint);
   ("hide_nameboard", Tshort);
   ("hide_minimap", Tshort);
   ("credit_drops", Tshort);
   ("heroism_gain_rate", Tshort);
   ("quest_exp_gain_rate", Tshort);
   ("drop_gain_rate", Tshort);
   ("tags", Tstring);
   ("max_health_pc", Tshort);
   ("min_health_pc", Tshort)].

Definition offsetof (m : string) : nat :=
  default (length members) (find_idx (fun x => String.eqb (fst x) m) members).

Definition type_size (ty : MemberType) : Z :=
  match ty with Tshort => 2 | Tint => 4 | Tfloat => 4 | Tchars n => n | Tstring => 32 end.

Definition msizeof (m : string) : Z :=
  match members !! offsetof m with Some (_, ty) => type_size ty | None => 0 end.

Record StatDefinition := mkStat {
  ID : Z;
  etype : StatType;
  type : string;
  name : string;
  prettyName : string;
  abbrev : option string;
  debuff : Z;
  size : Z;
  offset : nat;
  updflag : Z }.

Definition StatList : list StatDefinition :=
  [mkStat STAT.APPEARANCE STRING "string" "appearance" "Appearance" None 0
     (msizeof "appearance") (offsetof "appearance") (Z.lor SUT_All SUT_Appearance);
   mkStat STAT.EQ_APPEARANCE STRING "string" "eq_appearance" "Equipment Appearance" None 0
     (msizeof "eq_appearance") (offsetof "eq_appearance") (Z.lor SUT_All SUT_Appearance);
   mkStat STAT.LEVEL SHORT "short" "level" "Level" None 0
     (msizeof "level") (offsetof "level") SUT_All;
   mkStat STAT.DISPLAY_NAME CSTRING "string" "display_name" "Display Name" None 0
     (msizeof "display_name") (offsetof "display_name") SUT_All;
   mkStat STAT.STRENGTH SHORT "short" "strength" "Strength" (Some "STR") DebuffType.STAT
     (msizeof "strength") (offsetof "strength") SUT_All;
   mkStat STAT.DEXTERITY SHORT "short" "dexterity" "Dexterity" (Some "DEX") DebuffType.STAT
     (msizeof "dexterity") (offsetof "dexterity") SUT_All;
   mkStat STAT.CONSTITUTION SHORT "short" "constitution" "Constitution" (Some "CON") DebuffType.STAT
     (msizeof "constitution") (offsetof "constitution") SUT_All;
   mkStat STAT.PSYCHE SHORT "short" "psyche" "Psyche" (Some "PSY") DebuffType.STAT
     (msizeof "psyche") (offsetof "psyche") SUT_All;
   mkStat STAT.SPIRIT SHORT "short" "spirit" "Spirit" (Some "SPI") DebuffType.STAT
     (msizeof "spirit") (offsetof "spirit") SUT_All;
   mkStat STAT.ARMOR_RATING SHORT "short" "armor_rating" "Armor Rating" (Some "AR") DebuffType.STAT
     (msizeof "armor_rating") (offsetof "armor_rating") SUT_None;
   mkStat STAT.MELEE_ATTACK_SPEED SHORT "short" "melee_attack_speed" "Melee Attack Speed" None DebuffType.CONTROL
     (msizeof "melee_attack_speed") (offsetof "melee_attack_speed") SUT_All;
   mkStat STAT.MAGIC_ATTACK_SPEED SHORT "short" "magic_attack_speed" "Magic Attack Speed" None DebuffType.CONTROL
     (msizeof "magic_attack_speed") (offsetof "magic_attack_speed") SUT_All;
   mkStat STAT.BASE_DAMAGE_MELEE SHORT "short" "base_damage_melee" "Melee Damage" None DebuffType.STAT
     (msizeof "base_damage_melee") (offsetof "base_damage_melee") SUT_All;
   mkStat STAT.BASE_DAMAGE_FIRE SHORT "short" "base_damage_fire" "Fire Damage" None DebuffType.STAT
     (msizeof "base_damage_fire") (offsetof "base_damage_fire") SUT_All;
   mkStat STAT.BASE_DAMAGE_FROST SHORT "short" "base_damage_frost" "Frost Damage" None DebuffType.STAT
     (msizeof "base_damage_frost") (offsetof "base_damage_frost") SUT_All;
   mkStat STAT.BASE_DAMAGE_MYSTIC SHORT "short" "base_damage_mystic" "Mystic Damage" None DebuffType.STAT
     (msizeof "base_damage_mystic") (offsetof "base_damage_mystic") SUT_All;
   mkStat STAT.BASE_DAMAGE_DEATH SHORT "short" "base_damage_death" "Death Damage" None DebuffType.STAT
     (msizeof "base_damage_death") (offsetof "base_damage_death") SUT_All;
   mkStat STAT.DAMAGE_RESIST_MELEE SHORT "short" "damage_resist_melee" "Melee Resistance" None DebuffType.STAT
     (msizeof "damage_resist_melee") (offsetof "damage_resist_melee") SUT_All;
   mkStat STAT.DAMAGE_RESIST_FIRE SHORT "short" "damage_resist_fire" "Fire Resistance" None DebuffType.STAT
     (msizeof "damage_resist_fire") (offsetof "damage_resist_fire") SUT_All;
   mkStat STAT.DAMAGE_RESIST_FROST SHORT "short" "damage_resist_frost" "Frost Resistance" None DebuffType.STAT
     (msizeof "damage_resist_frost") (offsetof "damage_resist_frost") SUT_All;
   mkStat STAT.DAMAGE_RESIST_MYSTIC SHORT "short" "damage_resist_mystic" "Mystic Resistance" None DebuffType.STAT
     (msizeof "damage_resist_mystic") (offsetof "damage_resist_mystic") SUT_All;
   mkStat STAT.DAMAGE_RESIST_DEATH SHORT "short" "damage_resist_death" "Death Resistance" None DebuffType.STAT
     (msizeof "damage_resist_death") (offsetof "damage_resist_death") SUT_All;
   mkStat STAT.BASE_MOVEMENT SHORT "short" "base_movement" "Movement" None DebuffType.CONTROL
     (msizeof "base_movement") (offsetof "base_movement") SUT_All;
   mkStat STAT.BASE_LUCK SHORT "short" "base_luck" "Luck" None DebuffType.STAT
     (msizeof "base_luck") (offsetof "base_luck") SUT_All;
   mkStat STAT.BASE_HEALTH SHORT "short" "base_health" "Health" None DebuffType.STAT
     (msizeof "base_health") (offsetof "base_health") SUT_All;
   mkStat STAT.WILL_MAX SHORT "short" "will_max" "Willpower Max" None DebuffType.STAT
     (msizeof "will_max") (offsetof "will_max") SUT_All;
   mkStat STAT.WILL_REGEN FLOAT "float" "will_regen" "Willpower Regen" None DebuffType.STAT
     (msizeof "will_regen") (offsetof "will_regen") SUT_All;
   mkStat STAT.MIGHT_MAX SHORT "short" "might_max" "Might Max" None DebuffType.STAT
     (msizeof "might_max") (offsetof "might_max") SUT_All;
   mkStat STAT.MIGHT_REGEN FLOAT "float" "might_regen" "Might Regen" None DebuffType.STAT
     (msizeof "might_regen") (offsetof "might_regen") SUT_All;
   mkStat STAT.BASE_DODGE SHORT "short" "base_dodge" "Dodge" None DebuffType.STAT
     (msizeof "base_dodge") (offsetof "base_dodge") SUT_All;
   mkStat STAT.BASE_DEFLECT SHORT "short" "base_deflect" "Deflect" None DebuffType.STAT
     (msizeof "base_deflect") (offsetof "base_deflect") SUT_All;
   mkStat STAT.BASE_PARRY SHORT "short" "base_parry" "Parry" None DebuffType.STAT
     (msizeof "base_parry") (offsetof "base_parry") SUT_All;
   mkStat STAT.BASE_BLOCK SHORT "short" "base_block" "Blocking" None DebuffType.STAT
     (msizeof "base_block") (offsetof "base_block") SUT_All;
   mkStat STAT.BASE_MELEE_TO_HIT SHORT "short" "base_melee_to_hit" "Melee To-Hit" None 0
     (msizeof "base_melee_to_hit") (offsetof "base_melee_to_hit") SUT_All;
   mkStat STAT.BASE_MELEE_CRITICAL SHORT "short" "base_melee_critical" "Melee Critical" None 0
     (msizeof "base_melee_critical") (offsetof "base_melee_critical") SUT_All;
   mkStat STAT.BASE_MAGIC_SUCCESS SHORT "short" "base_magic_success" "Magic Success" None 0
     (msizeof "base_magic_success") (offsetof "base_magic_success") SUT_All;
   mkStat STAT.BASE_MAGIC_CRITICAL SHORT "short" "base_magic_critical" "Magic Critical" None 0
     (msizeof "base_magic_critical") (offsetof "base_magic_critical") SUT_All;
   mkStat STAT.OFFHAND_WEAPON_DAMAGE SHORT "short" "offhand_weapon_damage" "Off-Hand Weapon Damage" None DebuffType.STAT
     (msizeof "offhand_weapon_damage") (offsetof "offhand_weapon_damage") SUT_All;
   mkStat STAT.CASTING_SETBACK_CHANCE SHORT "short" "casting_setback_chance" "Casting Setback Chance" None 0
     (msizeof "casting_setback_chance") (offsetof "casting_setback_chance") SUT_All;
   mkStat STAT.CHANNELING_BREAK_CHANCE SHORT "short" "channeling_break_chance" "Channeling Break Chance" None 0
     (msizeof "channeling_break_chance") (offsetof "channeling_break_chance") SUT_All;
   mkStat STAT.BASE_HEALING SHORT "short" "base_healing" "Healing" None DebuffType.STAT
     (msizeof "base_healing") (offsetof "base_healing") SUT_All;
   mkStat STAT.AGGRO_RADIUS_MOD SHORT "short" "aggro_radius_mod" "Aggro Radius" None DebuffType.STAT
     (msizeof "aggro_radius_mod") (offsetof "aggro_radius_mod") SUT_All;
   mkStat STAT.HATE_GAIN_RATE SHORT "short" "hate_gain_rate" "Hatred Gain Rate" None 0
     (msizeof "hate_gain_rate") (offsetof "hate_gain_rate") SUT_All;
   mkStat STAT.EXPERIENCE_GAIN_RATE SHORT "short" "experience_gain_rate" "XP Gain Rate" None 0
     (msizeof "experience_gain_rate") (offsetof "experience_gain_rate") SUT_All;
   mkStat STAT.COIN_GAIN_RATE SHORT "short" "coin_gain_rate" "Coin Gain Rate" None 0
     (msizeof "coin_gain_rate") (offsetof "coin_gain_rate") SUT_All;
   mkStat STAT.MAGIC_LOOT_DROP_RATE SHORT "short" "magic_loot_drop_rate" "Magical Item Drops" None 0
     (msizeof "magic_loot_drop_rate") (offsetof "magic_loot_drop_rate") SUT_All;
   mkStat STAT.INVENTORY_CAPACITY SHORT "short" "inventory_capacity" "Inventory Capacity" None 0
     (msizeof "inventory_capacity") (offsetof "inventory_capacity") SUT_None;
   mkStat STAT.VIS_WEAPON SHORT "short" "vis_weapon" "Visible Weapon" None 0
     (msizeof "vis_weapon") (offsetof "vis_weapon") SUT_All;
   mkStat STAT.SUB_NAME CSTRING "string" "sub_name" "Sub Name" None 0
     (msizeof "sub_name") (offsetof "sub_name") SUT_All;
   mkStat STAT.ALTERNATE_IDLE_ANIM CSTRING "string" "alternate_idle_anim" "Idle Animation" None 0
     (msizeof "alternate_idle_anim") (offsetof "alternate_idle_anim") SUT_None;
   mkStat STAT.SELECTIVE_EQ_OVERRIDE CSTRING "string" "selective_eq_override" "Selective Equipment Override" None 0
     (msizeof "selective_eq_override") (offsetof "selective_eq_override") SUT_All;
   mkStat STAT.HEALTH SHORT "short" "health" "Health" (Some "HP") DebuffType.STAT
     (msizeof "health") (offsetof "health") SUT_All;
   mkStat STAT.WILL SHORT "short" "will" "Will" (Some "W") DebuffType.STAT
     (msizeof "will") (offsetof "will") SUT_All;
   mkStat STAT.WILL_CHARGES SHORT "short" "will_charges" "Will Charges" (Some "WCh") 0
     (msizeof "will_charges") (offsetof "will_charges") SUT_All;
   mkStat STAT.MIGHT SHORT "short" "might" "Might" (Some "M") DebuffType.STAT
     (msizeof "might") (offsetof "might") SUT_All;
   mkStat STAT.MIGHT_CHARGES SHORT "short" "might_charges" "Might Charges" (Some "MCh") 0
     (msizeof "might_charges") (offsetof "might_charges") SUT_All;
   mkStat STAT.SSIZE SHORT "short" "size" "Size" (Some "sz") 0
     (msizeof "size") (offsetof "size") SUT_All;
   mkStat STAT.PROFESSION SHORT "short" "profession" "Profession" None 0
     (msizeof "profession") (offsetof "profession") SUT_All;
   mkStat STAT.WEAPON_DAMAGE_2H SHORT "short" "weapon_damage_2h" "Weapon Damage: Two-Handed" None DebuffType.STAT
     (msizeof "weapon_damage_2h") (offsetof "weapon_damage_2h") SUT_All;
   mkStat STAT.WEAPON_DAMAGE_1H SHORT "short" "weapon_damage_1h" "Weapon Damage: One-Handed" None DebuffType.STAT
     (msizeof "weapon_damage_1h") (offsetof "weapon_damage_1h") SUT_All;
   mkStat STAT.WEAPON_DAMAGE_POLE SHORT "short" "weapon_damage_pole" "Weapon Damage: Pole" None 0
     (msizeof "weapon_damage_pole") (offsetof "weapon_damage_pole") SUT_All;
   mkStat STAT.WEAPON_DAMAGE_SMALL SHORT "short" "weapon_damage_small" "Weapon Damage: Small" None DebuffType.STAT
     (msizeof "weapon_damage_small") (offsetof "weapon_damage_small") SUT_All;
   mkStat STAT.WEAPON_DAMAGE_BOW SHORT "short" "weapon_damage_bow" "Weapon Damage: Bow" None DebuffType.STAT
     (msizeof "weapon_damage_box") (offsetof "weapon_damage_box") SUT_All;
   mkStat STAT.WEAPON_DAMAGE_THROWN SHORT "short" "weapon_damage_thrown" "Weapon Damage: Thrown" None DebuffType.STAT
     (msizeof "weapon_damage_thrown") (offsetof "weapon_damage_thrown") SUT_All;
   mkStat STAT.WEAPON_DAMAGE_WAND SHORT "short" "weapon_damage_wand" "Weapon Damage: Wand" None DebuffType.STAT
     (msizeof "weapon_damage_wand") (offsetof "weapon_damage_wand") SUT_All;
   mkStat STAT.EXTRA_DAMAGE_FIRE SHORT "short" "extra_damage_fire" "Extra Damage: Fire" None DebuffType.STAT
     (msizeof "extra_damage_fire") (offsetof "extra_damage_fire") SUT_All;
   mkStat STAT.EXTRA_DAMAGE_FROST SHORT "short" "extra_damage_frost" "Extra Damage: Frost" None DebuffType.STAT
     (msizeof "extra_damage_frost") (offsetof "extra_damage_frost") SUT_None;
   mkStat STAT.EXTRA_DAMAGE_MYSTIC SHORT "short" "extra_damage_mystic" "Extra Damage: Mystic" None DebuffType.STAT
     (msizeof "extra_damage_mystic") (offsetof "extra_damage_mystic") SUT_None;
   mkStat STAT.EXTRA_DAMAGE_DEATH SHORT "short" "extra_damage_death" "Extra Damage: Death" None DebuffType.STAT
     (msizeof "extra_damage_death") (offsetof "extra_damage_death") SUT_None;
   mkStat STAT.APPEARANCE_OVERRIDE STRING "string" "appearance_override" "Appearance Override" None 0
     (msizeof "appearance_override") (offsetof "appearance_override") SUT_All;
   mkStat STAT.INVISIBILITY_DISTANCE FLOAT "float" "invisibility_distance" "Invisibility Distance" None 0
     (msizeof "invisibility_distance") (offsetof "invisibility_distance") SUT_None;
   mkStat STAT.TRANSLOCATE_DESTINATION STRING "string" "translocate_destination" "Translocate Destination" None 0
     (msizeof "translocate_destination") (offsetof "translocate_destination") SUT_All;
   mkStat STAT.LOOTABLE_PLAYER_IDS STRING "string" "lootable_player_ids" "Lootable Player ID's" None 0
     (msizeof "lootable_player_ids") (offsetof "lootable_player_ids") SUT_All;
   mkStat STAT.MASTER SHORT "short" "master" "Master" None 0
     (msizeof "master") (offsetof "master") SUT_None;
   mkStat STAT.REZ_PENDING SHORT "short" "rez_pending" "Pending Resurrection Offer" None 0
     (msizeof "rez_pending") (offsetof "rez_pending") SUT_None;
   mkStat STAT.LOOT_SEEABLE_PLAYER_IDS STRING "string" "loot_seeable_player_ids" "Loot Seeable Player ID's" None 0
     (msizeof "loot_seeable_player_ids") (offsetof "loot_seeable_player_ids") SUT_All;
   mkStat STAT.LOOT CSTRING "string" "loot" "Loot" None 0
     (msizeof "loot") (offsetof "loot") SUT_None;
   mkStat STAT.BASE_STATS CSTRING "string" "base_stats" "Base Stats" None 0
     (msizeof "base_stats") (offsetof "base_stats") SUT_All;
   mkStat STAT.HEALTH_MOD SHORT "short" "health_mod" "Health Mod" None 0
     (msizeof "health_mod") (offsetof "health_mod") SUT_All;
   mkStat STAT.HEROISM SHORT "short" "heroism" "Heroism" None 0
     (msizeof "heroism") (offsetof "heroism") SUT_All;
   mkStat STAT.EXPERIENCE INTEGER "int" "experience" "Experience Points" (Some "XP") 0
     (msizeof "experience") (offsetof "experience") SUT_All;
   mkStat STAT.TOTAL_ABILITY_POINTS SHORT "short" "total_ability_points" "Total Ability Points" (Some "TAP") 0
     (msizeof "total_ability_points") (offsetof "total_ability_points") SUT_All;
   mkStat STAT.CURRENT_ABILITY_POINTS SHORT "short" "current_ability_points" "Current Ability Points" (Some "CAP") 0
     (msizeof "current_ability_points") (offsetof "current_ability_points") SUT_All;
   mkStat STAT.COPPER INTEGER "int" "copper" "Copper" None 0
     (msizeof "copper") (offsetof "copper") SUT_All;
   mkStat STAT.CREDITS INTEGER "int" "credits" "Credits" None 0
     (msizeof "credits") (offsetof "credits") SUT_All;
   mkStat STAT.AI_MODULE CSTRING "string" "ai_module" "AI Module" None 0
     (msizeof "ai_module") (offsetof "ai_module") SUT_All;
   mkStat STAT.CREATURE_CATEGORY CSTRING "string" "creature_category" "Creature Category" None 0
     (msizeof "creature_category") (offsetof "creature_category") SUT_All;
   mkStat STAT.RARITY SHORT "short" "rarity" "Rarity" None 0
     (msizeof "rarity") (offsetof "rarity") SUT_All;
   mkStat STAT.SPAWN_TABLE_POINTS SHORT "short" "spawn_table_points" "Spawn Table Points" None 0
     (msizeof "spawn_table_points") (offsetof "spawn_table_points") SUT_None;
   mkStat STAT.AI_PACKAGE CSTRING "string" "ai_package" "AI Package" None 0
     (msizeof "ai_package") (offsetof "ai_package") SUT_All;
   mkStat STAT.BONUS_HEALTH SHORT "short" "bonus_health" "Bonus Health" None 0
     (msizeof "bonus_health") (offsetof "bonus_health") SUT_All;
   mkStat STAT.DR_MOD_MELEE INTEGER "int" "dr_mod_melee" "Melee Damage Reduction" None 0
     (msizeof "dr_mod_melee") (offsetof "dr_mod_melee") SUT_All;
   mkStat STAT.DR_MOD_FIRE INTEGER "int" "dr_mod_fire" "Fire Damage Reduction" None 0
     (msizeof "dr_mod_fire") (offsetof "dr_mod_fire") SUT_All;
   mkStat STAT.DR_MOD_FROST INTEGER "int" "dr_mod_frost" "Frost Damage Reduction" None 0
     (msizeof "dr_mod_frost") (offsetof "dr_mod_frost") SUT_All;
   mkStat STAT.DR_MOD_MYSTIC INTEGER "int" "dr_mod_mystic" "Mystic Damage Reduction" None 0
     (msizeof "dr_mod_mystic") (offsetof "dr_mod_mystic") SUT_All;
   mkStat STAT.DR_MOD_DEATH INTEGER "int" "dr_mod_death" "Death Damage Reduction" None 0
     (msizeof "dr_mod_death") (offsetof "dr_mod_death") SUT_All;
   mkStat STAT.DMG_MOD_MELEE INTEGER "int" "dmg_mod_melee" "Melee Damage Modifier" None 0
     (msizeof "dmg_mod_melee") (offsetof "dmg_mod_melee") SUT_All;
   mkStat STAT.DMG_MOD_FIRE INTEGER "int" "dmg_mod_fire" "Fire Damage Modifier" None 0
     (msizeof "dmg_mod_fire") (offsetof "dmg_mod_fire") SUT_All;
   mkStat STAT.DMG_MOD_FROST INTEGER "int" "dmg_mod_frost" "Frost Damage Modifier" None 0
     (msizeof "dmg_mod_frost") (offsetof "dmg_mod_frost") SUT_All;
   mkStat STAT.DMG_MOD_MYSTIC INTEGER "int" "dmg_mod_mystic" "Mystic Damage Modifier" None 0
     (msizeof "dmg_mod_mystic") (offsetof "dmg_mod_mystic") SUT_All;
   mkStat STAT.DMG_MOD_DEATH INTEGER "int" "dmg_mod_death" "Death Damage Modifier" None 0
     (msizeof "dmg_mod_death") (offsetof "dmg_mod_death") SUT_All;
   mkStat STAT.PVP_TEAM SHORT "short" "pvp_team" "PvP Team" None 0
     (msizeof "pvp_team") (offsetof "pvp_team") SUT_None;
   mkStat STAT.PVP_KILLS INTEGER "int" "pvp_kills" "PvP Kills" None 0
     (msizeof "pvp_kills") (offsetof "pvp_kills") SUT_None;
   mkStat STAT.PVP_DEATHS INTEGER "int" "pvp_deaths" "PvP Deaths" None 0
     (msizeof "pvp_deaths") (offsetof "pvp_deaths") SUT_None;
   mkStat STAT.PVP_STATE CSTRING "string" "pvp_state" "PvP State" None 0
     (msizeof "pvp_state") (offsetof "pvp_state") SUT_All;
   mkStat STAT.PVP_FLAG_CAPTURES INTEGER "integer" "pvp_flag_captures" "PvP Flag Captures" None 0
     (msizeof "pvp_flag_captures") (offsetof "pvp_flag_captures") SUT_None;
   mkStat STAT.MOD_MELEE_TO_HIT FLOAT "float" "mod_melee_to_hit" "Mod Melee To Hit" None 0
     (msizeof "mod_melee_to_hit") (offsetof "mod_melee_to_hit") SUT_None;
   mkStat STAT.MOD_MELEE_TO_CRIT FLOAT "float" "mod_melee_to_crit" "Mod Melee To Crit" None 0
     (msizeof "mod_melee_to_crit") (offsetof "mod_melee_to_crit") SUT_None;
   mkStat STAT.MOD_MAGIC_TO_HIT FLOAT "float" "mod_magic_to_hit" "Mod Magic To Hit" None 0
     (msizeof "mod_magic_to_hit") (offsetof "mod_magic_to_hit") SUT_None;
   mkStat STAT.MOD_MAGIC_TO_CRIT FLOAT "float" "mod_magic_to_crit" "Mod Magic To Crit" None 0
     (msizeof "mod_magic_to_crit") (offsetof "mod_magic_to_crit") SUT_None;
   mkStat STAT.MOD_PARRY FLOAT "float" "mod_parry" "Mod Parry" None 0
     (msizeof "mod_parry") (offsetof "mod_parry") SUT_None;
   mkStat STAT.MOD_BLOCK FLOAT "float" "mod_block" "Mod Block" None 0
     (msizeof "mod_block") (offsetof "mod_block") SUT_None;
   mkStat STAT.MOD_MOVEMENT INTEGER "int" "mod_movement" "Mod Movement" None 0
     (msizeof "mod_movement") (offsetof "mod_movement") SUT_All;
   mkStat STAT.MOD_HEALTH_REGEN FLOAT "float" "mod_health_regen" "Mod Health Regen" None 0
     (msizeof "mod_health_regen") (offsetof "mod_health_regen") SUT_None;
   mkStat STAT.MOD_ATTACK_SPEED FLOAT "float" "mod_attack_speed" "Mod Attack Speed" None 0
     (msizeof "mod_attack_speed") (offsetof "mod_attack_speed") SUT_None;
   mkStat STAT.MOD_CASTING_SPEED FLOAT "float" "mod_casting_speed" "Mod Casting Speed" None 0
     (msizeof "mod_casting_speed") (offsetof "mod_casting_speed") SUT_All;
   mkStat STAT.MOD_HEALING FLOAT "float" "mod_healing" "Mod Healing" None 0
     (msizeof "mod_healing") (offsetof "mod_healing") SUT_None;
   mkStat STAT.TOTAL_SIZE FLOAT "float" "total_size" "Total Size" None 0
     (msizeof "total_size") (offsetof "total_size") SUT_All;
   mkStat STAT.AGGRO_PLAYERS SHORT "short" "aggro_players" "Aggro Players" None 0
     (msizeof "aggro_players") (offsetof "aggro_players") SUT_NonPlayer;
   mkStat STAT.MOD_LUCK FLOAT "float" "mod_luck" "Mod Luck" None 0
     (msizeof "mod_luck") (offsetof "mod_luck") SUT_None;
   mkStat STAT.HEALTH_REGEN FLOAT "float" "health_regen" "Health Regen" None 0
     (msizeof "health_regen") (offsetof "health_regen") SUT_All;
   mkStat STAT.BLEEDING SHORT "short" "bleeding" "Bleeding" None 0
     (msizeof "bleeding") (offsetof "bleeding") SUT_None;
   mkStat STAT.DAMAGE_SHIELD INTEGER "int" "damage_shield" "Damage Shield" None 0
     (msizeof "damage_shield") (offsetof "damage_shield") SUT_None;
   mkStat STAT.HIDE_NAMEBOARD SHORT "short" "hide_nameboard" "Hide Nameboard" None 0
     (msizeof "hide_nameboard") (offsetof "hide_nameboard") SUT_All;
   mkStat STAT.HIDE_MINIMAP SHORT "short" "hide_minimap" "Hide Minimap" None 0
     (msizeof "hide_minimap") (offsetof "hide_minimap") SUT_All;
   mkStat STAT.CREDIT_DROPS SHORT "short" "credit_drops" "Credit Drops" None 0
     (msizeof "credit_drops") (offsetof "credit_drops") SUT_All;
   mkStat STAT.HEROISM_GAIN_RATE SHORT "short" "heroism_gain_rate" "Heroism Gain Rate" None 0
     (msizeof "heroism_gain_rate") (offsetof "heroism_gain_rate") SUT_All;
   mkStat STAT.QUEST_EXP_GAIN_RATE SHORT "short" "quest_exp_gain_rate" "Quest Experience Gain Rate" None 0
     (msizeof "quest_exp_gain_rate") (offsetof "quest_exp_gain_rate") SUT_All;
   mkStat STAT.DROP_GAIN_RATE SHORT "short" "drop_gain_rate" "Treasure Gain Rate" None 0
     (msizeof "drop_gain_rate") (offsetof "drop_gain_rate") SUT_All;
   mkStat STAT.TAGS STRING "string" "tags" "Tags" None 0
     (msizeof "tags") (offsetof "tags") SUT_All;
   mkStat STAT.MAX_HEALTH_PC SHORT "short" "max_health_pc" "Maximum Health %" None 0
     (msizeof "max_health_pc") (offsetof "max_health_pc") SUT_All;
   mkStat STAT.MIN_HEALTH_PC SHORT "short" "min_health_pc" "Minimum Health %" None 0
     (msizeof "min_health_pc") (offsetof "min_health_pc") SUT_All].

Definition NumStats : nat := 132.

Module StatusEffects.
Definition DEAD : Z := 0.
Definition SILENCE : Z := 1.
Definition DISARM : Z := 2.
Definition STUN : Z := 3.
Definition DAZE : Z := 4.
Definition CHARM : Z := 5.
Definition FEAR : Z := 6.
Definition ROOT : Z := 7.
Definition LOCKED : Z := 8.
Definition BROKEN : Z := 9.
Definition CAN_USE_WEAPON_2H : Z := 10.
Definition CAN_USE_WEAPON_1H : Z := 11.
Definition CAN_USE_WEAPON_SMALL : Z := 12.
Definition CAN_USE_WEAPON_POLE : Z := 13.
Definition CAN_USE_WEAPON_BOW : Z := 14.
Definition CAN_USE_WEAPON_THROWN : Z := 15.
Definition CAN_USE_WEAPON_WAND : Z := 16.
Definition CAN_USE_DUAL_WIELD : Z := 17.
Definition CAN_USE_PARRY : Z := 18.
Definition CAN_USE_BLOCK : Z := 19.
Definition CAN_USE_ARMOR_CLOTH : Z := 20.
Definition CAN_USE_ARMOR_LIGHT : Z := 21.
Definition CAN_USE_ARMOR_MEDIUM : Z := 22.
Definition CAN_USE_ARMOR_HEAVY : Z := 23.
Definition INVISIBLE : Z := 24.
Definition ALL_SEEING : Z := 25.
Definition IN_COMBAT_STAND : Z := 26.
Definition INVINCIBLE : Z := 27.
Definition FLEE : Z := 28.
Definition NO_AGGRO_GAINED : Z := 29.
Definition UNATTACKABLE : Z := 30.
Definition IS_USABLE : Z := 31.
Definition CLIENT_LOADING : Z := 32.
Definition IMMUNE_INTERRUPT : Z := 33.
Definition IMMUNE_SILENCE : Z := 34.
Definition IMMUNE_DISARM : Z := 35.
Definition IMMUNE_BLEED : Z := 36.
Definition IMMUNE_DAMAGE_FIRE : Z := 37.
Definition IMMUNE_DAMAGE_FROST : Z := 38.
Definition IMMUNE_DAMAGE_MYSTIC : Z := 39.
Definition IMMUNE_DAMAGE_DEATH : Z := 40.
Definition IMMUNE_DAMAGE_MELEE : Z := 41.
Definition DISABLED : Z := 42.
Definition AUTO_ATTACK : Z := 43.
Definition AUTO_ATTACK_RANGED : Z := 44.
Definition CARRYING_RED_FLAG : Z := 45.
Definition CARRYING_BLUE_FLAG : Z := 46.
Definition HENGE : Z := 47.
Definition TRANSFORMER : Z := 48.
Definition PVPABLE : Z := 49.
Definition IN_COMBAT : Z := 50.
Definition WALK_IN_SHADOWS : Z := 51.
Definition EVADE : Z := 52.
Definition TAUNTED : Z := 53.
Definition XP_BOOST : Z := 54.
Definition REAGENT_GENERATOR : Z := 55.
Definition RES_PENALTY : Z := 56.
Definition IMMUNE_STUN : Z := 57.
Definition IMMUNE_DAZE : Z := 58.
Definition GM_FROZEN : Z := 59.
Definition GM_INVISIBLE : Z := 60.
Definition GM_SILENCED : Z := 61.
Definition UNKILLABLE : Z := 62.
Definition TRANSFORMED : Z := 63.
Definition INVISIBLE_EQUIPMENT : Z := 64.
Definition USABLE_BY_COMBATANT : Z := 65.
Definition LEECHING : Z := 66.
Definition USABLE_BY_SCRIPT : Z := 67.
Definition FLOATING : Z := 68.
Definition HOVERING : Z := 69.
Definition MOUNTABLE : Z := 70.
Definition MOUNTED : Z := 71.
Definition CARRYING_RIDER : Z := 72.
End StatusEffects.

Record StatusEffectBitInfo := mkStatusBit {
  effectID : Z; arrayIndex : Z; bit : Z; effect_name : string }.

(** [1 << 31] is the least [int]. *)
Definition bit_of (n : Z) : Z := i32 (Z.shiftl 1 n).

Definition StatusEffectBitData : list StatusEffectBitInfo :=
  [mkStatusBit StatusEffects.DEAD 0 (bit_of 0) "DEAD";
   mkStatusBit StatusEffects.SILENCE 0 (bit_of 1) "SILENCE";
   mkStatusBit StatusEffects.DISARM 0 (bit_of 2) "DISARM";
   mkStatusBit StatusEffects.STUN 0 (bit_of 3) "STUN";
   mkStatusBit StatusEffects.DAZE 0 (bit_of 4) "DAZE";
   mkStatusBit StatusEffects.CHARM 0 (bit_of 5) "CHARM";
   mkStatusBit StatusEffects.FEAR 0 (bit_of 6) "FEAR";
   mkStatusBit StatusEffects.ROOT 0 (bit_of 7) "ROOT";
   mkStatusBit StatusEffects.LOCKED 0 (bit_of 8) "LOCKED";
   mkStatusBit StatusEffects.BROKEN 0 (bit_of 9) "BROKEN";
   mkStatusBit StatusEffects.CAN_USE_WEAPON_2H 0 (bit_of 10) "CAN_USE_WEAPON_2H";
   mkStatusBit StatusEffects.CAN_USE_WEAPON_1H 0 (bit_of 11) "CAN_USE_WEAPON_1H";
   mkStatusBit StatusEffects.CAN_USE_WEAPON_SMALL 0 (bit_of 12) "CAN_USE_WEAPON_SMALL";
   mkStatusBit StatusEffects.CAN_USE_WEAPON_POLE 0 (bit_of 13) "CAN_USE_WEAPON_POLE";
   mkStatusBit StatusEffects.CAN_USE_WEAPON_BOW 0 (bit_of 14) "CAN_USE_WEAPON_BOW";
   mkStatusBit StatusEffects.CAN_USE_WEAPON_THROWN 0 (bit_of 15) "CAN_USE_WEAPON_THROWN";
   mkStatusBit StatusEffects.CAN_USE_WEAPON_WAND 0 (bit_of 16) "CAN_USE_WEAPON_WAND";
   mkStatusBit StatusEffects.CAN_USE_DUAL_WIELD 0 (bit_of 17) "CAN_USE_DUAL_WIELD";
   mkStatusBit StatusEffects.CAN_USE_PARRY 0 (bit_of 18) "CAN_USE_PARRY";
   mkStatusBit StatusEffects.CAN_USE_BLOCK 0 (bit_of 19) "CAN_USE_BLOCK";
   mkStatusBit StatusEffects.CAN_USE_ARMOR_CLOTH 0 (bit_of 20) "CAN_USE_ARMOR_CLOTH";
   mkStatusBit StatusEffects.CAN_USE_ARMOR_LIGHT 0 (bit_of 21) "CAN_USE_ARMOR_LIGHT";
   mkStatusBit StatusEffects.CAN_USE_ARMOR_MEDIUM 0 (bit_of 22) "CAN_USE_ARMOR_MEDIUM";
   mkStatusBit StatusEffects.CAN_USE_ARMOR_HEAVY 0 (bit_of 23) "CAN_USE_ARMOR_HEAVY";
   mkStatusBit StatusEffects.INVISIBLE 0 (bit_of 24) "INVISIBLE";
   mkStatusBit StatusEffects.ALL_SEEING 0 (bit_of 25) "ALL_SEEING";
   mkStatusBit StatusEffects.IN_COMBAT_STAND 0 (bit_of 26) "IN_COMBAT_STAND";
   mkStatusBit StatusEffects.INVINCIBLE 0 (bit_of 27) "INVINCIBLE";
   mkStatusBit StatusEffects.FLEE 0 (bit_of 28) "FLEE";
   mkStatusBit StatusEffects.NO_AGGRO_GAINED 0 (bit_of 29) "NO_AGGRO_GAINED";
   mkStatusBit StatusEffects.UNATTACKABLE 0 (bit_of 30) "UNATTACKABLE";
   mkStatusBit StatusEffects.IS_USABLE 0 (bit_of 31) "IS_USABLE";
   mkStatusBit StatusEffects.CLIENT_LOADING 1 (bit_of 0) "CLIENT_LOADING";
   mkStatusBit StatusEffects.IMMUNE_INTERRUPT 1 (bit_of 1) "IMMUNE_INTERRUPT";
   mkStatusBit StatusEffects.IMMUNE_SILENCE 1 (bit_of 2) "IMMUNE_SILENCE";
   mkStatusBit StatusEffects.IMMUNE_DISARM 1 (bit_of 3) "IMMUNE_DISARM";
   mkStatusBit StatusEffects.IMMUNE_BLEED 1 (bit_of 4) "IMMUNE_BLEED";
   mkStatusBit StatusEffects.IMMUNE_DAMAGE_FIRE 1 (bit_of 5) "IMMUNE_DAMAGE_FIRE";
   mkStatusBit StatusEffects.IMMUNE_DAMAGE_FROST 1 (bit_of 6) "IMMUNE_DAMAGE_FROST";
   mkStatusBit StatusEffects.IMMUNE_DAMAGE_MYSTIC 1 (bit_of 7) "IMMUNE_DAMAGE_MYSTIC";
   mkStatusBit StatusEffects.IMMUNE_DAMAGE_DEATH 1 (bit_of 8) "IMMUNE_DAMAGE_DEATH";
   mkStatusBit StatusEffects.IMMUNE_DAMAGE_MELEE 1 (bit_of 9) "IMMUNE_DAMAGE_MELEE";
   mkStatusBit StatusEffects.DISABLED 1 (bit_of 10) "DISABLED";
   mkStatusBit StatusEffects.AUTO_ATTACK 1 (bit_of 11) "AUTO_ATTACK";
   mkStatusBit StatusEffects.AUTO_ATTACK_RANGED 1 (bit_of 12) "AUTO_ATTACK_RANGED";
   mkStatusBit StatusEffects.CARRYING_RED_FLAG 1 (bit_of 13) "CARRYING_RED_FLAG";
   mkStatusBit StatusEffects.CARRYING_BLUE_FLAG 1 (bit_of 14) "CARRYING_BLUE_FLAG";
   mkStatusBit StatusEffects.HENGE 1 (bit_of 15) "HENGE";
   mkStatusBit StatusEffects.TRANSFORMER 1 (bit_of 16) "TRANSFORMER";
   mkStatusBit StatusEffects.PVPABLE 1 (bit_of 17) "PVPABLE";
   mkStatusBit StatusEffects.IN_COMBAT 1 (bit_of 18) "IN_COMBAT";
   mkStatusBit StatusEffects.WALK_IN_SHADOWS 1 (bit_of 19) "WALK_IN_SHADOWS";
   mkStatusBit StatusEffects.EVADE 1 (bit_of 20) "EVADE";
   mkStatusBit StatusEffects.TAUNTED 1 (bit_of 21) "TAUNTED";
   mkStatusBit StatusEffects.XP_BOOST 1 (bit_of 22) "XP_BOOST";
   mkStatusBit StatusEffects.REAGENT_GENERATOR 1 (bit_of 23) "REAGENT_GENERATOR";
   mkStatusBit StatusEffects.RES_PENALTY 1 (bit_of 24) "RES_PENALTY";
   mkStatusBit StatusEffects.IMMUNE_STUN 1 (bit_of 25) "IMMUNE_STUN";
   mkStatusBit StatusEffects.IMMUNE_DAZE 1 (bit_of 26) "IMMUNE_DAZE";
   mkStatusBit StatusEffects.GM_FROZEN 1 (bit_of 27) "GM_FROZEN";
   mkStatusBit StatusEffects.GM_INVISIBLE 1 (bit_of 28) "GM_INVISIBLE";
   mkStatusBit StatusEffects.GM_SILENCED 1 (bit_of 29) "GM_SILENCED";
   mkStatusBit StatusEffects.UNKILLABLE 1 (bit_of 30) "UNKILLABLE";
   mkStatusBit StatusEffects.TRANSFORMED 1 (bit_of 31) "TRANSFORMED";
   mkStatusBit StatusEffects.INVISIBLE_EQUIPMENT 2 (bit_of 0) "INVISIBLE_EQUIPMENT";
   mkStatusBit StatusEffects.USABLE_BY_COMBATANT 2 (bit_of 1) "USABLE_BY_COMBATANT";
   mkStatusBit StatusEffects.LEECHING 2 (bit_of 2) "LEECHING";
   mkStatusBit StatusEffects.USABLE_BY_SCRIPT 2 (bit_of 3) "USABLE_BY_SCRIPT";
   mkStatusBit StatusEffects.FLOATING 2 (bit_of 4) "FLOATING";
   mkStatusBit StatusEffects.HOVERING 2 (bit_of 5) "HOVERING";
   mkStatusBit StatusEffects.MOUNTABLE 2 (bit_of 6) "MOUNTABLE";
   mkStatusBit StatusEffects.MOUNTED 2 (bit_of 7) "MOUNTED";
   mkStatusBit StatusEffects.CARRYING_RIDER 2 (bit_of 8) "CARRYING_RIDER"].

(** The columns of [LevelBaseStats]. *)
Module BaseStat.
Definition High : Z := 0.
Definition Med : Z := 1.
Definition Low : Z := 2.
End BaseStat.

Definition LevelBaseStats : list (list Z) :=
  [[0; 0; 0];
   [10; 8; 7];
   [11; 8; 7];
   [12; 9; 8];
   [13; 10; 9];
   [14; 11; 10];
   [15; 12; 10];
   [16; 13; 11];
   [17; 14; 12];
   [18; 15; 12];
   [19; 16; 13];
   [20; 17; 14];
   [21; 18; 14];
   [22; 18; 15];
   [23; 19; 16];
   [24; 19; 16];
   [25; 20; 17];
   [26; 21; 18];
   [27; 22; 18];
   [28; 23; 19];
   [29; 24; 20];
   [30; 25; 20];
   [31; 26; 21];
   [32; 27; 22];
   [33; 28; 22];
   [34; 29; 23];
   [35; 30; 24];
   [36; 31; 24];
   [37; 32; 25];
   [38; 33; 26];
   [40; 34; 28];
   [42; 36; 28];
   [44; 38; 30];
   [46; 39; 32];
   [48; 41; 32];
   [50; 43; 34];
   [52; 45; 36];
   [54; 46; 36];
   [56; 48; 38];
   [58; 50; 40];
   [60; 51; 42];
   [62; 53; 42];
   [64; 55; 44];
   [66; 56; 46];
   [68; 58; 46];
   [70; 60; 48];
   [72; 62; 50];
   [74; 63; 50];
   [76; 65; 52];
   [78; 67; 54];
   [80; 68; 56];
   [82; 70; 56];
   [84; 72; 58];
   [86; 73; 60];
   [88; 75; 60];
   [90; 77; 62];
   [92; 79; 64];
   [94; 80; 64];
   [96; 82; 66];
   [98; 84; 68];
   [100; 85; 70];
   [102; 87; 70];
   [104; 89; 72];
   [106; 90; 74];
   [108; 92; 74];
   [110; 94; 76];
   [112; 96; 78];
   [114; 97; 78];
   [116; 99; 80];
   [118; 101; 82];
   [120; 102; 84]].

(** The column of each of strength, dexterity, constitution, psyche and spirit, by
    profession. *)
Definition ProfBaseStats : list (list Z) :=
  [[BaseStat.Med; BaseStat.Med; BaseStat.Med; BaseStat.Med; BaseStat.Med];
   [BaseStat.High; BaseStat.Med; BaseStat.High; BaseStat.Low; BaseStat.Low];
   [BaseStat.High; BaseStat.High; BaseStat.Med; BaseStat.Low; BaseStat.Low];
   [BaseStat.Low; BaseStat.Med; BaseStat.Low; BaseStat.High; BaseStat.High];
   [BaseStat.Low; BaseStat.Low; BaseStat.High; BaseStat.Med; BaseStat.High];
   [BaseStat.Med; BaseStat.Med; BaseStat.Med; BaseStat.Med; BaseStat.Med]].
