(* ===== verification/Stats.v ===== *)
(** * Character stats ([Stats.cpp], packets of [Creature.cpp])

    [CharacterStatSet] is the list of its members in the order of the structure;
    [StatList[i].offset] is a place in it. A member is read and written through a
    pointer of the type the table gives: the health is an [int] that the table
    treats as a [short] unless [SetHealthToInteger] is called, all other types
    agree. Reading a member at a type it does not have is undefined ([None]).
    The table is an argument, since [SetHealthToInteger] changes it. *)

From S2P Require Import Prelude ByteBuffer Messages Text Float StatTables.

(** ** Members *)

Inductive StatVal :=
  | VShort (z : Z)
  | VInt (z : Z)
  | VFloat (bits : Z)
  | VChars (s : string)      (* the C string in a [char[n]] *)
  | VString (s : string).

Definition CharacterStatSet : Type := list StatVal.

(** What a pointer of each type reads; the first two bytes of an [int] are its low
    half. *)
Definition read_short (v : StatVal) : option Z :=
  match v with VShort z => Some z | VInt z => Some (i16 z) | _ => None end.
Definition read_int (v : StatVal) : option Z :=
  match v with VInt z => Some z | _ => None end.
Definition read_float (v : StatVal) : option Z :=
  match v with VFloat z => Some z | _ => None end.
Definition read_chars (v : StatVal) : option string :=
  match v with VChars s => Some s | _ => None end.
Definition read_string (v : StatVal) : option string :=
  match v with VString s => Some s | _ => None end.

Definition write_short (z : Z) (v : StatVal) : option StatVal :=
  match v with
  | VShort _ => Some (VShort (i16 z))
  | VInt old => Some (VInt (i32 (old - u16 old + u16 z)))
  | _ => None
  end.
Definition write_int (z : Z) (v : StatVal) : option StatVal :=
  match v with VInt _ => Some (VInt (i32 z)) | _ => None end.
Definition write_float (bits : Z) (v : StatVal) : option StatVal :=
  match v with VFloat _ => Some (VFloat bits) | _ => None end.
Definition write_chars (s : string) (v : StatVal) : option StatVal :=
  match v with VChars _ => Some (VChars s) | _ => None end.
Definition write_string (s : string) (v : StatVal) : option StatVal :=
  match v with VString _ => Some (VString s) | _ => None end.

(** A member changed in place. *)
Definition update_member (i : nat) (f : StatVal -> option StatVal) (css : CharacterStatSet)
  : option CharacterStatSet :=
  v ← css !! i; v' ← f v; Some (<[i := v']> css).

(** ** Searches *)

(** [StatManager::SetHealthToInteger]. *)
Definition set_etype (ty : StatType) (t : string) (d : StatDefinition) : StatDefinition :=
  mkStat (ID d) ty t (name d) (prettyName d) (abbrev d) (debuff d) (size d) (offset d) (updflag d).

Definition GetStatIndex_in (tbl : list StatDefinition) (StatID : Z) : option nat :=
  find_idx (fun d => i16 StatID =? ID d) tbl.

Definition SetHealthToInteger (setting : bool) (tbl : list StatDefinition) : list StatDefinition :=
  match GetStatIndex_in tbl STAT.HEALTH with
  | None => tbl
  | Some r => alter (if setting then set_etype INTEGER "int" else set_etype SHORT "short") r tbl
  end.

Definition isNumericalType (d : StatDefinition) : bool :=
  match etype d with FLOAT | INTEGER | SHORT => true | _ => false end.

Definition GetStatusIDByName (n : string) : Z :=
  match find (fun s => String.eqb n (effect_name s)) StatusEffectBitData with
  | Some s => i32 (effectID s)
  | None => -1
  end.

Definition GetStatusNameByID (id : Z) : string :=
  match find (fun s => effectID s =? id) StatusEffectBitData with
  | Some s => effect_name s
  | None => "UNKNOWN"
  end.

Section Stats.
Context (StatList : list StatDefinition).

Definition GetStatIndex : Z -> option nat := GetStatIndex_in StatList.

Definition GetStatIndexByName (n : string) : option nat :=
  find_idx (fun d => String.eqb n (name d)) StatList.

Definition GetStatDefByName (n : string) : option StatDefinition :=
  r ← GetStatIndexByName n; StatList !! r.

Definition GetStatType (statID : Z) : StatType :=
  match GetStatIndex statID with
  | None => INTEGER
  | Some r => match StatList !! r with Some d => etype d | None => INTEGER end
  end.

(** ** Whole sets *)

(** One turn of [Clear] and [CopyFrom]. *)
Definition clear_member (d : StatDefinition) (css : CharacterStatSet) : option CharacterStatSet :=
  update_member (offset d)
    (match etype d with
     | SHORT => write_short 0 | INTEGER => write_int 0 | FLOAT => write_float (float_of_int 0)
     | CSTRING => write_chars EmptyString | STRING => write_string EmptyString
     end) css.

Fixpoint clear_all (l : list StatDefinition) (css : CharacterStatSet) : option CharacterStatSet :=
  match l with [] => Some css | d :: l' => css' ← clear_member d css; clear_all l' css' end.

Definition put_short (m : string) (z : Z) : CharacterStatSet -> option CharacterStatSet :=
  update_member (offsetof m) (write_short z).
Definition put_float (m : string) (bits : Z) : CharacterStatSet -> option CharacterStatSet :=
  update_member (offsetof m) (write_float bits).

(** [CharacterStatSet::Clear]: [size] is a [short] that is set to [1.0F]. *)
Definition Clear (css : CharacterStatSet) : option CharacterStatSet :=
  css ← clear_all StatList css;
  css ← put_float "health_regen" (float_of_int 1) css;
  css ← put_short "size" (short_of_float (float_of_int 1)) css;
  css ← put_float "mod_casting_speed" (atof_float "1.4013e-045") css;
  css ← put_float "will_regen" (float_of_int 1) css;
  css ← put_float "might_regen" (float_of_int 1) css;
  css ← put_short "max_health_pc" 100 css;
  put_short "min_health_pc" 0 css.

(** [CharacterStatSet()] ends with [Clear]; what it assigns before is the same or
    overwritten. *)
Definition zero_member (m : MemberType) : StatVal :=
  match m with
  | Tshort => VShort 0 | Tint => VInt 0 | Tfloat => VFloat (float_of_int 0)
  | Tchars _ => VChars EmptyString | Tstring => VString EmptyString
  end.

Definition newCharacterStatSet : option CharacterStatSet := Clear (zero_member <$> (snd <$> members)).

Definition copy_member (d : StatDefinition) (source css : CharacterStatSet) : option CharacterStatSet :=
  v ← source !! offset d;
  match etype d with
  | SHORT => z ← read_short v; update_member (offset d) (write_short z) css
  | INTEGER => z ← read_int v; update_member (offset d) (write_int z) css
  | FLOAT => z ← read_float v; update_member (offset d) (write_float z) css
  | CSTRING => s ← read_chars v; update_member (offset d) (write_chars s) css
  | STRING => s ← read_string v; update_member (offset d) (write_string s) css
  end.

Fixpoint copy_all (l : list StatDefinition) (source css : CharacterStatSet) : option CharacterStatSet :=
  match l with [] => Some css | d :: l' => css' ← copy_member d source css; copy_all l' source css' end.

Definition CopyFrom (source css : CharacterStatSet) : option CharacterStatSet :=
  copy_all StatList source css.

(** ** Values on the wire *)

(** The current value of a stat, as [WriteCurrentStatToBuffer] and
    [WriteCharacterStats] put it. *)
Definition put_value (ty : StatType) (v : StatVal) : option (list Z) :=
  match ty with
  | SHORT => PutShort <$> read_short v
  | INTEGER => PutInteger <$> read_int v
  | FLOAT => PutFloat <$> read_float v
  | CSTRING => PutStringUTF <$> read_chars v
  | STRING => PutStringUTF <$> read_string v
  end.

Definition WriteCurrentStatToBuffer (StatID : Z) (css : CharacterStatSet) : option (list Z) :=
  match GetStatIndex StatID with
  | None => Some []
  | Some r => d ← StatList !! r; v ← css !! offset d; put_value (etype d) v
  end.

Definition WriteStatToBuffer (StatID value : Z) : option (list Z) :=
  match GetStatIndex StatID with
  | None => Some []
  | Some r =>
      d ← StatList !! r;
      Some (match etype d with
            | SHORT => PutShort (short_of_float value)
            | INTEGER => PutInteger (int_of_float value)
            | FLOAT => PutFloat value
            | CSTRING | STRING => PutStringUTF EmptyString
            end)
  end.

(** [WriteCharacterStats]: the bytes and the number of stats. *)
Fixpoint write_stats (flagMask : Z) (l : list StatDefinition) (css : CharacterStatSet)
  : option (list Z * Z) :=
  match l with
  | [] => Some ([], 0)
  | d :: l' =>
      '(rest, n) ← write_stats flagMask l' css;
      if Z.land (updflag d) flagMask =? 0 then Some (rest, n)
      else
        v ← css !! offset d;
        data ← put_value (etype d) v;
        Some (PutShort (ID d) ++ data ++ rest, n + 1)
  end.

Definition WriteCharacterStats (css : CharacterStatSet) (flagMask : Z) : option (list Z * Z) :=
  write_stats flagMask StatList css.

(** ** Values as text *)

(** A text stored in a member, and what [WriteStatToSet] returns for it. A text
    too long for its array is cut. *)
Definition cut_length (d : StatDefinition) (value : string) : Z :=
  if size d - 1 <? Z.of_nat (String.length value) then size d - 1 else Z.of_nat (String.length value).

Definition write_text (d : StatDefinition) (value : string) : StatVal -> option StatVal :=
  match etype d with
  | SHORT => write_short (i16 (atoi value))
  | INTEGER => write_int (atoi value)
  | FLOAT => write_float (atof_float value)
  | CSTRING => write_chars (cstr (String.substring 0 (Z.to_nat (cut_length d value)) value))
  | STRING => write_string value
  end.

Definition text_result (d : StatDefinition) (value : string) : Z :=
  match etype d with
  | SHORT => 2
  | INTEGER | FLOAT => 4
  | CSTRING => cut_length d value
  | STRING => Z.of_nat (String.length value)
  end.

Definition WriteStatToSet (StatIndex : Z) (value : string) (css : CharacterStatSet)
  : option (CharacterStatSet * Z) :=
  if StatIndex =? -1 then Some (css, -1)
  else
    d ← (if StatIndex <? 0 then None else StatList !! Z.to_nat StatIndex);
    css' ← update_member (offset d) (write_text d value) css;
    Some (css', text_result d value).

Definition WriteStatToSetByName (n value : string) (css : CharacterStatSet)
  : option (CharacterStatSet * Z) :=
  WriteStatToSet (idx (GetStatIndexByName n)) value css.

(** What [printf] makes of a value: [%d], [%g] or [%s]. *)
Definition print_value (ty : StatType) (v : StatVal) : option string :=
  match ty with
  | SHORT => sprintf_d <$> read_short v
  | INTEGER => sprintf_d <$> read_int v
  | FLOAT => sprintf_g <$> read_float v
  | CSTRING => read_chars v
  | STRING => cstr <$> read_string v
  end.

Definition line_end : string := String (chr 13) (String (chr 10) EmptyString).

(** The line [WriteStatToFile] prints. *)
Definition WriteStatToFile (StatIndex : Z) (css : CharacterStatSet) : option string :=
  if StatIndex =? -1 then Some EmptyString
  else
    d ← (if StatIndex <? 0 then None else StatList !! Z.to_nat StatIndex);
    v ← css !! offset d;
    s ← print_value (etype d) v;
    Some (name d +:+ "=" +:+ s +:+ line_end).

Definition WriteStatToFileByName (n : string) (css : CharacterStatSet) : option string :=
  WriteStatToFile (idx (GetStatIndexByName n)) css.

(** NULL for the index -1. *)
Definition GetStatValueAsString (StatIndex : Z) (css : CharacterStatSet) : option (option string) :=
  if StatIndex =? -1 then Some None
  else
    d ← (if StatIndex <? 0 then None else StatList !! Z.to_nat StatIndex);
    v ← css !! offset d;
    Some <$> print_value (etype d) v.

(** ** Comparisons *)

Definition isStatZero (StatIndex : Z) (css : CharacterStatSet) : option bool :=
  if StatIndex =? -1 then Some true
  else
    d ← (if StatIndex <? 0 then None else StatList !! Z.to_nat StatIndex);
    v ← css !! offset d;
    match etype d with
    | SHORT => (fun z => z =? 0) <$> read_short v
    | INTEGER => (fun z => z =? 0) <$> read_int v
    | FLOAT => (fun z => float_eqb z (float_of_int 0)) <$> read_float v
    | CSTRING => (fun s => String.eqb s EmptyString) <$> read_chars v
    | STRING => (fun s => String.eqb s EmptyString) <$> read_string v
    end.

(** The test of [STRING] is [compare], which is not zero when the texts differ.
    Nothing in the program calls it. *)
Definition isStatEqual (StatIndex : Z) (css1 css2 : CharacterStatSet) : option bool :=
  if StatIndex =? -1 then Some false
  else
    d ← (if StatIndex <? 0 then None else StatList !! Z.to_nat StatIndex);
    v1 ← css1 !! offset d;
    v2 ← css2 !! offset d;
    match etype d with
    | SHORT => a ← read_short v1; b ← read_short v2; Some (a =? b)
    | INTEGER => a ← read_int v1; b ← read_int v2; Some (a =? b)
    | FLOAT => a ← read_float v1; b ← read_float v2; Some (float_eqb a b)
    | CSTRING => a ← read_chars v1; b ← read_chars v2; Some (String.eqb a b)
    | STRING => a ← read_string v1; b ← read_string v2; Some (negb (String.eqb a b))
    end.

(** ** Values as [float] *)

(** A [float], as its bits. *)
Definition value_float (ty : StatType) (v : StatVal) : option Z :=
  match ty with
  | SHORT => float_of_int <$> read_short v
  | INTEGER => float_of_int <$> read_int v
  | FLOAT => read_float v
  | CSTRING => atof_float <$> read_chars v
  | STRING => atof_float <$> read_string v
  end.

Definition GetStatValueByID (statID : Z) (css : CharacterStatSet) : option Z :=
  match GetStatIndex statID with
  | None => Some (float_of_int 0)
  | Some r => d ← StatList !! r; v ← css !! offset d; value_float (etype d) v
  end.

(** The value returned is -1 in every case. *)
Definition WriteValueToStat (StatID value : Z) (css : CharacterStatSet) : option CharacterStatSet :=
  match GetStatIndex StatID with
  | None => Some css
  | Some r =>
      d ← StatList !! r;
      update_member (offset d)
        (match etype d with
         | SHORT => write_short (short_of_float value)
         | INTEGER => write_int (int_of_float value)
         | FLOAT => write_float value
         | CSTRING => write_chars (sprintf_d (int_of_float value))
         | STRING => write_string (sprintf_d (int_of_float value))
         end) css
  end.

(** ** The decoder of [DecodePackets.h]

    It prints the packets the server sends, and goes by the [type] text of the
    table. [Shown] is what it prints after the name. *)

Inductive Shown := ShownText (s : string) | ShownInt (z : Z) | ShownFloat (bits : Z).

Definition shown_text (buffer : list Z) : option (Shown * Z) :=
  '(bytes, advance) ← GetStringUTF buffer 4096;
  Some (ShownText (cstr (string_of bytes)), advance).

(** Some type text is not one of the five: nothing is read. *)
Definition decode_value (d : StatDefinition) (buffer : list Z) : option (option Shown * Z) :=
  let number (o : option (Z * Z)) : option (option Shown * Z) :=
    '(z, advance) ← o; Some (Some (ShownInt z), advance) in
  if String.eqb (type d) "string" then '(v, advance) ← shown_text buffer; Some (Some v, advance)
  else if String.eqb (type d) "short" then number (ByteBuffer.GetShort buffer)
  else if String.eqb (type d) "int" then number (ByteBuffer.GetInteger buffer)
  else if String.eqb (type d) "integer" then number (ByteBuffer.GetInteger buffer)
  else if String.eqb (type d) "float" then
    '(z, advance) ← GetFloat buffer; Some (Some (ShownFloat z), advance)
  else Some (None, 0).

(** The loop over [numStats]: what is printed and the bytes left. An identifier
    that is not in the table is reported and skipped. *)
Fixpoint decode_stats (numStats : nat) (buffer : list Z)
  : option (list (string * Shown) * list Z) :=
  match numStats with
  | O => Some ([], buffer)
  | S n =>
      '(statID, advance) ← GetShort buffer;
      let buffer1 := drop (Z.to_nat advance) buffer in
      match GetStatIndex statID with
      | None => decode_stats n buffer1
      | Some r =>
          d ← StatList !! r;
          '(v, advance2) ← decode_value d buffer1;
          '(shown, rest) ← decode_stats n (drop (Z.to_nat advance2) buffer1);
          Some (match v with Some v => (name d, v) :: shown | None => shown end, rest)
      end
  end.

(** ** Packets *)

(** A stat whose value takes no bytes is left out. *)
Fixpoint update_stats (statID : list Z) (css : CharacterStatSet) : option (list Z * Z) :=
  match statID with
  | [] => Some ([], 0)
  | id :: statID' =>
      res ← WriteCurrentStatToBuffer id css;
      '(rest, success) ← update_stats statID' css;
      Some (if (0 <? length res)%nat then (PutShort id ++ res ++ rest, success + 1)
            else (rest, success))
  end.

Definition put_mask (g_ProtocolVersion mask : Z) : list Z :=
  if g_ProtocolVersion <? 22 then PutByte mask else PutShort mask.

Definition CREATURE_UPDATE_TYPE : Z := 1.
Definition CREATURE_UPDATE_STAT : Z := 32.

Definition hints_data (g_ProtocolVersion : Z) : list Z :=
  if 26 <? g_ProtocolVersion then PutStringUTF EmptyString else [].

Definition PrepExt_UpdateCreatureDef (g_ProtocolVersion CDefID defHints : Z) (statID : list Z)
  (css : CharacterStatSet) : option (list Z) :=
  '(data, success) ← update_stats statID css;
  Some (seal (PutByte 5 ++ PutShort 0 ++ PutInteger 0 ++
              put_mask g_ProtocolVersion (Z.lor CREATURE_UPDATE_TYPE CREATURE_UPDATE_STAT) ++
              PutShort defHints ++ hints_data g_ProtocolVersion ++ PutInteger CDefID ++
              PutShort success ++ data)).

Definition PrepExt_SendHealth (g_ProtocolVersion : Z) (UseIntegerHealth : bool)
  (CreatureID healthAmount : Z) : list Z :=
  seal (PutByte 5 ++ PutShort 0 ++ PutInteger CreatureID ++
        put_mask g_ProtocolVersion CREATURE_UPDATE_STAT ++ PutShort 1 ++ PutShort STAT.HEALTH ++
        (if UseIntegerHealth then PutInteger healthAmount else PutShort healthAmount)).

Definition PrepExt_SendEqAppearance (g_ProtocolVersion creatureDefID : Z) (eqAppearance : string)
  : list Z :=
  seal (PutByte 5 ++ PutShort 0 ++ PutInteger 0 ++
        put_mask g_ProtocolVersion (Z.lor CREATURE_UPDATE_TYPE CREATURE_UPDATE_STAT) ++
        PutShort 0 ++ hints_data g_ProtocolVersion ++ PutInteger creatureDefID ++
        PutShort 1 ++ PutShort STAT.EQ_APPEARANCE ++ PutStringUTF eqAppearance).

Definition PrepExt_SendVisWeapon (g_ProtocolVersion CreatureID visWeapon : Z) : list Z :=
  seal (PutByte 5 ++ PutShort 0 ++ PutInteger CreatureID ++
        put_mask g_ProtocolVersion CREATURE_UPDATE_STAT ++ PutShort 1 ++
        PutShort STAT.VIS_WEAPON ++ PutShort visWeapon).

Definition PrepExt_SendExperience (g_ProtocolVersion CreatureID ExpAmount : Z) : list Z :=
  seal (PutByte 5 ++ PutShort 0 ++ PutInteger CreatureID ++
        put_mask g_ProtocolVersion CREATURE_UPDATE_STAT ++ PutShort 1 ++
        PutShort STAT.EXPERIENCE ++ PutInteger ExpAmount).

Fixpoint specific_stats (statList : list Z) (css : CharacterStatSet) : option (list Z) :=
  match statList with
  | [] => Some []
  | id :: statList' =>
      data ← WriteCurrentStatToBuffer id css;
      rest ← specific_stats statList' css;
      Some (PutShort id ++ data ++ rest)
  end.

Definition PrepExt_SendSpecificStats (g_ProtocolVersion CreatureID : Z) (statList : list Z)
  (css : CharacterStatSet) : option (list Z) :=
  data ← specific_stats statList css;
  Some (seal (PutByte 5 ++ PutShort 0 ++ PutInteger CreatureID ++
              put_mask g_ProtocolVersion CREATURE_UPDATE_STAT ++
              PutShort (Z.of_nat (length statList)) ++ data)).

(** The stats of a creature definition; those only for other creatures are left
    out for the definition of a player ([CDEF_HINT_PERSONA]). *)
Definition PrepExt_CreatureDef (g_ProtocolVersion CreatureDefID DefHints : Z) (css : CharacterStatSet)
  : option (list Z) :=
  let f1 := if 37 <=? g_ProtocolVersion then Z.lor SUT_All SUT_CDefExt else SUT_All in
  let StatFlags := if DefHints =? 1 then f1 - SUT_NonPlayer else f1 in
  '(data, r) ← WriteCharacterStats css StatFlags;
  Some (seal (PutByte 5 ++ PutShort 0 ++ PutInteger 0 ++
              put_mask g_ProtocolVersion (Z.lor CREATURE_UPDATE_TYPE CREATURE_UPDATE_STAT) ++
              PutShort DefHints ++ hints_data g_ProtocolVersion ++ PutInteger CreatureDefID ++
              PutShort r ++ data)).

End Stats.
