(* ===== verification/StatsFacts.v ===== *)
(** * Stats: well-typed sets and their encodings

    A set of stats is well typed when every member holds a value of its type.
    Every operation on a well-typed set is defined and keeps it so, whatever
    identifiers, indices and texts it is given; the packets and files made of it
    give the values back. *)

From S2P Require Import Prelude ByteBuffer Messages Text Float StatTables Stats.

(** ** The table fits the structure *)

Definition compat (ty : StatType) (m : MemberType) : bool :=
  match ty, m with
  | SHORT, Tshort | SHORT, Tint | INTEGER, Tint | FLOAT, Tfloat
  | CSTRING, Tchars _ | STRING, Tstring => true
  | _, _ => false
  end.

(** The texts the decoder knows a type by. *)
Definition type_texts (ty : StatType) : list string :=
  match ty with
  | SHORT => ["short"] | INTEGER => ["int"; "integer"] | FLOAT => ["float"]
  | CSTRING | STRING => ["string"]
  end.

Definition entry_okb (d : StatDefinition) : bool :=
  match members !! offset d with
  | None => false
  | Some (_, m) =>
      compat (etype d) m && (match m with Tchars n => (size d =? n) && (31 <? n) | _ => true end) &&
      bool_decide (StatTables.type d ∈ type_texts (etype d)) && (0 <=? ID d) && (ID d <? 2 ^ 15)
  end.

Definition table_okb (tbl : list StatDefinition) : bool :=
  forallb entry_okb tbl && bool_decide (NoDup (ID <$> tbl)) &&
  bool_decide (NoDup (name <$> tbl)) && bool_decide (NoDup (offset <$> tbl)).

(** The table the server works with, by its setting [UseIntegerHealth]. *)
Definition server_table (UseIntegerHealth : bool) : list StatDefinition :=
  SetHealthToInteger UseIntegerHealth StatList.

Lemma server_table_ok h : table_okb (server_table h) = true.
Proof. destruct h; vm_compute; reflexivity. Qed.

Lemma server_table_initial : server_table false = StatList.
Proof. vm_compute. reflexivity. Qed.

(** ** Well-typed sets *)

Definition member_ok (m : MemberType) (v : StatVal) : Prop :=
  match m, v with
  | Tshort, VShort z => in_signed 16 z
  | Tint, VInt z => in_i32 z
  | Tfloat, VFloat z => in_u32 z
  | Tchars n, VChars s => cstr s = s /\ Z.of_nat (String.length s) < n
  | Tstring, VString _ => True
  | _, _ => False
  end.

Definition css_ok (css : CharacterStatSet) : Prop :=
  Forall2 (fun m v => member_ok (snd m) v) members css.

Lemma css_lookup css i nm m :
  css_ok css -> members !! i = Some (nm, m) -> exists v, css !! i = Some v /\ member_ok m v.
Proof.
  intros Hc Hi. destruct (Forall2_lookup_l _ _ _ _ _ Hc Hi) as (v & Hv & Hm). by exists v.
Qed.

Lemma css_update css i nm m f :
  css_ok css -> members !! i = Some (nm, m) ->
  (forall v, member_ok m v -> exists v', f v = Some v' /\ member_ok m v') ->
  exists css', update_member i f css = Some css' /\ css_ok css'.
Proof.
  intros Hc Hi Hf. destruct (css_lookup css i nm m Hc Hi) as (v & Hv & Hm).
  destruct (Hf v Hm) as (v' & Hv' & Hm'). unfold update_member. rewrite Hv. simpl. rewrite Hv'.
  eexists. split; [done|].
  unfold css_ok. rewrite <- (list_insert_id members i (nm, m)) by done. by apply Forall2_insert.
Qed.

Lemma css_nth css i : css_ok css -> is_Some (members !! i) -> is_Some (css !! i).
Proof. intros Hc [[nm m] Hi]. destruct (css_lookup css i nm m Hc Hi) as (v & ? & _). by exists v. Qed.

(** ** Writing a member of its type *)

Lemma write_short_ok m z v :
  compat SHORT m = true -> member_ok m v -> exists v', write_short z v = Some v' /\ member_ok m v'.
Proof.
  destruct m, v; try done; intros _ H; simpl in *; eexists; (split; [done|]); apply signed_range; lia.
Qed.

Lemma write_int_ok m z v :
  compat INTEGER m = true -> member_ok m v -> exists v', write_int z v = Some v' /\ member_ok m v'.
Proof.
  destruct m, v; try done. intros _ H. simpl in *. eexists. split; [done|]. apply signed_range. lia.
Qed.

Lemma write_float_ok m z v :
  compat FLOAT m = true -> in_u32 z -> member_ok m v -> exists v', write_float z v = Some v' /\ member_ok m v'.
Proof. destruct m, v; try done. intros _ Hz H. by eexists. Qed.

Lemma write_string_ok m s v :
  compat STRING m = true -> member_ok m v -> exists v', write_string s v = Some v' /\ member_ok m v'.
Proof. destruct m, v; try done. intros _ H. by eexists. Qed.

Lemma write_chars_ok n s v :
  cstr s = s -> Z.of_nat (String.length s) < n -> member_ok (Tchars n) v ->
  exists v', write_chars s v = Some v' /\ member_ok (Tchars n) v'.
Proof. destruct v; try done. intros Hs Hl H. by eexists. Qed.

(** ** Printed integers *)

Lemma print_digits_short fuel n acc k :
  0 <= n < 10 ^ Z.of_nat k -> (0 < k)%nat ->
  (String.length (print_digits fuel 10 n acc) <= k + String.length acc)%nat.
Proof.
  revert n acc k. induction fuel as [|fuel IH]; intros n acc k Hn Hk; simpl; [lia|].
  destruct (n <? 10) eqn:E; simpl; [lia|]. to_prop.
  destruct k as [|[|k]]; [lia|simpl in Hn; lia|].
  etransitivity; [apply (IH _ _ (S k)); [|lia]|simpl; lia].
  rewrite Nat2Z.inj_succ, Z.pow_succ_r in Hn by lia.
  split; [apply Z.div_pos; lia|apply Z.div_lt_upper_bound; lia].
Qed.

Lemma sprintf_d_short z : in_i32 z -> (String.length (sprintf_d z) <= 11)%nat.
Proof.
  intros Hz. unfold in_signed in Hz. unfold sprintf_d, print_unsigned.
  case_test; to_prop.
  - change (String.length (String ?c ?s)) with (S (String.length s)).
    pose proof (print_digits_short (S (Z.to_nat (Z.log2 (- z)))) (- z) EmptyString 10 ltac:(simpl; lia) ltac:(lia)) as H.
    simpl in H |- *. lia.
  - pose proof (print_digits_short (S (Z.to_nat (Z.log2 z))) z EmptyString 10 ltac:(simpl; lia) ltac:(lia)) as H.
    simpl in H |- *. lia.
Qed.

Section Typed.
Context (tbl : list StatDefinition) (Htbl : table_okb tbl = true).

(** What the table promises of an entry. *)
Definition entry_ok (d : StatDefinition) : Prop :=
  exists nm m, members !! offset d = Some (nm, m) /\ compat (etype d) m = true /\
    (forall n, m = Tchars n -> size d = n /\ 31 < n) /\
    StatTables.type d ∈ type_texts (etype d) /\ 0 <= ID d < 2 ^ 15.

Lemma table_parts :
  Forall entry_ok tbl /\ NoDup (ID <$> tbl) /\ NoDup (name <$> tbl) /\ NoDup (offset <$> tbl).
Proof.
  unfold table_okb in Htbl. rewrite !andb_true_iff, !bool_decide_eq_true in Htbl.
  destruct Htbl as [[[He Hi] Hn] Ho]. split_and!; [|done..].
  apply list.Forall_forall. intros d Hd. rewrite forallb_forall in He.
  specialize (He d (proj1 (list_elem_of_In _ _) Hd)). unfold entry_okb in He.
  destruct (members !! offset d) as [[nm m]|] eqn:Em; [|done].
  rewrite !andb_true_iff, bool_decide_eq_true in He. destruct He as [[[[Hc Hs] Ht] H0] H1].
  exists nm, m. split_and!; [done..| |done|lia|lia].
  intros n ->. lia.
Qed.

Lemma entry_at r d : tbl !! r = Some d -> entry_ok d.
Proof. intros Hr. destruct table_parts as (H & _). by eapply Forall_lookup_1. Qed.

Lemma stat_index_entry id r : GetStatIndex tbl id = Some r -> exists d, tbl !! r = Some d /\ entry_ok d.
Proof.
  intros (d & Hd & _)%find_idx_lookup. exists d. split; [done|]. by eapply entry_at.
Qed.

(** ** Operations on one stat *)

Definition in_table (i : Z) : Prop := i = -1 \/ (0 <= i /\ is_Some (tbl !! Z.to_nat i)).

Lemma index_in_table (o : option nat) :
  (forall r, o = Some r -> is_Some (tbl !! r)) -> in_table (idx o).
Proof.
  intros H. destruct o as [r|]; [|by left]. right. simpl. rewrite Nat2Z.id. split; [lia|by apply H].
Qed.

Lemma entry_at_Z i : in_table i -> i <> -1 ->
  exists d, (if i <? 0 then None else tbl !! Z.to_nat i) = Some d /\ entry_ok d.
Proof.
  intros [?|[Hi [d Hd]]] Hne; [done|]. rewrite (proj2 (Z.ltb_ge i 0)) by lia.
  exists d. split; [done|]. by eapply entry_at.
Qed.

Lemma cut_text_ok n value :
  31 < n ->
  let len := if n - 1 <? Z.of_nat (String.length value) then n - 1 else Z.of_nat (String.length value) in
  let s := cstr (String.substring 0 (Z.to_nat len) value) in
  cstr s = s /\ Z.of_nat (String.length s) < n.
Proof.
  intros Hn len s. split; [apply cstr_idem|].
  pose proof (cstr_length (String.substring 0 (Z.to_nat len) value)).
  pose proof (substring_length (Z.to_nat len) value). subst s. unfold len in *.
  case_test; to_prop; lia.
Qed.

Lemma WriteStatToSet_ok i value css :
  css_ok css -> in_table i ->
  exists css' r, WriteStatToSet tbl i value css = Some (css', r) /\ css_ok css'.
Proof.
  intros Hc Hi. unfold WriteStatToSet. destruct (i =? -1) eqn:E; to_prop; [by do 2 eexists|].
  destruct (entry_at_Z i Hi E) as (d & -> & nm & m & Hm & Hty & Hsz & _). cbn [mbind option_bind].
  destruct (css_update css _ _ _ (write_text d value) Hc Hm) as (css' & -> & Hc'); [|by do 2 eexists].
  intros v Hv. unfold write_text. destruct (etype d).
  - by apply write_short_ok.
  - by apply write_int_ok.
  - apply write_float_ok; [done|apply atof_float_range|done].
  - destruct m as [| | |n|]; try done. destruct (Hsz n eq_refl) as [Hd Hn].
    destruct (cut_text_ok n value Hn) as [Ht Hl]. unfold cut_length. rewrite Hd. by apply write_chars_ok.
  - by apply write_string_ok.
Qed.

Lemma WriteStatToSetByName_ok n value css :
  css_ok css -> exists css' r, WriteStatToSetByName tbl n value css = Some (css', r) /\ css_ok css'.
Proof.
  intros Hc. apply WriteStatToSet_ok; [done|]. apply index_in_table.
  intros r (d & Hd & _)%find_idx_lookup. by exists d.
Qed.

Lemma WriteValueToStat_ok id value css :
  css_ok css -> in_u32 value ->
  exists css', WriteValueToStat tbl id value css = Some css' /\ css_ok css'.
Proof.
  intros Hc Hv. unfold WriteValueToStat. destruct (GetStatIndex tbl id) as [r|] eqn:E; [|by exists css].
  destruct (stat_index_entry id r E) as (d & -> & nm & m & Hm & Hty & Hsz & _). cbn [mbind option_bind].
  apply (css_update css _ _ _ _ Hc Hm). intros v Hok. destruct (etype d).
  - by apply write_short_ok.
  - by apply write_int_ok.
  - by apply write_float_ok.
  - destruct m as [| | |n|]; try done. destruct (Hsz n eq_refl) as [_ Hn].
    apply write_chars_ok; [apply sprintf_d_cstr| |done].
    pose proof (sprintf_d_short (int_of_float value) (truncate_range _)). lia.
  - by apply write_string_ok.
Qed.

(** Every reader of a stat is defined. *)
Lemma read_ok d css :
  css_ok css -> entry_ok d ->
  exists v, css !! offset d = Some v /\ is_Some (put_value (etype d) v) /\
    is_Some (print_value (etype d) v) /\ is_Some (value_float (etype d) v).
Proof.
  intros Hc (nm & m & Hm & Hty & _). destruct (css_lookup css _ _ _ Hc Hm) as (v & Hv & Hok).
  exists v. split; [done|]. destruct (etype d), m, v; try done; split_and!; by eexists.
Qed.

Lemma WriteCurrentStatToBuffer_ok id css :
  css_ok css -> is_Some (WriteCurrentStatToBuffer tbl id css).
Proof.
  intros Hc. unfold WriteCurrentStatToBuffer. destruct (GetStatIndex tbl id) as [r|] eqn:E; [|by eexists].
  destruct (stat_index_entry id r E) as (d & -> & Hd). cbn [mbind option_bind].
  by destruct (read_ok d css Hc Hd) as (v & -> & Hv & _).
Qed.

Lemma GetStatValueByID_ok id css : css_ok css -> is_Some (GetStatValueByID tbl id css).
Proof.
  intros Hc. unfold GetStatValueByID. destruct (GetStatIndex tbl id) as [r|] eqn:E; [|by eexists].
  destruct (stat_index_entry id r E) as (d & -> & Hd). cbn [mbind option_bind].
  by destruct (read_ok d css Hc Hd) as (v & -> & _ & _ & Hv).
Qed.

Lemma WriteStatToFile_ok i css : css_ok css -> in_table i -> is_Some (WriteStatToFile tbl i css).
Proof.
  intros Hc Hi. unfold WriteStatToFile. destruct (i =? -1) eqn:E; to_prop; [by eexists|].
  destruct (entry_at_Z i Hi E) as (d & -> & Hd). cbn [mbind option_bind].
  destruct (read_ok d css Hc Hd) as (v & -> & _ & [s Hs] & _). cbn [mbind option_bind].
  rewrite Hs. by eexists.
Qed.

Lemma isStatZero_ok i css : css_ok css -> in_table i -> is_Some (isStatZero tbl i css).
Proof.
  intros Hc Hi. unfold isStatZero. destruct (i =? -1) eqn:E; to_prop; [by eexists|].
  destruct (entry_at_Z i Hi E) as (d & -> & nm & m & Hm & Hty & _). cbn [mbind option_bind].
  destruct (css_lookup css _ _ _ Hc Hm) as (v & -> & Hok). cbn [mbind option_bind].
  destruct (etype d), m, v; try done; by eexists.
Qed.

(** ** Whole sets *)

Lemma clear_all_ok l css :
  Forall entry_ok l -> css_ok css -> exists css', clear_all l css = Some css' /\ css_ok css'.
Proof.
  intros Hl. revert css. induction Hl as [|d l (nm & m & Hm & Hty & Hsz & _) _ IH]; intros css Hc; simpl; [by eexists|].
  unfold clear_member.
  edestruct (css_update css _ _ _ (match etype d with
    | SHORT => write_short 0 | INTEGER => write_int 0 | FLOAT => write_float (float_of_int 0)
    | CSTRING => write_chars EmptyString | STRING => write_string EmptyString end) Hc Hm)
    as (css' & -> & Hc'); [|by apply IH].
  intros v Hok. destruct (etype d).
  - by apply write_short_ok.
  - by apply write_int_ok.
  - apply write_float_ok; [done|apply float_of_int_range|done].
  - destruct m as [| | |n|]; try done. destruct (Hsz n eq_refl). apply write_chars_ok; [done|simpl; lia|done].
  - by apply write_string_ok.
Qed.

Definition member_type (m : string) : option MemberType := snd <$> members !! offsetof m.

Lemma member_type_at m ty : member_type m = Some ty -> exists nm, members !! offsetof m = Some (nm, ty).
Proof.
  unfold member_type. destruct (members !! offsetof m) as [[nm ty']|]; [|done].
  intros [= ->]. by exists nm.
Qed.

Lemma put_short_ok m z css :
  member_type m = Some Tshort -> css_ok css ->
  exists css', put_short m z css = Some css' /\ css_ok css'.
Proof.
  intros Hm Hc. destruct (member_type_at m Tshort Hm) as [nm Hi].
  apply (css_update css _ _ _ _ Hc Hi). intros v. by apply write_short_ok.
Qed.

Lemma put_float_ok m z css :
  member_type m = Some Tfloat -> in_u32 z -> css_ok css ->
  exists css', put_float m z css = Some css' /\ css_ok css'.
Proof.
  intros Hm Hz Hc. destruct (member_type_at m Tfloat Hm) as [nm Hi].
  apply (css_update css _ _ _ _ Hc Hi). intros v. by apply write_float_ok.
Qed.

Ltac float_range :=
  lazymatch goal with
  | |- in_unsigned 32 (float_of_int _) => apply float_of_int_range
  | |- in_unsigned 32 (atof_float _) => apply atof_float_range
  end.

(** Chain of member updates: each is defined and keeps the types. *)
Ltac put_step :=
  match goal with
  | Hc : css_ok ?c |- exists _, (mbind _ (put_float ?m ?z ?c)) = _ /\ _ =>
      let H := fresh in
      destruct (put_float_ok m z c eq_refl ltac:(float_range) Hc) as (? & H & ?);
      rewrite H; cbn [mbind option_bind]; clear H Hc
  | Hc : css_ok ?c |- exists _, (mbind _ (put_short ?m ?z ?c)) = _ /\ _ =>
      let H := fresh in
      destruct (put_short_ok m z c eq_refl Hc) as (? & H & ?);
      rewrite H; cbn [mbind option_bind]; clear H Hc
  end.

Lemma Clear_ok css : css_ok css -> exists css', Clear tbl css = Some css' /\ css_ok css'.
Proof.
  intros Hc. unfold Clear. destruct table_parts as (Hl & _).
  destruct (clear_all_ok tbl css Hl Hc) as (css1 & -> & Hc1). cbn [mbind option_bind]. clear css Hc.
  do 6 put_step. by apply put_short_ok.
Qed.

Lemma copy_all_ok l source css :
  Forall entry_ok l -> css_ok source -> css_ok css ->
  exists css', copy_all l source css = Some css' /\ css_ok css'.
Proof.
  intros Hl Hs. revert css. induction Hl as [|d l (nm & m & Hm & Hty & Hsz & _) _ IH]; intros css Hc; simpl; [by eexists|].
  unfold copy_member. destruct (css_lookup source _ _ _ Hs Hm) as (v & -> & Hv). cbn [mbind option_bind].
  assert (Hgo : forall f, (forall v, member_ok m v -> exists v', f v = Some v' /\ member_ok m v') ->
    exists css', (c ← update_member (offset d) f css; copy_all l source c) = Some css' /\ css_ok css').
  { intros f Hf. destruct (css_update css _ _ _ f Hc Hm Hf) as (css1 & -> & ?). by apply IH. }
  destruct (etype d), m, v; try done; cbn [read_short read_int read_float read_chars read_string mbind option_bind];
    apply Hgo; intros v' Hv'.
  - by apply write_short_ok.
  - by apply write_short_ok.
  - by apply write_int_ok.
  - by apply write_float_ok.
  - destruct Hv. by apply write_chars_ok.
  - by apply write_string_ok.
Qed.

Lemma write_stats_ok mask l css :
  Forall entry_ok l -> css_ok css -> is_Some (write_stats mask l css).
Proof.
  intros Hl Hc. induction Hl as [|d l Hd _ IH]; simpl; [by eexists|].
  destruct IH as [[rest n] ->]. cbn [mbind option_bind]. case_match; [by eexists|].
  destruct (read_ok d css Hc Hd) as (v & -> & [data Hdata] & _). cbn [mbind option_bind].
  rewrite Hdata. by eexists.
Qed.
End Typed.

(** ** Every reachable set *)

Inductive stats_reachable : CharacterStatSet -> Prop :=
  | reach_new h css :
      newCharacterStatSet (server_table h) = Some css -> stats_reachable css
  | reach_clear h css css' :
      stats_reachable css -> Clear (server_table h) css = Some css' -> stats_reachable css'
  | reach_copy h source css css' :
      stats_reachable source -> stats_reachable css ->
      CopyFrom (server_table h) source css = Some css' -> stats_reachable css'
  | reach_set h i value css css' r :
      stats_reachable css -> -1 <= i < Z.of_nat NumStats ->
      WriteStatToSet (server_table h) i value css = Some (css', r) -> stats_reachable css'
  | reach_name h n value css css' r :
      stats_reachable css ->
      WriteStatToSetByName (server_table h) n value css = Some (css', r) -> stats_reachable css'
  | reach_value h id value css css' :
      stats_reachable css -> in_u32 value ->
      WriteValueToStat (server_table h) id value css = Some css' -> stats_reachable css'.

Lemma server_table_length h : length (server_table h) = NumStats.
Proof. destruct h; vm_compute; reflexivity. Qed.

Lemma index_ok h i : -1 <= i < Z.of_nat NumStats -> in_table (server_table h) i.
Proof.
  intros Hi. destruct (decide (i = -1)) as [->|Hne]; [by left|]. right. split; [lia|].
  apply lookup_lt_is_Some. rewrite server_table_length. lia.
Qed.

Lemma zero_css_ok : css_ok (zero_member <$> (snd <$> members)).
Proof.
  unfold css_ok. rewrite <- list_fmap_compose. apply Forall2_fmap_r, Forall_Forall2_diag.
  apply list.Forall_forall. intros [nm m] Hm.
  assert (forallb (fun x => match snd x with Tchars n => 0 <? n | _ => true end) members = true) as Hs
    by (vm_compute; reflexivity).
  rewrite forallb_forall in Hs. specialize (Hs _ (proj1 (list_elem_of_In _ _) Hm)).
  destruct m; simpl in *; unfold in_signed, in_unsigned; try lia; [apply float_of_int_range|].
  split; [done|lia].
Qed.

Lemma stats_reachable_ok css : stats_reachable css -> css_ok css.
Proof.
  induction 1 as [h css E|h css css' _ IH E|h source css css' _ IHs _ IH E|h i value css css' r _ IH Hi E
    |h n value css css' r _ IH E|h id value css css' _ IH Hv E].
  - destruct (Clear_ok _ (server_table_ok h) _ zero_css_ok) as (c & E2 & Hc).
    unfold newCharacterStatSet in E. congruence.
  - destruct (Clear_ok _ (server_table_ok h) _ IH) as (c & E2 & Hc). congruence.
  - destruct (copy_all_ok _ source css (proj1 (table_parts _ (server_table_ok h))) IHs IH) as (c & E2 & Hc).
    unfold CopyFrom in E. congruence.
  - destruct (WriteStatToSet_ok _ (server_table_ok h) i value css IH (index_ok h i Hi)) as (c & r' & E2 & Hc).
    congruence.
  - destruct (WriteStatToSetByName_ok _ (server_table_ok h) n value css IH) as (c & r' & E2 & Hc).
    congruence.
  - destruct (WriteValueToStat_ok _ (server_table_ok h) id value css IH Hv) as (c & E2 & Hc). congruence.
Qed.

(** What can be done with a set, by either setting of the server. *)
Definition operations_defined (css : CharacterStatSet) : Prop :=
  forall h, let tbl := server_table h in
  (forall i value, -1 <= i < Z.of_nat NumStats ->
     is_Some (WriteStatToSet tbl i value css) /\ is_Some (WriteStatToFile tbl i css) /\
     is_Some (isStatZero tbl i css)) /\
  (forall n value, is_Some (WriteStatToSetByName tbl n value css)) /\
  (forall id, is_Some (WriteCurrentStatToBuffer tbl id css) /\ is_Some (GetStatValueByID tbl id css)) /\
  (forall id value, in_u32 value -> is_Some (WriteValueToStat tbl id value css)) /\
  (forall mask, is_Some (WriteCharacterStats tbl css mask)) /\
  is_Some (Clear tbl css) /\
  (forall source, stats_reachable source -> is_Some (CopyFrom tbl source css)).

(** C21. Whatever the server does with a set of stats, every member keeps a value of
    its type and every operation on it is defined: no text, name, identifier or
    number makes it read or write a member at the wrong type, out of the table or
    past the end of a character array, whether health is sent as a short or an
    integer and even when that setting changes in between. *)
Theorem stats_typed css : stats_reachable css -> css_ok css /\ operations_defined css.
Proof.
  intros Hr. pose proof (stats_reachable_ok css Hr) as Hc. split; [done|].
  intros h tbl. pose proof (server_table_ok h : table_okb tbl = true) as Ht.
  pose proof (proj1 (table_parts tbl Ht)) as Hl. split_and!.
  - intros i value Hi. pose proof (index_ok h i Hi : in_table tbl i).
    destruct (WriteStatToSet_ok tbl Ht i value css) as (? & ? & -> & _); [done..|].
    split; [by eexists|]. split; [by apply WriteStatToFile_ok|by apply isStatZero_ok].
  - intros n value. destruct (WriteStatToSetByName_ok tbl Ht n value css Hc) as (? & ? & -> & _). by eexists.
  - intros id. split; [by apply WriteCurrentStatToBuffer_ok|by apply GetStatValueByID_ok].
  - intros id value Hv. destruct (WriteValueToStat_ok tbl Ht id value css Hc Hv) as (? & -> & _). by eexists.
  - intros mask. by apply write_stats_ok.
  - destruct (Clear_ok tbl Ht css Hc) as (? & -> & _). by eexists.
  - intros source Hs. destruct (copy_all_ok tbl source css Hl (stats_reachable_ok _ Hs) Hc) as (? & E & _).
    unfold CopyFrom. rewrite E. by eexists.
Qed.

(** A new set, and one with a name that is too long for its array. *)
Definition fresh_css : CharacterStatSet := default [] (newCharacterStatSet (server_table true)).

Definition named_css : CharacterStatSet :=
  match WriteStatToSetByName (server_table false) "pvp_state" "a text of more than thirty-two characters" fresh_css with
  | Some (css, _) => css
  | None => []
  end.

Lemma named_css_reachable : stats_reachable named_css.
Proof.
  apply (reach_name false "pvp_state" "a text of more than thirty-two characters" fresh_css named_css 31).
  - apply (reach_new true). vm_compute. reflexivity.
  - vm_compute. reflexivity.
Qed.

Lemma stats_typed_witness : css_ok named_css /\ operations_defined named_css.
Proof. apply stats_typed, named_css_reachable. Defined.

(** ** The packets read back

    What the decoder prints for a value. A [short] is printed without its sign. *)
Definition shown_value (ty : StatType) (v : StatVal) : option Shown :=
  match ty with
  | SHORT => (fun z => ShownInt (u16 z)) <$> read_short v
  | INTEGER => ShownInt <$> read_int v
  | FLOAT => ShownFloat <$> read_float v
  | CSTRING => (fun s => ShownText (cstr s)) <$> read_chars v
  | STRING => (fun s => ShownText (cstr s)) <$> read_string v
  end.

(** The texts fit the buffer of the decoder. *)
Definition text_fits (v : StatVal) : Prop :=
  match v with VChars s | VString s => strlen s < 4096 | _ => True end.

(** The stats of the table that are sent for a mask, in its order. *)
Definition sent (mask : Z) (d : StatDefinition) : bool := negb (Z.land (updflag d) mask =? 0).

Definition shown_stat (css : CharacterStatSet) (d : StatDefinition) : option (string * Shown) :=
  v ← css !! offset d; s ← shown_value (etype d) v; Some (name d, s).

Definition shown_stats (mask : Z) (tbl : list StatDefinition) (css : CharacterStatSet)
  : list (string * Shown) :=
  omap (shown_stat css) (List.filter (sent mask) tbl).

Section Wire.
Context (tbl : list StatDefinition) (Htbl : table_okb tbl = true).

Lemma find_by_id d :
  d ∈ tbl -> exists r, GetStatIndex tbl (u16 (ID d)) = Some r /\ tbl !! r = Some d.
Proof.
  intros Hd. destruct (table_parts tbl Htbl) as (Hall & Hids & _).
  assert (i16 (u16 (ID d)) = ID d) as Eid.
  { rewrite list.Forall_forall in Hall. destruct (Hall d Hd) as (_ & _ & _ & _ & _ & _ & Hr).
    rewrite signed_unsigned. apply signed_id; unfold in_signed; lia. }
  apply list_elem_of_lookup in Hd as [r Hr]. exists r. split; [|done].
  unfold GetStatIndex, GetStatIndex_in. rewrite Eid.
  apply (find_idx_unique _ ID tbl r d); [done..|]. intros y. rewrite Z.eqb_eq. done.
Qed.

(** A value that was put is read back and its bytes are passed. *)
Lemma decode_put_value d v data rest :
  entry_ok d -> (exists nm m, members !! offset d = Some (nm, m) /\ member_ok m v) -> text_fits v ->
  put_value (etype d) v = Some data ->
  exists s advance, decode_value d (data ++ rest) = Some (Some s, advance) /\
    shown_value (etype d) v = Some s /\ drop (Z.to_nat advance) (data ++ rest) = rest.
Proof.
  intros (nm & m & Hm & Hty & _ & Htext & _) (nm' & m' & Hm' & Hok) Hfit Hput.
  assert (m' = m) as -> by congruence. clear Hm'.
  assert (forall a, Z.of_nat (length data) = a -> drop (Z.to_nat a) (data ++ rest) = rest) as Hdrop.
  { intros a <-. by rewrite Nat2Z.id, drop_app_length. }
  unfold decode_value.
  destruct (etype d), m, v; try done; simpl in Hput, Htext; injection Hput as <-;
    try apply list_elem_of_singleton in Htext.
  - rewrite Htext, GetShort_PutShort_lemma. simpl. do 2 eexists. split; [done|]. by split; [|apply Hdrop].
  - rewrite Htext, GetShort_PutShort_lemma. simpl. do 2 eexists. split; [done|].
    split; [by rewrite unsigned_signed|by apply Hdrop].
  - assert (StatTables.type d = "int" \/ StatTables.type d = "integer") as Hint.
    { apply elem_of_cons in Htext as [?|Htext]; [by left|]. right. by apply list_elem_of_singleton. }
    destruct Hint as [->| ->]; rewrite GetInteger_PutInteger_lemma; simpl;
      do 2 eexists; (split; [done|]); (split; [by rewrite i32_id|by apply Hdrop]).
  - rewrite Htext, GetFloat_PutFloat_lemma by done. simpl. do 2 eexists. split; [done|].
    by split; [|apply Hdrop].
  - rewrite Htext. unfold shown_text. simpl in Hfit. rewrite GetStringUTF_PutStringUTF_lemma by lia.
    simpl. rewrite string_of_bytes, cstr_idem. do 2 eexists. split; [done|].
    split; [done|]. apply Hdrop, PutStringUTF_length.
  - rewrite Htext. unfold shown_text. simpl in Hfit. rewrite GetStringUTF_PutStringUTF_lemma by lia.
    simpl. rewrite string_of_bytes, cstr_idem. do 2 eexists. split; [done|].
    split; [done|]. apply Hdrop, PutStringUTF_length.
Qed.

(** A stat of a typed set is sent and shown. *)
Lemma stat_sent d css :
  css_ok css -> entry_ok d -> exists v data s,
    css !! offset d = Some v /\ put_value (etype d) v = Some data /\ shown_value (etype d) v = Some s.
Proof.
  intros Hc (nm & m & Hm & Hty & _). destruct (css_lookup css _ _ _ Hc Hm) as (v & Hv & Hok).
  exists v. destruct (etype d), m, v; try done; do 2 eexists; by split_and!.
Qed.

Lemma stats_wire_lemma css mask rest l :
  css_ok css -> Forall text_fits css -> l ⊆ tbl ->
  exists data n, write_stats mask l css = Some (data, n) /\ 0 <= n /\
    decode_stats tbl (Z.to_nat n) (data ++ rest) = Some (shown_stats mask l css, rest).
Proof.
  intros Hc Hfit. induction l as [|d l IH]; intros Hl; [by exists [], 0|].
  destruct IH as (data & n & Ew & Hn & Ed); [set_solver|].
  assert (d ∈ tbl) as Hd by set_solver.
  assert (entry_ok d) as He by (destruct (table_parts tbl Htbl) as (Hall & _); by rewrite list.Forall_forall in Hall; apply Hall).
  cbn [write_stats]. rewrite Ew. cbn [mbind option_bind]. unfold shown_stats, sent. cbn [List.filter].
  destruct (Z.land (updflag d) mask =? 0) eqn:E; cbn [negb]; [by exists data, n|].
  destruct (stat_sent d css Hc He) as (v & bytes & s & Hv & Hput & Hs).
  rewrite Hv. cbn [mbind option_bind]. rewrite Hput. cbn [mbind option_bind].
  do 2 eexists. split; [done|]. split; [lia|].
  replace (Z.to_nat (n + 1)) with (S (Z.to_nat n)) by lia. cbn [decode_stats].
  rewrite <- app_assoc, GetShort_PutShort_lemma. cbn [mbind option_bind].
  change (drop (Z.to_nat 2) (PutShort (ID d) ++ ?r)) with r.
  destruct (find_by_id d Hd) as (r & -> & ->). cbn [mbind option_bind].
  destruct (decode_put_value d v bytes (data ++ rest) He) as (s' & adv & Edec & Hs' & Hdrop).
  - destruct He as (nm & m & Hm & _). destruct (css_lookup css _ _ _ Hc Hm) as (v' & ? & ?).
    exists nm, m. split; [done|congruence].
  - by eapply Forall_lookup_1.
  - done.
  - rewrite <- app_assoc, Edec. cbn [mbind option_bind]. rewrite Hdrop, Ed. cbn [mbind option_bind].
    cbn [omap list_omap]. unfold shown_stat at 1. rewrite Hv. cbn [mbind option_bind]. rewrite Hs'. done.
Qed.
End Wire.


Definition texts_fitb (css : CharacterStatSet) : bool :=
  forallb (fun v => match v with VChars s | VString s => strlen s <? 4096 | _ => true end) css.

Lemma texts_fit_spec css : texts_fitb css = true -> Forall text_fits css.
Proof.
  unfold texts_fitb. rewrite forallb_forall. intros H. apply list.Forall_forall. intros v Hv.
  specialize (H v (proj1 (list_elem_of_In _ _) Hv)). destruct v; simpl in *; by to_prop.
Qed.



(** ** Files read back *)

Lemma low_half_of_int a : u16 (i32 a) = u16 a.
Proof.
  unfold unsigned, signed. change (2 ^ 32) with (2 ^ 16 * 2 ^ 16).
  rewrite Zminus_mod, Z.rem_mul_r by lia.
  rewrite (Z.mul_comm (2 ^ 16) (_ mod 2 ^ 16)), Z_mod_plus_full, Zmod_mod.
  change (2 ^ (32 - 1)) with (2 ^ 15 * 2 ^ 16). rewrite Z_mod_plus_full, Z_mod_mult, Z.sub_0_r.
  apply Zmod_mod.
Qed.

(** Writing a [short] into the low half of an [int]. *)
Lemma write_short_low old z : u16 (old - u16 old + u16 z) = u16 z.
Proof.
  unfold unsigned. pose proof (Z.div_mod old (2 ^ 16) ltac:(lia)).
  replace (old - old mod 2 ^ 16) with (old / 2 ^ 16 * 2 ^ 16) by lia.
  by rewrite Z.add_comm, Z_mod_plus_full, Zmod_mod.
Qed.

(** The printed text of a value, stored in another member of the type, is the
    value; of a [float] only six digits are printed. *)
Lemma print_read_member d m v w text :
  compat (etype d) m = true -> (forall n, m = Tchars n -> size d = n) ->
  member_ok m v -> member_ok m w -> etype d <> FLOAT -> print_value (etype d) v = Some text ->
  exists v', write_text d text w = Some v' /\ shown_value (etype d) v' = shown_value (etype d) v.
Proof.
  intros Hty Hsz Hv Hw Hnf Hprint. unfold write_text.
  destruct (etype d), m as [| | |n|], v, w; try done; simpl in Hprint, Hv; injection Hprint as <-;
    simpl; eexists; (split; [done|]); simpl; do 2 f_equal.
  - rewrite atoi_sprintf_d_lemma by (unfold in_signed in *; lia). by rewrite !unsigned_signed.
  - rewrite atoi_sprintf_d_lemma by (pose proof (signed_range 16 z ltac:(lia)); unfold in_signed in *; lia).
    by rewrite unsigned_signed, low_half_of_int, write_short_low, !unsigned_signed.
  - rewrite atoi_sprintf_d_lemma by done. by apply i32_id.
  - destruct Hv as [Hs Hl]. unfold cut_length. rewrite (Hsz n eq_refl).
    rewrite (proj2 (Z.ltb_ge _ _)), Nat2Z.id, substring_whole, !cstr_idem by lia. done.
  - apply cstr_idem.
Qed.

(** A stat written to a file is read back from it: the line is the name, [=] and
    the text of the value, and storing that text under that name, in any set, gives
    the member the value of the stat (a text its part before the first zero byte)
    and changes no other member. It holds for every stat but the floats, of which
    only six digits are printed. *)
Theorem stats_file_roundtrip h r d css css2 :
  css_ok css -> css_ok css2 -> server_table h !! r = Some d -> etype d <> FLOAT ->
  exists text css2' n,
    WriteStatToFile (server_table h) (Z.of_nat r) css = Some (name d +:+ "=" +:+ text +:+ line_end) /\
    WriteStatToSetByName (server_table h) (name d) text css2 = Some (css2', n) /\
    shown_stat css2' d = shown_stat css d /\
    forall j, j <> offset d -> css2' !! j = css2 !! j.
Proof.
  intros Hc Hc2 Hr Hnf. set (tbl := server_table h) in *.
  pose proof (server_table_ok h : table_okb tbl = true) as Htbl.
  destruct (entry_at tbl Htbl r d Hr) as (nm & m & Hm & Hty & Hsz & Hrest).
  destruct (css_lookup css _ _ _ Hc Hm) as (v & Hv & Hvok).
  destruct (css_lookup css2 _ _ _ Hc2 Hm) as (w & Hw & Hwok).
  destruct (read_ok d css Hc) as (v' & Hv' & _ & [text Ht] & _); [by exists nm, m|].
  assert (v' = v) as -> by congruence.
  destruct (print_read_member d m v w text Hty (fun n E => proj1 (Hsz n E)) Hvok Hwok Hnf Ht) as (v2 & Hw2 & Hs).
  exists text, (<[offset d := v2]> css2), (text_result d text).
  assert (GetStatIndexByName tbl (name d) = Some r) as Hidx.
  { destruct (table_parts tbl Htbl) as (_ & _ & Hn & _).
    apply (find_idx_unique _ name tbl r d); [done..|]. intros y. rewrite String.eqb_eq. done. }
  split_and!.
  - unfold WriteStatToFile. rewrite (proj2 (Z.eqb_neq _ (-1))), (proj2 (Z.ltb_ge _ 0)), Nat2Z.id, Hr by lia.
    cbn [mbind option_bind]. rewrite Hv. cbn [mbind option_bind]. by rewrite Ht.
  - unfold WriteStatToSetByName, WriteStatToSet. rewrite Hidx. cbn [idx].
    rewrite (proj2 (Z.eqb_neq _ (-1))), (proj2 (Z.ltb_ge _ 0)), Nat2Z.id, Hr by lia.
    cbn [mbind option_bind]. unfold update_member. rewrite Hw. cbn [mbind option_bind]. by rewrite Hw2.
  - assert (<[offset d := v2]> css2 !! offset d = Some v2) as E.
    { apply list_lookup_insert_eq. by eapply lookup_lt_Some. }
    unfold shown_stat. rewrite E, Hv. cbn [mbind option_bind]. by rewrite Hs.
  - intros j Hj. by apply list_lookup_insert_ne.
Qed.

Definition display_stat : StatDefinition :=
  mkStat STAT.DISPLAY_NAME CSTRING "string" "display_name" "Display Name" None 0
    (msizeof "display_name") (offsetof "display_name") SUT_All.

Lemma stats_file_roundtrip_witness :
  exists text css2' n,
    WriteStatToFile (server_table true) (Z.of_nat 3) named_css = Some ("display_name" +:+ "=" +:+ text +:+ line_end) /\
    WriteStatToSetByName (server_table true) "display_name" text fresh_css = Some (css2', n) /\
    shown_stat css2' display_stat =
      shown_stat named_css display_stat /\
    forall j, j <> 3%nat -> css2' !! j = fresh_css !! j.
Proof.
  apply (stats_file_roundtrip true 3 display_stat named_css fresh_css).
  - apply stats_reachable_ok, named_css_reachable.
  - apply stats_reachable_ok, (reach_new true). vm_compute. reflexivity.
  - vm_compute. reflexivity.
  - discriminate.
Defined.
