(* ===== verification/AbilityTime.v ===== *)
(** * Cooldowns and the tiers of buffs ([AbilityTime.cpp])

    A creature has a list of running cooldowns, by the category of the abilities
    they block, and a list of the buffs that block weaker buffs of their type.
    Expired entries stay in the lists until a search meets them. Times are
    [unsigned long] milliseconds. The categories are the texts of the ability
    table, numbered in their order ([InitializeCategories]). *)

From S2P Require Import Prelude Text Float.

(** ** Categories ([Ability2.cpp]) *)

(** [std::map<string, int>], in the order of its keys. *)
Definition ConstantMap : Type := list (string * Z).

(** [m[name]++], for a key that may be new. *)
Fixpoint count_name (name : string) (m : ConstantMap) : ConstantMap :=
  match m with
  | [] => [(name, 1)]
  | (k, v) :: m' =>
      match String.compare name k with
      | Eq => (k, i32 (v + 1)) :: m'
      | Lt => (name, 1) :: m
      | Gt => (k, v) :: count_name name m'
      end
  end.

Fixpoint number_from (currentID : Z) (m : ConstantMap) : ConstantMap :=
  match m with
  | [] => []
  | (k, _) :: m' => (k, currentID) :: number_from (currentID + 1) m'
  end.

(** The categories of the rows of the ability table. *)
Definition InitializeCategories (rows : list string) : ConstantMap :=
  number_from 0 (foldl (fun m name => count_name name m) [] rows).

Definition ResolveCategoryID (m : ConstantMap) (name : string) : Z :=
  match find (fun e => String.eqb (fst e) name) m with Some (_, v) => v | None => 0 end.

Definition ResolveCategoryName (m : ConstantMap) (id : Z) : option string :=
  match find (fun e => snd e =? id) m with Some (k, _) => Some k | None => None end.

(** ** Buffs *)

(** [durationS] is a [double] that always holds an integer. *)
Record ActiveBuff := mkBuff {
  tier : Z; buffType : Z; abID : Z; abgID : Z; durationS : Z; castEndTimeMS : Z }.

Record ActiveBuffManager := mkBuffs {
  buffList : list ActiveBuff; persistentBuffList : list ActiveBuff }.

Definition set_buffList (l : list ActiveBuff) (m : ActiveBuffManager) : ActiveBuffManager :=
  mkBuffs l (persistentBuffList m).

(** [g_ServerTime + (durationS * 1000)] is computed as a [double], which is exact
    below 2^53 milliseconds. *)
Definition cast_end (now durationS : Z) : Z := u64 (now + durationS * 1000).

Definition ActiveToPersistent (m : ActiveBuffManager) : ActiveBuffManager := mkBuffs [] (buffList m).

Definition GetPersistentBuff (tier_ abID_ : Z) (m : ActiveBuffManager) : option ActiveBuff :=
  find (fun b => (abID b =? abID_) && (tier b <=? tier_)) (persistentBuffList m).

(** The first buff of the type, which is erased when it has expired or is not of
    a greater tier. *)
Definition HasBuff (now tier_ buffType_ : Z) (m : ActiveBuffManager) : ActiveBuffManager * option nat :=
  match find_idx (fun b => buffType b =? buffType_) (buffList m) with
  | None => (m, None)
  | Some i =>
      match buffList m !! i with
      | None => (m, None)
      | Some b =>
          if (castEndTimeMS b <=? now) || (tier b <=? tier_)
          then (set_buffList (delete i (buffList m)) m, None)
          else (m, Some i)
      end
  end.

(** The duration of a buff that was active on logout goes before the one of the
    ability. [duration] is a [double]. *)
Definition buff_duration (tier_ abID_ : Z) (duration : Value) (initialising : bool)
  (m : ActiveBuffManager) : Z :=
  match (if initialising then GetPersistentBuff tier_ abID_ m else None) with
  | Some p => durationS p
  | None => truncate duration
  end.

Definition AddBuff (now tier_ buffType_ abID_ abgID_ : Z) (duration : Value) (initialising : bool)
  (m : ActiveBuffManager) : ActiveBuffManager * ActiveBuff :=
  let d := buff_duration tier_ abID_ duration initialising m in
  let b := mkBuff (u8 tier_) (u8 buffType_) (i16 abID_) (i16 abgID_) d (cast_end now d) in
  (set_buffList (buffList m ++ [b]) m, b).

Definition UpdateBuff (now tier_ buffType_ abID_ abgID_ : Z) (duration : Value) (initialising : bool)
  (m : ActiveBuffManager) : ActiveBuffManager * ActiveBuff :=
  match HasBuff now tier_ buffType_ m with
  | (m1, None) => AddBuff now tier_ buffType_ abID_ abgID_ duration initialising m1
  | (m1, Some r) =>
      let d := buff_duration tier_ abID_ duration initialising m1 in
      let b := mkBuff (u8 tier_) (u8 buffType_) (i16 abID_) (i16 abgID_) d (cast_end now d) in
      (set_buffList (<[r := b]> (buffList m1)) m1, b)
  end.

Definition AddPersistentBuff (now tier_ buffType_ abID_ abgID_ : Z) (duration : Value)
  (m : ActiveBuffManager) : ActiveBuffManager :=
  let d := truncate duration in
  mkBuffs (buffList m)
    (persistentBuffList m ++ [mkBuff (u8 tier_) (u8 buffType_) (i16 abID_) (i16 abgID_) d (cast_end now d)]).

Definition RemoveBuff (abilityID : Z) (m : ActiveBuffManager) : ActiveBuffManager :=
  set_buffList (filter (fun b => (abID b =? abilityID) = false) (buffList m)) m.

Definition ActiveBuffManager_CopyFrom (UsePersistentBuffs : bool) (source m : ActiveBuffManager)
  : ActiveBuffManager :=
  mkBuffs (buffList source)
    (if UsePersistentBuffs then persistentBuffList source else persistentBuffList m).

Definition ActiveBuffManager_Clear (m : ActiveBuffManager) : ActiveBuffManager := set_buffList [] m.
Definition ClearPersistent (m : ActiveBuffManager) : ActiveBuffManager := mkBuffs (buffList m) [].

(** [IsPassive] is the test of the ability entry, if there is one. *)
Definition buff_entry (IsPassive : Z -> option bool) (now : Z) (b : ActiveBuff) : option string :=
  let remain := i64 (castEndTimeMS b - now) in
  match IsPassive (abID b) with
  | Some false =>
      if 0 <? remain then
        Some (sprintf_d (tier b) +:+ "," +:+ sprintf_d (buffType b) +:+ "," +:+ sprintf_d (abID b)
              +:+ "," +:+ sprintf_d (abgID b) +:+ "," +:+ sprintf_lu remain)
      else None
  | _ => None
  end.

(** The list that is written as [Active], when it is not empty. *)
Definition ActiveBuffManager_WriteEntity (IsPassive : Z -> option bool) (now : Z)
  (m : ActiveBuffManager) : list string := omap (buff_entry IsPassive now) (buffList m).

(** [(double)n / 1000.0]. *)
Definition seconds (n : Z) : Value := round_ratio double (n <? 0) (Z.abs n) 1000.

(** An entry of the [ABILITIES] section of a character ([LoadEntity]). *)
Definition load_buff (now : Z) (a : string) (m : ActiveBuffManager) : ActiveBuffManager :=
  match Split a "," with
  | l0 :: l1 :: l2 :: l3 :: l4 :: _ =>
      AddPersistentBuff now (u8 (atoi l0)) (u8 (atoi l1)) (i16 (atoi l2)) (i16 (atoi l3))
        (seconds (strtoul l4)) m
  | _ => m
  end.

(** ** Cooldowns *)

Record ActiveCooldown := mkCooldown {
  category : Z; durationMS : Z; castStartTimeMS : Z; cooldownEndTimeMS : Z }.

Definition GetRemainTimeMS (now : Z) (c : ActiveCooldown) : Z :=
  if cooldownEndTimeMS c <? now then 0 else u64 (cooldownEndTimeMS c - now).

Definition GetElapsedTimeMS (now : Z) (c : ActiveCooldown) : Z :=
  if now <? castStartTimeMS c then 0 else u64 (now - castStartTimeMS c).

(** The first cooldown of the category, which is erased when it has expired. *)
Definition HasCooldown (now category_ : Z) (l : list ActiveCooldown)
  : list ActiveCooldown * option nat :=
  match find_idx (fun c => category c =? category_) l with
  | None => (l, None)
  | Some i =>
      match l !! i with
      | None => (l, None)
      | Some c => if cooldownEndTimeMS c <=? now then (delete i l, None) else (l, Some i)
      end
  end.

(** [durationMS] is an [int]. *)
Definition AddCooldown (now category_ remainMS timeElapsedMS : Z) (l : list ActiveCooldown)
  : list ActiveCooldown :=
  l ++ [mkCooldown category_ (i32 remainMS) (u64 (now - timeElapsedMS)) (u64 (now + i32 remainMS))].

Definition RegisterCooldown (now cooldownCategory duration : Z) (l : list ActiveCooldown)
  : list ActiveCooldown := AddCooldown now cooldownCategory duration 0 l.

Definition ActiveCooldownManager_Clear (l : list ActiveCooldown) : list ActiveCooldown := [].

Definition ActiveCooldownManager_CopyFrom (source l : list ActiveCooldown) : list ActiveCooldown := source.

(** The key and value written for a cooldown that is running. *)
Definition cooldown_entry (categories : ConstantMap) (now : Z) (c : ActiveCooldown)
  : option (string * string) :=
  if 0 <? i64 (cooldownEndTimeMS c - now) then
    match ResolveCategoryName categories (category c) with
    | None => None
    | Some name =>
        Some (name, sprintf_lu (GetRemainTimeMS now c) +:+ "," +:+ sprintf_lu (GetElapsedTimeMS now c))
    end
  else None.

Definition ActiveCooldownManager_WriteEntity (categories : ConstantMap) (now : Z)
  (l : list ActiveCooldown) : list (string * string) := omap (cooldown_entry categories now) l.

Definition LoadEntry (categories : ConstantMap) (now : Z) (name : string)
  (remainTimeMS timeElapsedMS : Z) (l : list ActiveCooldown) : list ActiveCooldown :=
  let category := ResolveCategoryID categories name in
  if category =? 0 then l else AddCooldown now category remainTimeMS timeElapsedMS l.

(** An entry of the [COOLDOWN] section of a character ([LoadEntity]); [long]
    values. *)
Definition load_cooldown (categories : ConstantMap) (now : Z) (key a : string)
  (l : list ActiveCooldown) : list ActiveCooldown :=
  match Split a "," with
  | l0 :: l1 :: _ =>
      let remain := Z.max 0 (i64 (strtoul l0)) in
      let elapsed := Z.max 0 (i64 (strtoul l1)) in
      if 0 <? remain then LoadEntry categories now key remain elapsed l else l
  | _ => l
  end.

Definition load_cooldowns (categories : ConstantMap) (now : Z) (entries : list (string * string))
  (l : list ActiveCooldown) : list ActiveCooldown :=
  foldl (fun l e => load_cooldown categories now (fst e) (snd e) l) l entries.

(** The rows of [ab.remainingcooldowns]. *)
Definition cooldown_row (categories : ConstantMap) (now : Z) (c : ActiveCooldown)
  : option (list string) :=
  if 0 <? i64 (cooldownEndTimeMS c - now) then
    match ResolveCategoryName categories (category c) with
    | None => None
    | Some name => Some [name; sprintf_lu (GetRemainTimeMS now c); sprintf_lu (GetElapsedTimeMS now c)]
    end
  else None.

Definition AbilityRemainingCooldownsHandler (categories : ConstantMap) (now : Z)
  (l : list ActiveCooldown) : list (list string) := omap (cooldown_row categories now) l.
