(* ===== verification/AbilityTimeFacts.v ===== *)
(** * Cooldowns and buff tiers: theorems

    The categories are numbered without repetition, cooldowns and buffs written
    with a character come back with the time they had left, and the list of buffs
    has one entry for each type, which stands for the strongest buff. *)

From Stdlib Require Sorted.
From S2P Require Import Prelude Text Float AbilityTime.

(** ** The categories *)

Lemma string_compare_refl s : String.compare s s = Eq.
Proof.
  induction s as [|c s IH]; simpl; [done|].
  unfold Ascii.compare. by rewrite N.compare_refl.
Qed.

Lemma string_lt_trans a b c :
  String.compare a b = Lt -> String.compare b c = Lt -> String.compare a c = Lt.
Proof.
  revert b c. induction a as [|x a IH]; intros [|y b] [|z c]; simpl; try done.
  unfold Ascii.compare.
  destruct (N.compare_spec (Ascii.N_of_ascii x) (Ascii.N_of_ascii y));
    destruct (N.compare_spec (Ascii.N_of_ascii y) (Ascii.N_of_ascii z)); try done; intros Hab Hbc;
    destruct (N.compare_spec (Ascii.N_of_ascii x) (Ascii.N_of_ascii z)); try done; try lia.
  by eapply IH.
Qed.

Definition before (a b : string * Z) : Prop := String.compare (fst a) (fst b) = Lt.

Lemma count_name_sorted name m :
  Sorted.StronglySorted before m ->
  Sorted.StronglySorted before (count_name name m) /\
  forall k, k ∈ fst <$> count_name name m <-> k = name \/ k ∈ fst <$> m.
Proof.
  induction 1 as [|[k v] m Hm IH Hk]; simpl.
  - split; [repeat constructor|]. intros k. by rewrite list_elem_of_singleton, elem_of_nil; tauto.
  - destruct (String.compare name k) eqn:E.
    + apply String.compare_eq_iff in E as ->. split; [by constructor|].
      intros j. simpl. rewrite elem_of_cons. tauto.
    + split; [|intros j; simpl; rewrite !elem_of_cons; tauto].
      constructor; [by constructor|]. constructor; [done|].
      eapply list.Forall_impl; [exact Hk|]. intros [j w] Hj. by eapply string_lt_trans.
    + destruct IH as [IHs IHk]. split; [|intros j; simpl; rewrite !elem_of_cons, IHk; tauto].
      constructor; [done|]. apply list.Forall_forall. intros [j w] Hj.
      assert (j ∈ fst <$> count_name name m) as Hin by (apply list_elem_of_fmap; by exists (j, w)).
      apply IHk in Hin as [->|Hin]; unfold before; simpl.
      * rewrite String.compare_antisym, E. done.
      * apply list_elem_of_fmap in Hin as ([j' w'] & -> & Hin).
        rewrite list.Forall_forall in Hk. apply (Hk _ Hin).
Qed.

Lemma sorted_keys m : Sorted.StronglySorted before m -> NoDup (fst <$> m).
Proof.
  induction 1 as [|[k v] m Hm IH Hk]; simpl; constructor; [|done].
  rewrite list_elem_of_fmap. intros ([j w] & Hj & Hin). simpl in Hj. subst j.
  rewrite list.Forall_forall in Hk. specialize (Hk _ Hin). unfold before in Hk. simpl in Hk.
  by rewrite string_compare_refl in Hk.
Qed.

Lemma number_from_keys i m : fst <$> number_from i m = fst <$> m.
Proof. revert i. induction m as [|[k v] m IH]; intros i; simpl; [done|]. by rewrite IH. Qed.

Lemma number_from_ids i m : snd <$> number_from i m = (fun n => i + Z.of_nat n) <$> seq 0 (length m).
Proof.
  revert i. induction m as [|[k v] m IH]; intros i; simpl; [done|]. rewrite IH. f_equal; [lia|].
  rewrite <- seq_shift, <- list_fmap_compose. apply list_fmap_ext. intros n x _. simpl. lia.
Qed.

(** Names and numbers are unique, as of a one to one table. *)
Definition categories_ok (m : ConstantMap) : Prop := NoDup (fst <$> m) /\ NoDup (snd <$> m).

Lemma InitializeCategories_ok rows : categories_ok (InitializeCategories rows).
Proof.
  unfold InitializeCategories, categories_ok. rewrite number_from_keys, number_from_ids. split.
  - apply sorted_keys. assert (Sorted.StronglySorted before []) as H0 by constructor.
    revert H0. generalize (@nil (string * Z)). induction rows as [|r rows IH]; intros m Hm; simpl; [done|].
    by apply IH, count_name_sorted.
  - apply NoDup_fmap_2, NoDup_seq. intros x y. lia.
Qed.

Lemma find_unique {A K} (p : A -> bool) (key : A -> K) l x :
  NoDup (key <$> l) -> x ∈ l -> p x = true -> (forall y, p y = true -> key y = key x) -> find p l = Some x.
Proof.
  induction l as [|y l IH]; simpl; [by intros _ ?%elem_of_nil|].
  intros [Hy Hnd]%list.NoDup_cons [->|Hx]%elem_of_cons Hp Hk; [by rewrite Hp|].
  destruct (p y) eqn:E; [|by apply IH]. destruct Hy. rewrite (Hk _ E). by apply list_elem_of_fmap_2.
Qed.

Lemma find_elem {A} (p : A -> bool) l x : find p l = Some x -> x ∈ l /\ p x = true.
Proof. intros [H1 H2]%find_some. split; [by apply list_elem_of_In|done]. Qed.

Lemma category_name_id m id name :
  categories_ok m -> ResolveCategoryName m id = Some name -> ResolveCategoryID m name = id.
Proof.
  intros [Hn Hi] H. unfold ResolveCategoryName in H.
  destruct (find _ m) as [[k v]|] eqn:E; [|done]. injection H as ->.
  apply find_elem in E as [Hin Hv]. simpl in Hv. to_prop. subst v. unfold ResolveCategoryID.
  rewrite (find_unique _ fst m (name, id) Hn Hin); [done|apply String.eqb_refl|].
  intros [k v] Hk. simpl in Hk. by apply String.eqb_eq in Hk.
Qed.

(** ** Cooldowns that are saved and loaded *)

Lemma unsigned_small w z : 0 <= z < 2 ^ w -> unsigned w z = z.
Proof. by apply unsigned_id. Qed.

Lemma signed_small w z : 0 < w -> 0 <= z < 2 ^ (w - 1) -> signed w z = z.
Proof. intros Hw Hz. apply signed_id; [done|]. unfold in_signed. lia. Qed.

(** The cooldowns a running server has: they started in the past, and end less
    than 2^31 milliseconds from now. *)
Definition cooldown_ok (now : Z) (c : ActiveCooldown) : Prop :=
  0 <= castStartTimeMS c <= now /\ 0 <= cooldownEndTimeMS c < 2 ^ 63 /\
  cooldownEndTimeMS c - now < 2 ^ 31.

(** A cooldown as it is after loading at the time [now']: the same time is left
    and has passed. Only running cooldowns of a category with a name and a number
    that is not 0 are kept. *)
Definition restored (categories : ConstantMap) (now now' : Z) (c : ActiveCooldown)
  : option ActiveCooldown :=
  let remain := cooldownEndTimeMS c - now in
  if (remain <=? 0) || (category c =? 0) then None
  else match ResolveCategoryName categories (category c) with
       | None => None
       | Some _ =>
           Some (mkCooldown (category c) remain (now' - (now - castStartTimeMS c)) (now' + remain))
       end.

Lemma split_pair a b :
  Split (sprintf_lu a +:+ "," +:+ sprintf_lu b) "," = [sprintf_lu a; sprintf_lu b] \/ a < 0 \/ b < 0.
Proof.
  destruct (decide (a < 0)); [by right; left|]. destruct (decide (b < 0)); [by right; right|]. left.
  assert (forall k, 0 <= k -> sprintf_lu k = sprintf_d k) as E.
  { intros k Hk. unfold sprintf_d. by rewrite (proj2 (Z.ltb_ge _ _)) by lia. }
  rewrite !E by lia.
  apply (split_join_lemma (chr 44) [sprintf_d a; sprintf_d b]); [done|].
  cbn [forallb]. by rewrite !sprintf_d_lacks by done.
Qed.

Lemma load_written categories now now' c l :
  categories_ok categories -> cooldown_ok now c -> 0 <= now < 2 ^ 62 -> now <= now' < 2 ^ 62 ->
  match cooldown_entry categories now c with
  | Some e => load_cooldown categories now' (fst e) (snd e) l
  | None => l
  end = l ++ option_list (restored categories now now' c).
Proof.
  intros Hcat (Hs & He & Hr) Hnow Hnow'. unfold cooldown_entry, restored.
  rewrite signed_id by (lia || (unfold in_signed; lia)).
  destruct (0 <? cooldownEndTimeMS c - now) eqn:Epos; to_prop;
    [rewrite (proj2 (Z.leb_gt _ _)) by lia|rewrite (proj2 (Z.leb_le _ _)) by lia; by rewrite app_nil_r].
  simpl orb. destruct (ResolveCategoryName categories (category c)) as [name|] eqn:En;
    [|rewrite Tauto.if_same; by rewrite app_nil_r].
  simpl fst. simpl snd. unfold GetRemainTimeMS, GetElapsedTimeMS.
  rewrite !(proj2 (Z.ltb_ge _ _)) by lia. rewrite !unsigned_small by lia. unfold load_cooldown.
  destruct (split_pair (cooldownEndTimeMS c - now) (now - castStartTimeMS c)) as [->|]; [|lia].
  rewrite !strtoul_print by lia. rewrite !signed_small by lia. rewrite !Z.max_r by lia.
  rewrite (proj2 (Z.ltb_lt _ _)) by lia. unfold LoadEntry. rewrite (category_name_id _ _ _ Hcat En).
  destruct (category c =? 0); [by rewrite app_nil_r|]. unfold AddCooldown.
  rewrite i32_id by (unfold in_signed; lia). by rewrite !unsigned_small by lia.
Qed.



(** ** Buffs that are saved and loaded *)

(** The seconds of a number of milliseconds, rounded twice, are the whole ones. *)
Lemma truncate_seconds n : 0 <= n < 2 ^ 40 -> truncate (seconds n) = n / 1000.
Proof.
  intros Hn. unfold seconds. rewrite Z.abs_eq, (proj2 (Z.ltb_ge n 0)) by lia.
  destruct (decide (n = 0)) as [->|Hnz]; [vm_compute; reflexivity|].
  unfold round_ratio. rewrite (proj2 (Z.eqb_neq n 0)) by done. cbn [emin prec emax double].
  destruct (log2_ratio_spec n 1000 ltac:(lia) ltac:(lia)) as [Hlo Hup].
  set (k := log2_ratio n 1000) in *.
  assert (-10 <= k <= 40) as Hk.
  { assert (2 ^ 40 < 1000 * 2 ^ 40) by lia. split; apply Z.le_ngt; intros Hc.
    - rewrite (Z.max_l 0 (k + 1)), Z.pow_0_r in Hup by lia.
      assert (2 ^ 10 <= 2 ^ Z.max 0 (- (k + 1))) by (apply Z.pow_le_mono_r; lia). nia.
    - rewrite (Z.max_l 0 (- k)), Z.pow_0_r in Hlo by lia.
      assert (2 ^ 40 <= 2 ^ Z.max 0 k) by (apply Z.pow_le_mono_r; lia). nia. }
  replace (Z.max (-1074) (k - (53 - 1))) with (- (52 - k)) by lia.
  set (s := 52 - k) in *. rewrite Z.opp_involutive, (Z.max_r 0 s), (Z.max_l 0 (- s)), Z.pow_0_r, Z.mul_1_r by lia.
  pose proof (Z.div_mod n 1000 ltac:(lia)) as Hdm. pose proof (Z.mod_pos_bound n 1000 ltac:(lia)) as Hmod.
  assert (1000 < 2 ^ s) as Hs by (apply Z.lt_le_trans with (2 ^ 12); [lia|apply Z.pow_le_mono_r; lia]).
  set (m := div_half_even (n * 2 ^ s) 1000).
  assert (n / 1000 * 2 ^ s <= m) as Hge by (apply div_half_even_ge; nia).
  assert (m < (n / 1000 + 1) * 2 ^ s) as Hlt.
  { pose proof (div_half_even_nearest (n * 2 ^ s) 1000 ltac:(lia)) as H. fold m in H. nia. }
  assert (forall m1 e1, 0 <= e1 + s -> m1 * 2 ^ (e1 + s) = m -> e1 <= 0 ->
    truncate (Finite false m1 e1) = n / 1000) as Hfin.
  { intros m1 e1 He1 Hm1 He0. unfold truncate, num, den, signed_value.
    rewrite (Z.max_l 0 e1), Z.pow_0_r, Z.mul_1_r, Z.max_r by lia.
    assert (m1 / 2 ^ (- e1) = n / 1000) as ->.
    { pose proof (pow2_pos (e1 + s) He1). pose proof (pow2_pos (- e1) ltac:(lia)).
      assert (2 ^ s = 2 ^ (e1 + s) * 2 ^ (- e1)) as Es by (rewrite <- Z.pow_add_r by lia; f_equal; lia).
      symmetry. apply Z.div_unique with (m1 - n / 1000 * 2 ^ (- e1)); [left|]; nia. }
    rewrite (proj2 (Z.leb_le _ _)), (proj2 (Z.ltb_lt _ _)); [done|..].
    - apply Z.div_lt_upper_bound; lia.
    - pose proof (Z.div_pos n 1000). lia. }
  destruct (m =? 2 ^ 53) eqn:E; to_prop; rewrite (proj2 (Z.ltb_ge 971 _)) by lia; apply Hfin; try lia.
  - replace (- s + 1 + s) with 1 by lia. rewrite E. reflexivity.
  - replace (- s + s) with 0 by lia. lia.
Qed.

(** ** The tiers of buffs *)

(** What the server does with the buffs of a creature. *)
Inductive buffs_step : ActiveBuffManager -> ActiveBuffManager -> Prop :=
  | step_HasBuff now t ty m : buffs_step m (HasBuff now t ty m).1
  | step_UpdateBuff now t ty id gid d init m : buffs_step m (UpdateBuff now t (u8 ty) id gid d init m).1
  | step_RemoveBuff id m : buffs_step m (RemoveBuff id m)
  | step_Clear m : buffs_step m (ActiveBuffManager_Clear m)
  | step_ClearPersistent m : buffs_step m (ClearPersistent m)
  | step_ActiveToPersistent m : buffs_step m (ActiveToPersistent m)
  | step_load now a m : buffs_step m (load_buff now a m).

Definition buffs_reachable : ActiveBuffManager -> Prop := rtc buffs_step (mkBuffs [] []).

Definition one_per_type (m : ActiveBuffManager) : Prop := NoDup (buffType <$> buffList m).

Lemma delete_key_sublist {A K} (key : A -> K) i (l : list A) : NoDup (key <$> l) -> NoDup (key <$> delete i l).
Proof. intros Hnd. rewrite list_fmap_delete. eapply sublist_NoDup; [exact Hnd|apply sublist_delete]. Qed.

(** The search finds the buff that blocks, the only one of its type, and otherwise
    leaves none of the type. *)
Lemma HasBuff_spec now t ty m :
  one_per_type m ->
  match HasBuff now t ty m with
  | (m', Some i) =>
      m' = m /\ exists b, buffList m !! i = Some b /\ buffType b = ty /\ now < castEndTimeMS b /\ t < tier b
  | (m', None) =>
      one_per_type m' /\ ~ (ty ∈ buffType <$> buffList m') /\ persistentBuffList m' = persistentBuffList m /\
      (forall b, b ∈ buffList m' <-> b ∈ buffList m /\ buffType b <> ty) /\
      (forall b, b ∈ buffList m -> buffType b = ty -> castEndTimeMS b <= now \/ tier b <= t)
  end.
Proof.
  intros Hnd. unfold HasBuff. destruct (find_idx _ (buffList m)) as [i|] eqn:E.
  - destruct (find_idx_lookup _ _ _ E) as (b & Hb & Hty). to_prop. rewrite Hb.
    destruct (_ || _) eqn:Et.
    + assert (forall c, c ∈ buffList m -> buffType c = ty -> c = b) as Huniq.
      { intros c [j Hj]%list_elem_of_lookup Hc. assert (j = i) as ->; [|congruence].
        apply (NoDup_lookup _ j i ty Hnd); rewrite list_lookup_fmap; [rewrite Hj|rewrite Hb]; simpl; congruence. }
      assert (forall c, c ∈ delete i (buffList m) <-> c ∈ buffList m /\ buffType c <> ty) as Hdel.
      { intros c. pose proof (delete_Permutation _ _ _ Hb) as HP. split.
        - intros Hc. assert (c ∈ buffList m) as Hin by (rewrite HP; by right). split; [done|].
          intros Hcty. apply (Huniq c Hin) in Hcty as ->. unfold one_per_type in Hnd. rewrite HP in Hnd.
          apply list.NoDup_cons in Hnd as [Hnot _]. apply Hnot. by apply list_elem_of_fmap_2.
        - intros [Hin Hne]. rewrite HP in Hin. apply elem_of_cons in Hin as [->|]; [congruence|done]. }
      split_and!; simpl; [by apply delete_key_sublist| |done|done|].
      * rewrite list_elem_of_fmap. intros (c & Hc & Hin). apply Hdel in Hin as [_ Hne]. congruence.
      * intros c Hc Hcty. rewrite (Huniq c Hc Hcty). apply orb_true_iff in Et as [|]; to_prop; lia.
    + apply orb_false_iff in Et as [? ?]. to_prop. split; [done|]. by exists b.
  - apply find_idx_None in E. rewrite list.Forall_forall in E.
    assert (forall b, b ∈ buffList m -> buffType b <> ty) as Hno by (intros b Hb; specialize (E b Hb); by to_prop).
    split_and!; [done| |done| |].
    + rewrite list_elem_of_fmap. intros (b & -> & Hb). by apply (Hno b).
    + intros b. specialize (Hno b). tauto.
    + intros b Hb Hty. by destruct (Hno b).
Qed.

Lemma UpdateBuff_spec now t ty id gid d init m :
  one_per_type m -> in_unsigned 8 ty ->
  let '(m', b) := UpdateBuff now t ty id gid d init m in
  one_per_type m' /\ buffType b = ty /\ b ∈ buffList m' /\
  forall c, buffType c <> ty -> (c ∈ buffList m' <-> c ∈ buffList m).
Proof.
  intros Hnd Hty. unfold UpdateBuff. pose proof (HasBuff_spec now t ty m Hnd) as H.
  assert (u8 ty = ty) as Eu by (by apply unsigned_id).
  destruct (HasBuff now t ty m) as [m1 [i|]].
  - destruct H as (-> & b & Hb & Hbty & _). simpl. rewrite Eu. set (b' := mkBuff _ _ _ _ _ _).
    split_and!; [|done|by apply list_elem_of_lookup; exists i; apply list_lookup_insert_eq; by eapply lookup_lt_Some|].
    + unfold one_per_type. simpl. rewrite list_fmap_insert. simpl.
      rewrite list_insert_id; [done|]. rewrite list_lookup_fmap, Hb. simpl. congruence.
    + intros c Hc. rewrite !list_elem_of_lookup. split; intros [j Hj]; exists j.
      * destruct (decide (i = j)) as [->|Hne]; [|by rewrite list_lookup_insert_ne in Hj].
        rewrite list_lookup_insert_eq in Hj by (by eapply lookup_lt_Some). injection Hj as <-. done.
      * rewrite list_lookup_insert_ne; [done|]. intros ->. congruence.
  - destruct H as (H1 & H2 & _ & H3 & _). unfold AddBuff. simpl. rewrite Eu. set (b := mkBuff _ _ _ _ _ _).
    split_and!; [|done|apply elem_of_app; right; by apply list_elem_of_singleton|].
    + unfold one_per_type. simpl. rewrite fmap_app. simpl. apply list.NoDup_app. split_and!; [done| |apply NoDup_singleton].
      intros k Hk ->%list_elem_of_singleton. done.
    + intros c Hc. rewrite elem_of_app, list_elem_of_singleton, H3. split; [|tauto].
      intros [[? _]| ->]; [done|]. by destruct Hc.
Qed.

Lemma buffs_reachable_one m : buffs_reachable m -> one_per_type m.
Proof.
  intros Hr. assert (one_per_type (mkBuffs [] [])) as H0 by constructor. revert H0.
  induction Hr as [|m1 m2 m3 Hstep Hr IH]; [done|]. intros H1. apply IH. clear IH.
  destruct Hstep; try done.
  - pose proof (HasBuff_spec now t ty m H1) as H. destruct (HasBuff now t ty m) as [m' [i|]]; simpl; [by destruct H as [-> _]|apply H].
  - pose proof (UpdateBuff_spec now t (u8 ty) id gid d init m H1 (unsigned_range 8 ty ltac:(lia))) as H.
    destruct (UpdateBuff _ _ _ _ _ _ _ _) as [m' b]. apply H.
  - unfold one_per_type, RemoveBuff. simpl. eapply sublist_NoDup; [exact H1|apply fmap_sublist, sublist_filter].
  - constructor.
  - constructor.
  - unfold load_buff. by repeat case_match.
Qed.

(** A buff is refused exactly when a stronger one of its type is running: in
    every state the server brings the buffs of a creature to there is one entry for
    each type, [HasBuff] finds it if and only if it has not expired and has a
    greater tier, and after [UpdateBuff] the entry of the type is the new buff and
    those of the other types are as before. *)
Theorem buff_tiers m now t ty id gid d init :
  buffs_reachable m -> in_unsigned 8 ty ->
  (is_Some (HasBuff now t ty m).2 <->
    exists b, b ∈ buffList m /\ buffType b = ty /\ now < castEndTimeMS b /\ t < tier b) /\
  (let '(m', b) := UpdateBuff now t ty id gid d init m in
   forall c, c ∈ buffList m' <-> c = b \/ (c ∈ buffList m /\ buffType c <> ty)).
Proof.
  intros Hr Hty. pose proof (buffs_reachable_one m Hr) as H1. split.
  - pose proof (HasBuff_spec now t ty m H1) as H. destruct (HasBuff now t ty m) as [m' [i|]]; simpl.
    + destruct H as (_ & b & Hb & ?). split; [|by eexists]. intros _. exists b. split; [|done].
      by eapply list_elem_of_lookup_2.
    + destruct H as (_ & _ & _ & _ & H). split; [by intros [? ?]|]. intros (b & Hb & Hbty & ? & ?).
      destruct (H b Hb Hbty); lia.
  - pose proof (UpdateBuff_spec now t ty id gid d init m H1 Hty) as H.
    destruct (UpdateBuff _ _ _ _ _ _ _ _) as [m' b]. destruct H as (Hnd & Hb & Hin & H).
    intros c. split.
    + intros Hc. destruct (decide (buffType c = ty)) as [E|E]; [left|right; split; [by apply H|done]].
      apply list_elem_of_lookup in Hin as [i Hi], Hc as [j Hj].
      assert (j = i) as ->; [|congruence].
      apply (NoDup_lookup _ j i ty Hnd); rewrite list_lookup_fmap; [rewrite Hj|rewrite Hi]; simpl; congruence.
    + intros [->|[Hc E]]; [done|by apply H].
Qed.

Lemma buff_tiers_witness :
  let d := round_ratio double false 30 1 in
  let m := (UpdateBuff 1000 3 7 210 20 d false (mkBuffs [] [])).1 in
  (HasBuff 2000 2 7 m).2 = Some 0%nat /\ (HasBuff 40000 2 7 m).2 = None /\
  (let '(m', b) := UpdateBuff 2000 4 7 211 20 d false m in
   forall c, c ∈ buffList m' <-> c = b \/ (c ∈ buffList m /\ buffType c <> 7)).
Proof.
  intros d m. split_and!; [vm_compute; reflexivity..|].
  apply (buff_tiers m 2000 4 7 211 20 d false); [|unfold in_unsigned; lia].
  eapply rtc_l; [apply (step_UpdateBuff 1000 3 7 210 20 d false)|]. apply rtc_refl.
Defined.

(** ** Buffs that are saved and loaded *)

Definition buff_ok (now : Z) (b : ActiveBuff) : Prop :=
  in_unsigned 8 (tier b) /\ in_unsigned 8 (buffType b) /\ in_signed 16 (abID b) /\ in_signed 16 (abgID b) /\
  0 <= castEndTimeMS b < 2 ^ 63 /\ castEndTimeMS b - now < 2 ^ 40.

(** A buff as it is after loading: the whole seconds it had left. *)
Definition restored_buff (IsPassive : Z -> option bool) (now now' : Z) (b : ActiveBuff) : option ActiveBuff :=
  let s := (castEndTimeMS b - now) / 1000 in
  match IsPassive (abID b) with
  | Some false =>
      if castEndTimeMS b <=? now then None
      else Some (mkBuff (tier b) (buffType b) (abID b) (abgID b) s (now' + s * 1000))
  | _ => None
  end.

Lemma split_five a b c d e :
  Split (sprintf_d a +:+ "," +:+ sprintf_d b +:+ "," +:+ sprintf_d c +:+ "," +:+ sprintf_d d +:+ "," +:+ sprintf_d e) "," =
    [sprintf_d a; sprintf_d b; sprintf_d c; sprintf_d d; sprintf_d e].
Proof.
  apply (split_join_lemma (chr 44) [sprintf_d a; sprintf_d b; sprintf_d c; sprintf_d d; sprintf_d e]); [done|].
  cbn [forallb]. by rewrite !sprintf_d_lacks by done.
Qed.

Lemma load_written_buff IsPassive now now' b m :
  buff_ok now b -> 0 <= now < 2 ^ 62 -> 0 <= now' < 2 ^ 62 ->
  match buff_entry IsPassive now b with
  | Some a => load_buff now' a m
  | None => m
  end = mkBuffs (buffList m) (persistentBuffList m ++ option_list (restored_buff IsPassive now now' b)).
Proof.
  intros (Ht & Hy & Hi & Hg & He & Hr) Hnow Hnow'. unfold buff_entry, restored_buff.
  assert (m = mkBuffs (buffList m) (persistentBuffList m ++ [])) as Em by (rewrite app_nil_r; by destruct m).
  destruct (IsPassive (abID b)) as [[]|]; [done| |done].
  rewrite signed_id by (lia || (unfold in_signed; lia)).
  destruct (0 <? castEndTimeMS b - now) eqn:E; to_prop;
    [rewrite (proj2 (Z.leb_gt _ _)) by lia|by rewrite (proj2 (Z.leb_le _ _)) by lia].
  unfold in_unsigned in Ht, Hy. unfold in_signed in Hi, Hg. set (r := castEndTimeMS b - now) in *.
  assert (sprintf_lu r = sprintf_d r) as -> by (unfold sprintf_d; by rewrite (proj2 (Z.ltb_ge r 0)) by lia).
  unfold load_buff. rewrite split_five.
  rewrite !atoi_sprintf_d_lemma by (unfold in_signed; lia).
  assert (sprintf_d r = sprintf_lu r) as -> by (unfold sprintf_d; by rewrite (proj2 (Z.ltb_ge r 0)) by lia).
  rewrite strtoul_print by lia. unfold AddPersistentBuff, cast_end. rewrite truncate_seconds by lia.
  rewrite !unsigned_idem, !unsigned_small by lia.
  assert (i16 (abID b) = abID b) as -> by (apply signed_id; [lia|unfold in_signed; lia]).
  assert (i16 (abgID b) = abgID b) as -> by (apply signed_id; [lia|unfold in_signed; lia]).
  rewrite !signed_id by (lia || (unfold in_signed; lia)).
  assert (0 <= r / 1000 < 2 ^ 40) by (split; [apply Z.div_pos; lia|apply Z.div_lt_upper_bound; lia]).
  by rewrite unsigned_small by lia.
Qed.

(** The buffs written with a character are its persistent buffs after loading. *)
Lemma buffs_roundtrip IsPassive now now' m :
  Forall (buff_ok now) (buffList m) -> 0 <= now < 2 ^ 62 -> 0 <= now' < 2 ^ 62 ->
  foldl (fun m a => load_buff now' a m) (mkBuffs [] []) (ActiveBuffManager_WriteEntity IsPassive now m) =
    mkBuffs [] (omap (restored_buff IsPassive now now') (buffList m)).
Proof.
  intros Hl Hnow Hnow'. unfold ActiveBuffManager_WriteEntity. generalize dependent (buffList m). intros l Hl.
  assert (forall p, foldl (fun m a => load_buff now' a m) (mkBuffs [] p) (omap (buff_entry IsPassive now) l) =
    mkBuffs [] (p ++ omap (restored_buff IsPassive now now') l)) as H; [|apply H].
  induction Hl as [|b l Hb Hl IH]; intros p; simpl; [by rewrite app_nil_r|].
  pose proof (load_written_buff IsPassive now now' b (mkBuffs [] p) Hb Hnow Hnow') as H. simpl in H.
  destruct (buff_entry IsPassive now b) as [a|]; simpl.
  - rewrite H, IH, <- app_assoc. by destruct (restored_buff IsPassive now now' b).
  - injection H as H. rewrite IH. destruct (restored_buff IsPassive now now' b); [|done].
    apply (f_equal length) in H. rewrite length_app in H. simpl in H. lia.
Qed.
