(* ===== verification/StatMods.v ===== *)
(** * Stat modifiers: buffs, items and base values ([Creature.cpp])

    What changes a stat of a creature is a modifier ([ActiveStatMod]): a buff of an
    ability, an item that is worn, an effect of the instance. The stat of the
    creature holds the total. The value without modifiers is kept in a base entry
    ([BaseStatData]) from the first modifier of the stat to the last; [RefCount]
    counts them. Totals are written to the stats by [SendUpdatedBuffs], which also
    drops the entries nobody uses.

    The state is a [Scene]: the creature whose method runs, the other creatures it
    may have a pointer to, the list of pending updates, which is global, and the
    packets sent. *)

From S2P Require Import Prelude ByteBuffer Messages Text Float StatTables Stats AbilityTime.

(** ** Data *)

Module BuffSource.
Definition ABILITY : Z := 0.
Definition ITEM : Z := 1.
Definition INSTANCE : Z := 2.
End BuffSource.

Definition MAX_TIME : Z := 2 ^ 64 - 1.
Definition CREATURE_UPDATE_MOD : Z := 64.
Definition INTERRUPTED : Z := 4.

Record ActiveStatMod := mkMod {
  priority : Z; modStatID : Z; abilityID : Z; abilityGroupID : Z;
  amount : Z; clientAmount : Z;               (* bits of a float *)
  expireTime : Z; mod_tier : Z; buffCategory : Z; sourceType : Z; sourceID : Z }.

Record ActiveStatusEffect := mkEffect {
  modStatusID : Z; startTime : Z; effect_expireTime : Z }.

Record BaseStatData := mkBase {
  StatID : Z; fBaseVal : Z; fModTotal : Z; RefCount : Z; valueType : StatType }.

Record Creature := mkCreature {
  CreatureID : Z; CreatureDefID : Z; css : CharacterStatSet;
  activeStatMod : list ActiveStatMod; baseStats : list BaseStatData;
  activeStatusEffect : list ActiveStatusEffect; statusEffects : list Z;
  buffManager : ActiveBuffManager; initialisingAbilities : bool;
  timer_mightregen : Z; timer_willregen : Z; timer_autoattack : Z;
  MountedOn : option Z; MountedBy : option Z; MountAbilityId : Z }.

Definition set_css (x : CharacterStatSet) (c : Creature) : Creature :=
  mkCreature (CreatureID c) (CreatureDefID c) x (activeStatMod c) (baseStats c)
    (activeStatusEffect c) (statusEffects c) (buffManager c) (initialisingAbilities c)
    (timer_mightregen c) (timer_willregen c) (timer_autoattack c)
    (MountedOn c) (MountedBy c) (MountAbilityId c).
Definition set_mods (x : list ActiveStatMod) (c : Creature) : Creature :=
  mkCreature (CreatureID c) (CreatureDefID c) (css c) x (baseStats c)
    (activeStatusEffect c) (statusEffects c) (buffManager c) (initialisingAbilities c)
    (timer_mightregen c) (timer_willregen c) (timer_autoattack c)
    (MountedOn c) (MountedBy c) (MountAbilityId c).
Definition set_bases (x : list BaseStatData) (c : Creature) : Creature :=
  mkCreature (CreatureID c) (CreatureDefID c) (css c) (activeStatMod c) x
    (activeStatusEffect c) (statusEffects c) (buffManager c) (initialisingAbilities c)
    (timer_mightregen c) (timer_willregen c) (timer_autoattack c)
    (MountedOn c) (MountedBy c) (MountAbilityId c).
Definition set_status (x : list ActiveStatusEffect) (flags : list Z) (c : Creature) : Creature :=
  mkCreature (CreatureID c) (CreatureDefID c) (css c) (activeStatMod c) (baseStats c)
    x flags (buffManager c) (initialisingAbilities c)
    (timer_mightregen c) (timer_willregen c) (timer_autoattack c)
    (MountedOn c) (MountedBy c) (MountAbilityId c).
Definition set_buffs (x : ActiveBuffManager) (c : Creature) : Creature :=
  mkCreature (CreatureID c) (CreatureDefID c) (css c) (activeStatMod c) (baseStats c)
    (activeStatusEffect c) (statusEffects c) x (initialisingAbilities c)
    (timer_mightregen c) (timer_willregen c) (timer_autoattack c)
    (MountedOn c) (MountedBy c) (MountAbilityId c).
Definition set_timers (might will auto : Z) (c : Creature) : Creature :=
  mkCreature (CreatureID c) (CreatureDefID c) (css c) (activeStatMod c) (baseStats c)
    (activeStatusEffect c) (statusEffects c) (buffManager c) (initialisingAbilities c)
    might will auto (MountedOn c) (MountedBy c) (MountAbilityId c).
Definition set_mount (on by_ : option Z) (ability : Z) (c : Creature) : Creature :=
  mkCreature (CreatureID c) (CreatureDefID c) (css c) (activeStatMod c) (baseStats c)
    (activeStatusEffect c) (statusEffects c) (buffManager c) (initialisingAbilities c)
    (timer_mightregen c) (timer_willregen c) (timer_autoattack c) on by_ ability.

(** The creature is named by its identifier. *)
Record PendingCreatureUpdate := mkUpdate {
  update_mask : Z; update_object : Z; statUpdate : list Z }.

Record Scene := mkScene {
  self : Creature; others : gmap Z Creature;
  UpdateList : list PendingCreatureUpdate; sent : list (list Z) }.

Definition on_self (f : Creature -> Creature) (s : Scene) : Scene :=
  mkScene (f (self s)) (others s) (UpdateList s) (sent s).
Definition set_updates (l : list PendingCreatureUpdate) (s : Scene) : Scene :=
  mkScene (self s) (others s) l (sent s).

(** [LSendToLocalSimulator]. *)
Definition broadcast (packet : list Z) (s : Scene) : Scene :=
  mkScene (self s) (others s) (UpdateList s) (sent s ++ [packet]).

(** The same scene from another creature. *)
Definition focus (id : Z) (s : Scene) : option Scene :=
  if id =? CreatureID (self s) then Some s
  else
    c ← others s !! id;
    Some (mkScene c (<[CreatureID (self s) := self s]> (delete id (others s))) (UpdateList s) (sent s)).

(** ** Pending updates *)

Definition addStatUpdate (statID : Z) (u : PendingCreatureUpdate) : PendingCreatureUpdate :=
  if i16 statID <=? 0 then u
  else mkUpdate (Z.lor (update_mask u) CREATURE_UPDATE_STAT) (update_object u)
         (statUpdate u ++ [i16 statID]).

Definition UpdateList_GetExistingObject (obj : Z) (s : Scene) : option nat :=
  find_idx (fun u => update_object u =? obj) (UpdateList s).

Definition UpdateList_Add (mask obj statID : Z) (s : Scene) : Scene :=
  set_updates
    (match UpdateList_GetExistingObject obj s with
     | None => UpdateList s ++ [addStatUpdate statID (mkUpdate (u16 mask) obj [])]
     | Some r =>
         alter (fun u => addStatUpdate statID
                  (mkUpdate (Z.lor (update_mask u) (u16 mask)) (update_object u) (statUpdate u)))
           r (UpdateList s)
     end) s.

Definition UpdateList_Remove (obj : Z) (s : Scene) : Scene :=
  match UpdateList_GetExistingObject obj s with
  | None => s
  | Some r => set_updates (delete r (UpdateList s)) s
  end.

Definition update_self (mask statID : Z) (s : Scene) : Scene :=
  UpdateList_Add mask (CreatureID (self s)) statID s.

(** ** Status flags *)

(** The words are [unsigned int]; the bits are those of the [int] in the table. *)
Definition change_flag (f : Z -> Z -> Z) (statusID : Z) (c : Creature) : option Creature :=
  e ← (if statusID <? 0 then None else StatusEffectBitData !! Z.to_nat statusID);
  w ← statusEffects c !! Z.to_nat (arrayIndex e);
  Some (set_status (activeStatusEffect c)
          (<[Z.to_nat (arrayIndex e) := u32 (f w (bit e))]> (statusEffects c)) c).

Definition _SetStatusFlag : Z -> Creature -> option Creature := change_flag (fun w b => Z.lor w (u32 b)).
Definition _ClearStatusFlag : Z -> Creature -> option Creature :=
  change_flag (fun w b => Z.land w (u32 (Z.lnot b))).

Definition HasStatus (statusID : Z) (c : Creature) : option bool :=
  e ← (if statusID <? 0 then None else StatusEffectBitData !! Z.to_nat statusID);
  w ← statusEffects c !! Z.to_nat (arrayIndex e);
  Some (negb (Z.land w (u32 (bit e)) =? 0)).

Definition _HasStatusList (statusID : Z) (c : Creature) : option nat :=
  find_idx (fun e => modStatusID e =? statusID) (activeStatusEffect c).

(** ** What other components do for a creature

    [ActivateAbility] runs the event [onDeactivate] of an ability of the ability
    table, [CAF_Untransform] takes back a changed appearance. *)
Class AbilityHost := {
  ActivateAbility : Z -> Scene -> option Scene;
  CAF_Untransform : Scene -> option Scene }.

Definition IsMounted (c : Creature) : bool :=
  bool_decide (is_Some (MountedOn c)) || bool_decide (is_Some (MountedBy c)).
Definition IsMountedMount (c : Creature) : bool := bool_decide (is_Some (MountedBy c)).
Definition IsRider (c : Creature) : bool := bool_decide (is_Some (MountedOn c)).

Section Mods.
Context (tbl : list StatDefinition) (g_ProtocolVersion g_ServerTime : Z).

(** The field [AbilityOnUse] of a creature definition, if there is one. *)
Context (AbilityOnUse : Z -> option Z).
Context `{AbilityHost}.

(** ** Base values *)

Definition _GetBaseStatModIndex (statID : Z) (c : Creature) : option nat :=
  find_idx (fun b => StatID b =? statID) (baseStats c).

Definition _GetExistingModIndex (type groupID statID : Z) (c : Creature) : option nat :=
  find_idx (fun m =>
    (if type =? BuffSource.ABILITY then (abilityGroupID m =? groupID) || (groupID =? -1)
     else sourceID m =? groupID) && (modStatID m =? statID)) (activeStatMod c).

Definition _GetBaseStat (statID : Z) (c : Creature) : option Z :=
  match find (fun b => StatID b =? statID) (baseStats c) with
  | Some b => Some (fBaseVal b)
  | None => GetStatValueByID tbl statID (css c)
  end.

(** A base entry changed in place. *)
Definition on_base (statID : Z) (f : BaseStatData -> BaseStatData) (c : Creature) : Creature :=
  match _GetBaseStatModIndex statID c with
  | None => c
  | Some br => set_bases (alter f br (baseStats c)) c
  end.

Definition set_total (x : Z) (b : BaseStatData) : BaseStatData :=
  mkBase (StatID b) (fBaseVal b) x (RefCount b) (valueType b).
Definition set_RefCount (x : Z) (b : BaseStatData) : BaseStatData :=
  mkBase (StatID b) (fBaseVal b) (fModTotal b) (i8 x) (valueType b).

(** [RefCount] is a [char]. *)
Definition AddBaseStatMod (statID amount : Z) (s : Scene) : option Scene :=
  let c := self s in
  match _GetBaseStatModIndex statID c with
  | Some _ =>
      Some (update_self CREATURE_UPDATE_STAT statID
        (on_self (on_base statID (fun b =>
           set_RefCount (RefCount b + 1) (set_total (float_add (fModTotal b) amount) b))) s))
  | None =>
      let core := (statID =? STAT.STRENGTH) || (statID =? STAT.DEXTERITY) ||
                  (statID =? STAT.CONSTITUTION) || (statID =? STAT.PSYCHE) || (statID =? STAT.SPIRIT) in
      base ← (if core then _GetBaseStat statID c else GetStatValueByID tbl statID (css c));
      let newBase := mkBase (i16 statID) base amount 1 (GetStatType tbl statID) in
      Some (update_self CREATURE_UPDATE_STAT statID (on_self (set_bases (baseStats c ++ [newBase])) s))
  end.

Definition SubtractBaseStatMod (statID amount : Z) (s : Scene) : Scene :=
  match _GetBaseStatModIndex statID (self s) with
  | None => s
  | Some _ =>
      update_self CREATURE_UPDATE_STAT statID
        (on_self (on_base statID (fun b =>
           set_RefCount (RefCount b - 1) (set_total (float_sub (fModTotal b) amount) b))) s)
  end.

Definition set_base (x : Z) (b : BaseStatData) : BaseStatData :=
  mkBase (StatID b) x (fModTotal b) (RefCount b) (valueType b).

Definition UpdateBaseStatMinimum (statID amount : Z) (s : Scene) : Scene :=
  match _GetBaseStatModIndex statID (self s) with
  | None => s
  | Some _ =>
      update_self CREATURE_UPDATE_STAT statID (on_self (on_base statID (set_base amount)) s)
  end.

(** ** Totals *)

Definition total (b : BaseStatData) : Z := float_add (fBaseVal b) (fModTotal b).

(** A value written to the stats for every base entry. *)
Fixpoint write_bases (value : BaseStatData -> Z) (l : list BaseStatData) (css : CharacterStatSet)
  : option CharacterStatSet :=
  match l with
  | [] => Some css
  | b :: l' => css' ← WriteValueToStat tbl (StatID b) (value b) css; write_bases value l' css'
  end.

(** A regeneration timer that a buff had put off. *)
Definition restore_timer (timer : Z) : Z :=
  if u64 (g_ServerTime + 2000) <? timer then u64 (g_ServerTime + 2000) else timer.

Definition restore_timers (statID : Z) (c : Creature) : Creature :=
  if statID =? STAT.WILL_REGEN then
    set_timers (timer_mightregen c) (restore_timer (timer_willregen c)) (timer_autoattack c) c
  else if statID =? STAT.MIGHT_REGEN then
    set_timers (restore_timer (timer_mightregen c)) (timer_willregen c) (timer_autoattack c) c
  else c.

(** The entries that are kept, and the scene. *)
Fixpoint check_removed (l : list BaseStatData) (s : Scene) : option (list BaseStatData * Scene) :=
  match l with
  | [] => Some ([], s)
  | b :: l' =>
      if RefCount b =? 0 then
        let s1 := update_self CREATURE_UPDATE_STAT (StatID b) (on_self (restore_timers (StatID b)) s) in
        css' ← WriteValueToStat tbl (StatID b) (fBaseVal b) (css (self s1));
        check_removed l' (on_self (set_css css') s1)
      else '(kept, s') ← check_removed l' s; Some (b :: kept, s')
  end.

Definition CheckRemovedBuffs (s : Scene) : option Scene :=
  '(kept, s') ← check_removed (baseStats (self s)) s;
  Some (on_self (set_bases kept) s').

(** ** The packet of modifiers *)

Definition GetStatDurationSec (m : ActiveStatMod) : Z :=
  if expireTime m =? MAX_TIME then 2 ^ 31 - 1
  else
    let x := i32 (u64 (expireTime m - g_ServerTime) / 1000) in
    if x <? 0 then 2 ^ 31 - 1 else x.

Definition put_mod (m : ActiveStatMod) : list Z :=
  (if 15 <? g_ProtocolVersion then
     PutInteger (priority m) ++ PutShort (modStatID m) ++ PutShort (abilityID m) ++
     (if priority m =? 1 then PutFloat (clientAmount m) else PutShort (short_of_float (clientAmount m)))
   else
     PutShort (modStatID m) ++ PutShort (abilityID m) ++ PutShort (short_of_float (clientAmount m))) ++
  PutInteger (GetStatDurationSec m) ++
  (if 24 <=? g_ProtocolVersion then PutStringUTF EmptyString else []).

Fixpoint put_bases (l : list BaseStatData) : option (list Z) :=
  match l with
  | [] => Some []
  | b :: l' =>
      data ← WriteStatToBuffer tbl (StatID b) (total b);
      rest ← put_bases l';
      Some (PutShort (StatID b) ++ data ++ rest)
  end.

Definition PrepExt_UpdateMods (c : Creature) : option (list Z) :=
  bases ← put_bases (baseStats c);
  Some (seal (PutByte 5 ++ PutShort 0 ++ PutInteger (CreatureID c) ++
    put_mask g_ProtocolVersion (Z.lor CREATURE_UPDATE_MOD CREATURE_UPDATE_STAT) ++
    PutShort (Z.of_nat (length (activeStatMod c))) ++ concat (put_mod <$> activeStatMod c) ++
    PutShort (Z.of_nat (length (activeStatusEffect c))) ++
    concat ((fun e => PutShort (modStatusID e)) <$> activeStatusEffect c) ++
    PutShort (Z.of_nat (length (baseStats c))) ++ bases)).

Definition SendUpdatedBuffs (s : Scene) : option Scene :=
  css' ← write_bases total (baseStats (self s)) (css (self s));
  s ← CheckRemovedBuffs (on_self (set_css css') s);
  packet ← PrepExt_UpdateMods (self s);
  Some (broadcast packet s).

Definition SendFlags (s : Scene) : option Scene :=
  packet ← PrepExt_UpdateMods (self s);
  Some (broadcast packet s).

(** ** Adding modifiers *)

Definition PushStatMod (m : ActiveStatMod) (s : Scene) : Scene :=
  on_self (fun c => set_mods (activeStatMod c ++ [m]) c) s.

(** -1 stands for no end. *)
Definition expire_time (durationSec : Z) : option Z :=
  if DoubleEquivalent (decode durationSec) (decode (float_of_int (-1))) then Some MAX_TIME
  else d ← ulong_of_float durationSec; Some (u64 (g_ServerTime + u64 (d * 1000))).

Definition AddBuff (buffSource category_ abTier abID abGroupID statID calcAmount descAmount durationSec : Z)
  (s : Scene) : option Scene :=
  let descAmount :=
    if float_eqb descAmount (float_of_int 0) && negb (float_eqb calcAmount (float_of_int 0))
    then calcAmount else descAmount in
  expireTimeMS ← expire_time durationSec;
  s ← match _GetExistingModIndex buffSource abGroupID statID (self s) with
      | Some r =>
          m ← activeStatMod (self s) !! r;
          let m' := mkMod (priority m) (modStatID m) (abilityID m) (abilityGroupID m) calcAmount
                      calcAmount expireTimeMS (mod_tier m) (buffCategory m) (sourceType m) (sourceID m) in
          let s1 := on_self (set_mods (<[r := m']> (activeStatMod (self s)))) s in
          Some (on_self (on_base statID (fun b =>
                  set_total (float_add (float_sub (fModTotal b) (amount m)) calcAmount) b)) s1)
      | None =>
          let item := buffSource =? BuffSource.ITEM in
          AddBaseStatMod statID calcAmount
            (PushStatMod (mkMod (if item then 0 else 1) (i16 statID) (if item then 0 else i16 abID)
               (i16 abGroupID) calcAmount (if item then calcAmount else descAmount) expireTimeMS
               (u8 abTier) (u8 category_) (i8 buffSource) 0) s)
      end;
  Some (update_self (Z.lor CREATURE_UPDATE_MOD CREATURE_UPDATE_STAT) statID s).

Definition AddMod (tier category_ abID abgID : Z) (durationSec : Value) (s : Scene)
  : Scene * ActiveBuff :=
  let c := self s in
  let '(m, buff) := UpdateBuff g_ServerTime tier (u8 category_) abID abgID durationSec
                      (initialisingAbilities c) (buffManager c) in
  let s1 := PushStatMod (mkMod 1 0 (i16 abID) 0 (float_of_int 0) (float_of_int 0) (castEndTimeMS buff)
                           0 0 BuffSource.ABILITY 0) (on_self (set_buffs m) s) in
  (update_self CREATURE_UPDATE_MOD 0 s1, buff).

Definition AddItemStatMod (itemID statID amount : Z) (s : Scene) : option Scene :=
  AddBaseStatMod statID amount
    (PushStatMod (mkMod 0 (i16 statID) 0 0 amount amount MAX_TIME 0 0 BuffSource.ITEM itemID) s).

(** One [name=value] of the text; a name that is not a number stat is skipped. *)
Definition apply_entry (itemID : Z) (entry : string) (s : Scene) : option Scene :=
  match Split entry "=" with
  | n :: v :: _ =>
      match GetStatIndexByName tbl n with
      | Some index =>
          d ← tbl !! index;
          if isNumericalType d then AddItemStatMod itemID (ID d) (atof_float v) s else Some s
      | None => Some s
      end
  | _ => Some s
  end.

Fixpoint apply_entries (itemID : Z) (l : list string) (s : Scene) : option Scene :=
  match l with [] => Some s | e :: l' => s' ← apply_entry itemID e s; apply_entries itemID l' s' end.

Definition ApplyItemStatModFromConfig (itemID : Z) (configStr : string) (s : Scene) : option Scene :=
  apply_entries itemID (Split configStr "&") s.

Definition SubtractAbilityBuffStat (statID abgID amount_ : Z) (s : Scene) : option Scene :=
  s ← match _GetExistingModIndex BuffSource.ABILITY abgID statID (self s) with
      | None => Some s
      | Some r =>
          m ← activeStatMod (self s) !! r;
          let newAmount := float_sub (amount m) amount_ in
          let deplete := (statID =? STAT.BONUS_HEALTH) && float_ltb newAmount (float_of_int 1) in
          let m' := mkMod (priority m) (modStatID m) (abilityID m) (abilityGroupID m) newAmount newAmount
                      (if deplete then g_ServerTime else expireTime m)
                      (mod_tier m) (buffCategory m) (sourceType m) (sourceID m) in
          let s1 := on_self (set_mods (<[r := m']> (activeStatMod (self s)))) s in
          Some (if deplete then update_self (Z.lor CREATURE_UPDATE_MOD CREATURE_UPDATE_STAT) statID s1 else s1)
      end;
  match _GetBaseStatModIndex statID (self s) with
  | None => Some s
  | Some _ =>
      let s1 := on_self (on_base statID (fun b => set_total (float_sub (fModTotal b) amount_) b)) s in
      b ← find (fun b => StatID b =? statID) (baseStats (self s1));
      css' ← WriteValueToStat tbl (StatID b) (total b) (css (self s1));
      Some (on_self (set_css css') s1)
  end.

(** ** Removing modifiers

    [RemoveBuffIndex] on a modifier of the ability of the mount makes the rider
    dismount instead, and [Dismount] removes the buffs of that ability: the
    functions call each other, [depth] bounds how deep. Loops remove the modifiers
    that pass a test, by their index, until the index is past the end. *)

Definition Removal : Type := nat -> Scene -> Res Scene.

(** [acc] is what the loop remembers of the removed modifiers. *)
Fixpoint remove_loop {A} (RemoveBuffIndex : Removal) (fuel : nat) (test : ActiveStatMod -> bool)
  (note : ActiveStatMod -> A -> A) (pos : nat) (acc : A) (s : Scene) : Res (A * Scene) :=
  match fuel with
  | O => NoFuel
  | S fuel' =>
      match activeStatMod (self s) !! pos with
      | None => Ret (acc, s)
      | Some m =>
          if test m then
            s' ← RemoveBuffIndex pos s;
            remove_loop RemoveBuffIndex fuel' test note pos (note m acc) s'
          else remove_loop RemoveBuffIndex fuel' test note (S pos) acc s
      end
  end.

Definition RemoveBuffsFromAbility_with (rem : Removal) (fuel : nat) (ability : Z) (send : bool) (s : Scene)
  : Res Scene :=
  '(_, s) ← remove_loop rem fuel (fun m => abilityID m =? ability) (fun _ (_ : unit) => tt) 0 tt s;
  let s := on_self (fun c => set_buffs (RemoveBuff ability (buffManager c)) c) s in
  if send then lift (SendUpdatedBuffs s) else Ret s.

(** [_RemoveStatusList]. *)
Definition _RemoveStatusList (statusID : Z) (s : Scene) : option Scene :=
  match _HasStatusList statusID (self s) with
  | None => Some s
  | Some r =>
      let c := self s in
      c' ← _ClearStatusFlag statusID (set_status (delete r (activeStatusEffect c)) (statusEffects c) c);
      let s1 := update_self CREATURE_UPDATE_MOD 0 (on_self (fun _ => c') s) in
      if statusID =? StatusEffects.TRANSFORMED then CAF_Untransform s1 else Some s1
  end.

(** The packet of a dismount ([mount] 0). *)
Definition mount_packet (mount rider_ mount_ : Z) : list Z :=
  seal (PutByte 101 ++ PutShort 0 ++ PutByte mount ++ PutInteger rider_ ++ PutInteger mount_).

(** The first and second turn of [focus] go to the mount and back to the rider. *)
Definition Dismount_with (rem : Removal) (fuel : nat) (s : Scene) : Res (Scene * bool) :=
  let c := self s in
  if IsMountedMount c then Ret (s, false)
  else
    match MountedOn c with
    | None => Ret (s, false)
    | Some wasMounted =>
        s ← lift (focus wasMounted s);
        let s := on_self (fun m => set_mount (MountedOn m) None (MountAbilityId m) m) s in
        let def := CreatureDefID (self s) in
        let mountID := CreatureID (self s) in
        s ← lift (focus (CreatureID c) s);
        let s := on_self (fun r => set_mount None (MountedBy r) (MountAbilityId r) r) s in
        s ← lift (focus wasMounted s);
        s ← lift (_RemoveStatusList StatusEffects.CARRYING_RIDER s);
        s ← lift (focus (CreatureID c) s);
        s ← lift (_RemoveStatusList StatusEffects.MOUNTED s);
        s ← (match AbilityOnUse def with
             | Some ability =>
                 if 0 <? ability then RemoveBuffsFromAbility_with rem fuel ability true s else Ret s
             | None => Ret s
             end);
        let s := on_self (fun r => set_mount (MountedOn r) (MountedBy r) 0 r) s in
        Ret (broadcast (mount_packet 0 (CreatureID (self s)) mountID) s, true)
    end.

Fixpoint RemoveBuffIndex (fuel depth : nat) : Removal := fun index s =>
  match depth with
  | O => NoFuel
  | S depth' =>
      match activeStatMod (self s) !! index with
      | None => Undef
      | Some m =>
          if (abilityID m =? MountAbilityId (self s)) && IsMounted (self s) then
            '(s', _) ← Dismount_with (RemoveBuffIndex fuel depth') fuel s; Ret s'
          else
            s1 ← (if abilityID m =? 0 then Ret s else lift (ActivateAbility (abilityID m) s));
            match activeStatMod (self s1) !! index with
            | None => Undef
            | Some m1 =>
                let s2 := SubtractBaseStatMod (modStatID m1) (amount m1) s1 in
                Ret (on_self (fun c => set_mods (delete index (activeStatMod c)) c) s2)
            end
      end
  end.

Context (fuel : nat).

(** The rider is not mounted any more in the inner call. *)
Definition remove_index : Removal := RemoveBuffIndex fuel 2.

Definition Dismount : Scene -> Res (Scene * bool) := Dismount_with (RemoveBuffIndex fuel 1) fuel.

Definition remove_while {A} (test : ActiveStatMod -> bool) (note : ActiveStatMod -> A -> A) (acc : A)
  (s : Scene) : Res (A * Scene) := remove_loop remove_index fuel test note 0 acc s.

Definition RemoveStatModsBySource (buffSource : Z) (s : Scene) : Res Scene :=
  '(count, s) ← remove_while (fun m => sourceType m =? buffSource) (fun _ n => n + 1) 0 s;
  if 0 <? count then lift (SendUpdatedBuffs s) else Ret s.

Definition RemoveBuffsFromAbility : Z -> bool -> Scene -> Res Scene :=
  RemoveBuffsFromAbility_with remove_index fuel.

(** The end of [RemoveAllBuffs] and [RemoveAllBuffsExceptGroupID]. *)
Definition restore_bases (s : Scene) : option Scene :=
  css' ← write_bases fBaseVal (baseStats (self s)) (css (self s));
  Some (on_self (fun c => set_bases [] (set_css css' c)) s).

Definition RemoveAllBuffs (s : Scene) : Res Scene :=
  '(_, s) ← remove_while (fun _ => true) (fun _ (_ : unit) => tt) tt s; lift (restore_bases s).

Definition RemoveAllBuffsExceptGroupID (groupID : Z) (s : Scene) : Res Scene :=
  '(_, s) ← remove_while (fun m => negb (abilityGroupID m =? groupID)) (fun _ (_ : unit) => tt) tt s;
  lift (restore_bases s).

Definition RemoveAbilityBuffTypeExcept (category_ ability : Z) (s : Scene) : Res Scene :=
  if category_ =? 0 then Ret s
  else
    '(abilityCanceled, s) ← remove_while
      (fun m => (sourceType m =? BuffSource.ABILITY) && (buffCategory m =? category_) &&
                negb (abilityID m =? ability)) (fun _ (_ : bool) => true) false s;
    Ret (if (abilityCanceled : bool) then broadcast (PrepExt_AbilityEvent (CreatureID (self s)) ability INTERRUPTED) s
         else s).

Definition RemoveAbilityBuffWithStat (statID sign : Z) (s : Scene) : Res (Scene * bool) :=
  '(foundAbilityID, s) ← remove_while
    (fun m => (sourceType m =? BuffSource.ABILITY) && (modStatID m =? statID) &&
       ((float_ltb0 sign && float_ltb0 (amount m)) || (float_gtb0 sign && float_gtb0 (amount m))))
    (fun m _ => abilityID m) 0 s;
  if foundAbilityID =? 0 then Ret (s, false)
  else if existsb (fun m => (sourceType m =? BuffSource.ABILITY) && (abilityID m =? foundAbilityID))
            (activeStatMod (self s)) then Ret (s, false)
  else
    s ← lift (SendUpdatedBuffs
           (broadcast (PrepExt_AbilityEvent (CreatureID (self s)) foundAbilityID INTERRUPTED) s));
    Ret (s, true).

(** [CheckActiveStatusEffects]: status effects that have run out, then modifiers. *)
Fixpoint expire_effects (l : list ActiveStatusEffect) (c : Creature)
  : option (list ActiveStatusEffect * Creature * bool) :=
  match l with
  | [] => Some ([], c, false)
  | e :: l' =>
      if effect_expireTime e <=? g_ServerTime then
        c' ← _ClearStatusFlag (modStatusID e) c;
        '(kept, c'', _) ← expire_effects l' c'; Some (kept, c'', true)
      else '(kept, c', b) ← expire_effects l' c; Some (e :: kept, c', b)
  end.

Definition CheckActiveStatusEffects (s : Scene) : Res Scene :=
  '(kept, c, bUpdate) ← lift (expire_effects (activeStatusEffect (self s)) (self s));
  let s := on_self (fun _ => set_status kept (statusEffects c) c) s in
  s ← (if (bUpdate : bool) then lift (SendFlags s) else Ret s);
  '(expired, s) ← remove_while (fun m => expireTime m <=? g_ServerTime) (fun _ (_ : bool) => true) false s;
  if (expired : bool) then lift (SendUpdatedBuffs s) else Ret s.

(** [Add]: a buff of an ability, unless a stronger one of its type is running. *)
Definition put_off_timer (statID calcAmount : Z) (c : Creature) : Creature :=
  let t := u64 (g_ServerTime + 2000) in
  if float_ltb0 calcAmount then
    if statID =? STAT.MIGHT_REGEN then set_timers t (timer_willregen c) (timer_autoattack c) c
    else if statID =? STAT.WILL_REGEN then set_timers (timer_mightregen c) t (timer_autoattack c) c
    else if statID =? STAT.MELEE_ATTACK_SPEED then set_timers (timer_mightregen c) (timer_willregen c) t c
    else c
  else c.

Definition Add (tier category_ abID abgID statID calcAmount descAmount durationSec : Z) (s : Scene)
  : Res (Scene * Z) :=
  let '(m, r) := HasBuff g_ServerTime tier category_ (buffManager (self s)) in
  let s := on_self (set_buffs m) s in
  match r with
  | Some _ => Ret (s, -1)
  | None =>
      let s := on_self (put_off_timer statID calcAmount) s in
      s ← RemoveAbilityBuffTypeExcept category_ abID s;
      let c := self s in
      let '(m, activeBuff) := UpdateBuff g_ServerTime tier category_ abID abgID (decode durationSec)
                                (initialisingAbilities c) (buffManager c) in
      let s := on_self (set_buffs m) s in
      s ← lift (AddBuff BuffSource.ABILITY category_ tier abID abgID statID calcAmount descAmount
                  (float_of_int (durationS activeBuff)) s);
      if abgID =? 116 then
        match find (fun b => StatID b =? statID) (baseStats (self s)) with
        | None => Ret (s, 1)
        | Some b =>
            css' ← lift (WriteValueToStat tbl (StatID b) (total b) (css (self s)));
            Ret (on_self (set_css css') s, 1)
        end
      else Ret (s, 1)
  end.

Definition Nullify (tier category_ abID abgID statID duration : Z) (s : Scene) : Res Scene :=
  base ← lift (_GetBaseStat statID (self s));
  let amount := float_mul base (float_of_int (-1)) in
  '(s, _) ← Add tier category_ abID abgID statID amount amount (float_of_int duration) s; Ret s.

(** The sum of the modifiers of a stat that are not of the group, or the stat. *)
Definition _GetTotalStat (statID abilityGroup : Z) (c : Creature) : option Z :=
  let l := filter (fun m => modStatID m = statID) (activeStatMod c) in
  match l with
  | [] => GetStatValueByID tbl statID (css c)
  | _ => Some (foldl (fun t m => if abilityGroupID m =? abilityGroup then t else float_add t (amount m))
                 (float_of_int 0) l)
  end.

(** ** The pending updates are sent, and a creature is saved *)

Definition process_update (a : nat) (s : Scene) : option Scene :=
  u ← UpdateList s !! a;
  s ← (if Z.land (update_mask u) CREATURE_UPDATE_MOD =? 0 then Some s
       else s ← focus (update_object u) s; SendUpdatedBuffs s);
  u ← UpdateList s !! a;
  if (Z.land (update_mask u) CREATURE_UPDATE_STAT =? 0) || bool_decide (statUpdate u = []) then Some s
  else
    s ← focus (update_object u) s;
    packet ← PrepExt_SendSpecificStats tbl g_ProtocolVersion (CreatureID (self s)) (statUpdate u) (css (self s));
    let s := broadcast packet s in
    Some (set_updates (alter (fun u => mkUpdate (update_mask u) (update_object u) []) a (UpdateList s)) s).

Fixpoint process_updates (n a : nat) (s : Scene) : option Scene :=
  match n with O => Some s | S n' => s' ← process_update a s; process_updates n' (S a) s' end.

Definition UpdateList_Process (s : Scene) : option Scene :=
  s' ← process_updates (length (UpdateList s)) 0 s; Some (set_updates [] s').

(** The stats saved for a player: its own without the modifiers. *)
Definition saved_stats (cdef_css : CharacterStatSet) (c : Creature) : option CharacterStatSet :=
  css' ← CopyFrom tbl (css c) cdef_css; write_bases fBaseVal (baseStats c) css'.

End Mods.
