(* ===== verification/StatModsFacts.v ===== *)
(** * Stat modifiers: theorems

    However buffs, items and effects of the instance come and go, the entries of
    base values count the modifiers of each stat exactly, the stat shows its own
    value plus the sum of its modifiers, and it is its own value again when they
    are gone, also in what is saved. The removal of modifiers ends, except on a
    creature somebody rides. *)

From S2P Require Import Prelude ByteBuffer Messages Text Float StatTables Stats StatsFacts AbilityTime AbilityTimeFacts StatMods.

(** ** The value of a number stat *)

Section Value.
Context (tbl : list StatDefinition) (Htbl : table_okb tbl = true).

Definition numeric (id : Z) : Prop :=
  in_signed 16 id /\
  exists r d, GetStatIndex tbl id = Some r /\ tbl !! r = Some d /\ isNumericalType d = true.

Definition value_of (id : Z) (css : CharacterStatSet) : option Z := GetStatValueByID tbl id css.

(** What is read after a [float] has been written to a stat. *)
Definition stored (id x : Z) : Z :=
  match GetStatType tbl id with
  | SHORT => float_of_int (short_of_float x)
  | INTEGER => float_of_int (int_of_float x)
  | _ => x
  end.

Lemma read_low z old : i16 (i32 (old - u16 old + u16 z)) = i16 z.
Proof.
  rewrite <- (signed_unsigned 16 (i32 _)), low_half_of_int, write_short_low. apply signed_unsigned.
Qed.

(** A value written to a stat is read back, and other stats keep theirs. *)
Lemma write_value_spec id x css :
  numeric id -> css_ok css -> in_u32 x ->
  exists css', WriteValueToStat tbl id x css = Some css' /\ css_ok css' /\
    value_of id css' = Some (stored id x) /\
    forall id', GetStatIndex tbl id' <> GetStatIndex tbl id -> value_of id' css' = value_of id' css.
Proof.
  intros (_ & r & d & Hr & Hd & Hnum) Hc Hx.
  destruct (WriteValueToStat_ok tbl Htbl id x css Hc Hx) as (css' & Hw & Hc').
  exists css'. split_and!; [done|done|..].
  - destruct (entry_at tbl Htbl r d Hd) as (nm & m & Hm & Hty & _).
    destruct (css_lookup css _ _ _ Hc Hm) as (v & Hv & Hok).
    unfold WriteValueToStat in Hw. unfold value_of, GetStatValueByID, stored, GetStatType.
    rewrite Hr in Hw |- *. rewrite Hd in Hw |- *. cbn [mbind option_bind] in Hw |- *.
    unfold update_member in Hw. rewrite Hv in Hw. cbn [mbind option_bind] in Hw.
    pose proof (lookup_lt_Some _ _ _ Hv).
    unfold isNumericalType in Hnum.
    destruct (etype d), m, v; try done; cbn [write_short write_int write_float] in Hw; injection Hw as <-;
      match goal with |- context [<[?i:=?v]> ?l !! ?i] =>
        assert (<[i:=v]> l !! i = Some v) as -> by (by apply list_lookup_insert_eq) end;
      simpl; unfold short_of_float.
    + by rewrite signed_id by (lia || (apply signed_range; lia)).
    + by rewrite read_low, signed_id by (lia || (apply signed_range; lia)).
    + by rewrite i32_id by apply truncate_range.
    + done.
  - intros id' Hne. unfold WriteValueToStat in Hw. rewrite Hr, Hd in Hw. cbn [mbind option_bind] in Hw.
    unfold value_of, GetStatValueByID. destruct (GetStatIndex tbl id') as [r'|] eqn:Hr'; [|done].
    destruct (stat_index_entry tbl Htbl id' r' Hr') as (d' & Hd' & _). rewrite Hd'. cbn [mbind option_bind].
    unfold update_member in Hw. destruct (css !! offset d) as [v|]; [|done]. cbn [mbind option_bind] in Hw.
    destruct (match etype d with SHORT => _ | INTEGER => _ | FLOAT => _ | CSTRING => _ | STRING => _ end v)
      as [v'|]; [|done]. injection Hw as <-.
    assert (forall j, j <> offset d -> <[offset d:=v']> css !! j = css !! j) as Hother
      by (intros j Hj; by apply list_lookup_insert_ne).
    rewrite Hother; [done|]. intros E. apply Hne. rewrite Hr. f_equal.
    destruct (table_parts tbl Htbl) as (_ & _ & _ & Ho).
    apply (NoDup_lookup (offset <$> tbl) _ _ (offset d) Ho); rewrite list_lookup_fmap; [rewrite Hd'|rewrite Hd]; simpl; congruence.
Qed.

Lemma value_range id css x : css_ok css -> value_of id css = Some x -> numeric id -> in_u32 x.
Proof.
  intros Hc Hv (_ & r & d & Hr & Hd & Hnum). unfold value_of, GetStatValueByID in Hv.
  rewrite Hr, Hd in Hv. cbn [mbind option_bind] in Hv.
  destruct (entry_at tbl Htbl r d Hd) as (nm & m & Hm & Hty & _).
  destruct (css_lookup css _ _ _ Hc Hm) as (v & Hv' & Hok). rewrite Hv' in Hv. cbn [mbind option_bind] in Hv.
  unfold isNumericalType in Hnum.
  destruct (etype d), m, v; try done; simpl in Hv; injection Hv as <-; try apply float_of_int_range. done.
Qed.

(** A stat with a value its type holds exactly: an [int] of at most 24 bits. *)
Definition plain (id x : Z) : Prop := stored id x = x.

Lemma plain_value id css x :
  numeric id -> css_ok css -> value_of id css = Some x ->
  (GetStatType tbl id = INTEGER -> exists z, Z.abs z < 2 ^ 24 /\ x = float_of_int z) -> plain id x.
Proof.
  intros (_ & r & d & Hr & Hd & Hnum) Hc Hv Hint. unfold plain, stored.
  assert (GetStatType tbl id = etype d) as Ety by (unfold GetStatType; by rewrite Hr, Hd).
  rewrite Ety in Hint |- *. unfold isNumericalType in Hnum. destruct (etype d) eqn:Et; try done.
  - unfold value_of, GetStatValueByID in Hv. rewrite Hr, Hd in Hv. cbn [mbind option_bind] in Hv.
    destruct (entry_at tbl Htbl r d Hd) as (nm & m & Hm & Hty & _). rewrite Et in Hty, Hv.
    destruct (css_lookup css _ _ _ Hc Hm) as (v & Hv' & Hok). rewrite Hv' in Hv. cbn [mbind option_bind] in Hv.
    destruct m, v; try done; simpl in Hv; injection Hv as <-; rewrite short_of_float_of_int; try done.
    apply signed_range. lia.
  - destruct (Hint eq_refl) as (z & Hz & ->). by rewrite int_of_float_of_int.
Qed.

Lemma index_unique id id' : numeric id -> numeric id' -> GetStatIndex tbl id = GetStatIndex tbl id' -> id = id'.
Proof.
  intros (H1 & r & d & Hr & _) (H2 & r' & d' & Hr' & _) E. rewrite Hr, Hr' in E. injection E as <-.
  destruct (find_idx_lookup _ _ _ Hr) as (x & Hx & Ex). destruct (find_idx_lookup _ _ _ Hr') as (y & Hy & Ey).
  to_prop. rewrite signed_id in Ex, Ey by done. congruence.
Qed.

(** Values written to several stats. *)
Lemma write_bases_spec value l css :
  NoDup (StatID <$> l) -> (forall b, b ∈ l -> numeric (StatID b) /\ in_u32 (value b)) -> css_ok css ->
  exists css', write_bases tbl value l css = Some css' /\ css_ok css' /\
    (forall b, b ∈ l -> value_of (StatID b) css' = Some (stored (StatID b) (value b))) /\
    (forall s, numeric s -> ~ (s ∈ StatID <$> l) -> value_of s css' = value_of s css).
Proof.
  revert css. induction l as [|b l IH]; intros css Hnd Hl Hc; simpl.
  - exists css. split_and!; [done|done|by intros b ?%elem_of_nil|done].
  - apply list.NoDup_cons in Hnd as [Hb Hnd].
    destruct (Hl b ltac:(by left)) as [Hn Hv].
    destruct (write_value_spec (StatID b) (value b) css Hn Hc Hv) as (css1 & -> & Hc1 & Hv1 & Ho1).
    cbn [mbind option_bind].
    destruct (IH css1 Hnd) as (css' & -> & Hc' & Hin & Hout); [intros b' ?; apply Hl; by right|done|].
    exists css'. split_and!; [done|done|..].
    + intros b' [->|Hb']%elem_of_cons; [|by apply Hin]. rewrite Hout; [done|done|exact Hb].
    + intros s Hs Hnot. change (StatID <$> b :: l) with (StatID b :: (StatID <$> l)) in Hnot.
      rewrite elem_of_cons in Hnot. rewrite Hout by tauto. apply Ho1.
      intros E. apply Hnot. left. by apply index_unique.
Qed.

End Value.

(** ** Entries by their key *)

Lemma find_find_idx {A} (p : A -> bool) l : find p l = i ← find_idx p l; l !! i.
Proof.
  induction l as [|x l IH]; simpl; [done|]. destruct (p x); [done|].
  rewrite IH. by destruct (find_idx p l).
Qed.

(** With unique keys the entry that is found is the only one that changes. *)
Lemma alter_found {A} (key : A -> Z) (s : Z) (f : A -> A) l :
  NoDup (key <$> l) ->
  (match find_idx (fun x => key x =? s) l with Some i => alter f i l | None => l end) =
    (fun x => if key x =? s then f x else x) <$> l.
Proof.
  induction l as [|x l IH]; simpl; [done|]. intros [Hx Hnd]%list.NoDup_cons.
  destruct (key x =? s) eqn:E; to_prop.
  - change (alter f 0%nat (x :: l)) with (f x :: l). f_equal. symmetry. transitivity (id <$> l); [|apply list_fmap_id].
    apply list_fmap_ext. intros i y Hy. rewrite (proj2 (Z.eqb_neq _ _)); [done|].
    intros <-. apply Hx. rewrite E. apply list_elem_of_fmap. exists y. split; [done|by eapply list_elem_of_lookup_2].
  - change (match option_map S (find_idx (fun x => key x =? s) l) with Some i => alter f i (x :: l) | None => x :: l end =
      x :: ((fun x => if key x =? s then f x else x) <$> l)).
    rewrite <- (IH Hnd). by destruct (find_idx _ l).
Qed.

Lemma on_base_fmap s f c :
  NoDup (StatID <$> baseStats c) ->
  on_base s f c = set_bases ((fun b => if StatID b =? s then f b else b) <$> baseStats c) c.
Proof.
  intros Hnd. rewrite <- (alter_found StatID s f _ Hnd). unfold on_base, _GetBaseStatModIndex.
  destruct (find_idx _ _); [done|by destruct c].
Qed.

Lemma fmap_keys {A} (key : A -> Z) (g : A -> A) (l : list A) : (forall x, key (g x) = key x) -> key <$> (g <$> l) = key <$> l.
Proof. intros Hg. rewrite <- list_fmap_compose. apply list_fmap_ext. intros i x _. apply Hg. Qed.

(** ** Counts and sums of modifiers *)

Definition of_stat (s : Z) (f : ActiveStatMod -> Z) (m : ActiveStatMod) : Z :=
  if modStatID m =? s then f m else 0.

Definition count (s : Z) (l : list ActiveStatMod) : Z := sumZ (of_stat s (fun _ => 1)) l.
Definition sum (s : Z) (l : list ActiveStatMod) : Z := sumZ (of_stat s (fun m => int_of_float (amount m))) l.

Lemma count_nonneg s l : 0 <= count s l.
Proof. apply sumZ_nonneg, list.Forall_forall. intros m _. unfold of_stat. case_test; lia. Qed.

Lemma count_zero s l : count s l = 0 -> sum s l = 0 /\ forall m, m ∈ l -> modStatID m <> s.
Proof.
  unfold count, sum. induction l as [|m l IH]; simpl; [split; [done|by intros m ?%elem_of_nil]|].
  pose proof (count_nonneg s l) as Hn. unfold count in Hn. unfold of_stat at 1 3. intros H.
  destruct (modStatID m =? s) eqn:E; to_prop; [lia|]. destruct IH as [H1 H2]; [lia|]. split; [lia|].
  intros k [->|Hk]%elem_of_cons; [done|by apply H2].
Qed.

(** Amounts that are whole numbers of moderate size. *)
Definition small (x : Z) : Prop := exists a, Z.abs a <= 2 ^ 16 /\ x = float_of_int a.

Lemma small_int x : small x -> x = float_of_int (int_of_float x) /\ Z.abs (int_of_float x) <= 2 ^ 16.
Proof. intros (a & Ha & ->). rewrite int_of_float_of_int by lia. done. Qed.

Lemma small_range x : small x -> in_u32 x.
Proof. intros (a & _ & ->). apply float_of_int_range. Qed.

Lemma sum_bound s l :
  Forall (fun m => modStatID m = s -> small (amount m)) l -> Z.abs (sum s l) <= 2 ^ 16 * count s l.
Proof.
  unfold sum, count. induction 1 as [|m l Hm Hl IH]; simpl; [lia|].
  unfold of_stat at 1 3. destruct (modStatID m =? s) eqn:E; to_prop; [|lia].
  destruct (small_int _ (Hm E)). lia.
Qed.

(** ** The invariant *)

(** What an operation on modifiers leaves alone. *)
Definition same_place (s s' : Scene) : Prop :=
  others s' = others s /\ CreatureID (self s') = CreatureID (self s) /\
  MountedOn (self s') = MountedOn (self s) /\ MountedBy (self s') = MountedBy (self s) /\
  MountAbilityId (self s') = MountAbilityId (self s) /\
  length (statusEffects (self s')) = length (statusEffects (self s)).

#[export] Instance same_place_refl : Reflexive same_place.
Proof. by repeat split. Qed.
#[export] Instance same_place_trans : Transitive same_place.
Proof. intros a b c (? & ? & ? & ? & ? & ?) (? & ? & ? & ? & ? & ?). repeat split; congruence. Qed.

(** The event [onDeactivate] of an ability leaves the stats, the modifiers and who
    rides whom as they are (it ends status effects and appearances). *)
Definition keeps_stats (s s' : Scene) : Prop :=
  same_place s s' /\ css (self s') = css (self s) /\
  activeStatMod (self s') = activeStatMod (self s) /\ baseStats (self s') = baseStats (self s).

Class AbilityHostLaws `{AbilityHost} : Prop := {
  ActivateAbility_keeps a s : exists s', ActivateAbility a s = Some s' /\ keeps_stats s s' }.

Section Invariant.
Context (tbl : list StatDefinition) (Htbl : table_okb tbl = true) (Hzero : ~ numeric tbl 0).

(** The values of the stats without modifiers. *)
Context (orig : Z -> Z).

(** A stat whose value without modifiers its type holds exactly. *)
Definition modifiable (s : Z) : Prop := numeric tbl s /\ plain tbl s (orig s) /\ in_u32 (orig s).

#[local] Lemma modifiable_numeric s : modifiable s -> numeric tbl s.
Proof. by intros []. Qed.
#[local] Coercion modifiable_numeric : modifiable >-> numeric.

Definition mod_ok (m : ActiveStatMod) : Prop :=
  modStatID m = 0 \/
  (modifiable (modStatID m) /\ small (amount m)).

(** A base entry is exact: it keeps the value of the stat, counts its modifiers
    and holds their sum. *)
Definition base_ok (c : Creature) (b : BaseStatData) : Prop :=
  modifiable (StatID b) /\ fBaseVal b = orig (StatID b) /\
  RefCount b = count (StatID b) (activeStatMod c) /\
  fModTotal b = float_of_int (sum (StatID b) (activeStatMod c)).

Record inv (c : Creature) : Prop := {
  inv_css : css_ok (css c);
  inv_nodup : NoDup (StatID <$> baseStats c);
  inv_mods : Forall mod_ok (activeStatMod c);
  inv_room s : s <> 0 -> count s (activeStatMod c) < 128;
  inv_base b : b ∈ baseStats c -> base_ok c b;
  inv_free s : numeric tbl s -> ~ (s ∈ StatID <$> baseStats c) ->
    count s (activeStatMod c) = 0 /\ value_of tbl s (css c) = Some (orig s) }.

(** The invariant is about the stats, modifiers and base entries only. *)
Lemma inv_ext c c' :
  css c' = css c -> activeStatMod c' = activeStatMod c -> baseStats c' = baseStats c -> inv c -> inv c'.
Proof.
  intros E1 E2 E3 [I1 I2 I3 I4 I5 I6]. constructor; rewrite ?E1, ?E2, ?E3; try done.
  intros b Hb. unfold base_ok. rewrite E2. by apply I5.
Qed.

Lemma numeric_nonzero s : numeric tbl s -> s <> 0.
Proof. by intros Hs ->. Qed.

Lemma inv_small c s : inv c -> s <> 0 -> Forall (fun m => modStatID m = s -> small (amount m)) (activeStatMod c).
Proof.
  intros Hi Hs. eapply list.Forall_impl; [apply (inv_mods c Hi)|]. intros m [E|(_ & ?)] ?; [congruence|done].
Qed.

Lemma inv_sum_bound c s : inv c -> s <> 0 -> Z.abs (sum s (activeStatMod c)) < 2 ^ 23.
Proof.
  intros Hi Hs. pose proof (sum_bound s _ (inv_small c s Hi Hs)). pose proof (inv_room c Hi s Hs). lia.
Qed.

Lemma base_unique c b s : inv c -> b ∈ baseStats c -> StatID b = s ->
  forall b', b' ∈ baseStats c -> StatID b' = s -> b' = b.
Proof.
  intros Hi [i Hb]%list_elem_of_lookup E b' [j Hb']%list_elem_of_lookup E'.
  assert (j = i) as ->; [|congruence].
  apply (NoDup_lookup _ j i s (inv_nodup c Hi)); rewrite list_lookup_fmap; [rewrite Hb'|rewrite Hb]; simpl; congruence.
Qed.

(** The modifiers of one stat change by [dn] modifiers and [ds] in sum, and its base
    entry with them. *)
Lemma inv_change c c' s dn ds f :
  inv c ->
  css c' = css c -> Forall mod_ok (activeStatMod c') ->
  (forall s', s' <> 0 ->
     count s' (activeStatMod c') = count s' (activeStatMod c) + (if s' =? s then dn else 0) /\
     sum s' (activeStatMod c') = sum s' (activeStatMod c) + (if s' =? s then ds else 0)) ->
  baseStats c' = (fun b => if StatID b =? s then f b else b) <$> baseStats c ->
  (forall b, StatID (f b) = StatID b) ->
  (s ∈ StatID <$> baseStats c \/ s = 0 \/ ~ numeric tbl s \/ (dn = 0)) ->
  (s <> 0 -> count s (activeStatMod c) + dn < 128) ->
  (forall b, b ∈ baseStats c -> StatID b = s -> base_ok c b ->
     fBaseVal (f b) = fBaseVal b /\ RefCount (f b) = RefCount b + dn /\
     fModTotal (f b) = float_of_int (sum s (activeStatMod c) + ds)) ->
  inv c'.
Proof.
  intros Hi Ecss Hmods Hcs Ebase Hkey Hdn Hroom Hf.
  assert (forall b, StatID ((fun b => if StatID b =? s then f b else b) b) = StatID b) as Hk
    by (intros b; case_test; [apply Hkey|done]).
  constructor.
  - rewrite Ecss. apply Hi.
  - rewrite Ebase, fmap_keys by done. apply Hi.
  - done.
  - intros s' Hs'. destruct (Hcs s' Hs') as [-> _]. pose proof (inv_room c Hi s' Hs').
    destruct (s' =? s) eqn:E; to_prop; [subst; auto|lia].
  - rewrite Ebase. intros b' (b & -> & Hb)%list_elem_of_fmap. pose proof (inv_base c Hi b Hb) as Hok.
    pose proof Hok as (Hn & Hv & Hc & Ht). pose proof (numeric_nonzero _ Hn) as Hnz.
    destruct (Hcs (StatID b) Hnz) as [Hcb Hsb]. unfold base_ok. rewrite Hk.
    destruct (StatID b =? s) eqn:E; to_prop.
    + destruct (Hf b Hb E Hok) as (-> & -> & ->). rewrite Hcb, Hsb, Hc, E in *. split_and!; congruence.
    + rewrite Hcb, Hsb, !Z.add_0_r. done.
  - intros s' Hs' Hnot. rewrite Ebase, fmap_keys in Hnot by done.
    destruct (inv_free c Hi s' Hs' Hnot) as [Hc Hv]. rewrite Ecss. split; [|done].
    destruct (Hcs s' (numeric_nonzero _ Hs')) as [-> _]. rewrite Hc.
    destruct (s' =? s) eqn:E; to_prop; [|done]. subst s'.
    destruct Hdn as [?|[Hz|[?|Hz]]]; [done|by destruct (numeric_nonzero _ Hs')|done|by rewrite Hz].
Qed.


(** ** Adding a modifier *)

Lemma count_app s l m : count s (l ++ [m]) = count s l + (if s =? modStatID m then 1 else 0).
Proof. unfold count. rewrite sumZ_app. simpl. unfold of_stat at 2. rewrite Z.eqb_sym. case_test; lia. Qed.

Lemma sum_app s l m :
  sum s (l ++ [m]) = sum s l + (if s =? modStatID m then int_of_float (amount m) else 0).
Proof. unfold sum. rewrite sumZ_app. simpl. unfold of_stat at 2. rewrite Z.eqb_sym. case_test; lia. Qed.

Lemma no_base c s : _GetBaseStatModIndex s c = None <-> ~ (s ∈ StatID <$> baseStats c).
Proof.
  unfold _GetBaseStatModIndex. rewrite find_idx_None, list.Forall_forall, list_elem_of_fmap. split.
  - intros H (b & -> & Hb). specialize (H b Hb). simpl in H. by rewrite Z.eqb_refl in H.
  - intros H b Hb. simpl. apply Z.eqb_neq. intros E. apply H. by exists b.
Qed.

Lemma some_base c s i : _GetBaseStatModIndex s c = Some i -> s ∈ StatID <$> baseStats c.
Proof.
  intros (b & Hb & E)%find_idx_lookup. to_prop. subst s. apply list_elem_of_fmap. exists b.
  split; [done|by eapply list_elem_of_lookup_2].
Qed.

Definition is_mod (m : ActiveStatMod) (s a : Z) : Prop := modStatID m = s /\ amount m = a.

Lemma mod_ok_intro m s a :
  is_mod m s a -> modifiable s -> small a -> mod_ok m.
Proof. intros [<- <-] ??. by right. Qed.

(** The counts and sums after a modifier is pushed. *)
Lemma pushed_count m s a c :
  is_mod m s a -> forall s', count s' (activeStatMod c ++ [m]) = count s' (activeStatMod c) + (if s' =? s then 1 else 0) /\
     sum s' (activeStatMod c ++ [m]) = sum s' (activeStatMod c) + (if s' =? s then int_of_float a else 0).
Proof. intros [<- <-] s'. by rewrite count_app, sum_app. Qed.

Lemma inv_push_old m s a c f :
  inv c -> is_mod m s a -> modifiable s -> small a ->
  count s (activeStatMod c) < 127 -> s ∈ StatID <$> baseStats c ->
  f = (fun b => set_RefCount (RefCount b + 1) (set_total (float_add (fModTotal b) a) b)) ->
  inv (set_bases ((fun b => if StatID b =? s then f b else b) <$> baseStats c)
         (set_mods (activeStatMod c ++ [m]) c)).
Proof.
  intros Hi Hm Hn Ha Hroom Hin Ef. pose proof (numeric_nonzero s Hn) as Hnz.
  pose proof (mod_ok_intro m s a Hm Hn Ha) as Hok.
  destruct (small_int a Ha) as [Ea Hab]. pose proof (inv_sum_bound c s Hi Hnz) as Hsb.
  apply (inv_change c _ s 1 (int_of_float a) f Hi); [done| |intros s' _; by apply pushed_count|done| |by left|lia|].
  - apply list.Forall_app. split; [apply Hi|by constructor].
  - by rewrite Ef.
  - intros b Hb Eb (_ & _ & Hc & Ht). rewrite Ef. simpl. rewrite Hc, Ht, Eb. rewrite Ea at 1.
    pose proof (count_nonneg s (activeStatMod c)). split_and!; [done| |].
    + apply signed_id; [done|]. unfold in_signed. lia.
    + apply float_add_int; lia.
Qed.

Lemma inv_push_new m s a c ty :
  inv c -> is_mod m s a -> modifiable s -> small a ->
  ~ (s ∈ StatID <$> baseStats c) ->
  inv (set_bases (baseStats c ++ [mkBase s (orig s) a 1 ty]) (set_mods (activeStatMod c ++ [m]) c)).
Proof.
  intros Hi Hm Hn Ha Hnot. pose proof (numeric_nonzero s Hn) as Hnz.
  pose proof (mod_ok_intro m s a Hm Hn Ha) as Hok. destruct (small_int a Ha) as [Ea Hab].
  destruct (inv_free c Hi s Hn Hnot) as [Hc0 Hv]. destruct (count_zero s _ Hc0) as [Hs0 _].
  pose proof (pushed_count m s a c Hm) as Hcs.
  constructor; cbn [css activeStatMod baseStats set_bases set_mods].
  - apply Hi.
  - rewrite fmap_app. simpl. apply list.NoDup_app. split_and!; [apply Hi| |apply NoDup_singleton].
    intros k Hk ->%list_elem_of_singleton. done.
  - apply list.Forall_app. split; [apply Hi|by constructor].
  - intros s' Hs'. destruct (Hcs s') as [-> _]. pose proof (inv_room c Hi s' Hs').
    case_test; to_prop; [subst; lia|lia].
  - intros b [Hb| ->%list_elem_of_singleton]%elem_of_app.
    + pose proof (inv_base c Hi b Hb) as (H1 & H3 & H4 & H5).
      destruct (Hcs (StatID b)) as [E1 E2].
      assert ((StatID b =? s) = false) as Ene.
      { apply Z.eqb_neq. intros E. apply Hnot. rewrite <- E. by apply list_elem_of_fmap_2. }
      rewrite Ene in E1, E2. unfold base_ok. simpl. rewrite E1, E2, !Z.add_0_r. done.
    + destruct (Hcs s) as [E1 E2]. rewrite Z.eqb_refl in E1, E2.
      unfold base_ok. simpl. rewrite E1, E2, Hc0, Hs0. split_and!; [done..|]. exact Ea.
  - intros s' Hs' Hn'. rewrite fmap_app, elem_of_app in Hn'. simpl in Hn'. rewrite list_elem_of_singleton in Hn'.
    destruct (inv_free c Hi s' Hs') as [E Hv']; [tauto|]. split; [|done].
    destruct (Hcs s') as [-> _]. rewrite E, (proj2 (Z.eqb_neq s' s)); [done|tauto].
Qed.

Lemma AddBaseStatMod_spec m s a sc :
  inv (self sc) -> is_mod m s a -> modifiable s -> small a ->
  count s (activeStatMod (self sc)) < 127 ->
  exists sc', AddBaseStatMod tbl s a (PushStatMod m sc) = Some sc' /\ inv (self sc') /\
    activeStatMod (self sc') = activeStatMod (self sc) ++ [m] /\ css (self sc') = css (self sc) /\
    same_place sc sc'.
Proof.
  intros Hi Hm Hn Ha Hroom. set (c1 := set_mods (activeStatMod (self sc) ++ [m]) (self sc)).
  assert (self (PushStatMod m sc) = c1) as Ec1 by done.
  unfold AddBaseStatMod. rewrite Ec1. destruct (_GetBaseStatModIndex s c1) as [i|] eqn:Ei.
  - set (f := fun b => set_RefCount (RefCount b + 1) (set_total (float_add (fModTotal b) a) b)).
    set (sc' := update_self _ _ _). exists sc'. split; [done|].
    assert (self sc' = set_bases ((fun b => if StatID b =? s then f b else b) <$> baseStats (self sc)) c1) as Es
      by (exact (on_base_fmap s f c1 (inv_nodup _ Hi))).
    unfold same_place. rewrite Es. split; [|done].
    apply (inv_push_old m s a (self sc) f); try done. by apply some_base in Ei.
  - assert (~ (s ∈ StatID <$> baseStats (self sc))) as Hnot by (by apply no_base in Ei).
    destruct (inv_free _ Hi s Hn Hnot) as [_ Hv]. unfold value_of in Hv.
    assert (find (fun b => StatID b =? s) (baseStats (self sc)) = None) as Hfind.
    { rewrite find_find_idx. unfold _GetBaseStatModIndex in Ei. simpl in Ei. by rewrite Ei. }
    assert (forall core : bool, (if core then _GetBaseStat tbl s c1 else GetStatValueByID tbl s (css c1)) =
      Some (orig s)) as -> by (intros []; [unfold _GetBaseStat; simpl; by rewrite Hfind, Hv|exact Hv]).
    cbn [mbind option_bind]. eexists. split; [done|].
    rewrite (signed_id 16 s) by (done || apply Hn). split; [by apply (inv_push_new m s a (self sc))|done].
Qed.

(** ** Removing a modifier *)

Lemma count_delete s l i m : l !! i = Some m -> count s (delete i l) = count s l - (if s =? modStatID m then 1 else 0).
Proof. intros Hm. unfold count. rewrite (sumZ_delete _ _ _ _ Hm). f_equal. unfold of_stat. by rewrite Z.eqb_sym. Qed.

Lemma sum_delete s l i m :
  l !! i = Some m -> sum s (delete i l) = sum s l - (if s =? modStatID m then int_of_float (amount m) else 0).
Proof. intros Hm. unfold sum. rewrite (sumZ_delete _ _ _ _ Hm). f_equal. unfold of_stat. by rewrite Z.eqb_sym. Qed.

Lemma count_pos s l i m : l !! i = Some m -> modStatID m = s -> 0 < count s l.
Proof.
  intros Hm E. pose proof (count_delete s l i m Hm) as H. pose proof (count_nonneg s (delete i l)).
  rewrite E, Z.eqb_refl in H. lia.
Qed.

(** [RemoveBuffIndex] once it does not go another way. *)
Definition drop_mod (i : nat) (m : ActiveStatMod) (sc : Scene) : Scene :=
  on_self (fun c => set_mods (delete i (activeStatMod c)) c)
    (SubtractBaseStatMod (modStatID m) (amount m) sc).

Definition take_from (a : Z) (b : BaseStatData) : BaseStatData :=
  set_RefCount (RefCount b - 1) (set_total (float_sub (fModTotal b) a) b).

Lemma drop_mod_self i m sc :
  NoDup (StatID <$> baseStats (self sc)) ->
  self (drop_mod i m sc) =
    set_mods (delete i (activeStatMod (self sc)))
      (set_bases ((fun b => if StatID b =? modStatID m then take_from (amount m) b else b)
                  <$> baseStats (self sc)) (self sc)) /\
  same_place sc (drop_mod i m sc).
Proof.
  intros Hnd. pose proof (on_base_fmap (modStatID m) (take_from (amount m)) (self sc) Hnd) as E.
  unfold drop_mod, SubtractBaseStatMod, same_place.
  destruct (_GetBaseStatModIndex (modStatID m) (self sc)) as [k|] eqn:Ek.
  - cbn [self on_self update_self UpdateList_Add set_updates others].
    change (fun b => set_RefCount _ _) with (take_from (amount m)). rewrite E. done.
  - unfold on_base in E. rewrite Ek in E. cbn [self on_self]. rewrite <- E. done.
Qed.

Lemma drop_mod_inv i m sc :
  inv (self sc) -> activeStatMod (self sc) !! i = Some m -> inv (self (drop_mod i m sc)).
Proof.
  intros Hi Hm. destruct (drop_mod_self i m sc (inv_nodup _ Hi)) as [-> _].
  assert (mod_ok m) as Hok by (eapply Forall_lookup_1; [apply (inv_mods _ Hi)|exact Hm]).
  apply (inv_change (self sc) _ (modStatID m) (-1) (- int_of_float (amount m)) (take_from (amount m)) Hi); cbn [css set_mods set_bases activeStatMod baseStats].
  - done.
  - apply Forall_delete, Hi.
  - intros s' _. rewrite (count_delete _ _ _ _ Hm), (sum_delete _ _ _ _ Hm). case_test; lia.
  - done.
  - done.
  - destruct Hok as [E|(Hn & _)]; [by right; left|]. left.
    destruct (decide (modStatID m ∈ StatID <$> baseStats (self sc))) as [|Hnot]; [done|].
    destruct (inv_free _ Hi _ Hn Hnot) as [H0 _]. pose proof (count_pos _ _ _ _ Hm eq_refl). lia.
  - intros Hnz. pose proof (inv_room _ Hi _ Hnz). lia.
  - intros b Hb Eb (Hn & _ & Hc & Ht). destruct Hok as [E|(_ & Hs)];
      [by destruct (numeric_nonzero _ Hn); congruence|].
    destruct (small_int _ Hs) as [Ea Hab]. pose proof (numeric_nonzero _ Hn) as Hnz. rewrite Eb in Hnz.
    pose proof (inv_sum_bound _ _ Hi Hnz). pose proof (count_pos _ _ _ _ Hm eq_refl).
    pose proof (inv_room _ Hi _ Hnz). simpl. rewrite Hc, Ht, Eb. split_and!; [done| |].
    + apply signed_id; [done|]. unfold in_signed. lia.
    + rewrite Ea at 1. apply float_sub_int; lia.
Qed.

(** ** Replacing the amount of a modifier *)

Lemma inv_replace r m m' s a c f :
  inv c -> activeStatMod c !! r = Some m -> modStatID m = s -> is_mod m' s a ->
  modifiable s -> small a ->
  f = (fun b => set_total (float_add (float_sub (fModTotal b) (amount m)) a) b) ->
  inv (set_bases ((fun b => if StatID b =? s then f b else b) <$> baseStats c)
         (set_mods (<[r := m']> (activeStatMod c)) c)).
Proof.
  intros Hi Hm Hs Hm' Hn Ha Ef. pose proof (numeric_nonzero s Hn) as Hnz.
  pose proof (mod_ok_intro m' s a Hm' Hn Ha) as Hok'. destruct Hm' as [Hs' Ha'].
  assert (mod_ok m) as Hok by (eapply Forall_lookup_1; [apply (inv_mods _ Hi)|exact Hm]).
  assert (small (amount m)) as Hsm by (by destruct Hok as [E|(_ & ?)]; [congruence|]).
  apply (inv_change c _ s 0 (int_of_float a - int_of_float (amount m)) f Hi);
    cbn [css set_mods set_bases activeStatMod baseStats].
  - done.
  - apply Forall_insert; [apply Hi|done].
  - intros k _. unfold count, sum. rewrite !(sumZ_insert _ _ _ _ _ Hm). unfold of_stat.
    rewrite Hs, Hs', Ha', !(Z.eqb_sym s k). case_test; lia.
  - done.
  - by rewrite Ef.
  - by right; right; right.
  - intros _. pose proof (inv_room _ Hi _ Hnz). lia.
  - intros b Hb Eb (_ & _ & Hc & Ht). rewrite Ef. simpl. rewrite Ht, Eb. split_and!; [done|lia|].
    destruct (small_int _ Hsm) as [Em Hmb], (small_int _ Ha) as [Ea Hab].
    pose proof (inv_sum_bound _ _ Hi Hnz). rewrite Em at 1. rewrite float_sub_int by lia.
    rewrite Ea at 1. rewrite float_add_int by lia. f_equal. lia.
Qed.

Section Operations.
Context (g_ProtocolVersion : Z) (AbilityOnUse : Z -> option Z) `{AbilityHostLaws}.

(** What adding a modifier does: the invariant stays, and the stats do not change
    yet. *)
Definition adds (sc sc' : Scene) : Prop :=
  inv (self sc') /\ css (self sc') = css (self sc) /\ same_place sc sc'.

Lemma AddBuff_spec now src cat t id gid s a da d e sc :
  inv (self sc) -> modifiable s -> small a ->
  count s (activeStatMod (self sc)) < 127 -> expire_time now d = Some e ->
  exists sc', AddBuff tbl now src cat t id gid s a da d sc = Some sc' /\ adds sc sc'.
Proof.
  intros Hi Hn Ha Hroom He. unfold AddBuff. rewrite He. cbn [mbind option_bind].
  destruct (_GetExistingModIndex src gid s (self sc)) as [r|] eqn:Er.
  - destruct (find_idx_lookup _ _ _ Er) as (m & Hm & [_ Hp]%andb_true_iff). to_prop.
    rewrite Hm. cbn [mbind option_bind]. set (m' := mkMod _ _ _ _ _ _ _ _ _ _ _).
    set (f := fun b => set_total (float_add (float_sub (fModTotal b) (amount m)) a) b).
    set (c1 := set_mods (<[r := m']> (activeStatMod (self sc))) (self sc)).
    set (sc' := update_self _ _ _). exists sc'. split; [done|].
    assert (self sc' = set_bases ((fun b => if StatID b =? s then f b else b) <$> baseStats (self sc)) c1) as Es
      by (exact (on_base_fmap s f c1 (inv_nodup _ Hi))).
    unfold adds, same_place. rewrite Es. split; [|done].
    by apply (inv_replace r m m' s a (self sc) f).
  - set (m := mkMod _ _ _ _ _ _ _ _ _ _ _).
    destruct (AddBaseStatMod_spec m s a sc Hi) as (sc' & -> & Hi' & _ & Hcss & Hp); [|done..|].
    { split; [|done]. by apply signed_id, Hn. }
    cbn [mbind option_bind]. by eexists.
Qed.

Lemma AddItemStatMod_spec item s a sc :
  inv (self sc) -> modifiable s -> small a ->
  count s (activeStatMod (self sc)) < 127 ->
  exists sc', AddItemStatMod tbl item s a sc = Some sc' /\ adds sc sc'.
Proof.
  intros Hi Hn Ha Hroom. unfold AddItemStatMod.
  destruct (AddBaseStatMod_spec (mkMod 0 (i16 s) 0 0 a a MAX_TIME 0 0 BuffSource.ITEM item) s a sc Hi)
    as (sc' & -> & Hi' & _ & Hcss & Hp); [|done..|by eexists].
  split; [|done]. by apply signed_id, Hn.
Qed.

Lemma AddMod_spec now t cat ab gid d sc :
  inv (self sc) -> adds sc (AddMod now t cat ab gid d sc).1.
Proof.
  intros Hi. unfold AddMod. destruct (UpdateBuff _ _ _ _ _ _ _ _) as [bm buff]. simpl.
  set (m := mkMod _ _ _ _ _ _ _ _ _ _ _). split; [|done].
  apply (inv_change (self sc) _ 0 1 0 id Hi);
    cbn [css set_mods set_bases activeStatMod baseStats on_self self update_self UpdateList_Add set_updates PushStatMod set_buffs].
  - done.
  - apply list.Forall_app. split; [apply Hi|]. constructor; [by left|constructor].
  - intros k Hk. rewrite count_app, sum_app. simpl. by rewrite (proj2 (Z.eqb_neq k 0)).
  - symmetry. transitivity (id <$> baseStats (self sc)); [|apply list_fmap_id].
    apply list_fmap_ext. intros i x _. by case_test.
  - done.
  - by right; left.
  - done.
  - intros b Hb Eb (Hb1 & _). by destruct (numeric_nonzero _ Hb1).
Qed.

(** ** The stats show the totals *)


(** What a stat shows for modifiers: its own value, or with their sum. *)
Definition shown_total (l : list ActiveStatMod) (s : Z) : Z :=
  if count s l =? 0 then orig s else stored tbl s (float_add (orig s) (float_of_int (sum s l))).

(** The entries that are kept, and the values of those that are not. *)
Lemma check_removed_spec now l sc :
  NoDup (StatID <$> l) -> (forall b, b ∈ l -> modifiable (StatID b) /\ fBaseVal b = orig (StatID b)) ->
  css_ok (css (self sc)) ->
  exists sc', check_removed tbl now l sc = Some (filter (fun b => RefCount b <> 0) l, sc') /\
    css_ok (css (self sc')) /\ activeStatMod (self sc') = activeStatMod (self sc) /\
    baseStats (self sc') = baseStats (self sc) /\ same_place sc sc' /\
    (forall b, b ∈ l -> RefCount b = 0 -> value_of tbl (StatID b) (css (self sc')) = Some (orig (StatID b))) /\
    (forall s, numeric tbl s -> ~ (s ∈ StatID <$> filter (fun b => RefCount b = 0) l) ->
       value_of tbl s (css (self sc')) = value_of tbl s (css (self sc))).
Proof.
  revert sc. induction l as [|b l IH]; intros sc Hnd Hl Hc; cbn [check_removed].
  - exists sc. split_and!; [done..| |done]. by intros b ?%elem_of_nil.
  - apply list.NoDup_cons in Hnd as [Hb Hnd]. destruct (Hl b ltac:(by left)) as [Hn Hv].
    assert (forall b', b' ∈ l -> modifiable (StatID b') /\ fBaseVal b' = orig (StatID b')) as Hl' by (intros; apply Hl; by right).
    rewrite !filter_cons. destruct (RefCount b =? 0) eqn:E; to_prop.
    + set (s1 := update_self _ _ _).
      assert (css (self s1) = css (self sc) /\ activeStatMod (self s1) = activeStatMod (self sc) /\
        baseStats (self s1) = baseStats (self sc) /\ same_place sc s1) as (E1 & E2 & E3 & E4).
      { unfold s1, same_place. simpl. unfold restore_timers. by repeat case_match. }
      rewrite E1. pose proof Hn as (_ & Hp & Hr).
      destruct (write_value_spec tbl Htbl (StatID b) (fBaseVal b) (css (self sc)) Hn Hc) as (css1 & -> & Hc1 & Hv1 & Ho1);
        [by rewrite Hv|]. cbn [mbind option_bind].
      destruct (IH (on_self (set_css css1) s1) Hnd Hl' Hc1) as (sc' & -> & H1 & H2 & H3 & H4 & H5 & H6).
      rewrite decide_False, decide_True by tauto.
      exists sc'. split_and!; [done|done|by rewrite H2|by rewrite H3|by etransitivity; [exact E4|exact H4]|..].
      * intros b' [->|Hb']%elem_of_cons Hz; [|by apply H5]. rewrite H6; [|exact Hn|].
        { cbn [css self on_self set_css]. by rewrite Hv1, Hv, Hp. }
        intros (b'' & Eb & Hb'')%list_elem_of_fmap. apply Hb. rewrite Eb. apply list_elem_of_fmap_2.
        by apply list_elem_of_filter in Hb'' as [_ ?].
      * intros s Hs Hnot. set (zs := filter _ l) in Hnot.
        change (StatID <$> b :: zs) with (StatID b :: (StatID <$> zs)) in Hnot.
        apply not_elem_of_cons in Hnot as [Hne Hnot]. rewrite H6 by done. cbn [css self on_self set_css]. rewrite Ho1; [done|].
        intros Ei. apply Hne. exact (index_unique tbl _ _ Hs Hn Ei).
    + destruct (IH sc Hnd Hl' Hc) as (sc' & -> & H1 & H2 & H3 & H4 & H5 & H6). cbn [mbind option_bind].
      rewrite decide_True, decide_False by done. exists sc'. split_and!; try done.
      intros b' [->|Hb']%elem_of_cons Hz; [done|by apply H5].
Qed.

Lemma in_keys_dec {A} (key : A -> Z) s (l : list A) :
  (exists x, x ∈ l /\ key x = s) \/ ~ (s ∈ key <$> l).
Proof.
  destruct (decide (s ∈ key <$> l)) as [(x & -> & Hx)%list_elem_of_fmap|]; [left; by exists x|by right].
Qed.

Lemma not_in_filter {A} (key : A -> Z) (P : A -> Prop) `{!forall x, Decision (P x)} s (l : list A) :
  (forall x, x ∈ l -> key x = s -> ~ P x) -> ~ (s ∈ key <$> filter P l).
Proof.
  intros Hno (x & -> & [HP Hx]%list_elem_of_filter)%list_elem_of_fmap. by apply (Hno x).
Qed.

Lemma UpdateMods_defined now c : is_Some (PrepExt_UpdateMods tbl g_ProtocolVersion now c).
Proof.
  unfold PrepExt_UpdateMods. assert (forall l, is_Some (put_bases tbl l)) as Hb.
  { induction l as [|b l [rest IH]]; simpl; [by eexists|]. unfold WriteStatToBuffer.
    destruct (GetStatIndex tbl (StatID b)) as [r|] eqn:E; simpl; [|rewrite IH; by eexists].
    destruct (stat_index_entry tbl Htbl _ _ E) as (d & -> & _). simpl. rewrite IH. by eexists. }
  destruct (Hb (baseStats c)) as [data ->]. by eexists.
Qed.

Lemma shown_total_zero l s : count s l = 0 -> shown_total l s = orig s.
Proof. intros E. unfold shown_total. by rewrite E. Qed.

Lemma base_total c b : base_ok c b -> count (StatID b) (activeStatMod c) <> 0 ->
  stored tbl (StatID b) (total b) = shown_total (activeStatMod c) (StatID b).
Proof.
  intros (_ & Hv & _ & Ht) Hc. unfold shown_total, total. by rewrite Hv, Ht, (proj2 (Z.eqb_neq _ _)).
Qed.

Lemma SendUpdatedBuffs_spec now sc :
  inv (self sc) ->
  exists sc', SendUpdatedBuffs tbl g_ProtocolVersion now sc = Some sc' /\ inv (self sc') /\
    activeStatMod (self sc') = activeStatMod (self sc) /\ same_place sc sc' /\
    forall s, numeric tbl s -> value_of tbl s (css (self sc')) = Some (shown_total (activeStatMod (self sc)) s).
Proof.
  intros Hi. unfold SendUpdatedBuffs. set (c := self sc) in *. pose proof (inv_nodup c Hi) as Hnd.
  destruct (write_bases_spec tbl Htbl total (baseStats c) (css c) Hnd) as (css1 & -> & Hc1 & Hin1 & Hout1);
    [intros b Hb; split; [by apply (inv_base c Hi)|apply float_add_range]|apply Hi|].
  cbn [mbind option_bind]. unfold CheckRemovedBuffs. set (sc1 := on_self (set_css css1) sc).
  change (baseStats (self sc1)) with (baseStats c).
  destruct (check_removed_spec now (baseStats c) sc1 Hnd) as (sc2 & -> & Hc2 & Hm2 & Hb2 & Hp2 & Hz2 & Ho2);
    [intros b Hb; split; by apply (inv_base c Hi)|done|].
  cbn [mbind option_bind]. set (kept := filter _ _). set (sc3 := on_self (set_bases kept) sc2).
  destruct (UpdateMods_defined now (self sc3)) as [packet Hpk]. rewrite Hpk. cbn [mbind option_bind].
  change (self sc1) with (set_css css1 c) in *. cbn [css set_css activeStatMod baseStats] in *.
  assert (forall s, numeric tbl s -> value_of tbl s (css (self sc3)) = Some (shown_total (activeStatMod c) s)) as Hval.
  { intros s Hs. change (css (self sc3)) with (css (self sc2)).
    destruct (in_keys_dec StatID s (baseStats c)) as [(b & Hb & <-)|Hnot].
    - pose proof (inv_base c Hi b Hb) as Hok. pose proof Hok as (_ & _ & Hr & _).
      destruct (decide (RefCount b = 0)) as [E|E].
      + rewrite (Hz2 b Hb E), shown_total_zero by congruence. done.
      + rewrite Ho2, (Hin1 b Hb), (base_total c b Hok); [done|congruence|done|].
        apply not_in_filter. intros b' Hb' Eb'. by rewrite (base_unique c b _ Hi Hb eq_refl b' Hb' Eb').
    - destruct (inv_free c Hi s Hs Hnot) as [E Hv]. rewrite shown_total_zero by done.
      rewrite Ho2, Hout1 by (done || (apply not_in_filter; intros b Hb <-; destruct Hnot; by apply list_elem_of_fmap_2)).
      done. }
  exists (broadcast packet sc3). split_and!; [done| |exact Hm2|exact Hp2|exact Hval].
  change (self (broadcast packet sc3)) with (set_bases kept (self sc2)).
  constructor; cbn [css set_bases activeStatMod baseStats]; rewrite ?Hm2; [done| |apply Hi|apply Hi|..].
  - eapply sublist_NoDup; [exact Hnd|apply fmap_sublist, sublist_filter].
  - intros b [_ Hb]%list_elem_of_filter. pose proof (inv_base c Hi b Hb) as Hok. unfold base_ok in *. simpl. by rewrite Hm2.
  - intros s Hs Hnot. assert (count s (activeStatMod c) = 0) as E.
    { destruct (in_keys_dec StatID s (baseStats c)) as [(b & Hb & <-)|Hn]; [|by apply (inv_free c Hi)].
      pose proof (inv_base c Hi b Hb) as (_ & _ & Hr & _). rewrite <- Hr.
      destruct (decide (RefCount b = 0)); [done|]. destruct Hnot. apply list_elem_of_fmap_2. by apply list_elem_of_filter. }
    split; [done|]. rewrite <- (shown_total_zero _ s E). by apply Hval.
Qed.

(** ** Removing modifiers *)

(** The creatures of a scene: nobody rides this one, who may ride another. *)
Record scene_ok (sc : Scene) : Prop := {
  ok_others id c : others sc !! id = Some c ->
    CreatureID c = id /\ id <> CreatureID (self sc) /\ length (statusEffects c) = 3%nat;
  ok_status : length (statusEffects (self sc)) = 3%nat;
  ok_mount w : MountedOn (self sc) = Some w -> is_Some (others sc !! w);
  ok_by : MountedBy (self sc) = None }.

Definition good (sc : Scene) : Prop := inv (self sc) /\ scene_ok sc.

Lemma same_place_ok sc sc' : same_place sc sc' -> scene_ok sc -> scene_ok sc'.
Proof.
  intros (E1 & E2 & E3 & E4 & E5 & E6) [O1 O2 O3 O4]. constructor; rewrite ?E1, ?E2, ?E3, ?E4, ?E6; done.
Qed.

Lemma same_place_rider sc sc' : same_place sc sc' -> IsRider (self sc') = IsRider (self sc).
Proof. intros (_ & _ & E & _). unfold IsRider. by rewrite E. Qed.

Lemma keeps_inv sc sc' : keeps_stats sc sc' -> inv (self sc) -> inv (self sc').
Proof. intros (_ & E1 & E2 & E3). by apply inv_ext. Qed.

Lemma not_mounted sc : scene_ok sc -> IsMounted (self sc) = IsRider (self sc).
Proof.
  intros Hok. unfold IsMounted, IsRider. rewrite (ok_by _ Hok). rewrite orb_comm. done.
Qed.

(** [RemoveBuffIndex] for a creature that is not a rider. *)
Definition removed (i : nat) (sc sc' : Scene) : Prop :=
  inv (self sc') /\ activeStatMod (self sc') = delete i (activeStatMod (self sc)) /\
  css (self sc') = css (self sc) /\ same_place sc sc'.

Context (now : Z).
Abbreviation RemoveBuffIndex := (RemoveBuffIndex tbl g_ProtocolVersion now AbilityOnUse).
Abbreviation Dismount_with := (Dismount_with tbl g_ProtocolVersion now AbilityOnUse).
Abbreviation RemoveBuffsFromAbility_with := (RemoveBuffsFromAbility_with tbl g_ProtocolVersion now).

Lemma RemoveBuffIndex_plain fuel depth i m sc :
  inv (self sc) -> activeStatMod (self sc) !! i = Some m ->
  (abilityID m =? MountAbilityId (self sc)) && IsMounted (self sc) = false ->
  exists sc', RemoveBuffIndex fuel (S depth) i sc = Ret sc' /\ removed i sc sc'.
Proof.
  intros Hi Hm Hno. cbn [StatMods.RemoveBuffIndex]. rewrite Hm, Hno.
  assert (exists s1, (if abilityID m =? 0 then Ret sc else lift (ActivateAbility (abilityID m) sc)) = Ret s1 /\
    keeps_stats sc s1) as (s1 & -> & Hk).
  { destruct (abilityID m =? 0); [exists sc; by repeat split|].
    destruct (ActivateAbility_keeps (abilityID m) sc) as (s1 & -> & Hk). by exists s1. }
  pose proof (keeps_inv _ _ Hk Hi) as Hi1. destruct Hk as (Hp & E1 & E2 & E3).
  cbn [mbind Res_bind]. rewrite E2, Hm. eexists. split; [done|].
  change (on_self _ (SubtractBaseStatMod (modStatID m) (amount m) s1)) with (drop_mod i m s1).
  assert (activeStatMod (self s1) !! i = Some m) as Hm1 by (by rewrite E2).
  destruct (drop_mod_self i m s1 (inv_nodup _ Hi1)) as [Es Hp1].
  split_and!; [by apply drop_mod_inv|by rewrite Es, <- E2|by rewrite Es, <- E1|by etransitivity].
Qed.

Lemma remove_loop_plain {A} fuel depth test (note : ActiveStatMod -> A -> A) f pos acc sc :
  inv (self sc) -> scene_ok sc -> IsRider (self sc) = false ->
  (length (activeStatMod (self sc)) - pos < f)%nat ->
  exists acc' sc', remove_loop (RemoveBuffIndex fuel (S depth)) f test note pos acc sc = Ret (acc', sc') /\
    inv (self sc') /\ css (self sc') = css (self sc) /\ same_place sc sc' /\
    activeStatMod (self sc') = take pos (activeStatMod (self sc)) ++
      filter (fun m => test m = false) (drop pos (activeStatMod (self sc))).
Proof.
  revert pos acc sc. induction f as [|f IH]; intros pos acc sc Hi Hok Hr Hf; [lia|]. cbn [remove_loop].
  destruct (activeStatMod (self sc) !! pos) as [m|] eqn:Em.
  - pose proof (lookup_lt_Some _ _ _ Em) as Hlt. destruct (test m) eqn:Et.
    + destruct (RemoveBuffIndex_plain fuel depth pos m sc Hi Em) as (s1 & -> & Hi1 & Em1 & Ec1 & Hp1);
        [rewrite not_mounted, Hr by done; apply andb_false_r|]. cbn [mbind Res_bind].
      destruct (IH pos (note m acc) s1 Hi1) as (acc' & sc' & -> & Hi' & Ec' & Hp' & Em');
        [by eapply same_place_ok|by rewrite (same_place_rider _ _ Hp1)|rewrite Em1, length_delete by (by eexists); lia|].
      exists acc', sc'. split_and!; [done|done|congruence|by etransitivity|]. rewrite Em', Em1.
      rewrite delete_take_drop, take_app_le, drop_app_ge, length_take by (rewrite length_take; lia).
      rewrite take_take, Nat.min_id, drop_drop. replace (pos - min pos (length _))%nat with 0%nat by lia.
      rewrite (drop_S _ _ _ Em), filter_cons, decide_False by (by rewrite Et). by rewrite Nat.add_0_r.
    + destruct (IH (S pos) acc sc Hi Hok Hr ltac:(lia)) as (acc' & sc' & -> & Hi' & Ec' & Hp' & Em').
      exists acc', sc'. split_and!; try done. rewrite Em', (take_S_r _ _ _ Em), <- app_assoc.
      rewrite (drop_S _ _ _ Em), filter_cons, decide_True by done. done.
  - exists acc, sc. split_and!; try done. apply lookup_ge_None in Em.
    rewrite take_ge, drop_ge by lia. simpl. by rewrite app_nil_r.
Qed.

(** ** Dismounting *)

(** Going to another creature and back. *)
Lemma focus_there w sc c :
  scene_ok sc -> others sc !! w = Some c ->
  focus w sc = Some (mkScene c (<[CreatureID (self sc) := self sc]> (delete w (others sc))) (UpdateList sc) (sent sc)).
Proof.
  intros Hok Hw. destruct (ok_others _ Hok w c Hw) as (E & Hne & _). unfold focus.
  rewrite (proj2 (Z.eqb_neq w _)) by done. rewrite Hw. done.
Qed.

Lemma focus_back w sc s1 :
  scene_ok sc -> is_Some (others sc !! w) -> CreatureID (self s1) = w ->
  others s1 = <[CreatureID (self sc) := self sc]> (delete w (others sc)) ->
  focus (CreatureID (self sc)) s1 =
    Some (mkScene (self sc) (<[w := self s1]> (others sc)) (UpdateList s1) (sent s1)).
Proof.
  intros Hok [c Hw] E1 E2. destruct (ok_others _ Hok w c Hw) as (E & Hne & _). unfold focus.
  rewrite (proj2 (Z.eqb_neq _ (CreatureID (self s1)))) by congruence.
  rewrite E2, lookup_insert_eq. cbn [mbind option_bind]. do 2 f_equal. rewrite E1.
  assert (others sc !! CreatureID (self sc) = None) as Hnone.
  { destruct (others sc !! CreatureID (self sc)) as [c'|] eqn:Ec; [|done].
    by destruct (ok_others _ Hok _ c' Ec) as (_ & ? & _). }
  rewrite delete_insert_id by (by rewrite lookup_delete_ne).
  apply map_eq. intros k. destruct (decide (k = w)) as [->|Hk]; [by rewrite !lookup_insert_eq|].
  by rewrite !lookup_insert_ne, lookup_delete_ne.
Qed.

(** Ending the status of riding or carrying. *)
Lemma RemoveStatus_mounted s sc :
  s = StatusEffects.CARRYING_RIDER \/ s = StatusEffects.MOUNTED ->
  length (statusEffects (self sc)) = 3%nat ->
  exists sc', _RemoveStatusList s sc = Some sc' /\ keeps_stats sc sc'.
Proof.
  intros Hs Hl. unfold _RemoveStatusList. destruct (_HasStatusList s (self sc)) as [r|]; [|by exists sc].
  assert (forall c, length (statusEffects c) = 3%nat -> exists c', _ClearStatusFlag s c = Some c' /\
    c' = set_status (activeStatusEffect c) (statusEffects c') c /\ length (statusEffects c') = 3%nat) as Hclear.
  { intros c Hc. unfold _ClearStatusFlag, change_flag.
    assert (exists e, (if s <? 0 then None else StatusEffectBitData !! Z.to_nat s) = Some e /\ arrayIndex e = 2) as (e & -> & Ee)
      by (destruct Hs as [->| ->]; eexists; split; vm_compute; reflexivity).
    cbn [mbind option_bind]. rewrite Ee. destruct (lookup_lt_is_Some_2 (statusEffects c) (Z.to_nat 2)) as [w Hw]; [lia|].
    rewrite Hw. cbn [mbind option_bind]. eexists. split; [done|]. split; [done|]. simpl. by rewrite length_insert. }
  destruct (Hclear (set_status (delete r (activeStatusEffect (self sc))) (statusEffects (self sc)) (self sc)) Hl)
    as (c' & -> & Ec & Hlc). cbn [mbind option_bind].
  assert ((s =? StatusEffects.TRANSFORMED) = false) as -> by (by destruct Hs as [->| ->]).
  eexists. split; [done|]. rewrite Ec. unfold keeps_stats, same_place. simpl. by rewrite Hlc, Hl.
Qed.

Lemma RemoveBuffsFromAbility_plain fuel depth f a send sc :
  inv (self sc) -> scene_ok sc -> IsRider (self sc) = false -> (length (activeStatMod (self sc)) < f)%nat ->
  exists sc', RemoveBuffsFromAbility_with (RemoveBuffIndex fuel (S depth)) f a send sc = Ret sc' /\
    inv (self sc') /\ same_place sc sc' /\
    activeStatMod (self sc') = filter (fun m => (abilityID m =? a) = false) (activeStatMod (self sc)).
Proof.
  intros Hi Hok Hr Hf. unfold StatMods.RemoveBuffsFromAbility_with.
  destruct (remove_loop_plain fuel depth (fun m => abilityID m =? a) (fun _ _ => tt) f 0 tt sc Hi Hok Hr)
    as (acc & s1 & -> & Hi1 & _ & Hp1 & Em1); [lia|].
  cbn [mbind Res_bind]. set (s2 := on_self _ s1).
  assert (inv (self s2)) as Hi2 by (by eapply inv_ext; [..|exact Hi1]).
  assert (same_place sc s2) as Hp2 by (by etransitivity; [exact Hp1|]).
  destruct send; [|by exists s2].
  destruct (SendUpdatedBuffs_spec now s2 Hi2) as (s3 & -> & Hi3 & Em3 & Hp3 & _). exists s3.
  split_and!; [done|done|by etransitivity|]. by rewrite Em3.
Qed.

Lemma scene_ok_mount w m r sc u p :
  scene_ok sc -> is_Some (others sc !! w) -> CreatureID m = w -> length (statusEffects m) = 3%nat ->
  CreatureID r = CreatureID (self sc) -> length (statusEffects r) = 3%nat -> MountedBy r = None ->
  MountedOn r = None -> scene_ok (mkScene r (<[w := m]> (others sc)) u p).
Proof.
  intros Hok [c Hw] Em Hlm Er Hlr Hby Hon. destruct (ok_others _ Hok w c Hw) as (_ & Hne & _).
  constructor; cbn [self others]; try done; [|by rewrite Hon].
  intros id c' [[<- <-]|[Hid Hc']]%lookup_insert_Some; rewrite Er; [done|by apply (ok_others _ Hok)].
Qed.

(** The mount is free, the rider on foot and without the buffs of the mount. *)
Lemma Dismount_spec fuel depth f w sc :
  good sc -> MountedOn (self sc) = Some w -> (length (activeStatMod (self sc)) < f)%nat ->
  exists sc', Dismount_with (RemoveBuffIndex fuel (S depth)) f sc = Ret (sc', true) /\ good sc' /\
    IsRider (self sc') = false /\ sublist (activeStatMod (self sc')) (activeStatMod (self sc)) /\
    CreatureID (self sc') = CreatureID (self sc).
Proof.
  intros [Hi Hok] Hon Hf. destruct (ok_mount _ Hok w Hon) as [c Hw]. pose proof Hw as Hsome%mk_is_Some.
  destruct (ok_others _ Hok w c Hw) as (Ec & Hne & Hlc).
  unfold StatMods.Dismount_with, IsMountedMount. rewrite (ok_by _ Hok), bool_decide_false, Hon by (by intros []).
  rewrite (focus_there w sc c Hok Hw). cbn [lift mbind Res_bind]. set (s2 := on_self _ _).
  rewrite (focus_back w sc s2 Hok Hsome Ec eq_refl). cbn [lift mbind Res_bind]. set (s4 := on_self _ _).
  assert (scene_ok s4) as Hok4 by (by apply scene_ok_mount; try done; [apply Hok|apply (ok_by _ Hok)]).
  assert (others s4 !! w = Some (self s2)) as Hw4 by (simpl; apply lookup_insert_eq).
  rewrite (focus_there w s4 _ Hok4 Hw4). cbn [lift mbind Res_bind]. set (s5 := mkScene _ _ _ _).
  destruct (RemoveStatus_mounted StatusEffects.CARRYING_RIDER s5 (or_introl eq_refl) Hlc) as (s6 & -> & Hk6).
  cbn [lift mbind Res_bind]. destruct Hk6 as ((Eo6 & Eid6 & Eon6 & Eby6 & _ & El6) & _).
  change (CreatureID (self sc)) with (CreatureID (self s4)).
  rewrite (focus_back w s4 s6 Hok4 (mk_is_Some _ _ Hw4)) by (rewrite ?Eid6, ?Eo6; done).
  cbn [lift mbind Res_bind]. set (s7 := mkScene _ _ _ _).
  assert (scene_ok s7) as Hok7.
  { apply (scene_ok_mount w (self s6) (self s4) s4); [done|by eexists|by rewrite Eid6|by rewrite El6|done|apply Hok|apply (ok_by _ Hok)|done]. }
  destruct (RemoveStatus_mounted StatusEffects.MOUNTED s7 (or_intror eq_refl) (ok_status _ Hok7)) as (s8 & -> & Hk8).
  cbn [lift mbind Res_bind].
  assert (inv (self s8)) as Hi8 by (apply (keeps_inv s7 s8 Hk8); by eapply inv_ext; [..|exact Hi]).
  destruct Hk8 as (Hp8 & _ & Em8 & _). pose proof (same_place_ok _ _ Hp8 Hok7) as Hok8.
  pose proof (same_place_rider _ _ Hp8) as Hr8. change (IsRider (self s7)) with false in Hr8.
  change (activeStatMod (self s7)) with (activeStatMod (self sc)) in Em8.
  set (r9 := match AbilityOnUse _ with Some _ => _ | None => _ end).
  assert (exists s9, r9 = Ret s9 /\ inv (self s9) /\ same_place s8 s9 /\
    sublist (activeStatMod (self s9)) (activeStatMod (self sc))) as (s9 & -> & Hi9 & Hp9 & Hs9).
  { unfold r9. destruct (AbilityOnUse _) as [a|]; [|exists s8; by rewrite Em8].
    destruct (0 <? a); [|exists s8; by rewrite Em8].
    destruct (RemoveBuffsFromAbility_plain fuel depth f a true s8 Hi8 Hok8 Hr8) as (s9 & -> & ? & ? & Em9);
      [by rewrite Em8|]. exists s9. split_and!; [done..|]. rewrite Em9, Em8. apply sublist_filter. }
  cbn [mbind Res_bind]. eexists. split; [done|].
  pose proof (same_place_ok _ _ Hp9 Hok8) as [O1 O2 O3 O4]. pose proof (same_place_rider _ _ Hp9) as Hr9.
  split_and!; [split; [by eapply inv_ext; [..|exact Hi9]|by constructor]|by rewrite <- Hr8, <- Hr9|exact Hs9|].
  destruct Hp9 as (_ & E9 & _), Hp8 as (_ & E8 & _). simpl. by rewrite E9, E8.
Qed.

(** ** Any removal ends *)

(** A rider may dismount once. *)
Definition rank (sc : Scene) : nat := if IsRider (self sc) then 1 else 0.

(** What a removal promises: it keeps [good] and takes modifiers away. *)
Definition removes (sc sc' : Scene) : Prop :=
  good sc' /\ sublist (activeStatMod (self sc')) (activeStatMod (self sc)) /\
  CreatureID (self sc') = CreatureID (self sc).

Lemma removes_refl sc : good sc -> removes sc sc.
Proof. intros Hg. split_and!; [done|reflexivity|done]. Qed.

Lemma removes_trans a b c : removes a b -> removes b c -> removes a c.
Proof. intros (? & S1 & E1) (? & S2 & E2). split_and!; [done|by etransitivity|congruence]. Qed.

Lemma RemoveBuffIndex_spec fuel depth i m sc :
  good sc -> activeStatMod (self sc) !! i = Some m -> (length (activeStatMod (self sc)) < fuel)%nat ->
  exists sc', RemoveBuffIndex fuel (S (S depth)) i sc = Ret sc' /\ removes sc sc' /\
    (rank sc' <= rank sc /\ rank sc' + length (activeStatMod (self sc')) < rank sc + length (activeStatMod (self sc)))%nat.
Proof.
  intros [Hi Hok] Hm Hf. destruct ((abilityID m =? MountAbilityId (self sc)) && IsMounted (self sc)) eqn:E.
  - pose proof E as [_ Hr]%andb_true_iff. rewrite not_mounted in Hr by done.
    assert (exists w, MountedOn (self sc) = Some w) as [w Hw].
    { unfold IsRider in Hr. apply bool_decide_eq_true in Hr as [w Hw]. by exists w. }
    destruct (Dismount_spec fuel depth fuel w sc (conj Hi Hok) Hw Hf) as (sc' & Ed & Hg & Hr' & Hs & Eid).
    change (StatMods.RemoveBuffIndex tbl g_ProtocolVersion now AbilityOnUse fuel (S (S depth)) i sc) with
      (match activeStatMod (self sc) !! i with
       | None => Undef
       | Some m =>
           if (abilityID m =? MountAbilityId (self sc)) && IsMounted (self sc) then
             '(s', _) ← Dismount_with (RemoveBuffIndex fuel (S depth)) fuel sc; Ret s'
           else
             s1 ← (if abilityID m =? 0 then Ret sc else lift (ActivateAbility (abilityID m) sc));
             match activeStatMod (self s1) !! i with
             | None => Undef
             | Some m1 =>
                 Ret (on_self (fun c => set_mods (delete i (activeStatMod c)) c)
                        (SubtractBaseStatMod (modStatID m1) (amount m1) s1))
             end
       end).
    rewrite Hm, E, Ed. cbn [mbind Res_bind]. exists sc'. split; [done|]. split; [by split_and!|].
    unfold rank. rewrite Hr, Hr'. apply sublist_length in Hs. lia.
  - destruct (RemoveBuffIndex_plain fuel (S depth) i m sc Hi Hm E) as (sc' & -> & Hi' & Em & _ & Hp).
    exists sc'. unfold removes, good, rank. rewrite (same_place_rider _ _ Hp), Em.
    split; [done|]. split.
    { split_and!; [done|by eapply same_place_ok|apply sublist_delete|by destruct Hp as (_ & ? & _)]. }
    rewrite length_delete by (by eexists). apply lookup_lt_Some in Hm. lia.
Qed.

Lemma remove_loop_spec {A} fuel depth test (note : ActiveStatMod -> A -> A) f pos acc sc :
  good sc -> (length (activeStatMod (self sc)) < fuel)%nat ->
  (rank sc + (length (activeStatMod (self sc)) - pos) < f)%nat ->
  exists acc' sc', remove_loop (RemoveBuffIndex fuel (S (S depth))) f test note pos acc sc = Ret (acc', sc') /\
    removes sc sc' /\ ((forall m, test m = true) -> pos = 0%nat -> activeStatMod (self sc') = []).
Proof.
  revert pos acc sc. induction f as [|f IH]; intros pos acc sc Hg Hf1 Hf; [lia|]. cbn [remove_loop].
  destruct (activeStatMod (self sc) !! pos) as [m|] eqn:Em.
  - pose proof (lookup_lt_Some _ _ _ Em) as Hlt. destruct (test m) eqn:Et.
    + destruct (RemoveBuffIndex_spec fuel depth pos m sc Hg Em Hf1) as (s1 & -> & Hrem & Hrank & Hlen).
      cbn [mbind Res_bind]. pose proof Hrem as (Hg1 & Hs1 & _). apply sublist_length in Hs1.
      destruct (IH pos (note m acc) s1 Hg1) as (acc' & sc' & -> & Hrem' & Hall); [lia|lia|].
      exists acc', sc'. split_and!; [done|by eapply removes_trans|done].
    + destruct (IH (S pos) acc sc Hg Hf1 ltac:(lia)) as (acc' & sc' & -> & Hrem' & Hall).
      exists acc', sc'. split_and!; [done|done|]. intros Ht. by rewrite Ht in Et.
  - exists acc, sc. split_and!; [done|by apply removes_refl|]. intros _ ->.
    by destruct (activeStatMod (self sc)).
Qed.

(** ** The operations that remove *)

Context (fuel : nat).
Abbreviation remove_while := (remove_while tbl g_ProtocolVersion now AbilityOnUse fuel).

Definition enough (sc : Scene) : Prop := (length (activeStatMod (self sc)) + 2 <= fuel)%nat.

Lemma enough_removes sc sc' : removes sc sc' -> enough sc -> enough sc'.
Proof. unfold enough. intros (_ & Hs%sublist_length & _). lia. Qed.

Lemma remove_while_spec {A} test (note : ActiveStatMod -> A -> A) acc sc :
  good sc -> enough sc ->
  exists acc' sc', remove_while test note acc sc = Ret (acc', sc') /\ removes sc sc' /\
    ((forall m, test m = true) -> activeStatMod (self sc') = []).
Proof.
  intros Hg Hf. unfold enough in Hf.
  destruct (remove_loop_spec fuel 0 test note fuel 0 acc sc Hg) as (acc' & sc' & E & Hr & Hall); [lia| |].
  - unfold rank. destruct (IsRider (self sc)); lia.
  - exists acc', sc'. split_and!; [exact E|done|]. intros Ht. by apply Hall.
Qed.

Lemma send_removes sc sc' :
  good sc' -> removes sc sc' ->
  exists sc2, SendUpdatedBuffs tbl g_ProtocolVersion now sc' = Some sc2 /\ removes sc sc2 /\
    activeStatMod (self sc2) = activeStatMod (self sc') /\
    forall s, numeric tbl s -> value_of tbl s (css (self sc2)) = Some (shown_total (activeStatMod (self sc2)) s).
Proof.
  intros [Hi Hok] (_ & Hs & Eid). destruct (SendUpdatedBuffs_spec now sc' Hi) as (sc2 & -> & Hi2 & Em & Hp & Hv).
  exists sc2. rewrite Em. split_and!; [done| |done|done].
  split_and!; [by split; [|eapply same_place_ok]|by rewrite Em|]. destruct Hp as (_ & E & _). congruence.
Qed.

Lemma on_self_removes f sc sc' :
  (forall c, css (f c) = css c /\ activeStatMod (f c) = activeStatMod c /\ baseStats (f c) = baseStats c /\
     CreatureID (f c) = CreatureID c /\ MountedOn (f c) = MountedOn c /\ MountedBy (f c) = MountedBy c /\
     length (statusEffects (f c)) = length (statusEffects c)) ->
  removes sc sc' -> removes sc (on_self f sc').
Proof.
  intros Hf ([Hi Hok] & Hs & Eid). destruct (Hf (self sc')) as (E1 & E2 & E3 & E4 & E5 & E6 & E7).
  unfold removes. cbn [on_self self]. rewrite E2, E4. split_and!; [|done|done].
  split; [by eapply inv_ext|]. destruct Hok as [O1 O2 O3 O4].
  constructor; cbn [on_self self others]; by rewrite ?E4, ?E5, ?E6, ?E7.
Qed.

Lemma broadcast_removes p sc sc' : removes sc sc' -> removes sc (broadcast p sc').
Proof. intros ([Hi [O1 O2 O3 O4]] & Hs & Eid). by split_and!; [split; [|constructor]|..]. Qed.

Lemma RemoveStatModsBySource_spec src sc :
  good sc -> enough sc ->
  exists sc', RemoveStatModsBySource tbl g_ProtocolVersion now AbilityOnUse fuel src sc = Ret sc' /\ removes sc sc'.
Proof.
  intros Hg Hf. unfold RemoveStatModsBySource.
  destruct (remove_while_spec (fun m => sourceType m =? src) (fun _ n => n + 1) 0 sc Hg Hf) as (n & s1 & -> & Hr & _).
  cbn [mbind Res_bind]. destruct (0 <? n); [|by exists s1].
  destruct (send_removes sc s1) as (s2 & -> & Hr2 & _); [by apply Hr|done|]. by exists s2.
Qed.

Lemma RemoveBuffsFromAbility_spec a send sc :
  good sc -> enough sc ->
  exists sc', RemoveBuffsFromAbility tbl g_ProtocolVersion now AbilityOnUse fuel a send sc = Ret sc' /\ removes sc sc'.
Proof.
  intros Hg Hf. unfold RemoveBuffsFromAbility, StatMods.RemoveBuffsFromAbility_with.
  destruct (remove_while_spec (fun m => abilityID m =? a) (fun _ _ => tt) tt sc Hg Hf) as (n & s1 & E & Hr & _).
  unfold StatMods.remove_while in E. rewrite E. cbn [mbind Res_bind]. set (s2 := on_self _ s1).
  assert (removes sc s2) as Hr2 by (by apply on_self_removes).
  destruct send; [|by exists s2].
  destruct (send_removes sc s2) as (s3 & -> & Hr3 & _); [by apply Hr2|done|]. by exists s3.
Qed.

(** The end of [RemoveAllBuffs]: the stats are what they were. *)
Lemma restore_bases_values sc :
  inv (self sc) ->
  exists sc2, restore_bases tbl sc = Some sc2 /\ activeStatMod (self sc2) = activeStatMod (self sc) /\
    baseStats (self sc2) = [] /\ css_ok (css (self sc2)) /\
    forall s, numeric tbl s -> value_of tbl s (css (self sc2)) = Some (orig s).
Proof.
  intros Hi. unfold restore_bases. set (c := self sc) in *.
  destruct (write_bases_spec tbl Htbl fBaseVal (baseStats c) (css c) (inv_nodup c Hi))
    as (css1 & -> & Hc1 & Hin & Hout); [|apply Hi|].
  { intros b Hb. destruct (inv_base c Hi b Hb) as ((Hn & _ & Hr) & -> & _). by split. }
  cbn [mbind option_bind]. eexists. split; [done|]. split_and!; [done..|].
  intros s Hn. cbn [on_self self set_bases set_css css].
  destruct (in_keys_dec StatID s (baseStats c)) as [(b & Hb & <-)|Hnot].
  - rewrite (Hin b Hb). destruct (inv_base c Hi b Hb) as ((_ & Ep & _) & Ev & _). by rewrite Ev, Ep.
  - rewrite Hout by done. by apply (inv_free c Hi).
Qed.

Lemma restore_bases_spec sc sc' :
  removes sc sc' -> activeStatMod (self sc') = [] ->
  exists sc2, restore_bases tbl sc' = Some sc2 /\ removes sc sc2 /\ activeStatMod (self sc2) = [] /\
    baseStats (self sc2) = [] /\
    forall s, numeric tbl s -> value_of tbl s (css (self sc2)) = Some (orig s).
Proof.
  intros Hrem Hnil. pose proof Hrem as ([Hi Hok] & Hs & Eid).
  destruct (restore_bases_values sc' Hi) as (sc2 & E & Em & Eb & Hc & Hval). exists sc2.
  assert (same_place sc' sc2) as Hp.
  { unfold restore_bases in E. destruct (write_bases _ _ _ _) as [css1|]; [|done].
    cbn [mbind option_bind] in E. by injection E as <-. }
  rewrite Hnil in Em. split_and!; [done| |done|done|done]. unfold removes. rewrite Em, <- Hnil.
  split_and!; [|exact Hs|destruct Hp as (_ & -> & _); exact Eid]. split; [|by apply (same_place_ok sc')].
  constructor; rewrite ?Em, ?Eb.
  - done.
  - constructor.
  - constructor.
  - intros s _. unfold count. simpl. lia.
  - by intros b ?%elem_of_nil.
  - intros s Hn _. by rewrite Hval.
Qed.

Lemma RemoveAllBuffs_spec sc :
  good sc -> enough sc ->
  exists sc', RemoveAllBuffs tbl g_ProtocolVersion now AbilityOnUse fuel sc = Ret sc' /\ removes sc sc' /\
    activeStatMod (self sc') = [] /\ baseStats (self sc') = [] /\
    forall s, numeric tbl s -> value_of tbl s (css (self sc')) = Some (orig s).
Proof.
  intros Hg Hf. unfold RemoveAllBuffs.
  destruct (remove_while_spec (fun _ => true) (fun _ _ => tt) tt sc Hg Hf) as (n & s1 & -> & Hr & Hall).
  cbn [mbind Res_bind]. destruct (restore_bases_spec sc s1 Hr (Hall (fun _ => eq_refl))) as (s2 & -> & ?).
  by exists s2.
Qed.

Lemma RemoveAbilityBuffTypeExcept_spec cat a sc :
  good sc -> enough sc ->
  exists sc', RemoveAbilityBuffTypeExcept tbl g_ProtocolVersion now AbilityOnUse fuel cat a sc = Ret sc' /\ removes sc sc'.
Proof.
  intros Hg Hf. unfold RemoveAbilityBuffTypeExcept. destruct (cat =? 0); [exists sc; by split; [|apply removes_refl]|].
  set (test := fun m : ActiveStatMod => _).
  destruct (remove_while_spec test (fun _ _ => true) false sc Hg Hf) as (n & s1 & -> & Hr & _).
  cbn [mbind Res_bind]. eexists. split; [done|]. destruct n; [by apply broadcast_removes|done].
Qed.

Lemma RemoveAbilityBuffWithStat_spec s sign sc :
  good sc -> enough sc ->
  exists sc' b, RemoveAbilityBuffWithStat tbl g_ProtocolVersion now AbilityOnUse fuel s sign sc = Ret (sc', b) /\
    removes sc sc'.
Proof.
  intros Hg Hf. unfold RemoveAbilityBuffWithStat. set (test := fun m : ActiveStatMod => _).
  destruct (remove_while_spec test (fun m _ => abilityID m) 0 sc Hg Hf) as (n & s1 & -> & Hr & _).
  cbn [mbind Res_bind]. destruct (n =? 0); [by eexists _, _|]. destruct (existsb _ _); [by eexists _, _|].
  set (s2 := broadcast _ s1). assert (removes sc s2) as Hr2 by (by apply broadcast_removes).
  destruct (send_removes sc s2) as (s3 & -> & Hr3 & _); [by apply Hr2|done|]. cbn [lift mbind Res_bind].
  by eexists _, _.
Qed.

(** ** Operations that may be undefined

    A result, if there is one, has the property; running for ever is excluded. *)

Definition outcome {A} (P : A -> Prop) (r : Res A) : Prop :=
  match r with Ret a => P a | Undef => True | NoFuel => False end.

Lemma outcome_bind {A B} (P : A -> Prop) (Q : B -> Prop) r (k : A -> Res B) :
  outcome P r -> (forall a, P a -> outcome Q (k a)) -> outcome Q (r ≫= k).
Proof. intros Hr Hk. destruct r; simpl in *; auto. Qed.

Lemma outcome_lift {A} (P : A -> Prop) o : (forall a, o = Some a -> P a) -> outcome P (lift o).
Proof. intros Ho. destruct o; simpl; auto. Qed.

Lemma outcome_Ret {A} (P : A -> Prop) r a : outcome P r -> r = Ret a -> P a.
Proof. by intros Hr ->. Qed.

Lemma expire_effects_place l c kept c' b :
  expire_effects now l c = Some (kept, c', b) -> c' = set_status (activeStatusEffect c) (statusEffects c') c /\
  length (statusEffects c') = length (statusEffects c).
Proof.
  revert c kept c' b. induction l as [|e l IH]; intros c kept c' b; simpl.
  - intros [= <- <- <-]. split; [by destruct c|done].
  - destruct (effect_expireTime e <=? now).
    + unfold _ClearStatusFlag, change_flag.
      destruct (if modStatusID e <? 0 then _ else _) as [i|]; [|done]. simpl.
      destruct (statusEffects c !! _) as [w|]; [|done]. simpl. set (c1 := set_status _ _ _).
      destruct (expire_effects now l c1) as [[[k c2] b2]|] eqn:E; [|done]. simpl. intros [= <- <- <-].
      destruct (IH _ _ _ _ E) as [-> Hl]. split; [done|]. simpl in Hl |- *. by rewrite Hl, length_insert.
    + destruct (expire_effects now l c) as [[[k c2] b2]|] eqn:E; [|done]. simpl. intros [= <- <- <-].
      by apply (IH _ _ _ _ E).
Qed.

Lemma CheckActiveStatusEffects_spec sc :
  good sc -> enough sc ->
  outcome (removes sc) (CheckActiveStatusEffects tbl g_ProtocolVersion now AbilityOnUse fuel sc).
Proof.
  intros Hg Hf. unfold CheckActiveStatusEffects.
  apply (outcome_bind (fun x : list ActiveStatusEffect * Creature * bool => let '(k, c, b) := x in
    removes sc (on_self (fun _ => set_status k (statusEffects c) c) sc))).
  { apply outcome_lift. intros [[k c] b] E. destruct (expire_effects_place _ _ _ _ _ E) as [-> Hl].
    assert (removes sc (on_self (set_status k (statusEffects c)) sc)) as Hr; [|exact Hr].
    destruct Hg as [Hi [O1 O2 O3 O4]]. split_and!; [|reflexivity|done].
    split; [by eapply inv_ext; [..|exact Hi]|]. constructor; cbn [on_self self others]; try done. simpl in Hl |- *. congruence. }
  intros [[k c] b] Hr. set (s1 := on_self _ sc) in *.
  apply (outcome_bind (removes sc)).
  { destruct b; [|done]. apply outcome_lift. intros s2. unfold SendFlags.
    destruct (UpdateMods_defined now (self s1)) as [p ->]. simpl. intros [= <-]. by apply broadcast_removes. }
  intros s2 Hr2. set (test := fun m : ActiveStatMod => _).
  destruct (remove_while_spec test (fun _ _ => true) false s2 (proj1 Hr2) (enough_removes _ _ Hr2 Hf))
    as (e & s3 & -> & Hr3 & _).
  cbn [mbind Res_bind]. pose proof (removes_trans _ _ _ Hr2 Hr3) as Hr23. destruct e; [|exact Hr23].
  destruct (send_removes sc s3) as (s4 & -> & Hr4 & _); [by apply Hr3|done|exact Hr4].
Qed.

Lemma adds_good sc sc' : good sc -> adds sc sc' -> good sc' /\ CreatureID (self sc') = CreatureID (self sc).
Proof.
  intros [_ Hok] (Hi & _ & Hp). split; [split; [done|by eapply same_place_ok]|]. by destruct Hp as (_ & ? & _).
Qed.

Lemma count_sublist s l l' : sublist l l' -> count s l <= count s l'.
Proof.
  induction 1 as [|m l l' _ IH|m l l' _ IH]; [done|..]; unfold count in *; simpl; [lia|].
  unfold of_stat at 2. case_test; lia.
Qed.

(** A value written to a stat that has a base entry. *)
Lemma write_entry_good s b v sc :
  good sc -> find (fun b => StatID b =? s) (baseStats (self sc)) = Some b -> in_u32 v ->
  outcome (fun sc' => good sc' /\ CreatureID (self sc') = CreatureID (self sc) /\
             activeStatMod (self sc') = activeStatMod (self sc))
    (css' ← lift (WriteValueToStat tbl (StatID b) v (css (self sc))); Ret (on_self (set_css css') sc)).
Proof.
  intros [Hi Hok] [Hb Hs]%find_elem Hv. to_prop. destruct (inv_base _ Hi b Hb) as (Hn & _).
  destruct (write_value_spec tbl Htbl (StatID b) v (css (self sc)) Hn (inv_css _ Hi) Hv) as (css' & -> & Hc & _ & Ho).
  simpl. split; [|done]. split; [|destruct Hok; by constructor].
  destruct Hi as [I1 I2 I3 I4 I5 I6]. constructor; cbn [css set_css activeStatMod baseStats]; try done.
  intros s' Hs' Hnot. destruct (I6 s' Hs' Hnot) as [E1 E2]. split; [done|]. rewrite Ho; [done|].
  intros E. apply Hnot. rewrite (index_unique tbl _ _ Hs' Hn E). by apply list_elem_of_fmap_2.
Qed.

Lemma put_off_timer_same s a c :
  css (put_off_timer now s a c) = css c /\ activeStatMod (put_off_timer now s a c) = activeStatMod c /\
  baseStats (put_off_timer now s a c) = baseStats c /\ CreatureID (put_off_timer now s a c) = CreatureID c /\
  MountedOn (put_off_timer now s a c) = MountedOn c /\ MountedBy (put_off_timer now s a c) = MountedBy c /\
  length (statusEffects (put_off_timer now s a c)) = length (statusEffects c).
Proof. unfold put_off_timer. by repeat case_match. Qed.

Lemma Add_spec t cat ab gid s a da d sc :
  good sc -> enough sc -> modifiable s -> small a -> count s (activeStatMod (self sc)) < 127 ->
  outcome (fun '(sc', _) => good sc' /\ CreatureID (self sc') = CreatureID (self sc))
    (Add tbl g_ProtocolVersion now AbilityOnUse fuel t cat ab gid s a da d sc).
Proof.
  intros Hg Hf Hn Ha Hroom. unfold Add. destruct (HasBuff _ _ _ _) as [bm r].
  set (s1 := on_self (set_buffs bm) sc). assert (removes sc s1) as Hr1 by (by apply on_self_removes, removes_refl).
  destruct r; [by destruct Hr1 as (? & _ & ?)|].
  set (s2 := on_self _ s1).
  assert (removes sc s2) as Hr2 by (apply on_self_removes; [intros c; apply put_off_timer_same|done]).
  destruct (RemoveAbilityBuffTypeExcept_spec cat ab s2 (proj1 Hr2) (enough_removes _ _ Hr2 Hf)) as (s3 & -> & Hr23).
  cbn [mbind Res_bind]. destruct (UpdateBuff _ _ _ _ _ _ _ _) as [bm3 buff].
  set (s4 := on_self _ s3). pose proof (removes_trans _ _ _ Hr2 Hr23) as Hr3.
  assert (removes sc s4) as Hr4 by (by apply on_self_removes). pose proof Hr4 as (Hg4 & Hs4 & Eid4).
  apply (outcome_bind (fun s5 => good s5 /\ CreatureID (self s5) = CreatureID (self sc))).
  { destruct (expire_time now (float_of_int (durationS buff))) as [e|] eqn:Ee.
    - pose proof (count_sublist s _ _ Hs4).
      destruct (AddBuff_spec now BuffSource.ABILITY cat t ab gid s a da (float_of_int (durationS buff)) e s4
        (proj1 Hg4) Hn Ha ltac:(lia) Ee) as (s5 & -> & Hadd).
      simpl. destruct (adds_good _ _ Hg4 Hadd) as [? E]. split; [done|congruence].
    - unfold AddBuff. rewrite Ee. done. }
  intros s5 [Hg5 Eid5]. destruct (gid =? 116); [|done].
  destruct (find _ (baseStats (self s5))) as [b|] eqn:Eb; [|done].
  pose proof (write_entry_good s b (total b) s5 Hg5 Eb ltac:(apply float_add_range)) as Hw.
  destruct (WriteValueToStat _ _ _ _) as [css'|]; [|done]. simpl in *. destruct Hw as (? & E & _). split; [done|congruence].
Qed.

(** ** Modifiers from the text of an item *)

(** The amount an entry [name=value] adds to a stat is a whole number, and the own
    value of the stat is exact. *)
Definition entry_fits (e : string) : Prop :=
  match Split e "=" with
  | n :: v :: _ =>
      small (atof_float v) /\
      forall i d, GetStatIndexByName tbl n = Some i -> tbl !! i = Some d -> isNumericalType d = true -> modifiable (ID d)
  | _ => True
  end.

Lemma numeric_entry i d :
  tbl !! i = Some d -> isNumericalType d = true -> numeric tbl (ID d).
Proof.
  intros Hd Hn. destruct (entry_at tbl Htbl i d Hd) as (_ & _ & _ & _ & _ & _ & Hid).
  assert (in_signed 16 (ID d)) as Hr by (unfold in_signed; lia).
  split; [done|]. exists i, d. split_and!; [|done|done].
  destruct (table_parts tbl Htbl) as (_ & Hi & _).
  apply (find_idx_unique _ ID tbl i d Hi Hd). intros y. rewrite signed_id by done. rewrite Z.eqb_eq. by split.
Qed.

Lemma apply_entries_spec item l sc :
  inv (self sc) -> Forall entry_fits l ->
  (forall s, numeric tbl s -> count s (activeStatMod (self sc)) + Z.of_nat (length l) < 128) ->
  exists sc', apply_entries tbl item l sc = Some sc' /\ adds sc sc'.
Proof.
  intros Hi Hl. revert sc Hi. induction Hl as [|e l He Hl IH]; intros sc Hi Hroom; simpl; [by exists sc|].
  assert (exists s1, apply_entry tbl item e sc = Some s1 /\ adds sc s1 /\
    forall s, count s (activeStatMod (self s1)) <= count s (activeStatMod (self sc)) + 1) as (s1 & -> & Hadd & Hcnt).
  { unfold apply_entry. unfold entry_fits in He.
    assert (exists s1, Some sc = Some s1 /\ adds sc s1 /\
      forall s, count s (activeStatMod (self s1)) <= count s (activeStatMod (self sc)) + 1) as Hskip
      by (exists sc; split_and!; [done|by split|intros; lia]).
    destruct (Split e "=") as [|n [|v rest]]; [done..|].
    destruct (GetStatIndexByName tbl n) as [i|] eqn:Ei; [|done].
    destruct (find_idx_lookup _ _ _ Ei) as (d & Hd & _). rewrite Hd. simpl.
    destruct He as [Hs He]. destruct (isNumericalType d) eqn:En; [|done]. pose proof (He i d eq_refl Hd En) as Hn.
    specialize (Hroom (ID d) Hn). simpl in Hroom. unfold AddItemStatMod.
    destruct (AddBaseStatMod_spec (mkMod 0 (i16 (ID d)) 0 0 (atof_float v) (atof_float v) MAX_TIME 0 0 BuffSource.ITEM item)
      (ID d) (atof_float v) sc Hi) as (s1 & -> & Hi1 & Em & Ec & Hp); [|done..|lia|].
    { split; [|done]. by apply signed_id, Hn. }
    exists s1. split_and!; [done|by split|]. intros s. rewrite Em, count_app. case_test; lia. }
  destruct Hadd as (Hi1 & Ec1 & Hp1). cbn [mbind option_bind].
  destruct (IH s1 Hi1) as (sc' & -> & Hi' & Ec' & Hp').
  { intros s Hs. specialize (Hroom s Hs). specialize (Hcnt s). simpl in Hroom. lia. }
  exists sc'. split_and!; [done|]. split_and!; [done|congruence|by etransitivity].
Qed.

(** ** A shield that is used up *)

Lemma inv_deplete r m m' s x c f :
  inv c -> activeStatMod c !! r = Some m -> modStatID m = s -> is_mod m' s (float_sub (amount m) x) ->
  modifiable s -> small x -> small (float_sub (amount m) x) ->
  f = (fun b => set_total (float_sub (fModTotal b) x) b) ->
  inv (set_bases ((fun b => if StatID b =? s then f b else b) <$> baseStats c)
         (set_mods (<[r := m']> (activeStatMod c)) c)).
Proof.
  intros Hi Hm Hms Hm' Hn Hx Hnew Ef. pose proof (numeric_nonzero s Hn) as Hnz.
  pose proof (mod_ok_intro m' s _ Hm' Hn Hnew) as Hok'. destruct Hm' as [Hs' Ha'].
  assert (small (amount m)) as Hsm.
  { pose proof (inv_small _ s Hi Hnz) as Hall. by apply (Forall_lookup_1 _ _ _ _ Hall Hm). }
  destruct (small_int _ Hsm) as [Em Hmb], (small_int _ Hx) as [Ex Hxb].
  assert (int_of_float (float_sub (amount m) x) = int_of_float (amount m) - int_of_float x) as Enew.
  { remember (int_of_float (amount m)) as am. remember (int_of_float x) as ax.
    rewrite Em, Ex, float_sub_int by lia. apply int_of_float_of_int. lia. }
  apply (inv_change c _ s 0 (- int_of_float x) f Hi); cbn [css set_mods set_bases activeStatMod baseStats].
  - done.
  - apply Forall_insert; [apply Hi|done].
  - intros k _. unfold count, sum. rewrite !(sumZ_insert _ _ _ _ _ Hm). unfold of_stat.
    rewrite Hs', Ha', Hms, !(Z.eqb_sym s k), Enew. case_test; lia.
  - done.
  - by rewrite Ef.
  - by right; right; right.
  - intros _. pose proof (inv_room _ Hi _ Hnz). lia.
  - intros b Hb Eb (_ & _ & Hc & Ht). rewrite Ef. simpl. rewrite Ht, Eb. split_and!; [done|lia|].
    pose proof (inv_sum_bound _ _ Hi Hnz). rewrite Ex at 1. apply float_sub_int; lia.
Qed.

(** The entry of a stat that has one is found again after it has changed. *)
Lemma find_changed s f l i :
  find_idx (fun b => StatID b =? s) l = Some i -> (forall b, StatID (f b) = StatID b) ->
  is_Some (find (fun b => StatID b =? s) ((fun b => if StatID b =? s then f b else b) <$> l)).
Proof.
  intros Hi Hf. rewrite find_find_idx.
  destruct (find_idx_lookup _ _ _ Hi) as (b & Hb & Eb).
  assert (is_Some (find_idx (fun b => StatID b =? s) ((fun b => if StatID b =? s then f b else b) <$> l))) as [k Hk].
  { apply find_idx_is_Some. exists (f b). split; [|by rewrite Hf].
    apply list_elem_of_fmap. exists b. rewrite Eb. split; [done|by eapply list_elem_of_lookup_2]. }
  rewrite Hk. destruct (find_idx_lookup _ _ _ Hk) as (y & Hy & _). simpl. rewrite Hy. by eexists.
Qed.

Lemma SubtractAbilityBuffStat_spec s gid x r m sc :
  good sc -> _GetExistingModIndex BuffSource.ABILITY gid s (self sc) = Some r ->
  activeStatMod (self sc) !! r = Some m -> modifiable s -> small x -> small (float_sub (amount m) x) ->
  exists sc', SubtractAbilityBuffStat tbl now s gid x sc = Some sc' /\ good sc' /\
    CreatureID (self sc') = CreatureID (self sc).
Proof.
  intros [Hi Hok] Hr Hm Hn Hx Hnew.
  destruct (find_idx_lookup _ _ _ Hr) as (m0 & Hm0 & [_ Hms]%andb_true_iff). to_prop.
  assert (m0 = m) as -> by congruence.
  unfold SubtractAbilityBuffStat. rewrite Hr, Hm. cbn [mbind option_bind].
  set (m' := mkMod _ _ _ _ _ _ _ _ _ _ _). set (s1 := on_self (set_mods _) sc).
  match goal with |- context [if ?b then update_self ?k s s1 else s1] =>
    set (s2 := if b then update_self k s s1 else s1) end.
  assert (self s2 = self s1 /\ same_place s1 s2) as [Es2 Hp2] by (unfold s2; by case_match).
  rewrite Es2. destruct (_GetBaseStatModIndex s (self s1)) as [i|] eqn:Ei;
    [|destruct (inv_free _ Hi s Hn); [by apply no_base in Ei|]; pose proof (count_pos _ _ _ _ Hm Hms); lia].
  set (f := fun b => set_total (float_sub (fModTotal b) x) b). set (s3 := on_self (on_base s f) s2).
  assert (self s3 = set_bases ((fun b => if StatID b =? s then f b else b) <$> baseStats (self sc)) (self s1)) as Es3.
  { unfold s3. cbn [on_self self]. rewrite Es2. exact (on_base_fmap s f (self s1) (inv_nodup _ Hi)). }
  assert (good s3) as Hg3.
  { split; [rewrite Es3; by apply (inv_deplete r m m' s x (self sc) f)|].
    apply (same_place_ok sc); [|done]. etransitivity; [|etransitivity; [exact Hp2|]]; [done|].
    unfold same_place. rewrite Es3. unfold s3. simpl. by rewrite Es2. }
  assert (CreatureID (self s3) = CreatureID (self sc)) as Eid by (by rewrite Es3).
  destruct (find_changed s f (baseStats (self sc)) i Ei (fun _ => eq_refl)) as [b Eb].
  change (baseStats (self sc)) with (baseStats (self s1)) in Eb.
  replace ((fun b => if StatID b =? s then f b else b) <$> baseStats (self s1)) with (baseStats (self s3)) in Eb
    by (by rewrite Es3).
  rewrite Eb. pose proof (write_entry_good s b (total b) s3 Hg3 Eb ltac:(apply float_add_range)) as Hw.
  pose proof Eb as [Hb _]%find_elem. destruct (inv_base _ (proj1 Hg3) b Hb) as (Hnb & _).
  destruct (write_value_spec tbl Htbl (StatID b) (total b) (css (self s3)) Hnb (inv_css _ (proj1 Hg3)) ltac:(apply float_add_range))
    as (css' & Ew & _). cbn [mbind option_bind]. rewrite Ew in Hw |- *. destruct Hw as (? & E & _).
  eexists. split; [done|]. split; [done|]. simpl in *. congruence.
Qed.

End Operations.
End Invariant.
