(* ===== verification/StatModsRun.v ===== *)
(** * Stat modifiers: a creature through its life

    The operations on the modifiers of a creature as a step relation, what holds in
    every state they reach, and where the removal of modifiers does not end. *)

From S2P Require Import Prelude ByteBuffer Messages Text Float StatTables Stats StatsFacts AbilityTime AbilityTimeFacts StatMods StatModsFacts.

(** ** Copied stats *)

Section Copy.
Context (tbl : list StatDefinition) (Htbl : table_okb tbl = true).

Definition number (d : StatDefinition) (css : CharacterStatSet) : option Z :=
  v ← css !! offset d;
  match etype d with SHORT => read_short v | INTEGER => read_int v | _ => read_float v end.

Lemma copy_number d source css :
  entry_ok d -> isNumericalType d = true -> css_ok source -> css_ok css ->
  exists css', copy_member d source css = Some css' /\ css_ok css' /\ number d css' = number d source /\
    forall j, j <> offset d -> css' !! j = css !! j.
Proof.
  intros (nm & m & Hm & Hty & _) Hnum Hs Hc. unfold copy_member, number.
  destruct (css_lookup source _ _ _ Hs Hm) as (v & -> & Hv). destruct (css_lookup css _ _ _ Hc Hm) as (w & Hw & Hok).
  pose proof (lookup_lt_Some _ _ _ Hw) as Hlt.
  assert (forall f w', f w = Some w' -> member_ok m w' -> exists css', update_member (offset d) f css = Some css' /\
    css_ok css' /\ css' !! offset d = Some w' /\ forall j, j <> offset d -> css' !! j = css !! j) as Hup.
  { intros f w' Hf Hok'. unfold update_member. rewrite Hw. simpl. rewrite Hf. eexists. split; [done|]. split_and!.
    - unfold css_ok. rewrite <- (list_insert_id members _ (nm, m)) by done. by apply Forall2_insert.
    - by apply list_lookup_insert_eq.
    - intros j Hj. by apply list_lookup_insert_ne. }
  unfold isNumericalType in Hnum.
  destruct (etype d), m, v, w; try done; cbn [read_short read_int read_float mbind option_bind];
    match goal with |- context [update_member _ ?f css] =>
      destruct (Hup f _ eq_refl) as (css' & -> & ? & Ev & ?) end; simpl; try done;
    try (apply signed_range; lia); exists css'; rewrite Ev; (split_and!; [done..| |done]); simpl; f_equal.
  - apply signed_id; [lia|done].
  - by rewrite read_low, signed_id by (lia || (apply signed_range; lia)).
  - by apply i32_id.
Qed.

Lemma copy_all_numbers l source css :
  Forall entry_ok l -> NoDup (offset <$> l) -> css_ok source -> css_ok css ->
  exists css', copy_all l source css = Some css' /\ css_ok css' /\
    (forall d, d ∈ l -> isNumericalType d = true -> number d css' = number d source) /\
    (forall j, ~ (j ∈ offset <$> l) -> css' !! j = css !! j).
Proof.
  intros Hl. revert css. induction Hl as [|d l Hd Hl IH]; intros css Hnd Hs Hc; simpl.
  - exists css. split_and!; [done|done|by intros d ?%elem_of_nil|done].
  - apply list.NoDup_cons in Hnd as [Hnot Hnd].
    assert (exists css1, copy_member d source css = Some css1 /\ css_ok css1 /\
      (isNumericalType d = true -> number d css1 = number d source) /\
      forall j, j <> offset d -> css1 !! j = css !! j) as (css1 & -> & Hc1 & Hn1 & Ho1).
    { destruct (isNumericalType d) eqn:En.
      - destruct (copy_number d source css Hd En Hs Hc) as (c & ? & ? & ? & ?). by exists c.
      - pose proof Hd as (nm & m & Hm & Hty & Hsz & _).
        destruct (copy_all_ok [d] source css ltac:(by constructor; [|constructor]) Hs Hc) as (c & E & Hc1).
        simpl in E. destruct (copy_member d source css) as [c1|] eqn:E1; [|done].
        cbn [mbind option_bind] in E. injection E as ->. exists c. split_and!; [done|done|done|].
        intros j Hj. unfold copy_member in E1. destruct (source !! offset d) as [v|]; [|done].
        cbn [mbind option_bind] in E1. unfold update_member in E1.
        destruct (etype d); [destruct (read_short v)|destruct (read_int v)|destruct (read_float v)
          |destruct (read_chars v)|destruct (read_string v)]; try done; cbn [mbind option_bind] in E1;
          (destruct (css !! offset d) as [w|]; [|done]); cbn [mbind option_bind] in E1;
          match type of E1 with context [_ ← ?o; _] => destruct o end; try done; injection E1 as <-;
          by apply list_lookup_insert_ne. }
    cbn [mbind option_bind]. destruct (IH css1 Hnd Hs Hc1) as (css' & -> & Hc' & Hin & Hout).
    exists css'. split_and!; [done|done|..].
    + intros d' [->|Hd']%elem_of_cons Hn; [|by apply Hin]. rewrite <- (Hn1 Hn). unfold number.
      by rewrite (Hout _ Hnot).
    + intros j [Hj Hj']%not_elem_of_cons. rewrite Hout by done. by apply Ho1.
Qed.

(** The numbers of the copy are those of the source. *)
Lemma CopyFrom_values source css :
  css_ok source -> css_ok css ->
  exists css', CopyFrom tbl source css = Some css' /\ css_ok css' /\
    forall s, numeric tbl s -> value_of tbl s css' = value_of tbl s source.
Proof.
  intros Hs Hc. destruct (table_parts tbl Htbl) as (Hl & _ & _ & Ho).
  destruct (copy_all_numbers tbl source css Hl Ho Hs Hc) as (css' & E & Hc' & Hin & _).
  exists css'. split_and!; [exact E|done|]. intros s (_ & r & d & Hr & Hd & Hn).
  specialize (Hin d (list_elem_of_lookup_2 _ _ _ Hd) Hn). unfold value_of, GetStatValueByID. rewrite Hr, Hd.
  cbn [mbind option_bind]. unfold number in Hin. unfold isNumericalType in Hn.
  destruct (css' !! offset d) as [v|], (source !! offset d) as [w|]; cbn [mbind option_bind] in Hin |- *;
    destruct (etype d); try done; unfold value_float; try ((by rewrite Hin) || (by rewrite <- Hin)).
Qed.

End Copy.

(** ** The life of a creature *)

Section Life.
Context (tbl : list StatDefinition) (g_ProtocolVersion : Z) (AbilityOnUse : Z -> option Z) `{AbilityHost}.

(** The value of a stat that a creature has by itself. *)
Definition own (sc : Scene) (s : Z) : Z := default (float_of_int 0) (value_of tbl s (css (self sc))).

(** A creature without modifiers. *)
Record fresh (sc : Scene) : Prop := {
  fresh_typed : css_ok (css (self sc));
  fresh_mods : activeStatMod (self sc) = [];
  fresh_bases : baseStats (self sc) = [];
  fresh_scene : scene_ok sc }.

(** The creature as it was. *)
Context (sc0 : Scene).

(** A stat that takes one more modifier: its own value is exact in a [float], and
    [RefCount] is a [char]. *)
Definition room (s : Z) (sc : Scene) : Prop :=
  numeric tbl s /\ plain tbl s (own sc0 s) /\ count s (activeStatMod (self sc)) < 127.

(** The same for an entry of an item's text. *)
Definition entry_room (e : string) : Prop := entry_fits tbl (own sc0) e.

(** The operations on modifiers, at any time, and anything that leaves the stats, the
    modifiers and the base values alone: moving, riding, fighting, other creatures. *)
Inductive mods_step : Scene -> Scene -> Prop :=
  | step_elsewhere sc sc' :
      css (self sc') = css (self sc) -> activeStatMod (self sc') = activeStatMod (self sc) ->
      baseStats (self sc') = baseStats (self sc) -> scene_ok sc' -> mods_step sc sc'
  | step_buff now src cat t id gid s a da d sc sc' :
      room s sc -> small a ->
      AddBuff tbl now src cat t id gid s a da d sc = Some sc' -> mods_step sc sc'
  | step_ability now fuel t cat ab gid s a da d sc sc' r :
      enough fuel sc -> room s sc -> small a ->
      Add tbl g_ProtocolVersion now AbilityOnUse fuel t cat ab gid s a da d sc = Ret (sc', r) -> mods_step sc sc'
  | step_mod now t cat ab gid d sc : mods_step sc (AddMod now t cat ab gid d sc).1
  | step_item item s a sc sc' :
      room s sc -> small a -> AddItemStatMod tbl item s a sc = Some sc' -> mods_step sc sc'
  | step_config item text sc sc' :
      Forall entry_room (Split text "&") ->
      (forall s, numeric tbl s ->
         count s (activeStatMod (self sc)) + Z.of_nat (length (Split text "&")) < 128) ->
      ApplyItemStatModFromConfig tbl item text sc = Some sc' -> mods_step sc sc'
  | step_deplete now s gid x r m sc sc' :
      numeric tbl s -> plain tbl s (own sc0 s) -> _GetExistingModIndex BuffSource.ABILITY gid s (self sc) = Some r ->
      activeStatMod (self sc) !! r = Some m -> small x -> small (float_sub (amount m) x) ->
      SubtractAbilityBuffStat tbl now s gid x sc = Some sc' -> mods_step sc sc'
  | step_send now sc sc' : SendUpdatedBuffs tbl g_ProtocolVersion now sc = Some sc' -> mods_step sc sc'
  | step_source now fuel src sc sc' :
      enough fuel sc -> RemoveStatModsBySource tbl g_ProtocolVersion now AbilityOnUse fuel src sc = Ret sc' ->
      mods_step sc sc'
  | step_from now fuel a send sc sc' :
      enough fuel sc -> RemoveBuffsFromAbility tbl g_ProtocolVersion now AbilityOnUse fuel a send sc = Ret sc' ->
      mods_step sc sc'
  | step_all now fuel sc sc' :
      enough fuel sc -> RemoveAllBuffs tbl g_ProtocolVersion now AbilityOnUse fuel sc = Ret sc' -> mods_step sc sc'
  | step_except now fuel cat a sc sc' :
      enough fuel sc -> RemoveAbilityBuffTypeExcept tbl g_ProtocolVersion now AbilityOnUse fuel cat a sc = Ret sc' ->
      mods_step sc sc'
  | step_with now fuel s sign sc sc' b :
      enough fuel sc -> RemoveAbilityBuffWithStat tbl g_ProtocolVersion now AbilityOnUse fuel s sign sc = Ret (sc', b) ->
      mods_step sc sc'
  | step_expire now fuel sc sc' :
      enough fuel sc -> CheckActiveStatusEffects tbl g_ProtocolVersion now AbilityOnUse fuel sc = Ret sc' ->
      mods_step sc sc'
  | step_dismount now fuel sc sc' b :
      enough fuel sc -> Dismount tbl g_ProtocolVersion now AbilityOnUse fuel sc = Ret (sc', b) -> mods_step sc sc'.

Context `{!AbilityHostLaws} (Htbl : table_okb tbl = true) (Hzero : ~ numeric tbl 0).

Context (Hf0 : fresh sc0).
Local Abbreviation good := (good tbl (own sc0)).
Local Abbreviation modifiable := (modifiable tbl (own sc0)).

Lemma own_value s : numeric tbl s -> value_of tbl s (css (self sc0)) = Some (own sc0 s).
Proof.
  intros (_ & r & d & Hr & Hd & Hn). unfold own, value_of, GetStatValueByID. rewrite Hr, Hd.
  cbn [mbind option_bind]. destruct (entry_at tbl Htbl r d Hd) as (nm & m & Hm & Hty & _).
  destruct (css_lookup _ _ _ _ (fresh_typed _ Hf0) Hm) as (v & -> & Hv). cbn [mbind option_bind].
  unfold isNumericalType in Hn. by destruct (etype d), m, v.
Qed.

Lemma own_modifiable s : numeric tbl s -> plain tbl s (own sc0 s) -> modifiable s.
Proof.
  intros Hs Hp. split_and!; [done|done|].
  eapply value_range; [exact Htbl|apply (fresh_typed _ Hf0)|by apply own_value|exact Hs].
Qed.

Lemma fresh_good : good sc0.
Proof.
  split; [|apply Hf0]. constructor; rewrite ?(fresh_mods _ Hf0), ?(fresh_bases _ Hf0).
  - apply Hf0.
  - constructor.
  - constructor.
  - done.
  - by intros b ?%elem_of_nil.
  - intros s Hs _. split; [done|by apply own_value].
Qed.

Lemma adds_keeps sc sc' : good sc -> adds tbl (own sc0) sc sc' -> good sc'.
Proof. intros Hg Ha. by apply (adds_good tbl (own sc0) sc sc' Hg Ha). Qed.

Lemma Dismount_good now fuel sc :
  good sc -> enough fuel sc ->
  exists sc' b, Dismount tbl g_ProtocolVersion now AbilityOnUse fuel sc = Ret (sc', b) /\ good sc' /\
    IsRider (self sc') = false.
Proof.
  intros Hg Hf. unfold Dismount. destruct (MountedOn (self sc)) as [w|] eqn:Ew.
  - destruct (Dismount_spec tbl Htbl Hzero (own sc0) g_ProtocolVersion AbilityOnUse now fuel 0 fuel w sc Hg Ew)
      as (sc' & E & Hg' & Hr & _); [unfold enough in Hf; lia|]. by exists sc', true.
  - exists sc, false. unfold Dismount_with, IsMountedMount, IsRider. rewrite Ew. by case_match.
Qed.

Lemma step_good sc sc' : good sc -> mods_step sc sc' -> good sc'.
Proof.
  intros Hg. destruct 1 as [sc sc' E1 E2 E3 Hok|now src cat t id gid s a da d sc sc' (Hn & Hp & Hc) Ha E
    |now fuel t cat ab gid s a da d sc sc' r Hf (Hn & Hp & Hc) Ha E|now t cat ab gid d sc
    |item s a sc sc' (Hn & Hp & Hc) Ha E
    |item text sc sc' He Hc E|now s gid x r m sc sc' Hn Hp Hr Hm Hx Hnew E|now sc sc' E
    |now fuel src sc sc' Hf E|now fuel a send sc sc' Hf E|now fuel sc sc' Hf E|now fuel cat a sc sc' Hf E
    |now fuel s sign sc sc' b Hf E|now fuel sc sc' Hf E|now fuel sc sc' b Hf E];
    try pose proof (own_modifiable s Hn Hp) as Hmod.
  - destruct Hg as [Hi _]. split; [|done]. by eapply inv_ext; [..|exact Hi].
  - destruct (expire_time now d) as [e|] eqn:Ee; [|unfold AddBuff in E; by rewrite Ee in E].
    edestruct (AddBuff_spec tbl Hzero (own sc0) now) as (x & E' & Hx); [apply Hg|exact Hmod|exact Ha|exact Hc|exact Ee|].
    apply (adds_keeps sc); [done|]. erewrite E' in E. by injection E as <-.
  - eapply outcome_Ret in E; [|by eapply Add_spec]. by destruct E.
  - apply (adds_keeps sc); [done|]. apply AddMod_spec; [done|apply Hg].
  - edestruct (AddItemStatMod_spec tbl Hzero (own sc0) item) as (x & E' & Hx); [apply Hg|exact Hmod|exact Ha|exact Hc|].
    apply (adds_keeps sc); [done|]. erewrite E' in E. by injection E as <-.
  - edestruct (apply_entries_spec tbl Hzero (own sc0) item) as (x & E' & Hx); [apply Hg|exact He|exact Hc|].
    apply (adds_keeps sc); [done|]. unfold ApplyItemStatModFromConfig in E. rewrite E' in E. by injection E as <-.
  - edestruct (SubtractAbilityBuffStat_spec tbl Htbl Hzero (own sc0) now) as (y & E' & Hy & _); [exact Hg|exact Hr|exact Hm|exact Hmod|exact Hx|exact Hnew|].
    erewrite E' in E. by injection E as <-.
  - edestruct (SendUpdatedBuffs_spec tbl Htbl (own sc0) g_ProtocolVersion AbilityOnUse now) as (x & E' & Hx & _ & Hp & _); [apply Hg|].
    rewrite E' in E. injection E as <-. split; [done|]. by apply (same_place_ok sc), Hg.
  - edestruct RemoveStatModsBySource_spec as (x & E' & [Hx _]); [done..|]. rewrite E' in E. by injection E as <-.
  - edestruct RemoveBuffsFromAbility_spec as (x & E' & [Hx _]); [done..|]. rewrite E' in E. by injection E as <-.
  - edestruct RemoveAllBuffs_spec as (x & E' & [Hx _] & _); [done..|]. rewrite E' in E. by injection E as <-.
  - edestruct RemoveAbilityBuffTypeExcept_spec as (x & E' & [Hx _]); [done..|]. rewrite E' in E. by injection E as <-.
  - edestruct RemoveAbilityBuffWithStat_spec as (x & y & E' & [Hx _]); [done..|]. rewrite E' in E. by injection E as <- <-.
  - eapply outcome_Ret in E; [|by eapply CheckActiveStatusEffects_spec]. by destruct E.
  - edestruct Dismount_good as (x & y & E' & Hx & _); [done..|]. rewrite E' in E. by injection E as <- <-.
Qed.
End Life.

(** ** Every state a creature reaches *)

Lemma zero_not_numeric h : ~ numeric (server_table h) 0.
Proof.
  intros (_ & r & d & Hr & Hd & Hn).
  destruct h; vm_compute in Hr; injection Hr as <-; vm_compute in Hd; injection Hd as <-; discriminate.
Qed.

(** Small numbers stay exact in any number stat. *)
Lemma stored_whole tbl s n : in_signed 16 n -> stored tbl s (float_of_int n) = float_of_int n.
Proof.
  intros Hn. unfold in_signed in Hn. unfold stored. destruct (GetStatType tbl s); try done.
  - by rewrite short_of_float_of_int.
  - rewrite int_of_float_of_int; [done|lia].
Qed.

Section Reachable.
Context (h : bool) (g_ProtocolVersion : Z) (AbilityOnUse : Z -> option Z) `{AbilityHostLaws}.
Local Abbreviation tbl := (server_table h).

(** The states reached from one without modifiers. *)
Definition mods_steps (sc0 : Scene) : Scene -> Prop :=
  rtc (mods_step tbl g_ProtocolVersion AbilityOnUse sc0) sc0.

Lemma reach_good sc0 sc : fresh sc0 -> mods_steps sc0 sc -> good tbl (own tbl sc0) sc.
Proof.
  intros Hf Hs. assert (good tbl (own tbl sc0) sc0) as Hg by (apply fresh_good; [apply server_table_ok|done]).
  refine (rtc_ind_r (fun x => good tbl (own tbl sc0) x) sc0 Hg _ sc Hs). intros x y _ Hxy IH.
  eapply step_good; [exact _|apply server_table_ok|apply zero_not_numeric|exact Hf|exact IH|exact Hxy].
Qed.


(** In every state a creature reaches, when the modifiers are sent every number
    stat is the creature's own value if it has no modifier, and otherwise the own
    value plus the sum of the amounts of its modifiers, rounded to the type of the
    stat; for a whole own value and a total that fits a [short] it is exactly that
    whole number. *)
Theorem stats_show_modifiers sc0 sc now :
  fresh sc0 -> mods_steps sc0 sc ->
  exists sc', SendUpdatedBuffs tbl g_ProtocolVersion now sc = Some sc' /\
    (forall s, numeric tbl s ->
       value_of tbl s (css (self sc')) =
         Some (if count s (activeStatMod (self sc)) =? 0 then own tbl sc0 s
               else stored tbl s (float_add (own tbl sc0 s) (float_of_int (sum s (activeStatMod (self sc))))))) /\
    (forall s o, numeric tbl s -> own tbl sc0 s = float_of_int o -> Z.abs o < 2 ^ 22 ->
       in_signed 16 (o + sum s (activeStatMod (self sc))) ->
       value_of tbl s (css (self sc')) = Some (float_of_int (o + sum s (activeStatMod (self sc))))).
Proof.
  intros Hf Hs. destruct (reach_good sc0 sc Hf Hs) as [Hi _].
  destruct (SendUpdatedBuffs_spec tbl (server_table_ok h) (own tbl sc0) g_ProtocolVersion AbilityOnUse now sc Hi) as (sc' & E & _ & _ & _ & Hv).
  exists sc'. split; [done|]. split; [exact Hv|]. intros s o Hn Eo Ho Hr. rewrite (Hv s Hn). f_equal.
  unfold shown_total. pose proof (inv_sum_bound _ _ _ s Hi ltac:(by intros ->; apply zero_not_numeric in Hn)) as Hb.
  destruct (count s (activeStatMod (self sc)) =? 0) eqn:Ec; to_prop.
  - apply count_zero in Ec as [-> _]. by rewrite Z.add_0_r.
  - rewrite Eo, float_add_int by lia. by apply stored_whole.
Qed.

(** What is saved for a player are its own values of the stats, whatever
    modifiers it has and whether or not they have been sent. *)
Theorem saved_without_modifiers sc0 sc cdef_css :
  fresh sc0 -> mods_steps sc0 sc -> css_ok cdef_css ->
  exists css', saved_stats tbl cdef_css (self sc) = Some css' /\
    forall s, numeric tbl s -> value_of tbl s css' = Some (own tbl sc0 s).
Proof.
  intros Hf Hs Hc. destruct (reach_good sc0 sc Hf Hs) as [Hi _]. unfold saved_stats.
  destruct (CopyFrom_values tbl (server_table_ok h) _ _ (inv_css _ _ _ Hi) Hc) as (css1 & -> & Hc1 & Hv1).
  cbn [mbind option_bind].
  pose proof (fun b Hb => proj1 (inv_base _ _ _ Hi b Hb)) as Hmod.
  pose proof (fun b Hb => proj1 (proj2 (inv_base _ _ _ Hi b Hb))) as Hv.
  destruct (write_bases_spec tbl (server_table_ok h) fBaseVal (baseStats (self sc)) css1 (inv_nodup _ _ _ Hi))
    as (css2 & -> & _ & Hin & Hout); [|done|].
  { intros b Hb. destruct (Hmod b Hb) as (? & _ & ?). by rewrite (Hv b Hb). }
  exists css2. split; [done|]. intros s Hn. destruct (in_keys_dec StatID s (baseStats (self sc))) as [(b & Hb & <-)|Hnot].
  - rewrite (Hin b Hb), (Hv b Hb). f_equal. by destruct (Hmod b Hb) as (_ & ? & _).
  - rewrite Hout, Hv1 by done. by apply (inv_free _ _ _ Hi).
Qed.


(** Resetting the abilities of a creature on foot ([RemoveAllBuffsExceptGroupID])
    keeps exactly the modifiers of the group, and throws away every base entry, so
    that the modifiers that are kept no longer count: all stats are the creature's own,
    and stay so when the modifiers are next sent. *)
Theorem kept_modifiers_stop_counting sc0 sc now now' fuel gid :
  fresh sc0 -> mods_steps sc0 sc -> IsRider (self sc) = false ->
  (length (activeStatMod (self sc)) < fuel)%nat ->
  exists sc' sc2,
    RemoveAllBuffsExceptGroupID tbl g_ProtocolVersion now AbilityOnUse fuel gid sc = Ret sc' /\
    SendUpdatedBuffs tbl g_ProtocolVersion now' sc' = Some sc2 /\
    activeStatMod (self sc2) = filter (fun m => abilityGroupID m = gid) (activeStatMod (self sc)) /\
    forall s, numeric tbl s -> value_of tbl s (css (self sc2)) = Some (own tbl sc0 s).
Proof.
  intros Hf Hs Hr Hfuel. destruct (reach_good sc0 sc Hf Hs) as [Hi Hok].
  unfold RemoveAllBuffsExceptGroupID, remove_while, remove_index.
  edestruct (remove_loop_plain tbl (zero_not_numeric h) (own tbl sc0) g_ProtocolVersion AbilityOnUse now fuel 1
    (fun m => negb (abilityGroupID m =? gid)) (fun _ _ => tt) fuel 0 tt sc Hi Hok Hr)
    as (acc & s1 & -> & Hi1 & _ & _ & Em1); [lia|]. cbn [mbind Res_bind].
  rewrite take_0, drop_0 in Em1. cbn [app] in Em1.
  destruct (restore_bases_values tbl (server_table_ok h) (own tbl sc0) s1 Hi1) as (s2 & E2 & Em2 & Eb2 & Hc2 & Hv2).
  rewrite E2. exists s2. unfold SendUpdatedBuffs. rewrite Eb2. cbn [write_bases mbind option_bind].
  unfold CheckRemovedBuffs. cbn [on_self self set_css baseStats]. rewrite Eb2. cbn [check_removed mbind option_bind].
  destruct (UpdateMods_defined tbl (server_table_ok h) g_ProtocolVersion now'
    (self (on_self (set_bases []) (on_self (set_css (css (self s2))) s2)))) as [packet ->].
  cbn [mbind option_bind]. eexists. split; [done|]. split; [done|]. split; [|exact Hv2].
  cbn [broadcast self on_self set_bases set_css activeStatMod]. rewrite Em2, Em1.
  apply list_filter_iff. intros m. rewrite negb_false_iff. apply Z.eqb_eq.
Qed.

End Reachable.

(** ** A creature somebody rides *)

Section Ridden.
Context (h : bool) (g_ProtocolVersion : Z) (AbilityOnUse : Z -> option Z) `{AbilityHostLaws}.
Local Abbreviation tbl := (server_table h).

(** The modifier that is never removed: it belongs to the ability the creature would
    ride with, which is 0 for a mount, as are the abilities of items. *)
Definition stuck (test : ActiveStatMod -> bool) (pos : nat) (c : Creature) : Prop :=
  is_Some (MountedBy c) /\
  exists i m, activeStatMod c !! i = Some m /\ (pos <= i)%nat /\ test m = true /\ abilityID m = MountAbilityId c.

Lemma stuck_loop orig {A} now fuel depth test (note : ActiveStatMod -> A -> A) f pos acc sc :
  inv tbl orig (self sc) -> stuck test pos (self sc) ->
  remove_loop (RemoveBuffIndex tbl g_ProtocolVersion now AbilityOnUse fuel (S depth)) f test note pos acc sc = NoFuel.
Proof.
  revert pos acc sc. induction f as [|f IH]; intros pos acc sc Hi (Hby & i & m & Hm & Hle & Ht & Ea); [done|].
  cbn [remove_loop]. destruct (lookup_lt_is_Some_2 (activeStatMod (self sc)) pos) as [x Hx];
    [apply lookup_lt_Some in Hm; lia|]. rewrite Hx.
  destruct (test x) eqn:Ex.
  - destruct ((abilityID x =? MountAbilityId (self sc)) && IsMounted (self sc)) eqn:Em.
    + assert (RemoveBuffIndex tbl g_ProtocolVersion now AbilityOnUse fuel (S depth) pos sc = Ret sc) as ->.
      { cbn [RemoveBuffIndex]. rewrite Hx, Em. unfold Dismount_with, IsMountedMount. by rewrite bool_decide_true. }
      cbn [mbind Res_bind]. apply IH; [done|]. split; [done|]. by exists i, m.
    + destruct (RemoveBuffIndex_plain tbl (zero_not_numeric h) orig g_ProtocolVersion AbilityOnUse now fuel depth pos x sc Hi Hx Em)
        as (s1 & -> & Hi1 & Em1 & _ & _ & _ & _ & Eby & Emt & _). cbn [mbind Res_bind].
      apply IH; [done|]. split; [by rewrite Eby|].
      assert (i <> pos) as Hne.
      { intros ->. assert (x = m) as -> by congruence. unfold IsMounted in Em.
        rewrite Ea, Z.eqb_refl, (bool_decide_true _ Hby), orb_true_r in Em. done. }
      exists (i - 1)%nat, m. rewrite Em1, list_lookup_delete_ge by lia.
      replace (S (i - 1)) with i by lia. split_and!; [done|lia|done|by rewrite Emt].
  - apply IH; [done|]. split; [done|]. exists i, m. split_and!; [done| |done|done].
    assert (i <> pos); [|lia]. intros ->. congruence.
Qed.

(** On a creature that is ridden, the removal of modifiers of the source of an
    item's or instance's modifier never returns, nor does the removal of all, nor the
    check for modifiers that have run out once that one has: [RemoveBuffIndex] calls
    [Dismount], which refuses, and the loop meets the same modifier again. *)
Theorem ridden_removal_diverges orig sc m now fuel :
  inv tbl orig (self sc) -> is_Some (MountedBy (self sc)) -> MountAbilityId (self sc) = 0 ->
  m ∈ activeStatMod (self sc) -> abilityID m = 0 ->
  RemoveStatModsBySource tbl g_ProtocolVersion now AbilityOnUse fuel (sourceType m) sc = NoFuel /\
  RemoveAllBuffs tbl g_ProtocolVersion now AbilityOnUse fuel sc = NoFuel /\
  (expireTime m <= now -> forall sc',
     CheckActiveStatusEffects tbl g_ProtocolVersion now AbilityOnUse fuel sc <> Ret sc').
Proof.
  intros Hi Hby E0 [i Hm]%list_elem_of_lookup Ea.
  assert (forall test, test m = true -> stuck test 0 (self sc)) as Hst.
  { intros test Ht. split; [done|]. exists i, m. split_and!; [done|lia|done|congruence]. }
  split_and!.
  - unfold RemoveStatModsBySource, remove_while, remove_index.
    rewrite (stuck_loop orig); [done|done|]. by apply Hst, Z.eqb_refl.
  - unfold RemoveAllBuffs, remove_while, remove_index. rewrite (stuck_loop orig); [done|done|]. by apply Hst.
  - intros He sc' E. unfold CheckActiveStatusEffects in E.
    destruct (expire_effects now (activeStatusEffect (self sc)) (self sc)) as [[[kept c] b]|] eqn:Ee; [|done].
    destruct (expire_effects_place _ _ _ _ _ _ Ee) as [Ec _]. cbn [lift mbind Res_bind] in E.
    set (s1 := on_self _ sc) in E.
    assert (exists s2, (if b then lift (SendFlags tbl g_ProtocolVersion now s1) else Ret s1) = Ret s2 /\ self s2 = self s1)
      as (s2 & E2 & Es2).
    { destruct b; [|by exists s1]. unfold SendFlags.
      destruct (UpdateMods_defined tbl (server_table_ok h) g_ProtocolVersion now (self s1)) as [packet ->].
      by eexists. }
    rewrite E2 in E. cbn [mbind Res_bind] in E. unfold remove_while, remove_index in E.
    rewrite (stuck_loop orig) in E; [done|..]; rewrite Es2; unfold s1; rewrite Ec; cbn [on_self self set_status].
    + by eapply inv_ext; [..|exact Hi].
    + apply (Hst (fun m => expireTime m <=? now)). by apply Z.leb_le.
Qed.

End Ridden.

(** ** A concrete creature

    It wears an item of 5 strength, takes a buff of 10 strength, and loses the item. *)

#[local] Instance quiet : AbilityHost := {| ActivateAbility := fun _ s => Some s; CAF_Untransform := Some |}.

#[local] Instance quiet_laws : AbilityHostLaws.
Proof. constructor. intros a s. exists s. by repeat split. Qed.

Definition no_ability (def : Z) : option Z := None.

Definition hero : Creature :=
  mkCreature 1 0 fresh_css [] [] [] [0; 0; 0] (mkBuffs [] []) false 0 0 0 None None 0.
Definition hero_scene : Scene := mkScene hero ∅ [] [].

Definition with_item : Scene :=
  default hero_scene (AddItemStatMod (server_table true) 77 STAT.STRENGTH (float_of_int 5) hero_scene).
Definition with_buff : Scene :=
  default hero_scene (AddBuff (server_table true) 1000 BuffSource.ABILITY 1 1 200 20 STAT.STRENGTH
    (float_of_int 10) (float_of_int 10) (float_of_int 60) with_item).
Definition without_item : Scene :=
  match RemoveStatModsBySource (server_table true) 38 2000 no_ability 4 BuffSource.ITEM with_buff with
  | Ret s => s
  | _ => hero_scene
  end.

Lemma fresh_css_ok : css_ok fresh_css.
Proof. apply stats_reachable_ok, (reach_new true). vm_compute. reflexivity. Qed.

Lemma hero_fresh : fresh hero_scene.
Proof.
  split; [apply fresh_css_ok|done|done|]. split; [intros id c Hc; change ((∅ : gmap Z Creature) !! id = Some c) in Hc; by rewrite lookup_empty in Hc|done|done|done].
Qed.

Lemma strength_numeric : numeric (server_table true) STAT.STRENGTH.
Proof.
  split; [done|]. exists 4%nat. eexists. split; [vm_compute; reflexivity|]. split; vm_compute; reflexivity.
Qed.

Lemma strength_room sc : count STAT.STRENGTH (activeStatMod (self sc)) < 127 ->
  room (server_table true) hero_scene STAT.STRENGTH sc.
Proof. intros Hc. split_and!; [apply strength_numeric|vm_compute; reflexivity|done]. Qed.

Lemma small_of_int z : Z.abs z <= 2 ^ 16 -> small (float_of_int z).
Proof. by exists z. Qed.

Lemma hero_buffed : mods_steps true 38 no_ability hero_scene with_buff.
Proof.
  eapply rtc_l; [|apply rtc_once].
  - apply (step_item _ _ _ _ 77 STAT.STRENGTH (float_of_int 5) hero_scene with_item);
      [by apply strength_room|by apply small_of_int|]. vm_compute. reflexivity.
  - apply (step_buff _ _ _ _ 1000 BuffSource.ABILITY 1 1 200 20 STAT.STRENGTH
      (float_of_int 10) (float_of_int 10) (float_of_int 60) with_item with_buff);
      [by apply strength_room; vm_compute|by apply small_of_int|]. vm_compute. reflexivity.
Qed.

Lemma hero_steps : mods_steps true 38 no_ability hero_scene without_item.
Proof.
  eapply rtc_r; [apply hero_buffed|].
  apply (step_source _ _ _ _ 2000 4 BuffSource.ITEM with_buff without_item); [vm_compute; lia|].
  vm_compute. reflexivity.
Qed.


Lemma stats_show_modifiers_witness :
  exists sc', SendUpdatedBuffs (server_table true) 38 1000 with_buff = Some sc' /\
    value_of (server_table true) STAT.STRENGTH (css (self sc')) = Some (float_of_int 15).
Proof.
  destruct (stats_show_modifiers true 38 no_ability hero_scene with_buff 1000 hero_fresh hero_buffed)
    as (sc' & E & _ & Hv).
  exists sc'. split; [exact E|].
  assert (0 + sum STAT.STRENGTH (activeStatMod (self with_buff)) = 15) as Es by (vm_compute; reflexivity).
  rewrite <- Es. apply Hv; [apply strength_numeric|vm_compute; reflexivity|lia|rewrite Es; unfold in_signed; lia].
Defined.

Lemma saved_without_modifiers_witness :
  exists css', saved_stats (server_table true) fresh_css (self with_buff) = Some css' /\
    value_of (server_table true) STAT.STRENGTH css' = Some (float_of_int 0).
Proof.
  destruct (saved_without_modifiers true 38 no_ability hero_scene with_buff fresh_css hero_fresh hero_buffed fresh_css_ok)
    as (css' & E & Hv).
  exists css'. split; [exact E|]. rewrite (Hv _ strength_numeric). vm_compute. reflexivity.
Defined.


(** The buff is of group 20 and is kept. *)
Lemma kept_modifiers_stop_counting_witness :
  exists sc' sc2,
    RemoveAllBuffsExceptGroupID (server_table true) 38 2000 no_ability 4 20 with_buff = Ret sc' /\
    SendUpdatedBuffs (server_table true) 38 3000 sc' = Some sc2 /\
    count STAT.STRENGTH (activeStatMod (self sc2)) = 1 /\
    value_of (server_table true) STAT.STRENGTH (css (self sc2)) = Some (float_of_int 0).
Proof.
  destruct (kept_modifiers_stop_counting true 38 no_ability hero_scene with_buff 2000 3000 4 20 hero_fresh hero_buffed
    eq_refl ltac:(vm_compute; lia)) as (sc' & sc2 & E1 & E2 & Em & Hv).
  exists sc', sc2. split; [exact E1|]. split; [exact E2|]. split; [rewrite Em; vm_compute; reflexivity|].
  rewrite (Hv _ strength_numeric). vm_compute. reflexivity.
Defined.

(** The creature with the item, ridden by creature 2. *)
Definition ridden : Scene := on_self (set_mount None (Some 2) 0) with_item.

Lemma ridden_removal_diverges_witness :
  RemoveAllBuffs (server_table true) 38 1000 no_ability 100 ridden = NoFuel.
Proof.
  assert (mods_steps true 38 no_ability hero_scene with_item) as Hsteps.
  { apply rtc_once, (step_item _ _ _ _ 77 STAT.STRENGTH (float_of_int 5) hero_scene with_item);
      [by apply strength_room|by apply small_of_int|]. vm_compute. reflexivity. }
  destruct (reach_good true 38 no_ability hero_scene with_item hero_fresh Hsteps) as [Hi _].
  assert (exists m, activeStatMod (self ridden) = [m] /\ abilityID m = 0) as (m & Em & Ea)
    by (eexists; split; vm_compute; reflexivity).
  apply (ridden_removal_diverges true 38 no_ability (own (server_table true) hero_scene) ridden m 1000 100).
  - apply (inv_ext _ _ (self with_item)); [reflexivity..|exact Hi].
  - by exists 2.
  - reflexivity.
  - rewrite Em. apply list_elem_of_singleton. reflexivity.
  - exact Ea.
Defined.
