(* ===== verification/Items.v ===== *)
(** * Items: item definitions and the item store

    Models [src/SOURCE/Server/Item.h], [Item.cpp] and the part of
    [VirtualItem.cpp] that destroys items: the enumerations, the tables that
    name containers and equipment slots, the profession restrictions, the
    [ItemDef] record, its wire encoding, and [ItemManager]'s lookups.

    [ItemManager]'s two maps are kept as lists of pairs in key order, the order
    in which [std::map] iterates; a virtual item that is not in memory is
    looked up in the cluster store ([stored], the definitions
    [LoadVirtualItemWithID] would expand). Pointers to definitions are the
    definitions. *)

From Stdlib Require Import Sorting.Sorted.
From S2P Require Import Prelude ByteBuffer Messages Text.

(** ** Enumerations *)

Module ItemType.
Definition UNKNOWN : Z := 0.
Definition SYSTEM : Z := 1.
Definition WEAPON : Z := 2.
Definition ARMOR : Z := 3.
Definition CHARM : Z := 4.
Definition CONSUMABLE : Z := 5.
Definition CONTAINER : Z := 6.
Definition BASIC : Z := 7.
Definition SPECIAL : Z := 8.
Definition QUEST : Z := 9.
Definition RECIPE : Z := 10.
Definition PROP : Z := 11.
End ItemType.

Module ItemIntegerType.
Definition NONE : Z := 0.
Definition STACKING : Z := 1.
Definition DURABILITY : Z := 2.
Definition CHARGES : Z := 3.
Definition CAPACITY : Z := 4.
Definition QUEST_ID : Z := 5.
Definition RESULT_ITEM : Z := 6.
Definition KEY_COMPONENT : Z := 7.
Definition REQUIRE_ROLLING : Z := 8.
Definition LIFETIME : Z := 9.
Definition BONUS_VALUE : Z := 10.
Definition BOOK_PAGE : Z := 11.
Definition BOOK : Z := 12.
Definition BOOK_MATERIAL : Z := 13.
End ItemIntegerType.

Module ItemEquipSlot.
Definition NONE : Z := (-1).
Definition WEAPON_MAIN_HAND : Z := 0.
Definition WEAPON_OFF_HAND : Z := 1.
Definition WEAPON_RANGED : Z := 2.
Definition ARMOR_HEAD : Z := 3.
Definition ARMOR_NECK : Z := 4.
Definition ARMOR_SHOULDER : Z := 5.
Definition ARMOR_CHEST : Z := 6.
Definition ARMOR_ARMS : Z := 7.
Definition ARMOR_HANDS : Z := 8.
Definition ARMOR_WAIST : Z := 9.
Definition ARMOR_LEGS : Z := 10.
Definition ARMOR_FEET : Z := 11.
Definition ARMOR_RING_L : Z := 12.
Definition ARMOR_RING_R : Z := 13.
Definition ARMOR_AMULET : Z := 14.
Definition FOCUS_FIRE : Z := 15.
Definition FOCUS_FROST : Z := 16.
Definition FOCUS_MYSTIC : Z := 17.
Definition FOCUS_DEATH : Z := 18.
Definition CONTAINER_0 : Z := 19.
Definition CONTAINER_1 : Z := 20.
Definition CONTAINER_2 : Z := 21.
Definition CONTAINER_3 : Z := 22.
Definition COSMETIC_SHOULDER_L : Z := 23.
Definition COSMETIC_HIP_L : Z := 24.
Definition COSMETIC_SHOULDER_R : Z := 25.
Definition COSMETIC_HIP_R : Z := 26.
Definition RED_CHARM : Z := 27.
Definition GREEN_CHARM : Z := 28.
Definition BLUE_CHARM : Z := 29.
Definition ORANGE_CHARM : Z := 30.
Definition YELLOW_CHARM : Z := 31.
Definition PURPLE_CHARM : Z := 32.
Definition MAX_SLOT : Z := 33.
End ItemEquipSlot.

Module ItemEquipType.
Definition NONE : Z := 0.
Definition WEAPON_1H : Z := 1.
Definition WEAPON_1H_UNIQUE : Z := 2.
Definition WEAPON_1H_MAIN : Z := 3.
Definition WEAPON_1H_OFF : Z := 4.
Definition WEAPON_2H : Z := 5.
Definition WEAPON_RANGED : Z := 6.
Definition ARMOR_SHIELD : Z := 7.
Definition ARMOR_HEAD : Z := 8.
Definition ARMOR_NECK : Z := 9.
Definition ARMOR_SHOULDER : Z := 10.
Definition ARMOR_CHEST : Z := 11.
Definition ARMOR_ARMS : Z := 12.
Definition ARMOR_HANDS : Z := 13.
Definition ARMOR_WAIST : Z := 14.
Definition ARMOR_LEGS : Z := 15.
Definition ARMOR_FEET : Z := 16.
Definition ARMOR_RING : Z := 17.
Definition ARMOR_RING_UNIQUE : Z := 18.
Definition ARMOR_AMULET : Z := 19.
Definition FOCUS_FIRE : Z := 20.
Definition FOCUS_FROST : Z := 21.
Definition FOCUS_MYSTIC : Z := 22.
Definition FOCUS_DEATH : Z := 23.
Definition CONTAINER : Z := 24.
Definition COSEMETIC_SHOULDER : Z := 25.
Definition COSEMETIC_HIP : Z := 26.
Definition RED_CHARM : Z := 27.
Definition GREEN_CHARM : Z := 28.
Definition BLUE_CHARM : Z := 29.
Definition ORANGE_CHARM : Z := 30.
Definition YELLOW_CHARM : Z := 31.
Definition PURPLE_CHARM : Z := 32.
End ItemEquipType.

Module WeaponType.
Definition NONE : Z := 0.
Definition SMALL : Z := 1.
Definition ONE_HAND : Z := 2.
Definition TWO_HAND : Z := 3.
Definition POLE : Z := 4.
Definition WAND : Z := 5.
Definition BOW : Z := 6.
Definition THROWN : Z := 7.
Definition ARCANE_TOTEM : Z := 8.
End WeaponType.

Module ArmorType.
Definition NONE : Z := 0.
Definition CLOTH : Z := 1.
Definition LIGHT : Z := 2.
Definition MEDIUM : Z := 3.
Definition HEAVY : Z := 4.
Definition SHIELD : Z := 5.
End ArmorType.

Definition BIND_NEVER : Z := 0.
Definition BIND_ON_PICKUP : Z := 1.
Definition BIND_ON_EQUIP : Z := 2.

Definition INV_CONTAINER : Z := 0.
Definition EQ_CONTAINER : Z := 1.
Definition BANK_CONTAINER : Z := 2.
Definition BUYBACK_CONTAINER : Z := 4.
Definition STAMPS_CONTAINER : Z := 7.
Definition DELIVERY_CONTAINER : Z := 8.
Definition AUCTION_CONTAINER : Z := 9.
Definition BOOKSHELF_CONTAINER : Z := 10.

Definition INV_BASESLOTS : Z := 24.
Definition CONTAINER_ID : Z := 0xFFFF0000.
Definition CONTAINER_SLOT : Z := 0x0000FFFF.
Definition ITEM_ID_CHANGE : Z := 32.

(** ** Item definitions

    [float] fields are bit patterns. *)

Record ItemDef := mkItemDef {
  mID : Z;
  mType : Z;
  mDisplayName : string;
  mAppearance : string;
  mIcon : string;
  mIvType1 : Z;
  mIvMax1 : Z;
  mIvType2 : Z;
  mIvMax2 : Z;
  mSv1 : string;
  _mCopper : Z;
  mContainerSlots : Z;
  mAutoTitleType : Z;
  mLevel : Z;
  mBindingType : Z;
  mEquipType : Z;
  mWeaponType : Z;
  mWeaponDamageMin : Z;
  mWeaponDamageMax : Z;
  _mSpeed : Z;
  mWeaponExtraDamangeRating : Z;
  mWeaponExtraDamageType : Z;
  mEquipEffectId : Z;
  mUseAbilityId : Z;
  mActionAbilityId : Z;
  mArmorType : Z;
  mArmorResistMelee : Z;
  mArmorResistFire : Z;
  mArmorResistFrost : Z;
  mArmorResistMystic : Z;
  mArmorResistDeath : Z;
  mBonusStrength : Z;
  mBonusDexterity : Z;
  mBonusConstitution : Z;
  mBonusPsyche : Z;
  mBonusSpirit : Z;
  _mBonusHealth : Z;
  mBonusWill : Z;
  isCharm : Z;
  mMeleeHitMod : Z;
  mMeleeCritMod : Z;
  mMagicHitMod : Z;
  mMagicCritMod : Z;
  mParryMod : Z;
  mBlockMod : Z;
  mRunSpeedMod : Z;
  mRegenHealthMod : Z;
  mAttackSpeedMod : Z;
  mCastSpeedMod : Z;
  mHealingMod : Z;
  mValue : Z;
  mValueType : Z;
  resultItemId : Z;
  keyComponentId : Z;
  numberOfItems : Z;
  craftItemDefId : list Z;
  mFlavorText : string;
  mSpecialItemType : Z;
  mOwnershipRestriction : Z;
  mQualityLevel : Z;
  mMinUseLevel : Z;
  Params : string
}.

(** [ItemDef::Reset]. *)
Definition ItemDef_new : ItemDef :=
  {| mID := 0;
     mType := 0;
     mDisplayName := EmptyString;
     mAppearance := EmptyString;
     mIcon := EmptyString;
     mIvType1 := 0;
     mIvMax1 := 0;
     mIvType2 := 0;
     mIvMax2 := 0;
     mSv1 := EmptyString;
     _mCopper := 0;
     mContainerSlots := 0;
     mAutoTitleType := 0;
     mLevel := 0;
     mBindingType := 0;
     mEquipType := 0;
     mWeaponType := 0;
     mWeaponDamageMin := 0;
     mWeaponDamageMax := 0;
     _mSpeed := 0;
     mWeaponExtraDamangeRating := 0;
     mWeaponExtraDamageType := 0;
     mEquipEffectId := 0;
     mUseAbilityId := 0;
     mActionAbilityId := 0;
     mArmorType := 0;
     mArmorResistMelee := 0;
     mArmorResistFire := 0;
     mArmorResistFrost := 0;
     mArmorResistMystic := 0;
     mArmorResistDeath := 0;
     mBonusStrength := 0;
     mBonusDexterity := 0;
     mBonusConstitution := 0;
     mBonusPsyche := 0;
     mBonusSpirit := 0;
     _mBonusHealth := 0;
     mBonusWill := 0;
     isCharm := 0;
     mMeleeHitMod := 0;
     mMeleeCritMod := 0;
     mMagicHitMod := 0;
     mMagicCritMod := 0;
     mParryMod := 0;
     mBlockMod := 0;
     mRunSpeedMod := 0;
     mRegenHealthMod := 0;
     mAttackSpeedMod := 0;
     mCastSpeedMod := 0;
     mHealingMod := 0;
     mValue := 0;
     mValueType := 0;
     resultItemId := 0;
     keyComponentId := 0;
     numberOfItems := 0;
     craftItemDefId := [];
     mFlavorText := EmptyString;
     mSpecialItemType := 0;
     mOwnershipRestriction := 0;
     mQualityLevel := 0;
     mMinUseLevel := 0;
     Params := EmptyString |}.

Definition GetDynamicMax (d : ItemDef) (type : Z) : Z :=
  if mIvType1 d =? type then mIvMax1 d
  else if mIvType2 d =? type then mIvMax2 d
  else -1.

(** The definition message, for the protocol version [g_ProtocolVersion]. *)
Definition PrepExt_ItemDef (g_ProtocolVersion : Z) (item : ItemDef) (ProtocolState : Z) : list Z :=
  let message := if ProtocolState =? 0 then 4 else 71 in
  let PutStat := if g_ProtocolVersion =? 7 then PutByte else PutInteger in
  seal (PutByte message ++ PutShort 0 ++ PutInteger (mID item) ++
    PutByte (mType item) ++ PutStringUTF (mDisplayName item) ++
    PutStringUTF (mAppearance item) ++ PutStringUTF (mIcon item) ++
    PutByte (mIvType1 item) ++ PutShort (mIvMax1 item) ++
    PutByte (mIvType2 item) ++ PutShort (mIvMax2 item) ++ PutStringUTF (mSv1 item) ++
    (if g_ProtocolVersion <? 5 then PutInteger (_mCopper item) else []) ++
    PutShort (mContainerSlots item) ++ PutByte (mAutoTitleType item) ++
    PutShort (mLevel item) ++ PutByte (mBindingType item) ++ PutByte (mEquipType item) ++
    PutByte (mWeaponType item) ++
    (if negb (mWeaponType item =? 0) then
       PutStat (mWeaponDamageMin item) ++ PutStat (mWeaponDamageMax item) ++
       (if g_ProtocolVersion =? 7 then PutByte (_mSpeed item) else []) ++
       PutByte (mWeaponExtraDamangeRating item) ++ PutByte (mWeaponExtraDamageType item)
     else []) ++
    PutInteger (mEquipEffectId item) ++ PutInteger (mUseAbilityId item) ++
    PutInteger (mActionAbilityId item) ++ PutByte (mArmorType item) ++
    (if negb (mArmorType item =? 0) then
       PutStat (mArmorResistMelee item) ++ PutStat (mArmorResistFire item) ++
       PutStat (mArmorResistFrost item) ++ PutStat (mArmorResistMystic item) ++
       PutStat (mArmorResistDeath item)
     else []) ++
    PutStat (mBonusStrength item) ++ PutStat (mBonusDexterity item) ++
    PutStat (mBonusConstitution item) ++ PutStat (mBonusPsyche item) ++
    PutStat (mBonusSpirit item) ++
    (if g_ProtocolVersion <? 32 then PutStat (_mBonusHealth item) else []) ++
    PutStat (mBonusWill item) ++
    (if 4 <=? g_ProtocolVersion then
       PutByte (isCharm item) ++
       (if negb (isCharm item =? 0) then
          PutFloat (mMeleeHitMod item) ++ PutFloat (mMeleeCritMod item) ++
          PutFloat (mMagicHitMod item) ++ PutFloat (mMagicCritMod item) ++
          PutFloat (mParryMod item) ++ PutFloat (mBlockMod item) ++
          PutFloat (mRunSpeedMod item) ++ PutFloat (mRegenHealthMod item) ++
          PutFloat (mAttackSpeedMod item) ++ PutFloat (mCastSpeedMod item) ++
          PutFloat (mHealingMod item)
        else [])
     else []) ++
    (if 5 <=? g_ProtocolVersion then
       PutInteger (mValue item) ++ PutByte (mValueType item)
     else []) ++
    (if 7 <=? g_ProtocolVersion then
       PutInteger (resultItemId item) ++ PutInteger (keyComponentId item) ++
       PutInteger (numberOfItems item) ++ concat (map PutInteger (craftItemDefId item))
     else []) ++
    (if 9 <=? g_ProtocolVersion then PutStringUTF (mFlavorText item) else []) ++
    (if 18 <=? g_ProtocolVersion then PutByte (mSpecialItemType item) else []) ++
    (if 30 <=? g_ProtocolVersion then PutByte (mOwnershipRestriction item) else []) ++
    (if 31 <=? g_ProtocolVersion then
       PutByte (mQualityLevel item) ++ PutShort (mMinUseLevel item)
     else [])).

(** ** Tables *)

Definition IsWeaponTwoHanded (equipType weaponType : Z) : bool :=
  (equipType =? ItemEquipType.WEAPON_2H) || (weaponType =? WeaponType.POLE)
  || (weaponType =? WeaponType.TWO_HAND).

Module WeaponTypeClassRestrictions.
Definition MAXWEAPON : Z := 9.
Definition MAXPROFESSION : Z := 5.

(** Rows: weapon types; columns: none, knight, rogue, mage, druid. *)
Definition restrictData : list (list bool) :=
  [[false; false; false; false; false];
   [false; false; true;  true;  false];
   [false; true;  true;  false; true ];
   [false; true;  false; false; false];
   [false; false; false; true;  true ];
   [false; false; false; true;  true ];
   [false; true;  true;  false; true ];
   [false; true;  true;  true;  false];
   [false; true;  true;  true;  true ]].

(** The row lookup is in range when the guards pass; [default] is not reached. *)
Definition isValid (weaponType profession : Z) : bool :=
  if (weaponType <? 0) || (MAXWEAPON <=? weaponType) then false
  else if (profession <? 0) || (MAXPROFESSION <=? profession) then false
  else default false
         (restrictData !! Z.to_nat weaponType ≫= fun row => row !! Z.to_nat profession).
End WeaponTypeClassRestrictions.

Definition InventoryMapping : list (string * Z) :=
  [("inv", 0); ("inventory", 0); ("eq", 1); ("eq_head", 1); ("bank", 2); ("shop", 3);
   ("buyback", 4); ("trade", 5); ("stamps", 7); ("delivery", 8); ("auction", 9);
   ("bookshelf", 10)].

Definition EquipmentMapping : list (string * Z) :=
  [("eq_main_hand", ItemEquipSlot.WEAPON_MAIN_HAND);
   ("eq_off_hand", ItemEquipSlot.WEAPON_OFF_HAND);
   ("eq_ranged", ItemEquipSlot.WEAPON_RANGED);
   ("eq_head", ItemEquipSlot.ARMOR_HEAD);
   ("eq_neck", ItemEquipSlot.ARMOR_NECK);
   ("eq_shoulders", ItemEquipSlot.ARMOR_SHOULDER);
   ("eq_chest", ItemEquipSlot.ARMOR_CHEST);
   ("eq_arms", ItemEquipSlot.ARMOR_ARMS);
   ("eq_hands", ItemEquipSlot.ARMOR_HANDS);
   ("eq_waist", ItemEquipSlot.ARMOR_WAIST);
   ("eq_legs", ItemEquipSlot.ARMOR_LEGS);
   ("eq_feet", ItemEquipSlot.ARMOR_FEET);
   ("eq_ring_l", ItemEquipSlot.ARMOR_RING_L);
   ("eq_ring_r", ItemEquipSlot.ARMOR_RING_R);
   ("eq_amulet", ItemEquipSlot.ARMOR_AMULET);
   ("eq_focus_fire", ItemEquipSlot.FOCUS_FIRE);
   ("eq_focus_frost", ItemEquipSlot.FOCUS_FROST);
   ("eq_focus_mystic", ItemEquipSlot.FOCUS_MYSTIC);
   ("eq_focus_death", ItemEquipSlot.FOCUS_DEATH);
   ("eq_cosmetic_shoulder_l", ItemEquipSlot.COSMETIC_SHOULDER_L);
   ("eq_cosmetic_hip_l", ItemEquipSlot.COSMETIC_HIP_L);
   ("eq_cosmetic_shoulder_r", ItemEquipSlot.COSMETIC_SHOULDER_R);
   ("eq_cosmetic_hip_r", ItemEquipSlot.COSMETIC_HIP_R);
   ("eq_red_charm", ItemEquipSlot.RED_CHARM);
   ("eq_green_charm", ItemEquipSlot.GREEN_CHARM);
   ("eq_blue_charm", ItemEquipSlot.BLUE_CHARM);
   ("eq_orange_charm", ItemEquipSlot.ORANGE_CHARM);
   ("eq_yellow_charm", ItemEquipSlot.YELLOW_CHARM);
   ("eq_purple_charm", ItemEquipSlot.PURPLE_CHARM)].

(** The first entry with that name, or -1: [strcmp] over the table. *)
Definition id_of_name (table : list (string * Z)) (name : string) : Z :=
  match find_idx (fun e => String.eqb e.1 (cstr name)) table with
  | Some i => default (-1) (snd <$> table !! i)
  | None => -1
  end.

Definition GetContainerIDFromName (name : string) : Z := id_of_name InventoryMapping name.
Definition GetEQSlotFromName (name : string) : Z := id_of_name EquipmentMapping name.

Definition IsContainerIDValid (ID : Z) : bool := existsb (fun e => e.2 =? ID) InventoryMapping.

Definition GetContainerNameFromID (ID : Z) : string :=
  match find_idx (fun e : string * Z => e.2 =? ID) InventoryMapping with
  | Some i => default "UNKNOWN" (fst <$> InventoryMapping !! i)
  | None => "UNKNOWN"
  end.

Definition Map_EquipType : list string :=
  ["None"; "One-Hand"; "One-Hand Unique"; "One-Hand Main"; "One-Hand Offhand"; "Two-Hand";
   "Ranged"; "Shield"; "Head"; "Neck"; "Shoulder"; "Chest"; "Arms"; "Hands"; "Waist"; "Legs";
   "Feet"; "Ring"; "Ring Unique"; "Amulet"; "Focus Fire"; "Focus Frost"; "Focus Mystic";
   "Focus Death"; "Container"; "Cosmetic Shoulder"; "Cosmetic Hip"; "Red Charm"; "Green Charm";
   "Blue Charm"; "Orange Charm"; "Yellow Charm"; "Purple Charm"].
Definition Map_ArmorType : list string :=
  ["None"; "Cloth"; "Light"; "Medium"; "Heavy"; "Shield"].
Definition Map_WeaponType : list string :=
  ["None"; "Small"; "One Hand"; "Two Hand"; "Pole"; "Wand"; "Bow"; "Thrown"; "Arcane Totem"].

(** Table access by a C++ index: outside the table is undefined ([None]). *)
Definition at_index {A} (table : list A) (i : Z) : option A :=
  if i <? 0 then None else table !! Z.to_nat i.

Definition GetEquipType (Type_ : Z) : option string :=
  if 32 <? Type_ then at_index Map_EquipType 0 else at_index Map_EquipType Type_.
Definition GetArmorType (Type_ : Z) : option string :=
  if 5 <? Type_ then at_index Map_ArmorType 0 else at_index Map_ArmorType Type_.
Definition GetWeaponType (Type_ : Z) : option string :=
  if 8 <? Type_ then at_index Map_WeaponType 0 else at_index Map_WeaponType Type_.

Definition GetIDSlot (ID slot : Z) : Z := Z.lor (u64 (Z.shiftl ID 16)) slot.

Definition GetItemProto (ItemID count : Z) : string :=
  "item" +:+ sprintf_d ItemID +:+ ":0:" +:+ sprintf_d count +:+ ":0".

(** ** The item store *)

Definition BASE_VIRTUAL_ITEM_ID : Z := 5000000.

Record ItemManager := mkItemManager {
  ItemList : list (Z * ItemDef);
  VItemList : gmap Z ItemDef;
  stored : gmap Z ItemDef
}.

(** The position [map::find] returns; [None] is [end()]. *)
Definition find_key (ID : Z) (items : list (Z * ItemDef)) : option nat :=
  find_idx (fun e => e.1 =? ID) items.

Definition at_key (ID : Z) (items : list (Z * ItemDef)) : option ItemDef :=
  find_key ID items ≫= fun i => snd <$> items !! i.

(** [map::insert] and [operator []] at a key in order, keeping an existing entry. *)
Fixpoint insert_key (ID : Z) (d : ItemDef) (items : list (Z * ItemDef)) : list (Z * ItemDef) :=
  match items with
  | [] => [(ID, d)]
  | (k, e) :: items' =>
      if k =? ID then items
      else if ID <? k then (ID, d) :: items
      else (k, e) :: insert_key ID d items'
  end.

(** [ReadEntity] fills the definition stored under the identifier and
    [InsertVirtualItem] puts it under the definition's own [mID]. *)
Definition LoadVirtualItemWithID (m : ItemManager) (itemID : Z) : ItemManager :=
  match stored m !! itemID with
  | None => m
  | Some d =>
      match VItemList m !! mID d with
      | Some _ => m
      | None => mkItemManager (ItemList m) (<[mID d := d]> (VItemList m)) (stored m)
      end
  end.

Definition GetDefaultItemPtr (m : ItemManager) : ItemDef * ItemManager :=
  match at_key 0 (ItemList m) with
  | Some d => (d, m)
  | None => (ItemDef_new, mkItemManager (insert_key 0 ItemDef_new (ItemList m))
                                        (VItemList m) (stored m))
  end.

(** The search in [VItemList], after loading the entry if it is not there. *)
Definition find_virtual (m : ItemManager) (ID : Z) : option ItemDef * ItemManager :=
  match VItemList m !! ID with
  | Some d => (Some d, m)
  | None => let m' := LoadVirtualItemWithID m ID in (VItemList m' !! ID, m')
  end.

Definition GetPointerByID (m : ItemManager) (ID : Z) : option ItemDef * ItemManager :=
  if ID <? BASE_VIRTUAL_ITEM_ID then (at_key ID (ItemList m), m)
  else find_virtual m ID.

Definition GetVirtualItem (m : ItemManager) (ID : Z) : option ItemDef * ItemManager :=
  if ID <? BASE_VIRTUAL_ITEM_ID then (None, m) else find_virtual m ID.

Definition GetSafePointerByID (m : ItemManager) (ID : Z) : ItemDef * ItemManager :=
  let (found, m') := GetPointerByID m ID in
  match found with
  | Some d => (d, m')
  | None => GetDefaultItemPtr m'
  end.

(** The first definition in key order that satisfies [p], else the default. *)
Definition first_or_default (p : ItemDef -> bool) (m : ItemManager) : ItemDef * ItemManager :=
  match find_idx (fun e => p e.2) (ItemList m) ≫= fun i => ItemList m !! i with
  | Some e => (e.2, m)
  | None => GetDefaultItemPtr m
  end.

(** [a.find(b) != npos]. *)
Definition contains (a b : string) : bool :=
  match String.index 0 b a with Some _ => true | None => false end.

Definition GetSafePointerByExactName (m : ItemManager) (name : string) : ItemDef * ItemManager :=
  first_or_default (fun d => String.eqb (mDisplayName d) name) m.
Definition GetSafePointerByPartialName (m : ItemManager) (name : string) : ItemDef * ItemManager :=
  first_or_default (fun d => contains (mDisplayName d) name) m.

Definition GetStandardCount (m : ItemManager) : Z := Z.of_nat (length (ItemList m)).

(** [RemoveEntity] runs only when [ReadEntity] finds the stored item. *)
Definition NotifyDestroy (m : ItemManager) (itemID : Z) : ItemManager :=
  if itemID <? BASE_VIRTUAL_ITEM_ID then m
  else match VItemList m !! itemID with
       | None => m
       | Some _ => mkItemManager (ItemList m) (delete itemID (VItemList m))
                                 (delete itemID (stored m))
       end.

(** ** Enumerations of the standard items *)

(** The loop of both partial searches: [maxCount] is tested after an item is
    taken, so a [maxCount] below 1 still takes one. *)
Fixpoint enum_matching (p : ItemDef -> bool) (items : list (Z * ItemDef)) (addCount maxCount : Z)
    : list ItemDef :=
  match items with
  | [] => []
  | (_, d) :: items' =>
      if p d then
        d :: (if maxCount <=? addCount + 1 then []
              else enum_matching p items' (addCount + 1) maxCount)
      else enum_matching p items' addCount maxCount
  end.

Definition EnumPointersByPartialName (m : ItemManager) (search : string) (maxCount : Z) :=
  enum_matching (fun d => contains (mDisplayName d) search) (ItemList m) 0 maxCount.
Definition EnumPointersByPartialAppearance (m : ItemManager) (search : string) (maxCount : Z) :=
  enum_matching (fun d => contains (mAppearance d) search) (ItemList m) 0 maxCount.

(** [while(start != end) { if(take start) push_back(search); ++search; }]:
    [moved] is the test of the loop, whose operands the body does not change.
    Dereferencing the iterator past the last item is undefined ([None]). *)
Fixpoint enum_range (moved : bool) (take_ : bool) (rest : list (Z * ItemDef)) (acc : list ItemDef)
    : option (list ItemDef) :=
  if moved then
    match rest with
    | [] => None
    | (_, d) :: rest' => enum_range moved take_ rest' (if take_ then acc ++ [d] else acc)
    end
  else Some acc.

(** [resultList] starts empty at every call in the program. *)
Definition EnumPointersByIDRange (m : ItemManager) (minID maxID : Z) : option (list ItemDef) :=
  match find_key minID (ItemList m), find_key maxID (ItemList m) with
  | Some s, Some e => enum_range (negb (s =? e)%nat) true (drop s (ItemList m)) []
  | _, _ => Some []
  end.

Definition EnumPointersByRangeType (m : ItemManager) (minID maxID eqType : Z)
    : option (list ItemDef) :=
  match find_key minID (ItemList m), find_key maxID (ItemList m) with
  | Some s, Some e =>
      let first_type := default 0 (mEquipType ∘ snd <$> ItemList m !! s) in
      enum_range (negb (s =? e)%nat) (first_type =? eqType) (drop s (ItemList m)) []
  | _, _ => Some []
  end.

(** [Gamble.h]'s query record. *)
Record ItemListQuery := mkItemListQuery {
  minID : Z; maxID : Z; equipType : Z; weaponType : Z; minLevel : Z; maxLevel : Z
}.

Definition FIELD_UNUSED : Z := -1.
Definition ItemListQuery_Reset : ItemListQuery :=
  mkItemListQuery FIELD_UNUSED FIELD_UNUSED FIELD_UNUSED FIELD_UNUSED FIELD_UNUSED FIELD_UNUSED.

(** The [continue] tests of [EnumPointersByQuery], all of them passed. *)
Definition query_accepts (q : ItemListQuery) (item : ItemDef) : bool :=
  let used f := negb (f q =? FIELD_UNUSED) in
  negb (used minLevel && (mMinUseLevel item <? minLevel q)) &&
  negb (used maxLevel && (maxLevel q <? mMinUseLevel item)) &&
  negb (used equipType &&
        (if negb (equipType q =? 0) then negb (mEquipType item =? equipType q)
         else negb (mWeaponType item =? 0))) &&
  negb (used weaponType &&
        (if negb (weaponType q =? 0) then negb (mWeaponType item =? weaponType q)
         else mWeaponType item =? 0)).

(** [for(it = istart; it != iend; ++it)], [left] iterators before [iend]; when
    [iend] lies before [istart] the loop runs off the map. *)
Fixpoint enum_query (q : ItemListQuery) (it iend : nat) (rest : list (Z * ItemDef))
    : option (list ItemDef) :=
  if (it =? iend)%nat then Some []
  else match rest with
       | [] => None
       | (_, d) :: rest' =>
           (fun l => if query_accepts q d then d :: l else l) <$> enum_query q (S it) iend rest'
       end.

(** The iterator for a bound: [dflt] when unused, [None] when not found. *)
Definition query_bound (m : ItemManager) (bound : Z) (dflt : nat) : option nat :=
  if bound =? FIELD_UNUSED then Some dflt else find_key bound (ItemList m).

Definition EnumPointersByQuery (m : ItemManager) (q : ItemListQuery) : option (list ItemDef) :=
  match query_bound m (minID q) 0 with
  | None => Some []
  | Some istart =>
      match query_bound m (maxID q) (length (ItemList m)) with
      | None => Some []
      | Some iend => enum_query q istart iend (drop istart (ItemList m))
      end
  end.

(** ** The lookup interface the other components use

    [GetPointerByID] only fills a cache, so its clients see a fixed function;
    a definition found under an identifier carries that identifier. *)

Class ItemDb := {
  item_of : Z -> option ItemDef;
  default_item : ItemDef;
  item_of_mID : forall ID d, item_of ID = Some d -> mID d = ID
}.

(** Every definition is filed under its own [mID]; the standard list is in key
    order. *)
Record ItemManager_wf (m : ItemManager) : Prop := {
  wf_list : Forall (fun e => mID e.2 = e.1) (ItemList m);
  wf_sorted : StronglySorted (fun e1 e2 => e1.1 < e2.1) (ItemList m);
  wf_virtual : map_Forall (fun ID d => mID d = ID) (VItemList m);
  wf_stored : map_Forall (fun ID d => mID d = ID) (stored m)
}.

(** ** Lemmas *)

Lemma at_key_lookup ID items d :
  at_key ID items = Some d -> exists i, items !! i = Some (ID, d).
Proof.
  unfold at_key, find_key. intros H.
  destruct (find_idx _ items) as [i|] eqn:E; [|done]. simpl in H.
  apply find_idx_lookup in E as ([k e] & Hi & Hk). simpl in Hk. to_prop. subst.
  rewrite Hi in H. simplify_eq/=. eauto.
Qed.

Lemma at_key_None ID items : at_key ID items = None <-> Forall (fun e => e.1 <> ID) items.
Proof.
  unfold at_key, find_key. destruct (find_idx _ items) as [i|] eqn:E; simpl.
  - apply find_idx_lookup in E as ([k e] & Hi & Hk). rewrite Hi. split; [done|].
    intros H. apply (Forall_lookup_1 _ _ _ _ H) in Hi. simpl in *. by to_prop.
  - split; [|done]. intros _. apply find_idx_None in E.
    eapply list.Forall_impl; [exact E|]. intros e He. simpl in He. by to_prop.
Qed.

Lemma find_virtual_fst m ID :
  fst (find_virtual m ID) =
  match VItemList m !! ID with
  | Some d => Some d
  | None => VItemList (LoadVirtualItemWithID m ID) !! ID
  end.
Proof. unfold find_virtual. by destruct (VItemList m !! ID). Qed.

Section Store.
Context (m : ItemManager) (Hwf : ItemManager_wf m).

(** What the search for a virtual item sees: memory first, then the store. *)
Lemma find_virtual_spec_lemma ID :
  fst (find_virtual m ID) = VItemList m !! ID ∪ stored m !! ID.
Proof.
  rewrite find_virtual_fst. destruct (VItemList m !! ID) as [d|] eqn:E.
  { by destruct (stored m !! ID). }
  unfold LoadVirtualItemWithID. destruct (stored m !! ID) as [d|] eqn:Es; [|by rewrite E].
  rewrite (wf_stored _ Hwf _ _ Es), E. simpl. by rewrite lookup_insert_eq.
Qed.

Lemma LoadVirtualItemWithID_sees ID' ID :
  let m' := LoadVirtualItemWithID m ID' in
  VItemList m' !! ID ∪ stored m' !! ID = VItemList m !! ID ∪ stored m !! ID
  /\ ItemList m' = ItemList m /\ ItemManager_wf m'.
Proof.
  unfold LoadVirtualItemWithID. destruct (stored m !! ID') as [d|] eqn:Es; [|done].
  pose proof (wf_stored _ Hwf _ _ Es) as Hd. simpl in Hd.
  destruct (VItemList m !! mID d) eqn:Ev; [done|]. simpl. split_and!; [|done|].
  - destruct (decide (ID = mID d)) as [->|].
    + rewrite lookup_insert_eq. rewrite Hd in *. by rewrite Es, Ev.
    + by rewrite lookup_insert_ne.
  - destruct Hwf. split; simpl; [done..| |done]. apply map_Forall_insert_2; [done|done].
Qed.

Lemma find_virtual_state ID : snd (find_virtual m ID) = m \/ snd (find_virtual m ID) = LoadVirtualItemWithID m ID.
Proof. unfold find_virtual. destruct (VItemList m !! ID); auto. Qed.

Lemma GetPointerByID_spec_lemma ID :
  fst (GetPointerByID m ID) =
  if ID <? BASE_VIRTUAL_ITEM_ID then at_key ID (ItemList m)
  else VItemList m !! ID ∪ stored m !! ID.
Proof. unfold GetPointerByID. case_test; [done|]. apply find_virtual_spec_lemma. Qed.

Lemma GetPointerByID_mID ID d : fst (GetPointerByID m ID) = Some d -> mID d = ID.
Proof.
  rewrite GetPointerByID_spec_lemma. case_test.
  - intros (i & Hi)%at_key_lookup. exact (Forall_lookup_1 _ _ _ _ (wf_list _ Hwf) Hi).
  - intros [H|[_ H]]%union_Some.
    + exact (wf_virtual _ Hwf _ _ H).
    + exact (wf_stored _ Hwf _ _ H).
Qed.

(** The store as the interface the other components are written against. *)
Definition ItemManager_db : ItemDb :=
  {| item_of := fun ID => fst (GetPointerByID m ID);
     default_item := fst (GetDefaultItemPtr m);
     item_of_mID := GetPointerByID_mID |}.

End Store.

Abbreviation key_lt := (fun e1 e2 : Z * ItemDef => e1.1 < e2.1).

Lemma sorted_lookup_lt l i j e1 e2 :
  StronglySorted key_lt l -> l !! i = Some e1 -> l !! j = Some e2 -> (i < j)%nat -> e1.1 < e2.1.
Proof.
  intros Hs. revert i j. induction Hs as [|x l _ IH Hx]; intros [|i] [|j] H1 H2 Hij; simplify_eq/=; try lia.
  - exact (Forall_lookup_1 _ _ _ _ Hx H2).
  - eapply IH; eauto with lia.
Qed.

Lemma filter_all_true (p : Z * ItemDef -> bool) l :
  Forall (fun e => p e = true) l -> List.filter p l = l.
Proof. induction 1 as [|x l Hx _ IH]; simpl; [done|]. by rewrite Hx, IH. Qed.

Lemma filter_all_false (p : Z * ItemDef -> bool) l :
  Forall (fun e => p e = false) l -> List.filter p l = [].
Proof. induction 1 as [|x l Hx _ IH]; simpl; [done|]. by rewrite Hx. Qed.

(** In key order the entries from a key on are a suffix, those before it a prefix. *)
Lemma sorted_split l s e0 :
  StronglySorted key_lt l -> l !! s = Some e0 ->
  drop s l = List.filter (fun e => e0.1 <=? e.1) l /\
  take s l = List.filter (fun e => e.1 <? e0.1) l.
Proof.
  intros Hs. revert s. induction Hs as [|x l Hs IH Hx]; intros [|s] H; simplify_eq/=.
  - rewrite Z.leb_refl, Z.ltb_irrefl.
    rewrite filter_all_true, filter_all_false; [done|..];
      eapply list.Forall_impl; [exact Hx| |exact Hx|]; simpl; intros; lia.
  - destruct (IH s H) as [Hd Ht].
    pose proof (Forall_lookup_1 _ _ _ _ Hx H) as Hlt. simpl in Hlt.
    rewrite (proj2 (Z.leb_gt _ _) Hlt), (proj2 (Z.ltb_lt _ _) Hlt). by rewrite Hd, Ht.
Qed.

Lemma StronglySorted_drop l s : StronglySorted key_lt l -> StronglySorted key_lt (drop s l).
Proof.
  intros H. revert s. induction H as [|x l Hs IH Hx]; intros [|s]; simpl; [constructor..| |apply IH].
  by constructor.
Qed.

Lemma enum_query_spec q it iend rest :
  (it <= iend <= it + length rest)%nat ->
  enum_query q it iend rest =
  Some (map snd (List.filter (fun e => query_accepts q e.2) (take (iend - it) rest))).
Proof.
  revert it. induction rest as [|[k d] rest IH]; intros it Hr; simpl in *.
  - replace iend with it by lia. rewrite Nat.eqb_refl. by rewrite take_nil.
  - destruct (it =? iend)%nat eqn:E; to_prop; [subst; by rewrite Nat.sub_diag|].
    rewrite IH by lia. replace (iend - it)%nat with (S (iend - S it)) by lia. simpl.
    by destruct (query_accepts q d).
Qed.

Lemma find_key_lookup ID items i : find_key ID items = Some i -> exists d, items !! i = Some (ID, d).
Proof.
  intros ([k d] & Hi & Hk)%find_idx_lookup. simpl in Hk. to_prop. subst. eauto.
Qed.

(** The keys between the query's bounds; the upper one is excluded. *)
Definition in_bounds (q : ItemListQuery) (k : Z) : bool :=
  ((minID q =? FIELD_UNUSED) || (minID q <=? k)) && ((maxID q =? FIELD_UNUSED) || (k <? maxID q)).

Lemma filter_filter_b {A} (p1 p2 : A -> bool) l :
  List.filter p1 (List.filter p2 l) = List.filter (fun x => p2 x && p1 x) l.
Proof.
  induction l as [|x l IH]; simpl; [done|]. destruct (p2 x); simpl; [|done].
  destruct (p1 x); by rewrite IH.
Qed.

(** The range the query walks is the bounded part of the list. *)
Lemma query_range l q s e :
  StronglySorted key_lt l ->
  (if minID q =? FIELD_UNUSED then Some 0%nat else find_key (minID q) l) = Some s ->
  (if maxID q =? FIELD_UNUSED then Some (length l) else find_key (maxID q) l) = Some e ->
  (s <= e)%nat ->
  take (e - s) (drop s l) = List.filter (fun x => in_bounds q x.1) l.
Proof.
  intros Hs Hmin Hmax Hle. unfold in_bounds.
  assert (drop s l = List.filter (fun x => (minID q =? FIELD_UNUSED) || (minID q <=? x.1)) l) as Hd.
  { destruct (minID q =? FIELD_UNUSED); simpl.
    - simplify_eq. rewrite filter_all_true; [done|]. by apply Forall_true.
    - apply find_key_lookup in Hmin as [d Hi]. exact (proj1 (sorted_split _ _ _ Hs Hi)). }
  rewrite <- filter_filter_b, <- Hd. destruct (maxID q =? FIELD_UNUSED); simpl.
  - simplify_eq. rewrite take_ge by (rewrite length_drop; lia).
    rewrite filter_all_true; [done|]. by apply Forall_true.
  - apply find_key_lookup in Hmax as [d Hi].
    refine (proj2 (sorted_split _ _ (maxID q, d) (StronglySorted_drop _ s Hs) _)).
    rewrite lookup_drop. by replace (s + (e - s))%nat with e by lia.
Qed.

Lemma enum_range_moved take_ rest acc : enum_range true take_ rest acc = None.
Proof. revert acc. induction rest as [|[k d] rest IH]; intros acc; simpl; [done|]. apply IH. Qed.

(** A store for the witnesses: item 5 in the standard list, item 5000007 only
    in the cluster. *)
Definition example_item (ID : Z) : ItemDef :=
  {| mID := ID; mType := 7; mDisplayName := "Potion"; mAppearance := ""; mIcon := "";
     mIvType1 := 1; mIvMax1 := 10; mIvType2 := 0; mIvMax2 := 0; mSv1 := ""; _mCopper := 0;
     mContainerSlots := 0; mAutoTitleType := 0; mLevel := 1; mBindingType := 0; mEquipType := 0;
     mWeaponType := 0; mWeaponDamageMin := 0; mWeaponDamageMax := 0; _mSpeed := 0;
     mWeaponExtraDamangeRating := 0; mWeaponExtraDamageType := 0; mEquipEffectId := 0;
     mUseAbilityId := 0; mActionAbilityId := 0; mArmorType := 0; mArmorResistMelee := 0;
     mArmorResistFire := 0; mArmorResistFrost := 0; mArmorResistMystic := 0;
     mArmorResistDeath := 0; mBonusStrength := 0; mBonusDexterity := 0; mBonusConstitution := 0;
     mBonusPsyche := 0; mBonusSpirit := 0; _mBonusHealth := 0; mBonusWill := 0; isCharm := 0;
     mMeleeHitMod := 0; mMeleeCritMod := 0; mMagicHitMod := 0; mMagicCritMod := 0;
     mParryMod := 0; mBlockMod := 0; mRunSpeedMod := 0; mRegenHealthMod := 0;
     mAttackSpeedMod := 0; mCastSpeedMod := 0; mHealingMod := 0; mValue := 12; mValueType := 0;
     resultItemId := 0; keyComponentId := 0; numberOfItems := 0; craftItemDefId := [];
     mFlavorText := ""; mSpecialItemType := 0; mOwnershipRestriction := 0; mQualityLevel := 0;
     mMinUseLevel := 3; Params := "" |}.

Definition example_store : ItemManager :=
  mkItemManager [(0, ItemDef_new); (5, example_item 5); (9, example_item 9)] ∅
    {[ 5000007 := example_item 5000007 ]}.

Lemma example_store_wf : ItemManager_wf example_store.
Proof.
  split; simpl.
  - by repeat constructor.
  - by repeat (constructor; simpl; [|try lia]); repeat constructor; simpl; lia.
  - apply map_Forall_empty.
  - by apply map_Forall_singleton.
Defined.

(** Looking items up is a function of the store: no lookup, although it may
    load a virtual item from the cluster, changes what a later lookup finds,
    and a virtual item is found exactly when it is in memory or stored. *)
Theorem GetPointerByID_pure (m : ItemManager) (ID ID' : Z) (Hwf : ItemManager_wf m) :
  let m' := snd (GetPointerByID m ID') in
  ItemManager_wf m' /\ fst (GetPointerByID m' ID) = fst (GetPointerByID m ID)
  /\ fst (GetPointerByID m ID) =
     (if ID <? BASE_VIRTUAL_ITEM_ID then at_key ID (ItemList m)
      else VItemList m !! ID ∪ stored m !! ID).
Proof.
  assert (snd (GetPointerByID m ID') = m \/
          snd (GetPointerByID m ID') = LoadVirtualItemWithID m ID') as [->| ->].
  { unfold GetPointerByID. case_test; [by left|]. apply find_virtual_state. }
  { split_and!; [done..|]. by apply GetPointerByID_spec_lemma. }
  destruct (LoadVirtualItemWithID_sees m Hwf ID' ID) as (Hv & Hl & Hwf').
  simpl. split_and!; [done| |by apply GetPointerByID_spec_lemma].
  rewrite !GetPointerByID_spec_lemma by done. by rewrite Hl, Hv.
Qed.

Lemma GetPointerByID_pure_witness :
  fst (GetPointerByID (snd (GetPointerByID example_store 5000007)) 5000007)
  = Some (example_item 5000007).
Proof.
  destruct (GetPointerByID_pure example_store 5000007 5000007 example_store_wf) as (_ & -> & ->).
  vm_compute. reflexivity.
Defined.

(** Destroying a virtual item that is in memory removes it from memory and
    from the store, so no lookup finds it again, and touches no other item; a
    virtual item that is only in the store is not destroyed, and a standard
    item never is. *)
Theorem NotifyDestroy_spec (m : ItemManager) (itemID ID : Z) (Hwf : ItemManager_wf m) :
  fst (GetPointerByID (NotifyDestroy m itemID) ID) =
  if (BASE_VIRTUAL_ITEM_ID <=? itemID) && (ID =? itemID)
     && bool_decide (is_Some (VItemList m !! itemID))
  then None else fst (GetPointerByID m ID).
Proof.
  unfold NotifyDestroy. destruct (itemID <? BASE_VIRTUAL_ITEM_ID) eqn:Ei; to_prop.
  { by rewrite (proj2 (Z.leb_gt _ _) Ei). }
  rewrite (proj2 (Z.leb_le _ _) Ei). simpl.
  destruct (VItemList m !! itemID) as [d|] eqn:Ev;
    [|by rewrite bool_decide_eq_false_2 by (by intros []); rewrite andb_false_r].
  rewrite bool_decide_eq_true_2 by done. rewrite andb_true_r, !GetPointerByID_spec_lemma; [..|done|].
  - simpl. destruct (ID =? itemID) eqn:E; to_prop.
    + subst. rewrite (proj2 (Z.ltb_ge _ _) Ei). by rewrite !lookup_delete_eq.
    + by rewrite !lookup_delete_ne by done.
  - destruct Hwf. split; simpl; [done..| |]; by apply map_Forall_delete.
Qed.

Lemma NotifyDestroy_spec_witness :
  (** not loaded: it survives; loaded: it is gone *)
  fst (GetPointerByID (NotifyDestroy example_store 5000007) 5000007) = Some (example_item 5000007)
  /\ fst (GetPointerByID (NotifyDestroy (snd (GetPointerByID example_store 5000007)) 5000007)
            5000007) = None.
Proof.
  split.
  - rewrite (NotifyDestroy_spec example_store 5000007 5000007 example_store_wf).
    vm_compute. reflexivity.
  - rewrite NotifyDestroy_spec; [vm_compute; reflexivity|].
    destruct (LoadVirtualItemWithID_sees example_store example_store_wf 5000007 5000007)
      as (_ & _ & H). exact H.
Defined.



(** The range searches have no working range: between two different items
    of the list the loop never stops inside it (it advances [search] and tests
    [start]), whatever the list holds, and between equal bounds it lists
    nothing. *)
Theorem EnumPointersByRange_diverges (m : ItemManager) (a b eqType : Z)
    (Ha : at_key a (ItemList m) <> None) (Hb : at_key b (ItemList m) <> None) :
  EnumPointersByIDRange m a b = (if a =? b then Some [] else None) /\
  EnumPointersByRangeType m a b eqType = (if a =? b then Some [] else None).
Proof.
  unfold EnumPointersByIDRange, EnumPointersByRangeType, at_key in *.
  destruct (find_key a (ItemList m)) as [i|] eqn:Ei; [|done].
  destruct (find_key b (ItemList m)) as [j|] eqn:Ej; [|done].
  destruct (a =? b) eqn:E; to_prop.
  - subst. simplify_eq. rewrite Nat.eqb_refl. simpl.
    split; [destruct (drop _ (ItemList m))|destruct (drop _ (ItemList m))]; done.
  - assert (i <> j) as Hne.
    { intros ->. apply find_key_lookup in Ei as [d Ei], Ej as [d' Ej]. congruence. }
    apply Nat.eqb_neq in Hne. rewrite Hne. simpl. by rewrite !enum_range_moved.
Qed.

Lemma EnumPointersByRange_diverges_witness :
  EnumPointersByIDRange example_store 0 9 = None.
Proof.
  refine (proj1 (EnumPointersByRange_diverges example_store 0 9 0 _ _));
    vm_compute; discriminate.
Defined.

(** Container names and identifiers agree: every identifier of the table
    has a name that is looked up to that identifier, and an identifier is valid
    exactly when it has one. *)
Theorem container_names (ID : Z) :
  IsContainerIDValid ID = true <-> GetContainerIDFromName (GetContainerNameFromID ID) = ID /\ ID <> -1.
Proof.
  split.
  - unfold IsContainerIDValid. rewrite existsb_exists. intros (e & He & Hid).
    to_prop. subst.
    assert (forallb (fun e => (GetContainerIDFromName (GetContainerNameFromID e.2) =? e.2)
                              && negb (e.2 =? -1)) InventoryMapping = true) as H by reflexivity.
    rewrite forallb_forall in H. specialize (H _ He). by to_prop.
  - intros [H Hne]. unfold GetContainerIDFromName, id_of_name in H.
    destruct (find_idx _ InventoryMapping) as [i|] eqn:E; [|congruence].
    apply find_idx_lookup in E as (e & Hi & _). rewrite Hi in H. simpl in H.
    unfold IsContainerIDValid. apply existsb_exists. exists e. split.
    + apply list_elem_of_In. by eapply list_elem_of_lookup_2.
    + by apply Z.eqb_eq.
Qed.
