(* ===== verification/Inventory.v ===== *)
(** * Inventory: item slots, containers and the operations on them

    Models [src/SOURCE/Server/Inventory.h] and [Inventory.cpp]: [InventorySlot]
    and [InventoryManager] with all their operations, the inventory update
    messages, and [ReadInventory].

    - A pointer or reference to a slot is the pair of its container and its
      index in that container; an operation on [this] takes the manager and
      returns it.
    - [dataPtr] caches the definition found under [IID]; it is not kept, a use
      of it looks the definition up through the [ItemDb] interface. In
      [ItemMove], where the two resolving functions differ and one may see what
      the other cached, the sharing is written out.
    - [g_ServerTime] and [g_GameConfig.BuybackLimit] are arguments.
    - [containerList] has [MAXCONTAINER] vectors. Indexing it outside the array
      is undefined in C++; here it reads an empty container and writes nothing,
      and the theorems assume containers inside the array.
    - [long] is 64 bits. The log calls are left out. *)

From S2P Require Import Prelude ByteBuffer Messages Text Items.

(** ** Slots *)

Record InventorySlot := mkSlot {
  CCSID : Z;
  IID : Z;
  count : Z;
  customLook : Z;
  bindStatus : Z;
  secondsRemaining : Z;
  timeLoaded : Z
}.

#[export] Instance InventorySlot_eq_dec : EqDecision InventorySlot.
Proof. solve_decision. Defined.

Definition InventorySlot_new : InventorySlot := mkSlot 0 0 0 0 0 (-1) 0.

Definition set_CCSID (c : Z) (s : InventorySlot) : InventorySlot :=
  mkSlot c (IID s) (count s) (customLook s) (bindStatus s) (secondsRemaining s) (timeLoaded s).
Definition set_count (n : Z) (s : InventorySlot) : InventorySlot :=
  mkSlot (CCSID s) (IID s) n (customLook s) (bindStatus s) (secondsRemaining s) (timeLoaded s).

(** [slot.count += n]. *)
Definition add_count (n : Z) (s : InventorySlot) : InventorySlot := set_count (i32 (count s + n)) s.

(** [dest.CopyFrom(source, copyCCSID)], the new value of [dest]. *)
Definition CopyFrom (dest source : InventorySlot) (copyCCSID : bool) : InventorySlot :=
  mkSlot (if copyCCSID then CCSID source else CCSID dest) (IID source) (count source)
    (customLook source) (bindStatus source) (secondsRemaining source) (timeLoaded source).

Definition CopyWithoutCount (dest source : InventorySlot) (copyCCSID : bool) : InventorySlot :=
  mkSlot (if copyCCSID then CCSID source else CCSID dest) (IID source) (count dest)
    (customLook source) (bindStatus source) (secondsRemaining source) (timeLoaded source).

Definition GetLookID (s : InventorySlot) : Z :=
  if negb (customLook s =? 0) then customLook s else IID s.

Definition container_of (ccsid : Z) : Z := Z.shiftr (Z.land ccsid CONTAINER_ID) 16.
Definition slot_of (ccsid : Z) : Z := Z.land ccsid CONTAINER_SLOT.

Definition GetContainer (s : InventorySlot) : Z := u16 (container_of (CCSID s)).
Definition GetSlot (s : InventorySlot) : Z := u16 (slot_of (CCSID s)).

Definition TestEquivalent (s other : InventorySlot) : bool :=
  (CCSID s =? CCSID other) && (IID s =? IID other) && (count s =? count other)
  && (customLook s =? customLook other) && (bindStatus s =? bindStatus other).

(** [unsigned long] arithmetic, the difference stored in a [long]; returned as
    [int]. *)
Definition GetTimeRemaining (g_ServerTime : Z) (sl : InventorySlot) : Z :=
  if secondsRemaining sl <? 0 then -1
  else let s := i64 (u64 (secondsRemaining sl) - u64 (g_ServerTime - timeLoaded sl) / 1000) in
       i32 (if s <? 0 then 0 else s).

Definition AdjustTimes (g_ServerTime : Z) (s : InventorySlot) : Z * InventorySlot :=
  let secs := if -1 <? secondsRemaining s then GetTimeRemaining g_ServerTime s
              else secondsRemaining s in
  (secs, mkSlot (CCSID s) (IID s) (count s) (customLook s) (bindStatus s) secs g_ServerTime).

Definition IsExpired (s : InventorySlot) : bool := secondsRemaining s =? 0.

Definition set_seconds (z : Z) (s : InventorySlot) : InventorySlot :=
  mkSlot (CCSID s) (IID s) (count s) (customLook s) (bindStatus s) z (timeLoaded s).

Definition ApplyItemIntegerType (IvType IvMax : Z) (s : InventorySlot) : InventorySlot :=
  if IvType =? ItemIntegerType.LIFETIME then set_seconds (i32 (IvMax * 60 * 60)) s else s.

Definition ApplyFromItemDef (g_ServerTime : Z) (d : ItemDef) (s : InventorySlot) : InventorySlot :=
  let s1 := ApplyItemIntegerType (mIvType2 d) (mIvMax2 d)
              (ApplyItemIntegerType (mIvType1 d) (mIvMax1 d) (set_seconds (-1) s)) in
  if -1 <? secondsRemaining s1
  then mkSlot (CCSID s1) (IID s1) (count s1) (customLook s1) (bindStatus s1)
         (secondsRemaining s1) g_ServerTime
  else s1.

Section Slots.
Context {db : ItemDb}.

Definition GetStackCount (s : InventorySlot) : Z :=
  match item_of (IID s) with
  | Some d => if mIvType1 d =? ItemIntegerType.STACKING then i32 (count s + 1) else 1
  | None => 1
  end.

Definition GetMaxStack (s : InventorySlot) : Z :=
  match item_of (IID s) with
  | Some d => if mIvType1 d =? ItemIntegerType.STACKING then mIvMax1 d else -1
  | None => -1
  end.

Definition ResolveItemPtr (s : InventorySlot) : option ItemDef := item_of (IID s).
Definition ResolveSafeItemPtr (s : InventorySlot) : ItemDef := default default_item (item_of (IID s)).
Definition VerifyItemExist (s : InventorySlot) : bool :=
  match item_of (IID s) with None => false | Some _ => true end.

End Slots.

(** ** The manager *)

Definition MAXCONTAINER : Z := 11.

Module ERR.
Definition ERROR_NONE : Z := 0.
Definition ERROR_ITEM : Z := 1.
Definition ERROR_SPACE : Z := 2.
Definition ERROR_LIMIT : Z := 3.
Definition EQ_ERROR_NONE : Z := 0.
Definition EQ_ERROR_ITEM : Z := (-1).
Definition EQ_ERROR_LEVEL : Z := (-2).
Definition EQ_ERROR_PROFESSION : Z := (-3).
Definition EQ_ERROR_SLOT : Z := (-4).
End ERR.

Record InventoryManager := mkInventory {
  containerList : list (list InventorySlot);
  MaxContainerSlot : list Z;
  buybackSlot : Z;
  LastError : Z;
  NextExpunge : Z
}.

Definition InventoryManager_new : InventoryManager :=
  mkInventory (replicate 11 []) (replicate 11 0) 0 ERR.ERROR_NONE 0.

(** [containerList[c]] and [MaxContainerSlot[c]]. *)
Definition container_index (c : Z) : option nat :=
  if (0 <=? c) && (c <? MAXCONTAINER) then Some (Z.to_nat c) else None.

Definition cont (m : InventoryManager) (c : Z) : list InventorySlot :=
  default [] (container_index c ≫= fun i => containerList m !! i).
Definition max_slot (m : InventoryManager) (c : Z) : Z :=
  default 0 (container_index c ≫= fun i => MaxContainerSlot m !! i).

Definition set_cont (m : InventoryManager) (c : Z) (l : list InventorySlot) : InventoryManager :=
  match container_index c with
  | Some i => mkInventory (<[i := l]> (containerList m)) (MaxContainerSlot m) (buybackSlot m)
                (LastError m) (NextExpunge m)
  | None => m
  end.

Definition set_max (m : InventoryManager) (c : Z) (n : Z) : InventoryManager :=
  match container_index c with
  | Some i => mkInventory (containerList m) (<[i := n]> (MaxContainerSlot m)) (buybackSlot m)
                (LastError m) (NextExpunge m)
  | None => m
  end.

Definition set_buybackSlot (m : InventoryManager) (n : Z) : InventoryManager :=
  mkInventory (containerList m) (MaxContainerSlot m) n (LastError m) (NextExpunge m).
Definition set_expunge (m : InventoryManager) (t : Z) : InventoryManager :=
  mkInventory (containerList m) (MaxContainerSlot m) (buybackSlot m) (LastError m) t.

(** [LastError] is an [unsigned char]. *)
Definition SetError (m : InventoryManager) (value : Z) : InventoryManager :=
  mkInventory (containerList m) (MaxContainerSlot m) (buybackSlot m) (u8 value) (NextExpunge m).

(** [containerList[c][i] = f(containerList[c][i])]. *)
Definition update_slot (m : InventoryManager) (c : Z) (i : nat)
    (f : InventorySlot -> InventorySlot) : InventoryManager :=
  set_cont m c (alter f i (cont m c)).

(** [vec.erase(vec.begin() + i)]. *)
Definition erase_slot (m : InventoryManager) (c : Z) (i : nat) : InventoryManager :=
  set_cont m c (delete i (cont m c)).

Definition push_back (m : InventoryManager) (c : Z) (s : InventorySlot) : InventoryManager :=
  set_cont m c (cont m c ++ [s]).

Definition ClearAll (m : InventoryManager) : InventoryManager :=
  fold_left (fun m c => set_cont m c []) (seqZ 0 MAXCONTAINER) m.

(** *** Identifiers *)

(** The parameters are [unsigned short]. *)
Definition GetCCSID (container slot : Z) : Z := u32 (Z.lor (Z.shiftl (u16 container) 16) (u16 slot)).

Definition GetCCSIDFromHexID (hexStr : option string) : Z :=
  match hexStr with None => 0 | Some s => u32 (strtol s 16) end.

(** *** Searches *)

Definition GetItemByCCSID (m : InventoryManager) (findCCSID : Z) : Z :=
  idx (find_idx (fun s => CCSID s =? findCCSID) (cont m (container_of findCCSID))).

Definition GetItemPtrByCCSID (m : InventoryManager) (findCCSID : Z) : option (Z * nat) :=
  let containerID := container_of findCCSID in
  pair containerID <$> find_idx (fun s => CCSID s =? findCCSID) (cont m containerID).

Definition GetItemPtrByID (m : InventoryManager) (itemID : Z) : option (Z * nat) :=
  pair INV_CONTAINER <$> find_idx (fun s => IID s =? itemID) (cont m INV_CONTAINER).

(** [slot] is [unsigned int]: the test [slot < 0] is never true. *)
Definition GetItemBySlot (m : InventoryManager) (containerID slot : Z) : Z :=
  if MAXCONTAINER <=? containerID then -1
  else idx (find_idx (fun s => slot_of (CCSID s) =? u32 slot) (cont m containerID)).

Definition GetFirstItem (m : InventoryManager) (containerID itemID : Z) : option nat :=
  if containerID <? MAXCONTAINER
  then find_idx (fun s => IID s =? itemID) (cont m containerID) else None.

Definition FindNextItem (m : InventoryManager) (containerID itemID start : Z) : Z :=
  if start <? 0 then -1
  else if Z.of_nat (length (cont m containerID)) <=? start then -1
  else match find_idx (fun s => IID s =? itemID) (drop (Z.to_nat start) (cont m containerID)) with
       | Some k => start + Z.of_nat k
       | None => -1
       end.

(** The pointer dereferenced. *)
Definition deref (m : InventoryManager) (p : Z * nat) : option InventorySlot := cont m p.1 !! p.2.

(** *** Slot accounting *)

(** [tempCon] after the marking loop: a vector of [max] flags, those of the
    slots in use below [limit] set. *)
Definition mark_slots (max : nat) (limit : Z) (l : list InventorySlot) : list bool :=
  fold_left (fun tempCon s =>
               if slot_of (CCSID s) <? limit
               then <[Z.to_nat (slot_of (CCSID s)) := true]> tempCon else tempCon)
            l (replicate max false).

Definition GetFreeSlot (m : InventoryManager) (containerID : Z) : Z :=
  let l := cont m containerID in
  let max := max_slot m containerID in
  if max <=? Z.of_nat (length l) then -1
  else idx (find_idx negb (mark_slots (Z.to_nat max) (i32 max) l)).

Definition CountUsedSlots (m : InventoryManager) (containerID : Z) : Z :=
  let max := max_slot m containerID in
  i32 (countb id (mark_slots (Z.to_nat max) max (cont m containerID))).

Definition CountFreeSlots (m : InventoryManager) (containerID : Z) : Z :=
  let l := cont m containerID in
  let max := max_slot m containerID in
  if max <=? Z.of_nat (length l) then 0
  else i32 (countb negb (mark_slots (Z.to_nat max) max l)).

(** *** Inventory update messages *)

Definition AddItemUpdate (g_ServerTime : Z) (slot : InventorySlot) : list Z :=
  seal (PutByte 70 ++ PutShort 0 ++ PutStringUTF (sprintf_X (CCSID slot)) ++
        PutByte 255 ++ PutByte 255 ++ PutInteger (IID slot) ++ PutInteger (customLook slot) ++
        PutShort (count slot) ++ PutShort 0 ++ PutByte (bindStatus slot) ++
        PutInteger (GetTimeRemaining g_ServerTime slot)).

Definition RemoveItemUpdate (slot : InventorySlot) : list Z :=
  seal (PutByte 70 ++ PutShort 0 ++ PutStringUTF (sprintf_X (CCSID slot)) ++
        PutByte 0 ++ PutByte 0).

Definition SendItemIDUpdate (oldSlot newSlot : InventorySlot) : list Z :=
  seal (PutByte 70 ++ PutShort 0 ++ PutStringUTF (sprintf_X (CCSID oldSlot)) ++
        PutByte ITEM_ID_CHANGE ++ PutByte 0 ++ PutStringUTF (sprintf_X (CCSID newSlot))).

(** The namespace-level functions of the same names. *)
Module Global.
Definition AddItemUpdate (g_ServerTime : Z) (slot : InventorySlot) : list Z :=
  seal (PutByte 70 ++ PutShort 0 ++ PutStringUTF (sprintf_X (CCSID slot)) ++
        PutByte 255 ++ PutByte 255 ++ PutInteger (IID slot) ++ PutInteger (customLook slot) ++
        PutShort (count slot) ++ PutShort 0 ++ PutByte (bindStatus slot) ++
        PutInteger (GetTimeRemaining g_ServerTime slot)).

Definition RemoveItemUpdate (slot : InventorySlot) : list Z :=
  seal (PutByte 70 ++ PutShort 0 ++ PutStringUTF (sprintf_X (CCSID slot)) ++
        PutByte 0 ++ PutByte 0).
End Global.

Definition PrepExt_TradeItemOffer (offeringPlayerID : Z) (itemList : list InventorySlot) : list Z :=
  seal (PutByte 51 ++ PutShort 0 ++ PutInteger offeringPlayerID ++
        PutByte TradeEventTypes_ITEMS_OFFERED ++ PutByte (Z.of_nat (length itemList)) ++
        concat (map (fun s => PutStringUTF (GetItemProto (IID s) (count s))) itemList)).

(** *** Expiry *)

(** The step of [AddItem] and of [FindNextExpunge]'s loop for one item. *)
Definition note_expunge (g_ServerTime : Z) (NextExpunge : Z) (item : InventorySlot) : Z :=
  if -1 <? secondsRemaining item then
    let remain := GetTimeRemaining g_ServerTime item in
    if (NextExpunge =? 0) || (u64 (g_ServerTime + remain) <=? NextExpunge)
    then u64 (g_ServerTime + remain) else NextExpunge
  else NextExpunge.

Definition FindNextExpunge (g_ServerTime : Z) (m : InventoryManager) : InventoryManager :=
  set_expunge m
    (fold_left (fun t c => fold_left (note_expunge g_ServerTime) (cont m c) t)
       (seqZ 0 MAXCONTAINER) 0).

(** The index of the new item, or -1. *)
Definition AddItem (g_ServerTime : Z) (m : InventoryManager) (containerID : Z)
    (item : InventorySlot) : Z * InventoryManager :=
  if (0 <=? containerID) && (containerID <? MAXCONTAINER) then
    let m1 := set_expunge m (note_expunge g_ServerTime (NextExpunge m) item) in
    let m2 := push_back m1 containerID item in
    (i32 (Z.of_nat (length (cont m2 containerID)) - 1), m2)
  else (-1, m).

(** *** Queries: items to be removed or reduced *)

Definition TYPE_NONE : Z := 0.
Definition TYPE_REMOVE : Z := 1.
Definition TYPE_MODIFIED : Z := 2.

Record InventoryQuery := mkQuery {
  iq_CCSID : Z;
  iq_count : Z;
  iq_type : Z;
  iq_ptr : Z * nat
}.

(** Erases the first item with that identifier; 1 when there was one. *)
Definition RemItem (m : InventoryManager) (editCCSID : Z) : Z * InventoryManager :=
  let containerID := container_of editCCSID in
  match find_idx (fun s => CCSID s =? editCCSID) (cont m containerID) with
  | Some a => (1, erase_slot m containerID a)
  | None => (0, m)
  end.

Definition RemoveItems (m : InventoryManager) (resultList : list InventoryQuery) : InventoryManager :=
  fold_left (fun m iq => if iq_type iq =? TYPE_REMOVE then snd (RemItem m (iq_CCSID iq)) else m)
    resultList m.

(** The loop body of [ProcessIqResults]; [None] when the pointer dangles. *)
Definition process_iq (g_ServerTime : Z) (m : InventoryManager) (iq : InventoryQuery)
    : option (list Z * InventoryManager) :=
  if iq_type iq =? TYPE_REMOVE then
    s ← deref m (iq_ptr iq); Some (RemoveItemUpdate s, m)
  else if iq_type iq =? TYPE_MODIFIED then
    s ← deref m (iq_ptr iq);
    let s' := add_count (- iq_count iq) s in
    Some (AddItemUpdate g_ServerTime s',
          update_slot m (iq_ptr iq).1 (iq_ptr iq).2 (add_count (- iq_count iq)))
  else Some ([], m).

Fixpoint process_iqs (g_ServerTime : Z) (m : InventoryManager) (iq : list InventoryQuery)
    (packet : list Z) : option (list Z * InventoryManager) :=
  match iq with
  | [] => Some (packet, m)
  | q :: iq' =>
      r ← process_iq g_ServerTime m q;
      process_iqs g_ServerTime r.2 iq' (packet ++ r.1)
  end.

Definition ProcessIqResults (g_ServerTime : Z) (m : InventoryManager) (iq : list InventoryQuery)
    : option (list Z * InventoryManager) :=
  r ← process_iqs g_ServerTime m iq [];
  Some (r.1, RemoveItems r.2 iq).

Section Manager.
Context {db : ItemDb} (g_ServerTime : Z).

Definition ScanExpiredItems (m : InventoryManager) : list InventoryQuery :=
  concat (map (fun c =>
    omap (fun '(i, s) =>
      if (-1 <? secondsRemaining s) && (GetTimeRemaining g_ServerTime s <? 1)
      then Some (mkQuery (CCSID s) (GetStackCount s) TYPE_REMOVE (c, i)) else None)
      (zip (seq 0 (length (cont m c))) (cont m c))) (seqZ 0 MAXCONTAINER)).

(** [while(remain > 0 && index >= 0)]: every turn that goes on moves [index]
    forward, so one turn more than there are items is enough fuel. *)
Fixpoint scan_remove (fuel : nat) (m : InventoryManager) (containerID itemID remain index : Z)
    (resultList : list InventoryQuery) : list InventoryQuery :=
  match fuel with
  | O => resultList
  | S fuel' =>
      if (0 <? remain) && (0 <=? index) then
        let index := FindNextItem m containerID itemID index in
        match (if 0 <=? index then cont m containerID !! Z.to_nat index else None) with
        | Some slot =>
            let stackCount := GetStackCount slot in
            let iq := if stackCount <=? remain
                      then mkQuery (CCSID slot) stackCount TYPE_REMOVE (containerID, Z.to_nat index)
                      else mkQuery (CCSID slot) remain TYPE_MODIFIED (containerID, Z.to_nat index) in
            scan_remove fuel' m containerID itemID (i32 (remain - stackCount)) (index + 1)
              (resultList ++ [iq])
        | None => scan_remove fuel' m containerID itemID remain index resultList
        end
      else resultList
  end.

Definition ScanRemoveItems (m : InventoryManager) (containerID itemID count : Z)
    : list InventoryQuery :=
  scan_remove (S (S (length (cont m containerID)))) m containerID itemID count 0 [].

Definition RemoveItemsAndUpdate (m : InventoryManager) (container itemID itemCost : Z)
    : option (list Z * InventoryManager) :=
  r ← ProcessIqResults g_ServerTime m (ScanRemoveItems m container itemID itemCost);
  Some (r.1, FindNextExpunge g_ServerTime r.2).

Definition RemoveExpiredItemsAndUpdate (m : InventoryManager) : option (list Z * InventoryManager) :=
  r ← ProcessIqResults g_ServerTime m (ScanExpiredItems m);
  Some (r.1, FindNextExpunge g_ServerTime r.2).

(** *** Counting and picking *)

(** What an item adds to [rcount]. *)
Definition item_count (s : InventorySlot) : Z :=
  match ResolveItemPtr s with
  | Some d => if mIvType1 d =? ItemIntegerType.STACKING then 1 + count s else 1
  | None => 1
  end.

Definition GetItemCount (m : InventoryManager) (containerID itemID : Z) : Z :=
  i32 (sumZ (fun s => if IID s =? itemID then item_count s else 0) (cont m containerID)).

Definition CountInventorySlots (m : InventoryManager) : InventoryManager :=
  set_max m INV_CONTAINER
    (u32 (INV_BASESLOTS +
          sumZ (fun s => match ResolveItemPtr s with
                         | Some d => if mType d =? ItemType.CONTAINER then mContainerSlots d else 0
                         | None => 0
                         end) (cont m EQ_CONTAINER))).

(** The slots that may be picked, in order. *)
Definition pickable (m : InventoryManager) (containerID : Z) : list nat :=
  omap (fun '(a, s) =>
          if (slot_of (CCSID s) <? max_slot m containerID) && (bindStatus s =? 0)
          then Some a else None)
       (let l := take (Z.to_nat (max_slot m containerID)) (cont m containerID) in
        zip (seq 0 (length l)) l).

(** [r] is the result of [RandModRng(0, c)], asked for only when [c > 0]. *)
Definition PickRandomItem (m : InventoryManager) (containerID : Z) (r : nat) : option nat :=
  pickable m containerID !! r.

(** The state of the loop: the least stack limit so far and its item. *)
Definition GetBestSpecialItem (m : InventoryManager) (invID specialItemType : Z)
    : option (Z * nat) :=
  let '(ccsid, _) :=
    fold_left (fun '(ccsid, max) sl =>
      if negb (IsExpired sl) then
        match ResolveItemPtr sl with
        | Some iDef =>
            if mSpecialItemType iDef =? specialItemType then
              let stack := GetDynamicMax iDef ItemIntegerType.STACKING in
              if stack <? max then (CCSID sl, stack) else (ccsid, max)
            else (ccsid, max)
        | None => (ccsid, max)
        end
      else (ccsid, max)) (cont m invID) (0, 99999) in
  if ccsid =? 0 then None else GetItemPtrByCCSID m ccsid.

(** *** Adding items *)

Definition GetExistingPartialStack (m : InventoryManager) (containerID : Z) (itemDef : ItemDef)
    : option nat :=
  if negb (mIvType1 itemDef =? ItemIntegerType.STACKING) then None
  else find_idx (fun s => (IID s =? mID itemDef) && (GetStackCount s <? mIvMax1 itemDef))
         (cont m containerID).

(** The items the ownership limit counts. *)
Definition owned (m : InventoryManager) (itemID : Z) : Z :=
  i32 (sumZ (fun c => GetItemCount m c itemID)
    [INV_CONTAINER; BANK_CONTAINER; EQ_CONTAINER; DELIVERY_CONTAINER; AUCTION_CONTAINER;
     STAMPS_CONTAINER; BOOKSHELF_CONTAINER]).

(** The new slot of the last part of [AddItem_Ex]. *)
Definition new_item (itemDef : ItemDef) (containerID freeSlot itemID count : Z) : InventorySlot :=
  ApplyFromItemDef g_ServerTime itemDef
    (mkSlot (GetCCSID containerID freeSlot) itemID (if 1 <? count then count - 1 else 0) 0
       (if mBindingType itemDef =? BIND_ON_PICKUP then 1 else 0) (-1) 0).

(** The new item or the stack that grew, as an index of [containerID]. *)
Definition AddItem_Ex (m : InventoryManager) (containerID itemID count : Z)
    : option nat * InventoryManager :=
  match item_of itemID with
  | None => (None, SetError m ERR.ERROR_ITEM)
  | Some itemDef =>
      if (0 <? mOwnershipRestriction itemDef) && (mOwnershipRestriction itemDef <=? owned m (mID itemDef))
      then (None, SetError m ERR.ERROR_LIMIT)
      else
        match (i ← GetExistingPartialStack m containerID itemDef;
               s ← cont m containerID !! i;
               if i32 (GetStackCount s + count) <=? GetMaxStack s then Some i else None) with
        | Some i => (Some i, update_slot m containerID i (add_count count))
        | None =>
            let freeSlot := GetFreeSlot m containerID in
            if freeSlot =? -1 then (None, SetError m ERR.ERROR_SPACE)
            else
              let m' := snd (AddItem g_ServerTime m containerID
                               (new_item itemDef containerID freeSlot itemID count)) in
              (Some (length (cont m' containerID) - 1)%nat, m')
        end
  end.

(** *** The buyback list *)

Definition FixBuyBack (BuybackLimit : Z) (m : InventoryManager) : InventoryManager :=
  let difference := Z.of_nat (length (cont m BUYBACK_CONTAINER)) - BuybackLimit in
  let l := if 0 <? difference then drop (Z.to_nat difference) (cont m BUYBACK_CONTAINER)
           else cont m BUYBACK_CONTAINER in
  let l' := imap (fun i s => set_CCSID (GetCCSID BUYBACK_CONTAINER (Z.of_nat i)) s) l in
  set_buybackSlot (set_cont m BUYBACK_CONTAINER l') (i32 (Z.of_nat (length l'))).

(** The packet, the identifier passed to [NotifyDestroy], and the manager. With
    a limit of 0 or less and an empty list, [containerList[..][0]] is undefined:
    [None]. *)
Definition AddBuyBack (BuybackLimit : Z) (m : InventoryManager) (item : InventorySlot)
    : option (list Z * option Z * InventoryManager) :=
  let add packet destroyed m :=
    let tempItem := set_CCSID (GetCCSID BUYBACK_CONTAINER (buybackSlot m))
                      (CopyFrom InventorySlot_new item false) in
    let m' := push_back (set_buybackSlot m (i32 (buybackSlot m + 1))) BUYBACK_CONTAINER tempItem in
    Some (packet ++ AddItemUpdate g_ServerTime tempItem, destroyed, m') in
  if BuybackLimit <=? Z.of_nat (length (cont m BUYBACK_CONTAINER)) then
    match cont m BUYBACK_CONTAINER with
    | [] => None
    | oldest :: _ =>
        add (RemoveItemUpdate oldest) (Some (IID oldest)) (erase_slot m BUYBACK_CONTAINER 0)
    end
  else add [] None m.

(** *** Checks *)

Definition VerifyContainerSlotBoundary (m : InventoryManager) (container slot : Z) : bool :=
  if (container <? 0) || (MAXCONTAINER <=? container) then false
  else if slot <? 0 then false
  else if (container =? INV_CONTAINER) && (i32 (max_slot m container) <=? slot) then false
  else true.

(** The slot an item of that equipment and weapon type goes to, when the client
    asks for [destSlot]. *)
Definition targetEquipSlot (itemDef : ItemDef) (destSlot : Z) : Z :=
  let one_hand := switch (mWeaponType itemDef)
    [(WeaponType.ONE_HAND, destSlot); (WeaponType.SMALL, destSlot);
     (WeaponType.ARCANE_TOTEM, destSlot)] 0 in
  switch (mEquipType itemDef)
    [(ItemEquipType.NONE, ItemEquipSlot.NONE);
     (ItemEquipType.WEAPON_1H, one_hand);
     (ItemEquipType.WEAPON_1H_UNIQUE, one_hand);
     (ItemEquipType.WEAPON_1H_MAIN, one_hand);
     (ItemEquipType.WEAPON_1H_OFF, one_hand);
     (ItemEquipType.WEAPON_2H,
        switch (mWeaponType itemDef)
          [(WeaponType.POLE, destSlot); (WeaponType.TWO_HAND, destSlot)] 0);
     (ItemEquipType.WEAPON_RANGED,
        switch (mWeaponType itemDef)
          [(WeaponType.THROWN, destSlot); (WeaponType.WAND, destSlot);
           (WeaponType.BOW, destSlot)] 0);
     (ItemEquipType.RED_CHARM, ItemEquipSlot.RED_CHARM);
     (ItemEquipType.BLUE_CHARM, ItemEquipSlot.BLUE_CHARM);
     (ItemEquipType.PURPLE_CHARM, ItemEquipSlot.PURPLE_CHARM);
     (ItemEquipType.YELLOW_CHARM, ItemEquipSlot.YELLOW_CHARM);
     (ItemEquipType.GREEN_CHARM, ItemEquipSlot.GREEN_CHARM);
     (ItemEquipType.ORANGE_CHARM, ItemEquipSlot.ORANGE_CHARM);
     (ItemEquipType.ARMOR_SHIELD, ItemEquipSlot.WEAPON_OFF_HAND);
     (ItemEquipType.ARMOR_HEAD, ItemEquipSlot.ARMOR_HEAD);
     (ItemEquipType.ARMOR_NECK, ItemEquipSlot.ARMOR_NECK);
     (ItemEquipType.ARMOR_SHOULDER, ItemEquipSlot.ARMOR_SHOULDER);
     (ItemEquipType.ARMOR_CHEST, ItemEquipSlot.ARMOR_CHEST);
     (ItemEquipType.ARMOR_ARMS, ItemEquipSlot.ARMOR_ARMS);
     (ItemEquipType.ARMOR_HANDS, ItemEquipSlot.ARMOR_HANDS);
     (ItemEquipType.ARMOR_WAIST, ItemEquipSlot.ARMOR_WAIST);
     (ItemEquipType.ARMOR_LEGS, ItemEquipSlot.ARMOR_LEGS);
     (ItemEquipType.ARMOR_FEET, ItemEquipSlot.ARMOR_FEET);
     (ItemEquipType.ARMOR_RING, destSlot);
     (ItemEquipType.ARMOR_RING_UNIQUE, destSlot);
     (ItemEquipType.CONTAINER, destSlot);
     (ItemEquipType.ARMOR_AMULET, ItemEquipSlot.ARMOR_AMULET)] 0.

Definition VerifyEquipItem (itemDef : option ItemDef) (destSlot charLevel charProfession : Z) : Z :=
  match itemDef with
  | None => ERR.EQ_ERROR_ITEM
  | Some itemDef =>
      if charLevel <? mMinUseLevel itemDef then ERR.EQ_ERROR_LEVEL
      else if negb (mWeaponType itemDef =? WeaponType.NONE)
              && negb (WeaponTypeClassRestrictions.isValid (mWeaponType itemDef) charProfession)
      then ERR.EQ_ERROR_PROFESSION
      else if negb (targetEquipSlot itemDef destSlot =? destSlot) then ERR.EQ_ERROR_SLOT
      else ERR.EQ_ERROR_NONE
  end.

Definition GetEqErrorString (code : Z) : option string :=
  switch code
    [(ERR.EQ_ERROR_ITEM, Some "The item does not exist in the server database.");
     (ERR.EQ_ERROR_LEVEL, Some "Your level is not high enough to equip that item.");
     (ERR.EQ_ERROR_PROFESSION, Some "That item cannot be equipped by your class.");
     (ERR.EQ_ERROR_SLOT, Some "That item cannot be equipped in that slot.")] None.

(** *** Moving items

    [this] and [destInv] are one object when [other] is [None]. *)

Record Managers := mkManagers { this : InventoryManager; other : option InventoryManager }.

Definition destInv (ms : Managers) : InventoryManager := default (this ms) (other ms).
Definition set_this (ms : Managers) (m : InventoryManager) : Managers := mkManagers m (other ms).
Definition set_dest (ms : Managers) (m : InventoryManager) : Managers :=
  match other ms with
  | None => mkManagers m None
  | Some _ => mkManagers (this ms) (Some m)
  end.

(** [source] and [dest] as references: reading and assigning through them. *)
Definition upd_source (ms : Managers) (c : Z) (i : nat) (f : InventorySlot -> InventorySlot) :=
  set_this ms (update_slot (this ms) c i f).
Definition upd_dest (ms : Managers) (c : Z) (i : nat) (f : InventorySlot -> InventorySlot) :=
  set_dest ms (update_slot (destInv ms) c i f).

Definition two_handed (d : ItemDef) : bool := IsWeaponTwoHanded (mEquipType d) (mWeaponType d).

(** The item in the main hand of the destination is two-handed. *)
Definition main_hand_two_handed (m : InventoryManager) : bool :=
  let index := GetItemBySlot m EQ_CONTAINER ItemEquipSlot.WEAPON_MAIN_HAND in
  if 0 <=? index then
    match cont m EQ_CONTAINER !! Z.to_nat index with
    | Some s => two_handed (ResolveSafeItemPtr s)
    | None => false
    end
  else false.

Definition off_hand_used (m : InventoryManager) : bool :=
  0 <=? GetItemBySlot m EQ_CONTAINER ItemEquipSlot.WEAPON_OFF_HAND.

Definition is_main (container slot : Z) : bool :=
  (container =? EQ_CONTAINER) && (slot =? ItemEquipSlot.WEAPON_MAIN_HAND).
Definition is_off (container slot : Z) : bool :=
  (container =? EQ_CONTAINER) && (slot =? ItemEquipSlot.WEAPON_OFF_HAND).

(** The early returns before anything is changed, in their order: the first
    test that holds decides. 0 stands for none. [source] and [dest] are the
    items at the two places. *)
Definition move_refusal (ms : Managers) (localCharacterVault : bool)
    (origContainer origSlot destContainer destSlot : Z)
    (source : InventorySlot) (dest : option InventorySlot) : Z :=
  if (origContainer =? destContainer) && (origSlot =? destSlot)
     && (match other ms with None => true | Some _ => false end) then -3
  else if is_main destContainer destSlot && two_handed (ResolveSafeItemPtr source)
          && off_hand_used (this ms) then -1
  else if is_off destContainer destSlot && main_hand_two_handed (destInv ms) then -2
  else if is_main origContainer origSlot
          && (match dest with Some d => two_handed (ResolveSafeItemPtr d) | None => false end)
          && off_hand_used (this ms) then -1
  else if is_off origContainer origSlot && main_hand_two_handed (destInv ms) then -2
  else if (((destContainer =? BANK_CONTAINER) && negb localCharacterVault)
           || (destContainer =? DELIVERY_CONTAINER) || (destContainer =? AUCTION_CONTAINER))
          && negb (bindStatus source =? 0) then -4
  else 0.

(** [dest.ResolveItemPtr()] when swapping out of the equipment: the definition
    itself, or the default definition when one of the tests above has already
    resolved a [dest] without definition safely. *)
Definition resolve_swapped (origContainer origSlot destContainer destSlot : Z)
    (dest : InventorySlot) : option ItemDef :=
  if is_main origContainer origSlot
     || (is_off origContainer origSlot && is_main destContainer destSlot)
  then Some (ResolveSafeItemPtr dest) else ResolveItemPtr dest.

(** The merge of two stacks of one item. *)
Definition move_stack (ms : Managers) (origContainer : Z) (i : nat) (destContainer : Z) (j : nat)
    (source dest : InventorySlot) (dmax : Z) (updateDest : bool) : list Z * Managers :=
  let scount := GetStackCount source in
  let dcount := GetStackCount dest in
  let emptyStackSpace := i32 (dmax - dcount) in
  if scount <=? emptyStackSpace then
    let ms1 := upd_dest ms destContainer j (add_count scount) in
    ((if updateDest then AddItemUpdate g_ServerTime (add_count scount dest) else []) ++
     RemoveItemUpdate source,
     set_this ms1 (erase_slot (this ms1) origContainer i))
  else
    let ms1 := upd_dest ms destContainer j (add_count emptyStackSpace) in
    let ms2 := upd_source ms1 origContainer i (add_count (- emptyStackSpace)) in
    (AddItemUpdate g_ServerTime (add_count (- emptyStackSpace) source) ++
     (if updateDest then AddItemUpdate g_ServerTime (add_count emptyStackSpace dest) else []),
     ms2).

(** The exchange of two items. *)
Definition move_swap (ms : Managers) (origContainer : Z) (i : nat) (destContainer : Z) (j : nat)
    (source dest : InventorySlot) (updateDest : bool) : list Z * Managers :=
  let temp := CopyFrom InventorySlot_new dest false in
  let dest' := CopyFrom dest source false in
  let source' := CopyFrom source temp false in
  let ms1 := upd_dest ms destContainer j (fun d => CopyFrom d source false) in
  let ms2 := upd_source ms1 origContainer i (fun s => CopyFrom s temp false) in
  (RemoveItemUpdate source ++ (if updateDest then RemoveItemUpdate dest else []) ++
   (if updateDest then AddItemUpdate g_ServerTime dest' else []) ++
   AddItemUpdate g_ServerTime source', ms2).

(** The move to an empty place. *)
Definition move_to_empty (ms : Managers) (origContainer : Z) (i : nat) (destContainer destSlot : Z)
    (source : InventorySlot) (updateDest : bool) : list Z * Managers :=
  let source' := set_CCSID (GetCCSID destContainer destSlot) source in
  if (destContainer =? origContainer) && (match other ms with None => true | Some _ => false end)
  then (RemoveItemUpdate source ++ AddItemUpdate g_ServerTime source',
        upd_source ms origContainer i (fun _ => source'))
  else
    let dest := set_CCSID (GetCCSID destContainer destSlot)
                  (CopyFrom InventorySlot_new source false) in
    let ms1 := set_dest ms (push_back (destInv ms) destContainer dest) in
    (RemoveItemUpdate source ++ (if updateDest then AddItemUpdate g_ServerTime dest else []),
     set_this ms1 (erase_slot (this ms1) origContainer i)).

(** The returned [int] (the bytes written, or a code that is not positive), the
    packet and the managers. *)
Definition ItemMove (ms : Managers) (css_level css_profession : Z) (localCharacterVault : bool)
    (origContainer origSlot destContainer destSlot : Z) (updateDest : bool)
    : Z * list Z * Managers :=
  let origItemIndex := GetItemBySlot (this ms) origContainer origSlot in
  if origItemIndex =? -1 then (0, [], ms) else
  let i := Z.to_nat origItemIndex in
  let destItemIndex := GetItemBySlot (destInv ms) destContainer destSlot in
  let j := Z.to_nat destItemIndex in
  match cont (this ms) origContainer !! i with
  | None => (0, [], ms)
  | Some source =>
      let dest := if 0 <=? destItemIndex then cont (destInv ms) destContainer !! j else None in
      let refusal := move_refusal ms localCharacterVault origContainer origSlot
                       destContainer destSlot source dest in
      if negb (refusal =? 0) then (refusal, [], ms) else
      let done_ (r : list Z * Managers) := (Z.of_nat (length r.1), r.1, r.2) in
      match dest with
      | Some dest =>
          let destItem := resolve_swapped origContainer origSlot destContainer destSlot dest in
          if (origContainer =? EQ_CONTAINER)
             && (match destItem with None => true | Some _ => false end) then (0, [], ms) else
          let res := if origContainer =? EQ_CONTAINER
                     then VerifyEquipItem destItem origSlot css_level css_profession
                     else ERR.EQ_ERROR_NONE in
          if negb (res =? ERR.EQ_ERROR_NONE) then (-100 + res, [], ms) else
          let dmax := GetMaxStack source in
          if (IID source =? IID dest) && (0 <=? dmax)
          then done_ (move_stack ms origContainer i destContainer j source dest dmax updateDest)
          else done_ (move_swap ms origContainer i destContainer j source dest updateDest)
      | None => done_ (move_to_empty ms origContainer i destContainer destSlot source updateDest)
      end
  end.

(** *** Loading

    The result code and the manager; [None] when the specification has no
    second field, which the code reads without a test. *)
Definition ReadInventory (m : InventoryManager) (container spec : string)
    : option (Z * InventoryManager) :=
  let l := Split spec "," in
  let ContID := GetContainerIDFromName container in
  if ContID =? -1 then Some (-2, m) else
  l0 ← l !! 0%nat;
  l1 ← l !! 1%nat;
  let slot := atoi l0 in
  let ID := atoi l1 in
  if 0 <=? GetItemBySlot m ContID slot then Some (-1, m) else
  match item_of ID with
  | None => Some (-1, m)
  | Some _ =>
      let field n dflt := match l !! n with Some f => atoi f | None => dflt end in
      let newItem := mkSlot (u32 (Z.lor (Z.shiftl ContID 16) slot)) ID (field 2%nat 0)
                       (field 3%nat 0) (i8 (field 4%nat 0)) (field 5%nat (-1)) g_ServerTime in
      let (r, m') := AddItem g_ServerTime m ContID newItem in
      if r =? -1 then Some (-1, m) else Some (0, m')
  end.

End Manager.


(** ** Identifiers: lemmas *)

Lemma slot_of_mod z : slot_of z = z mod 65536.
Proof. unfold slot_of, CONTAINER_SLOT. exact (Z.land_ones z 16 ltac:(lia)). Qed.

Lemma container_of_mod z : container_of z = (z / 65536) mod 65536.
Proof.
  unfold container_of, CONTAINER_ID. rewrite Z.shiftr_land.
  change (Z.shiftr 0xFFFF0000 16) with (Z.ones 16).
  rewrite Z.land_ones by lia. rewrite Z.shiftr_div_pow2 by lia. done.
Qed.

Lemma GetCCSID_eq c k : 0 <= c < 65536 -> 0 <= k < 65536 -> GetCCSID c k = c * 65536 + k.
Proof.
  intros Hc Hk. unfold GetCCSID. rewrite (unsigned_id 16 c), (unsigned_id 16 k) by done.
  rewrite lor_shiftl_add by lia. apply unsigned_id. unfold in_unsigned. lia.
Qed.

Lemma container_of_GetCCSID c k :
  0 <= c < 65536 -> 0 <= k < 65536 -> container_of (GetCCSID c k) = c.
Proof.
  intros Hc Hk. rewrite container_of_mod, GetCCSID_eq by done.
  rewrite Z.div_add_l, (Z.div_small k), Z.add_0_r, Z.mod_small by lia. done.
Qed.

Lemma slot_of_GetCCSID c k :
  0 <= c < 65536 -> 0 <= k < 65536 -> slot_of (GetCCSID c k) = k.
Proof.
  intros Hc Hk. rewrite slot_of_mod, GetCCSID_eq by done.
  rewrite Z.add_comm, Z_mod_plus_full. by apply Z.mod_small.
Qed.

Lemma slot_of_range z : 0 <= slot_of z < 65536.
Proof. rewrite slot_of_mod. apply Z.mod_pos_bound. lia. Qed.

#[export] Hint Resolve slot_of_range : tawd.

(** ** Containers: lemmas *)

Definition valid (c : Z) : Prop := 0 <= c < MAXCONTAINER.

Lemma container_index_valid c : valid c -> container_index c = Some (Z.to_nat c).
Proof.
  intros [H1 H2]. unfold container_index. apply Z.leb_le in H1. apply Z.ltb_lt in H2.
  by rewrite H1, H2.
Qed.

Lemma container_index_Some c i : container_index c = Some i -> valid c /\ i = Z.to_nat c.
Proof.
  unfold container_index, valid. destruct (0 <=? c) eqn:E1, (c <? MAXCONTAINER) eqn:E2;
    simpl; intros; simplify_eq. to_prop. lia.
Qed.

Lemma container_index_inj c c' i :
  container_index c = Some i -> container_index c' = Some i -> c = c'.
Proof.
  intros [[H1 _] H2]%container_index_Some [[H3 _] H4]%container_index_Some. subst. lia.
Qed.

(** The arrays have the declared length. *)
Definition shaped (m : InventoryManager) : Prop :=
  length (containerList m) = 11%nat /\ length (MaxContainerSlot m) = 11%nat.

Lemma shaped_set_cont m c l : shaped m -> shaped (set_cont m c l).
Proof. unfold shaped, set_cont. destruct (container_index c); simpl; [|done]. by rewrite length_insert. Qed.

Lemma lookup_containerList m c : shaped m -> valid c -> containerList m !! Z.to_nat c = Some (cont m c).
Proof.
  intros [Hl _] Hc. unfold cont. rewrite container_index_valid by done. simpl.
  destruct (lookup_lt_is_Some_2 (containerList m) (Z.to_nat c)) as [l ->]; [|done].
  rewrite Hl. unfold valid, MAXCONTAINER in Hc. lia.
Qed.

Lemma cont_set_cont m c l : shaped m -> valid c -> cont (set_cont m c l) c = l.
Proof.
  intros [Hl _] Hc. unfold cont, set_cont. rewrite container_index_valid by done. simpl.
  rewrite list_lookup_insert_eq; [done|]. rewrite Hl. unfold valid, MAXCONTAINER in Hc. lia.
Qed.

Lemma cont_set_cont_ne m c c' l : c' <> c -> cont (set_cont m c l) c' = cont m c'.
Proof.
  intros Hne. unfold cont, set_cont. destruct (container_index c) as [i|] eqn:E; [|done].
  destruct (container_index c') as [i'|] eqn:E'; [|done]. simpl.
  rewrite list_lookup_insert_ne; [done|]. intros ->. eauto using container_index_inj.
Qed.

Lemma cont_invalid m c : ~ valid c -> cont m c = [].
Proof.
  intros H. unfold cont. destruct (container_index c) eqn:E; [|done].
  by apply container_index_Some in E as [? _].
Qed.

Lemma set_cont_invalid m c l : ~ valid c -> set_cont m c l = m.
Proof.
  intros H. unfold set_cont. destruct (container_index c) eqn:E; [|done].
  by apply container_index_Some in E as [? _].
Qed.

Lemma cont_set_expunge m t c : cont (set_expunge m t) c = cont m c.
Proof. done. Qed.
Lemma cont_SetError m e c : cont (SetError m e) c = cont m c.
Proof. done. Qed.
Lemma cont_set_buybackSlot m n c : cont (set_buybackSlot m n) c = cont m c.
Proof. done. Qed.
Lemma max_slot_set_cont m c l c' : max_slot (set_cont m c l) c' = max_slot m c'.
Proof. unfold max_slot, set_cont. by destruct (container_index c). Qed.

Lemma valid_dec c : valid c \/ ~ valid c.
Proof. unfold valid. lia. Qed.

Lemma cont_lookup_valid m c i s : cont m c !! i = Some s -> valid c.
Proof. intros H. destruct (valid_dec c); [done|]. by rewrite cont_invalid in H. Qed.

(** ** Well-formed inventories

    Every item sits in the container its identifier names, and no two items of
    a container share an identifier. *)

Record Inv_wf (m : InventoryManager) : Prop := {
  wf_shaped : shaped m;
  wf_ccsid : forall c s, s ∈ cont m c -> CCSID s = GetCCSID c (slot_of (CCSID s));
  wf_nodup : forall c, NoDup (CCSID <$> cont m c)
}.

Lemma wf_slot_inj m c i j s t :
  Inv_wf m -> cont m c !! i = Some s -> cont m c !! j = Some t ->
  slot_of (CCSID s) = slot_of (CCSID t) -> i = j.
Proof.
  intros Hwf Hi Hj E.
  eapply (NoDup_lookup (CCSID <$> cont m c) i j (CCSID s)).
  - apply (wf_nodup _ Hwf).
  - by rewrite list_lookup_fmap, Hi.
  - rewrite list_lookup_fmap, Hj. simpl. f_equal.
    rewrite (wf_ccsid _ Hwf c t), (wf_ccsid _ Hwf c s); [by rewrite E|..];
      by eapply list_elem_of_lookup_2.
Qed.

Lemma wf_container_of m c s : Inv_wf m -> s ∈ cont m c -> container_of (CCSID s) = c.
Proof.
  intros Hwf Hs. assert (valid c).
  { apply list_elem_of_lookup in Hs as [i Hi]. by eapply cont_lookup_valid. }
  rewrite (wf_ccsid _ Hwf c s Hs). apply container_of_GetCCSID; [|apply slot_of_range].
  unfold valid, MAXCONTAINER in *. lia.
Qed.

(** A change of one container keeps the inventory well formed when the new
    contents are. *)
Lemma wf_set_cont m c l :
  Inv_wf m -> (forall s, s ∈ l -> CCSID s = GetCCSID c (slot_of (CCSID s))) ->
  NoDup (CCSID <$> l) -> Inv_wf (set_cont m c l).
Proof.
  intros Hwf Hl Hnd. destruct (valid_dec c) as [Hc|Hc]; [|by rewrite set_cont_invalid].
  destruct Hwf as [Hsh Hcc Hno].
  split; [by apply shaped_set_cont|intros c' s|intros c'];
    (destruct (decide (c' = c)) as [->|]; [rewrite cont_set_cont by done|rewrite cont_set_cont_ne by done]);
    eauto.
Qed.

Lemma fmap_alter_id {A B} (g : A -> B) (f : A -> A) (l : list A) i :
  (forall x, g (f x) = g x) -> g <$> alter f i l = g <$> l.
Proof.
  intros H. revert i. induction l as [|x l IH]; intros [|i]; simpl; [done..| |].
  - by rewrite H.
  - f_equal. apply IH.
Qed.

Lemma elem_of_alter {A} (f : A -> A) (l : list A) i x :
  x ∈ alter f i l -> x ∈ l \/ exists y, l !! i = Some y /\ x = f y.
Proof.
  rewrite list_elem_of_lookup. intros [k Hk].
  destruct (decide (k = i)) as [->|].
  - rewrite list_lookup_alter_eq in Hk. destruct (l !! i) as [y|] eqn:E; simplify_eq/=. eauto.
  - rewrite list_lookup_alter_ne in Hk by done. left. by eapply list_elem_of_lookup_2.
Qed.

Lemma wf_update_slot m c i f :
  Inv_wf m -> (forall s, CCSID (f s) = CCSID s) -> Inv_wf (update_slot m c i f).
Proof.
  intros Hwf Hf. apply wf_set_cont; [done| |].
  - intros s [H|(y & Hy & ->)]%elem_of_alter; [by apply (wf_ccsid _ Hwf)|].
    rewrite Hf. apply (wf_ccsid _ Hwf). by eapply list_elem_of_lookup_2.
  - rewrite fmap_alter_id by done. apply (wf_nodup _ Hwf).
Qed.

Lemma fmap_delete {A B} (g : A -> B) (l : list A) i : g <$> delete i l = delete i (g <$> l).
Proof. revert i. induction l as [|x l IH]; intros [|i]; simpl; [done..|]. by rewrite <- IH. Qed.

Lemma elem_of_delete {A} (l : list A) i x : x ∈ delete i l -> x ∈ l.
Proof.
  revert i. induction l as [|y l IH]; intros [|i]; simpl; intros H; [by apply not_elem_of_nil in H..| |].
  - by right.
  - apply elem_of_cons in H as [->|H]; [left|right; eauto].
Qed.

Lemma NoDup_delete {A} (l : list A) i : NoDup l -> NoDup (delete i l).
Proof.
  intros H. revert i. induction H as [|x l Hx Hl IH]; intros [|i]; simpl; [constructor..|done|].
  constructor; [|apply IH]. intros ?%elem_of_delete. done.
Qed.

Lemma wf_erase_slot m c i : Inv_wf m -> Inv_wf (erase_slot m c i).
Proof.
  intros Hwf. apply wf_set_cont; [done| |].
  - intros s ?%elem_of_delete. by apply (wf_ccsid _ Hwf).
  - rewrite fmap_delete. apply NoDup_delete, (wf_nodup _ Hwf).
Qed.

(** No item of the container uses the slot. *)
Definition slot_free (m : InventoryManager) (c k : Z) : Prop :=
  forall s, s ∈ cont m c -> slot_of (CCSID s) <> k.

Lemma wf_push_back m c k s :
  Inv_wf m -> 0 <= c < 65536 -> 0 <= k < 65536 -> CCSID s = GetCCSID c k -> slot_free m c k ->
  Inv_wf (push_back m c s).
Proof.
  intros Hwf Hc Hk Hs Hfree.
  assert (slot_of (CCSID s) = k) as Hsk by (rewrite Hs; by apply slot_of_GetCCSID).
  apply wf_set_cont; [done| |].
  - intros t [Ht| ->%list_elem_of_singleton]%elem_of_app; [by apply (wf_ccsid _ Hwf)|].
    by rewrite Hsk.
  - rewrite fmap_app. simpl. apply list.NoDup_app. split_and!.
    + apply (wf_nodup _ Hwf).
    + intros x (t & -> & Ht)%list_elem_of_fmap H%list_elem_of_singleton.
      apply (Hfree t Ht). by rewrite H.
    + apply NoDup_singleton.
Qed.

(** Giving an item a new identifier in a free slot of its container. *)
Lemma wf_renumber m c i k s' :
  Inv_wf m -> 0 <= c < 65536 -> 0 <= k < 65536 -> CCSID s' = GetCCSID c k -> slot_free m c k ->
  Inv_wf (update_slot m c i (fun _ => s')).
Proof.
  intros Hwf Hc Hk Hs Hfree.
  apply wf_set_cont; [done| |].
  - intros t [Ht|(y & Hy & ->)]%elem_of_alter; [by apply (wf_ccsid _ Hwf)|].
    rewrite Hs. by rewrite slot_of_GetCCSID.
  - apply NoDup_alt. intros a b x Ha Hb. rewrite !list_lookup_fmap in Ha, Hb.
    assert (forall j t, alter (fun _ => s') i (cont m c) !! j = Some t ->
              (j = i /\ t = s') \/ (j <> i /\ cont m c !! j = Some t)) as Hcase.
    { intros j t. destruct (decide (j = i)) as [->|Hne].
      - rewrite list_lookup_alter_eq. destruct (cont m c !! i); simpl; intros [= <-]. by left.
      - rewrite list_lookup_alter_ne by done. by right. }
    destruct (alter _ _ _ !! a) as [ta|] eqn:Ea; [|done].
    destruct (alter _ _ _ !! b) as [tb|] eqn:Eb; [|done].
    simpl in Ha, Hb. injection Ha as Ha. injection Hb as Hb. subst x.
    apply Hcase in Ea as [[-> ->]|[Ha1 Ha2]], Eb as [[-> ->]|[Hb1 Hb2]]; [done|exfalso..|].
    + apply (Hfree tb); [by eapply list_elem_of_lookup_2|]. rewrite Hb, Hs. by apply slot_of_GetCCSID.
    + apply (Hfree ta); [by eapply list_elem_of_lookup_2|]. rewrite <- Hb, Hs. by apply slot_of_GetCCSID.
    + eapply wf_slot_inj; [done..|by rewrite Hb].
Qed.

Lemma wf_set_expunge m t : Inv_wf m -> Inv_wf (set_expunge m t).
Proof. intros []. split; [done|..]; done. Qed.
Lemma wf_SetError m e : Inv_wf m -> Inv_wf (SetError m e).
Proof. intros []. split; [done|..]; done. Qed.
Lemma wf_set_buybackSlot m n : Inv_wf m -> Inv_wf (set_buybackSlot m n).
Proof. intros []. split; [done|..]; done. Qed.

#[export] Hint Resolve wf_update_slot wf_erase_slot wf_set_expunge wf_SetError
  wf_set_buybackSlot : tawd.

(** ** Slot searches: lemmas *)

Lemma idx_range {A} (p : A -> bool) l : -1 <= idx (find_idx p l) < Z.of_nat (length l).
Proof.
  destruct (find_idx p l) as [i|] eqn:E; simpl; [|lia].
  apply find_idx_lookup in E as (x & Hx & _). apply lookup_lt_Some in Hx. lia.
Qed.

(** [GetItemBySlot] finds the item of a slot, or -1 when the slot is free. *)
Lemma GetItemBySlot_Some m c k i :
  0 <= k < 65536 -> GetItemBySlot m c k = Z.of_nat i ->
  exists s, cont m c !! i = Some s /\ slot_of (CCSID s) = k.
Proof.
  intros Hk. unfold GetItemBySlot. rewrite (unsigned_id 32 k) by (unfold in_unsigned; lia).
  destruct (MAXCONTAINER <=? c); [lia|].
  destruct (find_idx _ _) as [i'|] eqn:E; simpl; [|lia]. intros H. assert (i' = i) as -> by lia.
  apply find_idx_lookup in E as (s & Hs & E). to_prop. eauto.
Qed.

Lemma GetItemBySlot_None m c k :
  0 <= k < 65536 -> GetItemBySlot m c k = -1 -> slot_free m c k.
Proof.
  intros Hk. unfold GetItemBySlot. rewrite (unsigned_id 32 k) by (unfold in_unsigned; lia).
  destruct (MAXCONTAINER <=? c) eqn:E; to_prop.
  - intros _ s. rewrite cont_invalid by (unfold valid; lia). by intros ?%not_elem_of_nil.
  - intros H%idx_lt0. apply find_idx_None in H. intros s Hs Hc.
    rewrite list.Forall_forall in H. specialize (H s Hs). to_prop. done.
Qed.

Lemma GetItemBySlot_used m c k s :
  0 <= k < 65536 -> s ∈ cont m c -> slot_of (CCSID s) = k -> 0 <= GetItemBySlot m c k.
Proof.
  intros Hk Hs E. assert (-1 <= GetItemBySlot m c k) as Hr.
  { unfold GetItemBySlot. case_test; [lia|]. apply idx_range. }
  destruct (decide (GetItemBySlot m c k = -1)) as [H|]; [|lia].
  apply GetItemBySlot_None in H; [|done]. by destruct (H s Hs).
Qed.

Lemma GetItemBySlot_at m c k i s :
  Inv_wf m -> cont m c !! i = Some s -> slot_of (CCSID s) = k -> 0 <= k < 65536 ->
  GetItemBySlot m c k = Z.of_nat i.
Proof.
  intros Hwf Hi Hs Hk.
  assert (0 <= GetItemBySlot m c k) as H0
    by (eapply GetItemBySlot_used; [done|by eapply list_elem_of_lookup_2|done]).
  destruct (GetItemBySlot_Some m c k (Z.to_nat (GetItemBySlot m c k))) as (t & Ht & Et); [done|lia|].
  assert (Z.to_nat (GetItemBySlot m c k) = i) by (eapply wf_slot_inj; [done..|congruence]). lia.
Qed.

(** ** Amounts

    [amount m c ID] sums over the items of a container; [held m ID] is how many of the item
    [ID] the inventory holds, over all containers and without wrap-around. *)

Section Held.
Context {db : ItemDb}.

Definition weight (ID : Z) (s : InventorySlot) : Z := if IID s =? ID then item_count s else 0.
Definition amount (m : InventoryManager) (c ID : Z) : Z := sumZ (weight ID) (cont m c).
Definition held (m : InventoryManager) (ID : Z) : Z := sumZ (sumZ (weight ID)) (containerList m).

Lemma held_set_cont m c l ID :
  shaped m -> valid c -> held (set_cont m c l) ID = held m ID - amount m c ID + sumZ (weight ID) l.
Proof.
  intros Hsh Hc. pose proof (lookup_containerList m c Hsh Hc) as Hl. unfold held, set_cont, amount.
  rewrite container_index_valid by done. simpl.
  by rewrite (sumZ_insert _ _ _ (cont m c)).
Qed.

Lemma sumZ_alter (f : InventorySlot -> Z) g l i s :
  l !! i = Some s -> sumZ f (alter g i l) = sumZ f l - f s + f (g s).
Proof.
  intros Hi. replace (alter g i l) with (<[i := g s]> l); [by apply sumZ_insert|].
  symmetry. clear f. revert i Hi. induction l as [|x l IH]; intros [|i] Hi; simplify_eq/=; [done|].
  f_equal. by apply IH.
Qed.

Lemma held_update_slot m c i f s ID :
  shaped m -> cont m c !! i = Some s ->
  held (update_slot m c i f) ID = held m ID - weight ID s + weight ID (f s).
Proof.
  intros Hsh Hi. unfold update_slot. rewrite held_set_cont by eauto using cont_lookup_valid.
  rewrite (sumZ_alter _ _ _ _ s) by done. unfold amount. lia.
Qed.

Lemma held_erase_slot m c i s ID :
  shaped m -> cont m c !! i = Some s -> held (erase_slot m c i) ID = held m ID - weight ID s.
Proof.
  intros Hsh Hi. unfold erase_slot. rewrite held_set_cont by eauto using cont_lookup_valid.
  rewrite (sumZ_delete _ _ _ s) by done. unfold amount. lia.
Qed.

Lemma held_push_back m c s ID :
  shaped m -> valid c -> held (push_back m c s) ID = held m ID + weight ID s.
Proof.
  intros Hsh Hc. unfold push_back. rewrite held_set_cont by done.
  rewrite sumZ_app. simpl. unfold amount. lia.
Qed.

(** Stack sizes as the code computes them agree with the amounts when the
    stored count is in range. *)
Definition count_ok (s : InventorySlot) : Prop := 0 <= count s < 2 ^ 30.

Lemma GetStackCount_item_count s : count_ok s -> GetStackCount s = item_count s.
Proof.
  intros Hs. unfold count_ok in Hs. unfold GetStackCount, item_count, ResolveItemPtr.
  destruct (item_of (IID s)); [|done]. case_test; [|done].
  rewrite i32_id; [lia|]. unfold in_signed. lia.
Qed.

Lemma GetMaxStack_stacking s :
  0 <= GetMaxStack s -> exists d, item_of (IID s) = Some d /\
    mIvType1 d = ItemIntegerType.STACKING /\ GetMaxStack s = mIvMax1 d.
Proof.
  unfold GetMaxStack. destruct (item_of (IID s)) as [d|]; [|lia]. case_test; [|lia].
  to_prop. eauto.
Qed.

Lemma item_count_stacking s d :
  item_of (IID s) = Some d -> mIvType1 d = ItemIntegerType.STACKING -> item_count s = 1 + count s.
Proof. intros H E. unfold item_count, ResolveItemPtr. by rewrite H, E, Z.eqb_refl. Qed.

End Held.

(** ** Membership after a change *)

Lemma elem_update_slot m c i f e x :
  shaped m -> x ∈ cont (update_slot m c i f) e ->
  x ∈ cont m e \/ (e = c /\ exists y, cont m c !! i = Some y /\ x = f y).
Proof.
  intros Hsh. unfold update_slot. destruct (decide (e = c)) as [->|];
    [|rewrite cont_set_cont_ne by done; by left].
  destruct (valid_dec c); [|rewrite set_cont_invalid by done; by left].
  rewrite cont_set_cont by done. intros [?|?]%elem_of_alter; auto.
Qed.

Lemma elem_erase_slot m c i e x : shaped m -> x ∈ cont (erase_slot m c i) e -> x ∈ cont m e.
Proof.
  intros Hsh. unfold erase_slot. destruct (decide (e = c)) as [->|];
    [|by rewrite cont_set_cont_ne].
  destruct (valid_dec c); [|by rewrite set_cont_invalid].
  rewrite cont_set_cont by done. apply elem_of_delete.
Qed.

Lemma elem_push_back m c s e x :
  shaped m -> x ∈ cont (push_back m c s) e -> x ∈ cont m e \/ (e = c /\ x = s).
Proof.
  intros Hsh. unfold push_back. destruct (decide (e = c)) as [->|];
    [|rewrite cont_set_cont_ne by done; by left].
  destruct (valid_dec c); [|rewrite set_cont_invalid by done; by left].
  rewrite cont_set_cont by done.
  intros [?| ->%list_elem_of_singleton]%elem_of_app; auto.
Qed.

Lemma shaped_update_slot m c i f : shaped m -> shaped (update_slot m c i f).
Proof. apply shaped_set_cont. Qed.
Lemma shaped_erase_slot m c i : shaped m -> shaped (erase_slot m c i).
Proof. apply shaped_set_cont. Qed.
Lemma shaped_push_back m c s : shaped m -> shaped (push_back m c s).
Proof. apply shaped_set_cont. Qed.

Lemma shaped_set_buybackSlot m n : shaped m -> shaped (set_buybackSlot m n).
Proof. done. Qed.
Lemma shaped_set_expunge m t : shaped m -> shaped (set_expunge m t).
Proof. done. Qed.

#[export] Hint Resolve shaped_set_buybackSlot shaped_set_expunge shaped_set_cont shaped_update_slot shaped_erase_slot shaped_push_back
  wf_shaped : tawd.

(** ** Deciding well-formedness of a concrete inventory *)

Definition Inv_wfb (m : InventoryManager) : bool :=
  (length (containerList m) =? 11)%nat && (length (MaxContainerSlot m) =? 11)%nat &&
  forallb (fun c =>
    forallb (fun s => CCSID s =? GetCCSID c (slot_of (CCSID s))) (cont m c) &&
    bool_decide (NoDup (CCSID <$> cont m c))) (seqZ 0 MAXCONTAINER).

Lemma Inv_wfb_sound m : Inv_wfb m = true -> Inv_wf m.
Proof.
  unfold Inv_wfb. intros [[H1 H2]%andb_true_iff H3]%andb_true_iff. to_prop.
  rewrite forallb_forall in H3.
  assert (forall c, valid c ->
    (forall s, s ∈ cont m c -> CCSID s = GetCCSID c (slot_of (CCSID s))) /\ NoDup (CCSID <$> cont m c)) as H.
  { intros c Hc. destruct (andb_prop _ _ (H3 c ltac:(by apply list_elem_of_In, elem_of_seqZ))) as [Ha Hb].
    rewrite forallb_forall in Ha. split; [|by apply bool_decide_eq_true in Hb].
    intros s Hs. apply Z.eqb_eq, Ha. by apply list_elem_of_In. }
  split; [done|intros c s Hs|intros c]; (destruct (valid_dec c) as [Hc|Hc]; [by apply (H c Hc)|]).
  - by rewrite cont_invalid in Hs; [apply not_elem_of_nil in Hs|].
  - rewrite cont_invalid by done. constructor.
Qed.

(** An inventory for the witnesses, over the store [example_store]: in the
    backpack 4 of item 5 at slot 0 and 3 of it at slot 2, a bound item 9 at
    slot 1; in the bank 8 of item 5. *)
Definition example_db : ItemDb := ItemManager_db example_store example_store_wf.

Definition example_slot (c k iid n bound : Z) : InventorySlot :=
  mkSlot (GetCCSID c k) iid n 0 bound (-1) 0.

Definition example_inv : InventoryManager :=
  mkInventory
    [[example_slot 0 0 5 3 0; example_slot 0 1 9 0 1; example_slot 0 2 5 2 0]; [];
     [example_slot 2 0 5 7 0]; []; []; []; []; []; []; []; []]
    [24; 0; 10; 0; 0; 0; 0; 0; 0; 0; 0] 0 0 0.

Lemma example_inv_wf : Inv_wf example_inv.
Proof. apply Inv_wfb_sound. vm_compute. reflexivity. Qed.
