(* ===== verification/InventoryMove.v ===== *)
(** * InventoryMove: theorems on [InventoryManager::ItemMove]

    The operation itself is in [Inventory.v]. It moves, merges or exchanges
    items between two places of one manager or of two. Shown here: an attempt
    that is refused changes nothing, no item is ever lost or created, the
    managers stay well formed, bound items stay out of the shared containers,
    and a two-handed weapon never ends up beside an off-hand item. *)

From S2P Require Import Prelude ByteBuffer Messages Text Items Inventory.

(** ** Managers *)

Definition ms_wf (ms : Managers) : Prop :=
  Inv_wf (this ms) /\ (forall o, other ms = Some o -> Inv_wf o).

Lemma ms_wf_dest ms : ms_wf ms -> Inv_wf (destInv ms).
Proof. destruct ms as [t [o|]]; intros [H1 H2]; simpl; [by apply H2|done]. Qed.

Lemma ms_wf_set_this ms m : ms_wf ms -> Inv_wf m -> ms_wf (set_this ms m).
Proof. intros [_ H] Hm. by split. Qed.

Lemma ms_wf_set_dest ms m : ms_wf ms -> Inv_wf m -> ms_wf (set_dest ms m).
Proof. destruct ms as [t [o|]]; intros [H1 H2] Hm; split; simpl; intros; simplify_eq; done. Qed.

Lemma ms_wf_upd_dest ms c i f :
  ms_wf ms -> (forall s, CCSID (f s) = CCSID s) -> ms_wf (upd_dest ms c i f).
Proof. intros H Hf. apply ms_wf_set_dest; [done|]. apply wf_update_slot; [by apply ms_wf_dest|done]. Qed.

Lemma ms_wf_upd_source ms c i f :
  ms_wf ms -> (forall s, CCSID (f s) = CCSID s) -> ms_wf (upd_source ms c i f).
Proof. intros H Hf. apply ms_wf_set_this; [done|]. apply wf_update_slot; [exact (proj1 H)|done]. Qed.

Lemma ms_wf_erase ms c i : ms_wf ms -> ms_wf (set_this ms (erase_slot (this ms) c i)).
Proof. intros H. apply ms_wf_set_this; [done|]. apply wf_erase_slot. exact (proj1 H). Qed.

#[export] Hint Resolve ms_wf_dest ms_wf_set_this ms_wf_set_dest ms_wf_upd_dest ms_wf_upd_source
  ms_wf_erase : tawd.

(** The two places are different: they may only share manager and container
    when the indices differ. *)
Definition apart (ms : Managers) (o : Z) (i : nat) (d : Z) (j : nat) : Prop :=
  other ms = None -> (o, i) <> (d, j).

Lemma update_slot_lookup_ne m o i d j f :
  shaped m -> (o, i) <> (d, j) -> cont (update_slot m d j f) o !! i = cont m o !! i.
Proof.
  intros Hsh Hne. unfold update_slot. destruct (decide (o = d)) as [->|];
    [|by rewrite cont_set_cont_ne].
  destruct (valid_dec d); [|by rewrite set_cont_invalid].
  rewrite cont_set_cont by done. apply list_lookup_alter_ne. congruence.
Qed.

Lemma this_upd_dest_lookup ms o i d j f :
  ms_wf ms -> apart ms o i d j -> cont (this (upd_dest ms d j f)) o !! i = cont (this ms) o !! i.
Proof.
  destruct ms as [t [x|]]; intros [[Hsh _ _] _] Ha; simpl; [done|].
  apply update_slot_lookup_ne; [done|]. by apply Ha.
Qed.

Lemma this_push_dest_lookup ms o i d s t :
  ms_wf ms -> cont (this ms) o !! i = Some s ->
  cont (this (set_dest ms (push_back (destInv ms) d t))) o !! i = Some s.
Proof.
  destruct ms as [m [x|]]; intros [[Hsh _ _] _] Hi; simpl; [done|]. simpl in Hi.
  unfold push_back. destruct (decide (o = d)) as [->|]; [|by rewrite cont_set_cont_ne].
  rewrite cont_set_cont by (done || by eapply cont_lookup_valid). by apply lookup_app_l_Some.
Qed.

(** ** Amounts over both managers *)

Section Move.
Context {db : ItemDb} (g_ServerTime : Z).

Definition total (ms : Managers) (ID : Z) : Z :=
  held (this ms) ID + match other ms with Some o => held o ID | None => 0 end.

Lemma total_upd_dest ms d j f s ID :
  ms_wf ms -> cont (destInv ms) d !! j = Some s ->
  total (upd_dest ms d j f) ID = total ms ID - weight ID s + weight ID (f s).
Proof.
  destruct ms as [t [x|]]; intros [[Ht _ _] Ho] Hj; unfold total; simpl in *.
  - rewrite (held_update_slot x d j f s) by (done || apply (Ho _ eq_refl)). lia.
  - rewrite (held_update_slot t d j f s) by done. lia.
Qed.

Lemma total_upd_source ms o i f s ID :
  ms_wf ms -> cont (this ms) o !! i = Some s ->
  total (upd_source ms o i f) ID = total ms ID - weight ID s + weight ID (f s).
Proof.
  intros [[Ht _ _] _] Hi. unfold total. simpl. erewrite held_update_slot by done. lia.
Qed.

Lemma total_erase ms o i s ID :
  ms_wf ms -> cont (this ms) o !! i = Some s ->
  total (set_this ms (erase_slot (this ms) o i)) ID = total ms ID - weight ID s.
Proof.
  intros [[Ht _ _] _] Hi. unfold total. simpl. erewrite held_erase_slot by done. lia.
Qed.

Lemma total_push ms d t ID :
  ms_wf ms -> valid d ->
  total (set_dest ms (push_back (destInv ms) d t)) ID = total ms ID + weight ID t.
Proof.
  destruct ms as [m [x|]]; intros [[Ht _ _] Ho] Hd; unfold total; simpl in *.
  - rewrite held_push_back by (done || apply (Ho _ eq_refl)). change (destInv (mkManagers m (Some x))) with x. lia.
  - rewrite held_push_back by done. change (destInv (mkManagers m None)) with m. lia.
Qed.

(** ** What a call does *)

Lemma move_refusal_nonpos ms v o os d ds s t : move_refusal ms v o os d ds s t <= 0.
Proof. unfold move_refusal. repeat match goal with |- (if ?b then _ else _) <= 0 => destruct b end; lia. Qed.

Lemma VerifyEquipItem_nonpos it k lvl prof : VerifyEquipItem it k lvl prof <= 0.
Proof.
  unfold VerifyEquipItem, ERR.EQ_ERROR_ITEM, ERR.EQ_ERROR_LEVEL, ERR.EQ_ERROR_PROFESSION,
    ERR.EQ_ERROR_SLOT, ERR.EQ_ERROR_NONE.
  destruct it; [|lia]. repeat match goal with |- (if ?b then _ else _) <= 0 => destruct b end; lia.
Qed.

Lemma RemoveItemUpdate_pos s : (0 < length (RemoveItemUpdate s))%nat.
Proof. unfold RemoveItemUpdate. rewrite seal_frame. simpl. lia. Qed.

Lemma AddItemUpdate_pos s : (0 < length (AddItemUpdate g_ServerTime s))%nat.
Proof. unfold AddItemUpdate. rewrite seal_frame. simpl. lia. Qed.

(** The three ways a move is carried out. *)
Inductive move_done (ms : Managers) (lvl prof o os d ds : Z) (upd : bool)
    (i : nat) (source : InventorySlot) : list Z -> Managers -> Prop :=
| done_stack j dest r :
    cont (destInv ms) d !! j = Some dest -> slot_of (CCSID dest) = ds ->
    IID source = IID dest -> 0 <= GetMaxStack source ->
    r = move_stack g_ServerTime ms o i d j source dest (GetMaxStack source) upd ->
    move_done ms lvl prof o os d ds upd i source r.1 r.2
| done_swap j dest r :
    cont (destInv ms) d !! j = Some dest -> slot_of (CCSID dest) = ds ->
    (o = EQ_CONTAINER ->
     VerifyEquipItem (resolve_swapped o os d ds dest) os lvl prof = ERR.EQ_ERROR_NONE) ->
    r = move_swap g_ServerTime ms o i d j source dest upd ->
    move_done ms lvl prof o os d ds upd i source r.1 r.2
| done_empty r :
    slot_free (destInv ms) d ds ->
    r = move_to_empty g_ServerTime ms o i d ds source upd ->
    move_done ms lvl prof o os d ds upd i source r.1 r.2.

(** The item at the destination, as [ItemMove] finds it. *)
Definition dest_item (ms : Managers) (d ds : Z) : option InventorySlot :=
  let k := GetItemBySlot (destInv ms) d ds in
  if 0 <=? k then cont (destInv ms) d !! Z.to_nat k else None.

Lemma dest_item_spec ms d ds :
  0 <= ds < 65536 ->
  match dest_item ms d ds with
  | Some s => exists j, GetItemBySlot (destInv ms) d ds = Z.of_nat j /\
                cont (destInv ms) d !! j = Some s /\ slot_of (CCSID s) = ds
  | None => slot_free (destInv ms) d ds
  end.
Proof.
  intros Hds. unfold dest_item. destruct (0 <=? _) eqn:E; to_prop.
  - destruct (GetItemBySlot_Some (destInv ms) d ds (Z.to_nat (GetItemBySlot (destInv ms) d ds)))
      as (s & Hs & Hk); [done|lia|]. rewrite Hs. eexists. split_and!; eauto. lia.
  - apply GetItemBySlot_None; [done|]. unfold GetItemBySlot in *. case_test; [done|].
    pose proof (idx_range (fun s => slot_of (CCSID s) =? u32 ds) (cont (destInv ms) d)). lia.
Qed.

Lemma ItemMove_inv ms lvl prof v o os d ds upd code packet ms' :
  0 <= os < 65536 -> 0 <= ds < 65536 ->
  ItemMove g_ServerTime ms lvl prof v o os d ds upd = (code, packet, ms') ->
  (code <= 0 /\ packet = [] /\ ms' = ms) \/
  (exists i source,
     cont (this ms) o !! i = Some source /\ slot_of (CCSID source) = os /\
     move_refusal ms v o os d ds source (dest_item ms d ds) = 0 /\
     code = Z.of_nat (length packet) /\
     move_done ms lvl prof o os d ds upd i source packet ms').
Proof.
  intros Hos Hds. unfold ItemMove. fold (dest_item ms d ds).
  destruct (GetItemBySlot (this ms) o os =? -1) eqn:Ei.
  { intros [= <- <- <-]. left. split_and!; [lia|done..]. }
  destruct (cont (this ms) o !! _) as [source|] eqn:Hi;
    [|intros [= <- <- <-]; left; split_and!; [lia|done..]].
  assert (slot_of (CCSID source) = os) as Hsos.
  { to_prop. destruct (GetItemBySlot_Some (this ms) o os
      (Z.to_nat (GetItemBySlot (this ms) o os))) as (s & Hs & Hk); [done| |congruence].
    unfold GetItemBySlot in *. case_test; [done|].
    pose proof (idx_range (fun s => slot_of (CCSID s) =? u32 os) (cont (this ms) o)). lia. }
  destruct (move_refusal ms v o os d ds source (dest_item ms d ds) =? 0) eqn:Er; simpl negb; cbv iota;
    [|intros [= <- <- <-]; left; split_and!; [apply move_refusal_nonpos|done..]].
  to_prop. pose proof (dest_item_spec ms d ds Hds) as Hdest.
  destruct (dest_item ms d ds) as [dest|] eqn:Edest.
  - destruct Hdest as (j & Ej & Hj & Hjs). rewrite Ej, Nat2Z.id.
    destruct ((o =? EQ_CONTAINER) && _) eqn:E1.
    { intros [= <- <- <-]. left. split_and!; [lia|done..]. }
    destruct (negb (_ =? ERR.EQ_ERROR_NONE)) eqn:E2.
    { intros [= <- <- <-]. left. split_and!; [|done..]. case_test; [|done].
      pose proof (VerifyEquipItem_nonpos (resolve_swapped o os d ds dest) os lvl prof). lia. }
    intros H. right. exists (Z.to_nat (GetItemBySlot (this ms) o os)), source. revert H.
    destruct ((IID source =? IID dest) && (0 <=? GetMaxStack source)) eqn:E3;
      to_prop.
    + remember (move_stack _ _ _ _ _ _ _ _ _ _) as r eqn:Hr.
      intros [= <- <- <-]. split_and!; [done..|]. by eapply done_stack.
    + remember (move_swap _ _ _ _ _ _ _ _ _) as r eqn:Hr.
      intros [= <- <- <-]. split_and!; [done..|]. eapply done_swap; [done..| |done]. intros ->. revert E2. case_test; [by intros|done].
  - remember (move_to_empty _ _ _ _ _ _ _ _) as r eqn:Hr.
    intros [= <- <- <-]. right. eexists _, source. split_and!; [done..|]. by apply done_empty.
Qed.

Lemma move_done_packet ms lvl prof o os d ds upd i source packet ms' :
  move_done ms lvl prof o os d ds upd i source packet ms' -> (0 < length packet)%nat.
Proof.
  intros [j dest r _ _ _ _ -> |j dest r _ _ _ -> |r _ ->]; unfold move_stack, move_swap, move_to_empty;
    repeat case_test; simpl; rewrite ?length_app;
    pose proof (RemoveItemUpdate_pos source);
    try pose proof (AddItemUpdate_pos (add_count (- i32 (GetMaxStack source - GetStackCount dest)) source));
    lia.
Qed.

(** A carried out move has its places apart. *)
Lemma refusal_apart ms v o os d ds source t i j dest :
  move_refusal ms v o os d ds source t = 0 ->
  cont (this ms) o !! i = Some source -> slot_of (CCSID source) = os ->
  cont (destInv ms) d !! j = Some dest -> slot_of (CCSID dest) = ds ->
  apart ms o i d j.
Proof.
  intros Hr Hi Hs Hj Hd Hno [= -> ->]. unfold destInv in Hj. rewrite Hno in Hj. simpl in Hj.
  simplify_eq. unfold move_refusal in Hr. by rewrite Hno, !Z.eqb_refl in Hr.
Qed.

(** ** Well-formedness and conservation of a carried out move *)

Lemma move_done_wf ms lvl prof o os d ds upd i source packet ms' :
  ms_wf ms -> valid d -> 0 <= ds < 65536 -> cont (this ms) o !! i = Some source ->
  move_done ms lvl prof o os d ds upd i source packet ms' -> ms_wf ms'.
Proof.
  intros Hwf Hd Hds Hi.
  assert (0 <= d < 65536) as Hd' by (unfold valid, MAXCONTAINER in Hd; lia).
  intros [j dest r _ _ _ _ -> |j dest r _ _ _ -> |r Hfree ->];
    unfold move_stack, move_swap, move_to_empty.
  - case_test; simpl; auto 6 with tawd.
  - simpl. auto 6 with tawd.
  - destruct ((d =? o) && _) eqn:E; simpl.
    + apply andb_true_iff in E as [->%Z.eqb_eq Eo].
      assert (other ms = None) as Eo' by (by destruct (other ms)).
      apply ms_wf_set_this; [done|]. unfold destInv in Hfree. rewrite Eo' in Hfree.
      apply (wf_renumber _ _ _ ds); [exact (proj1 Hwf)|done..].
    + apply ms_wf_erase, ms_wf_set_dest; [done|].
      apply (wf_push_back _ _ ds); [by apply ms_wf_dest|done..].
Qed.

(** Every item of the two managers has an amount and a stack limit far from
    the limits of [int]. *)
Definition counts_ok (ms : Managers) : Prop :=
  (forall c s, s ∈ cont (this ms) c \/ s ∈ cont (destInv ms) c ->
     count_ok s /\ GetMaxStack s < 2 ^ 30).

Lemma weight_add_count ID n s d :
  item_of (IID s) = Some d -> mIvType1 d = ItemIntegerType.STACKING -> in_i32 (count s + n) ->
  weight ID (add_count n s) = weight ID s + (if IID s =? ID then n else 0).
Proof.
  intros Hd Hst Hr. unfold weight. simpl. case_test; [|lia].
  rewrite (item_count_stacking (add_count n s) d), (item_count_stacking s d) by done.
  simpl. rewrite i32_id by done. lia.
Qed.

Lemma move_stack_total ms o i d j source dest upd ID :
  ms_wf ms -> apart ms o i d j -> cont (this ms) o !! i = Some source ->
  cont (destInv ms) d !! j = Some dest -> IID source = IID dest -> 0 <= GetMaxStack source ->
  count_ok source -> count_ok dest -> GetMaxStack source < 2 ^ 30 ->
  total (move_stack g_ServerTime ms o i d j source dest (GetMaxStack source) upd).2 ID = total ms ID.
Proof.
  intros Hwf Ha Hi Hj HID Hmax Hs Hd Hlim. unfold move_stack.
  rewrite !GetStackCount_item_count by done.
  destruct (GetMaxStack_stacking source Hmax) as (def & Hdef & Hst & Hm).
  assert (item_of (IID dest) = Some def) as Hdef' by congruence.
  rewrite (item_count_stacking source def), (item_count_stacking dest def) by done.
  set (dmax := GetMaxStack source) in *. unfold count_ok in *.
  assert (forall z, - 2 ^ 31 <= z < 2 ^ 31 -> in_i32 z) as Hin by (unfold in_signed; lia).
  rewrite (i32_id (dmax - _)) by (apply Hin; lia).
  case_test; to_prop; cbn [snd].
  - rewrite (total_erase _ o i source).
    + rewrite (total_upd_dest _ d j _ dest) by done.
      rewrite (weight_add_count ID _ dest def) by (done || (apply Hin; lia)).
      unfold weight. rewrite HID. case_test; [|lia]. rewrite (item_count_stacking source def) by done. lia.
    + by apply ms_wf_upd_dest.
    + by rewrite this_upd_dest_lookup.
  - rewrite (total_upd_source _ o i _ source).
    + rewrite (total_upd_dest _ d j _ dest) by done.
      rewrite (weight_add_count ID _ dest def), (weight_add_count ID _ source def)
        by (done || (apply Hin; lia)).
      rewrite HID. case_test; lia.
    + by apply ms_wf_upd_dest.
    + by rewrite this_upd_dest_lookup.
Qed.

Lemma weight_CopyFrom ID s t b : weight ID (CopyFrom s t b) = weight ID t.
Proof. done. Qed.

Lemma move_done_total ms lvl prof o os d ds upd i source packet ms' ID :
  ms_wf ms -> counts_ok ms -> valid d -> 0 <= ds < 65536 ->
  (forall j dest, cont (destInv ms) d !! j = Some dest -> slot_of (CCSID dest) = ds -> apart ms o i d j) ->
  cont (this ms) o !! i = Some source ->
  move_done ms lvl prof o os d ds upd i source packet ms' -> total ms' ID = total ms ID.
Proof.
  intros Hwf Hc Hd Hds Ha Hi.
  assert (0 <= d < 65536) as Hd' by (unfold valid, MAXCONTAINER in Hd; lia).
  assert (count_ok source /\ GetMaxStack source < 2 ^ 30) as [Hs Hm].
  { apply (Hc o). left. by eapply list_elem_of_lookup_2. }
  intros [j dest r Hj Hsl HID Hmax -> |j dest r Hj Hsl _ -> |r Hfree ->].
  - apply move_stack_total; eauto. apply (Hc d). right. by eapply list_elem_of_lookup_2.
  - unfold move_swap. cbn [snd].
    rewrite (total_upd_source _ o i _ source).
    + rewrite (total_upd_dest _ d j _ dest) by done. rewrite !weight_CopyFrom. lia.
    + by apply ms_wf_upd_dest.
    + rewrite this_upd_dest_lookup; eauto.
  - unfold move_to_empty. case_test; cbn [snd].
    + rewrite (total_upd_source _ o i _ source) by done.
      change (weight ID (set_CCSID _ source)) with (weight ID source). lia.
    + rewrite (total_erase _ o i source).
      * rewrite total_push by done.
        change (weight ID (set_CCSID _ (CopyFrom _ source _))) with (weight ID source). lia.
      * apply ms_wf_set_dest; [done|].
        apply (wf_push_back _ _ ds); [by apply ms_wf_dest|done..].
      * by apply this_push_dest_lookup.
Qed.


(** ** Where the items of one manager are after a move *)

(** Every item of the result is an old one of the same place and kind, or the
    source at the destination, or the destination's item at the origin. *)
Lemma move_done_places m lvl prof o os d ds upd i source packet ms' e x :
  Inv_wf m -> cont m o !! i = Some source -> slot_of (CCSID source) = os ->
  valid d -> 0 <= ds < 65536 ->
  (forall j dest, cont m d !! j = Some dest -> slot_of (CCSID dest) = ds ->
     apart (mkManagers m None) o i d j) ->
  move_done (mkManagers m None) lvl prof o os d ds upd i source packet ms' ->
  x ∈ cont (this ms') e ->
  (exists y, y ∈ cont m e /\ slot_of (CCSID y) = slot_of (CCSID x) /\ IID y = IID x) \/
  (e = d /\ slot_of (CCSID x) = ds /\ IID x = IID source) \/
  (e = o /\ slot_of (CCSID x) = os /\
   exists dest, dest ∈ cont m d /\ slot_of (CCSID dest) = ds /\ IID x = IID dest).
Proof.
  intros Hwf Hi Hos Hd Hds Ha. pose proof (wf_shaped _ Hwf) as Hsh.
  assert (forall y, y ∈ cont m e -> slot_of (CCSID y) = slot_of (CCSID x) /\ IID y = IID x ->
            exists y, y ∈ cont m e /\ slot_of (CCSID y) = slot_of (CCSID x) /\ IID y = IID x)
    as Hold by eauto.
  intros [j dest r Hj Hsl _ _ -> |j dest r Hj Hsl _ -> |r _ ->]; change (destInv (mkManagers m None)) with m in *.
  - assert (dest ∈ cont m d) as Hdin by by eapply list_elem_of_lookup_2.
    assert (source ∈ cont m o) as Hsin by by eapply list_elem_of_lookup_2.
    unfold move_stack. case_test; simpl; change (destInv (mkManagers m None)) with m; intros Hx; left.
    + apply elem_erase_slot, elem_update_slot in Hx as [Hx|(-> & y & Hy & ->)]; [by eauto| |done|auto with tawd].
      simplify_eq. by apply (Hold dest).
    + apply elem_update_slot in Hx as [Hx|(-> & y & Hy & ->)]; [| |auto with tawd].
      * apply elem_update_slot in Hx as [Hx|(-> & y & Hy & ->)]; [by eauto| |done].
        simplify_eq. by apply (Hold dest).
      * rewrite update_slot_lookup_ne in Hy by (done || by apply (Ha j dest)).
        simplify_eq. by apply (Hold source).
  - assert (dest ∈ cont m d) as Hdin by by eapply list_elem_of_lookup_2.
    unfold move_swap. simpl. change (destInv (mkManagers m None)) with m. intros Hx.
    apply elem_update_slot in Hx as [Hx|(-> & y & Hy & ->)]; [| |auto with tawd].
    + apply elem_update_slot in Hx as [Hx|(-> & y & Hy & ->)]; [left; by eauto| |done].
      simplify_eq. right. left. done.
    + rewrite update_slot_lookup_ne in Hy by (done || by apply (Ha j dest)).
      simplify_eq. right. right. split_and!; [done..|]. eauto.
  - unfold move_to_empty. case_test; simpl; change (destInv (mkManagers m None)) with m; intros Hx.
    + apply andb_true_iff in E as [->%Z.eqb_eq _].
      apply elem_update_slot in Hx as [Hx|(-> & y & Hy & ->)]; [left; by eauto| |done].
      right. left. split_and!; [done| |done]. simpl. apply slot_of_GetCCSID; [|done].
      unfold valid, MAXCONTAINER in Hd. lia.
    + apply elem_erase_slot, elem_push_back in Hx as [Hx|[-> ->]]; [left; by eauto| |done|auto with tawd].
      right. left. split_and!; [done| |done]. simpl. apply slot_of_GetCCSID; [|done].
      unfold valid, MAXCONTAINER in Hd. lia.
Qed.

(** The two equipment tests, as statements about the items worn. *)
Lemma off_hand_used_elem m s :
  s ∈ cont m EQ_CONTAINER -> slot_of (CCSID s) = ItemEquipSlot.WEAPON_OFF_HAND ->
  off_hand_used m = true.
Proof.
  intros Hs E. unfold off_hand_used. apply Z.leb_le.
  eapply GetItemBySlot_used; [|done..]. unfold ItemEquipSlot.WEAPON_OFF_HAND. lia.
Qed.

Lemma main_hand_two_handed_elem m s :
  Inv_wf m -> s ∈ cont m EQ_CONTAINER -> slot_of (CCSID s) = ItemEquipSlot.WEAPON_MAIN_HAND ->
  main_hand_two_handed m = two_handed (ResolveSafeItemPtr s).
Proof.
  intros Hwf Hs E. unfold main_hand_two_handed.
  assert (0 <= GetItemBySlot m EQ_CONTAINER ItemEquipSlot.WEAPON_MAIN_HAND) as Hk.
  { eapply GetItemBySlot_used; [|done..]. unfold ItemEquipSlot.WEAPON_MAIN_HAND. lia. }
  rewrite (proj2 (Z.leb_le _ _) Hk).
  edestruct (GetItemBySlot_Some m EQ_CONTAINER ItemEquipSlot.WEAPON_MAIN_HAND
    (Z.to_nat (GetItemBySlot m EQ_CONTAINER ItemEquipSlot.WEAPON_MAIN_HAND))) as (t & Ht & Et).
  { unfold ItemEquipSlot.WEAPON_MAIN_HAND. lia. }
  { lia. }
  rewrite Ht. apply list_elem_of_lookup in Hs as [k Hk'].
  assert (k = Z.to_nat (GetItemBySlot m EQ_CONTAINER ItemEquipSlot.WEAPON_MAIN_HAND)) as ->
    by (eapply wf_slot_inj; [done..|congruence]).
  congruence.
Qed.

(** A two-handed weapon in the main hand and an item in the off hand exclude
    each other. *)
Definition hands_ok (m : InventoryManager) : Prop :=
  forall s t, s ∈ cont m EQ_CONTAINER -> slot_of (CCSID s) = ItemEquipSlot.WEAPON_MAIN_HAND ->
    two_handed (ResolveSafeItemPtr s) = true ->
    t ∈ cont m EQ_CONTAINER -> slot_of (CCSID t) <> ItemEquipSlot.WEAPON_OFF_HAND.

Lemma two_handed_IID s t : IID s = IID t -> ResolveSafeItemPtr s = ResolveSafeItemPtr t.
Proof. unfold ResolveSafeItemPtr. by intros ->. Qed.

(** What [move_refusal] has excluded when it lets a move pass. *)
Lemma move_refusal_0 ms v o os d ds source dest :
  move_refusal ms v o os d ds source dest = 0 ->
  (is_main d ds = true -> two_handed (ResolveSafeItemPtr source) = true -> off_hand_used (this ms) = false)
  /\ (is_off d ds = true -> main_hand_two_handed (destInv ms) = false)
  /\ (is_main o os = true -> forall t, dest = Some t -> two_handed (ResolveSafeItemPtr t) = true ->
      off_hand_used (this ms) = false)
  /\ (is_off o os = true -> main_hand_two_handed (destInv ms) = false)
  /\ ((d = BANK_CONTAINER /\ v = false) \/ d = DELIVERY_CONTAINER \/ d = AUCTION_CONTAINER ->
      bindStatus source = 0).
Proof.
  unfold move_refusal. intros H.
  destruct ((o =? d) && _ && _); [done|].
  destruct (is_main d ds && _ && _) eqn:E1; [done|].
  destruct (is_off d ds && _) eqn:E2; [done|].
  destruct (is_main o os && _ && _) eqn:E3; [done|].
  destruct (is_off o os && _) eqn:E4; [done|].
  destruct (_ && negb (bindStatus source =? 0)) eqn:E5; [done|].
  split_and!.
  - intros H1 H2. by rewrite H1, H2 in E1.
  - intros H1. by rewrite H1 in E2.
  - intros H1 t -> H2. by rewrite H1, H2 in E3.
  - intros H1. by rewrite H1 in E4.
  - intros Hd. apply andb_false_iff in E5 as [E5|E5]; [|by to_prop].
    destruct Hd as [[-> ->]|[->| ->]]; done.
Qed.

Lemma move_done_hands m lvl prof v o os d ds upd i source packet ms' :
  Inv_wf m -> cont m o !! i = Some source -> slot_of (CCSID source) = os ->
  valid d -> 0 <= ds < 65536 ->
  move_refusal (mkManagers m None) v o os d ds source (dest_item (mkManagers m None) d ds) = 0 ->
  move_done (mkManagers m None) lvl prof o os d ds upd i source packet ms' ->
  hands_ok m -> hands_ok (this ms').
Proof.
  intros Hwf Hi Hos Hd Hds Hr Hdone Hok s t Hs Hs0 Hs2 Ht Ht1.
  assert (forall j dest, cont m d !! j = Some dest -> slot_of (CCSID dest) = ds ->
     apart (mkManagers m None) o i d j) as Ha by (intros; by eapply refusal_apart).
  pose proof (dest_item_spec (mkManagers m None) d ds Hds) as Hdi.
  apply move_refusal_0 in Hr as (R1 & R2 & R3 & R4 & _).
  change (destInv (mkManagers m None)) with m in *. cbn [this] in *.
  assert (forall dest, dest ∈ cont m d -> slot_of (CCSID dest) = ds ->
            dest_item (mkManagers m None) d ds = Some dest) as Hdest.
  { intros dest Hin Hsl. destruct (dest_item _ d ds) as [dest'|] eqn:E; [|by destruct (Hdi dest)].
    destruct Hdi as (j & _ & Hj & Hjs). apply list_elem_of_lookup in Hin as [k Hk].
    assert (k = j) as -> by (eapply wf_slot_inj; [done..|congruence]). congruence. }
  assert (source ∈ cont m o) as Hsin by by eapply list_elem_of_lookup_2.
  eapply move_done_places in Ht; [|done..]. eapply move_done_places in Hs; [|done..].
  rewrite Ht1 in Ht. rewrite Hs0 in Hs.
  assert ((exists y, y ∈ cont m EQ_CONTAINER /\ slot_of (CCSID y) = ItemEquipSlot.WEAPON_MAIN_HAND
             /\ two_handed (ResolveSafeItemPtr y) = true) \/ off_hand_used m = false) as Hmain.
  { destruct Hs as [(y & Hy & Hys & Hyi)|[(<- & <- & HI)|(<- & <- & dest & Hdin & Hds' & HI)]].
    - left. exists y. by rewrite (two_handed_IID y s) by done.
    - right. apply R1; [done|]. by rewrite <- (two_handed_IID s source).
    - right. eapply R3; [done|by apply Hdest|]. by rewrite <- (two_handed_IID s dest). }
  assert ((exists y, y ∈ cont m EQ_CONTAINER /\ slot_of (CCSID y) = ItemEquipSlot.WEAPON_OFF_HAND)
          \/ main_hand_two_handed m = false) as Hoff.
  { destruct Ht as [(y & Hy & Hys & _)|[(<- & <- & HI)|(<- & <- & dest & Hdin & Hds' & HI)]]; eauto. }
  destruct Hmain as [(y & Hy & Hys & Hy2)|Hmain], Hoff as [(z & Hz & Hzs)|Hoff].
  - by apply (Hok y z).
  - by rewrite (main_hand_two_handed_elem m y), Hy2 in Hoff.
  - by rewrite (off_hand_used_elem m z) in Hmain.
  - (* both new: the off hand item came by this move *)
    destruct Ht as [(y & Hy & Hys & _)|Ht]; [by rewrite (off_hand_used_elem m y) in Hmain|].
    destruct Hs as [(y & Hy & Hys & Hyi)|Hs].
    { by rewrite (main_hand_two_handed_elem m y), (two_handed_IID y s), Hs2 in Hoff. }
    unfold ItemEquipSlot.WEAPON_OFF_HAND, ItemEquipSlot.WEAPON_MAIN_HAND in *.
    destruct Ht as [(<- & <- & HI)|(<- & <- & dest & Hdin & Hds' & HI)],
             Hs as [(? & ? & HI')|(? & ? & dest' & Hdin' & Hds'' & HI')]; simplify_eq; try lia.
    + by rewrite (off_hand_used_elem m dest') in Hmain.
    + by rewrite (off_hand_used_elem m source) in Hmain.
Qed.

End Move.

(** ** Properties *)

Definition example_ms : Managers := mkManagers example_inv None.

Lemma example_ms_wf : ms_wf example_ms.
Proof. split; [apply example_inv_wf|done]. Qed.

Lemma example_counts_ok : @counts_ok example_db example_ms.
Proof.
  intros c s Hs. change (destInv example_ms) with (this example_ms) in Hs.
  assert (s ∈ cont example_inv c) as Hin by (destruct Hs; done). clear Hs.
  destruct (valid_dec c) as [Hc|Hc]; [|by rewrite cont_invalid in Hin; [apply not_elem_of_nil in Hin|]].
  assert (forallb (fun c => forallb (fun s => (0 <=? count s) && (count s <? 2 ^ 30) &&
            (@GetMaxStack example_db s <? 2 ^ 30)) (cont example_inv c)) (seqZ 0 MAXCONTAINER) = true)
    as H by (vm_compute; reflexivity).
  rewrite forallb_forall in H. specialize (H c ltac:(by apply list_elem_of_In, elem_of_seqZ)).
  rewrite forallb_forall in H. specialize (H s ltac:(by apply list_elem_of_In)).
  unfold count_ok. to_prop. lia.
Qed.

(** C3. Moving items never creates or destroys any: whatever [ItemMove] does
    (refuse, merge two stacks wholly or in part, exchange two items, move to an
    empty place, within one manager or between two), the managers together hold
    the same number of every item before and after. *)
Theorem ItemMove_conserves {db : ItemDb} (g_ServerTime : Z) (ms : Managers) (lvl prof : Z) (v : bool)
    (o os d ds : Z) (upd : bool) (ID : Z)
    (Hwf : ms_wf ms) (Hcounts : counts_ok ms) (Hd : valid d)
    (Hos : 0 <= os < 65536) (Hds : 0 <= ds < 65536) :
  total (snd (ItemMove g_ServerTime ms lvl prof v o os d ds upd)) ID = total ms ID.
Proof.
  destruct (ItemMove g_ServerTime ms lvl prof v o os d ds upd) as [[code packet] ms'] eqn:E.
  apply ItemMove_inv in E as [(_ & _ & ->)|(i & source & Hi & Hs & Hr & _ & Hdone)]; [done| |done..].
  eapply (move_done_total g_ServerTime); eauto. intros j dest Hj Hsl. by eapply refusal_apart.
Qed.

Lemma ItemMove_conserves_witness :
  (** 3 of the 4 potions of slot 0 do not fit into the bank's stack of 8 *)
  let r := @ItemMove example_db 1000 example_ms 1 1 true 0 0 2 0 true in
  r.1.1 > 0 /\ @total example_db (snd r) 5 = 15 /\ amount (db := example_db) (this (snd r)) 2 5 = 10.
Proof.
  intros r. split; [vm_compute; reflexivity|split; [|vm_compute; reflexivity]].
  unfold r. rewrite (@ItemMove_conserves example_db).
  - vm_compute. reflexivity.
  - apply example_ms_wf.
  - apply example_counts_ok.
  - unfold valid, MAXCONTAINER. lia.
  - lia.
  - lia.
Defined.

(** [ItemMove] keeps both managers well formed: each item stays in the
    container its identifier names and no two items share an identifier. *)
Theorem ItemMove_wf {db : ItemDb} (g_ServerTime : Z) (ms : Managers) (lvl prof : Z) (v : bool)
    (o os d ds : Z) (upd : bool)
    (Hwf : ms_wf ms) (Hd : valid d) (Hos : 0 <= os < 65536) (Hds : 0 <= ds < 65536) :
  ms_wf (snd (ItemMove g_ServerTime ms lvl prof v o os d ds upd)).
Proof.
  destruct (ItemMove g_ServerTime ms lvl prof v o os d ds upd) as [[code packet] ms'] eqn:E.
  apply ItemMove_inv in E as [(_ & _ & ->)|(i & source & Hi & Hs & Hr & _ & Hdone)]; [done| |done..].
  by eapply (move_done_wf g_ServerTime).
Qed.

Lemma ItemMove_wf_witness :
  ms_wf (snd (@ItemMove example_db 1000 example_ms 1 1 true 0 0 1 5 true)).
Proof.
  apply (@ItemMove_wf example_db).
  - apply example_ms_wf.
  - unfold valid, MAXCONTAINER. lia.
  - lia.
  - lia.
Defined.

(** A move that returns no bytes (a code of 0 or less: no such item, same
    place, two-handed conflict, bound item, equipment restriction) changes
    nothing; a move that is carried out returns the length of its packet, which
    is not empty, and takes the item of the place named by the arguments. *)
Theorem ItemMove_refused_unchanged {db : ItemDb} (g_ServerTime : Z) (ms : Managers) (lvl prof : Z)
    (v : bool) (o os d ds : Z) (upd : bool) (Hos : 0 <= os < 65536) (Hds : 0 <= ds < 65536) :
  let '(code, packet, ms') := ItemMove g_ServerTime ms lvl prof v o os d ds upd in
  (code <= 0 -> packet = [] /\ ms' = ms) /\
  (0 < code -> code = Z.of_nat (length packet) /\
     exists source, source ∈ cont (this ms) o /\ slot_of (CCSID source) = os).
Proof.
  destruct (ItemMove g_ServerTime ms lvl prof v o os d ds upd) as [[code packet] ms'] eqn:E.
  apply ItemMove_inv in E as [(Hc & -> & ->)|(i & source & Hi & Hs & Hr & -> & Hdone)];
    [split; [done|lia]| |done..].
  apply move_done_packet in Hdone. split; [lia|]. intros _. split; [done|].
  exists source. split; [by eapply list_elem_of_lookup_2|done].
Qed.

Lemma ItemMove_refused_unchanged_witness :
  (** the bound item of slot 1 is refused by the delivery box *)
  @ItemMove example_db 1000 example_ms 1 1 true 0 1 8 0 true = (-4, [], example_ms).
Proof.
  pose proof (@ItemMove_refused_unchanged example_db 1000 example_ms 1 1 true 0 1 8 0 true
    ltac:(lia) ltac:(lia)) as H.
  destruct (ItemMove 1000 example_ms 1 1 true 0 1 8 0 true) as [[code packet] ms'] eqn:E.
  assert (code = -4) as ->.
  { change code with (code, packet, ms').1.1. rewrite <- E. vm_compute. reflexivity. }
  destruct H as [H _]. destruct H as [-> ->]; [lia|]. reflexivity.
Defined.

(** Within one character's inventory no sequence of moves puts an item in
    the off hand beside a two-handed weapon in the main hand. *)
Theorem ItemMove_hands {db : ItemDb} (g_ServerTime : Z) (m : InventoryManager) (lvl prof : Z)
    (v : bool) (o os d ds : Z) (upd : bool)
    (Hwf : Inv_wf m) (Hd : valid d) (Hos : 0 <= os < 65536) (Hds : 0 <= ds < 65536)
    (Hhands : hands_ok m) :
  hands_ok (this (snd (ItemMove g_ServerTime (mkManagers m None) lvl prof v o os d ds upd))).
Proof.
  destruct (ItemMove g_ServerTime (mkManagers m None) lvl prof v o os d ds upd)
    as [[code packet] ms'] eqn:E.
  apply ItemMove_inv in E as [(_ & _ & ->)|(i & source & Hi & Hs & Hr & _ & Hdone)]; [done| |done..].
  by eapply (move_done_hands g_ServerTime).
Qed.

Lemma ItemMove_hands_witness :
  @hands_ok example_db (this (snd (@ItemMove example_db 1000 example_ms 1 1 true 0 0 1 0 true))).
Proof.
  apply (@ItemMove_hands example_db).
  - apply example_inv_wf.
  - unfold valid, MAXCONTAINER. lia.
  - lia.
  - lia.
  - intros s t Hs. by apply not_elem_of_nil in Hs.
Defined.

(** A bound item is never moved to the delivery box, the auction or a vault
    that is not the character's own. *)
Theorem ItemMove_bound_refused {db : ItemDb} (g_ServerTime : Z) (ms : Managers) (lvl prof : Z)
    (v : bool) (o os d ds : Z) (upd : bool) (source : InventorySlot)
    (Hwf : ms_wf ms) (Hos : 0 <= os < 65536) (Hds : 0 <= ds < 65536)
    (Hin : source ∈ cont (this ms) o) (Hs : slot_of (CCSID source) = os)
    (Hshared : (d = BANK_CONTAINER /\ v = false) \/ d = DELIVERY_CONTAINER \/ d = AUCTION_CONTAINER)
    (Hbound : bindStatus source <> 0) :
  let '(code, packet, ms') := ItemMove g_ServerTime ms lvl prof v o os d ds upd in
  code <= 0 /\ packet = [] /\ ms' = ms.
Proof.
  destruct (ItemMove g_ServerTime ms lvl prof v o os d ds upd) as [[code packet] ms'] eqn:E.
  apply ItemMove_inv in E as [H|(k & s & Hk & Hks & Hr & _)]; [done| |done..].
  exfalso. apply list_elem_of_lookup in Hin as [i Hi].
  assert (k = i) as -> by (eapply wf_slot_inj; [apply (proj1 Hwf)|done..|congruence]).
  simplify_eq. by apply move_refusal_0 in Hr as (_ & _ & _ & _ & Hb); destruct Hbound; apply Hb.
Qed.

Lemma ItemMove_bound_refused_witness :
  let '(code, _, ms') := @ItemMove example_db 1000 example_ms 1 1 false 0 1 2 5 true in
  code <= 0 /\ ms' = example_ms.
Proof.
  pose proof (@ItemMove_bound_refused example_db 1000 example_ms 1 1 false 0 1 2 5 true
    (example_slot 0 1 9 0 1) example_ms_wf ltac:(lia) ltac:(lia)
    ltac:(apply (list_elem_of_lookup_2 _ 1%nat); vm_compute; reflexivity)
    ltac:(vm_compute; reflexivity) (or_introl (conj eq_refl eq_refl)) ltac:(discriminate)) as H.
  destruct (ItemMove 1000 example_ms 1 1 false 0 1 2 5 true) as [[code packet] ms'].
  destruct H as (H1 & _ & H2). split; [exact H1|exact H2].
Defined.

(** The bound test looks only at the item that is moved: moving any unbound
    item from the bank, the delivery box or the auction onto a bound backpack
    item of another kind succeeds and leaves the bound item, still bound, in
    that container. *)
Theorem ItemMove_swaps_bound_item {db : ItemDb} (g_ServerTime : Z) (ms : Managers) (lvl prof : Z)
    (v : bool) (o os ds : Z) (upd : bool) (i j : nat) (source dest : InventorySlot)
    (Hwf : ms_wf ms) (Hos : 0 <= os < 65536) (Hds : 0 <= ds < 65536)
    (Ho : o = BANK_CONTAINER \/ o = DELIVERY_CONTAINER \/ o = AUCTION_CONTAINER)
    (Hi : cont (this ms) o !! i = Some source) (Hs : slot_of (CCSID source) = os)
    (Hj : cont (destInv ms) INV_CONTAINER !! j = Some dest) (Hd : slot_of (CCSID dest) = ds)
    (Hkind : IID source <> IID dest) :
  let '(code, _, ms') := ItemMove g_ServerTime ms lvl prof v o os INV_CONTAINER ds upd in
  0 < code /\ exists x, cont (this ms') o !! i = Some x /\ slot_of (CCSID x) = os /\
    IID x = IID dest /\ bindStatus x = bindStatus dest.
Proof.
  assert (valid o /\ o <> INV_CONTAINER /\ o <> EQ_CONTAINER) as (Hov & Hne & Hneq)
    by (destruct Ho as [->|[->| ->]]; done).
  apply Z.eqb_neq in Hne as Hne', Hneq. apply Z.eqb_neq in Hkind.
  unfold ItemMove. rewrite (GetItemBySlot_at _ o os i source) by (done || exact (proj1 Hwf)).
  rewrite (GetItemBySlot_at _ INV_CONTAINER ds j dest) by (done || by apply ms_wf_dest).
  rewrite (proj2 (Z.eqb_neq (Z.of_nat i) (-1))) by lia.
  rewrite (proj2 (Z.leb_le 0 (Z.of_nat j))) by lia. rewrite !Nat2Z.id, Hi, Hj.
  replace (move_refusal _ _ _ _ _ _ _ _) with 0.
  2:{ unfold move_refusal, is_main, is_off. rewrite Hne', Hneq. simpl. done. }
  rewrite Hneq, Hkind. cbn -[move_swap].
  remember (move_swap _ _ _ _ _ _ _ _ _) as r eqn:Hr. split.
  - assert (move_done g_ServerTime ms lvl prof o os INV_CONTAINER ds upd i source r.1 r.2) as Hdone.
    { eapply done_swap; [done..| |done]. intros ->. done. }
    apply move_done_packet in Hdone. lia.
  - rewrite Hr. unfold move_swap. cbn [snd this upd_source set_this].
    assert (cont (this (upd_dest ms INV_CONTAINER j (fun d => CopyFrom d source false))) o !! i
            = Some source) as Hi'.
    { rewrite this_upd_dest_lookup; [done..|]. intros _ [=]. by destruct Hne. }
    unfold update_slot at 1. rewrite cont_set_cont; [|by refine (wf_shaped _ (proj1 (ms_wf_upd_dest _ _ _ _ Hwf _)))|done].
    rewrite list_lookup_alter_eq, Hi'. simpl. eexists. split_and!; done.
Qed.

Lemma ItemMove_swaps_bound_item_witness :
  let '(code, _, ms') := @ItemMove example_db 1000 example_ms 1 1 false 2 0 0 1 true in
  0 < code /\ exists x, cont (this ms') 2 !! 0%nat = Some x /\ IID x = 9 /\ bindStatus x = 1.
Proof.
  pose proof (@ItemMove_swaps_bound_item example_db 1000 example_ms 1 1 false 2 0 1 true 0 1
    (example_slot 2 0 5 7 0) (example_slot 0 1 9 0 1) example_ms_wf ltac:(lia) ltac:(lia)
    (or_introl eq_refl) ltac:(vm_compute; reflexivity) ltac:(vm_compute; reflexivity)
    ltac:(vm_compute; reflexivity) ltac:(vm_compute; reflexivity) ltac:(discriminate)) as H.
  destruct (ItemMove 1000 example_ms 1 1 false 2 0 INV_CONTAINER 1 true) as [[code packet] ms'] eqn:E.
  change (@ItemMove example_db 1000 example_ms 1 1 false 2 0 0 1 true) with
    (@ItemMove example_db 1000 example_ms 1 1 false 2 0 INV_CONTAINER 1 true). rewrite E.
  destruct H as [H (x & Hx & _ & HI & HB)]. split; [exact H|].
  exists x. split; [exact Hx|]. split; [exact HI|exact HB].
Defined.
