(* ===== verification/InventoryStock.v ===== *)
(** * InventoryStock: theorems on slots and adding items

    The operations are in [Inventory.v]. Shown here: [GetFreeSlot] returns the
    least free slot and fails exactly when the container is full; the slot
    counters agree with it; [AddItem_Ex] adds exactly what it is asked to or
    reports why not; the buyback list stays within its limit; the equipment test
    is characterised; identifiers split back into container and slot. *)

From S2P Require Import Prelude ByteBuffer Messages Text Items Inventory.

(** ** The slot bitmap *)

Definition uses (limit k : Z) (s : InventorySlot) : bool :=
  (slot_of (CCSID s) <? limit) && (slot_of (CCSID s) =? k).

Lemma mark_slots_lookup_from (v : list bool) limit l k :
  fold_left (fun tempCon s =>
      if slot_of (CCSID s) <? limit
      then <[Z.to_nat (slot_of (CCSID s)) := true]> tempCon else tempCon) l v !! k
  = (fun b => b || existsb (uses limit (Z.of_nat k)) l) <$> v !! k.
Proof.
  revert v. induction l as [|s l IH]; intros v; simpl.
  { destruct (v !! k); simpl; [by rewrite orb_false_r|done]. }
  rewrite IH. unfold uses at 2. destruct (slot_of (CCSID s) <? limit) eqn:E; simpl; [|done].
  pose proof (slot_of_range (CCSID s)).
  destruct (slot_of (CCSID s) =? Z.of_nat k) eqn:Ek; to_prop.
  - rewrite Ek, Nat2Z.id. destruct (v !! k) eqn:Ev.
    + rewrite list_lookup_insert_eq by (by eapply lookup_lt_Some). simpl. by rewrite orb_true_r.
    + rewrite (proj2 (lookup_ge_None _ _)); [done|]. rewrite length_insert. by apply lookup_ge_None.
  - rewrite list_lookup_insert_ne by lia. done.
Qed.

Lemma length_mark_slots n limit l : length (mark_slots n limit l) = n.
Proof.
  unfold mark_slots. transitivity (length (replicate n false)); [|apply length_replicate].
  generalize (replicate n false). induction l as [|s l IH]; intros v; simpl; [done|].
  rewrite IH. case_test; [apply length_insert|done].
Qed.

Lemma mark_slots_lookup n limit l k :
  mark_slots n limit l !! k =
  if decide (k < n)%nat then Some (existsb (uses limit (Z.of_nat k)) l) else None.
Proof.
  unfold mark_slots. rewrite mark_slots_lookup_from. case_decide.
  - by rewrite lookup_replicate_2 by done.
  - rewrite (proj2 (lookup_ge_None _ _)); [done|]. rewrite length_replicate. lia.
Qed.

(** At most one flag per item. *)
Lemma countb_insert_true (v : list bool) k : countb id (<[k := true]> v) <= countb id v + 1.
Proof.
  revert k. unfold countb, id. induction v as [|b v IH]; intros [|k]; simpl; [lia..| |].
  - destruct b; simpl; lia.
  - specialize (IH k). lia.
Qed.

Lemma countb_mark_slots n limit l : countb id (mark_slots n limit l) <= Z.of_nat (length l).
Proof.
  unfold mark_slots.
  assert (forall v, countb id (fold_left (fun tempCon s =>
      if slot_of (CCSID s) <? limit
      then <[Z.to_nat (slot_of (CCSID s)) := true]> tempCon else tempCon) l v)
    <= countb id v + Z.of_nat (length l)) as H.
  { induction l as [|s l IH]; intros v; simpl; [lia|].
    rewrite IH. case_test; [|lia]. pose proof (countb_insert_true v (Z.to_nat (slot_of (CCSID s)))). lia. }
  rewrite H. replace (countb id (replicate n false)) with 0; [lia|].
  clear. unfold countb, id. induction n; simpl; lia.
Qed.

Lemma countb_negb (v : list bool) : countb negb v = Z.of_nat (length v) - countb id v.
Proof. unfold countb, id. induction v as [|b v IH]; simpl; [done|]. destruct b; simpl; lia. Qed.

Lemma countb_nonneg {A} (p : A -> bool) v : 0 <= countb p v <= Z.of_nat (length v).
Proof. unfold countb. induction v as [|x v IH]; simpl; [lia|]. destruct (p x); lia. Qed.

Lemma find_idx_countb {A} (p : A -> bool) v : 0 < countb p v -> find_idx p v <> None.
Proof.
  intros H E. apply find_idx_None in E. revert H. unfold countb.
  induction E as [|x v Hx _ IH]; simpl; [lia|]. rewrite Hx. lia.
Qed.

Lemma slot_free_existsb m c k limit :
  0 <= k < limit -> (existsb (uses limit k) (cont m c) = false <-> slot_free m c k).
Proof.
  intros Hk. unfold slot_free, uses. split.
  - intros H s Hs E. enough (existsb (uses limit k) (cont m c) = true) by (unfold uses in *; congruence).
    apply existsb_exists. exists s. split; [by apply list_elem_of_In|]. unfold uses.
    rewrite E. apply andb_true_iff. split; lia.
  - intros H. apply not_true_is_false. intros (s & Hs & E)%existsb_exists.
    to_prop. apply (H s); [by apply list_elem_of_In|done].
Qed.

Definition max_ok (m : InventoryManager) (c : Z) : Prop := 0 <= max_slot m c <= 65536.

Lemma GetFreeSlot_lemma m c :
  max_ok m c ->
  (max_slot m c <= Z.of_nat (length (cont m c)) /\ GetFreeSlot m c = -1) \/
  (Z.of_nat (length (cont m c)) < max_slot m c /\ 0 <= GetFreeSlot m c < max_slot m c /\
   slot_free m c (GetFreeSlot m c) /\
   forall k, 0 <= k < GetFreeSlot m c -> ~ slot_free m c k).
Proof.
  intros Hm. unfold max_ok in Hm. unfold GetFreeSlot.
  destruct (max_slot m c <=? Z.of_nat (length (cont m c))) eqn:E; to_prop; [by left|right].
  rewrite i32_id by (unfold in_signed; lia).
  set (v := mark_slots (Z.to_nat (max_slot m c)) (max_slot m c) (cont m c)).
  assert (find_idx negb v <> None) as Hsome.
  { apply find_idx_countb. rewrite countb_negb. unfold v. rewrite length_mark_slots.
    pose proof (countb_mark_slots (Z.to_nat (max_slot m c)) (max_slot m c) (cont m c)). lia. }
  destruct (find_idx negb v) as [i|] eqn:Ei; [|done].
  apply find_idx_Some in Ei as (b & Hb & Hneg & Hlt). simpl idx.
  unfold v in *. rewrite mark_slots_lookup in Hb. case_decide as Hi; [|done]. injection Hb as <-.
  to_prop. split_and!; [lia..| |].
  - by eapply slot_free_existsb, Hneg; lia.
  - intros k Hk Hfree.
    specialize (Hlt (Z.to_nat k) (existsb (uses (max_slot m c) k) (cont m c))).
    rewrite mark_slots_lookup in Hlt. rewrite decide_True in Hlt by lia.
    rewrite Z2Nat.id in Hlt by lia. specialize (Hlt ltac:(lia) eq_refl).
    rewrite (proj2 (slot_free_existsb m c k (max_slot m c) ltac:(lia)) Hfree) in Hlt. done.
Qed.

(** [GetFreeSlot] fails exactly when the container holds as many items as it
    has slots, and otherwise returns the least slot no item uses. *)
Theorem GetFreeSlot_least (m : InventoryManager) (c : Z) (Hm : max_ok m c) :
  (GetFreeSlot m c = -1 <-> max_slot m c <= Z.of_nat (length (cont m c))) /\
  (GetFreeSlot m c <> -1 ->
   0 <= GetFreeSlot m c < max_slot m c /\ slot_free m c (GetFreeSlot m c) /\
   forall k, 0 <= k < GetFreeSlot m c -> exists s, s ∈ cont m c /\ slot_of (CCSID s) = k).
Proof.
  destruct (GetFreeSlot_lemma m c Hm) as [[H1 H2]|(H1 & H2 & H3 & H4)]; [by rewrite H2|].
  split; [lia|]. intros _. split_and!; [lia..|done|].
  intros k Hk. specialize (H4 k Hk).
  destruct (existsb (uses (max_slot m c) k) (cont m c)) eqn:E.
  - apply existsb_exists in E as (s & Hs & E). unfold uses in E. to_prop.
    exists s. split; [by apply list_elem_of_In|done].
  - exfalso. apply H4. eapply slot_free_existsb, E. lia.
Qed.

Lemma GetFreeSlot_least_witness : GetFreeSlot example_inv 0 = 3 /\ slot_free example_inv 0 3.
Proof.
  destruct (GetFreeSlot_least example_inv 0) as [_ H]; [unfold max_ok; vm_compute; by split|].
  replace 3 with (GetFreeSlot example_inv 0) by (vm_compute; reflexivity).
  split; [reflexivity|]. apply H. vm_compute. discriminate.
Defined.

(** The slot counters agree: the used and the free slots of a container
    that is not full add up to its size, no more slots are used than there are
    items, and there is a free slot exactly when one is counted. *)
Theorem slot_counts (m : InventoryManager) (c : Z) (Hm : max_ok m c) :
  0 <= CountUsedSlots m c <= max_slot m c /\
  CountUsedSlots m c <= Z.of_nat (length (cont m c)) /\
  (Z.of_nat (length (cont m c)) < max_slot m c ->
   CountUsedSlots m c + CountFreeSlots m c = max_slot m c) /\
  (0 < CountFreeSlots m c <-> GetFreeSlot m c <> -1).
Proof.
  unfold max_ok in Hm. unfold CountUsedSlots, CountFreeSlots.
  set (v := mark_slots (Z.to_nat (max_slot m c)) (max_slot m c) (cont m c)).
  pose proof (countb_mark_slots (Z.to_nat (max_slot m c)) (max_slot m c) (cont m c)) as Hc.
  pose proof (length_mark_slots (Z.to_nat (max_slot m c)) (max_slot m c) (cont m c)) as Hl.
  fold v in Hc, Hl. pose proof (countb_nonneg id v) as Hn. rewrite countb_negb, Hl in *.
  assert (forall z, 0 <= z <= 65536 -> i32 z = z) as Hi
    by (intros; apply i32_id; unfold in_signed; lia).
  rewrite !Hi by lia.
  destruct (GetFreeSlot_lemma m c Hm) as [[H1 H2]|(H1 & H2 & _)];
    destruct (max_slot m c <=? Z.of_nat (length (cont m c))) eqn:E; to_prop; lia.
Qed.

Lemma slot_counts_witness : CountUsedSlots example_inv 0 + CountFreeSlots example_inv 0 = 24.
Proof.
  destruct (slot_counts example_inv 0) as (_ & _ & H & _); [unfold max_ok; vm_compute; by split|].
  rewrite H; [reflexivity|]. vm_compute. reflexivity.
Defined.

(** ** Adding items *)

Section Stock.
Context {db : ItemDb} (g_ServerTime : Z).

Lemma ApplyItemIntegerType_keeps ty mx s :
  CCSID (ApplyItemIntegerType ty mx s) = CCSID s /\ IID (ApplyItemIntegerType ty mx s) = IID s
  /\ count (ApplyItemIntegerType ty mx s) = count s
  /\ bindStatus (ApplyItemIntegerType ty mx s) = bindStatus s.
Proof. unfold ApplyItemIntegerType. by case_test. Qed.

Lemma new_item_keeps d c k iid n :
  let s := new_item g_ServerTime d c k iid n in
  CCSID s = GetCCSID c k /\ IID s = iid /\ count s = (if 1 <? n then n - 1 else 0)
  /\ bindStatus s = (if mBindingType d =? BIND_ON_PICKUP then 1 else 0).
Proof.
  unfold new_item, ApplyFromItemDef. cbn zeta.
  set (s0 := set_seconds (-1) _).
  destruct (ApplyItemIntegerType_keeps (mIvType1 d) (mIvMax1 d) s0) as (A1 & A2 & A3 & A4).
  set (s1 := ApplyItemIntegerType (mIvType1 d) (mIvMax1 d) s0) in *.
  destruct (ApplyItemIntegerType_keeps (mIvType2 d) (mIvMax2 d) s1) as (B1 & B2 & B3 & B4).
  set (s2 := ApplyItemIntegerType (mIvType2 d) (mIvMax2 d) s1) in *.
  case_test; simpl; by rewrite B1, B2, B3, B4, A1, A2, A3, A4.
Qed.

Lemma AddItem_eq m c s :
  valid c ->
  snd (AddItem g_ServerTime m c s)
  = push_back (set_expunge m (note_expunge g_ServerTime (NextExpunge m) s)) c s.
Proof.
  intros [H1 H2]. unfold AddItem. by rewrite (proj2 (Z.leb_le _ _) H1), (proj2 (Z.ltb_lt _ _) H2).
Qed.

Lemma GetExistingPartialStack_Some m c d i :
  GetExistingPartialStack m c d = Some i ->
  mIvType1 d = ItemIntegerType.STACKING /\
  exists s, cont m c !! i = Some s /\ IID s = mID d /\ GetStackCount s < mIvMax1 d.
Proof.
  unfold GetExistingPartialStack. case_test; [done|]. intros (s & Hs & Hp)%find_idx_lookup.
  to_prop. split; [done|]. exists s. done.
Qed.

(** The stack [AddItem_Ex] adds to, when it does. *)
Definition stack_for (m : InventoryManager) (c : Z) (d : ItemDef) (n : Z) : option nat :=
  i ← GetExistingPartialStack m c d;
  s ← cont m c !! i;
  if i32 (GetStackCount s + n) <=? GetMaxStack s then Some i else None.

Lemma stack_for_Some m c d n i :
  stack_for m c d n = Some i ->
  mIvType1 d = ItemIntegerType.STACKING /\
  exists s, cont m c !! i = Some s /\ IID s = mID d /\ GetStackCount s < mIvMax1 d /\
    i32 (GetStackCount s + n) <= GetMaxStack s.
Proof.
  unfold stack_for. destruct (GetExistingPartialStack m c d) as [i'|] eqn:E; [|done]. simpl.
  apply GetExistingPartialStack_Some in E as (Hst & s & Hs & HI & Hlt). rewrite Hs. simpl.
  case_test; [|done]. intros [= ->]. to_prop. split; [done|]. by exists s.
Qed.

(** What one call adds to the number of items held. *)
Definition added (d : ItemDef) (n : Z) : Z :=
  if mIvType1 d =? ItemIntegerType.STACKING then n else 1.

Lemma AddItem_Ex_stack m c d n i ID :
  Inv_wf m -> item_of (mID d) = Some d -> (forall s, s ∈ cont m c -> count_ok s) ->
  1 <= n < 2 ^ 30 -> stack_for m c d n = Some i ->
  Inv_wf (update_slot m c i (add_count n)) /\
  held (update_slot m c i (add_count n)) ID = held m ID + (if mID d =? ID then added d n else 0) /\
  exists s, cont (update_slot m c i (add_count n)) c !! i = Some s /\ IID s = mID d.
Proof.
  intros Hwf Hd Hc Hn (Hst & s & Hs & HI & Hlt & Hmax)%stack_for_Some.
  assert (count_ok s) as Hcs by (apply Hc; by eapply list_elem_of_lookup_2).
  pose proof (cont_lookup_valid _ _ _ _ Hs) as Hv.
  split_and!.
  - by apply wf_update_slot.
  - rewrite (held_update_slot _ c i _ s) by (done || apply Hwf).
    unfold weight. simpl. rewrite HI. unfold added. rewrite Hst. simpl. case_test; [|lia].
    rewrite (item_count_stacking (add_count n s) d), (item_count_stacking s d) by (simpl; congruence).
    simpl. unfold count_ok in Hcs. rewrite i32_id by (unfold in_signed; lia). lia.
  - exists (add_count n s). split; [|done]. unfold update_slot.
    rewrite cont_set_cont by (done || apply Hwf). by rewrite list_lookup_alter_eq, Hs.
Qed.

Lemma AddItem_Ex_new m c d n ID :
  Inv_wf m -> item_of (mID d) = Some d -> valid c -> max_ok m c -> 1 <= n ->
  GetFreeSlot m c <> -1 ->
  let s := new_item g_ServerTime d c (GetFreeSlot m c) (mID d) n in
  let m' := snd (AddItem g_ServerTime m c s) in
  Inv_wf m' /\ held m' ID = held m ID + (if mID d =? ID then added d n else 0) /\
  cont m' c !! (length (cont m' c) - 1)%nat = Some s.
Proof.
  intros Hwf Hd Hv Hm Hn Hfree s. cbn zeta. rewrite AddItem_eq by done.
  destruct (new_item_keeps d c (GetFreeSlot m c) (mID d) n) as (K1 & K2 & K3 & _). fold s in K1, K2, K3.
  destruct (GetFreeSlot_lemma m c Hm) as [[_ ?]|(_ & Hr & Hf & _)]; [done|].
  set (m1 := set_expunge m _). assert (Inv_wf m1) as Hwf1 by by apply wf_set_expunge.
  unfold max_ok, valid, MAXCONTAINER in *. split_and!.
  - apply (wf_push_back m1 c (GetFreeSlot m c)); [done|lia|lia|done|done].
  - rewrite held_push_back by (done || apply Hwf1). change (held m1 ID) with (held m ID). f_equal.
    unfold weight, item_count, ResolveItemPtr, added. rewrite K2, Hd, K3. case_test; [|done].
    case_test; [|done]. case_test; to_prop; lia.
  - unfold push_back. rewrite cont_set_cont by (done || apply Hwf1).
    rewrite length_app. simpl. rewrite lookup_app_r by lia.
    by replace (_ + 1 - 1 - _)%nat with 0%nat by lia.
Qed.

(** No stacking item stacks beyond what the counts of [Inv_wf] inventories carry. *)
Definition stack_limits_ok : Prop := forall iid d, item_of iid = Some d -> mIvMax1 d < 2 ^ 30.

(** An inventory of which container [c] can be added to: what one addition
    asks for and leaves to the next. *)
Record stockable (m : InventoryManager) (c : Z) : Prop := {
  st_wf : Inv_wf m;
  st_max : max_ok m c;
  st_counts : forall s, s ∈ cont m c -> count_ok s
}.

Lemma AddItem_Ex_None m c itemID n m' :
  AddItem_Ex g_ServerTime m c itemID n = (None, m') -> exists e, m' = SetError m e.
Proof.
  unfold AddItem_Ex. destruct (item_of itemID) as [d|]; [|intros [= <-]; eauto].
  destruct (_ && _); [intros [= <-]; eauto|]. destruct (_ ≫= _); [done|].
  destruct (GetFreeSlot m c =? -1); [intros [= <-]; eauto|done].
Qed.

Lemma stockable_SetError m c e : stockable m c -> stockable (SetError m e) c.
Proof. intros [H1 H2 H3]. split; [by apply wf_SetError|done..]. Qed.

Lemma AddItem_Ex_Some m c itemID n i m' :
  stockable m c -> valid c -> stack_limits_ok -> 1 <= n < 2 ^ 30 ->
  AddItem_Ex g_ServerTime m c itemID n = (Some i, m') ->
  stockable m' c /\ exists d s, item_of itemID = Some d /\ cont m' c !! i = Some s /\
    IID s = itemID /\ forall ID, held m' ID = held m ID + (if itemID =? ID then added d n else 0).
Proof.
  intros [Hwf Hm Hc] Hv Hlim Hn. unfold AddItem_Ex.
  destruct (item_of itemID) as [d|] eqn:Hd; [|done].
  assert (mID d = itemID) as <- by by apply item_of_mID.
  destruct (_ && _); [done|]. fold (stack_for m c d n).
  destruct (stack_for m c d n) as [j|] eqn:Es.
  - intros [= <- <-]. destruct (AddItem_Ex_stack m c d n j 0 Hwf Hd Hc Hn Es) as (H1 & _ & s & H2 & H3).
    split; [|exists d, s; split_and!; [done..|intros ID; by eapply AddItem_Ex_stack]].
    split; [done|by unfold max_ok, update_slot; rewrite max_slot_set_cont|].
    intros x [Hx|(_ & y & Hy & ->)]%elem_update_slot; [by apply Hc| |apply Hwf].
    apply stack_for_Some in Es as (Hst & s' & Hs' & HI & _ & Hle).
    rewrite Hs' in Hy. injection Hy as <-.
    assert (count_ok s') as Hcy by (apply Hc; by eapply list_elem_of_lookup_2).
    specialize (Hlim _ _ Hd). unfold GetMaxStack, GetStackCount in Hle. rewrite HI, Hd, Hst in Hle.
    simpl in Hle. unfold count_ok in *. simpl.
    rewrite !i32_id in Hle by (unfold in_signed; rewrite ?i32_id by (unfold in_signed; lia); lia).
    rewrite i32_id by (unfold in_signed; lia). lia.
  - destruct (GetFreeSlot m c =? -1) eqn:Ef; [done|]. to_prop.
    destruct (AddItem_Ex_new m c d n 0 Hwf Hd Hv Hm ltac:(lia) Ef) as (H1 & _ & H3).
    intros [= <- <-]. split.
    + split; [done| |].
      * rewrite AddItem_eq by done. unfold max_ok, push_back. by rewrite max_slot_set_cont.
      * rewrite AddItem_eq by done.
        intros x [Hx|[_ ->]]%elem_push_back; [by apply Hc| |apply Hwf].
        destruct (new_item_keeps d c (GetFreeSlot m c) (mID d) n) as (_ & _ & K3 & _).
        unfold count_ok. rewrite K3. case_test; to_prop; lia.
    + eexists d, _. split_and!; [done|exact H3|by apply new_item_keeps|].
      intros ID. apply AddItem_Ex_new; [done..|lia|done].
Qed.

End Stock.

Lemma example_limits : @stack_limits_ok example_db.
Proof.
  intros iid d H. change (fst (GetPointerByID example_store iid) = Some d) in H.
  rewrite GetPointerByID_spec_lemma in H by exact example_store_wf. case_test.
  - unfold at_key in H. apply bind_Some in H as (i & _ & H). apply fmap_Some in H as (e & He & ->).
    apply list_elem_of_lookup_2 in He.
    repeat (apply elem_of_cons in He as [->|He]; [by vm_compute|]). apply not_elem_of_nil in He. destruct He.
  - simpl in H. rewrite lookup_empty, (left_id_L None (∪)) in H.
    apply lookup_singleton_Some in H as [_ <-]. by vm_compute.
Qed.

Lemma example_stockable : stockable example_inv INV_CONTAINER.
Proof.
  split; [exact example_inv_wf|by split|]. intros s Hs.
  repeat (apply elem_of_cons in Hs as [->|Hs]; [vm_compute; by split|]). by apply not_elem_of_nil in Hs.
Qed.

(** C29. [AddItem_Ex] either adds exactly the items asked for - [n] of a stacking
    item, one of any other - and returns the slot that holds them, or reports
    why it did not (no such item, no room, ownership limit) and changes nothing
    but the error code; the inventory stays well formed either way. *)
Theorem AddItem_Ex_adds {db : ItemDb} (g_ServerTime : Z) (m : InventoryManager) (c itemID n : Z)
    (Hwf : Inv_wf m) (Hv : valid c) (Hm : max_ok m c)
    (Hcounts : forall s, s ∈ cont m c -> count_ok s) (Hn : 1 <= n < 2 ^ 30) :
  let '(p, m') := AddItem_Ex g_ServerTime m c itemID n in
  Inv_wf m' /\
  match p with
  | Some i => exists d s, item_of itemID = Some d /\ cont m' c !! i = Some s /\ IID s = itemID /\
      forall ID, held m' ID = held m ID + (if itemID =? ID then added d n else 0)
  | None => exists e, m' = SetError m e /\ e ∈ [ERR.ERROR_ITEM; ERR.ERROR_LIMIT; ERR.ERROR_SPACE] /\
      (e = ERR.ERROR_ITEM <-> item_of itemID = None) /\
      (e = ERR.ERROR_SPACE -> max_slot m c <= Z.of_nat (length (cont m c)))
  end.
Proof.
  unfold AddItem_Ex. destruct (item_of itemID) as [d|] eqn:Hd.
  2:{ split; [by apply wf_SetError|]. exists ERR.ERROR_ITEM. repeat split; try done. by left. }
  assert (mID d = itemID) as <- by by apply item_of_mID.
  destruct (_ && _).
  { split; [by apply wf_SetError|]. exists ERR.ERROR_LIMIT. repeat split; try done. by right; left. }
  fold (stack_for m c d n). destruct (stack_for m c d n) as [i|] eqn:Es.
  { destruct (AddItem_Ex_stack m c d n i 0 Hwf Hd Hcounts Hn Es) as (H1 & _ & s & H2 & H3).
    split; [done|]. exists d, s. split_and!; [done..|]. intros ID. by eapply AddItem_Ex_stack. }
  destruct (GetFreeSlot m c =? -1) eqn:Ef; to_prop.
  { split; [by apply wf_SetError|]. exists ERR.ERROR_SPACE. repeat split; try done.
    - by right; right; left.
    - intros _. destruct (GetFreeSlot_lemma m c Hm) as [[H _]|(_ & H & _)]; lia. }
  destruct (AddItem_Ex_new g_ServerTime m c d n 0 Hwf Hd Hv Hm ltac:(lia) Ef) as (H1 & _ & H3).
  split; [done|]. eexists d, _. split_and!; [done|exact H3|by apply new_item_keeps|].
  intros ID. apply AddItem_Ex_new; [done..|lia|done].
Qed.

Lemma AddItem_Ex_adds_witness :
  (** 6 more potions join the stack of 4; 7 would not fit and open a new slot *)
  let r6 := @AddItem_Ex example_db 1000 example_inv 0 5 6 in
  let r7 := @AddItem_Ex example_db 1000 example_inv 0 5 7 in
  fst r6 = Some 0%nat /\ fst r7 = Some 3%nat /\
  @held example_db (snd r6) 5 = 21 /\ @held example_db (snd r7) 5 = 22.
Proof.
  intros r6 r7. split; [vm_compute; reflexivity|]. split; [vm_compute; reflexivity|].
  assert (forall s, s ∈ cont example_inv 0 -> count_ok s) as Hc.
  { intros s Hs. repeat (apply elem_of_cons in Hs as [->|Hs]; [vm_compute; by split|]).
    by apply not_elem_of_nil in Hs. }
  pose proof (@AddItem_Ex_adds example_db 1000 example_inv 0 5 6 example_inv_wf
    ltac:(vm_compute; by split) ltac:(vm_compute; by split) Hc ltac:(lia)) as H6.
  pose proof (@AddItem_Ex_adds example_db 1000 example_inv 0 5 7 example_inv_wf
    ltac:(vm_compute; by split) ltac:(vm_compute; by split) Hc ltac:(lia)) as H7.
  fold r6 in H6. fold r7 in H7.
  assert (fst r6 = Some 0%nat) as E6 by (vm_compute; reflexivity).
  assert (fst r7 = Some 3%nat) as E7 by (vm_compute; reflexivity).
  destruct r6 as [p6 m6], r7 as [p7 m7]. simpl in E6, E7. subst p6 p7.
  destruct H6 as [_ (d6 & s6 & Hd6 & _ & _ & H6)], H7 as [_ (d7 & s7 & Hd7 & _ & _ & H7)].
  vm_compute in Hd6, Hd7. injection Hd6 as <-. injection Hd7 as <-. simpl.
  rewrite H6, H7. split; vm_compute; reflexivity.
Defined.

(** ** The buyback list *)

Lemma buyback_valid : valid BUYBACK_CONTAINER.
Proof. unfold valid, MAXCONTAINER, BUYBACK_CONTAINER. lia. Qed.

#[export] Hint Resolve buyback_valid : tawd.

(** C0. Selling an item puts a copy of it at the end of the buyback list; when
    the list is full the oldest entry leaves it and is the one reported
    destroyed. The list never exceeds the limit, and no other container and no
    item's contents change. *)
Theorem AddBuyBack_bounded (g_ServerTime BuybackLimit : Z) (m : InventoryManager)
    (item : InventorySlot) (Hsh : shaped m) (Hlim : 0 < BuybackLimit)
    (Hlen : Z.of_nat (length (cont m BUYBACK_CONTAINER)) <= BuybackLimit) :
  let old := cont m BUYBACK_CONTAINER in
  let full := BuybackLimit <=? Z.of_nat (length old) in
  exists packet m',
    AddBuyBack g_ServerTime BuybackLimit m item
      = Some (packet, if full then IID <$> head old else None, m') /\
    cont m' BUYBACK_CONTAINER
      = (if full then drop 1 old else old)
        ++ [set_CCSID (GetCCSID BUYBACK_CONTAINER (buybackSlot m)) item] /\
    Z.of_nat (length (cont m' BUYBACK_CONTAINER)) <= BuybackLimit /\
    (forall c, c <> BUYBACK_CONTAINER -> cont m' c = cont m c).
Proof.
  intros old full. unfold AddBuyBack. fold old full.
  destruct full eqn:Ef; unfold full in Ef; to_prop.
  - destruct old as [|o l] eqn:Eo; simpl in Ef; [lia|].
    do 2 eexists. split; [reflexivity|]. unfold push_back, erase_slot.
    rewrite cont_set_cont by auto with tawd. rewrite !cont_set_buybackSlot, cont_set_cont by auto with tawd.
    fold old. rewrite Eo. simpl. rewrite drop_0. split_and!; [done| |].
    + rewrite length_app. simpl in *. unfold old in Eo. rewrite Eo in Hlen. simpl in Hlen. lia.
    + intros c Hc. by rewrite cont_set_cont_ne, cont_set_buybackSlot, cont_set_cont_ne.
  - do 2 eexists. split; [reflexivity|]. unfold push_back.
    rewrite cont_set_cont by auto with tawd. rewrite cont_set_buybackSlot. fold old. split_and!; [done| |].
    + rewrite length_app. simpl. lia.
    + intros c Hc. by rewrite cont_set_cont_ne.
Qed.

Lemma AddBuyBack_bounded_witness :
  let m := set_cont example_inv 4 [example_slot 4 7 9 0 0; example_slot 4 8 5 1 0] in
  exists packet m', AddBuyBack 1000 2 (set_buybackSlot m 9) (example_slot 0 0 5 3 0)
    = Some (packet, Some 9, m') /\
    cont m' 4 = [example_slot 4 8 5 1 0; example_slot 4 9 5 3 0].
Proof.
  intros m.
  destruct (AddBuyBack_bounded 1000 2 (set_buybackSlot m 9) (example_slot 0 0 5 3 0))
    as (packet & m' & E & H & _).
  - split; reflexivity.
  - lia.
  - vm_compute. discriminate.
  - exists packet, m'. split; [exact E|]. exact H.
Defined.

(** When a character is loaded, [FixBuyBack] keeps the newest entries up to
    the limit, in order, renumbers them from 0, and sets the counter behind
    them; the inventory is well formed afterwards even when the stored
    identifiers were not. *)
Theorem FixBuyBack_fixes (BuybackLimit : Z) (m : InventoryManager)
    (Hsh : shaped m) (Hlim : 0 <= BuybackLimit <= 65536)
    (Hother : forall c, c <> BUYBACK_CONTAINER ->
       NoDup (CCSID <$> cont m c) /\
       forall s, s ∈ cont m c -> CCSID s = GetCCSID c (slot_of (CCSID s))) :
  let m' := FixBuyBack BuybackLimit m in
  let old := cont m BUYBACK_CONTAINER in
  let n := (length old - Z.to_nat BuybackLimit)%nat in
  Inv_wf m' /\
  cont m' BUYBACK_CONTAINER
    = imap (fun i s => set_CCSID (GetCCSID BUYBACK_CONTAINER (Z.of_nat i)) s) (drop n old) /\
  Z.of_nat (length (cont m' BUYBACK_CONTAINER)) <= BuybackLimit /\
  buybackSlot m' = Z.of_nat (length (cont m' BUYBACK_CONTAINER)).
Proof.
  intros m' old n.
  assert (cont m' BUYBACK_CONTAINER
    = imap (fun i s => set_CCSID (GetCCSID BUYBACK_CONTAINER (Z.of_nat i)) s) (drop n old)) as Hc.
  { unfold m', FixBuyBack. rewrite cont_set_buybackSlot, cont_set_cont by auto with tawd.
    fold old. f_equal. unfold n. case_test; to_prop; [f_equal; lia|].
    by replace (_ - _)%nat with 0%nat by lia. }
  assert (Z.of_nat (length (cont m' BUYBACK_CONTAINER)) <= BuybackLimit) as Hl.
  { rewrite Hc, length_imap, length_drop. unfold n. lia. }
  assert (forall i s, cont m' BUYBACK_CONTAINER !! i = Some s ->
            CCSID s = GetCCSID BUYBACK_CONTAINER (Z.of_nat i) /\ 0 <= Z.of_nat i < 65536) as Hnum.
  { intros i s Hi. pose proof (lookup_lt_Some _ _ _ Hi) as Hlt. rewrite Hc, list_lookup_imap in Hi.
    destruct (drop n old !! i); simplify_eq/=. split; [done|lia]. }
  split_and!; [|done|done|].
  - split.
    + unfold m', FixBuyBack. apply shaped_set_cont. done.
    + intros c s Hs. destruct (decide (c = BUYBACK_CONTAINER)) as [->|Hne].
      * apply list_elem_of_lookup in Hs as [i Hi]. apply Hnum in Hi as [-> Hi].
        by rewrite slot_of_GetCCSID.
      * unfold m', FixBuyBack in Hs. rewrite cont_set_buybackSlot, cont_set_cont_ne in Hs by done.
        by apply Hother.
    + intros c. destruct (decide (c = BUYBACK_CONTAINER)) as [->|Hne].
      * apply NoDup_alt. intros i j x Hi Hj. rewrite !list_lookup_fmap in Hi, Hj.
        destruct (cont m' BUYBACK_CONTAINER !! i) as [s|] eqn:Ei; [|done].
        destruct (cont m' BUYBACK_CONTAINER !! j) as [t|] eqn:Ej; [|done].
        apply Hnum in Ei as [Ei Hi'], Ej as [Ej Hj']. simpl in Hi, Hj.
        assert (CCSID s = CCSID t) as E by congruence. rewrite Ei, Ej in E.
        rewrite !GetCCSID_eq in E by (done || (unfold BUYBACK_CONTAINER; lia)). lia.
      * unfold m', FixBuyBack. rewrite cont_set_buybackSlot, cont_set_cont_ne by done.
        by apply Hother.
  - rewrite Hc in *. unfold m', FixBuyBack. cbn [buybackSlot set_buybackSlot].
    rewrite !length_imap in *. fold old. unfold n in *. rewrite length_drop in *.
    rewrite i32_id; [case_test; to_prop; rewrite ?length_drop; lia|].
    unfold in_signed. case_test; to_prop; rewrite ?length_drop; lia.
Qed.

Lemma FixBuyBack_fixes_witness :
  let m := set_cont example_inv 4
    [example_slot 4 3 9 0 0; example_slot 4 3 5 1 0; example_slot 4 3 5 2 0] in
  cont (FixBuyBack 2 m) 4 = [example_slot 4 0 5 1 0; example_slot 4 1 5 2 0].
Proof.
  intros m. destruct (FixBuyBack_fixes 2 m) as (_ & H & _).
  - split; reflexivity.
  - lia.
  - intros c Hc. unfold m. rewrite cont_set_cont_ne by exact Hc.
    split; [apply (wf_nodup _ example_inv_wf)|apply (wf_ccsid _ example_inv_wf)].
  - exact H.
Defined.

(** ** Equipping *)

(** A wearable without weapon type is accepted in no slot when its
    equipment type is NONE; but an equipment type the switch does not name (the
    focus and cosmetic items) falls through to slot 0, the main hand: such an
    item is accepted there, and refused in the slot made for it. *)
Theorem VerifyEquipItem_default (d : ItemDef) (destSlot level profession : Z)
    (Hlevel : mMinUseLevel d <= level) (Hweapon : mWeaponType d = WeaponType.NONE)
    (Hslot : 0 <= destSlot < ItemEquipSlot.MAX_SLOT) :
  (mEquipType d = ItemEquipType.NONE ->
   VerifyEquipItem (Some d) destSlot level profession = ERR.EQ_ERROR_SLOT) /\
  (ItemEquipType.FOCUS_FIRE <= mEquipType d <= ItemEquipType.FOCUS_DEATH \/
   ItemEquipType.COSEMETIC_SHOULDER <= mEquipType d <= ItemEquipType.COSEMETIC_HIP ->
   VerifyEquipItem (Some d) destSlot level profession
   = if destSlot =? ItemEquipSlot.WEAPON_MAIN_HAND then ERR.EQ_ERROR_NONE else ERR.EQ_ERROR_SLOT).
Proof.
  unfold VerifyEquipItem. rewrite (proj2 (Z.ltb_ge _ _)) by lia. rewrite Hweapon. simpl andb. cbv iota.
  unfold targetEquipSlot. split.
  - intros ->. replace (switch ItemEquipType.NONE _ 0) with (-1) by reflexivity.
    by rewrite (proj2 (Z.eqb_neq (-1) destSlot)) by lia.
  - intros Hty. replace (switch (mEquipType d) _ 0) with 0.
    + unfold ItemEquipSlot.WEAPON_MAIN_HAND. rewrite Z.eqb_sym. destruct (destSlot =? 0); reflexivity.
    + unfold ItemEquipType.FOCUS_FIRE, ItemEquipType.FOCUS_DEATH,
        ItemEquipType.COSEMETIC_SHOULDER, ItemEquipType.COSEMETIC_HIP in Hty.
      assert (mEquipType d = 20 \/ mEquipType d = 21 \/ mEquipType d = 22 \/ mEquipType d = 23 \/
              mEquipType d = 25 \/ mEquipType d = 26) as H by lia.
      by destruct H as [->|[->|[->|[->|[->| ->]]]]].
Qed.

Lemma VerifyEquipItem_default_witness :
  (** item 9 has equipment type NONE *)
  VerifyEquipItem (Some (example_item 9)) 3 5 1 = ERR.EQ_ERROR_SLOT.
Proof.
  refine (proj1 (VerifyEquipItem_default (example_item 9) 3 5 1 _ _ _) _).
  - simpl. lia.
  - reflexivity.
  - unfold ItemEquipSlot.MAX_SLOT. lia.
  - reflexivity.
Defined.

(** ** Identifiers *)

(** An item identifier splits back into the container and slot it was made
    from, and its hexadecimal form, which the client is sent and sends back,
    reads back as the identifier. *)
Theorem CCSID_roundtrip (c k : Z) (Hc : 0 <= c < 65536) (Hk : 0 <= k < 65536) (s : InventorySlot)
    (Hs : CCSID s = GetCCSID c k) :
  GetContainer s = c /\ GetSlot s = k /\
  GetCCSIDFromHexID (Some (sprintf_X (CCSID s))) = CCSID s.
Proof.
  unfold GetContainer, GetSlot, GetCCSIDFromHexID, sprintf_X. rewrite Hs.
  rewrite container_of_GetCCSID, slot_of_GetCCSID by done.
  rewrite GetCCSID_eq by done. rewrite strtol_print by lia.
  rewrite !unsigned_id by (unfold in_unsigned; lia). done.
Qed.

Lemma CCSID_roundtrip_witness :
  GetCCSIDFromHexID (Some "10002") = 65538 /\ GetContainer (example_slot 1 2 5 0 0) = 1.
Proof.
  destruct (CCSID_roundtrip 1 2 ltac:(lia) ltac:(lia) (example_slot 1 2 5 0 0) eq_refl) as (H1 & _ & H2).
  split; [exact H2|exact H1].
Defined.
