(* ===== verification/InventoryRemove.v ===== *)
(** * InventoryRemove: theorems on removing items

    [InventoryManager::RemoveItemsAndUpdate] scans a container for stacks of an
    item, then reduces and erases them through a list of queries with pointers.
    Here the three passes are shown equal to one walk over the container
    ([take_items]), from which the properties follow: exactly the requested
    number is taken, as far as the container has it, and nothing else changes.
    The removal of expired items is treated in the same way. *)

From S2P Require Import Prelude ByteBuffer Messages Text Items Inventory.

(** ** Managers and containers *)

Lemma set_cont_set_cont m c l1 l2 : set_cont (set_cont m c l1) c l2 = set_cont m c l2.
Proof.
  unfold set_cont. destruct (container_index c); [|done]. simpl. by rewrite list_insert_insert_eq.
Qed.

Lemma set_cont_same m c : shaped m -> set_cont m c (cont m c) = m.
Proof.
  intros Hsh. unfold set_cont, cont. destruct (container_index c) as [i|] eqn:E; [|done]. simpl.
  destruct (containerList m !! i) as [l|] eqn:El; simpl.
  - rewrite list_insert_id by done. by destruct m.
  - apply container_index_Some in E as [Hv ->]. destruct Hsh as [Hl _].
    apply lookup_ge_None in El. unfold valid, MAXCONTAINER in Hv. lia.
Qed.

Lemma find_idx_here {A} (p : A -> bool) pre x l :
  Forall (fun y => p y = false) pre -> p x = true -> find_idx p (pre ++ x :: l) = Some (length pre).
Proof. induction 1 as [|y pre Hy _ IH]; intros Hx; simpl; [by rewrite Hx|]. by rewrite Hy, (IH Hx). Qed.

(** Erasing by identifier, the item at hand being the only one that carries it. *)
Lemma RemItem_here m c pre s l :
  shaped m -> valid c -> container_of (CCSID s) = c ->
  NoDup (CCSID <$> pre ++ s :: l) ->
  RemItem (set_cont m c (pre ++ s :: l)) (CCSID s) = (1, set_cont m c (pre ++ l)).
Proof.
  intros Hsh Hv Hc Hnd. unfold RemItem. rewrite Hc, cont_set_cont by done.
  rewrite (find_idx_here _ pre s l).
  - unfold erase_slot. rewrite cont_set_cont, set_cont_set_cont by done.
    by rewrite delete_middle.
  - rewrite fmap_app in Hnd. apply list.NoDup_app in Hnd as (_ & Hnd & _).
    apply list.Forall_forall. intros y Hy. apply Z.eqb_neq. intros E.
    apply (Hnd (CCSID y)); [by apply list_elem_of_fmap_2|]. rewrite E. by left.
  - apply Z.eqb_refl.
Qed.

(** ** The scan *)

Section Remove.
Context {db : ItemDb} (g_ServerTime : Z).

(** The queries the scan produces, walking the list from index [a]. *)
Fixpoint scan_spec (c itemID remain : Z) (a : nat) (l : list InventorySlot) : list InventoryQuery :=
  match l with
  | [] => []
  | s :: l' =>
      if remain <=? 0 then []
      else if IID s =? itemID then
        (if item_count s <=? remain then mkQuery (CCSID s) (item_count s) TYPE_REMOVE (c, a)
         else mkQuery (CCSID s) remain TYPE_MODIFIED (c, a))
        :: scan_spec c itemID (remain - item_count s) (S a) l'
      else scan_spec c itemID remain (S a) l'
  end.

(** The container after the reductions, and after the removals too. *)
Fixpoint reduce_items (itemID remain : Z) (l : list InventorySlot) : list InventorySlot :=
  match l with
  | [] => []
  | s :: l' =>
      if remain <=? 0 then l
      else if IID s =? itemID then
        if item_count s <=? remain then s :: reduce_items itemID (remain - item_count s) l'
        else add_count (- remain) s :: l'
      else s :: reduce_items itemID remain l'
  end.

Fixpoint take_items (itemID remain : Z) (l : list InventorySlot) : list InventorySlot :=
  match l with
  | [] => []
  | s :: l' =>
      if remain <=? 0 then l
      else if IID s =? itemID then
        if item_count s <=? remain then take_items itemID (remain - item_count s) l'
        else add_count (- remain) s :: l'
      else s :: take_items itemID remain l'
  end.

Lemma item_count_pos s : count_ok s -> 1 <= item_count s <= 2 ^ 30.
Proof.
  unfold count_ok, item_count. intros H. destruct (ResolveItemPtr s); [|lia]. case_test; lia.
Qed.

Lemma scan_spec_nil c itemID remain a l : remain <= 0 -> scan_spec c itemID remain a l = [].
Proof. intros H. destruct l; simpl; [done|]. by rewrite (proj2 (Z.leb_le _ _) H). Qed.

(** Skipping to the next item of the kind. *)
Lemma scan_spec_skip c itemID remain a l :
  scan_spec c itemID remain a l =
  match find_idx (fun s => IID s =? itemID) l with
  | Some k => scan_spec c itemID remain (a + k) (drop k l)
  | None => []
  end.
Proof.
  revert a. induction l as [|s l IH]; intros a; simpl; [done|].
  destruct (IID s =? itemID) eqn:E; simpl.
  { by rewrite E, Nat.add_0_r. }
  rewrite IH. destruct (find_idx _ l) as [k|]; simpl.
  - destruct (remain <=? 0) eqn:Er; to_prop; [by rewrite scan_spec_nil|].
    by rewrite Nat.add_succ_r.
  - by destruct (remain <=? 0).
Qed.

Lemma FindNextItem_spec m c itemID a :
  (a <= length (cont m c))%nat ->
  FindNextItem m c itemID (Z.of_nat a) =
  match find_idx (fun s => IID s =? itemID) (drop a (cont m c)) with
  | Some k => Z.of_nat (a + k)
  | None => -1
  end.
Proof.
  intros Ha. unfold FindNextItem. rewrite (proj2 (Z.ltb_ge _ _)) by lia. rewrite Nat2Z.id.
  case_test; to_prop.
  - rewrite drop_ge by lia. done.
  - destruct (find_idx _ _); [lia|done].
Qed.

Lemma scan_remove_spec m c itemID fuel remain a acc :
  (forall s, s ∈ cont m c -> count_ok s) -> remain < 2 ^ 30 + 1 -> - 2 ^ 30 <= remain ->
  (a <= length (cont m c))%nat -> (length (cont m c) - a < fuel)%nat ->
  scan_remove (S fuel) m c itemID remain (Z.of_nat a) acc
  = acc ++ scan_spec c itemID remain a (drop a (cont m c)).
Proof.
  intros Hc. revert remain a acc. induction fuel as [|fuel IH]; intros remain a acc Hr1 Hr2 Ha Hf; [lia|].
  remember (S fuel) as f1 eqn:Hf1. cbn [scan_remove]. subst f1.
  rewrite (proj2 (Z.leb_le 0 (Z.of_nat a))) by lia. rewrite andb_true_r.
  destruct (0 <? remain) eqn:Er; to_prop; [|rewrite scan_spec_nil by lia; by rewrite app_nil_r].
  rewrite FindNextItem_spec, scan_spec_skip by done.
  destruct (find_idx _ (drop a (cont m c))) as [k|] eqn:Ek; simpl (0 <=? -1).
  2:{ cbn [scan_remove]. by rewrite andb_false_r, app_nil_r. }
  apply find_idx_lookup in Ek as (s & Hs & HI). rewrite lookup_drop in Hs.
  rewrite (proj2 (Z.leb_le 0 (Z.of_nat (a + k)))) by lia. rewrite Nat2Z.id, Hs.
  assert (count_ok s) as Hok by (apply Hc; by eapply list_elem_of_lookup_2).
  rewrite GetStackCount_item_count by done. pose proof (item_count_pos s Hok).
  rewrite i32_id by (unfold in_signed; lia).
  pose proof (lookup_lt_Some _ _ _ Hs) as Hlt.
  replace (Z.of_nat (a + k) + 1) with (Z.of_nat (S (a + k))) by lia.
  rewrite drop_drop, (drop_S _ s) by done. cbn [scan_spec].
  rewrite HI, (proj2 (Z.leb_gt remain 0)) by lia.
  assert (forall acc', scan_remove (S fuel) m c itemID (remain - item_count s) (Z.of_nat (S (a + k))) acc'
    = acc' ++ scan_spec c itemID (remain - item_count s) (S (a + k)) (drop (S (a + k)) (cont m c))) as ->.
  { intros acc'. apply IH; lia. }
  by rewrite <- app_assoc.
Qed.

(** ** Reducing and erasing *)

Lemma update_slot_here m c pre s l f :
  shaped m -> valid c -> cont m c = pre ++ s :: l ->
  update_slot m c (length pre) f = set_cont m c (pre ++ f s :: l).
Proof.
  intros Hsh Hv Hl. unfold update_slot. rewrite Hl. f_equal. clear.
  induction pre as [|x pre IH]; simpl; [done|]. by rewrite <- IH.
Qed.

Lemma deref_here m c pre s l : cont m c = pre ++ s :: l -> deref m (c, length pre) = Some s.
Proof. intros Hl. unfold deref. simpl. rewrite Hl. by rewrite list_lookup_middle. Qed.

Lemma process_scan c itemID m l : forall pre remain pk,
  shaped m -> valid c -> cont m c = pre ++ l ->
  exists pk', process_iqs g_ServerTime m (scan_spec c itemID remain (length pre) l) pk
              = Some (pk', set_cont m c (pre ++ reduce_items itemID remain l)).
Proof.
  induction l as [|s l IH]; intros pre remain pk Hsh Hv Hl; simpl.
  { rewrite <- Hl, set_cont_same by done. eauto. }
  assert (cont m c = (pre ++ [s]) ++ l) as Hl' by (by rewrite <- app_assoc).
  assert (S (length pre) = length (pre ++ [s])) as Hlen by (rewrite length_app; simpl; lia).
  destruct (remain <=? 0) eqn:Er; [rewrite <- Hl, set_cont_same by done; simpl; eauto|].
  destruct (IID s =? itemID); [destruct (item_count s <=? remain) eqn:Ec|].
  - cbn [process_iqs process_iq iq_type iq_ptr iq_count]. unfold process_iq. simpl.
    rewrite (deref_here _ _ _ _ _ Hl). simpl. rewrite Hlen.
    destruct (IH (pre ++ [s]) (remain - item_count s) (pk ++ RemoveItemUpdate s)) as [pk' ->]; [done..|].
    rewrite <- app_assoc. by eexists.
  - cbn [process_iqs]. unfold process_iq. simpl. rewrite (deref_here _ _ _ _ _ Hl). simpl.
    rewrite (update_slot_here _ _ _ _ _ _ Hsh Hv Hl). to_prop.
    rewrite scan_spec_nil by lia. simpl. eauto.
  - rewrite Hlen. destruct (IH (pre ++ [s]) remain pk) as [pk' ->]; [done..|].
    rewrite <- app_assoc. by eexists.
Qed.

Lemma reduce_items_CCSID itemID remain l : CCSID <$> reduce_items itemID remain l = CCSID <$> l.
Proof.
  revert remain. induction l as [|s l IH]; intros remain; simpl; [done|].
  repeat case_test; simpl; rewrite ?IH; done.
Qed.

Lemma NoDup_middle pre s l :
  NoDup (CCSID <$> pre ++ s :: l) -> NoDup (CCSID <$> pre ++ l).
Proof. rewrite <- Permutation_middle. simpl. by intros [_ ?]%list.NoDup_cons. Qed.

Lemma RemoveItems_scan c itemID m l : forall a pre remain,
  shaped m -> valid c -> NoDup (CCSID <$> pre ++ l) ->
  (forall s, s ∈ l -> container_of (CCSID s) = c) ->
  RemoveItems (set_cont m c (pre ++ reduce_items itemID remain l)) (scan_spec c itemID remain a l)
  = set_cont m c (pre ++ take_items itemID remain l).
Proof.
  induction l as [|s l IH]; intros a pre remain Hsh Hv Hnd Hc; simpl; [done|].
  assert (forall t, t ∈ l -> container_of (CCSID t) = c) as Hc' by (intros; apply Hc; by right).
  destruct (remain <=? 0) eqn:Er; [done|].
  destruct (IID s =? itemID); [destruct (item_count s <=? remain) eqn:Ec|].
  - unfold RemoveItems in *. cbn [fold_left iq_type iq_CCSID]. rewrite Z.eqb_refl.
    rewrite RemItem_here; [|done|done|apply Hc; by left|].
    + simpl. apply IH; [done..| |done]. by eapply NoDup_middle.
    + rewrite fmap_app in *. simpl. by rewrite reduce_items_CCSID.
  - to_prop. rewrite scan_spec_nil by lia. done.
  - change (pre ++ s :: reduce_items itemID remain l)
      with (pre ++ [s] ++ reduce_items itemID remain l).
    change (pre ++ s :: take_items itemID remain l) with (pre ++ [s] ++ take_items itemID remain l).
    rewrite !app_assoc. apply IH; [done..| |done]. by rewrite <- app_assoc.
Qed.

(** The whole operation is one walk over the container. *)
Lemma RemoveItemsAndUpdate_take m c itemID n :
  Inv_wf m -> valid c -> (forall s, s ∈ cont m c -> count_ok s) -> 0 <= n <= 2 ^ 30 ->
  exists packet, RemoveItemsAndUpdate g_ServerTime m c itemID n =
    Some (packet, FindNextExpunge g_ServerTime (set_cont m c (take_items itemID n (cont m c)))).
Proof.
  intros Hwf Hv Hc Hn. unfold RemoveItemsAndUpdate, ScanRemoveItems.
  pose proof (scan_remove_spec m c itemID (S (length (cont m c))) n 0 [] Hc ltac:(lia) ltac:(lia)
    ltac:(lia) ltac:(lia)) as Hscan.
  change (Z.of_nat 0) with 0 in Hscan. rewrite Hscan, drop_0. simpl app.
  unfold ProcessIqResults. pose proof (wf_shaped _ Hwf) as Hsh.
  destruct (process_scan c itemID m (cont m c) [] n [] Hsh Hv eq_refl) as [pk' Hpk].
  simpl length in Hpk. rewrite Hpk. simpl.
  pose proof (RemoveItems_scan c itemID m (cont m c) 0 [] n Hsh Hv (wf_nodup _ Hwf c)) as Hrem.
  simpl in Hrem. rewrite Hrem; [eauto|]. intros s Hs. by eapply wf_container_of.
Qed.

(** ** What the walk leaves *)

Lemma take_items_elem itemID r l x :
  x ∈ take_items itemID r l -> exists y, y ∈ l /\ CCSID x = CCSID y.
Proof.
  revert r. induction l as [|s l IH]; intros r; simpl; [by intros ?%not_elem_of_nil|].
  destruct (r <=? 0); [by eauto|].
  assert (forall r', x ∈ take_items itemID r' l -> exists y, y ∈ s :: l /\ CCSID x = CCSID y) as IH'.
  { intros r' (y & Hy & E)%IH. exists y. split; [by right|done]. }
  destruct (IID s =? itemID); [destruct (item_count s <=? r)|].
  - apply IH'.
  - intros [->|H]%elem_of_cons; [exists s; split; [by left|done]|]. exists x. split; [by right|done].
  - intros [->|H]%elem_of_cons; [exists s; split; [by left|done]|by eapply IH'].
Qed.

Lemma take_items_NoDup itemID r l : NoDup (CCSID <$> l) -> NoDup (CCSID <$> take_items itemID r l).
Proof.
  revert r. induction l as [|s l IH]; intros r; simpl; [done|].
  intros Hnd. pose proof Hnd as [Hs Hl]%list.NoDup_cons.
  destruct (r <=? 0); [done|].
  destruct (IID s =? itemID); [destruct (item_count s <=? r)|]; simpl; [by apply IH|done|].
  apply list.NoDup_cons. split; [|by apply IH].
  intros (x & Ex & (y & Hy & E)%take_items_elem)%list_elem_of_fmap.
  apply Hs. rewrite Ex, E. by apply list_elem_of_fmap_2.
Qed.

Lemma weight_nonneg ID s : count_ok s -> 0 <= weight ID s.
Proof. intros H%item_count_pos. unfold weight. case_test; lia. Qed.

Lemma take_items_amount itemID r l ID :
  (forall s, s ∈ l -> count_ok s) -> 0 <= r <= 2 ^ 30 ->
  sumZ (weight ID) (take_items itemID r l)
  = sumZ (weight ID) l - (if ID =? itemID then Z.min r (sumZ (weight itemID) l) else 0).
Proof.
  revert r. induction l as [|s l IH]; intros r Hc Hr; simpl.
  { case_test; lia. }
  assert (count_ok s) as Hs by (apply Hc; by left).
  assert (forall t, t ∈ l -> count_ok t) as Hc' by (intros; apply Hc; by right).
  pose proof (item_count_pos s Hs).
  assert (0 <= sumZ (weight itemID) l) as Hpos.
  { apply sumZ_nonneg, list.Forall_forall. intros. by apply weight_nonneg, Hc'. }
  destruct (r <=? 0) eqn:Er; to_prop.
  { pose proof (weight_nonneg itemID s Hs). simpl. case_test; lia. }
  unfold weight at 4. destruct (IID s =? itemID) eqn:Ei; to_prop; [destruct (item_count s <=? r) eqn:Ec|]; to_prop.
  - rewrite IH by (done || lia). unfold weight at 3. rewrite Ei.
    destruct (ID =? itemID) eqn:E; to_prop.
    + subst ID. rewrite Z.eqb_refl. lia.
    + rewrite (proj2 (Z.eqb_neq itemID ID)) by done. lia.
  - simpl. unfold weight at 1 3. simpl. rewrite Ei. destruct (ID =? itemID) eqn:E; to_prop.
    + subst ID. rewrite Z.eqb_refl.
      unfold item_count, ResolveItemPtr in *. simpl. destruct (item_of (IID s)) as [d|]; [|lia].
      case_test; [|lia]. unfold count_ok in Hs. rewrite i32_id by (unfold in_signed; lia). lia.
    + rewrite (proj2 (Z.eqb_neq itemID ID)) by done. lia.
  - simpl. rewrite IH by done. destruct (ID =? itemID); lia.
Qed.

Lemma wf_take_items m c itemID n : Inv_wf m -> Inv_wf (set_cont m c (take_items itemID n (cont m c))).
Proof.
  intros Hwf. apply wf_set_cont; [done| |].
  - intros s (y & Hy & E)%take_items_elem. rewrite E. by apply (wf_ccsid _ Hwf).
  - apply take_items_NoDup, (wf_nodup _ Hwf).
Qed.

End Remove.

(** C28. [RemoveItemsAndUpdate] takes exactly [n] of the item out of the
    container, or all there are when there are fewer, reducing the last stack it
    needs; it touches no other item and no other container, its pointers never
    dangle and the inventory stays well formed. *)
Theorem RemoveItemsAndUpdate_removes {db : ItemDb} (g_ServerTime : Z) (m : InventoryManager)
    (c itemID n : Z) (Hwf : Inv_wf m) (Hv : valid c)
    (Hcounts : forall s, s ∈ cont m c -> count_ok s) (Hn : 0 <= n <= 2 ^ 30) :
  exists packet m', RemoveItemsAndUpdate g_ServerTime m c itemID n = Some (packet, m') /\
    Inv_wf m' /\ (forall c', c' <> c -> cont m' c' = cont m c') /\
    forall ID, amount m' c ID
      = amount m c ID - (if ID =? itemID then Z.min n (amount m c itemID) else 0).
Proof.
  destruct (RemoveItemsAndUpdate_take g_ServerTime m c itemID n Hwf Hv Hcounts Hn) as [packet E].
  exists packet. eexists. split; [exact E|]. unfold FindNextExpunge. split_and!.
  - by apply wf_set_expunge, wf_take_items.
  - intros c' Hne. rewrite cont_set_expunge. by apply cont_set_cont_ne.
  - intros ID. unfold amount at 1. rewrite cont_set_expunge, cont_set_cont by (done || apply Hwf).
    by apply take_items_amount.
Qed.

Lemma RemoveItemsAndUpdate_removes_witness :
  (** of the 4 + 3 potions in the backpack 6 are taken, 1 is left *)
  exists packet m', @RemoveItemsAndUpdate example_db 1000 example_inv 0 5 6 = Some (packet, m') /\
    @amount example_db m' 0 5 = 1 /\ @amount example_db m' 0 9 = 1.
Proof.
  destruct (@RemoveItemsAndUpdate_removes example_db 1000 example_inv 0 5 6 example_inv_wf)
    as (packet & m' & E & _ & _ & H).
  - vm_compute. by split.
  - intros s Hs. repeat (apply elem_of_cons in Hs as [->|Hs]; [vm_compute; by split|]).
    by apply not_elem_of_nil in Hs.
  - lia.
  - exists packet, m'. split; [exact E|]. rewrite !H. split; vm_compute; reflexivity.
Defined.

(** ** Expired items *)

Section Expired.
Context {db : ItemDb} (g_ServerTime : Z).

Definition expired (s : InventorySlot) : bool :=
  (-1 <? secondsRemaining s) && (GetTimeRemaining g_ServerTime s <? 1).

(** The queries for one container, from index [a]. *)
Fixpoint expired_queries (c : Z) (a : nat) (l : list InventorySlot) : list InventoryQuery :=
  match l with
  | [] => []
  | s :: l' =>
      (if expired s then [mkQuery (CCSID s) (GetStackCount s) TYPE_REMOVE (c, a)] else [])
      ++ expired_queries c (S a) l'
  end.

Lemma ScanExpiredItems_spec m :
  ScanExpiredItems g_ServerTime m
  = concat (map (fun c => expired_queries c 0 (cont m c)) (seqZ 0 MAXCONTAINER)).
Proof.
  unfold ScanExpiredItems. f_equal. apply map_ext. intros c. generalize 0%nat.
  induction (cont m c) as [|s l IH]; intros a; simpl; [done|].
  fold (expired s). destruct (expired s); simpl; by rewrite IH.
Qed.

Lemma process_all_remove m qs pk :
  Forall (fun q => iq_type q = TYPE_REMOVE /\ is_Some (deref m (iq_ptr q))) qs ->
  exists pk', process_iqs g_ServerTime m qs pk = Some (pk', m).
Proof.
  intros H. revert pk. induction H as [|q qs [Hty [s Hs]] _ IH]; intros pk; simpl; [eauto|].
  unfold process_iq. rewrite Hty, Hs. simpl. apply IH.
Qed.

Lemma expired_queries_deref m c l : forall pre,
  cont m c = pre ++ l ->
  Forall (fun q => iq_type q = TYPE_REMOVE /\ is_Some (deref m (iq_ptr q)))
    (expired_queries c (length pre) l).
Proof.
  induction l as [|s l IH]; intros pre Hl; simpl; [constructor|]. apply list.Forall_app. split.
  - case_test; constructor; [|constructor]. simpl. split; [done|].
    rewrite (deref_here _ _ _ _ _ Hl). by eexists.
  - specialize (IH (pre ++ [s])). rewrite length_app, Nat.add_1_r in IH. apply IH.
    by rewrite <- app_assoc.
Qed.

Lemma RemoveItems_app m q1 q2 : RemoveItems m (q1 ++ q2) = RemoveItems (RemoveItems m q1) q2.
Proof. unfold RemoveItems. apply fold_left_app. Qed.

Lemma RemoveItems_expired c m l : forall a pre,
  shaped m -> valid c -> NoDup (CCSID <$> pre ++ l) ->
  (forall s, s ∈ l -> container_of (CCSID s) = c) ->
  RemoveItems (set_cont m c (pre ++ l)) (expired_queries c a l)
  = set_cont m c (pre ++ List.filter (fun s => negb (expired s)) l).
Proof.
  induction l as [|s l IH]; intros a pre Hsh Hv Hnd Hc; simpl; [done|].
  assert (forall t, t ∈ l -> container_of (CCSID t) = c) as Hc' by (intros; apply Hc; by right).
  destruct (expired s); simpl.
  - unfold RemoveItems in *. cbn [fold_left iq_type iq_CCSID]. 
    rewrite RemItem_here; [|done|done|apply Hc; by left|done].
    simpl. apply IH; [done..| |done]. by eapply NoDup_middle.
  - change (pre ++ s :: l) with (pre ++ [s] ++ l).
    change (pre ++ s :: List.filter (fun s => negb (expired s)) l)
      with (pre ++ [s] ++ List.filter (fun s => negb (expired s)) l).
    rewrite !app_assoc. apply IH; [done..| |done]. by rewrite <- app_assoc.
Qed.

Lemma filter_elem (p : InventorySlot -> bool) l s : s ∈ List.filter p l -> s ∈ l.
Proof. rewrite !list_elem_of_In, filter_In. by intros [? _]. Qed.

Lemma filter_NoDup (p : InventorySlot -> bool) l :
  NoDup (CCSID <$> l) -> NoDup (CCSID <$> List.filter p l).
Proof.
  induction l as [|s l IH]; simpl; [done|]. intros [Hs Hl]%list.NoDup_cons.
  destruct (p s); simpl; [|by apply IH]. apply list.NoDup_cons. split; [|by apply IH].
  intros (x & Ex & Hx%filter_elem)%list_elem_of_fmap. apply Hs. rewrite Ex.
  by apply list_elem_of_fmap_2.
Qed.

Lemma RemoveItems_containers cs : forall m,
  Inv_wf m -> (forall c, c ∈ cs -> valid c) -> NoDup cs ->
  let m' := RemoveItems m (concat (map (fun c => expired_queries c 0 (cont m c)) cs)) in
  Inv_wf m' /\
  forall c, cont m' c = if decide (c ∈ cs) then List.filter (fun s => negb (expired s)) (cont m c)
                        else cont m c.
Proof.
  induction cs as [|c0 cs IH]; intros m Hwf Hv Hnd; simpl; [done|].
  apply list.NoDup_cons in Hnd as [Hc0 Hnd].
  assert (valid c0) as Hv0 by (apply Hv; by left).
  rewrite RemoveItems_app.
  pose proof (RemoveItems_expired c0 m (cont m c0) 0 [] (wf_shaped _ Hwf) Hv0 (wf_nodup _ Hwf c0)
    (fun s Hs => wf_container_of _ _ _ Hwf Hs)) as Hstep.
  simpl in Hstep. rewrite set_cont_same in Hstep by apply Hwf. rewrite Hstep.
  set (m1 := set_cont m c0 _).
  assert (Inv_wf m1) as Hwf1.
  { apply wf_set_cont; [done| |].
    - intros s ?%filter_elem. by apply (wf_ccsid _ Hwf).
    - apply filter_NoDup, (wf_nodup _ Hwf). }
  replace (map (fun c => expired_queries c 0 (cont m c)) cs)
    with (map (fun c => expired_queries c 0 (cont m1 c)) cs).
  2:{ apply map_ext_in. intros c Hc. unfold m1. rewrite cont_set_cont_ne; [done|].
      intros ->. apply Hc0. by apply list_elem_of_In. }
  destruct (IH m1 Hwf1 ltac:(intros; apply Hv; by right) Hnd) as [H1 H2]. split; [done|].
  intros c. rewrite H2. unfold m1. destruct (decide (c = c0)) as [->|Hne].
  - rewrite decide_False by done. rewrite decide_True by left.
    by rewrite cont_set_cont by (done || apply Hwf).
  - rewrite cont_set_cont_ne by done.
    destruct (decide (c ∈ cs)); [by rewrite decide_True by (by right)|].
    rewrite decide_False; [done|]. by intros [->|?]%elem_of_cons.
Qed.

End Expired.

(** C32. [RemoveExpiredItemsAndUpdate] removes from every container exactly the
    items whose remaining time is used up, and keeps all others in their order;
    its pointers never dangle and the inventory stays well formed. *)
Theorem RemoveExpired_removes {db : ItemDb} (g_ServerTime : Z) (m : InventoryManager) (Hwf : Inv_wf m) :
  exists packet m', RemoveExpiredItemsAndUpdate g_ServerTime m = Some (packet, m') /\ Inv_wf m' /\
    forall c, cont m' c = List.filter (fun s => negb (expired g_ServerTime s)) (cont m c).
Proof.
  unfold RemoveExpiredItemsAndUpdate, ProcessIqResults. rewrite ScanExpiredItems_spec.
  destruct (process_all_remove g_ServerTime m
    (concat (map (fun c => expired_queries g_ServerTime c 0 (cont m c)) (seqZ 0 MAXCONTAINER))) [])
    as [pk ->].
  { apply Forall_concat, list.Forall_forall. intros qs (c & <- & _)%list_elem_of_In%in_map_iff.
    by apply (expired_queries_deref g_ServerTime m c (cont m c) []). }
  destruct (RemoveItems_containers g_ServerTime (seqZ 0 MAXCONTAINER) m Hwf) as [H1 H2].
  { intros c Hc. by apply elem_of_seqZ in Hc. }
  { apply NoDup_seqZ. }
  simpl. do 2 eexists. split; [reflexivity|]. split; [by apply wf_set_expunge|].
  intros c. unfold FindNextExpunge. rewrite cont_set_expunge, H2. case_decide as Hd; [done|].
  rewrite cont_invalid; [done|]. intros Hv. apply Hd. by apply elem_of_seqZ.
Qed.

Lemma RemoveExpired_removes_witness :
  (** a slot with 5 seconds left since time 0, at time 6000 *)
  let m := set_cont example_inv 0
             [example_slot 0 0 5 3 0; mkSlot (GetCCSID 0 1) 9 0 0 0 5 0] in
  exists packet m', @RemoveExpiredItemsAndUpdate example_db 6000 m = Some (packet, m') /\
    cont m' 0 = [example_slot 0 0 5 3 0].
Proof.
  intros m.
  destruct (@RemoveExpired_removes example_db 6000 m) as (packet & m' & E & _ & H).
  - apply Inv_wfb_sound. vm_compute. reflexivity.
  - exists packet, m'. split; [exact E|]. rewrite H. vm_compute. reflexivity.
Defined.
