(* ===== verification/InventoryFile.v ===== *)
(** * InventoryFile: inventories in character files

    Models the [INV] section of [src/SOURCE/Server/Character.cpp]
    ([CharacterData::WriteEntity] and [ReadEntity]): every container is a list of
    comma separated texts, one per item, which [ReadInventory] loads. The entity
    writer and reader are taken as passing lists of texts through. Shown: an
    inventory that is saved and loaded is the same inventory, up to the time the
    remaining seconds are counted from. *)

From S2P Require Import Prelude ByteBuffer Messages Text Items Inventory.

Definition comma : Ascii.ascii := chr 44.

(** ** Writing *)

(** The second part of the text is written for items that have any of these. *)
Definition slot_extended (s : InventorySlot) : bool :=
  (0 <? count s) || negb (customLook s =? 0) || negb (bindStatus s =? 0)
  || negb (secondsRemaining s =? -1).

(** The text, and the item: [AdjustTimes] is called for its fourth argument. *)
Definition save_slot (g_ServerTime : Z) (s : InventorySlot) : string * InventorySlot :=
  let text := sprintf_d (slot_of (CCSID s)) +:+ "," +:+ sprintf_d (IID s) in
  if slot_extended s then
    let '(secs, s') := AdjustTimes g_ServerTime s in
    (text +:+ "," +:+ sprintf_d (count s) +:+ "," +:+ sprintf_d (customLook s) +:+ ","
     +:+ sprintf_d (bindStatus s) +:+ "," +:+ sprintf_d secs, s')
  else (text, s).

(** The entries of the section, and the inventory with its times adjusted. *)
Definition save_inventory (g_ServerTime : Z) (m : InventoryManager)
    : list (string * list string) * InventoryManager :=
  fold_left (fun '(entries, m) a =>
    if IsContainerIDValid a then
      let saved := map (save_slot g_ServerTime) (cont m a) in
      (entries ++ [(GetContainerNameFromID a, map fst saved)], set_cont m a (map snd saved))
    else (entries, m)) (seqZ 0 MAXCONTAINER) ([], m).

(** ** Reading *)

Section Load.
Context {db : ItemDb} (g_ServerTime : Z).

(** One entry; the result code of an item is only logged. *)
Fixpoint load_items (m : InventoryManager) (name : string) (l : list string)
    : option InventoryManager :=
  match l with
  | [] => Some m
  | v :: l' =>
      r ← ReadInventory g_ServerTime m (ToLowerCase name) v;
      load_items r.2 name l'
  end.

Fixpoint load_inventory (m : InventoryManager) (entries : list (string * list string))
    : option InventoryManager :=
  match entries with
  | [] => Some m
  | (name, l) :: entries' =>
      m' ← load_items m name l;
      load_inventory m' entries'
  end.

(** ** Lemmas *)

(** An item as it comes back: times count from the load on. *)
Definition reloaded (saved_at : Z) (s : InventorySlot) : InventorySlot :=
  mkSlot (CCSID s) (IID s) (count s) (customLook s) (bindStatus s)
    (if -1 <? secondsRemaining s then GetTimeRemaining saved_at s else secondsRemaining s)
    g_ServerTime.

(** The fields are in the range of their C++ types and the item exists. *)
Definition storable (s : InventorySlot) : Prop :=
  is_Some (item_of (IID s)) /\ in_i32 (IID s) /\ 0 <= count s < 2 ^ 31 /\ in_i32 (customLook s) /\
  in_signed 8 (bindStatus s) /\ -1 <= secondsRemaining s < 2 ^ 31.

Lemma GetTimeRemaining_i32 t s : in_i32 (GetTimeRemaining t s).
Proof. unfold GetTimeRemaining. case_test; [unfold in_signed; lia|]. by apply signed_range. Qed.

(** The fields of a saved text. *)
Definition saved_fields (saved_at : Z) (s : InventorySlot) : list string :=
  [sprintf_d (slot_of (CCSID s)); sprintf_d (IID s)] ++
  if slot_extended s then
    [sprintf_d (count s); sprintf_d (customLook s); sprintf_d (bindStatus s);
     sprintf_d (secondsRemaining (reloaded saved_at s))]
  else [].

Lemma save_slot_fields saved_at s : Split (fst (save_slot saved_at s)) "," = saved_fields saved_at s.
Proof.
  assert (fst (save_slot saved_at s) = Join (saved_fields saved_at s) ",") as ->.
  { unfold save_slot, saved_fields, AdjustTimes. case_test; cbn [fst app Join]; [|done].
    rewrite !string_app_assoc. done. }
  change ","%string with (String comma EmptyString). apply split_join_lemma.
  - unfold saved_fields. by case_test.
  - unfold saved_fields. case_test; cbn [app forallb]; by rewrite !sprintf_d_lacks.
Qed.

Lemma container_name_id c :
  IsContainerIDValid c = true ->
  valid c /\ ToLowerCase (GetContainerNameFromID c) = GetContainerNameFromID c /\
  GetContainerIDFromName (GetContainerNameFromID c) = c.
Proof.
  unfold IsContainerIDValid. rewrite existsb_exists. intros (e & He & <-%Z.eqb_eq).
  assert (forallb (fun e => (0 <=? e.2) && (e.2 <? MAXCONTAINER) &&
    String.eqb (ToLowerCase (GetContainerNameFromID e.2)) (GetContainerNameFromID e.2) &&
    (GetContainerIDFromName (GetContainerNameFromID e.2) =? e.2)) InventoryMapping = true) as H
    by (vm_compute; reflexivity).
  rewrite forallb_forall in H. specialize (H _ He).
  apply andb_true_iff in H as [[[H1 H2]%andb_true_iff H3]%andb_true_iff H4].
  apply String.eqb_eq in H3. to_prop. done.
Qed.

(** Loading one saved item into a free slot. *)
Lemma ReadInventory_saved m c saved_at s :
  shaped m -> IsContainerIDValid c = true -> storable s ->
  CCSID s = GetCCSID c (slot_of (CCSID s)) -> slot_free m c (slot_of (CCSID s)) ->
  Z.of_nat (length (cont m c)) < 2 ^ 31 - 1 ->
  ReadInventory g_ServerTime m (GetContainerNameFromID c) (fst (save_slot saved_at s))
  = Some (0, push_back (set_expunge m (note_expunge g_ServerTime (NextExpunge m) (reloaded saved_at s)))
               c (reloaded saved_at s)).
Proof.
  intros Hsh Hvalid ([d Hd] & HI & Hcount & Hlook & Hbind & Hsecs) Hcc Hfree Hlen.
  destruct (container_name_id c Hvalid) as ([Hc0 Hc1] & _ & Hid).
  unfold ReadInventory. rewrite save_slot_fields, Hid.
  rewrite (proj2 (Z.eqb_neq c (-1))) by lia.
  pose proof (slot_of_range (CCSID s)) as Hr.
  assert (atoi (sprintf_d (slot_of (CCSID s))) = slot_of (CCSID s)) as Hslot
    by (apply atoi_sprintf_d_lemma; unfold in_signed; lia).
  assert (saved_fields saved_at s !! 0%nat = Some (sprintf_d (slot_of (CCSID s)))) as -> by done.
  assert (saved_fields saved_at s !! 1%nat = Some (sprintf_d (IID s))) as -> by done.
  cbn [mbind option_bind].
  rewrite Hslot, atoi_sprintf_d_lemma by done.
  replace (0 <=? GetItemBySlot m c (slot_of (CCSID s))) with false.
  2:{ symmetry. apply Z.leb_gt. destruct (Z_lt_dec (GetItemBySlot m c (slot_of (CCSID s))) 0); [done|].
      destruct (GetItemBySlot_Some m c (slot_of (CCSID s))
        (Z.to_nat (GetItemBySlot m c (slot_of (CCSID s))))) as (t & Ht & Et); [done|lia|].
      exfalso. apply (Hfree t); [by eapply list_elem_of_lookup_2|done]. }
  rewrite Hd.
  set (newItem := mkSlot _ _ _ _ _ _ _).
  assert (newItem = reloaded saved_at s) as ->.
  { unfold newItem, reloaded. f_equal.
    - rewrite Hcc at 2. unfold MAXCONTAINER in Hc1. rewrite GetCCSID_eq by lia.
      rewrite lor_shiftl_add by lia. apply unsigned_id. unfold in_unsigned. lia.
    - unfold saved_fields. case_test; cbn [app lookup list_lookup].
      + apply atoi_sprintf_d_lemma. unfold in_signed. lia.
      + unfold slot_extended in E. to_prop. lia.
    - unfold saved_fields. case_test; cbn [app lookup list_lookup].
      + by apply atoi_sprintf_d_lemma.
      + unfold slot_extended in E. to_prop. lia.
    - unfold saved_fields. case_test; cbn [app lookup list_lookup].
      + rewrite atoi_sprintf_d_lemma by (unfold in_signed in *; lia). by apply signed_id.
      + unfold slot_extended in E. to_prop. by replace (bindStatus s) with 0 by lia.
    - unfold saved_fields. case_test; cbn [app lookup list_lookup].
      + apply atoi_sprintf_d_lemma. simpl. case_test; [apply GetTimeRemaining_i32|].
        unfold in_signed. lia.
      + unfold slot_extended in E. to_prop. replace (secondsRemaining s) with (-1) by lia. done. }
  unfold AddItem. rewrite (proj2 (Z.leb_le _ _) Hc0), (proj2 (Z.ltb_lt _ _) Hc1). cbn [andb].
  unfold push_back. rewrite cont_set_cont by done.
  rewrite cont_set_expunge, length_app. simpl length.
  rewrite i32_id by (unfold in_signed; lia).
  by rewrite (proj2 (Z.eqb_neq (Z.of_nat (length (cont m c) + 1) - 1) (-1))) by lia.
Qed.

Lemma load_items_saved c saved_at l : forall m,
  shaped m -> IsContainerIDValid c = true ->
  (forall s, s ∈ l -> storable s) ->
  (forall s, s ∈ cont m c ++ l -> CCSID s = GetCCSID c (slot_of (CCSID s))) ->
  NoDup (CCSID <$> cont m c ++ l) ->
  Z.of_nat (length (cont m c ++ l)) < 2 ^ 31 - 1 ->
  exists m', load_items m (GetContainerNameFromID c) (map fst (map (save_slot saved_at) l)) = Some m' /\
    shaped m' /\ cont m' c = cont m c ++ map (reloaded saved_at) l /\
    forall c', c' <> c -> cont m' c' = cont m c'.
Proof.
  induction l as [|s l IH]; intros m Hsh Hv Hst Hcc Hnd Hlen; simpl.
  { exists m. by rewrite app_nil_r. }
  destruct (container_name_id c Hv) as (Hvalid & Hlow & _). rewrite Hlow.
  rewrite length_app in Hlen. simpl in Hlen.
  assert (slot_free m c (slot_of (CCSID s))) as Hfree.
  { intros t Ht E. rewrite fmap_app in Hnd. apply list.NoDup_app in Hnd as (_ & Hnd & _).
    apply (Hnd (CCSID t)); [by apply list_elem_of_fmap_2|].
    assert (CCSID t = CCSID s) as ->; [|by left].
    rewrite (Hcc s), <- E by (apply elem_of_app; right; by left).
    apply Hcc, elem_of_app. by left. }
  rewrite (ReadInventory_saved m c saved_at s);
    [|done|done|apply Hst; by left|apply Hcc, elem_of_app; right; by left|done|lia].
  cbn [mbind option_bind snd].
  set (m1 := push_back _ c (reloaded saved_at s)).
  assert (cont m1 c = cont m c ++ [reloaded saved_at s]) as Hm1.
  { unfold m1, push_back. by rewrite cont_set_cont by done. }
  assert (CCSID <$> cont m1 c ++ l = CCSID <$> cont m c ++ s :: l) as Hids.
  { rewrite Hm1, <- app_assoc, !fmap_app. done. }
  destruct (IH m1) as (m' & Hl & Hsh' & Hc' & Hother).
  - by apply shaped_push_back.
  - done.
  - intros t Ht. apply Hst. by right.
  - intros t. rewrite Hm1, <- app_assoc. intros [Ht|Ht]%elem_of_app.
    + apply Hcc, elem_of_app. by left.
    + simpl in Ht. apply elem_of_cons in Ht as [->|Ht].
      * apply (Hcc s), elem_of_app. right. by left.
      * apply Hcc, elem_of_app. right. by right.
  - by rewrite Hids.
  - rewrite Hm1, !length_app. simpl. lia.
  - exists m'. split; [done|]. split; [done|]. split.
    + rewrite Hc', Hm1, <- app_assoc. done.
    + intros c' Hne. rewrite Hother by done. unfold m1, push_back. by rewrite cont_set_cont_ne.
Qed.

(** The entries [save_inventory] writes. *)
Lemma save_inventory_entries saved_at cs : forall m entries,
  NoDup cs ->
  fst (fold_left (fun '(entries, m) a =>
    if IsContainerIDValid a then
      let saved := map (save_slot saved_at) (cont m a) in
      (entries ++ [(GetContainerNameFromID a, map fst saved)], set_cont m a (map snd saved))
    else (entries, m)) cs (entries, m))
  = entries ++ map (fun a => (GetContainerNameFromID a, map fst (map (save_slot saved_at) (cont m a))))
                 (List.filter IsContainerIDValid cs).
Proof.
  induction cs as [|c cs IH]; intros m entries Hnd; simpl; [by rewrite app_nil_r|].
  apply list.NoDup_cons in Hnd as [Hc Hnd].
  destruct (IsContainerIDValid c); simpl; [|by apply IH].
  rewrite IH by done. rewrite <- app_assoc. simpl. do 2 f_equal.
  apply map_ext_in. intros a [Ha _]%filter_In. rewrite cont_set_cont_ne; [done|].
  intros ->. apply Hc. by apply list_elem_of_In.
Qed.

Lemma load_inventory_saved saved_at m cs : forall m0,
  Inv_wf m -> shaped m0 -> NoDup cs ->
  (forall c, c ∈ cs -> IsContainerIDValid c = true /\ cont m0 c = []) ->
  (forall c s, s ∈ cont m c -> storable s) ->
  (forall c, Z.of_nat (length (cont m c)) < 2 ^ 31 - 1) ->
  exists m', load_inventory m0
      (map (fun a => (GetContainerNameFromID a, map fst (map (save_slot saved_at) (cont m a)))) cs)
      = Some m' /\
    forall c, cont m' c = if decide (c ∈ cs) then map (reloaded saved_at) (cont m c) else cont m0 c.
Proof.
  induction cs as [|c cs IH]; intros m0 Hwf Hsh Hnd Hcs Hst Hlen; simpl; [by exists m0|].
  apply list.NoDup_cons in Hnd as [Hc Hnd].
  destruct (Hcs c ltac:(by left)) as [Hv H0].
  destruct (load_items_saved c saved_at (cont m c) m0) as (m1 & -> & Hsh1 & Hc1 & Hother);
    rewrite ?H0; simpl.
  - done.
  - done.
  - apply Hst.
  - apply (wf_ccsid _ Hwf).
  - apply (wf_nodup _ Hwf).
  - apply Hlen.
  - destruct (IH m1 Hwf Hsh1 Hnd) as (m' & Hl & Hm').
    + intros c' Hc'. rewrite Hother by (intros ->; done). apply Hcs. by right.
    + done.
    + done.
    + exists m'. split; [done|]. intros c'. rewrite Hm'. destruct (decide (c' = c)) as [->|Hne].
      * rewrite decide_False by done. rewrite decide_True by left. by rewrite Hc1, H0.
      * rewrite Hother by done.
        destruct (decide (c' ∈ cs)); [by rewrite decide_True by (by right)|].
        rewrite decide_False; [done|]. by intros [->|?]%elem_of_cons.
Qed.

End Load.

(** ** Properties *)


