(* ===== verification/Party.v ===== *)
(** * Party: player parties, loot tags and their messages

    Models [src/SOURCE/Server/PartyManager.h] and [PartyManager.cpp], and the
    team messages of [PVP.cpp] that they send.

    - A [CreatureInstance*] is a key of the store [creatures]; a creature has the
      fields the party code uses, [simulator] being the client socket behind
      [simulatorPtr] ([None] when it is NULL). Dereferencing a pointer that is
      not in the store, or a NULL [simulatorPtr], is undefined: the operation is
      [None].
    - An [ActiveParty*] is an index of [mPartyList], a [PartyMember*] an index of
      [mMemberList].
    - What is handed to the packet manager or broadcast to an instance is
      appended to [out].
    - [lootTags] is the list of its entries in key order; the global [lootSeq]
      is part of the state. *)

From S2P Require Import Prelude ByteBuffer Messages Text.

Definition Invalid_Socket : Z := -1.
Definition PVPTeams_NONE : Z := 0.

(** ** Data *)

Record Creature := mkCreature {
  CreatureDefID : Z;
  CreatureID : Z;
  PartyID : Z;
  display_name : string;
  level : Z;
  charPtr : Z;
  simulator : option Z;
  actInst : Z;
  pvpGame : option Z
}.

Definition set_PartyID (id : Z) (c : Creature) : Creature :=
  mkCreature (CreatureDefID c) (CreatureID c) id (display_name c) (level c) (charPtr c)
    (simulator c) (actInst c) (pvpGame c).

Record PartyMember := mkMember {
  mCreatureDefID : Z;
  mCreatureID : Z;
  mDisplayName : string;
  mCreaturePtr : option Z;
  mCharPtr : option Z;
  mSocket : Z
}.

Inductive LootMode := FREE_FOR_ALL | ROUND_ROBIN | LOOT_MASTER.

Definition LootMode_code (m : LootMode) : Z :=
  match m with FREE_FOR_ALL => 0 | ROUND_ROBIN => 1 | LOOT_MASTER => 2 end.

Record LootTag := mkTag {
  lootTag : Z;
  mItemId : Z;
  mCreatureId : Z;
  mLootCreatureId : Z;
  mSlotIndex : Z;
  needed : bool
}.

Definition LootTag_Clear : LootTag := mkTag 0 0 0 0 0 false.
Definition LootTag_Valid (t : LootTag) : bool := 0 <? lootTag t.

Record ActiveParty := mkParty {
  mPartyID : Z;
  mLeaderDefID : Z;
  mLeaderID : Z;
  mLootMode : LootMode;
  mLootFlags : Z;
  mNextToGetLoot : Z;
  mLeaderName : string;
  mMemberList : list PartyMember;
  lootTags : list (Z * LootTag);
  mPVPTeam : Z
}.

Definition ActiveParty_new : ActiveParty := mkParty 0 0 0 FREE_FOR_ALL 0 0 "" [] [] 0.

Definition set_members (p : ActiveParty) (l : list PartyMember) : ActiveParty :=
  mkParty (mPartyID p) (mLeaderDefID p) (mLeaderID p) (mLootMode p) (mLootFlags p)
    (mNextToGetLoot p) (mLeaderName p) l (lootTags p) (mPVPTeam p).
Definition set_leader (p : ActiveParty) (defID id : Z) (name : string) : ActiveParty :=
  mkParty (mPartyID p) defID id (mLootMode p) (mLootFlags p)
    (mNextToGetLoot p) name (mMemberList p) (lootTags p) (mPVPTeam p).
Definition set_next (p : ActiveParty) (n : Z) : ActiveParty :=
  mkParty (mPartyID p) (mLeaderDefID p) (mLeaderID p) (mLootMode p) (mLootFlags p)
    n (mLeaderName p) (mMemberList p) (lootTags p) (mPVPTeam p).
Definition set_tags (p : ActiveParty) (t : list (Z * LootTag)) : ActiveParty :=
  mkParty (mPartyID p) (mLeaderDefID p) (mLeaderID p) (mLootMode p) (mLootFlags p)
    (mNextToGetLoot p) (mLeaderName p) (mMemberList p) t (mPVPTeam p).
Definition set_mPartyID (p : ActiveParty) (id : Z) : ActiveParty :=
  mkParty id (mLeaderDefID p) (mLeaderID p) (mLootMode p) (mLootFlags p)
    (mNextToGetLoot p) (mLeaderName p) (mMemberList p) (lootTags p) (mPVPTeam p).

(** ** The surroundings of a party *)

Inductive Output := ToSocket (socket : Z) (packet : list Z) | ToInstance (inst : Z) (packet : list Z).

Record Env := mkEnv { creatures : gmap Z Creature; out : list Output }.

Definition creature (e : Env) (ptr : Z) : option Creature := creatures e !! ptr.
Definition emit (e : Env) (o : Output) : Env := mkEnv (creatures e) (out e ++ [o]).
Definition set_creature_party (e : Env) (ptr id : Z) : Env :=
  mkEnv (alter (set_PartyID id) ptr (creatures e)) (out e).

(** ** Messages *)

Module PartyUpdateOpTypes.
Definition INVITE : Z := 0.
Definition PROPOSE_INVITE : Z := 1.
Definition INVITE_REJECTED : Z := 2.
Definition ADD_MEMBER : Z := 3.
Definition REMOVE_MEMBER : Z := 4.
Definition JOINED_PARTY : Z := 5.
Definition LEFT_PARTY : Z := 6.
Definition IN_CHARGE : Z := 7.
Definition STRATEGY_CHANGE : Z := 8.
Definition STRATEGYFLAGS_CHANGE : Z := 9.
Definition OFFER_LOOT : Z := 10.
Definition LOOT_ROLL : Z := 11.
Definition LOOT_WIN : Z := 12.
Definition QUEST_INVITE : Z := 13.
End PartyUpdateOpTypes.
Import PartyUpdateOpTypes.

Definition StrategyChange (newLootMode : LootMode) : list Z :=
  seal (PutByte 6 ++ PutShort 0 ++ PutByte STRATEGY_CHANGE ++ PutInteger (LootMode_code newLootMode)).
Definition StrategyFlagsChange (newFlags : Z) : list Z :=
  seal (PutByte 6 ++ PutShort 0 ++ PutByte STRATEGYFLAGS_CHANGE ++ PutInteger newFlags).
Definition OfferLoot (itemDefID : Z) (lootTag : string) (needed : bool) : list Z :=
  seal (PutByte 6 ++ PutShort 0 ++ PutByte OFFER_LOOT ++ PutStringUTF lootTag ++
        PutInteger itemDefID ++ PutByte (if needed then 1 else 0)).
Definition WriteLootRoll (itemDefName : string) (roll : Z) (bidder : string) : list Z :=
  seal (PutByte 6 ++ PutShort 0 ++ PutByte LOOT_ROLL ++ PutStringUTF itemDefName ++
        PutByte roll ++ PutStringUTF bidder).

(** The position text always fits the 34 byte buffer. *)
Definition WriteLootWin (lootTag originalTag winner : string) (creatureId slotIndex : Z) : list Z :=
  seal (PutByte 6 ++ PutShort 0 ++ PutByte LOOT_WIN ++ PutStringUTF lootTag ++
        PutStringUTF originalTag ++ PutStringUTF winner ++
        PutStringUTF (sprintf_d creatureId +:+ ":" +:+ sprintf_d slotIndex)).
Definition WriteInvite (leaderId : Z) (leaderName : string) : list Z :=
  seal (PutByte 6 ++ PutShort 0 ++ PutByte INVITE ++ PutInteger leaderId ++ PutStringUTF leaderName).
Definition WriteProposeInvite (proposeeId : Z) (proposeeName : string) (proposerId : Z)
    (proposerName : string) : list Z :=
  seal (PutByte 6 ++ PutShort 0 ++ PutByte PROPOSE_INVITE ++ PutInteger proposeeId ++
        PutStringUTF proposeeName ++ PutInteger proposerId ++ PutStringUTF proposerName).

(** The count byte is written at its place once the members are counted. *)
Definition WriteMemberList (party : ActiveParty) (memberID : Z) : list Z :=
  let others := List.filter (fun m => negb (mCreatureID m =? memberID)) (mMemberList party) in
  seal (PutByte 6 ++ PutShort 0 ++ PutByte JOINED_PARTY ++
        PutByte (Z.of_nat (length others)) ++
        PutInteger (mLeaderID party) ++ PutInteger memberID ++
        concat (map (fun m => PutInteger (mCreatureID m) ++ PutStringUTF (mDisplayName m)) others)).
Definition WriteLeftParty : list Z := seal (PutByte 6 ++ PutShort 0 ++ PutByte LEFT_PARTY).
Definition WriteRemoveMember (memberID : Z) : list Z :=
  seal (PutByte 6 ++ PutShort 0 ++ PutByte REMOVE_MEMBER ++ PutInteger memberID).
Definition WriteInCharge (party : ActiveParty) : list Z :=
  seal (PutByte 6 ++ PutShort 0 ++ PutByte IN_CHARGE ++ PutInteger (mLeaderID party) ++
        PutStringUTF (mLeaderName party)).
Definition WriteQuestInvite (questName : string) (questID : Z) : list Z :=
  seal (PutByte 6 ++ PutShort 0 ++ PutByte QUEST_INVITE ++ PutStringUTF questName ++
        PutInteger questID).
Definition WriteRejectInvite (memberDenied : string) : list Z :=
  seal (PutByte 6 ++ PutShort 0 ++ PutByte INVITE_REJECTED ++ PutStringUTF memberDenied).

(** The packet of [BroadcastAddMember]. *)
Definition WriteAddMember (creatureID : Z) (name : string) : list Z :=
  seal (PutByte 6 ++ PutShort 0 ++ PutByte ADD_MEMBER ++ PutInteger creatureID ++ PutStringUTF name).

(** [PVP.cpp]; [mGameType] is what is kept of a [PVPGame]. *)
Definition PVP_TEAM_UPDATED : Z := 2.
Definition PrepExt_PVPTeamAdd (mGameType : Z) (playerName : string) (playerID team : Z) : list Z :=
  seal (PutByte 80 ++ PutShort 0 ++ PutInteger PVP_TEAM_UPDATED ++ PutByte mGameType ++
        PutInteger playerID ++ PutByte team ++ PutStringUTF playerName).
Definition PrepExt_PVPTeamRemove (mGameType playerID : Z) : list Z :=
  seal (PutByte 80 ++ PutShort 0 ++ PutInteger PVP_TEAM_UPDATED ++ PutByte mGameType ++
        PutInteger playerID ++ PutByte 0).

(** ** One party *)

Definition IsOnline (m : PartyMember) : bool := negb (mSocket m =? Invalid_Socket).

Definition IsOnlineAndValid (e : Env) (m : PartyMember) : option bool :=
  if negb (IsOnline m) then Some false else
  match mCreaturePtr m with
  | None => Some false
  | Some ptr => c ← creature e ptr; Some (bool_decide (is_Some (simulator c)))
  end.

Definition BroadCast (e : Env) (p : ActiveParty) (packet : list Z) : Env :=
  fold_left (fun e m => if IsOnline m then emit e (ToSocket (mSocket m) packet) else e)
    (mMemberList p) e.

Definition BroadCastExcept (e : Env) (p : ActiveParty) (packet : list Z) (excludeDefID : Z) : Env :=
  fold_left (fun e m =>
    if negb (mCreatureDefID m =? excludeDefID) && IsOnline m
    then emit e (ToSocket (mSocket m) packet) else e) (mMemberList p) e.

(** The first online member with that identifier. *)
Definition BroadCastTo (e : Env) (p : ActiveParty) (packet : list Z) (creatureDefID : Z) : Env :=
  match find_idx (fun m => (mCreatureDefID m =? creatureDefID) && IsOnline m) (mMemberList p)
          ≫= fun i => mMemberList p !! i with
  | Some m => emit e (ToSocket (mSocket m) packet)
  | None => e
  end.

Definition BroadcastInfoMessageToAllMembers (e : Env) (p : ActiveParty) (message : string) : Env :=
  BroadCast e p (PrepExt_SendInfoMessage message INFOMSG_INFO).

Definition HasMember (p : ActiveParty) (memberDefID : Z) : bool :=
  existsb (fun m => mCreatureDefID m =? memberDefID) (mMemberList p).

Definition GetMemberByID (p : ActiveParty) (memberID : Z) : option nat :=
  find_idx (fun m => mCreatureID m =? memberID) (mMemberList p).
Definition GetMemberByDefID (p : ActiveParty) (memberDefID : Z) : option nat :=
  find_idx (fun m => mCreatureDefID m =? memberDefID) (mMemberList p).

(** Tell the instance about a team change when a game is on. *)
Definition pvp_notify (e : Env) (p : ActiveParty) (c : Creature) (packet : Z -> list Z) : Env :=
  match pvpGame c with
  | Some g => if negb (mPVPTeam p =? PVPTeams_NONE) then emit e (ToInstance (actInst c) (packet g)) else e
  | None => e
  end.

Definition AddMember (e : Env) (p : ActiveParty) (member : Z) : option (Env * ActiveParty) :=
  c ← creature e member;
  if HasMember p (CreatureDefID c) then Some (e, p) else
  socket ← simulator c;
  let newMember := mkMember (CreatureDefID c) (CreatureID c) (display_name c) (Some member)
                     (Some (charPtr c)) socket in
  let e1 := set_creature_party e member (mPartyID p) in
  let e2 := pvp_notify e1 p c (fun g =>
              PrepExt_PVPTeamAdd g (display_name c) (CreatureID c) (mPVPTeam p)) in
  Some (e2, set_members p (mMemberList p ++ [newMember])).

Definition RemoveMember (e : Env) (p : ActiveParty) (memberDefID : Z) : option (Env * ActiveParty) :=
  match GetMemberByDefID p memberDefID with
  | None => Some (e, p)
  | Some i =>
      m ← mMemberList p !! i;
      e' ← match mCreaturePtr m with
           | None => Some e
           | Some ptr =>
               c ← creature e ptr;
               Some (set_creature_party
                 (pvp_notify e p c (fun g => PrepExt_PVPTeamRemove g (CreatureID c))) ptr 0)
           end;
      Some (e', set_members p (delete i (mMemberList p)))
  end.

Definition UpdateLeaderDropped (p : ActiveParty) (memberID : Z) : bool * ActiveParty :=
  if negb (memberID =? mLeaderID p) then (false, p) else
  match mMemberList p with
  | [] => (false, p)
  | m :: _ => (true, set_leader p (mCreatureDefID m) (mCreatureID m) (mDisplayName m))
  end.

Definition SetLeader (p : ActiveParty) (newLeaderDefID : Z) : bool * ActiveParty :=
  match GetMemberByDefID p newLeaderDefID ≫= fun i => mMemberList p !! i with
  | None => (false, p)
  | Some m => (true, set_leader p (mCreatureDefID m) (mCreatureID m) (mDisplayName m))
  end.

(** The loop of [GetNextLooter]: [fuel] turns are left of one per member. *)
Fixpoint next_looter (fuel : nat) (e : Env) (p : ActiveParty) : option (option nat * ActiveParty) :=
  match fuel with
  | O => Some (None, p)
  | S fuel' =>
      let size := Z.of_nat (length (mMemberList p)) in
      let p1 := if size <=? mNextToGetLoot p then set_next p 0 else p in
      if size <=? mNextToGetLoot p1 then Some (None, p1) else
      let p2 := set_next p1 (u32 (mNextToGetLoot p1 + 1)) in
      let i := Z.to_nat (mNextToGetLoot p2 - 1) in
      m ← mMemberList p !! i;
      valid ← IsOnlineAndValid e m;
      if (valid : bool) then Some (Some i, p2) else next_looter fuel' e p2
  end.

Definition GetNextLooter (e : Env) (p : ActiveParty) : option (option nat * ActiveParty) :=
  next_looter (length (mMemberList p)) e p.

Definition refresh_member (ptr : Z) (c : Creature) (socket : Z) (m : PartyMember) : PartyMember :=
  mkMember (mCreatureDefID m) (CreatureID c) (mDisplayName m) (Some ptr) (Some (charPtr c)) socket.

(** [simulatorPtr] is only read when the member is found. *)
Definition party_UpdatePlayerReferences (e : Env) (p : ActiveParty) (member : Z)
    : option (bool * ActiveParty) :=
  c ← creature e member;
  let p1 := if mLeaderDefID p =? CreatureDefID c
            then set_leader p (mLeaderDefID p) (CreatureID c) (mLeaderName p) else p in
  match GetMemberByDefID p1 (CreatureDefID c) with
  | None => Some (false, p1)
  | Some i =>
      socket ← simulator c;
      Some (true, set_members p1 (alter (refresh_member member c socket) i (mMemberList p1)))
  end.

Fixpoint online_count (e : Env) (l : list PartyMember) : option Z :=
  match l with
  | [] => Some 0
  | m :: l' =>
      v ← IsOnlineAndValid e m;
      n ← online_count e l';
      Some (if (v : bool) then n + 1 else n)
  end.
Definition GetOnlineMemberCount (e : Env) (p : ActiveParty) : option Z := online_count e (mMemberList p).

Fixpoint rebroadcast (e : Env) (p : ActiveParty) (l : list PartyMember) : option Env :=
  match l with
  | [] => Some e
  | m :: l' =>
      v ← IsOnlineAndValid e m;
      rebroadcast (if (v : bool) then emit e (ToSocket (mSocket m) (WriteMemberList p (mCreatureID m))) else e)
        p l'
  end.
Definition RebroadCastMemberList (e : Env) (p : ActiveParty) : option Env :=
  rebroadcast e p (mMemberList p).

(** [mCreaturePtr->PartyID = 0] for every member that has a creature. *)
Fixpoint clear_parties (e : Env) (l : list PartyMember) : option Env :=
  match l with
  | [] => Some e
  | m :: l' =>
      match mCreaturePtr m with
      | None => clear_parties e l'
      | Some ptr => _ ← creature e ptr; clear_parties (set_creature_party e ptr 0) l'
      end
  end.

Definition Disband (e : Env) (p : ActiveParty) : option (Env * ActiveParty) :=
  match mMemberList p with
  | [] => Some (e, p)
  | _ =>
      e1 ← clear_parties e (mMemberList p);
      Some (BroadCast e1 p WriteLeftParty, set_members p [])
  end.

(** Sends and clears member by member. *)
Fixpoint debug_destroy (e : Env) (l : list PartyMember) (packet : list Z) : option Env :=
  match l with
  | [] => Some e
  | m :: l' =>
      let e1 := if IsOnline m then emit e (ToSocket (mSocket m) packet) else e in
      match mCreaturePtr m with
      | None => debug_destroy e1 l' packet
      | Some ptr => _ ← creature e1 ptr; debug_destroy (set_creature_party e1 ptr 0) l' packet
      end
  end.
Definition DebugDestroyParty (e : Env) (p : ActiveParty) (packet : list Z) : option (Env * ActiveParty) :=
  e1 ← debug_destroy e (mMemberList p) packet; Some (e1, set_members p []).

Fixpoint max_level (e : Env) (l : list PartyMember) (highest : Z) : option Z :=
  match l with
  | [] => Some highest
  | m :: l' =>
      match mCreaturePtr m with
      | None => max_level e l' highest
      | Some ptr =>
          c ← creature e ptr;
          max_level e l' (if highest <? level c then level c else highest)
      end
  end.
Definition GetMaxPlayerLevel (e : Env) (p : ActiveParty) : option Z := max_level e (mMemberList p) 0.

(** *** Loot tags *)

Definition GetTag (p : ActiveParty) (itemId creatureId : Z) : LootTag :=
  match find_idx (fun t : Z * LootTag => (mItemId t.2 =? itemId) && (mCreatureId t.2 =? creatureId))
          (lootTags p) ≫= fun i => lootTags p !! i with
  | Some t => t.2
  | None => LootTag_Clear
  end.

Definition RemoveTagsForLootCreatureId (p : ActiveParty) (lootCreatureId itemId creatureId : Z)
    : ActiveParty :=
  set_tags p (List.filter (fun t => negb ((mLootCreatureId t.2 =? lootCreatureId)
    && ((itemId =? 0) || (mItemId t.2 =? itemId))
    && ((creatureId =? 0) || (mCreatureId t.2 =? creatureId)))) (lootTags p)).

Definition HasTags (p : ActiveParty) (lootCreatureID itemId : Z) : bool :=
  existsb (fun t => (mLootCreatureId t.2 =? lootCreatureID) && (mItemId t.2 =? itemId)) (lootTags p).

Definition RemoveCreatureTags (p : ActiveParty) (itemId creatureId : Z) : ActiveParty :=
  set_tags p (List.filter (fun t => negb (((itemId =? -1) || (mItemId t.2 =? itemId))
    && (mCreatureId t.2 =? creatureId))) (lootTags p)).

(** [lootTags[key] = tag]. *)
Fixpoint assign_key (key : Z) (tag : LootTag) (l : list (Z * LootTag)) : list (Z * LootTag) :=
  match l with
  | [] => [(key, tag)]
  | (k, t) :: l' =>
      if k =? key then (key, tag) :: l'
      else if key <? k then (key, tag) :: l
      else (k, t) :: assign_key key tag l'
  end.

(** The tag, the party and the new [lootSeq]. *)
Definition TagItem (lootSeq : Z) (p : ActiveParty) (itemId creatureId lootCreatureId slot : Z)
    : LootTag * ActiveParty * Z :=
  let lootSeq := i32 (lootSeq + 1) in
  let tag := mkTag lootSeq itemId creatureId lootCreatureId slot false in
  (tag, set_tags p (assign_key (lootTag tag) tag (lootTags p)), lootSeq).

Definition forget_member (disconnect : bool) (m : PartyMember) : PartyMember :=
  if disconnect
  then mkMember (mCreatureDefID m) (mCreatureID m) (mDisplayName m) None None Invalid_Socket
  else mkMember (mCreatureDefID m) (mCreatureID m) (mDisplayName m) None (mCharPtr m) (mSocket m).

Definition party_RemovePlayerReferences (p : ActiveParty) (memberDefID : Z) (disconnect : bool)
    : bool * ActiveParty :=
  let p1 := RemoveCreatureTags p (-1) memberDefID in
  match GetMemberByDefID p1 memberDefID with
  | None => (false, p1)
  | Some i => (true, set_members p1 (alter (forget_member disconnect) i (mMemberList p1)))
  end.

(** ** The manager *)

Record PartyManager := mkPartyManager {
  env : Env;
  mPartyList : list ActiveParty;
  nextPartyID : Z;
  lootSeq : Z
}.

Definition PartyManager_new (e : Env) : PartyManager := mkPartyManager e [] 1 0.

Definition set_env (w : PartyManager) (e : Env) : PartyManager :=
  mkPartyManager e (mPartyList w) (nextPartyID w) (lootSeq w).
Definition set_parties (w : PartyManager) (l : list ActiveParty) : PartyManager :=
  mkPartyManager (env w) l (nextPartyID w) (lootSeq w).

(** Party [i] and the surroundings replaced. *)
Definition store (w : PartyManager) (i : nat) (r : Env * ActiveParty) : PartyManager :=
  mkPartyManager r.1 (<[i := r.2]> (mPartyList w)) (nextPartyID w) (lootSeq w).

Definition GetNextPartyID (w : PartyManager) : Z * PartyManager :=
  (nextPartyID w, mkPartyManager (env w) (mPartyList w) (i32 (nextPartyID w + 1)) (lootSeq w)).

Definition GetPartyByLeader (w : PartyManager) (leaderDefID : Z) : option nat :=
  find_idx (fun p => mLeaderDefID p =? leaderDefID) (mPartyList w).
Definition GetPartyByID (w : PartyManager) (partyID : Z) : option nat :=
  find_idx (fun p => mPartyID p =? partyID) (mPartyList w).
Definition GetPartyWithMember (w : PartyManager) (memberDefID : Z) : option nat :=
  find_idx (fun p => HasMember p memberDefID) (mPartyList w).

(** The new party is the last one. *)
Definition CreateParty (w : PartyManager) (leader : Creature) : nat * PartyManager :=
  let newParty := set_leader ActiveParty_new (CreatureDefID leader) (CreatureID leader)
                    (display_name leader) in
  (length (mPartyList w), set_parties w (mPartyList w ++ [newParty])).

Definition AcceptInvite (w : PartyManager) (member leader : Z) : option (Z * PartyManager) :=
  l ← creature (env w) leader;
  match GetPartyByLeader w (CreatureDefID l) with
  | None =>
      let '(i, w1) := CreateParty w l in
      let '(id, w2) := GetNextPartyID w1 in
      p ← mPartyList w2 !! i;
      r1 ← AddMember (env w2) (set_mPartyID p id) leader;
      r2 ← AddMember r1.1 r1.2 member;
      e3 ← RebroadCastMemberList r2.1 r2.2;
      Some (1, store w2 i (e3, r2.2))
  | Some i =>
      p ← mPartyList w !! i;
      r ← AddMember (env w) p member;
      Some (2, store w i r)
  end.

Definition BroadcastAddMember (w : PartyManager) (member : Z) : option PartyManager :=
  c ← creature (env w) member;
  match GetPartyByID w (PartyID c) ≫= fun i => mPartyList w !! i with
  | None => Some w
  | Some p => Some (set_env w (BroadCastExcept (env w) p
                     (WriteAddMember (CreatureID c) (display_name c)) (CreatureDefID c)))
  end.

Definition DeletePartyByID (w : PartyManager) (partyID : Z) : PartyManager :=
  match GetPartyByID w partyID with
  | None => w
  | Some i => set_parties w (delete i (mPartyList w))
  end.

(** The loop over the copied member list. *)
Fixpoint disband_loop (e : Env) (p : ActiveParty) (l : list PartyMember) : option (Env * ActiveParty) :=
  match l with
  | [] => Some (e, p)
  | m :: l' =>
      if negb (mCreatureID m =? mLeaderID p) then
        r ← RemoveMember e p (mCreatureDefID m);
        let e1 := BroadCast r.1 r.2 (WriteRemoveMember (mCreatureID m)) in
        let '(dropped, p2) := UpdateLeaderDropped r.2 (mCreatureID m) in
        let e2 := if (dropped : bool) then BroadCast e1 p2 (WriteInCharge p2) else e1 in
        disband_loop e2 p2 l'
      else disband_loop e p l'
  end.

Definition DoDisband (w : PartyManager) (PartyID : Z) : option (bool * PartyManager) :=
  match GetPartyByID w PartyID with
  | None => Some (false, w)
  | Some i =>
      p ← mPartyList w !! i;
      r ← disband_loop (env w) p (mMemberList p);
      let w1 := store w i r in
      Some (true, if (length (mMemberList r.2) =? 0)%nat then DeletePartyByID w1 PartyID else w1)
  end.

(** What [DoQuit] and [DoKick] do once the member is out: dissolve a party of
    one, or announce the removal ([announce]) and replace a leader that left.
    [gone] is the identifier handed to [UpdateLeaderDropped]. *)
Definition after_removal (w : PartyManager) (i : nat) (PartyID : Z) (r : Env * ActiveParty)
    (announce : Env -> ActiveParty -> Env) (gone : Z) : option PartyManager :=
  if (length (mMemberList r.2) <=? 1)%nat then
    r' ← Disband r.1 r.2;
    Some (DeletePartyByID (store w i r') PartyID)
  else
    let e1 := announce r.1 r.2 in
    let '(dropped, p2) := UpdateLeaderDropped r.2 gone in
    let e2 := if (dropped : bool) then BroadCast e1 p2 (WriteInCharge p2) else e1 in
    let w1 := store w i (e2, p2) in
    Some (if (length (mMemberList p2) =? 0)%nat then DeletePartyByID w1 PartyID else w1).

Definition DoQuit (w : PartyManager) (member : Z) : option (bool * PartyManager) :=
  c ← creature (env w) member;
  let w0 := set_env w (set_creature_party (env w) member 0) in
  match GetPartyByID w0 (PartyID c) with
  | None => Some (false, w0)
  | Some i =>
      p ← mPartyList w0 !! i;
      r ← RemoveMember (env w0) p (CreatureDefID c);
      w' ← after_removal w0 i (PartyID c) r
             (fun e p => BroadCast e p (WriteRemoveMember (CreatureID c))) (CreatureID c);
      Some (true, w')
  end.

(** Its body is commented out: the leader is not told. *)
Definition DoRejectInvite (w : PartyManager) (leaderDefID : Z) (nameDenied : string) : PartyManager := w.

Definition DoSetLeader (w : PartyManager) (callMember newLeaderID : Z) : option PartyManager :=
  c ← creature (env w) callMember;
  match GetPartyByID w (PartyID c) with
  | None => Some w
  | Some i =>
      p ← mPartyList w !! i;
      if negb (mLeaderID p =? CreatureID c) then Some w else
      match GetMemberByID p newLeaderID ≫= fun k => mMemberList p !! k with
      | None => Some w
      | Some member =>
          let '(done, p') := SetLeader p (mCreatureDefID member) in
          Some (if (done : bool) then store w i (BroadCast (env w) p' (WriteInCharge p'), p')
                else store w i (env w, p'))
      end
  end.

(** [member] points into [mMemberList], from which [RemoveMember] then erases
    that element; [member->mCreatureID] is read again afterwards. It is the
    element that has moved to its place, or, when the last one was erased, what
    is left in the memory behind the list: [stale]. *)
Definition reread (p : ActiveParty) (k : nat) (stale : Z) : Z :=
  match mMemberList p !! k with Some m => mCreatureID m | None => stale end.

Definition DoKick (stale : Z) (w : PartyManager) (caller memberID : Z) : option PartyManager :=
  c ← creature (env w) caller;
  match GetPartyByID w (PartyID c) with
  | None => Some w
  | Some i =>
      p ← mPartyList w !! i;
      if negb (mLeaderID p =? CreatureID c) then Some w else
      match GetMemberByID p memberID with
      | None => Some w
      | Some k =>
          member ← mMemberList p !! k;
          let e1 := BroadCastExcept (env w) p (WriteRemoveMember (mCreatureID member))
                      (mCreatureDefID member) in
          let e2 := BroadCastTo e1 p WriteLeftParty (mCreatureDefID member) in
          r ← RemoveMember e2 p (mCreatureDefID member);
          after_removal w i (PartyID c) r (fun e _ => e) (reread r.2 k stale)
      end
  end.

Definition DoQuestInvite (w : PartyManager) (caller : Z) (questName : string) (questID : Z)
    : option PartyManager :=
  c ← creature (env w) caller;
  match GetPartyByID w (PartyID c) ≫= fun i => mPartyList w !! i with
  | None => Some w
  | Some p => Some (set_env w (BroadCastExcept (env w) p (WriteQuestInvite questName questID)
                                 (CreatureDefID c)))
  end.

(** The loop over the parties up to the first that has the member: the parties
    before it may still have changed their leader's identifier. *)
Fixpoint update_references (e : Env) (l : list ActiveParty) (member : Z)
    : option (option nat * list ActiveParty) :=
  match l with
  | [] => Some (None, [])
  | p :: l' =>
      r ← party_UpdatePlayerReferences e p member;
      if (r.1 : bool) then Some (Some 0%nat, r.2 :: l')
      else r' ← update_references e l' member; Some (option_map S r'.1, r.2 :: r'.2)
  end.

Definition UpdatePlayerReferences (w : PartyManager) (member : Z) : option PartyManager :=
  r ← update_references (env w) (mPartyList w) member;
  match r.1 ≫= fun i => r.2 !! i with
  | None => Some (set_parties w r.2)
  | Some p => Some (mkPartyManager (set_creature_party (env w) member (mPartyID p)) r.2
                      (nextPartyID w) (lootSeq w))
  end.

Definition CheckMemberLogin (w : PartyManager) (member : Z) : option PartyManager :=
  r ← update_references (env w) (mPartyList w) member;
  match r.1 ≫= fun i => r.2 !! i with
  | None => Some (set_parties w r.2)
  | Some p =>
      e ← RebroadCastMemberList (set_creature_party (env w) member (mPartyID p)) p;
      Some (mkPartyManager e r.2 (nextPartyID w) (lootSeq w))
  end.

Fixpoint remove_references (l : list ActiveParty) (memberDefID : Z) (disconnect : bool)
    : list ActiveParty :=
  match l with
  | [] => []
  | p :: l' =>
      let '(found, p') := party_RemovePlayerReferences p memberDefID disconnect in
      if (found : bool) then p' :: l' else p' :: remove_references l' memberDefID disconnect
  end.

Definition RemovePlayerReferences (w : PartyManager) (memberDefID : Z) (disconnect : bool)
    : PartyManager :=
  set_parties w (remove_references (mPartyList w) memberDefID disconnect).

Definition BroadCastPacket (w : PartyManager) (partyID : Z) (buffer : list Z) : PartyManager :=
  match GetPartyByID w partyID ≫= fun i => mPartyList w !! i with
  | None => w
  | Some p => set_env w (BroadCast (env w) p buffer)
  end.

Definition PrepMemberList (w : PartyManager) (partyID memberID : Z) : list Z :=
  match GetPartyByID w partyID ≫= fun i => mPartyList w !! i with
  | None => []
  | Some p => WriteMemberList p memberID
  end.

(** The loop of [DebugForceRemove]: a party without the caller that the caller
    leads is dissolved; a party with the caller loses them, and is dissolved
    when one member is left. *)
Fixpoint force_remove (e : Env) (l : list ActiveParty) (defID : Z) : option (Env * list ActiveParty) :=
  match l with
  | [] => Some (e, [])
  | p :: l' =>
      if negb (HasMember p defID) then
        if mLeaderDefID p =? defID then
          r ← Disband e p; Some (r.1, l')
        else r ← force_remove e l' defID; Some (r.1, p :: r.2)
      else
        r ← RemoveMember e p defID;
        if (length (mMemberList r.2) <=? 1)%nat then
          r' ← Disband r.1 r.2; Some (r'.1, l')
        else r' ← force_remove r.1 l' defID; Some (r'.1, r.2 :: r'.2)
  end.

Definition DebugForceRemove (w : PartyManager) (caller : Z) : option PartyManager :=
  c ← creature (env w) caller;
  r ← force_remove (set_creature_party (env w) caller 0) (mPartyList w) (CreatureDefID c);
  Some (mkPartyManager r.1 r.2 (nextPartyID w) (lootSeq w)).

Fixpoint destroy_parties (e : Env) (l : list ActiveParty) : option Env :=
  match l with
  | [] => Some e
  | p :: l' => r ← DebugDestroyParty e p WriteLeftParty; destroy_parties r.1 l'
  end.
Definition DebugDestroyParties (w : PartyManager) : option PartyManager :=
  e ← destroy_parties (env w) (mPartyList w);
  Some (mkPartyManager e [] (nextPartyID w) (lootSeq w)).

(** The part of the [accept.invite] command of [PlayerHandlers.cpp] that
    follows the lookup of the leader: join, send the list, announce. *)
Definition accept_invite_command (w : PartyManager) (creatureInstance leader : Z)
    : option (list Z * PartyManager) :=
  r ← AcceptInvite w creatureInstance leader;
  c ← creature (env r.2) creatureInstance;
  let packet := PrepMemberList r.2 (PartyID c) (CreatureID c) in
  w' ← BroadcastAddMember r.2 creatureInstance;
  Some (packet, w').

(** ** Lemmas *)

(** A member that loot can be offered to. *)
Definition available (e : Env) (m : PartyMember) : bool := default false (IsOnlineAndValid e m).

(** Every pointer of the list points to a creature. *)
Definition pointers_ok (e : Env) (l : list PartyMember) : Prop :=
  forall m ptr, m ∈ l -> mCreaturePtr m = Some ptr -> is_Some (creature e ptr).

Lemma IsOnlineAndValid_available e l m :
  pointers_ok e l -> m ∈ l -> IsOnlineAndValid e m = Some (available e m).
Proof.
  intros Hp Hm. unfold available, IsOnlineAndValid. destruct (negb (IsOnline m)); [done|].
  destruct (mCreaturePtr m) as [ptr|] eqn:E; [|done]. by destruct (Hp m ptr Hm E) as [c ->].
Qed.

(** The order in which the members are asked, starting at [s]. *)
Definition cyclic (n s f : nat) : list nat := map (fun j => (s + j) mod n)%nat (seq 0 f).

Lemma cyclic_S n s f : (0 < n)%nat -> (s < n)%nat ->
  cyclic n s (S f) = s :: cyclic n (S s mod n) f.
Proof.
  intros Hn Hs. unfold cyclic. cbn [seq map]. rewrite Nat.add_0_r, Nat.mod_small by done. f_equal.
  rewrite <- seq_shift, map_map. apply map_ext. intros j.
  rewrite Nat.Div0.add_mod_idemp_l. f_equal. lia.
Qed.

Definition available_at (e : Env) (p : ActiveParty) (i : nat) : bool :=
  match mMemberList p !! i with Some m => available e m | None => false end.

(** The member [GetNextLooter] starts with. *)
Definition next_start (p : ActiveParty) : nat :=
  if Z.of_nat (length (mMemberList p)) <=? mNextToGetLoot p then 0%nat
  else Z.to_nat (mNextToGetLoot p).

Lemma next_looter_spec e l : forall fuel p,
  mMemberList p = l -> l <> [] -> Z.of_nat (length l) < 2 ^ 31 -> 0 <= mNextToGetLoot p ->
  pointers_ok e l ->
  exists p', next_looter fuel e p =
    match find_idx (available_at e p) (cyclic (length l) (next_start p) fuel) with
    | Some k => let i := ((next_start p + k) mod length l)%nat in
                Some (Some i, set_next p (Z.of_nat i + 1))
    | None => Some (None, p')
    end /\ mMemberList p' = l.
Proof.
  induction fuel as [|fuel IH]; intros p Hl Hne Hlen Hn Hp; [by exists p|].
  assert (0 < length l)%nat as Hpos by (destruct l; simpl in *; [done|lia]).
  cbn [next_looter]. rewrite Hl.
  set (p1 := if Z.of_nat (length l) <=? mNextToGetLoot p then set_next p 0 else p).
  assert (mNextToGetLoot p1 = Z.of_nat (next_start p) /\ mMemberList p1 = l /\
          (next_start p < length l)%nat /\ (forall x, set_next p1 x = set_next p x))
    as (Hs & Hl1 & Hlt & Hset).
  { unfold p1, next_start. rewrite Hl. case_test; to_prop; simpl; (split_and!; [lia|done|lia|done]). }
  clearbody p1.
  rewrite Hs, (proj2 (Z.leb_gt _ _)) by lia.
  cbn [mNextToGetLoot set_next mMemberList]. 
  rewrite unsigned_id by (unfold in_unsigned; lia).
  replace (Z.to_nat (Z.of_nat (next_start p) + 1 - 1)) with (next_start p) by lia.
  destruct (lookup_lt_is_Some_2 l (next_start p) Hlt) as [m Hm]. rewrite Hm. simpl mbind.
  rewrite (IsOnlineAndValid_available e l) by (done || by eapply list_elem_of_lookup_2). simpl mbind.
  rewrite cyclic_S by done. cbn [find_idx]. unfold available_at at 1. rewrite Hl, Hm.
  destruct (available e m) eqn:Ea.
  { exists p. split; [|done]. cbn zeta. rewrite Nat.add_0_r, Nat.mod_small by done.
    by rewrite Hset. }
  set (p2 := set_next p1 (Z.of_nat (next_start p) + 1)).
  destruct (IH p2) as (p' & E & Hp'); [by unfold p2|done..|unfold p2; simpl; lia|done|].
  assert (next_start p2 = (S (next_start p) mod length l)%nat) as Hns.
  { unfold next_start at 1. unfold p2. cbn [mMemberList set_next mNextToGetLoot]. rewrite Hl1.
    case_test; to_prop.
    - replace (S (next_start p)) with (length l) by lia. by rewrite Nat.Div0.mod_same.
    - rewrite Nat.mod_small by lia. lia. }
  exists p'. split; [|done]. rewrite E, Hns.
  replace (available_at e p2) with (available_at e p)
    by (unfold available_at, p2; cbn [mMemberList set_next]; by rewrite Hl, Hl1).
  destruct (find_idx (available_at e p) (cyclic (length l) (S (next_start p) mod length l) fuel)) as [k|].
  2:{ reflexivity. }
  cbn [fmap option_fmap option_map].
  cbn zeta. rewrite Nat.Div0.add_mod_idemp_l.
  replace (S (next_start p) + k)%nat with (next_start p + S k)%nat by lia.
  assert (forall x, set_next p2 x = set_next p x) as -> by (intros x; by rewrite <- (Hset x)).
  done.
Qed.

Lemma elem_of_cyclic n s i : (0 < n)%nat -> (s < n)%nat -> (i < n)%nat -> i ∈ cyclic n s n.
Proof.
  intros Hn Hs Hi. unfold cyclic. apply list_elem_of_In, in_map_iff.
  destruct (decide (s <= i)%nat).
  - exists (i - s)%nat. split; [|apply in_seq; lia]. rewrite Nat.mod_small; lia.
  - exists (i + n - s)%nat. split; [|apply in_seq; lia].
    replace (s + (i + n - s))%nat with (i + 1 * n)%nat by lia.
    rewrite Nat.Div0.mod_add. by apply Nat.mod_small.
Qed.

(** ** Membership *)

Record party_ok (e : Env) (p : ActiveParty) : Prop := {
  po_def : NoDup (mCreatureDefID <$> mMemberList p);
  po_id : NoDup (mCreatureID <$> mMemberList p);
  po_leader : exists m, m ∈ mMemberList p /\ mCreatureDefID m = mLeaderDefID p /\
                mCreatureID m = mLeaderID p;
  po_ptr : pointers_ok e (mMemberList p)
}.

Lemma party_elem_of_delete {A} (l : list A) i x : x ∈ delete i l -> x ∈ l.
Proof.
  revert i. induction l as [|y l IH]; intros [|i]; simpl; intros H; [by apply not_elem_of_nil in H..| |].
  - by right.
  - apply elem_of_cons in H as [->|H]; [left|right; eauto].
Qed.

Lemma NoDup_fmap_delete {A B} (g : A -> B) (l : list A) i : NoDup (g <$> l) -> NoDup (g <$> delete i l).
Proof.
  revert i. induction l as [|x l IH]; intros [|i]; simpl; [done..| |].
  - by intros [_ ?]%list.NoDup_cons.
  - intros [Hx Hl]%list.NoDup_cons. apply list.NoDup_cons. split; [|by apply IH].
    intros (y & E & Hy%party_elem_of_delete)%list_elem_of_fmap. apply Hx. rewrite E.
    by apply list_elem_of_fmap_2.
Qed.

Lemma delete_lacks {A B} (g : A -> B) (l : list A) i x :
  NoDup (g <$> l) -> l !! i = Some x -> forall y, y ∈ delete i l -> g y <> g x.
Proof.
  revert i. induction l as [|z l IH]; intros [|i] Hnd Hi y Hy; simplify_eq/=.
  - apply list.NoDup_cons in Hnd as [Hx _]. intros E. apply Hx. rewrite <- E.
    by apply list_elem_of_fmap_2.
  - apply list.NoDup_cons in Hnd as [Hz Hnd]. apply elem_of_cons in Hy as [->|Hy]; [|by eapply IH].
    intros E. apply Hz. rewrite E. apply list_elem_of_fmap_2. by eapply list_elem_of_lookup_2.
Qed.

Lemma creature_set_party e ptr id q :
  is_Some (creature (set_creature_party e ptr id) q) <-> is_Some (creature e q).
Proof.
  unfold creature, set_creature_party. simpl. destruct (decide (q = ptr)) as [->|].
  - rewrite lookup_alter_eq. by rewrite fmap_is_Some.
  - by rewrite lookup_alter_ne.
Qed.

Lemma creatures_pvp_notify e p c f : creatures (pvp_notify e p c f) = creatures e.
Proof. unfold pvp_notify. destruct (pvpGame c); [|done]. by case_test. Qed.

(** [e'] has the creatures of [e], some of them taken out of their party. *)
Definition cleared (e e' : Env) : Prop :=
  (forall q, is_Some (creature e' q) <-> is_Some (creature e q)) /\
  forall q c', creature e' q = Some c' ->
    exists c, creature e q = Some c /\ (c' = c \/ c' = set_PartyID 0 c).

Lemma cleared_trans e1 e2 e3 : cleared e1 e2 -> cleared e2 e3 -> cleared e1 e3.
Proof.
  intros [D1 V1] [D2 V2]. split; [intros q; by rewrite D2, D1|].
  intros q c' (c2 & H2 & E2)%V2. destruct (V1 q c2 H2) as (c1 & H1 & E1). exists c1. split; [done|].
  destruct E2 as [->| ->], E1 as [->| ->]; auto.
Qed.

Lemma cleared_same e e' : creatures e' = creatures e -> cleared e e'.
Proof. unfold cleared, creature. intros ->. split; [done|]. eauto. Qed.

Lemma cleared_set e ptr : cleared e (set_creature_party e ptr 0).
Proof.
  split; [intros q; apply creature_set_party|]. intros q c'.
  unfold creature, set_creature_party. simpl. destruct (decide (q = ptr)) as [->|].
  - rewrite lookup_alter_eq. destruct (creatures e !! ptr); simpl; intros; simplify_eq. eauto.
  - rewrite lookup_alter_ne by done. eauto.
Qed.

Lemma cleared_zero e e' q c c' :
  cleared e e' -> creature e q = Some c -> PartyID c = 0 -> creature e' q = Some c' -> PartyID c' = 0.
Proof. intros [_ V] Hc Hz (c0 & H0 & [->| ->])%V; [congruence|done]. Qed.

Lemma creatures_BroadCast e p pk : creatures (BroadCast e p pk) = creatures e.
Proof.
  unfold BroadCast. generalize (mMemberList p). intros l. revert e.
  induction l as [|m l IH]; intros e; simpl; [done|]. rewrite IH. by case_test.
Qed.

(** [RemoveMember] of a member: what is left, and who exists. *)
Lemma RemoveMember_member e p k m :
  mMemberList p !! k = Some m -> NoDup (mCreatureDefID <$> mMemberList p) ->
  pointers_ok e (mMemberList p) ->
  exists e', RemoveMember e p (mCreatureDefID m) = Some (e', set_members p (delete k (mMemberList p)))
    /\ cleared e e'.
Proof.
  intros Hk Hnd Hp. unfold RemoveMember, GetMemberByDefID.
  destruct (find_idx _ _) as [i|] eqn:E.
  - apply find_idx_lookup in E as (m' & Hm' & E). to_prop.
    assert (i = k) as ->.
    { eapply (NoDup_lookup _ i k (mCreatureDefID m) Hnd); rewrite list_lookup_fmap.
      - rewrite Hm'. simpl. by rewrite E.
      - by rewrite Hk. }
    rewrite Hk. simpl mbind. destruct (mCreaturePtr m) as [ptr|] eqn:Eptr.
    + destruct (Hp m ptr) as [c Hc]; [by eapply list_elem_of_lookup_2|done|]. rewrite Hc. simpl.
      eexists. split; [reflexivity|]. eapply cleared_trans; [|apply cleared_set].
      apply cleared_same, creatures_pvp_notify.
    + simpl. eexists. split; [done|]. by apply cleared_same.
  - exfalso. apply find_idx_None in E. apply (Forall_lookup_1 _ _ _ _ E) in Hk. by to_prop.
Qed.

Lemma pointers_ok_cleared e e' l l' :
  pointers_ok e l -> cleared e e' -> (forall m, m ∈ l' -> m ∈ l) -> pointers_ok e' l'.
Proof. intros Hp [Hd _] Hl m ptr Hm E. apply Hd. eapply Hp; eauto. Qed.

(** Every member's creature ends up without a party. *)
Lemma clear_parties_ok e l :
  pointers_ok e l ->
  exists e', clear_parties e l = Some e' /\ cleared e e' /\
    forall m ptr c, m ∈ l -> mCreaturePtr m = Some ptr -> creature e' ptr = Some c -> PartyID c = 0.
Proof.
  revert e. induction l as [|m l IH]; intros e Hp; cbn [clear_parties].
  { exists e. split_and!; [done|by apply cleared_same|]. by intros m ptr c ?%not_elem_of_nil. }
  assert (pointers_ok e l) as Hpl by (intros x ptr Hx; apply Hp; by right).
  destruct (mCreaturePtr m) as [ptr|] eqn:E.
  - destruct (Hp m ptr) as [c0 Hc0]; [by left|done|]. rewrite Hc0. simpl.
    destruct (IH (set_creature_party e ptr 0)) as (e' & -> & Hcl & Hz).
    { by eapply pointers_ok_cleared; [|apply cleared_set|]. }
    exists e'. split_and!; [done|by eapply cleared_trans; [apply cleared_set|]|].
    intros x q c [->|Hx]%elem_of_cons Eq Hc; [|by eapply Hz]. simplify_eq.
    eapply (cleared_zero _ _ ptr (set_PartyID 0 c0)); [exact Hcl| |done|done].
    unfold creature, set_creature_party. simpl. rewrite lookup_alter_eq.
    unfold creature in Hc0. by rewrite Hc0.
  - destruct (IH e Hpl) as (e' & -> & Hcl & Hz). exists e'. split_and!; [done..|].
    intros x q c [->|Hx]%elem_of_cons Eq Hc; [congruence|by eapply Hz].
Qed.

(** Disbanding clears the party of every member. *)
Lemma Disband_clears e p : pointers_ok e (mMemberList p) ->
  exists e', Disband e p = Some (e', set_members p []) /\ cleared e e' /\
    forall x ptr c', x ∈ mMemberList p -> mCreaturePtr x = Some ptr -> creature e' ptr = Some c' ->
      PartyID c' = 0.
Proof.
  intros Hptr. unfold Disband. destruct (mMemberList p) as [|x l] eqn:El.
  - exists e. split; [|split; [by apply cleared_same|by intros x ptr c' ?%not_elem_of_nil]].
    destruct p; simpl in El; by subst.
  - destruct (clear_parties_ok e (x :: l) Hptr) as (e2 & -> & Hcl2 & Hz).
    eexists. split; [reflexivity|]. split.
    + eapply cleared_trans; [exact Hcl2|]. by apply cleared_same, creatures_BroadCast.
    + intros y ptr c' Hy Hyp Hc'. eapply Hz; [done..|].
      unfold creature in *. by rewrite creatures_BroadCast in Hc'.
Qed.

(** Replacing party [i] by one with the same identifier keeps its place. *)
Lemma find_idx_insert {A} (f : A -> bool) l i x :
  find_idx f l = Some i -> f x = true -> find_idx f (<[i := x]> l) = Some i.
Proof.
  revert i. induction l as [|y l IH]; intros i; simpl; [done|].
  destruct (f y) eqn:E.
  - intros [= <-] Hx. simpl. by rewrite Hx.
  - destruct (find_idx f l) as [j|]; [|done]. intros [= <-] Hx. simpl. rewrite E.
    by rewrite (IH j eq_refl Hx).
Qed.

Lemma DeletePartyByID_store w i r id :
  GetPartyByID w id = Some i -> mPartyID r.2 = id ->
  DeletePartyByID (store w i r) id = set_parties (store w i r) (delete i (mPartyList w)).
Proof.
  intros Hi Hr. unfold DeletePartyByID, GetPartyByID. cbn [mPartyList store].
  rewrite (find_idx_insert _ _ i) by (done || by apply Z.eqb_eq). f_equal.
  clear. revert i. induction (mPartyList w) as [|x l IH]; intros [|i]; simpl; [done..|].
  f_equal. apply IH.
Qed.

(** The leader is still one of the members after [UpdateLeaderDropped], as the
    code means it: [gone] is the identifier of the member that left. *)
Lemma leader_after p k m :
  NoDup (mCreatureDefID <$> mMemberList p) -> NoDup (mCreatureID <$> mMemberList p) ->
  (exists x, x ∈ mMemberList p /\ mCreatureDefID x = mLeaderDefID p /\ mCreatureID x = mLeaderID p) ->
  mMemberList p !! k = Some m -> (1 < length (mMemberList p))%nat ->
  let p1 := set_members p (delete k (mMemberList p)) in
  let p2 := snd (UpdateLeaderDropped p1 (mCreatureID m)) in
  mMemberList p2 = delete k (mMemberList p) /\ mPartyID p2 = mPartyID p /\
  (exists x, x ∈ mMemberList p2 /\ mCreatureDefID x = mLeaderDefID p2 /\ mCreatureID x = mLeaderID p2) /\
  (mCreatureID m <> mLeaderID p -> mLeaderID p2 = mLeaderID p).
Proof.
  intros Hnd1 Hnd2 (x & Hx & Hx1 & Hx2) Hk Hlen. cbn zeta. unfold UpdateLeaderDropped.
  cbn [mLeaderID set_members mMemberList].
  destruct (mCreatureID m =? mLeaderID p) eqn:E; to_prop; simpl negb; cbv iota.
  - destruct (delete k (mMemberList p)) as [|y l] eqn:Ed.
    { exfalso. apply (f_equal length) in Ed. rewrite length_delete in Ed by (by eexists).
      simpl in Ed. lia. }
    cbn [snd mMemberList set_leader set_members mPartyID mLeaderDefID mLeaderID].
    split_and!; [done..| |done]. exists y. split_and!; [by left|done..].
  - cbn [snd mMemberList set_members mPartyID mLeaderDefID mLeaderID].
    split_and!; [done..| |done]. exists x. split_and!; [|done..].
    apply list_elem_of_lookup in Hx as [j Hj].
    assert (j <> k) as Hjk by (intros ->; simplify_eq; congruence).
    apply list_elem_of_lookup. destruct (decide (j < k)%nat).
    + exists j. by rewrite list_lookup_delete_lt.
    + exists (j - 1)%nat. rewrite list_lookup_delete_ge by lia.
      by replace (S (j - 1)) with j by lia.
Qed.

(** [AddMember] of someone who is not a member yet. *)
Lemma AddMember_new e p ptr c socket :
  creature e ptr = Some c -> simulator c = Some socket -> HasMember p (CreatureDefID c) = false ->
  exists e', AddMember e p ptr = Some (e', set_members p (mMemberList p ++
      [mkMember (CreatureDefID c) (CreatureID c) (display_name c) (Some ptr) (Some (charPtr c)) socket]))
    /\ creatures e' = alter (set_PartyID (mPartyID p)) ptr (creatures e).
Proof.
  intros Hc Hs Hm. unfold AddMember. rewrite Hc. cbn [mbind option_bind]. rewrite Hm, Hs.
  cbn [mbind option_bind]. eexists. split; [reflexivity|]. by rewrite creatures_pvp_notify.
Qed.

(** A party joined by someone new to it stays in order. *)
Lemma AddMember_party_ok e e' p ptr c socket :
  creature e ptr = Some c -> creatures e' = alter (set_PartyID (mPartyID p)) ptr (creatures e) ->
  HasMember p (CreatureDefID c) = false -> CreatureID c ∉ mCreatureID <$> mMemberList p ->
  party_ok e p ->
  party_ok e' (set_members p (mMemberList p ++
      [mkMember (CreatureDefID c) (CreatureID c) (display_name c) (Some ptr) (Some (charPtr c)) socket])).
Proof.
  intros Hc He Hm Hid [Hnd Hnd2 (m & Hin & Hl) Hptr].
  split; cbn [mMemberList set_members mLeaderDefID mLeaderID]; rewrite ?fmap_app.
  - apply list.NoDup_app. split_and!; [done| |apply NoDup_singleton].
    intros x Hx ->%list_elem_of_singleton. simpl in Hx.
    apply list_elem_of_fmap in Hx as (y & E & Hy).
    assert (HasMember p (CreatureDefID c) = true) as E'; [|congruence].
    unfold HasMember. apply existsb_exists. exists y.
    split; [by apply list_elem_of_In|]. by apply Z.eqb_eq.
  - apply list.NoDup_app. split_and!; [done| |apply NoDup_singleton].
    intros x Hx ->%list_elem_of_singleton. done.
  - exists m. split; [|done]. apply elem_of_app. by left.
  - intros x q Hx Hq. unfold creature. rewrite He.
    apply elem_of_app in Hx as [Hx|Hx%list_elem_of_singleton].
    + destruct (Hptr x q Hx Hq) as (cq & Hcq). unfold creature in Hcq.
      destruct (decide (q = ptr)) as [->|]; [rewrite lookup_alter_eq|rewrite lookup_alter_ne by done];
        rewrite Hcq; simpl; eauto.
    + subst x. simpl in Hq. injection Hq as <-. rewrite lookup_alter_eq. unfold creature in Hc.
      rewrite Hc. simpl. eauto.
Qed.

Lemma rebroadcast_ok e p l : pointers_ok e l -> exists e', rebroadcast e p l = Some e' /\ creatures e' = creatures e.
Proof.
  revert e. induction l as [|m l IH]; intros e Hp; simpl; [by exists e|].
  rewrite (IsOnlineAndValid_available e (m :: l)) by (done || by left). cbn [mbind option_bind].
  assert (pointers_ok e l) as Hpl by (intros x ptr Hx; apply Hp; by right).
  destruct (IH (if available e m then emit e (ToSocket (mSocket m) (WriteMemberList p (mCreatureID m)))
                else e)) as (e' & -> & He'); [by case_test|].
  exists e'. split; [done|]. rewrite He'. by case_test.
Qed.

(** The loop of [DoDisband] removes everyone but the leader. *)
Definition leads (p : ActiveParty) (m : PartyMember) : bool := mCreatureID m =? mLeaderID p.

Lemma disband_loop_spec p l : forall e done_,
  NoDup (mCreatureDefID <$> done_ ++ l) -> pointers_ok e (done_ ++ l) ->
  exists e', disband_loop e (set_members p (done_ ++ l)) l
    = Some (e', set_members p (done_ ++ List.filter (leads p) l)) /\ cleared e e'.
Proof.
  induction l as [|m l IH]; intros e done_ Hnd Hp; cbn [disband_loop List.filter].
  { exists e. split; [done|by apply cleared_same]. }
  cbn [mLeaderID set_members]. unfold leads at 1.
  destruct (mCreatureID m =? mLeaderID p) eqn:E; cbn [negb].
  - destruct (IH e (done_ ++ [m])) as (e' & H & Hcl); [by rewrite <- app_assoc..|].
    rewrite <- !app_assoc in H. by exists e'.
  - assert (mMemberList (set_members p (done_ ++ m :: l)) !! length done_ = Some m) as Hk
      by (cbn [mMemberList set_members]; by rewrite list_lookup_middle).
    destruct (RemoveMember_member e _ _ m Hk Hnd Hp) as (e1 & -> & Hcl1).
    cbn [mbind option_bind fst snd mMemberList set_members]. rewrite delete_middle.
    unfold UpdateLeaderDropped. cbn [mLeaderID set_members]. rewrite E. cbn [negb].
    set (e2 := BroadCast e1 _ _).
    assert (cleared e e2) as Hcl2
      by (eapply cleared_trans; [exact Hcl1|]; apply cleared_same, creatures_BroadCast).
    destruct (IH e2 done_) as (e' & H & Hcl).
    + rewrite fmap_app in *. simpl in Hnd. rewrite <- Permutation_middle in Hnd.
      by apply list.NoDup_cons in Hnd as [_ ?].
    + eapply pointers_ok_cleared; [exact Hp|done|]. intros x [Hx|Hx]%elem_of_app; apply elem_of_app;
        [by left|right; by right].
    + exists e'. split; [exact H|by eapply cleared_trans].
Qed.

(** ** Properties *)

(** Three players in two parties' worth of world for the witnesses: creatures
    at 1, 2, 3 with sockets 11, 12, 13, and 4 who is in no party. *)
Definition example_creature (n party : Z) : Creature :=
  mkCreature (100 + n) (200 + n) party "P" 5 n (Some (10 + n)) 1 None.
Definition example_member (n : Z) : PartyMember :=
  mkMember (100 + n) (200 + n) "P" (Some n) (Some n) (10 + n).
Definition example_env : Env :=
  mkEnv {[ 1 := example_creature 1 7; 2 := example_creature 2 7; 3 := example_creature 3 7;
           4 := example_creature 4 0 ]} [].
Definition example_party : ActiveParty :=
  mkParty 7 102 202 ROUND_ROBIN 0 2 "P" [example_member 3; example_member 1; example_member 2] [] 0.
Definition example_world : PartyManager := mkPartyManager example_env [example_party] 8 0.

Lemma example_party_ok : party_ok example_env example_party.
Proof.
  split.
  - apply (bool_decide_unpack (NoDup _)). vm_compute. exact I.
  - apply (bool_decide_unpack (NoDup _)). vm_compute. exact I.
  - exists (example_member 2). split; [by right; right; left|done].
  - intros m ptr Hm. repeat (apply elem_of_cons in Hm as [->|Hm]; [intros [= <-]; vm_compute; eauto|]).
    by apply not_elem_of_nil in Hm.
Qed.

(** Round-robin loot goes to the first member, counting cyclically from the
    one after the last winner, that is online with a simulator; the search fails
    exactly when no member is, and the next search starts behind the winner. *)
Theorem GetNextLooter_round_robin (e : Env) (p : ActiveParty)
    (Hne : mMemberList p <> []) (Hlen : Z.of_nat (length (mMemberList p)) < 2 ^ 31)
    (Hnext : 0 <= mNextToGetLoot p) (Hptr : pointers_ok e (mMemberList p)) :
  let n := length (mMemberList p) in
  exists r p', GetNextLooter e p = Some (r, p') /\ mMemberList p' = mMemberList p /\
    match r with
    | Some i => exists k, find_idx (available_at e p) (cyclic n (next_start p) n) = Some k /\
        i = ((next_start p + k) mod n)%nat /\ available_at e p i = true /\
        mNextToGetLoot p' = Z.of_nat i + 1
    | None => forall m, m ∈ mMemberList p -> available e m = false
    end.
Proof.
  intros n. assert (0 < n)%nat as Hpos by (unfold n; destruct (mMemberList p); simpl; [done|lia]).
  unfold GetNextLooter.
  destruct (next_looter_spec e (mMemberList p) n p eq_refl Hne Hlen Hnext Hptr) as (p' & E & Hp').
  fold n in E |- *. rewrite E. destruct (find_idx _ _) as [k|] eqn:Ek.
  - do 2 eexists. split; [reflexivity|]. split; [done|]. exists k. split_and!; [done..| |done].
    apply find_idx_lookup in Ek as (i & Hi & Ha). unfold cyclic in Hi.
    apply list_elem_of_lookup_2 in Hi as Hin. rewrite list_lookup_fmap in Hi.
    destruct (seq 0 n !! k) as [j|] eqn:Ej; [|done]. apply lookup_seq in Ej as [-> _].
    simplify_eq/=. done.
  - do 2 eexists. split; [reflexivity|]. split; [done|]. intros m Hm.
    apply list_elem_of_lookup in Hm as [i Hi]. apply find_idx_None in Ek.
    rewrite list.Forall_forall in Ek. specialize (Ek i). unfold available_at in Ek. rewrite Hi in Ek.
    apply Ek, elem_of_cyclic; [done| |by eapply lookup_lt_Some].
    unfold next_start, n. case_test; to_prop; lia.
Qed.

Lemma GetNextLooter_round_robin_witness :
  exists p', GetNextLooter example_env example_party = Some (Some 2%nat, p') /\ mNextToGetLoot p' = 3.
Proof.
  destruct (GetNextLooter_round_robin example_env example_party) as (r & p' & E & _ & H).
  - discriminate.
  - simpl. lia.
  - simpl. lia.
  - apply (po_ptr _ _ example_party_ok).
  - assert (r = Some 2%nat) as ->.
    { enough (fst <$> GetNextLooter example_env example_party = Some (Some 2%nat)) as H'
        by (rewrite E in H'; simpl in H'; congruence). vm_compute. reflexivity. }
    exists p'. split; [exact E|]. destruct H as (_ & _ & _ & _ & H). exact H.
Defined.

(** A member who quits is out of the party and has no party any more; a
    party of which one member would be left is dissolved, its last member's
    party cleared too; otherwise the others remain, in order, under a leader who
    is one of them, the old one unless the old one left. *)
Theorem DoQuit_leaves (w : PartyManager) (member : Z) (c : Creature) (i k : nat) (p : ActiveParty)
    (m : PartyMember) (Hc : creature (env w) member = Some c)
    (Hi : GetPartyByID w (PartyID c) = Some i) (Hp : mPartyList w !! i = Some p)
    (Hok : party_ok (env w) p) (Hk : mMemberList p !! k = Some m)
    (Hdef : mCreatureDefID m = CreatureDefID c) (Hid : mCreatureID m = CreatureID c) :
  exists w', DoQuit w member = Some (true, w') /\
    (forall c', creature (env w') member = Some c' -> PartyID c' = 0) /\
    if (length (mMemberList p) <=? 2)%nat then
      mPartyList w' = delete i (mPartyList w) /\
      forall x ptr c', x ∈ delete k (mMemberList p) -> mCreaturePtr x = Some ptr ->
        creature (env w') ptr = Some c' -> PartyID c' = 0
    else exists p', mPartyList w' = <[i := p']> (mPartyList w) /\
      mMemberList p' = delete k (mMemberList p) /\ party_ok (env w') p' /\
      HasMember p' (CreatureDefID c) = false /\
      (mLeaderID p <> CreatureID c -> mLeaderID p' = mLeaderID p).
Proof.
  destruct Hok as [Hnd Hnd2 Hlead Hptr].
  assert (mPartyID p = PartyID c) as HpID.
  { apply find_idx_lookup in Hi as (p' & Hp' & E). to_prop. congruence. }
  unfold DoQuit. rewrite Hc. cbn [mbind option_bind].
  change (GetPartyByID (set_env w _)) with (GetPartyByID w). rewrite Hi.
  cbn [mPartyList set_env env]. rewrite Hp. cbn [mbind option_bind].
  set (e0 := set_creature_party (env w) member 0).
  assert (cleared (env w) e0) as Hcl0 by apply cleared_set.
  assert (creature e0 member = Some (set_PartyID 0 c)) as Hc0.
  { unfold creature, e0, set_creature_party in *. simpl. by rewrite lookup_alter_eq, Hc. }
  destruct (RemoveMember_member e0 p k m Hk Hnd) as (e1 & Hrm & Hcl1).
  { by eapply pointers_ok_cleared. }
  rewrite Hdef in Hrm. rewrite Hrm. cbn [mbind option_bind]. unfold after_removal. cbn [fst snd].
  cbn [mMemberList set_members]. rewrite length_delete by (by eexists).
  assert (0 < length (mMemberList p))%nat as Hpos by (apply lookup_lt_Some in Hk; lia).
  destruct (length (mMemberList p) <=? 2)%nat eqn:E2.
  - apply Nat.leb_le in E2. rewrite (proj2 (Nat.leb_le _ 1)) by lia.
    destruct (Disband_clears e1 (set_members p (delete k (mMemberList p)))) as (e2 & -> & Hcl2 & Hz).
    { eapply pointers_ok_cleared; [exact Hptr|by eapply cleared_trans|apply party_elem_of_delete]. }
    cbn [mbind option_bind]. eexists. split; [reflexivity|].
    rewrite (DeletePartyByID_store (set_env w e0) i _ (PartyID c)) by done.
    cbn [mPartyList set_parties set_env store env fst]. split; [|split; [done|exact Hz]].
    intros c' Hc'. eapply (cleared_zero e0); [by eapply cleared_trans|exact Hc0|done|done].
  - apply Nat.leb_gt in E2. rewrite (proj2 (Nat.leb_gt _ 1)) by lia.
    destruct (leader_after p k m Hnd Hnd2 Hlead Hk ltac:(lia)) as (L1 & L2 & L3 & L4).
    rewrite Hid in *.
    destruct (UpdateLeaderDropped (set_members p (delete k (mMemberList p))) (CreatureID c))
      as [dropped p2] eqn:Eu. cbn [snd] in *.
    set (e2 := BroadCast e1 _ _). set (e3 := if dropped then _ else e2).
    assert (creatures e3 = creatures e1) as He3.
    { unfold e3, e2. destruct dropped; by rewrite ?creatures_BroadCast. }
    cbn [mbind option_bind]. rewrite L1, length_delete by (by eexists).
    rewrite (proj2 (Nat.eqb_neq _ 0)) by lia.
    eexists. split; [reflexivity|]. cbn [env store fst snd mPartyList set_env].
    assert (cleared e0 e3) as Hcl3.
    { eapply cleared_trans; [exact Hcl1|]. by apply cleared_same. }
    split.
    { intros c' Hc'. by eapply (cleared_zero e0 e3); [exact Hcl3|exact Hc0|..]. }
    exists p2. split; [done|]. split; [done|]. split_and!.
    + split.
      * rewrite L1. by apply NoDup_fmap_delete.
      * rewrite L1. by apply NoDup_fmap_delete.
      * exact L3.
      * rewrite L1. eapply pointers_ok_cleared; [exact Hptr| |apply party_elem_of_delete].
        by eapply cleared_trans.
    + apply not_true_is_false. unfold HasMember. intros (x & Hx & E)%existsb_exists.
      apply list_elem_of_In in Hx. rewrite L1 in Hx. to_prop. rewrite <- Hdef in E.
      exact (delete_lacks _ _ _ _ Hnd Hk x Hx E).
    + intros Hne. apply L4. done.
Qed.

Lemma DoQuit_leaves_witness :
  exists w', DoQuit example_world 2 = Some (true, w') /\
    forall c', creature (env w') 2 = Some c' -> PartyID c' = 0.
Proof.
  destruct (DoQuit_leaves example_world 2 (example_creature 2 7) 0 2 example_party (example_member 2))
    as (w' & E & H & _).
  - reflexivity.
  - reflexivity.
  - reflexivity.
  - exact example_party_ok.
  - reflexivity.
  - reflexivity.
  - reflexivity.
  - exists w'. split; [exact E|exact H].
Defined.

(** Kicking the member listed right before the leader costs the leader the
    lead: [DoKick] reads the kicked member's identifier after erasing it from
    the list, gets the leader's, and hands the party to whoever is first. *)
Theorem DoKick_deposes_leader (stale : Z) (w : PartyManager) (caller : Z) (c : Creature) (i : nat)
    (p : ActiveParty) (pre post : list PartyMember) (target leader : PartyMember)
    (Hc : creature (env w) caller = Some c) (Hi : GetPartyByID w (PartyID c) = Some i)
    (Hp : mPartyList w !! i = Some p) (Hok : party_ok (env w) p)
    (Hmem : mMemberList p = pre ++ target :: leader :: post) (Hpre : pre <> [])
    (Hlead : mLeaderID p = CreatureID c) (Hlm : mCreatureID leader = CreatureID c) :
  exists w' p' first, DoKick stale w caller (mCreatureID target) = Some w' /\
    mPartyList w' = <[i := p']> (mPartyList w) /\
    mMemberList p' = pre ++ leader :: post /\ head pre = Some first /\
    mLeaderID p' = mCreatureID first /\ mLeaderID p' <> CreatureID c.
Proof.
  destruct Hok as [Hnd Hnd2 _ Hptr]. rewrite Hmem in Hnd2.
  set (k := length pre).
  assert (mMemberList p !! k = Some target) as Hk by (rewrite Hmem; by rewrite list_lookup_middle).
  assert (GetMemberByID p (mCreatureID target) = Some k) as Hget.
  { unfold GetMemberByID. rewrite Hmem.
    destruct (find_idx _ _) as [j|] eqn:E.
    - apply find_idx_lookup in E as (x & Hx & E). to_prop. f_equal.
      eapply (NoDup_lookup _ j k (mCreatureID target) Hnd2); rewrite list_lookup_fmap.
      + rewrite Hx. simpl. by rewrite E.
      + by rewrite list_lookup_middle.
    - exfalso. apply find_idx_None in E. rewrite list.Forall_forall in E.
      specialize (E target ltac:(apply elem_of_app; right; by left)). by to_prop. }
  assert (delete k (mMemberList p) = pre ++ leader :: post) as Hdel.
  { rewrite Hmem. unfold k. by rewrite delete_middle. }
  destruct pre as [|first pre']; [done|].
  unfold DoKick. rewrite Hc. cbn [mbind option_bind]. rewrite Hi, Hp. cbn [mbind option_bind].
  rewrite Hlead, Z.eqb_refl. cbn [negb]. rewrite Hget, Hk. cbn [mbind option_bind].
  set (e2 := BroadCastTo _ _ _ _).
  assert (creatures e2 = creatures (env w)) as He2.
  { unfold e2, BroadCastTo. destruct (find_idx _ _ ≫= _); simpl.
    - unfold BroadCastExcept. clear. generalize (mMemberList p), (env w).
      intros l. induction l as [|x l IH]; intros e; simpl; [done|]. rewrite IH. by case_test.
    - unfold BroadCastExcept. clear. generalize (mMemberList p), (env w).
      intros l. induction l as [|x l IH]; intros e; simpl; [done|]. rewrite IH. by case_test. }
  destruct (RemoveMember_member e2 p k target Hk Hnd) as (e3 & -> & Hcl).
  { eapply pointers_ok_cleared; [exact Hptr|by apply cleared_same|done]. }
  cbn [mbind option_bind]. unfold after_removal. cbn [fst snd mMemberList set_members].
  rewrite Hdel. unfold reread. cbn [mMemberList set_members]. rewrite ?Hdel.
  replace ((first :: pre') ++ leader :: post) with (first :: pre' ++ leader :: post) by done.
  replace ((first :: pre' ++ leader :: post) !! k) with (Some leader)
    by (symmetry; exact (list_lookup_middle (first :: pre') post leader k eq_refl)).
  rewrite Hlm. unfold UpdateLeaderDropped. cbn [mLeaderID set_members mMemberList].
  rewrite Hlead, Z.eqb_refl. cbn [negb].
  assert ((length (first :: pre' ++ leader :: post) <=? 1)%nat = false) as ->.
  { apply Nat.leb_gt. simpl. rewrite length_app. simpl. lia. }
  cbn [length Nat.eqb mMemberList set_leader set_members].
  do 3 eexists. split; [reflexivity|]. cbn [mPartyList store snd].
  split; [reflexivity|]. cbn [mMemberList set_leader set_members mLeaderID head].
  split_and!; [done..|].
  intros E. rewrite fmap_app in Hnd2. simpl in Hnd2. apply list.NoDup_cons in Hnd2 as [Hf _].
  apply Hf. rewrite E, <- Hlm. apply elem_of_app. right. right. by left.
Qed.

Lemma DoKick_deposes_leader_witness :
  (** 2 leads the party 3, 1, 2 and kicks 1: now 3 leads *)
  exists w' p', DoKick 0 example_world 2 201 = Some w' /\
    mPartyList w' = [p'] /\ mLeaderID p' = 203.
Proof.
  destruct (DoKick_deposes_leader 0 example_world 2 (example_creature 2 7) 0 example_party
    [example_member 3] [] (example_member 1) (example_member 2)) as (w' & p' & f & E & Hl & _ & Hf & Hid & _).
  - reflexivity.
  - reflexivity.
  - reflexivity.
  - exact example_party_ok.
  - reflexivity.
  - discriminate.
  - reflexivity.
  - reflexivity.
  - exists w', p'. split; [exact E|]. split; [exact Hl|].
    rewrite Hid. simpl in Hf. injection Hf as <-. reflexivity.
Defined.

(** Accepting an invitation joins the party its sender leads, or founds one
    of the two when the sender leads none; the party is in order afterwards and
    both have its identifier. Nothing is asked about the parties they are in:
    all other parties keep their members, so that somebody who accepts twice,
    or a sender who is a member elsewhere, is listed in two parties. *)
Theorem AcceptInvite_joins (w : PartyManager) (member leader : Z) (cm cl : Creature) (sm sl : Z)
    (Hm : creature (env w) member = Some cm) (Hl : creature (env w) leader = Some cl)
    (Hsm : simulator cm = Some sm) (Hsl : simulator cl = Some sl) (Hne : member <> leader)
    (Hdef : CreatureDefID cm <> CreatureDefID cl) (Hid : CreatureID cm <> CreatureID cl) :
  match GetPartyByLeader w (CreatureDefID cl) with
  | None => exists w' p', AcceptInvite w member leader = Some (1, w') /\
      mPartyList w' = mPartyList w ++ [p'] /\ party_ok (env w') p' /\
      mPartyID p' = nextPartyID w /\ mLeaderDefID p' = CreatureDefID cl /\
      mCreatureDefID <$> mMemberList p' = [CreatureDefID cl; CreatureDefID cm] /\
      PartyID <$> creature (env w') member = Some (nextPartyID w) /\
      PartyID <$> creature (env w') leader = Some (nextPartyID w)
  | Some i => forall p, mPartyList w !! i = Some p -> HasMember p (CreatureDefID cm) = false ->
      CreatureID cm ∉ mCreatureID <$> mMemberList p -> party_ok (env w) p ->
      exists w' p', AcceptInvite w member leader = Some (2, w') /\
      mPartyList w' = <[i := p']> (mPartyList w) /\ party_ok (env w') p' /\
      mCreatureDefID <$> mMemberList p' = (mCreatureDefID <$> mMemberList p) ++ [CreatureDefID cm] /\
      PartyID <$> creature (env w') member = Some (mPartyID p)
  end.
Proof.
  unfold AcceptInvite. rewrite Hl. cbn [mbind option_bind].
  destruct (GetPartyByLeader w (CreatureDefID cl)) as [i|].
  - intros p Hp Hnot Hidn Hok. rewrite Hp. cbn [mbind option_bind].
    destruct (AddMember_new (env w) p member cm sm Hm Hsm Hnot) as (e' & -> & He').
    cbn [mbind option_bind]. do 2 eexists. split; [reflexivity|].
    cbn [mPartyList store fst snd env mMemberList set_members].
    split; [done|]. split; [by eapply AddMember_party_ok|]. cbn [mMemberList set_members]. rewrite fmap_app. split; [done|].
    unfold creature in *. rewrite He', lookup_alter_eq, Hm. done.
  - cbn [CreateParty GetNextPartyID set_parties mPartyList env nextPartyID]. rewrite lookup_app_r by lia.
    rewrite Nat.sub_diag. cbn [lookup list_lookup mbind option_bind].
    set (p0 := set_mPartyID _ (nextPartyID w)).
    destruct (AddMember_new (env w) p0 leader cl sl Hl Hsl eq_refl) as (e1 & -> & He1).
    cbn [mbind option_bind fst snd]. set (p1 := set_members p0 _).
    assert (creature e1 member = Some cm) as Hm1.
    { unfold creature in *. rewrite He1. by rewrite lookup_alter_ne. }
    assert (HasMember p1 (CreatureDefID cm) = false) as Hnot1.
    { unfold HasMember, p1. simpl. rewrite (proj2 (Z.eqb_neq _ _)) by congruence. done. }
    destruct (AddMember_new e1 p1 member cm sm Hm1 Hsm Hnot1) as (e2 & -> & He2).
    cbn [mbind option_bind fst snd]. set (p2 := set_members p1 _).
    assert (creature e2 member = Some (set_PartyID (nextPartyID w) cm)) as Hm2.
    { unfold creature in *. rewrite He2, lookup_alter_eq, Hm1. done. }
    assert (creature e2 leader = Some (set_PartyID (nextPartyID w) cl)) as Hl2.
    { unfold creature in *. rewrite He2, lookup_alter_ne, He1, lookup_alter_eq, Hl by done. done. }
    assert (pointers_ok e2 (mMemberList p2)) as Hptr.
    { intros x ptr Hx. simpl in Hx.
      repeat (apply elem_of_cons in Hx as [->|Hx]; [intros [= <-]; eauto|]).
      by apply not_elem_of_nil in Hx. }
    destruct (rebroadcast_ok e2 p2 (mMemberList p2) Hptr) as (e3 & H3 & He3).
    unfold RebroadCastMemberList. rewrite H3. cbn [mbind option_bind].
    do 2 eexists. split; [reflexivity|]. cbn [mPartyList store fst snd env].
    rewrite insert_app_r_alt by lia. rewrite Nat.sub_diag. simpl (<[_:=_]> [_]).
    split; [reflexivity|]. assert (forall q, creature e3 q = creature e2 q) as Hq
      by (intros q; unfold creature; by rewrite He3).
    split_and!; [|done..| |].
    + split; cbn [mMemberList p2 p1 set_members].
      * simpl. apply list.NoDup_cons. split; [|apply NoDup_singleton].
        intros ?%list_elem_of_singleton. congruence.
      * simpl. apply list.NoDup_cons. split; [|apply NoDup_singleton].
        intros ?%list_elem_of_singleton. congruence.
      * eexists. split; [by left|done].
      * intros x ptr Hx Ex. rewrite Hq. by eapply Hptr.
    + by rewrite Hq, Hm2.
    + by rewrite Hq, Hl2.
Qed.

Lemma AcceptInvite_joins_witness :
  (** 1 is a member of party 7, which 2 leads; 4 accepts an invitation of 1:
      1 is now in two parties *)
  exists w', AcceptInvite example_world 4 1 = Some (1, w') /\
    map (fun p => HasMember p 101) (mPartyList w') = [true; true].
Proof.
  destruct (AcceptInvite_joins example_world 4 1 (example_creature 4 0) (example_creature 1 7) 14 11
    eq_refl eq_refl eq_refl eq_refl ltac:(discriminate) ltac:(discriminate) ltac:(discriminate))
    as (w' & p' & E & Hl & _ & _ & _ & Hm & _).
  exists w'. split; [exact E|]. rewrite Hl.
  change (mPartyList example_world) with [example_party]. cbn [map app]. f_equal. f_equal.
  unfold HasMember. destruct (mMemberList p') as [|x [|y [|z l]]]; try discriminate Hm.
  cbn in Hm. injection Hm as Hx _. cbn [existsb]. rewrite Hx. reflexivity.
Defined.

(** Disbanding a party puts every member out but the leader: the party is
    kept, with the leader alone in it and still carrying its identifier. *)
Theorem DoDisband_keeps_leader (w : PartyManager) (id : Z) (i : nat) (p : ActiveParty)
    (Hi : GetPartyByID w id = Some i) (Hp : mPartyList w !! i = Some p) (Hok : party_ok (env w) p) :
  exists w' leader, DoDisband w id = Some (true, w') /\
    leader ∈ mMemberList p /\ mCreatureID leader = mLeaderID p /\
    mPartyList w' = <[i := set_members p [leader]]> (mPartyList w).
Proof.
  destruct Hok as [Hnd Hnd2 (leader & Hin & Hdef & Hid) Hptr].
  unfold DoDisband. rewrite Hi, Hp. cbn [mbind option_bind].
  destruct (disband_loop_spec p (mMemberList p) (env w) [] Hnd Hptr) as (e' & H & _).
  simpl app in H. replace (set_members p (mMemberList p)) with p in H by (by destruct p).
  assert (List.filter (leads p) (mMemberList p) = [leader]) as Hf.
  { clear H. apply list_elem_of_split in Hin as (l1 & l2 & El). rewrite El in *.
    rewrite fmap_app in Hnd2. simpl in Hnd2. apply list.NoDup_app in Hnd2 as (_ & H1 & H2).
    apply list.NoDup_cons in H2 as [H2 _].
    assert (forall l, (forall x, x ∈ l -> mCreatureID x <> mLeaderID p) -> List.filter (leads p) l = [])
      as Hnone.
    { induction l as [|x l IH]; intros Hx; [done|]. simpl. unfold leads at 1.
      rewrite (proj2 (Z.eqb_neq _ _) (Hx x ltac:(by left))). apply IH. intros. apply Hx. by right. }
    rewrite List.filter_app. simpl. unfold leads at 2. rewrite Hid, Z.eqb_refl.
    rewrite !Hnone; [done|..].
    - intros x Hx E. apply H2. rewrite Hid, <- E. by apply list_elem_of_fmap_2.
    - intros x Hx E. apply (H1 (mCreatureID x)); [by apply list_elem_of_fmap_2|]. rewrite E, Hid. by left. }
  rewrite Hf in H. rewrite H. cbn [mbind option_bind fst snd mMemberList set_members length Nat.eqb].
  do 2 eexists. split; [reflexivity|]. done.
Qed.

Lemma DoDisband_keeps_leader_witness :
  exists w', DoDisband example_world 7 = Some (true, w') /\
    map (fun p => mCreatureID <$> mMemberList p) (mPartyList w') = [[202]].
Proof.
  destruct (DoDisband_keeps_leader example_world 7 0 example_party) as (w' & l & E & _ & Hid & Hl).
  - reflexivity.
  - reflexivity.
  - exact example_party_ok.
  - exists w'. split; [exact E|]. rewrite Hl. cbn. rewrite Hid. reflexivity.
Defined.
