(* ===== verification/Trade.v ===== *)
(** * Trade: trading between two players

    Models [src/SOURCE/Server/Trade.h] and [Trade.cpp] (the transactions of an
    instance) and the handlers of [trade.start], [trade.items],
    [trade.currency], [trade.offer], [trade.accept] and [trade.cancel] of
    [query/TradeHandlers.cpp].

    - The state is one instance: its players (keys of [traders], one per
      [CreatureInstance*]), their character data, the transactions of [tradesys]
      and what has been sent. [charPtr] is a key of [characters], so that two
      creatures may share a character.
    - [otherPlayerData] always points to the other of the two players of the
      same transaction and is not stored.
    - A NULL or dangling pointer that is dereferenced makes the operation
      [None].
    - [ActivateActionAbilities] hands an item to the ability code, which is not
      modelled: it is recorded in [out]. *)

From stdpp Require Import sorting.
From S2P Require Import Prelude ByteBuffer Messages Text Items Inventory InventoryStock InventoryRemove.

(** ** Data *)

Record Trader := mkTrader {
  CreatureID : Z;
  activeLootID : Z;
  copper : Z;
  charPtr : Z;
  simulatorPtr : option Z;
  actInst : bool
}.

Definition set_activeLootID (id : Z) (c : Trader) : Trader :=
  mkTrader (CreatureID c) id (copper c) (charPtr c) (simulatorPtr c) (actInst c).
Definition add_copper (n : Z) (c : Trader) : Trader :=
  mkTrader (CreatureID c) (activeLootID c) (i32 (copper c + n)) (charPtr c) (simulatorPtr c) (actInst c).

Record CharacterData := mkCharacter { inventory : InventoryManager; pendingChanges : Z }.

Record TradePlayerData := mkPlayer {
  selfPlayerID : Z;
  itemList : list InventorySlot;
  coin : Z;
  accepted : bool;
  cInst : option Z;
  tradeWindowOpen : bool
}.

Definition TradePlayerData_Clear : TradePlayerData := mkPlayer 0 [] 0 false None false.
Definition SetAccepted (status : bool) (p : TradePlayerData) : TradePlayerData :=
  mkPlayer (selfPlayerID p) (itemList p) (coin p) status (cInst p) (tradeWindowOpen p).
Definition SetCoin (amount : Z) (p : TradePlayerData) : TradePlayerData :=
  mkPlayer (selfPlayerID p) (itemList p) amount (accepted p) (cInst p) (tradeWindowOpen p).
Definition set_itemList (l : list InventorySlot) (p : TradePlayerData) : TradePlayerData :=
  mkPlayer (selfPlayerID p) l (coin p) (accepted p) (cInst p) (tradeWindowOpen p).
Definition set_player (id : Z) (ptr : Z) (p : TradePlayerData) : TradePlayerData :=
  mkPlayer id (itemList p) (coin p) (accepted p) (Some ptr) (tradeWindowOpen p).
Definition open_window (p : TradePlayerData) : TradePlayerData :=
  mkPlayer (selfPlayerID p) (itemList p) (coin p) (accepted p) (cInst p) true.

(** [player[0]] is [origin], [player[1]] is [target]. *)
Record TradeTransaction := mkTransaction {
  init : bool;
  player0 : TradePlayerData;
  player1 : TradePlayerData
}.

(** [player[i]], with [false] for 0 and [true] for 1. *)
Definition player (t : TradeTransaction) (i : bool) : TradePlayerData :=
  if i then player1 t else player0 t.
Definition upd_player (i : bool) (f : TradePlayerData -> TradePlayerData) (t : TradeTransaction)
    : TradeTransaction :=
  if i then mkTransaction (init t) (player0 t) (f (player1 t))
  else mkTransaction (init t) (f (player0 t)) (player1 t).

Definition TradeTransaction_Clear : TradeTransaction :=
  mkTransaction false TradePlayerData_Clear TradePlayerData_Clear.
Definition GetPlayerData (t : TradeTransaction) (playerID : Z) : option bool :=
  if playerID =? selfPlayerID (player0 t) then Some false
  else if playerID =? selfPlayerID (player1 t) then Some true else None.
Definition MutualAccept (t : TradeTransaction) : bool := accepted (player0 t) && accepted (player1 t).
Definition SetPlayers (initID initPlayer targetID targetPlayer : Z) (t : TradeTransaction)
    : TradeTransaction :=
  upd_player true (set_player targetID targetPlayer)
    (upd_player false (set_player initID initPlayer) t).

(** A packet for a simulator, or an item handed to
    [SimulatorThread::ActivateActionAbilities]. *)
Inductive Output := Packet (simulator : Z) (buffer : list Z) | Activate (simulator : Z) (IID : Z).

Record World := mkWorld {
  traders : gmap Z Trader;
  characters : gmap Z CharacterData;
  PlayerList : list Z;
  tradeList : gmap Z TradeTransaction;
  mItemUseInProgress : gmap Z bool;
  out : list Output
}.

Definition upd_trader (ptr : Z) (f : Trader -> Trader) (w : World) : World :=
  mkWorld (alter f ptr (traders w)) (characters w) (PlayerList w) (tradeList w)
    (mItemUseInProgress w) (out w).
Definition set_character (ptr : Z) (c : CharacterData) (w : World) : World :=
  mkWorld (traders w) (<[ptr := c]> (characters w)) (PlayerList w) (tradeList w)
    (mItemUseInProgress w) (out w).
Definition set_tradeList (l : gmap Z TradeTransaction) (w : World) : World :=
  mkWorld (traders w) (characters w) (PlayerList w) l (mItemUseInProgress w) (out w).
Definition emit (o : Output) (w : World) : World :=
  mkWorld (traders w) (characters w) (PlayerList w) (tradeList w) (mItemUseInProgress w) (out w ++ [o]).
Definition upd_trade (tradeID : Z) (f : TradeTransaction -> TradeTransaction) (w : World) : World :=
  set_tradeList (alter f tradeID (tradeList w)) w.

(** Nothing is sent to a NULL simulator. *)
Definition SendToOneSimulator (buffer : list Z) (simPtr : option Z) (w : World) : World :=
  match simPtr with None => w | Some s => emit (Packet s buffer) w end.

(** ** Transactions *)

Definition takes_part (playerID : Z) (t : TradeTransaction) : bool :=
  (selfPlayerID (player0 t) =? playerID) || (selfPlayerID (player1 t) =? playerID).

(** The keys of a [std::map] in order. *)
Definition sorted_keys (l : gmap Z TradeTransaction) : list Z := merge_sort Z.le (elements (dom l)).

(** The key of the first transaction the player takes part in. *)
Definition GetExistingTradeForPlayer (l : gmap Z TradeTransaction) (playerID : Z) : option Z :=
  head (List.filter (fun id => match l !! id with Some t => takes_part playerID t | None => false end)
          (sorted_keys l)).

(** [tradeList[playerID]], created and cleared when it is new. *)
Definition GetNewTransaction (w : World) (playerID : Z) : TradeTransaction * World :=
  let t := match tradeList w !! playerID with
           | Some t => if init t then t else TradeTransaction_Clear
           | None => TradeTransaction_Clear
           end in
  (t, set_tradeList (<[playerID := t]> (tradeList w)) w).

Definition RemoveTransaction (tradeID : Z) (w : World) : World :=
  set_tradeList (delete tradeID (tradeList w)) w.

(** [_handleTradeMsg] with an event, and with the reason of a closed trade. *)
Definition trade_event (traderID event : Z) : list Z :=
  seal (PutByte 51 ++ PutShort 0 ++ PutInteger traderID ++ PutByte event).
Definition trade_closed (traderID reason : Z) : list Z :=
  seal (PutByte 51 ++ PutShort 0 ++ PutInteger traderID ++
        PutByte TradeEventTypes_REQUEST_CLOSED ++ PutByte reason).

(** The result -1 is left to the callers. *)
Definition CancelTransaction (playerID tradeID : Z) (w : World) : option World :=
  match tradeList w !! tradeID with
  | None => Some w
  | Some t =>
      let playerID := if playerID =? selfPlayerID (player1 t) then selfPlayerID (player0 t) else playerID in
      let buffer := trade_closed playerID CloseReasons_CANCELED in
      p0 ← cInst (player0 t); c0 ← traders w !! p0;
      p1 ← cInst (player1 t); c1 ← traders w !! p1;
      let w1 := SendToOneSimulator buffer (simulatorPtr c1) (SendToOneSimulator buffer (simulatorPtr c0) w) in
      Some (RemoveTransaction tradeID
              (upd_trader p1 (set_activeLootID 0) (upd_trader p0 (set_activeLootID 0) w1)))
  end.

(** ** Queries *)

Module QueryErrorMsg.
Definition GENERIC : Z := -1.
Definition INVALIDITEM : Z := -7.
Definition INVALIDOBJ : Z := -9.
Definition TRADENOTFOUND : Z := -12.
Definition TRADENOTOPENED : Z := -13.
Definition TRADEBUSY : Z := -25.
Definition SELFBUSYSKILL : Z := -27.
Definition OTHERBUSYSKILL : Z := -28.
End QueryErrorMsg.
Import QueryErrorMsg.

Definition GetErrorString (error : Z) : string :=
  switch error
    [(-1, "Server error.");
     (-2, "Not enough free inventory space.");
     (-3, "Creature does not have any loot.");
     (-4, "You cannot loot this creature.");
     (-5, "That item no longer exists as loot.");
     (-6, "Unable to create inventory item.");
     (-7, "Item not found in server database.");
     (-8, "You are missing a required item.");
     (-9, "Could not find object.");
     (-10, "Too far away to interact.");
     (-11, "You do not have enough coin.");
     (-12, "You are not conducting a trade.");
     (-13, "The other player has not accepted the trade request yet. Remove any items from the trade and try again.");
     (-20, "The prop could not be found.");
     (-21, "Prop location is off limits.");
     (-22, "The prop references an invalid ATS.");
     (-23, "You may not edit props by other players.");
     (-24, "The prop cannot be assigned a blank asset name.");
     (-25, "That player is busy with a trade.");
     (-27, "You cannot trade while casting spells or interacting with quest objects.");
     (-28, "That player is busy performing a spell or interaction.")]%string
    "Server error: undefined"%string.

(** A query of a client: the simulator and character it belongs to, the
    creature, the query's identifier and arguments. *)
Record Query := mkQueryCall {
  sim : Z;
  pld_charPtr : Z;
  creatureInstance : Z;
  query_ID : Z;
  args : list string
}.

Definition query_GetInteger (q : Query) (argIndex : nat) : Z :=
  match args q !! argIndex with Some a => atoi a | None => 0 end.

(** What a handler's helper returns: an error code, or the length of the packet
    it left in the send buffer, here the packet. *)
Definition Reply : Type := Z + list Z.
Definition OK (q : Query) : Reply := inr (PrepExt_QueryResponseString (query_ID q) "OK").

Definition CanMoveItems (w : World) (s : Z) : bool :=
  negb (default false (mItemUseInProgress w !! s)).

(** The transaction of the calling creature and its player in it, as every
    handler but [trade.start] looks them up; [fail] is what remains to do when
    there is none. A player who is not part of it cancels it. *)
Definition with_trade (w : World) (q : Query)
    (body : Trader -> TradeTransaction -> bool -> option (Reply * World)) : option (Reply * World) :=
  c ← traders w !! creatureInstance q;
  if negb (actInst c) then None else
  match tradeList w !! activeLootID c with
  | None => Some (inl TRADENOTFOUND, w)
  | Some t =>
      match GetPlayerData t (CreatureID c) with
      | None => w' ← CancelTransaction (CreatureID c) (activeLootID c) w; Some (inl (-1), w')
      | Some i => body c t i
      end
  end.

Definition GetPlayerByID (w : World) (id : Z) : option Z :=
  i ← find_idx (fun ptr => match traders w !! ptr with
                           | Some c => CreatureID c =? id | None => false end) (PlayerList w);
  PlayerList w !! i.

(** ** [trade.start] *)

Definition helper_query_trade_start (w : World) (q : Query) : option (Reply * World) :=
  c ← traders w !! creatureInstance q;
  let selfPlayerID := CreatureID c in
  let otherPlayerID := if (0 <? length (args q))%nat then query_GetInteger q 0 else 0 in
  if negb (actInst c) then Some (inl INVALIDOBJ, w) else
  let CheckID := if activeLootID c =? 0 then selfPlayerID else activeLootID c in
  if negb (otherPlayerID =? 0) then
    (* the player who proposes the trade *)
    if negb (CanMoveItems w (sim q)) then Some (inl SELFBUSYSKILL, w) else
    match GetPlayerByID w otherPlayerID with
    | None => Some (inl INVALIDOBJ, w)
    | Some target =>
        if bool_decide (is_Some (GetExistingTradeForPlayer (tradeList w) otherPlayerID))
        then Some (inl TRADEBUSY, w) else
        tc ← traders w !! target;
        tsim ← simulatorPtr tc;
        if negb (CanMoveItems w tsim) then Some (inl OTHERBUSYSKILL, w) else
        let (t, w1) := GetNewTransaction w CheckID in
        let t1 := SetPlayers selfPlayerID (creatureInstance q) (CreatureID tc) target t in
        let w2 := upd_trader target (set_activeLootID CheckID)
                    (upd_trader (creatureInstance q) (set_activeLootID CheckID) w1) in
        let t2 := mkTransaction true (player0 t1) (player1 t1) in
        i ← GetPlayerData t2 selfPlayerID;
        let w3 := set_tradeList (<[CheckID := upd_player i open_window t2]> (tradeList w2)) w2 in
        Some (OK q, SendToOneSimulator (trade_event selfPlayerID TradeEventTypes_REQUEST) (Some tsim) w3)
    end
  else
    (* the player who accepts it *)
    let (t, w1) := GetNewTransaction w CheckID in
    match cInst (player0 t) with
    | None => Some (inl INVALIDOBJ, w1)
    | Some target =>
        if Trade.selfPlayerID (player0 t) =? 0 then Some (inl INVALIDOBJ, w1) else
        i ← GetPlayerData t selfPlayerID;
        let w2 := upd_trade CheckID (upd_player i open_window) w1 in
        tc ← traders w !! target;
        Some (OK q, SendToOneSimulator (trade_event selfPlayerID TradeEventTypes_REQUEST_ACCEPTED)
                      (simulatorPtr tc) w2)
    end.

Definition TradeStartHandler (w : World) (q : Query) : option (list Z * World) :=
  r ← helper_query_trade_start w q;
  Some (match r.1 with
        | inr packet => packet
        | inl rval => PrepExt_SendInfoMessage (GetErrorString rval) INFOMSG_ERROR ++
                      PrepExt_QueryResponseError (query_ID q) ""
        end, r.2).

(** What [trade.items] and [trade.offer] do with an error: the text goes to the
    client that asked, the query is answered with an empty response. *)
Definition info_and_null (q : Query) (r : Reply * World) : list Z * World :=
  match r.1 with
  | inr packet => (packet, r.2)
  | inl rval => (PrepExt_QueryResponseNull (query_ID q),
                 emit (Packet (sim q) (PrepExt_Info (GetErrorString rval) INFOMSG_INFO)) r.2)
  end.

(** What [trade.cancel], [trade.accept] and [trade.currency] do with one. *)
Definition error_response (q : Query) (r : Reply * World) : list Z * World :=
  match r.1 with
  | inr packet => (packet, r.2)
  | inl rval => (PrepExt_QueryResponseError (query_ID q) (GetErrorString rval), r.2)
  end.

(** ** [trade.items] *)

(** The offers the identifiers name; [false] when one names no item, the offers
    before it are kept. *)
Fixpoint offers (inv : InventoryManager) (argl : list string) : list InventorySlot * bool :=
  match argl with
  | [] => ([], true)
  | a :: argl' =>
      let ccsid := u32 (strtol a 16) in
      match GetItemPtrByCCSID inv ccsid ≫= deref inv with
      | None => ([], false)
      | Some itemPtr =>
          let item := set_CCSID ccsid (CopyFrom InventorySlot_new itemPtr false) in
          let (l, ok) := offers inv argl' in (item :: l, ok)
      end
  end.

Definition helper_query_trade_items (w : World) (q : Query) : option (Reply * World) :=
  with_trade w q (fun c t i =>
    if negb (tradeWindowOpen (player t (negb i))) then Some (inl TRADENOTOPENED, w) else
    pld ← characters w !! pld_charPtr q;
    let '(l, ok) := offers (inventory pld) (args q) in
    let w1 := upd_trade (activeLootID c) (upd_player i (set_itemList l)) w in
    if negb ok then Some (inl INVALIDITEM, w1) else
    other ← cInst (player t (negb i));
    oc ← traders w !! other;
    Some (OK q, SendToOneSimulator (PrepExt_TradeItemOffer (CreatureID c) l) (simulatorPtr oc) w1)).

Definition TradeItemsHandler (w : World) (q : Query) : option (list Z * World) :=
  info_and_null q <$> helper_query_trade_items w q.

(** ** [trade.currency] *)

Definition helper_query_trade_currency (w : World) (q : Query) : option (Reply * World) :=
  match args q with
  | _ :: amountArg :: _ =>
      let amount := i32 (strtol amountArg 10) in
      with_trade w q (fun c t i =>
        let w1 := upd_trade (activeLootID c) (upd_player i (SetCoin amount)) w in
        (* [tradeData->player->otherPlayerData]: the window of player 1, whoever calls *)
        if tradeWindowOpen (player1 t) then
          other ← cInst (player t (negb i));
          oc ← traders w !! other;
          Some (OK q, SendToOneSimulator (PrepExt_TradeCurrencyOffer (CreatureID c) amount)
                        (simulatorPtr oc) w1)
        else Some (OK q, w1))
  | _ => Some (inl GENERIC, w)
  end.

Definition TradeCurrencyHandler (w : World) (q : Query) : option (list Z * World) :=
  error_response q <$> helper_query_trade_currency w q.

(** ** [trade.offer] and [trade.cancel] *)

Definition helper_query_trade_offer (w : World) (q : Query) : option (Reply * World) :=
  with_trade w q (fun c t i =>
    other ← cInst (player t (negb i));
    oc ← traders w !! other;
    Some (OK q, SendToOneSimulator (trade_event (CreatureID c) TradeEventTypes_OFFER_MADE)
                  (simulatorPtr oc) w)).

Definition TradeOfferHandler (w : World) (q : Query) : option (list Z * World) :=
  info_and_null q <$> helper_query_trade_offer w q.

Definition helper_query_trade_cancel (w : World) (q : Query) : option (Reply * World) :=
  c ← traders w !! creatureInstance q;
  if negb (actInst c) then None else
  match tradeList w !! activeLootID c with
  | None => Some (inl TRADENOTFOUND, w)
  | Some _ => w' ← CancelTransaction (CreatureID c) (activeLootID c) w; Some (OK q, w')
  end.

Definition TradeCancelHandler (w : World) (q : Query) : option (list Z * World) :=
  error_response q <$> helper_query_trade_cancel w q.

(** ** [trade.accept] *)

Definition STAT_COPPER : Z := 114.
Definition CREATURE_UPDATE_STAT : Z := 32.

(** [PrepExt_SendSpecificStats] for the one stat [COPPER]. *)
Definition PrepExt_SendSpecificStats_copper (g_ProtocolVersion : Z) (c : Trader) : list Z :=
  seal (PutByte 5 ++ PutShort 0 ++ PutInteger (CreatureID c) ++
        (if g_ProtocolVersion <? 22 then PutByte CREATURE_UPDATE_STAT else PutShort CREATURE_UPDATE_STAT) ++
        PutShort 1 ++ PutShort STAT_COPPER ++ PutInteger (copper c)).

Section Accept.
Context {db : ItemDb} (g_ServerTime g_ProtocolVersion : Z).

Definition changed (inv : InventoryManager) (p : CharacterData) : CharacterData :=
  mkCharacter inv (i32 (pendingChanges p + 1)).

(** The loop that removes what a player offered: its packets. *)
Fixpoint take_offers (p : CharacterData) (l : list InventorySlot) : list Z * CharacterData :=
  match l with
  | [] => ([], p)
  | s :: l' =>
      match GetItemPtrByCCSID (inventory p) (CCSID s) ≫= deref (inventory p) with
      | None => take_offers p l'
      | Some item =>
          let '(packets, p') := take_offers (changed (snd (RemItem (inventory p) (CCSID s))) p) l' in
          (RemoveItemUpdate item ++ packets, p')
      end
  end.

(** The loop that gives a player what the other one offered: its packets, the
    items handed to the ability code, and whether every item could be added. *)
Fixpoint give_offers (p : CharacterData) (l : list InventorySlot)
    : option (list Z * list Z * bool * CharacterData) :=
  match l with
  | [] => Some ([], [], true, p)
  | s :: l' =>
      match AddItem_Ex g_ServerTime (inventory p) INV_CONTAINER (IID s) (i32 (count s + 1)) with
      | (None, m) =>
          r ← give_offers (mkCharacter m (pendingChanges p)) l';
          let '(packets, acts, _, p') := r in
          Some (packets, acts, false, p')
      | (Some i, m) =>
          let m' := update_slot m INV_CONTAINER i (fun item => CopyWithoutCount item s false) in
          item ← cont m' INV_CONTAINER !! i;
          r ← give_offers (changed m' p) l';
          let '(packets, acts, all, p') := r in
          Some (Global.AddItemUpdate g_ServerTime item ++ packets, IID item :: acts, all, p')
      end
  end.

(** Both players are told why the trade is closed. *)
Definition close_both (origin target : Trader) (traderID reason : Z) (w : World) : World :=
  SendToOneSimulator (trade_closed traderID reason) (simulatorPtr target)
    (SendToOneSimulator (trade_closed traderID reason) (simulatorPtr origin) w).

Definition activate_all (s : Z) (acts : list Z) (w : World) : World :=
  fold_left (fun w iid => emit (Activate s iid) w) acts w.

(** The coins of both offers change hands. *)
Definition exchange_coins (origin target : Z) (t : TradeTransaction) (w : World) : World :=
  upd_trader target (add_copper (coin (player0 t)))
    (upd_trader origin (add_copper (coin (player1 t)))
      (upd_trader target (add_copper (- coin (player1 t)))
        (upd_trader origin (add_copper (- coin (player0 t))) w))).

(** One of the two removal loops, with the packet it sends. *)
Definition take_from (ptr : Z) (simp : option Z) (l : list InventorySlot) (w : World) : option World :=
  p ← characters w !! ptr;
  let (packets, p') := take_offers p l in
  Some (SendToOneSimulator packets simp (set_character ptr p' w)).

(** One of the two giving loops; the abilities are those of the player who
    accepted last, whoever receives the items. *)
Definition give_to (ptr : Z) (simp : option Z) (acceptor : Z) (l : list InventorySlot) (w : World)
    : option World :=
  p ← characters w !! ptr;
  r ← give_offers p l;
  let '(packets, acts, _, p') := r in
  Some (SendToOneSimulator packets simp (activate_all acceptor acts (set_character ptr p' w))).

(** From "Ready to trade" to the removal of the transaction. *)
Definition exchange (w : World) (q : Query) (tradeID : Z) (t : TradeTransaction)
    (origin target : Z) : option World :=
  let w1 := exchange_coins origin target t w in
  oc ← traders w1 !! origin;
  tc ← traders w1 !! target;
  let w2 := SendToOneSimulator (PrepExt_SendSpecificStats_copper g_ProtocolVersion tc) (simulatorPtr tc)
              (SendToOneSimulator (PrepExt_SendSpecificStats_copper g_ProtocolVersion oc) (simulatorPtr oc) w1) in
  w3 ← take_from (charPtr oc) (simulatorPtr oc) (itemList (player0 t)) w2;
  w4 ← take_from (charPtr tc) (simulatorPtr tc) (itemList (player1 t)) w3;
  w5 ← give_to (charPtr oc) (simulatorPtr oc) (sim q) (itemList (player1 t)) w4;
  w6 ← give_to (charPtr tc) (simulatorPtr tc) (sim q) (itemList (player0 t)) w5;
  let w7 := SendToOneSimulator (trade_closed (CreatureID oc) CloseReasons_COMPLETE) (simulatorPtr oc) w6 in
  let w8 := SendToOneSimulator (trade_closed (CreatureID tc) CloseReasons_COMPLETE) (simulatorPtr tc) w7 in
  Some (RemoveTransaction tradeID
          (upd_trader target (set_activeLootID 0) (upd_trader origin (set_activeLootID 0) w8))).

(** The checks of a trade both have accepted: whom and why it is refused. *)
Definition trade_refusal (t : TradeTransaction) (oc tc : Trader) (po pt : CharacterData)
    : option (Z * Z) :=
  let size l := Z.of_nat (length l) in
  let l0 := itemList (player0 t) in
  let l1 := itemList (player1 t) in
  let oslots := i32 (CountFreeSlots (inventory po) INV_CONTAINER + size l0) in
  let tslots := i32 (CountFreeSlots (inventory pt) INV_CONTAINER + size l1) in
  if oslots <? i32 (size l1) then Some (CreatureID oc, CloseReasons_INSUFFICIENT_SPACE)
  else if tslots <? i32 (size l0) then Some (CreatureID tc, CloseReasons_INSUFFICIENT_SPACE)
  else if copper oc <? coin (player0 t) then Some (CreatureID oc, CloseReasons_INSUFFICIENT_FUNDS)
  else if copper tc <? coin (player1 t) then Some (CreatureID tc, CloseReasons_INSUFFICIENT_FUNDS)
  else None.

Definition helper_query_trade_accept (w : World) (q : Query) : option (Reply * World) :=
  with_trade w q (fun c t i =>
    let t1 := upd_player i (SetAccepted true) t in
    let w1 := upd_trade (activeLootID c) (upd_player i (SetAccepted true)) w in
    other ← cInst (player t (negb i));
    ocr ← traders w !! other;
    let w2 := SendToOneSimulator (trade_event (CreatureID c) TradeEventTypes_OFFER_ACCEPTED)
                (simulatorPtr ocr) w1 in
    match cInst (player0 t), cInst (player1 t) with
    | Some origin, Some target =>
        if negb (MutualAccept t1) then Some (OK q, w2) else
        oc ← traders w !! origin; tc ← traders w !! target;
        po ← characters w !! charPtr oc; pt ← characters w !! charPtr tc;
        match trade_refusal t1 oc tc po pt with
        | Some (traderID, reason) => Some (OK q, close_both oc tc traderID reason w2)
        | None => w3 ← exchange w2 q (activeLootID c) t1 origin target; Some (OK q, w3)
        end
    | _, _ => Some (inl INVALIDOBJ, w2)
    end).

Definition TradeAcceptHandler (w : World) (q : Query) : option (list Z * World) :=
  error_response q <$> helper_query_trade_accept w q.

End Accept.

(** ** Lemmas: moving the items *)

Section Items.
Context {db : ItemDb} (g_ServerTime : Z).

Lemma inv_container_valid : valid INV_CONTAINER.
Proof. by vm_compute. Qed.

(** The inventory holds what was offered. *)
Definition offered (inv : InventoryManager) (s : InventorySlot) : Prop :=
  exists x, x ∈ cont inv (container_of (CCSID s)) /\ CCSID x = CCSID s /\ IID x = IID s /\ count x = count s.

Lemma weight_same ID s x : IID x = IID s -> count x = count s -> weight ID x = weight ID s.
Proof. intros E1 E2. unfold weight, item_count, ResolveItemPtr. by rewrite E1, E2. Qed.

Lemma find_offered inv c ccsid x :
  Inv_wf inv -> x ∈ cont inv c -> CCSID x = ccsid ->
  exists i, find_idx (fun s => CCSID s =? ccsid) (cont inv c) = Some i /\ cont inv c !! i = Some x.
Proof.
  intros Hwf Hx E. destruct (find_idx _ (cont inv c)) as [i|] eqn:Ef.
  - exists i. split; [done|]. apply find_idx_lookup in Ef as (y & Hy & E'). to_prop.
    apply list_elem_of_lookup in Hx as [j Hj].
    assert (i = j) as -> by (eapply wf_slot_inj; [done..|by rewrite E', E]). done.
  - apply find_idx_None in Ef. rewrite list.Forall_forall in Ef. specialize (Ef x Hx). to_prop. done.
Qed.

Lemma take_one p s x l :
  Inv_wf (inventory p) -> x ∈ cont (inventory p) (container_of (CCSID s)) -> CCSID x = CCSID s ->
  exists i, cont (inventory p) (container_of (CCSID s)) !! i = Some x /\
    take_offers p (s :: l) =
      let '(packets, p') := take_offers (changed (erase_slot (inventory p) (container_of (CCSID s)) i) p) l in
      (RemoveItemUpdate x ++ packets, p').
Proof.
  intros Hwf Hx E. destruct (find_offered _ _ _ _ Hwf Hx E) as (i & Hi & Hix). exists i. split; [done|].
  cbn [take_offers]. unfold GetItemPtrByCCSID, RemItem. cbn zeta. rewrite Hi.
  cbn [fmap option_fmap option_map mbind option_bind]. unfold deref at 1. cbn [fst snd].
  rewrite Hix. done.
Qed.

Lemma take_none p s l :
  (forall x, x ∈ cont (inventory p) (container_of (CCSID s)) -> CCSID x <> CCSID s) ->
  take_offers p (s :: l) = take_offers p l.
Proof.
  intros H. cbn [take_offers]. unfold GetItemPtrByCCSID. cbn zeta.
  replace (find_idx (fun s0 => CCSID s0 =? CCSID s) (cont (inventory p) (container_of (CCSID s))))
    with (@None nat); [done|].
  symmetry. apply find_idx_None, list.Forall_forall. intros x Hx. by apply Z.eqb_neq, H.
Qed.

Lemma elem_erase_other inv c i x e y :
  shaped inv -> cont inv c !! i = Some x -> y ∈ cont inv e -> CCSID y <> CCSID x ->
  y ∈ cont (erase_slot inv c i) e.
Proof.
  intros Hsh Hi Hy Hne. unfold erase_slot. destruct (decide (e = c)) as [->|];
    [|by rewrite cont_set_cont_ne].
  rewrite cont_set_cont by (done || by eapply cont_lookup_valid).
  apply list_elem_of_lookup in Hy as [j Hj].
  assert (j <> i) by (intros ->; congruence).
  apply list_elem_of_lookup. destruct (decide (j < i)%nat).
  - exists j. by rewrite list_lookup_delete_lt.
  - exists (j - 1)%nat. rewrite list_lookup_delete_ge by lia. by replace (S (j - 1)) with j by lia.
Qed.

Lemma erase_gone inv c i x y :
  Inv_wf inv -> cont inv c !! i = Some x -> y ∈ cont (erase_slot inv c i) c -> CCSID y <> CCSID x.
Proof.
  intros Hwf Hi Hy E. unfold erase_slot in Hy.
  rewrite cont_set_cont in Hy by (by eapply cont_lookup_valid || apply Hwf).
  pose proof (wf_nodup _ Hwf c) as Hnd. rewrite <- (take_drop_middle _ _ _ Hi) in Hnd.
  rewrite delete_take_drop in Hy.
  rewrite fmap_app in Hnd. apply list.NoDup_app in Hnd as (_ & H1 & H2).
  apply list.NoDup_cons in H2 as [H2 _].
  apply elem_of_app in Hy as [Hy|Hy].
  - apply (H1 (CCSID y)); [by apply list_elem_of_fmap_2|]. rewrite E. by left.
  - apply H2. rewrite <- E. by apply list_elem_of_fmap_2.
Qed.

Lemma stockable_erase inv c i e : stockable inv e -> stockable (erase_slot inv c i) e.
Proof.
  intros [H1 H2 H3]. split.
  - by apply wf_erase_slot.
  - unfold max_ok, erase_slot. by rewrite max_slot_set_cont.
  - intros s Hs%elem_erase_slot; [by apply H3|apply H1].
Qed.

Lemma take_offers_spec l : forall p,
  stockable (inventory p) INV_CONTAINER -> NoDup (CCSID <$> l) -> Forall (offered (inventory p)) l ->
  stockable (inventory (snd (take_offers p l))) INV_CONTAINER /\
  forall ID, held (inventory (snd (take_offers p l))) ID = held (inventory p) ID - sumZ (weight ID) l.
Proof.
  induction l as [|s l IH]; intros p Hst Hnd Hoff.
  - simpl. split; [done|]. intros. lia.
  - apply list.NoDup_cons in Hnd as [Hnot Hnd]. apply list.Forall_cons in Hoff as [(x & Hx & E & EI & Ec) Hoff].
    destruct (take_one p s x l (st_wf _ _ Hst) Hx E) as (i & Hi & ->).
    destruct (IH (changed (erase_slot (inventory p) (container_of (CCSID s)) i) p)) as [H1 H2].
    + by apply stockable_erase.
    + done.
    + apply list.Forall_forall. intros y Hy. rewrite list.Forall_forall in Hoff.
      destruct (Hoff y Hy) as (z & Hz & Ez & ? & ?). exists z. split; [|done].
      eapply elem_erase_other; [apply Hst|done..|]. rewrite Ez, E. intros Ey. apply Hnot.
      rewrite <- Ey. by apply list_elem_of_fmap_2.
    + destruct (take_offers _ l) as [pk p']. simpl in *. split; [done|]. intros ID.
      rewrite H2, (held_erase_slot _ _ _ x) by (done || apply Hst).
      rewrite (weight_same ID s x) by done. lia.
Qed.

(** An offered stack whose size still fits the integers. *)
Definition offer_ok (s : InventorySlot) : Prop := 0 <= count s < 2 ^ 30 - 1.

Lemma added_weight s d ID :
  item_of (IID s) = Some d -> weight ID s = if IID s =? ID then added d (count s + 1) else 0.
Proof.
  intros Hd. unfold weight, added, item_count, ResolveItemPtr. rewrite Hd.
  destruct (IID s =? ID); [|done]. destruct (mIvType1 d =? _); lia.
Qed.

Lemma weight_nonneg' ID s : 0 <= count s -> 0 <= weight ID s.
Proof.
  intros H. unfold weight, item_count. destruct (IID s =? ID); [|lia].
  destruct (ResolveItemPtr s); [|lia]. case_test; lia.
Qed.

Lemma give_offers_spec l : stack_limits_ok -> Forall offer_ok l -> forall p,
  stockable (inventory p) INV_CONTAINER ->
  exists packets acts all p', give_offers g_ServerTime p l = Some (packets, acts, all, p') /\
    stockable (inventory p') INV_CONTAINER /\
    forall ID, held (inventory p') ID <= held (inventory p) ID + sumZ (weight ID) l /\
      (all = true -> held (inventory p') ID = held (inventory p) ID + sumZ (weight ID) l).
Proof.
  intros Hlim. induction 1 as [|s l Hs _ IH]; intros p Hst.
  - simpl. do 4 eexists. split; [reflexivity|]. split; [done|]. intros. lia.
  - unfold offer_ok in Hs. assert (1 <= count s + 1 < 2 ^ 30) as Hn by lia.
    cbn [give_offers]. rewrite i32_id by (unfold in_signed; lia).
    destruct (AddItem_Ex _ _ _ _ _) as [[i|] m] eqn:E.
    + destruct (AddItem_Ex_Some _ _ _ _ _ _ _ Hst inv_container_valid Hlim Hn E)
        as (Hst1 & d & x & Hd & Hx & HI & Hh).
      set (f := fun item => CopyWithoutCount item s false).
      assert (cont (update_slot m INV_CONTAINER i f) INV_CONTAINER !! i = Some (f x)) as Hfx.
      { unfold update_slot. rewrite cont_set_cont by (apply Hst1 || exact inv_container_valid).
        by rewrite list_lookup_alter_eq, Hx. }
      rewrite Hfx. cbn [mbind option_bind].
      destruct (IH (changed (update_slot m INV_CONTAINER i f) p)) as (pk & acts & all & p' & -> & Hst' & Hh').
      { cbn [inventory changed]. destruct Hst1 as [H1 H2 H3]. split.
        - by apply wf_update_slot.
        - unfold max_ok, update_slot. by rewrite max_slot_set_cont.
        - intros y [Hy|(_ & z & Hz & ->)]%elem_update_slot; [by apply H3| |apply H1].
          apply list_elem_of_lookup_2 in Hz. apply (H3 z Hz). }
      cbn [mbind option_bind]. do 4 eexists. split; [reflexivity|]. split; [done|]. intros ID.
      specialize (Hh' ID). cbn [inventory changed] in Hh'.
      rewrite (held_update_slot _ _ _ _ x) in Hh' by (done || apply Hst1).
      rewrite (weight_same ID x (f x)) in Hh' by done. rewrite Hh in Hh'.
      cbn [sumZ]. rewrite (added_weight s d) by done. destruct Hh' as [H1 H2].
      split; [lia|]. intros Ha. specialize (H2 Ha). lia.
    + destruct (AddItem_Ex_None _ _ _ _ _ _ E) as (e & ->).
      destruct (IH (mkCharacter (SetError (inventory p) e) (pendingChanges p)))
        as (pk & acts & all & p' & -> & Hst' & Hh'); [by apply stockable_SetError|].
      cbn [mbind option_bind]. do 4 eexists. split; [reflexivity|]. split; [done|]. intros ID.
      specialize (Hh' ID). cbn [inventory] in Hh'.
      change (held (SetError (inventory p) e) ID) with (held (inventory p) ID) in Hh'.
      pose proof (weight_nonneg' ID s ltac:(lia)). cbn [sumZ]. split; [lia|done].
Qed.

(** Whether everything offered could be added. *)
Definition all_added (p : CharacterData) (l : list InventorySlot) : bool :=
  match give_offers g_ServerTime p l with Some (_, _, all, _) => all | None => false end.

End Items.

(** ** Lemmas: the exchange *)

Lemma traders_send b s w : traders (SendToOneSimulator b s w) = traders w.
Proof. by destruct s. Qed.
Lemma characters_send b s w : characters (SendToOneSimulator b s w) = characters w.
Proof. by destruct s. Qed.
Lemma tradeList_send b s w : tradeList (SendToOneSimulator b s w) = tradeList w.
Proof. by destruct s. Qed.
Lemma activate_all_frame s acts w :
  traders (activate_all s acts w) = traders w /\ characters (activate_all s acts w) = characters w /\
  tradeList (activate_all s acts w) = tradeList w.
Proof. revert w. induction acts as [|a acts IH]; intros w; simpl; [done|]. exact (IH (emit (Activate s a) w)). Qed.

Lemma delete_alter_trade (l : gmap Z TradeTransaction) f k : delete k (alter f k l) = delete k l.
Proof.
  apply map_eq. intros j. destruct (decide (j = k)) as [->|].
  - by rewrite !lookup_delete_eq.
  - by rewrite !lookup_delete_ne, lookup_alter_ne by done.
Qed.

Section Exchange.
Context {db : ItemDb} (g_ServerTime g_ProtocolVersion : Z).

Lemma take_from_eq ptr simp l w p packets p' :
  characters w !! ptr = Some p -> take_offers p l = (packets, p') ->
  exists w', take_from ptr simp l w = Some w' /\ traders w' = traders w /\ tradeList w' = tradeList w /\
    characters w' = <[ptr := p']> (characters w).
Proof.
  intros Hp Ht. unfold take_from. rewrite Hp. cbn [mbind option_bind]. rewrite Ht. eexists.
  split; [reflexivity|]. by rewrite traders_send, characters_send, tradeList_send.
Qed.

Lemma give_to_eq ptr simp acceptor l w p packets acts all p' :
  characters w !! ptr = Some p -> give_offers g_ServerTime p l = Some (packets, acts, all, p') ->
  exists w', give_to g_ServerTime ptr simp acceptor l w = Some w' /\ traders w' = traders w /\
    tradeList w' = tradeList w /\ characters w' = <[ptr := p']> (characters w).
Proof.
  intros Hp Hg. unfold give_to. rewrite Hp. cbn [mbind option_bind]. rewrite Hg. cbn [mbind option_bind].
  eexists. split; [reflexivity|]. rewrite traders_send, characters_send, tradeList_send.
  by destruct (activate_all_frame acceptor acts (set_character ptr p' w)) as (-> & -> & ->).
Qed.

(** The caller accepts a trade the other player has already accepted, and the
    checks pass. *)
Record ready (w : World) (q : Query) (i : bool) (c : Trader) (t : TradeTransaction) (origin target : Z)
    (oc tc : Trader) (po pt : CharacterData) : Prop := {
  rd_caller : traders w !! creatureInstance q = Some c;
  rd_inst : actInst c = true;
  rd_trade : tradeList w !! activeLootID c = Some t;
  rd_player : GetPlayerData t (CreatureID c) = Some i;
  rd_accepted : accepted (player t (negb i)) = true;
  rd_origin : cInst (player0 t) = Some origin;
  rd_target : cInst (player1 t) = Some target;
  rd_oc : traders w !! origin = Some oc;
  rd_tc : traders w !! target = Some tc;
  rd_ne : origin <> target;
  rd_po : characters w !! charPtr oc = Some po;
  rd_pt : characters w !! charPtr tc = Some pt;
  rd_chars : charPtr oc <> charPtr tc;
  rd_checked : trade_refusal t oc tc po pt = None
}.

(** The exchange itself, between two creatures with characters of their own. *)
Lemma exchange_ok w q tradeID t origin target oc tc po pt k0 po1 k1 pt1 a0 b0 all0 po2 a1 b1 all1 pt2 :
  origin <> target -> charPtr oc <> charPtr tc ->
  traders w !! origin = Some oc -> traders w !! target = Some tc ->
  characters w !! charPtr oc = Some po -> characters w !! charPtr tc = Some pt ->
  take_offers po (itemList (player0 t)) = (k0, po1) -> take_offers pt (itemList (player1 t)) = (k1, pt1) ->
  give_offers g_ServerTime po1 (itemList (player1 t)) = Some (a0, b0, all0, po2) ->
  give_offers g_ServerTime pt1 (itemList (player0 t)) = Some (a1, b1, all1, pt2) ->
  exists w', exchange g_ServerTime g_ProtocolVersion w q tradeID t origin target = Some w' /\
    traders w' !! origin = Some (set_activeLootID 0
      (add_copper (coin (player1 t)) (add_copper (- coin (player0 t)) oc))) /\
    traders w' !! target = Some (set_activeLootID 0
      (add_copper (coin (player0 t)) (add_copper (- coin (player1 t)) tc))) /\
    characters w' !! charPtr oc = Some po2 /\ characters w' !! charPtr tc = Some pt2 /\
    tradeList w' = delete tradeID (tradeList w).
Proof.
  intros Hne Hch Ho Ht Hpo Hpt T0 T1 G0 G1. unfold exchange.
  set (w3 := exchange_coins origin target t w).
  set (oc' := add_copper (coin (player1 t)) (add_copper (- coin (player0 t)) oc)).
  set (tc' := add_copper (coin (player0 t)) (add_copper (- coin (player1 t)) tc)).
  assert (traders w3 !! origin = Some oc') as Ho3.
  { unfold w3, exchange_coins. cbn [traders upd_trader].
    by rewrite lookup_alter_ne, lookup_alter_eq, lookup_alter_ne, lookup_alter_eq, Ho by congruence. }
  assert (traders w3 !! target = Some tc') as Ht3.
  { unfold w3, exchange_coins. cbn [traders upd_trader].
    by rewrite lookup_alter_eq, lookup_alter_ne, lookup_alter_eq, lookup_alter_ne, Ht by congruence. }
  assert (characters w3 = characters w /\ tradeList w3 = tradeList w) as [C3 L3] by done.
  clearbody w3. rewrite Ho3, Ht3. cbn [mbind option_bind].
  change (charPtr oc') with (charPtr oc). change (charPtr tc') with (charPtr tc).
  set (w4 := SendToOneSimulator _ _ (SendToOneSimulator _ _ w3)).
  assert (traders w4 = traders w3 /\ characters w4 = characters w /\ tradeList w4 = tradeList w)
    as (A1 & A2 & A3) by (unfold w4; by rewrite !traders_send, !characters_send, !tradeList_send).
  clearbody w4.
  destruct (take_from_eq (charPtr oc) (simulatorPtr oc') (itemList (player0 t)) w4 po k0 po1)
    as (w5 & -> & B1 & B2 & B3); [by rewrite A2|done|]. cbn [mbind option_bind].
  destruct (take_from_eq (charPtr tc) (simulatorPtr tc') (itemList (player1 t)) w5 pt k1 pt1)
    as (w6 & -> & D1 & D2 & D3); [by rewrite B3, A2, lookup_insert_ne by done|done|]. cbn [mbind option_bind].
  destruct (give_to_eq (charPtr oc) (simulatorPtr oc') (sim q) (itemList (player1 t)) w6 po1 a0 b0 all0 po2)
    as (w7 & -> & F1 & F2 & F3);
    [by rewrite D3, B3, lookup_insert_ne, lookup_insert_eq by done|done|]. cbn [mbind option_bind].
  destruct (give_to_eq (charPtr tc) (simulatorPtr tc') (sim q) (itemList (player0 t)) w7 pt1 a1 b1 all1 pt2)
    as (w8 & -> & J1 & J2 & J3);
    [by rewrite F3, lookup_insert_ne, D3, lookup_insert_eq by done|done|]. cbn [mbind option_bind].
  eexists. split; [reflexivity|]. cbn [traders characters tradeList RemoveTransaction set_tradeList upd_trader].
  rewrite !traders_send, !characters_send, !tradeList_send, J1, F1, D1, B1, A1. split_and!.
  - by rewrite lookup_alter_ne, lookup_alter_eq, Ho3 by done.
  - by rewrite lookup_alter_eq, lookup_alter_ne, Ht3 by done.
  - by rewrite J3, lookup_insert_ne, F3, lookup_insert_eq by done.
  - by rewrite J3, lookup_insert_eq.
  - by rewrite J2, F2, D2, B2, A3.
Qed.

Lemma accept_exchange w q i c t origin target oc tc po pt k0 po1 k1 pt1 a0 b0 all0 po2 a1 b1 all1 pt2 :
  ready w q i c t origin target oc tc po pt ->
  take_offers po (itemList (player0 t)) = (k0, po1) -> take_offers pt (itemList (player1 t)) = (k1, pt1) ->
  give_offers g_ServerTime po1 (itemList (player1 t)) = Some (a0, b0, all0, po2) ->
  give_offers g_ServerTime pt1 (itemList (player0 t)) = Some (a1, b1, all1, pt2) ->
  exists w', helper_query_trade_accept g_ServerTime g_ProtocolVersion w q = Some (OK q, w') /\
    traders w' !! origin = Some (set_activeLootID 0
      (add_copper (coin (player1 t)) (add_copper (- coin (player0 t)) oc))) /\
    traders w' !! target = Some (set_activeLootID 0
      (add_copper (coin (player0 t)) (add_copper (- coin (player1 t)) tc))) /\
    characters w' !! charPtr oc = Some po2 /\ characters w' !! charPtr tc = Some pt2 /\
    tradeList w' = delete (activeLootID c) (tradeList w).
Proof.
  intros [H1 H2 H3 H4 H5 H6 H7 H8 H9 H10 H11 H12 H13 H14] T0 T1 G0 G1.
  unfold helper_query_trade_accept, with_trade. rewrite H1. cbn [mbind option_bind].
  rewrite H2. cbn [negb]. rewrite H3, H4.
  set (t1 := upd_player i (SetAccepted true) t).
  assert (itemList (player0 t1) = itemList (player0 t) /\ itemList (player1 t1) = itemList (player1 t) /\
          coin (player0 t1) = coin (player0 t) /\ coin (player1 t1) = coin (player1 t))
    as (E1 & E2 & E3 & E4) by (by destruct i).
  assert (trade_refusal t1 oc tc po pt = None) as H14' by (unfold trade_refusal; by rewrite E1, E2, E3, E4).
  assert (MutualAccept t1 = true) as Hm.
  { unfold MutualAccept, t1. destruct i; simpl in *; by rewrite ?H5. }
  assert (exists o, cInst (player t (negb i)) = Some o /\ is_Some (traders w !! o)) as (o & -> & [ocr Ho])
    by (destruct i; simpl; eauto).
  cbn [mbind option_bind]. rewrite Ho. cbn [mbind option_bind]. rewrite H6, H7, Hm. cbn [negb].
  rewrite H8, H9. cbn [mbind option_bind]. rewrite H11, H12. cbn [mbind option_bind]. rewrite H14'.
  set (w2 := SendToOneSimulator _ _ _).
  assert (traders w2 = traders w /\ characters w2 = characters w /\
          tradeList w2 = alter (upd_player i (SetAccepted true)) (activeLootID c) (tradeList w))
    as (W1 & W2 & W3) by (unfold w2; by rewrite traders_send, characters_send, tradeList_send).
  destruct (exchange_ok w2 q (activeLootID c) t1 origin target oc tc po pt k0 po1 k1 pt1 a0 b0 all0 po2
    a1 b1 all1 pt2) as (w' & -> & X1 & X2 & X3 & X4 & X5); rewrite ?W1, ?W2, ?E1, ?E2; try done.
  cbn [mbind option_bind]. exists w'. rewrite E3, E4 in *. split; [reflexivity|].
  do 4 (split; [assumption|]). by rewrite X5, W3, delete_alter_trade.
Qed.

End Exchange.

(** ** Lemmas: offers and checks *)

Section Offers.
Context {db : ItemDb} (g_ServerTime : Z).

(** What [trade.items] records is in the inventory it was given. *)
Lemma offers_offered inv argl : Forall (offered inv) (offers inv argl).1.
Proof.
  induction argl as [|a argl IH]; cbn [offers]; [constructor|]. generalize (u32 (strtol a 16)). intros k.
  destruct (GetItemPtrByCCSID inv k) as [[c i]|] eqn:E; cbn [mbind option_bind]; [|constructor].
  destruct (deref inv (c, i)) as [x|] eqn:Ex; [|constructor].
  destruct (offers inv argl) as [l ok]. constructor; [|done]. exists x.
  unfold GetItemPtrByCCSID in E. cbn zeta in E.
  destruct (find_idx _ _) as [j|] eqn:Ef; [|done]. injection E as <- <-.
  apply find_idx_lookup in Ef as (y & Hy & Ey). to_prop. unfold deref in Ex. cbn [fst snd] in Ex.
  simplify_eq. split; [by eapply list_elem_of_lookup_2|]. done.
Qed.

(** Both players still have what they offered, each item offered once. *)
Record offers_ok (t : TradeTransaction) (po pt : CharacterData) : Prop := {
  oo_stock0 : stockable (inventory po) INV_CONTAINER;
  oo_stock1 : stockable (inventory pt) INV_CONTAINER;
  oo_once0 : NoDup (CCSID <$> itemList (player0 t));
  oo_once1 : NoDup (CCSID <$> itemList (player1 t));
  oo_has0 : Forall (offered (inventory po)) (itemList (player0 t));
  oo_has1 : Forall (offered (inventory pt)) (itemList (player1 t));
  oo_size0 : Forall offer_ok (itemList (player0 t));
  oo_size1 : Forall offer_ok (itemList (player1 t))
}.

Lemma CountFreeSlots_nonneg inv c : max_ok inv c -> 0 <= CountFreeSlots inv c <= 65536.
Proof.
  intros Hm. unfold max_ok in Hm. unfold CountFreeSlots. cbn zeta. case_test; [lia|].
  pose proof (countb_nonneg negb (mark_slots (Z.to_nat (max_slot inv c)) (max_slot inv c) (cont inv c))) as H.
  rewrite length_mark_slots in H. rewrite i32_id by (unfold in_signed; lia). lia.
Qed.

Lemma copper_after c a b :
  in_i32 (copper c - a + b) -> copper (add_copper b (add_copper (- a) c)) = copper c - a + b.
Proof.
  intros H. simpl. rewrite <- (signed_unsigned 32 (i32 _ + _)).
  assert (unsigned 32 (i32 (copper c + - a) + b) = unsigned 32 (copper c - a + b)) as ->.
  { unfold unsigned. rewrite <- Zplus_mod_idemp_l.
    change (i32 (copper c + - a) mod 2 ^ 32) with (u32 (i32 (copper c + - a))).
    rewrite unsigned_signed. unfold unsigned. by rewrite Zplus_mod_idemp_l. }
  rewrite signed_unsigned. by apply i32_id.
Qed.

End Offers.

(** ** A small market *)

Definition example_traders : gmap Z Trader :=
  {[ 1 := mkTrader 101 101 1000 11 (Some 21) true;
     2 := mkTrader 102 101 100 12 (Some 22) true;
     3 := mkTrader 103 0 700 13 (Some 23) true ]}.

Definition example_character : CharacterData := mkCharacter example_inv 0.

(** Player 101 offers the 3 + 1 potions of slot 0 for 30 copper of player 102,
    who has accepted. *)
Definition example_trade : TradeTransaction :=
  mkTransaction true
    (mkPlayer 101 [example_slot 0 0 5 3 0] 0 false (Some 1) true)
    (mkPlayer 102 [] 30 true (Some 2) true).

Definition example_market : World :=
  mkWorld example_traders {[ 11 := example_character; 12 := example_character; 13 := example_character ]}
    [1; 2; 3] {[ 101 := example_trade ]} ∅ [].

Definition example_query (name : list string) : Query := mkQueryCall 21 11 1 7 name.

Definition example_ready_query : Query := example_query [].

Lemma example_inv_stockable : stockable example_inv INV_CONTAINER.
Proof.
  split.
  - apply example_inv_wf.
  - by vm_compute.
  - intros s Hs. repeat (apply elem_of_cons in Hs as [->|Hs]; [by vm_compute|]).
    apply not_elem_of_nil in Hs. destruct Hs.
Qed.

(** ** Lemmas: an accepted trade *)

Section Accepted.
Context {db : ItemDb} (g_ServerTime g_ProtocolVersion : Z).

(** What an accepted trade leaves of the two inventories. *)
Definition after_taking (p : CharacterData) (l : list InventorySlot) : CharacterData := (take_offers p l).2.

Lemma accept_ok w q i c t origin target oc tc po pt :
  ready w q i c t origin target oc tc po pt -> stack_limits_ok -> offers_ok t po pt ->
  exists w' po' pt', helper_query_trade_accept g_ServerTime g_ProtocolVersion w q = Some (OK q, w') /\
    traders w' !! origin = Some (set_activeLootID 0
      (add_copper (coin (player1 t)) (add_copper (- coin (player0 t)) oc))) /\
    traders w' !! target = Some (set_activeLootID 0
      (add_copper (coin (player0 t)) (add_copper (- coin (player1 t)) tc))) /\
    characters w' !! charPtr oc = Some po' /\ characters w' !! charPtr tc = Some pt' /\
    tradeList w' = delete (activeLootID c) (tradeList w) /\
    let out0 ID := sumZ (weight ID) (itemList (player0 t)) in
    let out1 ID := sumZ (weight ID) (itemList (player1 t)) in
    forall ID,
      held (inventory po') ID <= held (inventory po) ID - out0 ID + out1 ID /\
      held (inventory pt') ID <= held (inventory pt) ID - out1 ID + out0 ID /\
      (all_added g_ServerTime (after_taking po (itemList (player0 t))) (itemList (player1 t)) = true ->
       held (inventory po') ID = held (inventory po) ID - out0 ID + out1 ID) /\
      (all_added g_ServerTime (after_taking pt (itemList (player1 t))) (itemList (player0 t)) = true ->
       held (inventory pt') ID = held (inventory pt) ID - out1 ID + out0 ID).
Proof.
  intros Hr Hlim [S0 S1 N0 N1 F0 F1 K0 K1].
  destruct (take_offers_spec _ po S0 N0 F0) as [A0 B0], (take_offers_spec _ pt S1 N1 F1) as [A1 B1].
  unfold all_added, after_taking. destruct (take_offers po _) as [k0 po1] eqn:T0, (take_offers pt _) as [k1 pt1] eqn:T1.
  cbn [snd] in *.
  destruct (give_offers_spec g_ServerTime _ Hlim K1 po1 A0) as (a0 & b0 & all0 & po2 & G0 & _ & H0).
  destruct (give_offers_spec g_ServerTime _ Hlim K0 pt1 A1) as (a1 & b1 & all1 & pt2 & G1 & _ & H1).
  destruct (accept_exchange g_ServerTime g_ProtocolVersion _ _ _ _ _ _ _ _ _ _ _ _ _ _ _ _ _ _ _ _ _ _ _
    Hr T0 T1 G0 G1) as (w' & E & E1 & E2 & E3 & E4 & E5).
  exists w', po2, pt2. do 6 (split; [assumption|]). intros ID.
  rewrite G0, G1. destruct (H0 ID) as [U0 V0], (H1 ID) as [U1 V1]. specialize (B0 ID). specialize (B1 ID).
  split_and!; [lia|lia| |]; intros Ha; [specialize (V0 Ha)|specialize (V1 Ha)]; lia.
Qed.

End Accepted.

(** ** Properties *)


Lemma example_ready : ready example_market example_ready_query false (mkTrader 101 101 1000 11 (Some 21) true)
  example_trade 1 2 (mkTrader 101 101 1000 11 (Some 21) true) (mkTrader 102 101 100 12 (Some 22) true)
  example_character example_character.
Proof. by split. Qed.

Lemma example_offers_ok : offers_ok example_trade example_character example_character.
Proof.
  split; cbn [itemList player0 player1 example_trade].
  - apply example_inv_stockable.
  - apply example_inv_stockable.
  - apply NoDup_singleton.
  - constructor.
  - constructor; [|done]. exists (example_slot 0 0 5 3 0). split; [by left|done].
  - constructor.
  - constructor; [by vm_compute|done].
  - constructor.
Qed.


(** [trade.items] accepts the same inventory identifier twice, and the trade
    then gives the other player the item twice while its owner loses it once. *)
Theorem duplicate_offer_duplicates {db : ItemDb} (g_ServerTime g_ProtocolVersion : Z) (w : World) (q : Query)
    (i : bool) (c : Trader) (t : TradeTransaction) (origin target : Z) (oc tc : Trader)
    (po pt : CharacterData) (arg : string) (Hready : ready w q i c t origin target oc tc po pt)
    (Hlim : stack_limits_ok) (Hst0 : stockable (inventory po) INV_CONTAINER)
    (Hst1 : stockable (inventory pt) INV_CONTAINER)
    (Hoffer : offers (inventory po) [arg; arg] = (itemList (player0 t), true))
    (Hsize : Forall offer_ok (itemList (player0 t))) (Hnone : itemList (player1 t) = [])
    (Hroom : all_added g_ServerTime pt (itemList (player0 t)) = true) :
  exists s w' po' pt', itemList (player0 t) = [s; s] /\
    helper_query_trade_accept g_ServerTime g_ProtocolVersion w q = Some (OK q, w') /\
    characters w' !! charPtr oc = Some po' /\ characters w' !! charPtr tc = Some pt' /\
    forall ID, held (inventory po') ID = held (inventory po) ID - weight ID s /\
      held (inventory pt') ID = held (inventory pt) ID + 2 * weight ID s.
Proof.
  pose proof (offers_offered (inventory po) [arg; arg]) as Hhas. rewrite Hoffer in Hhas. cbn [fst] in Hhas.
  cbn [offers] in Hoffer. destruct (GetItemPtrByCCSID _ _ ≫= _) as [x|]; [|done].
  set (s := set_CCSID _ _) in Hoffer. injection Hoffer as Hl. exists s. rewrite <- Hl in Hsize, Hroom, Hhas.
  apply list.Forall_cons in Hhas as [(y & Hy & Ey & EI & Ec) _].
  destruct (take_one po s y [s] (st_wf _ _ Hst0) Hy Ey) as (k & Hk & Ht).
  rewrite (take_none (changed _ _)) in Ht; cycle 1.
  { intros z Hz. rewrite <- Ey. exact (erase_gone _ _ k y z (st_wf _ _ Hst0) Hk Hz). }
  set (po1 := changed _ po) in Ht. change (take_offers po1 []) with (@nil Z, po1) in Ht.
  destruct (give_offers_spec g_ServerTime [s; s] Hlim Hsize pt Hst1) as (a1 & b1 & all1 & pt2 & G1 & _ & Hh).
  unfold all_added in Hroom. rewrite G1 in Hroom.
  destruct (accept_exchange g_ServerTime g_ProtocolVersion w q i c t origin target oc tc po pt
    (RemoveItemUpdate y ++ []) po1 [] pt [] [] true po1 a1 b1 all1 pt2 Hready)
    as (w' & E & _ & _ & E3 & E4 & _).
  - rewrite <- Hl. exact Ht.
  - by rewrite Hnone.
  - by rewrite Hnone.
  - rewrite <- Hl. exact G1.
  - exists w', po1, pt2. split; [done|]. split; [exact E|]. split; [exact E3|]. split; [exact E4|].
    intros ID. destruct (Hh ID) as [_ H]. specialize (H Hroom). cbn [sumZ] in H. split; [|lia].
    unfold po1. cbn [inventory changed]. rewrite (held_erase_slot _ _ _ y) by (done || apply Hst0).
    by rewrite (weight_same ID s y).
Qed.

(** Slot 0 is offered twice. *)
Definition example_duplicate : TradeTransaction :=
  mkTransaction true
    (mkPlayer 101 [example_slot 0 0 5 3 0; example_slot 0 0 5 3 0] 0 false (Some 1) true)
    (mkPlayer 102 [] 30 true (Some 2) true).

Lemma duplicate_offer_duplicates_witness :
  exists w' po' pt', helper_query_trade_accept (db := example_db) 1000 33
      (set_tradeList {[ 101 := example_duplicate ]} example_market) example_ready_query
      = Some (OK example_ready_query, w') /\
    characters w' !! 11 = Some po' /\ characters w' !! 12 = Some pt' /\
    held (db := example_db) (inventory po') 5 = 11 /\ held (db := example_db) (inventory pt') 5 = 23.
Proof.
  destruct (@duplicate_offer_duplicates example_db 1000 33
    (set_tradeList {[ 101 := example_duplicate ]} example_market) example_ready_query false
    (mkTrader 101 101 1000 11 (Some 21) true) example_duplicate 1 2 (mkTrader 101 101 1000 11 (Some 21) true)
    (mkTrader 102 101 100 12 (Some 22) true) example_character example_character "0"%string)
    as (s & w' & po' & pt' & Hl & E & E3 & E4 & H).
  - by split.
  - exact example_limits.
  - exact example_inv_stockable.
  - exact example_inv_stockable.
  - vm_compute. reflexivity.
  - repeat constructor; by vm_compute.
  - reflexivity.
  - vm_compute. reflexivity.
  - exists w', po', pt'. split; [exact E|]. split; [exact E3|]. split; [exact E4|].
    injection Hl as Hs _. destruct (H 5) as [H0 H1]. rewrite <- Hs in H0, H1. split.
    + rewrite H0. vm_compute. reflexivity.
    + rewrite H1. vm_compute. reflexivity.
Defined.

(** An acceptance is not withdrawn when the offer changes: after the other
    player has accepted, the first one may name any other amount up to his own
    coins, a negative one included, and closing the deal moves that amount. A
    negative amount takes coins from the other player, below zero if need be. *)
Theorem offer_changed_after_acceptance {db : ItemDb} (g_ServerTime g_ProtocolVersion : Z) (w : World)
    (q qc : Query) (c : Trader) (t : TradeTransaction) (origin target : Z) (oc tc : Trader)
    (po pt : CharacterData) (currency arg : string) (m : Z)
    (Hready : ready w q false c t origin target oc tc po pt) (Hlim : stack_limits_ok)
    (Hoffers : offers_ok t po pt) (Hsame : creatureInstance qc = creatureInstance q)
    (Hargs : args qc = [currency; arg]) (Hm : i32 (strtol arg 10) = m) (Hle : m <= copper oc)
    (Hr : in_i32 (copper tc - coin (player1 t) + m)) :
  exists w1 w2 tc', TradeCurrencyHandler w qc = Some (PrepExt_QueryResponseString (query_ID qc) "OK", w1) /\
    TradeAcceptHandler g_ServerTime g_ProtocolVersion w1 q
      = Some (PrepExt_QueryResponseString (query_ID q) "OK", w2) /\
    traders w2 !! target = Some tc' /\ copper tc' = copper tc - coin (player1 t) + m.
Proof.
  pose proof Hready as [H1 H2 H3 H4 H5 H6 H7 H8 H9 H10 H11 H12 H13 H14].
  set (t' := upd_player false (SetCoin m) t).
  assert (exists w1, TradeCurrencyHandler w qc = Some (PrepExt_QueryResponseString (query_ID qc) "OK", w1) /\
    traders w1 = traders w /\ characters w1 = characters w /\
    tradeList w1 !! activeLootID c = Some t') as (w1 & E & W1 & W2 & W3).
  { unfold TradeCurrencyHandler, helper_query_trade_currency. rewrite Hargs, Hm. unfold with_trade.
    rewrite Hsame, H1. cbn [mbind option_bind]. rewrite H2, H3, H4. cbn [negb player].
    destruct (tradeWindowOpen (player1 t)).
    - rewrite H7. cbn [mbind option_bind]. rewrite H9. cbn [mbind option_bind]. eexists.
      split; [reflexivity|]. cbn [fst snd]. rewrite traders_send, characters_send, tradeList_send.
      cbn [tradeList upd_trade set_tradeList]. by rewrite lookup_alter_eq, H3.
    - eexists. split; [reflexivity|]. cbn [fst snd tradeList upd_trade set_tradeList].
      by rewrite lookup_alter_eq, H3. }
  assert (ready w1 q false c t' origin target oc tc po pt) as Hready'.
  { split; rewrite ?W1, ?W2; try done. unfold trade_refusal in *. cbn zeta in *.
    cbn [t' upd_player player0 player1 itemList SetCoin coin].
    destruct (_ <? _); [done|]. destruct (_ <? _); [done|].
    rewrite (proj2 (Z.ltb_ge _ _) Hle). destruct (copper oc <? _); [done|]. exact H14. }
  destruct (accept_ok g_ServerTime g_ProtocolVersion _ _ _ _ _ _ _ _ _ _ _ Hready' Hlim)
    as (w2 & po' & pt' & E2 & _ & Et & _).
  { destruct Hoffers. by split. }
  exists w1, w2. eexists. split; [exact E|]. unfold TradeAcceptHandler. rewrite E2. split; [reflexivity|].
  split; [exact Et|]. exact (copper_after _ _ _ Hr).
Qed.

Lemma offer_changed_after_acceptance_witness :
  (** 102, who has 100 copper, accepted to pay 30 for four potions and pays 530 *)
  exists w1 w2 tc', TradeCurrencyHandler example_market (example_query ["COPPER"; "-500"]%string)
      = Some (PrepExt_QueryResponseString 7 "OK", w1) /\
    TradeAcceptHandler (db := example_db) 1000 33 w1 example_ready_query
      = Some (PrepExt_QueryResponseString 7 "OK", w2) /\
    traders w2 !! 2 = Some tc' /\ copper tc' = -430.
Proof.
  exact (@offer_changed_after_acceptance example_db 1000 33 example_market example_ready_query
    (example_query ["COPPER"; "-500"]%string) (mkTrader 101 101 1000 11 (Some 21) true) example_trade 1 2
    (mkTrader 101 101 1000 11 (Some 21) true) (mkTrader 102 101 100 12 (Some 22) true)
    example_character example_character "COPPER"%string "-500"%string (-500) example_ready example_limits
    example_offers_ok eq_refl eq_refl ltac:(vm_compute; reflexivity) ltac:(vm_compute; discriminate)
    ltac:(vm_compute; split; [discriminate|reflexivity])).
Defined.

(** Starting a trade with somebody else while one is open replaces the
    partner but keeps what the old one had offered and that he had accepted:
    the new partner pays the old one's coins as soon as the first player
    accepts, without having sent a single query. *)
Theorem restart_charges_third_party {db : ItemDb} (g_ServerTime g_ProtocolVersion : Z) (w : World)
    (qs q : Query) (c tc : Trader) (t : TradeTransaction) (target s : Z) (po pt : CharacterData)
    (Hc : traders w !! creatureInstance q = Some c) (Hinst : actInst c = true)
    (Hsame : creatureInstance qs = creatureInstance q) (Hactive : activeLootID c <> 0)
    (Ht : tradeList w !! activeLootID c = Some t) (Hinit : init t = true)
    (Hacc : accepted (player1 t) = true) (Hl0 : itemList (player0 t) = []) (Hl1 : itemList (player1 t) = [])
    (Hargs : args qs <> []) (Hid : query_GetInteger qs 0 <> 0)
    (Htarget : GetPlayerByID w (query_GetInteger qs 0) = Some target)
    (Hfree : GetExistingTradeForPlayer (tradeList w) (query_GetInteger qs 0) = None)
    (Htc : traders w !! target = Some tc) (Hsim : simulatorPtr tc = Some s)
    (Hmove : CanMoveItems w (sim qs) = true) (Hmove' : CanMoveItems w s = true)
    (Hne : creatureInstance q <> target) (Hchars : charPtr c <> charPtr tc)
    (Hpo : characters w !! charPtr c = Some po) (Hpt : characters w !! charPtr tc = Some pt)
    (Hst0 : stockable (inventory po) INV_CONTAINER) (Hst1 : stockable (inventory pt) INV_CONTAINER)
    (Hlim : stack_limits_ok) (Hpay0 : coin (player0 t) <= copper c) (Hpay1 : coin (player1 t) <= copper tc)
    (Hr : in_i32 (copper tc - coin (player1 t) + coin (player0 t))) :
  exists w1 w2 tc', TradeStartHandler w qs = Some (PrepExt_QueryResponseString (query_ID qs) "OK", w1) /\
    TradeAcceptHandler g_ServerTime g_ProtocolVersion w1 q
      = Some (PrepExt_QueryResponseString (query_ID q) "OK", w2) /\
    traders w2 !! target = Some tc' /\
    copper tc' = copper tc - coin (player1 t) + coin (player0 t).
Proof.
  set (id := activeLootID c) in *.
  set (t1 := SetPlayers (CreatureID c) (creatureInstance q) (CreatureID tc) target t).
  set (t2 := upd_player false open_window (mkTransaction true (player0 t1) (player1 t1))).
  set (c' := set_activeLootID id c). set (tc' := set_activeLootID id tc).
  assert (exists w1, TradeStartHandler w qs = Some (PrepExt_QueryResponseString (query_ID qs) "OK", w1) /\
    traders w1 !! creatureInstance q = Some c' /\ traders w1 !! target = Some tc' /\
    characters w1 = characters w /\ tradeList w1 !! id = Some t2) as (w1 & E & W1 & W2 & W3 & W4).
  { unfold TradeStartHandler, helper_query_trade_start. rewrite Hsame, Hc. cbn [mbind option_bind].
    rewrite Hinst. cbn [negb].
    rewrite (proj2 (Nat.ltb_lt 0 (length (args qs)))) by (destruct (args qs); simpl; [done|lia]).
    rewrite (proj2 (Z.eqb_neq _ _) Hid). cbn [negb]. rewrite Hmove. cbn [negb]. rewrite Htarget.
    rewrite bool_decide_eq_false_2 by (rewrite Hfree; by intros [? [=]]).
    rewrite Htc. cbn [mbind option_bind]. rewrite Hsim. cbn [mbind option_bind]. rewrite Hmove'. cbn [negb].
    fold id. rewrite (proj2 (Z.eqb_neq _ _) Hactive). unfold GetNewTransaction. rewrite Ht, Hinit.
    fold t1. unfold GetPlayerData at 1. cbn [player0 selfPlayerID].
    replace (selfPlayerID (player0 t1)) with (CreatureID c) by done. rewrite Z.eqb_refl.
    cbn [mbind option_bind]. eexists. split; [reflexivity|]. cbn [fst snd].
    rewrite traders_send, characters_send, tradeList_send.
    cbn [traders characters tradeList set_tradeList upd_trader].
    rewrite lookup_alter_ne, lookup_alter_eq, Hc by done.
    rewrite lookup_alter_eq, lookup_alter_ne, Htc by done. by rewrite lookup_insert_eq. }
  assert (ready w1 q false c' t2 (creatureInstance q) target c' tc' po pt) as Hready.
  { split; rewrite ?W3; try done.
    - unfold GetPlayerData. replace (selfPlayerID (player0 t2)) with (CreatureID c) by done.
      cbn [c' CreatureID set_activeLootID]. by rewrite Z.eqb_refl.
    - unfold trade_refusal. cbn zeta.
      replace (itemList (player0 t2)) with (@nil InventorySlot) by done.
      replace (itemList (player1 t2)) with (@nil InventorySlot) by done.
      pose proof (CountFreeSlots_nonneg _ _ (st_max _ _ Hst0)).
      pose proof (CountFreeSlots_nonneg _ _ (st_max _ _ Hst1)).
      cbn [length]. rewrite !(i32_id (_ + _)), (i32_id (Z.of_nat 0)) by (unfold in_signed; lia).
      rewrite !(proj2 (Z.ltb_ge _ _)); [done|exact Hpay1|exact Hpay0|lia..]. }
  destruct (accept_ok g_ServerTime g_ProtocolVersion _ _ _ _ _ _ _ _ _ _ _ Hready Hlim)
    as (w2 & po' & pt' & E2 & _ & Et & _).
  { split; replace (itemList (player0 t2)) with (@nil InventorySlot) by done;
      replace (itemList (player1 t2)) with (@nil InventorySlot) by done; done || constructor. }
  exists w1, w2. eexists. split; [exact E|]. unfold TradeAcceptHandler. rewrite E2. split; [reflexivity|].
  split; [exact Et|]. exact (copper_after tc' _ _ Hr).
Qed.

(** 102 has accepted to give 30 copper for nothing. *)
Definition example_gift : TradeTransaction :=
  mkTransaction true (mkPlayer 101 [] 0 false (Some 1) true) (mkPlayer 102 [] 30 true (Some 2) true).

Lemma restart_charges_third_party_witness :
  (** the gift of 102 is taken from 103 *)
  let w := set_tradeList {[ 101 := example_gift ]} example_market in
  exists w1 w2 tc', TradeStartHandler w (example_query ["103"]%string)
      = Some (PrepExt_QueryResponseString 7 "OK", w1) /\
    TradeAcceptHandler (db := example_db) 1000 33 w1 example_ready_query
      = Some (PrepExt_QueryResponseString 7 "OK", w2) /\
    traders w2 !! 3 = Some tc' /\ copper tc' = 670.
Proof.
  intros w.
  refine (@restart_charges_third_party example_db 1000 33 w (example_query ["103"]%string) example_ready_query
    (mkTrader 101 101 1000 11 (Some 21) true) (mkTrader 103 0 700 13 (Some 23) true) example_gift 3 23
    example_character example_character eq_refl eq_refl eq_refl _ eq_refl eq_refl eq_refl eq_refl eq_refl
    _ _ _ _ eq_refl eq_refl _ _ _ _ eq_refl eq_refl example_inv_stockable example_inv_stockable
    example_limits _ _ _).
  all: vm_compute; first [reflexivity|discriminate|split; [discriminate|reflexivity]].
Defined.

(** Cancelling closes the trade for both: the transaction is gone, neither is
    in a trade any more, nobody's coins or items have changed and no other
    transaction is touched. *)
Theorem TradeCancel_frees (w : World) (q : Query) (c c0 c1 : Trader) (t : TradeTransaction) (p0 p1 : Z)
    (Hc : traders w !! creatureInstance q = Some c) (Hinst : actInst c = true)
    (Ht : tradeList w !! activeLootID c = Some t)
    (Hp0 : cInst (player0 t) = Some p0) (Hp1 : cInst (player1 t) = Some p1)
    (H0 : traders w !! p0 = Some c0) (H1 : traders w !! p1 = Some c1) :
  exists w', TradeCancelHandler w q = Some (PrepExt_QueryResponseString (query_ID q) "OK", w') /\
    tradeList w' = delete (activeLootID c) (tradeList w) /\ characters w' = characters w /\
    (forall p, traders w' !! p = if bool_decide (p = p0 \/ p = p1)
                                then set_activeLootID 0 <$> traders w !! p else traders w !! p).
Proof.
  unfold TradeCancelHandler, helper_query_trade_cancel. rewrite Hc. cbn [mbind option_bind].
  rewrite Hinst. cbn [negb]. rewrite Ht. unfold CancelTransaction. rewrite Ht, Hp0, Hp1.
  cbn [mbind option_bind]. rewrite H0, H1. cbn [mbind option_bind]. eexists. split; [reflexivity|].
  cbn [fst snd traders characters tradeList RemoveTransaction set_tradeList upd_trader].
  rewrite !traders_send, !characters_send, !tradeList_send. split; [done|]. split; [done|]. intros p.
  destruct (decide (p = p1)) as [->|].
  - rewrite lookup_alter_eq, bool_decide_eq_true_2 by auto.
    destruct (decide (p1 = p0)) as [->|]; [rewrite lookup_alter_eq|by rewrite lookup_alter_ne].
    rewrite H0. done.
  - rewrite lookup_alter_ne by done. destruct (decide (p = p0)) as [->|].
    + by rewrite lookup_alter_eq, bool_decide_eq_true_2 by auto.
    + rewrite lookup_alter_ne by done. rewrite bool_decide_eq_false_2; [done|]. by intros [?|?].
Qed.

Lemma TradeCancel_frees_witness :
  exists w', TradeCancelHandler example_market example_ready_query
      = Some (PrepExt_QueryResponseString 7 "OK", w') /\
    tradeList w' !! 101 = None /\ activeLootID <$> traders w' !! 2 = Some 0.
Proof.
  destruct (TradeCancel_frees example_market example_ready_query (mkTrader 101 101 1000 11 (Some 21) true)
    (mkTrader 101 101 1000 11 (Some 21) true) (mkTrader 102 101 100 12 (Some 22) true) example_trade 1 2
    eq_refl eq_refl eq_refl eq_refl eq_refl eq_refl eq_refl) as (w' & E & El & _ & Et).
  exists w'. split; [exact E|]. rewrite El, Et. split; vm_compute; reflexivity.
Defined.
