(* ===== verification/Quest.v ===== *)
(** * Quests: definitions, references to them and the journal of a player

    Models [src/SOURCE/Server/Quest.h] and [Quest.cpp], and the quest section of
    the character file ([Character.cpp]).

    - A [QuestDefinition*] is a key of [QuestDef] (the map [mQuests]); [DefPtr] is
      [None] when it is NULL. [GetQuestPointer] caches the key in the reference.
    - A method of a reference, of a list of references or of the journal is a
      [Job] on that state: it gives the bytes it writes (the buffer positions
      [wpos] are the lengths of what was written), the new state, and the calls
      made to quest scripts in order. [None] is undefined behaviour: an index
      outside [actList] or a pointer to no definition.
    - Which scripts run is a parameter: [player CID QuestID] is the result of
      [GetActiveScript], the boolean telling whether its [source] is set. What a
      script does when it is called is not modelled. *)

From stdpp Require Import sorting.
From S2P Require Import Prelude ByteBuffer Messages Text Float StatTables Stats AbilityTime.

Definition MAXOBJECTIVES : nat := 4.
Definition objectives : list nat := seq 0 MAXOBJECTIVES.

Definition OBJECTIVE_TYPE_NONE : Z := 0.
Definition OBJECTIVE_TYPE_TRAVEL : Z := 1.
Definition OBJECTIVE_TYPE_KILL : Z := 2.
Definition OBJECTIVE_TYPE_ACTIVATE : Z := 3.
Definition OBJECTIVE_TYPE_GATHER : Z := 4.
Definition OBJECTIVE_TYPE_TALK : Z := 5.
Definition OBJECTIVE_TYPE_EMOTE : Z := 6.
Definition OBJECTIVE_TYPE_GENERIC : Z := 7.

Definition EVENTMSG_STATUS : Z := 0.
Definition EVENTMSG_ACTCOMPLETED : Z := 1.
Definition EVENTMSG_QUESTCOMPLETED : Z := 2.
Definition EVENTMSG_JOURNAL : Z := 3.
Definition EVENTMSG_JOINED : Z := 5.
Definition EVENTMSG_TURNEDIN : Z := 6.

Definition DEFAULT_ACTIVATE_TIME : Z := 2000.
Definition DEFAULT_TRAVEL_RANGE : Z := 150.

(** ** Data *)

Record QuestItemReward := mkReward { itemID : Z; itemCount : Z; required : bool }.

Definition MAXREWARDS : nat := 4.

Record QuestOutcome := mkOutcome {
  compText : string; experience : Z; numRewards : Z;
  rewardItem : list QuestItemReward; heroism : Z; valourGiven : Z }.

Record QuestObjective := mkObjective {
  type : Z; gather : bool; data1 : list Z; data2 : Z;
  ActivateTime : Z; ActivateText : string; description : string; complete : Z;
  myCreatureDefID : Z; myItemID : Z; completeText : string; markerLocations : string;
  outcome : Z }.

Record QuestAct := mkAct { objective : list QuestObjective; BodyText : string }.

Record QuestDefinition := mkDefinition {
  profession : Z; questID : Z; title : string; bodyText : string;
  levelSuggested : Z; partySize : Z; coin : Z; unabandon : bool;
  sGiver : string; sEnder : string; levelMin : Z; levelMax : Z; Requires : Z;
  QuestGiverID : Z; QuestEnderID : Z; actList : list QuestAct; actCount : Z;
  Repeat : bool; RepeatMinuteDelay : Z; guildStart : bool; guildId : Z;
  valourRequired : Z; accountQuest : bool;
  outcomes : list QuestOutcome; outcomeCount : Z }.

Record QuestReference := mkReference {
  QuestID : Z; CreatureDefID : Z; DefPtr : option Z;
  ObjCounter : list Z; ObjComplete : list Z; Complete : Z; CurAct : Z; Outcome : Z }.

Record QuestRepeatDelay := mkDelay {
  delay_QuestID : Z; StartTimeMinutes : Z; WaitTimeMinutes : Z }.

Record Journal := mkJournal {
  availableQuests : list QuestReference; completedQuests : list QuestReference;
  activeQuests : list QuestReference; availableSoonQuests : list QuestReference;
  delayedRepeat : list QuestRepeatDelay }.

(** Calls to the scripts of a quest, in the order they are made. *)
Inductive ScriptEvent :=
| UseFinish (CID targetCDefID targetCID : Z)
| JumpToLabel (CID quest : Z) (label : string)
| HaltEvent (CID quest : Z)
| RunFunction (CID quest : Z) (name : string)
| HaltExecution (CID quest : Z).

(** *** [Clear] and [Reset] *)

Definition QuestItemReward_Clear : QuestItemReward := mkReward 0 0 false.
Definition QuestOutcome_Clear : QuestOutcome :=
  mkOutcome EmptyString 0 0 (replicate MAXREWARDS QuestItemReward_Clear) 0 0.
Definition QuestObjective_Clear : QuestObjective :=
  mkObjective 0 false [] 0 0 EmptyString EmptyString 0 0 0 EmptyString EmptyString (-1).
Definition QuestAct_Clear : QuestAct := mkAct (replicate MAXOBJECTIVES QuestObjective_Clear) EmptyString.

#[export] Instance QuestItemReward_inhabited : Inhabited QuestItemReward := populate QuestItemReward_Clear.
#[export] Instance QuestObjective_inhabited : Inhabited QuestObjective := populate QuestObjective_Clear.

Definition no_objectives : list Z := replicate MAXOBJECTIVES 0.

Definition new_reference (nQuestID : Z) (questDef : option Z) (nCreatureDefID : Z) : QuestReference :=
  mkReference nQuestID nCreatureDefID questDef no_objectives no_objectives 0 0 0.

Definition ResetObjectives (q : QuestReference) : QuestReference :=
  mkReference (QuestID q) (CreatureDefID q) (DefPtr q) no_objectives no_objectives
    (Complete q) (CurAct q) (Outcome q).

Definition Reset (q : QuestReference) : QuestReference :=
  mkReference (QuestID q) (CreatureDefID q) (DefPtr q) no_objectives no_objectives 0 0 0.

(** *** Assignments *)

Definition set_DefPtr (x : option Z) (q : QuestReference) : QuestReference :=
  mkReference (QuestID q) (CreatureDefID q) x (ObjCounter q) (ObjComplete q)
    (Complete q) (CurAct q) (Outcome q).
Definition set_CreatureDefID (x : Z) (q : QuestReference) : QuestReference :=
  mkReference (QuestID q) x (DefPtr q) (ObjCounter q) (ObjComplete q)
    (Complete q) (CurAct q) (Outcome q).
Definition set_counter (i : nat) (x : Z) (q : QuestReference) : QuestReference :=
  mkReference (QuestID q) (CreatureDefID q) (DefPtr q) (<[i := x]> (ObjCounter q)) (ObjComplete q)
    (Complete q) (CurAct q) (Outcome q).
Definition set_complete (i : nat) (q : QuestReference) : QuestReference :=
  mkReference (QuestID q) (CreatureDefID q) (DefPtr q) (ObjCounter q) (<[i := 1]> (ObjComplete q))
    (Complete q) (CurAct q) (Outcome q).
Definition set_CurAct (x : Z) (q : QuestReference) : QuestReference :=
  mkReference (QuestID q) (CreatureDefID q) (DefPtr q) (ObjCounter q) (ObjComplete q)
    (Complete q) x (Outcome q).
Definition set_Complete0 (q : QuestReference) : QuestReference :=
  mkReference (QuestID q) (CreatureDefID q) (DefPtr q) (ObjCounter q) (ObjComplete q)
    0 (CurAct q) (Outcome q).
Definition set_Outcome (x : Z) (q : QuestReference) : QuestReference :=
  mkReference (QuestID q) (CreatureDefID q) (DefPtr q) (ObjCounter q) (ObjComplete q)
    (Complete q) (CurAct q) x.

Definition set_available (x : list QuestReference) (j : Journal) : Journal :=
  mkJournal x (completedQuests j) (activeQuests j) (availableSoonQuests j) (delayedRepeat j).
Definition set_completed (x : list QuestReference) (j : Journal) : Journal :=
  mkJournal (availableQuests j) x (activeQuests j) (availableSoonQuests j) (delayedRepeat j).
Definition set_active (x : list QuestReference) (j : Journal) : Journal :=
  mkJournal (availableQuests j) (completedQuests j) x (availableSoonQuests j) (delayedRepeat j).
Definition set_soon (x : list QuestReference) (j : Journal) : Journal :=
  mkJournal (availableQuests j) (completedQuests j) (activeQuests j) x (delayedRepeat j).
Definition set_delayed (x : list QuestRepeatDelay) (j : Journal) : Journal :=
  mkJournal (availableQuests j) (completedQuests j) (activeQuests j) (availableSoonQuests j) x.

(** ** Jobs *)

Definition Job (S A : Type) : Type := S -> option (A * S * list ScriptEvent).

#[export] Instance Job_ret S : MRet (Job S) := fun A a s => Some (a, s, []).
#[export] Instance Job_bind S : MBind (Job S) := fun A B f m s =>
  match m s with
  | Some (a, s1, w1) =>
      match f a s1 with
      | Some (b, s2, w2) => Some (b, s2, w1 ++ w2)
      | None => None
      end
  | None => None
  end.

Definition get {S} : Job S S := fun s => Some (s, s, []).
Definition modify {S} (f : S -> S) : Job S unit := fun s => Some (tt, f s, []).
Definition emit {S} (w : list ScriptEvent) : Job S unit := fun s => Some (tt, s, w).
Definition given {S A} (o : option A) : Job S A := fun s => a ← o; Some (a, s, []).

(** One pass of a loop after the other, their writes in order. *)
Fixpoint loop {S I} (l : list I) (body : I -> Job S (list Z)) : Job S (list Z) :=
  match l with
  | [] => mret []
  | i :: t => w1 ← body i; w2 ← loop t body; mret (w1 ++ w2)
  end.

(** A loop over a list of references that runs [f] on each in place. *)
Fixpoint each (f : Job QuestReference (list Z)) (l : list QuestReference)
    : option (list Z * list QuestReference * list ScriptEvent) :=
  match l with
  | [] => Some ([], [], [])
  | q :: t =>
      match f q with
      | Some (w1, q', e1) =>
          match each f t with
          | Some (w2, t', e2) => Some (w1 ++ w2, q' :: t', e1 ++ e2)
          | None => None
          end
      | None => None
      end
  end.

(** A search: the index of the first reference for which [f] answers yes; [f] runs,
    and may cache a pointer, on the references before it. *)
Fixpoint scan_from (f : Job QuestReference bool) (pos : Z) (l : list QuestReference)
    : option (Z * list QuestReference * list ScriptEvent) :=
  match l with
  | [] => Some (-1, [], [])
  | q :: t =>
      match f q with
      | Some (b, q', e1) =>
          if (b : bool) then Some (pos, q' :: t, e1)
          else match scan_from f (pos + 1) t with
               | Some (r, t', e2) => Some (r, q' :: t', e1 ++ e2)
               | None => None
               end
      | None => None
      end
  end.

Definition scan (f : Job QuestReference bool) : Job (list QuestReference) Z := scan_from f 0.

(** A job on one of the lists of the journal. *)
Definition on_active {A} (f : Job (list QuestReference) A) : Job Journal A := fun j =>
  match f (activeQuests j) with Some (a, l, e) => Some (a, set_active l j, e) | None => None end.
Definition on_available {A} (f : Job (list QuestReference) A) : Job Journal A := fun j =>
  match f (availableQuests j) with Some (a, l, e) => Some (a, set_available l j, e) | None => None end.
Definition on_soon {A} (f : Job (list QuestReference) A) : Job Journal A := fun j =>
  match f (availableSoonQuests j) with Some (a, l, e) => Some (a, set_soon l j, e) | None => None end.
Definition on_completed {A} (f : Job (list QuestReference) A) : Job Journal A := fun j =>
  match f (completedQuests j) with Some (a, l, e) => Some (a, set_completed l j, e) | None => None end.

(** [itemList[r]] is run in place; an index outside the list is undefined. *)
Definition at_index {A} (r : Z) (f : Job QuestReference A) : Job (list QuestReference) A := fun l =>
  match (if r <? 0 then None else l !! Z.to_nat r) with
  | Some q => match f q with
              | Some (a, q', e) => Some (a, <[Z.to_nat r := q']> l, e)
              | None => None
              end
  | None => None
  end.

(** ** Objectives, outcomes and definitions *)

(** The first index of [v], [-1] if it has none. *)
Definition index_of (v : Z) (l : list Z) : Z := idx (find_idx (Z.eqb v) l).

Definition HasObjectiveCDef (o : QuestObjective) (objType objCDef : Z) : Z :=
  let listed := index_of objCDef (data1 o) in
  if ((objType =? -1) || (objType =? OBJECTIVE_TYPE_KILL)) && (0 <=? listed) then listed
  else if ((objType =? -1) || (objType =? OBJECTIVE_TYPE_ACTIVATE)) && (0 <=? listed) then listed
  else if ((objType =? -1) || (objType =? OBJECTIVE_TYPE_TALK)) && (myCreatureDefID o =? objCDef) then 0
  else -1.

Definition TypeNames : list (string * Z) :=
  [("NONE", OBJECTIVE_TYPE_NONE); ("KILL", OBJECTIVE_TYPE_KILL); ("TRAVEL", OBJECTIVE_TYPE_TRAVEL);
   ("ACTIVATE", OBJECTIVE_TYPE_ACTIVATE); ("GATHER", OBJECTIVE_TYPE_GATHER);
   ("TALK", OBJECTIVE_TYPE_TALK); ("EMOTE", OBJECTIVE_TYPE_EMOTE);
   ("GENERIC", OBJECTIVE_TYPE_GENERIC)]%string.

Fixpoint assoc_type (name : string) (l : list (string * Z)) : Z :=
  match l with
  | [] => OBJECTIVE_TYPE_NONE
  | (n, t) :: rest => if String.eqb name n then t else assoc_type name rest
  end.

Definition GetTypeByName (name : string) : Z := assoc_type name (tail TypeNames).

Definition obj (a : QuestAct) (i : nat) : QuestObjective := objective a !!! i.

(** [actList[i]]; the index is an [int]. *)
Definition act_at (qd : QuestDefinition) (i : Z) : option QuestAct :=
  if i <? 0 then None else actList qd !! Z.to_nat i.

Definition GetActPtrByIndex (qd : QuestDefinition) (index : Z) : option QuestAct :=
  if (index <? 0) || (Z.of_nat (length (actList qd)) <=? index) then None else act_at qd index.

(** The loop over the objectives of an act in [GetObjective]. *)
Definition find_objective (a : QuestAct) (objType CDefID : Z) : option nat :=
  find_idx (fun i => 0 <=? HasObjectiveCDef (obj a i) objType CDefID) objectives.

Fixpoint find_in_acts (qd : QuestDefinition) (objType CDefID : Z) (acts : list nat) : option Z :=
  match acts with
  | [] => Some (-1)
  | act :: rest =>
      a ← act_at qd (Z.of_nat act);
      match find_objective a objType CDefID with
      | Some i => Some (Z.of_nat i)
      | None => find_in_acts qd objType CDefID rest
      end
  end.

Definition GetObjective (qd : QuestDefinition) (act objType CDefID : Z) : option Z :=
  if (act <? -1) || (negb (act =? -1) && (Z.of_nat (length (actList qd)) <=? act)) then Some (-1)
  else if act =? -1 then find_in_acts qd objType CDefID (seq 0 (Z.to_nat (actCount qd)))
  else a ← act_at qd act; Some (idx (find_objective a objType CDefID)).

Definition GetOutcome (qd : QuestDefinition) (index : Z) : option QuestOutcome :=
  if (0 <=? index) && (index <? outcomeCount qd) then outcomes qd !! Z.to_nat index else None.

Definition AddOutcome (qo : QuestOutcome) (qd : QuestDefinition) : QuestDefinition :=
  mkDefinition (profession qd) (questID qd) (title qd) (bodyText qd) (levelSuggested qd)
    (partySize qd) (coin qd) (unabandon qd) (sGiver qd) (sEnder qd) (levelMin qd) (levelMax qd)
    (Requires qd) (QuestGiverID qd) (QuestEnderID qd) (actList qd) (actCount qd) (Repeat qd)
    (RepeatMinuteDelay qd) (guildStart qd) (guildId qd) (valourRequired qd) (accountQuest qd)
    (outcomes qd ++ [qo]) (outcomeCount qd + 1).

Definition set_acts (acts : list QuestAct) (count : Z) (qd : QuestDefinition) : QuestDefinition :=
  mkDefinition (profession qd) (questID qd) (title qd) (bodyText qd) (levelSuggested qd)
    (partySize qd) (coin qd) (unabandon qd) (sGiver qd) (sEnder qd) (levelMin qd) (levelMax qd)
    (Requires qd) (QuestGiverID qd) (QuestEnderID qd) acts count (Repeat qd)
    (RepeatMinuteDelay qd) (guildStart qd) (guildId qd) (valourRequired qd) (accountQuest qd)
    (outcomes qd) (outcomeCount qd).

Definition AddAct (act : QuestAct) (qd : QuestDefinition) : QuestDefinition :=
  set_acts (actList qd ++ [act]) (actCount qd + 1) qd.

(** [GetLastOutcome] with the definition it may have grown. *)
Definition GetLastOutcome (qd : QuestDefinition) : option (QuestOutcome * QuestDefinition) :=
  let qd := if outcomeCount qd =? 0 then AddOutcome QuestOutcome_Clear qd else qd in
  o ← list.last (outcomes qd); Some (o, qd).

Definition QuestItemReward_Print (r : QuestItemReward) : string :=
  if itemID r =? 0 then EmptyString
  else "id:" +:+ sprintf_d (itemID r) +:+ " count:" +:+ sprintf_d (itemCount r) +:+ " required:"
       +:+ (if required r then "true" else "false").

(** *** Selecting rewards *)

Record Selection := mkSelection {
  possibleRewards : Z; choiceCount : Z; outputRewardList : list QuestItemReward }.

(** One pass of the loop of [FilterSelectedRewards]. *)
Definition select_reward (selectedIndexes : list Z) (o : QuestOutcome) (s : Selection) (i : nat) : Selection :=
  let r := rewardItem o !!! i in
  if itemID r =? 0 then s
  else
    let chosen := 0 <=? index_of (Z.of_nat i) selectedIndexes in
    mkSelection (possibleRewards s + 1)
      (if negb (required r) && chosen then choiceCount s + 1 else choiceCount s)
      (if required r || chosen then outputRewardList s ++ [r] else outputRewardList s).

Definition FilterSelectedRewards (qd : QuestDefinition) (outcomeIndex : Z)
    (selectedIndexes : list Z) (out : list QuestItemReward) : bool * list QuestItemReward :=
  match GetOutcome qd outcomeIndex with
  | None => (false, out)
  | Some o =>
      let s := foldl (select_reward selectedIndexes o) (mkSelection 0 0 out) (seq 0 MAXREWARDS) in
      (negb ((0 <? numRewards o) && negb (choiceCount s =? numRewards o) && (1 <? possibleRewards s)),
       outputRewardList s)
  end.

(** *** Loading defaults *)

Definition default_objective (o : QuestObjective) : QuestObjective :=
  if (type o =? OBJECTIVE_TYPE_ACTIVATE) && (ActivateTime o =? 0) then
    mkObjective (type o) (gather o) (data1 o) (data2 o) DEFAULT_ACTIVATE_TIME (ActivateText o)
      (description o) (complete o) (myCreatureDefID o) (myItemID o) (completeText o)
      (markerLocations o) (outcome o)
  else if (type o =? OBJECTIVE_TYPE_TRAVEL) && (data2 o =? 0) then
    mkObjective (type o) (gather o) (data1 o) DEFAULT_TRAVEL_RANGE (ActivateTime o) (ActivateText o)
      (description o) (complete o) (myCreatureDefID o) (myItemID o) (completeText o)
      (markerLocations o) (outcome o)
  else o.

(** The objectives part of [RunLoadDefaults]. *)
Definition RunLoadDefaults_objectives (qd : QuestDefinition) : QuestDefinition :=
  set_acts (map (fun a => mkAct (map default_objective (objective a)) (BodyText a)) (actList qd))
    (actCount qd) qd.

Definition unit_minutes (c : Ascii.ascii) : option Z :=
  if (code c =? 109) || (code c =? 77) then Some 1
  else if (code c =? 104) || (code c =? 72) then Some 60
  else if (code c =? 100) || (code c =? 68) then Some 1440
  else None.

(** The product is an [int] that is converted to [unsigned long]. *)
Definition CalculateMinutesFromString (format : string) : Z :=
  match format with
  | EmptyString => 0
  | String c rest =>
      match unit_minutes c with
      | Some multiplier =>
          match rest with
          | EmptyString => 0
          | String _ _ => unsigned 64 (i32 (atoi rest * multiplier))
          end
      | None => unsigned 64 (atoi format)
      end
  end.

(** ** A reference *)

Definition eventMsg (quest event : Z) (rest : list Z) : list Z :=
  PutByte 7 ++ PutShort 0 ++ PutInteger quest ++ PutByte event ++ rest.

Definition status_body (quest : Z) (index : nat) (done : Z) (text : string) : list Z :=
  eventMsg quest EVENTMSG_STATUS (PutByte (Z.of_nat index) ++ PutByte done ++ PutStringUTF text).

Definition PrepExt_QuestStatusMessage (quest : Z) (objectiveIndex : nat) (complete : bool)
    (message : string) : list Z :=
  seal (status_body quest objectiveIndex (if complete then 1 else 0) message).

Definition CompleteQuest (qdef : QuestDefinition) : list Z :=
  seal (eventMsg (questID qdef) EVENTMSG_QUESTCOMPLETED []).

Definition QuestJournalMsg (CID : Z) (qdef : QuestDefinition) : list Z :=
  seal (eventMsg (questID qdef) EVENTMSG_JOURNAL (PutInteger CID)).

Definition CheckCompletedAct (q : QuestReference) (a : QuestAct) : Z :=
  let needed := filter (fun b => type (obj a b) <> OBJECTIVE_TYPE_NONE) objectives in
  let reqCount := Z.of_nat (length needed) in
  let hasCount := Z.of_nat (length (filter (fun b => ObjComplete q !!! b <> 0) needed)) in
  if reqCount <=? hasCount then 1 else 0.

Section Defs.
Context (QuestDef : gmap Z QuestDefinition).
(** [GetActiveScript]: whether a script runs for this creature and quest, and
    whether its [source] is set. *)
Context (player : Z -> Z -> option bool).

Definition GetQuestDefPtrByID (id : Z) : option Z :=
  match QuestDef !! id with Some _ => Some id | None => None end.

(** [*p]. *)
Definition definition {S} (p : Z) : Job S QuestDefinition := given (QuestDef !! p).

(** The pointer, cached in [DefPtr], and what it points to. *)
Definition GetQuestPointer : Job QuestReference (option QuestDefinition) :=
  q ← get;
  match DefPtr q with
  | Some p => qd ← definition p; mret (Some qd)
  | None =>
      match QuestDef !! QuestID q with
      | Some qd => _ ← modify (set_DefPtr (Some (QuestID q))); mret (Some qd)
      | None => mret None
      end
  end.

(** Calls [k] of the script of the quest if it runs. *)
Definition script {S} (CID quest : Z) (k : list ScriptEvent) : Job S unit :=
  emit match player CID quest with Some _ => k | None => [] end.

Definition RunObjectiveCompleteScripts (CID act : Z) (o : nat) : Job QuestReference unit :=
  q ← get;
  script CID (QuestID q)
    [JumpToLabel CID (QuestID q)
       ("on_objective_complete_" +:+ sprintf_d act +:+ "_" +:+ sprintf_d (Z.of_nat o))].

Definition ClearObjectiveData (q : QuestReference) : QuestReference := ResetObjectives q.

(** [CurAct] is a [short]. *)
Definition AdvanceAct_state (qd : QuestDefinition) (q : QuestReference) : QuestReference :=
  let q := set_CurAct (signed 16 (CurAct q + 1)) q in
  if actCount qd <=? CurAct q then set_CurAct (signed 16 (actCount qd - 1)) q
  else set_Complete0 (ClearObjectiveData q).

Definition AdvanceAct (CID : Z) (qd : QuestDefinition) : Job QuestReference (list Z) :=
  q ← get;
  _ ← modify (AdvanceAct_state qd);
  q' ← get;
  _ ← script CID (questID qd) [JumpToLabel CID (questID qd) ("on_advance_act_" +:+ sprintf_d (CurAct q'))];
  mret (seal (eventMsg (QuestID q) EVENTMSG_ACTCOMPLETED (PutInteger (CurAct q)))).

(** The loop that completes the other objectives of the act when objective [o] has
    an outcome; [message i] is what is written for objective [i]. *)
Definition complete_others (idxs : list nat) (o : nat) (message : nat -> list Z) : Job QuestReference (list Z) :=
  loop idxs (fun i =>
    q ← get;
    if negb (i =? o)%nat && (ObjComplete q !!! i =? 0) then
      _ ← modify (set_complete i); mret (message i)
    else mret []).

Definition CheckQuestObjective (CID objType targetCDefID targetCID : Z) : Job QuestReference (list Z) :=
  q ← get;
  match DefPtr q with
  | None => mret []
  | Some p =>
      qd ← definition p;
      if (CurAct q <? 0) || (Z.of_nat (length (actList qd)) <=? CurAct q) then mret []
      else
        r ← given (GetObjective qd (CurAct q) objType targetCDefID);
        if r <? 0 then mret []
        else if Z.of_nat MAXOBJECTIVES <=? r then mret []
        else
          let o := Z.to_nat r in
          if ObjComplete q !!! o =? 1 then mret []
          else
            a ← given (act_at qd (CurAct q));
            let count := signed 16 (ObjCounter q !!! o + 1) in
            let done := data2 (obj a o) <=? count in
            _ ← modify (fun q => let q := set_counter o count q in if done then set_complete o q else q);
            q1 ← get;
            let w1 := seal (status_body (QuestID q) o (ObjComplete q1 !!! o)
                              (if done then "Complete"
                               else sprintf_d count +:+ " of " +:+ sprintf_d (data2 (obj a o)))) in
            w2 ← (if -1 <? outcome (obj a o) then
                    w ← complete_others (seq 0 3) o (fun i => seal (status_body (QuestID q) i 1 EmptyString));
                    _ ← modify (set_Outcome (outcome (obj a o)));
                    mret w
                  else mret []);
            _ ← script CID (questID qd)
                  ((match player CID (questID qd) with
                    | Some true => [UseFinish CID targetCDefID targetCID]
                    | _ => []
                    end)
                   ++ [JumpToLabel CID (questID qd)
                         ("on_objective_incr_" +:+ sprintf_d (CurAct q) +:+ "_" +:+ sprintf_d r)]);
            q2 ← get;
            if negb (ObjComplete q2 !!! o =? 1) then mret (w1 ++ w2)
            else
              _ ← RunObjectiveCompleteScripts CID (CurAct q2) o;
              if CheckCompletedAct q2 a =? 1 then
                if CurAct q2 <? actCount qd - 1 then
                  w3 ← AdvanceAct CID qd;
                  mret (w1 ++ w2 ++ w3)
                else
                  _ ← script CID (questID qd) [HaltEvent CID (questID qd)];
                  mret (w1 ++ w2 ++ CompleteQuest qd ++ QuestJournalMsg CID qd)
              else mret (w1 ++ w2)
  end.

(** Coordinates are [int]s. *)
Definition near (a b range : Z) : bool := Z.abs (i32 (a - b)) <=? range.

(** The loop of [CheckTravelLocation] from objective [i]. *)
Fixpoint travel_from (q : QuestReference) (a : QuestAct) (x y z zone : Z) (idxs : list nat) : Z :=
  match idxs with
  | [] => -1
  | i :: rest =>
      if negb (ObjComplete q !!! i =? 0) then travel_from q a x y z zone rest
      else if type (obj a i) =? OBJECTIVE_TYPE_TRAVEL then
        match data1 (obj a i) with
        | dx :: dy :: dz :: dzone :: _ =>
            if (zone =? dzone) && near x dx (data2 (obj a i)) && near y dy (data2 (obj a i))
               && near z dz (data2 (obj a i))
            then Z.of_nat i
            else travel_from q a x y z zone rest
        | _ => -1
        end
      else travel_from q a x y z zone rest
  end.

Definition CheckTravelLocation (x y z zone : Z) : Job QuestReference Z :=
  qdef ← GetQuestPointer;
  match qdef with
  | None => mret (-1)
  | Some qd =>
      q ← get;
      a ← given (act_at qd (CurAct q));
      mret (travel_from q a x y z zone objectives)
  end.

Definition TestInvalid : Job QuestReference bool :=
  qdef ← GetQuestPointer;
  q ← get;
  match qdef with
  | None => mret true
  | Some qd => mret ((CurAct q <? 0) || (Z.of_nat (length (actList qd)) <=? CurAct q))
  end.

(** ** Lists of references *)

Definition HasQuestID (searchVal : Z) (l : list QuestReference) : Z :=
  idx (find_idx (fun q => QuestID q =? searchVal) l).

Definition GetItem (searchVal : Z) (l : list QuestReference) : option nat :=
  find_idx (fun q => QuestID q =? searchVal) l.

Definition HasCreatureDef (searchVal : Z) (l : list QuestReference) : Z :=
  idx (find_idx (fun q => CreatureDefID q =? searchVal) l).

Definition RemoveIndex (index : Z) (l : list QuestReference) : list QuestReference :=
  if (index <? 0) || (Z.of_nat (length l) <=? index) then l else delete (Z.to_nat index) l.

Definition AddItem (q : QuestReference) (l : list QuestReference) : list QuestReference := l ++ [q].

Definition AddItem_new (newQuestID : Z) (qdef : option Z) (l : list QuestReference) : list QuestReference :=
  l ++ [new_reference newQuestID qdef 0].

(** The body does nothing in the source: the lists are not sorted. *)
Definition Sort (l : list QuestReference) : list QuestReference := l.

Definition talks_to (a : QuestAct) (cdef : Z) : bool :=
  existsb (fun b => (type (obj a b) =? OBJECTIVE_TYPE_TALK) && (myCreatureDefID (obj a b) =? cdef))
    objectives.

Definition HasCreatureReturn (searchVal : Z) : Job (list QuestReference) Z :=
  scan (qdef ← GetQuestPointer;
        match qdef with
        | None => mret false
        | Some qd =>
            q ← get;
            if searchVal =? -1 then
              a ← given (act_at qd (actCount qd - 1));
              mret (negb (type (obj a 0) =? OBJECTIVE_TYPE_TALK))
            else
              a ← given (act_at qd (CurAct q));
              mret (talks_to a searchVal)
        end).

Definition HasObjectInteraction (cdef : Z) : Job (list QuestReference) Z :=
  scan (q ← get;
        if negb (Complete q =? 0) then mret false
        else
          qdef ← GetQuestPointer;
          match qdef with
          | None => mret false
          | Some qd =>
              let open := filter (fun b => ObjComplete q !!! b = 0) objectives in
              if bool_decide (open = []) then mret false
              else
                a ← given (act_at qd (CurAct q));
                mret (existsb (fun b =>
                        (type (obj a b) =? OBJECTIVE_TYPE_ACTIVATE)
                        && (0 <=? HasObjectiveCDef (obj a b) OBJECTIVE_TYPE_ACTIVATE cdef)) open)
          end).

Definition GetAvailableQuestFor (cdef : Z) (completed : list QuestReference) : Job (list QuestReference) Z :=
  scan (q ← get;
        if negb (CreatureDefID q =? cdef) then mret false
        else
          qdef ← GetQuestPointer;
          match qdef with
          | None => mret false
          | Some qd =>
              mret (if Requires qd =? 0 then true else 0 <=? HasQuestID (Requires qd) completed)
          end).

(** The loop that removes the first invalid entry until there is none; the pointers
    the search has cached stay. *)
Fixpoint remove_invalid (fuel : nat) : Job (list QuestReference) unit :=
  index ← scan TestInvalid;
  if index <? 0 then mret tt
  else match fuel with
       | O => given None
       | S fuel' => _ ← modify (RemoveIndex index); remove_invalid fuel'
       end.

(** [std::unique]: drops an entry equal to the one kept before it. *)
Fixpoint unique_from (last : Z) (l : list QuestReference) : list QuestReference :=
  match l with
  | [] => []
  | q :: t => if QuestID q =? last then unique_from last t else q :: unique_from (QuestID q) t
  end.

Definition unique (l : list QuestReference) : list QuestReference :=
  match l with [] => [] | q :: t => q :: unique_from (QuestID q) t end.

Definition RemoveInvalidEntries : Job (list QuestReference) unit :=
  l ← get;
  _ ← remove_invalid (length l);
  modify unique.

Definition ResolveIDs : Job (list QuestReference) unit := fun l =>
  match each (qdef ← GetQuestPointer;
              _ ← modify (fun q => match qdef with
                                   | Some qd => set_CreatureDefID (QuestGiverID qd) q
                                   | None => q
                                   end);
              mret []) l with
  | Some (_, l', e) => Some (tt, l', e)
  | None => None
  end.

(** ** The journal: taking, completing and leaving quests *)

(** [AddPendingQuest]: the new item is passed by reference, and may have its
    pointer resolved. *)
Definition AddPendingQuest (newItem : QuestReference) : Job Journal unit := fun j =>
  if 0 <=? HasQuestID (QuestID newItem) (completedQuests j) then Some (tt, j, [])
  else
    '(qdef, newItem, e) ←
      (if 0 <=? HasQuestID (QuestID newItem) (activeQuests j) then GetQuestPointer newItem
       else Some (None, newItem, []));
    let active := 0 <=? HasQuestID (QuestID newItem) (activeQuests j) in
    let repeatable := match qdef with Some qd => Repeat qd | None => false end in
    if active && negb repeatable then Some (tt, j, e)
    else if 0 <=? HasQuestID (QuestID newItem) (availableQuests j) then Some (tt, j, e)
    else Some (tt, set_available (Sort (AddItem newItem (availableQuests j))) j, e).

Definition QuestJoin_Helper (quest : Z) (j : Journal) : Z * Journal :=
  if 0 <=? HasQuestID quest (completedQuests j) then (-1, j)
  else if 0 <=? HasQuestID quest (activeQuests j) then (-1, j)
  else match GetItem quest (availableQuests j) with
       | None => (-1, j)
       | Some r =>
           match availableQuests j !! r with
           | None => (-1, j)
           | Some q =>
               let j := set_active (Sort (AddItem q (activeQuests j))) j in
               let preserve := match QuestDef !! quest with Some qd => Repeat qd | None => false end in
               (0, if preserve then j
                   else set_available (RemoveIndex (Z.of_nat r) (availableQuests j)) j)
           end
       end.

Definition SHARE_SUCCESS_QUALIFIES : Z := 0.
Definition SHARE_FAILED_COMPLETED : Z := -1.
Definition SHARE_FAILED_ACTIVE : Z := -2.
Definition SHARE_FAILED_INVALIDQUEST : Z := -3.
Definition SHARE_FAILED_REQUIRE : Z := -4.
Definition SHARE_FAILED_AVAILABLE : Z := -5.

Definition CheckQuestShare (quest : Z) (j : Journal) : Z :=
  if 0 <=? HasQuestID quest (completedQuests j) then SHARE_FAILED_COMPLETED
  else if 0 <=? HasQuestID quest (activeQuests j) then SHARE_FAILED_ACTIVE
  else match QuestDef !! quest with
       | None => SHARE_FAILED_INVALIDQUEST
       | Some qd =>
           if (0 <? Requires qd) && (HasQuestID (Requires qd) (completedQuests j) =? -1)
           then SHARE_FAILED_REQUIRE
           else if HasQuestID quest (availableQuests j) =? -1 then SHARE_FAILED_AVAILABLE
           else SHARE_SUCCESS_QUALIFIES
       end.

Definition GetQuestShareErrorString (errCode : Z) : string :=
  switch errCode
    [(SHARE_FAILED_COMPLETED, "You have already completed that quest.");
     (SHARE_FAILED_ACTIVE, "You already have that quest.");
     (SHARE_FAILED_INVALIDQUEST, "That quest does not exist.");
     (SHARE_FAILED_REQUIRE, "You have not finished the requirements to unlock that quest.");
     (SHARE_FAILED_AVAILABLE, "That quest is not available.");
     (SHARE_SUCCESS_QUALIFIES, "That quest is available.")]%string "Unknown error"%string.

Definition GetCurrentAct (quest : Z) (j : Journal) : Z :=
  match GetItem quest (activeQuests j) ≫= (activeQuests j !!.) with
  | Some q => CurAct q
  | None => 0
  end.

(** The start time 0 stands for the present, [now]. *)
Definition AddQuestRepeatDelay (now quest startTimeMinutes waitTimeMinutes : Z) (j : Journal) : Journal :=
  set_delayed (delayedRepeat j ++
    [mkDelay quest (if startTimeMinutes =? 0 then now else startTimeMinutes) waitTimeMinutes]) j.

(** The lock taken by [GetThread] is not modelled. *)
Definition QuestComplete (now quest : Z) : Job Journal Z := fun j =>
  match GetItem quest (activeQuests j) with
  | None => Some (-1, j, [])
  | Some r =>
      '(qdef, l, e) ← at_index (Z.of_nat r) GetQuestPointer (activeQuests j);
      let j := set_active l j in
      match qdef with
      | None => Some (-1, j, e)
      | Some qd =>
          q ← l !! r;
          let j := if Repeat qd then j
                   else
                     let j := set_completed (Sort (AddItem q (completedQuests j))) j in
                     if 0 <? RepeatMinuteDelay qd
                     then AddQuestRepeatDelay now (questID qd) 0 (RepeatMinuteDelay qd) j else j in
          Some (1, set_active (RemoveIndex (Z.of_nat r) (activeQuests j)) j, e)
      end
  end.

Definition QuestLeave (CID quest : Z) : Job Journal unit := fun j =>
  match GetItem quest (activeQuests j) with
  | None => Some (tt, j, [])
  | Some r =>
      q ← activeQuests j !! r;
      let q := Reset q in
      let j := match QuestDef !! quest with
               | Some qd => if Repeat qd then j
                            else set_available (Sort (AddItem q (availableQuests j))) j
               | None => j
               end in
      Some (tt, set_active (RemoveIndex (Z.of_nat r) (activeQuests j)) j,
            match player CID quest with
            | Some _ => [RunFunction CID quest "on_leave"; HaltExecution CID quest]
            | None => []
            end)
  end.

Definition QuestResetObjectives (quest : Z) (j : Journal) : Journal :=
  match GetItem quest (activeQuests j) with
  | Some r => set_active (alter ResetObjectives r (activeQuests j)) j
  | None => j
  end.

Definition QuestClear (CID quest : Z) : Job Journal unit :=
  _ ← QuestLeave CID quest;
  modify (fun j =>
    match GetItem quest (completedQuests j) ≫= (fun r => q ← completedQuests j !! r; Some (r, q)) with
    | Some (r, q) =>
        let j := match QuestDef !! quest with
                 | Some _ => set_available (Sort (AddItem (Reset q) (availableQuests j))) j
                 | None => j
                 end in
        set_completed (RemoveIndex (Z.of_nat r) (completedQuests j)) j
    | None => j
    end).

(** ** What the client asks *)

Definition QuestIndicator_names : list string :=
  ["NONE"; "WILL_HAVE_QUEST"; "HAVE_QUEST"; "PLAYER_ON_QUEST"; "QUEST_COMPLETED"; "QUEST_INTERACT"]%string.

Inductive Indicator := NONE | WILL_HAVE_QUEST | HAVE_QUEST | PLAYER_ON_QUEST | QUEST_COMPLETED | QUEST_INTERACT.

Definition QueryResponse_name (i : Indicator) : string :=
  nth (match i with
       | NONE => 0 | WILL_HAVE_QUEST => 1 | HAVE_QUEST => 2
       | PLAYER_ON_QUEST => 3 | QUEST_COMPLETED => 4 | QUEST_INTERACT => 5
       end)%nat QuestIndicator_names EmptyString.

Definition QuestIndicator (cdef : Z) : Job Journal Indicator :=
  r ← on_active (HasCreatureReturn cdef);
  if 0 <=? r then mret QUEST_INTERACT
  else
    j ← get;
    if 0 <=? HasCreatureDef cdef (activeQuests j) then mret PLAYER_ON_QUEST
    else
      r ← on_available (GetAvailableQuestFor cdef (completedQuests j));
      if 0 <=? r then mret HAVE_QUEST
      else
        r ← on_soon (GetAvailableQuestFor cdef (completedQuests j));
        mret (if 0 <=? r then WILL_HAVE_QUEST else NONE).

(** [QuestGetQuestOffer] before its number is printed. *)
Definition QuestOffer (cdef : Z) : Job Journal Z :=
  j ← get;
  r ← on_available (scan (
        qdef ← GetQuestPointer;
        match qdef with
        | None => mret false
        | Some qd =>
            mret ((QuestGiverID qd =? cdef)
                  && ((Requires qd =? 0) || negb (HasQuestID (Requires qd) (completedQuests j) =? -1)))
        end));
  if r <? 0 then mret 0
  else
    j ← get;
    q ← given (availableQuests j !! Z.to_nat r);
    qd ← given (DefPtr q ≫= (QuestDef !!.));
    mret (questID qd).

Definition QuestGetQuestOffer (cdef : Z) : Job Journal string :=
  n ← QuestOffer cdef; mret (sprintf_d n).

Definition WriteQuestJoin (quest : Z) : list Z := seal (eventMsg quest EVENTMSG_JOINED []).

Definition QuestJoin (quest QueryIndex : Z) (j : Journal) : list Z * Journal :=
  let '(r, j) := QuestJoin_Helper quest j in
  (PrepExt_QueryResponseString QueryIndex "OK" ++
   (if r =? 0 then WriteQuestJoin quest
    else PrepExt_SendInfoMessage "Unable to join quest." INFOMSG_ERROR), j).

Definition QuestGetCompleteQuest_Helper (cdef : Z) : Job Journal Z :=
  r ← on_active (HasCreatureReturn cdef);
  if r =? -1 then mret (-1)
  else j ← get; q ← given (activeQuests j !! Z.to_nat r); mret (QuestID q).

Definition QuestGetCompleteQuest (cdef QueryIndex : Z) : Job Journal (list Z) :=
  qid ← QuestGetCompleteQuest_Helper cdef;
  mret (if 0 <=? qid then PrepExt_QueryResponseString QueryIndex (sprintf_d qid)
        else PrepExt_QueryResponseError QueryIndex "Unable to redeem quest.").

(** The objective is its position: the definition, the act and the index. *)
Definition CreatureUse (cdef : Z) : Job Journal (option (Z * Z * nat)) :=
  r ← on_active (scan (
        qdef ← GetQuestPointer;
        match qdef with
        | None => mret false
        | Some qd =>
            q ← get;
            a ← given (act_at qd (CurAct q));
            mret (existsb (fun i => 0 <=? HasObjectiveCDef (obj a i) (type (obj a i)) cdef) objectives)
        end));
  if r <? 0 then mret None
  else
    j ← get;
    q ← given (activeQuests j !! Z.to_nat r);
    qd ← given (DefPtr q ≫= (QuestDef !!.));
    a ← given (act_at qd (CurAct q));
    i ← given (find_idx (fun i => 0 <=? HasObjectiveCDef (obj a i) (type (obj a i)) cdef) objectives);
    mret (Some (questID qd, CurAct q, i)).

Definition CreatureIsUsable (cdef : Z) : Job Journal string :=
  r ← on_active (HasCreatureReturn cdef);
  if 0 <=? r then mret "Y"%string
  else
    r ← on_active (HasObjectInteraction cdef);
    mret (if 0 <=? r then "Q"%string else "N"%string).

Definition IsQuestRedeemable (questDef : option QuestDefinition) (quest QuestEnderCreatureID : Z)
    (j : Journal) : bool :=
  match (match questDef with Some qd => Some qd | None => QuestDef !! quest end) with
  | None => false
  | Some qd =>
      if negb (QuestEnderCreatureID =? -1) && negb (QuestEnderID qd =? QuestEnderCreatureID) then false
      else match GetItem quest (activeQuests j) ≫= (activeQuests j !!.) with
           | None => false
           | Some q => match GetActPtrByIndex qd (CurAct q) with
                       | None => false
                       | Some a => negb (CheckCompletedAct q a =? 0)
                       end
           end
  end.

(** ** Progress *)

(** [QuestJournal::CheckQuestObjective]. *)
Definition CheckQuestObjectives (CID objType targetCDefID targetCID : Z) : Job Journal (list Z) :=
  on_active (each (q ← get;
                   if Complete q =? 0 then CheckQuestObjective CID objType targetCDefID targetCID
                   else mret [])).

Definition CreatureUse_Confirmed (CID targetCDefID targetCID : Z) : Job Journal (list Z) :=
  CheckQuestObjectives CID OBJECTIVE_TYPE_ACTIVATE targetCDefID targetCID.

(** The body of the loop of [CheckTravelLocations]. *)
Definition travel_one (CID x y z zone : Z) : Job QuestReference (list Z) :=
  qdef ← GetQuestPointer;
  match qdef with
  | None => mret []
  | Some qd =>
      r ← CheckTravelLocation x y z zone;
      if r <? 0 then mret []
      else
        let o := Z.to_nat r in
        _ ← modify (fun q => set_counter o 1 (set_complete o q));
        q ← get;
        a ← given (act_at qd (CurAct q));
        let message i := PrepExt_QuestStatusMessage (questID qd) i true "Complete" in
        w2 ← (if -1 <? outcome (obj a o) then
                w ← complete_others objectives o message;
                _ ← modify (set_Outcome (outcome (obj a o)));
                mret w
              else mret []);
        _ ← RunObjectiveCompleteScripts CID (CurAct q) o;
        let text := match ActivateText (obj a o) with
                    | EmptyString => "Objective complete: " +:+ description (obj a o)
                    | text => text
                    end in
        q2 ← get;
        w3 ← (if CheckCompletedAct q2 a =? 1 then AdvanceAct CID qd else mret []);
        mret (message o ++ w2 ++ PrepExt_SendInfoMessage text INFOMSG_INFO ++ w3)
  end.

Definition CheckTravelLocations (CID x y z zone : Z) : Job Journal (list Z) :=
  on_active (each (travel_one CID x y z zone)).

(** The rest of [CheckQuestTalk] once the reference is found. In the loop over the
    other objectives the size field of the first message is written again each
    time, over all that was written so far. *)
Definition talk_seal (w : list Z) (ms : list (list Z)) : list Z :=
  foldl (fun w m => seal (w ++ m)) w ms.

(** The last test of [CheckQuestTalk], on [short] and [int]. *)
Definition clamp_act (qd : QuestDefinition) (q : QuestReference) : QuestReference :=
  if actCount qd - 1 <? CurAct q then set_CurAct (signed 16 (actCount qd - 1)) q else q.

Definition talk_one (cdef CreatureInstID PlayerCID : Z) : Job QuestReference (list Z) :=
  qdef ← GetQuestPointer;
  match qdef with
  | None => mret []
  | Some qd =>
      q ← get;
      a ← given (act_at qd (CurAct q));
      match find_idx (fun b => (type (obj a b) =? OBJECTIVE_TYPE_TALK) && (myCreatureDefID (obj a b) =? cdef))
              objectives with
      | None => mret []
      | Some o =>
          _ ← modify (fun q => set_counter o 1 (set_complete o q));
          _ ← RunObjectiveCompleteScripts PlayerCID (CurAct q) o;
          let w1 := seal (status_body (questID qd) o 1 "Complete") in
          q1 ← get;
          let others := filter (fun i => i <> o /\ ObjComplete q1 !!! i = 0) objectives in
          w ← (if -1 <? outcome (obj a o) then
                 _ ← complete_others objectives o (fun _ => []);
                 _ ← modify (set_Outcome (outcome (obj a o)));
                 mret (talk_seal w1 (map (fun i => status_body (questID qd) i 1 EmptyString) others))
               else mret w1);
          q2 ← get;
          w3 ← (if (CurAct q2 =? actCount qd - 1) && (CheckCompletedAct q2 a =? 1)
                then mret (CompleteQuest qd ++ QuestJournalMsg CreatureInstID qd)
                else AdvanceAct PlayerCID qd);
          _ ← modify (clamp_act qd);
          mret (w ++ w3)
      end
  end.

Definition CheckQuestTalk (cdef CreatureInstID PlayerCID : Z) : Job Journal (list Z) :=
  r ← on_active (HasCreatureReturn cdef);
  if r =? -1 then mret []
  else on_active (at_index r (talk_one cdef CreatureInstID PlayerCID)).

(** How many of an objective [ForceComplete] pretends were done. *)
Definition force_count (o : QuestObjective) : Z :=
  if (type o =? OBJECTIVE_TYPE_GATHER) || (type o =? OBJECTIVE_TYPE_ACTIVATE) || (type o =? OBJECTIVE_TYPE_KILL)
  then data2 o
  else if (type o =? OBJECTIVE_TYPE_TALK) || (type o =? OBJECTIVE_TYPE_TRAVEL) then 1
  else 0.

Definition force_one (CID quest : Z) : Job QuestReference (list Z) :=
  q ← get;
  if negb ((quest =? -1) || (QuestID q =? quest)) then mret []
  else
    qdef ← GetQuestPointer;
    match qdef with
    | None => mret []
    | Some qd =>
        let act := CurAct q in
        a ← given (act_at qd act);
        loop objectives (fun b =>
          let count := force_count (obj a b) in
          if count <=? 0 then mret []
          else
            _ ← modify (fun q => set_counter b (signed 16 count) (set_complete b q));
            _ ← RunObjectiveCompleteScripts CID act b;
            w ← AdvanceAct CID qd;
            _ ← modify (clamp_act qd);
            mret (seal (status_body (questID qd) b 1 "Complete") ++ w))
    end.

Definition ForceComplete (CID quest : Z) : Job Journal (list Z) := on_active (each (force_one CID quest)).

Definition ForceAllComplete (CID : Z) : Job Journal (list Z) := ForceComplete CID (-1).

(** An emote at a place. [act] is fixed before the loop; [CurAct] is not. *)
Definition emote_matches (o : QuestObjective) (message : string) (xpos zpos zoneID : Z) : bool :=
  (type o =? OBJECTIVE_TYPE_EMOTE) && CaseInsensitiveStringCompare (ActivateText o) message &&
  match data1 o with
  | dx :: _ :: dz :: dzone :: _ => (zoneID =? dzone) && near xpos dx (data2 o) && near zpos dz (data2 o)
  | _ => false
  end.

Definition emote_one (CID : Z) (message : string) (xpos zpos zoneID : Z) : Job QuestReference (list Z) :=
  qdef ← GetQuestPointer;
  match qdef with
  | None => mret []
  | Some qd =>
      q ← get;
      let act := CurAct q in
      if (act <? 0) || (actCount qd <=? act) then mret []
      else
        a ← given (act_at qd act);
        loop objectives (fun o =>
          if negb (emote_matches (obj a o) message xpos zpos zoneID) then mret []
          else
            _ ← modify (fun q => set_counter o 1 (set_complete o q));
            q ← get;
            _ ← RunObjectiveCompleteScripts CID (CurAct q) o;
            a' ← given (act_at qd (CurAct q));
            let status i := PrepExt_QuestStatusMessage (questID qd) i true "Complete" in
            w2 ← (if -1 <? outcome (obj a' o) then
                    w ← complete_others objectives o status;
                    _ ← modify (set_Outcome (outcome (obj a' o)));
                    mret w
                  else mret []);
            q2 ← get;
            w3 ← (if CheckCompletedAct q2 a =? 1 then AdvanceAct CID qd else mret []);
            mret (status o ++ w2 ++
                  PrepExt_SendInfoMessage ("Objective complete: " +:+ description (obj a o)) INFOMSG_INFO ++ w3))
  end.

Definition FilterEmote (CID : Z) (message : string) (xpos zpos zoneID : Z) : Job Journal (list Z) :=
  on_active (each (emote_one CID message xpos zpos zoneID)).

(** ** Loading: repeat delays and invalid entries *)

(** [QuestRepeatDelay::IsAvailable], in [unsigned long]. *)
Definition IsAvailable (now : Z) (d : QuestRepeatDelay) : bool :=
  unsigned 64 (StartTimeMinutes d + WaitTimeMinutes d) <? now.

Definition GetRepeatDelayIndex (quest : Z) (j : Journal) : Z :=
  idx (find_idx (fun d => delay_QuestID d =? quest) (delayedRepeat j)).

(** Offers a quest again unless it is active or offered. *)
Definition restore (quest : Z) (j : Journal) : Journal :=
  if (HasQuestID quest (activeQuests j) =? -1) && (HasQuestID quest (availableQuests j) =? -1)
  then set_available (AddItem_new quest (Some quest) (availableQuests j)) j else j.

Definition remove_completed (quest : Z) (j : Journal) : Journal :=
  match GetItem quest (completedQuests j) with
  | Some r => set_completed (RemoveIndex (Z.of_nat r) (completedQuests j)) j
  | None => j
  end.

(** What [CheckRepeatDelay] does for one entry that is due. *)
Definition release (quest : Z) (j : Journal) : Journal :=
  match QuestDef !! quest with
  | Some _ => remove_completed quest (restore quest j)
  | None => j
  end.

(** The loop of [CheckRepeatDelay]: due entries are erased, others stay. *)
Definition CheckRepeatDelay (now : Z) (j : Journal) : Journal :=
  set_delayed (filter (fun d => IsAvailable now d = false) (delayedRepeat j))
    (foldl (fun j d => if IsAvailable now d then release (delay_QuestID d) j else j) j (delayedRepeat j)).

Definition old_repeat (j : Journal) (quest : Z) : bool :=
  match QuestDef !! quest with
  | Some qd => (0 <? RepeatMinuteDelay qd) && (GetRepeatDelayIndex quest j =? -1)
  | None => true
  end.

(** The loop of [RemoveOldRepeatQuests] over the completed quests. *)
Fixpoint remove_old (l : list QuestReference) (kept : list QuestReference) (j : Journal) : Journal :=
  match l with
  | [] => set_completed kept j
  | q :: t =>
      if old_repeat j (QuestID q) then
        remove_old t kept (match QuestDef !! QuestID q with Some _ => restore (QuestID q) j | None => j end)
      else remove_old t (kept ++ [q]) j
  end.

Definition RemoveOldRepeatQuests (j : Journal) : Journal := remove_old (completedQuests j) [] j.

Definition ResolveLoadedQuests (now : Z) : Job Journal unit :=
  _ ← modify (fun j => set_completed (Sort (completedQuests j)) (set_active (Sort (activeQuests j)) j));
  _ ← on_active RemoveInvalidEntries;
  _ ← on_completed RemoveInvalidEntries;
  _ ← modify (CheckRepeatDelay now);
  _ ← modify RemoveOldRepeatQuests;
  _ ← on_active ResolveIDs;
  on_available ResolveIDs.

(** ** Which quests a character may take ([CharacterData::BuildAvailableQuests]) *)

Section Available.
Context (level_ profession_ : Z) (IsInGuildAndHasValour : Z -> Z -> bool)
        (** The completed once-per-account quests, if the account is active. *)
        (AccountQuests : option (list Z)).

Inductive Availability := Never | Soon | Now.

Definition QUEST_SOON_TOLERANCE : Z := 2.

Definition availability (qd : QuestDefinition) : Availability :=
  if (level_ <? levelMin qd) && (level_ <? levelMin qd - QUEST_SOON_TOLERANCE) then Never
  else if negb (levelMax qd =? 0) && (levelMax qd <? level_) then Never
  else if negb (profession qd =? 0) && negb (profession_ =? profession qd) then Never
  else if guildStart qd && IsInGuildAndHasValour (guildId qd) 0 then Never
  else if negb (guildStart qd) && negb (guildId qd =? 0)
          && negb (IsInGuildAndHasValour (guildId qd) (valourRequired qd)) then Never
  else if accountQuest qd
          && match AccountQuests with Some l => bool_decide (questID qd ∈ l) | None => false end then Never
  else if level_ <? levelMin qd then Soon
  else Now.

(** One entry of the map, in key order. *)
Definition consider (key : Z) (qd : QuestDefinition) : Job Journal unit :=
  let qr := new_reference (questID qd) (Some key) (QuestGiverID qd) in
  match availability qd with
  | Never => mret tt
  | Soon => modify (fun j => set_soon (AddItem qr (availableSoonQuests j)) j)
  | Now => AddPendingQuest qr
  end.

Fixpoint consider_all (l : list (Z * QuestDefinition)) : Job Journal unit :=
  match l with
  | [] => mret tt
  | (key, qd) :: t => _ ← consider key qd; consider_all t
  end.

Definition key_le (x y : Z * QuestDefinition) : Prop := x.1 <= y.1.

#[export] Instance key_le_dec x y : Decision (key_le x y) := Z_le_dec x.1 y.1.

Definition BuildAvailableQuests : Job Journal unit :=
  _ ← modify (fun j => set_soon [] (set_available [] j));
  consider_all (merge_sort key_le (map_to_list QuestDef)).
End Available.

(** ** Leaving a guild ([GuildLeaveHandler], [query/PlayerHandlers.cpp]) *)

(** The answer of [HasQuestID] is used as a condition. *)
Definition leave_guild_quest (CID guildDefID : Z) (qd : QuestDefinition) : Job Journal (list Z) :=
  j ← get;
  if (guildId qd =? guildDefID) && negb (HasQuestID (questID qd) (activeQuests j) =? 0) then
    _ ← QuestLeave CID (if unabandon qd then 0 else questID qd);
    mret (if unabandon qd then PrepExt_SendInfoMessage "You cannot abandon that quest." INFOMSG_ERROR else [])
  else mret [].

Definition leave_guild_quests (CID guildDefID : Z) : Job Journal (list Z) :=
  loop (map snd (merge_sort key_le (map_to_list QuestDef))) (leave_guild_quest CID guildDefID).

(** ** The character file ([Character.cpp], section QUEST) *)

Definition active_line (q : QuestReference) : string :=
  sprintf_d (QuestID q) +:+ "," +:+ sprintf_d (CurAct q) +:+
  foldr (fun b s => "," +:+ sprintf_d (ObjComplete q !!! b) +:+ "," +:+ sprintf_d (ObjCounter q !!! b) +:+ s)
    EmptyString objectives.

Definition complete_line (q : QuestReference) : string := sprintf_d (QuestID q).

Definition repeat_line (d : QuestRepeatDelay) : string :=
  sprintf_d (delay_QuestID d) +:+ "," +:+ sprintf_lu (StartTimeMinutes d) +:+ "," +:+
  sprintf_lu (WaitTimeMinutes d).

(** The key and the values written for it, empty lists left out. *)
Definition write_quests (j : Journal) : list (string * list string) :=
  filter (fun e => e.2 <> [])
    [("active"%string, map active_line (activeQuests j));
     ("complete"%string, map complete_line (completedQuests j));
     ("repeat"%string, map repeat_line (delayedRepeat j))].

(** The loop over the objectives of an [active] value, from objective [o]. The
    arrays have [MAXOBJECTIVES] elements; writing past them is undefined. A value
    left over at the end of an odd line is not read. *)
Fixpoint read_objectives (o : nat) (l : list string) (q : QuestReference) : option QuestReference :=
  match l with
  | comp :: count :: rest =>
      if (MAXOBJECTIVES <=? o)%nat then None
      else
        let q := mkReference (QuestID q) (CreatureDefID q) (DefPtr q)
                   (<[o := signed 16 (atoi count)]> (ObjCounter q))
                   (<[o := signed 8 (atoi comp)]> (ObjComplete q)) (Complete q) (CurAct q) (Outcome q) in
        read_objectives (S o) rest q
  | _ => Some q
  end.

Definition read_active (value : string) (j : Journal) : option Journal :=
  match Split value "," with
  | ID :: act :: rest =>
      q ← read_objectives 0 rest (set_CurAct (signed 16 (atoi act)) (new_reference (atoi ID) None 0));
      Some (set_active (AddItem q (activeQuests j)) j)
  | _ => Some j
  end.

Definition read_complete (value : string) (j : Journal) : Journal :=
  set_completed (completedQuests j ++ map (fun s => new_reference (atoi s) None 0) (Split value ",")) j.

Definition read_repeat (now : Z) (value : string) (j : Journal) : Journal :=
  match Split value "," with
  | ID :: start :: wait :: _ => AddQuestRepeatDelay now (atoi ID) (strtoul start) (strtoul wait) j
  | _ => j
  end.

Definition read_value (now : Z) (key value : string) (j : Journal) : option Journal :=
  if String.eqb key "active" then read_active value j
  else if String.eqb key "complete" then Some (read_complete value j)
  else if String.eqb key "repeat" then Some (read_repeat now value j)
  else Some j.

Fixpoint read_values (now : Z) (key : string) (values : list string) (j : Journal) : option Journal :=
  match values with
  | [] => Some j
  | v :: t => j' ← read_value now key v j; read_values now key t j'
  end.

Fixpoint read_quests (now : Z) (section : list (string * list string)) (j : Journal) : option Journal :=
  match section with
  | [] => Some j
  | (key, values) :: t => j' ← read_values now key values j; read_quests now t j'
  end.

End Defs.
