(* ===== verification/QuestHandlers.v ===== *)
(** * Quests: the queries of the client

    Models the quest handlers of [src/SOURCE/Server/query/QuestHandlers.cpp] on the
    journal of [Quest]. What the handlers use of the rest of the server is the class
    [QuestHost]: the world state [W], the creatures that are near, the commands of a
    quest (conditions and actions), the account, the inventory and the payment of
    rewards. A handler gives the bytes of its answer, the journal, the world, and
    what was sent or run on the way. *)

From S2P Require Import Prelude ByteBuffer Messages Text Float StatTables Stats AbilityTime Quest.

Definition INTERACT_RANGE : Z := 50.

Class QuestHost (W : Type) := {
  (** Definition and distance of a creature, if it is in the instance. *)
  ResolveCreatureInstance : W -> Z -> option (Z * Z);
  AcceptCondition : Z -> Journal -> W -> Z * W;
  AcceptAction : Z -> Journal -> W -> Z * W;
  CompleteCondition : Z -> Journal -> W -> Z * W;
  CompleteAction : Z -> Journal -> W -> Z * W;
  HasAccountCompletedQuest : W -> Z -> bool;
  PushAccountQuest : Z -> W -> W;
  CountFreeSlots : W -> Z;
  ProcessQuestRewards : Z -> Z -> list QuestItemReward -> W -> Z * W;
  AddActiveScript : Z -> W -> W;
  SendBytes : list Z -> W -> W }.

Section Handlers.
Context {W : Type} `{QuestHost W}.
Context (QuestDef : gmap Z QuestDefinition) (player : Z -> Z -> option bool).
(** The creature of the player and the number of the query. *)
Context (CreatureID queryID : Z).

Definition argument (args : list string) (i : nat) : Z :=
  match args !! i with Some a => atoi a | None => 0 end.

Definition ErrorMessageAndQueryOK (errorMessage : string) : list Z :=
  PrepExt_SendInfoMessage errorMessage INFOMSG_ERROR ++ PrepExt_QueryResponseString queryID "OK".

Definition ok : list Z := PrepExt_QueryResponseString queryID "OK".

Record Session := mkSession { journal : Journal; world : W }.

(** The answer, the session and the calls of scripts. *)
Definition Answer : Type := option (list Z * Session * list ScriptEvent).

Definition answer (w : list Z) (s : Session) : Answer := Some (w, s, []).

Definition QuestJoinHandler (args : list string) (s : Session) : Answer :=
  if (length args <? 2)%nat then answer ok s
  else
    let quest := argument args 0 in
    match ResolveCreatureInstance (world s) (argument args 1) with
    | None => answer (ErrorMessageAndQueryOK "Quest giver does not exist.") s
    | Some (cdef, range) =>
        if INTERACT_RANGE <? range then answer (ErrorMessageAndQueryOK "Quest giver not in range.") s
        else match QuestDef !! quest with
        | None => answer (ErrorMessageAndQueryOK "Quest does not exist.") s
        | Some qd =>
            if negb (QuestGiverID qd =? cdef)
            then answer (ErrorMessageAndQueryOK "That object does not give that quest.") s
            else if accountQuest qd && HasAccountCompletedQuest (world s) quest
            then answer (ErrorMessageAndQueryOK "You have already completed this quest on another character, and it is a once-per-account quest type.") s
            else
              let '(r, w1) := AcceptCondition quest (journal s) (world s) in
              if r <? 0
              then answer (ErrorMessageAndQueryOK "Cannot accept the quest yet.") (mkSession (journal s) w1)
              else
                let '(_, w2) := AcceptAction quest (journal s) w1 in
                let w3 := if accountQuest qd then PushAccountQuest (questID qd) w2 else w2 in
                let '(bytes, j) := QuestJoin QuestDef quest queryID (journal s) in
                answer bytes (mkSession j (AddActiveScript quest w3))
        end
    end.

(** The creature that ends the quest, [-1] for none, or why it cannot. *)
Definition quest_ender (CID : Z) (s : Session) : string + Z :=
  if CID =? CreatureID then inr (-1)
  else match ResolveCreatureInstance (world s) CID with
       | None => inl "Server error: creature does not exist."%string
       | Some (cdef, range) =>
           if INTERACT_RANGE <? range then inl "You are too far away from the quest ender."%string else inr cdef
       end.

(** The script of the quest is told, and halted. *)
Definition complete_calls (quest : Z) : list ScriptEvent :=
  match player CreatureID quest with
  | Some _ => [RunFunction CreatureID quest "on_complete"; HaltExecution CreatureID quest]
  | None => []
  end.

Definition complete_reply (quest CID paid : Z) : list Z :=
  if paid <? 0 then
    PrepExt_QueryResponseError queryID
      (if paid =? -2 then "No free inventory space." else "Unable to complete quest.")
  else seal (eventMsg quest EVENTMSG_TURNEDIN (PutInteger CID)) ++ ok.

(** [qr] is a pointer into the list of active quests. After [QuestComplete] has
    erased the element it is the element that moved to its place, and past the end
    of the list if there is none. *)
Definition QuestCompleteHandler (now : Z) (args : list string) (s : Session) : Answer :=
  let quest := argument args 0 in
  let CID := argument args 1 in
  let selectionList := map (fun a => unsigned 64 (atoi a)) (drop 2 args) in
  match quest_ender CID s with
  | inl e => answer (ErrorMessageAndQueryOK e) s
  | inr enderCreatureDefID =>
      match QuestDef !! quest with
      | None => answer (ErrorMessageAndQueryOK "Quest not found.") s
      | Some qd =>
          match GetItem (questID qd) (activeQuests (journal s)) with
          | None => answer (ErrorMessageAndQueryOK "No quest reference.") s
          | Some r =>
              if negb (IsQuestRedeemable QuestDef (Some qd) quest enderCreatureDefID (journal s))
              then answer (ErrorMessageAndQueryOK "Quest cannot be redeemed yet.") s
              else
                qr ← activeQuests (journal s) !! r;
                let '(selected, rewardedItems) := FilterSelectedRewards qd (Outcome qr) selectionList [] in
                if negb selected then answer (ErrorMessageAndQueryOK "Failed to select quest reward items.") s
                else if unsigned 64 (CountFreeSlots (world s)) <? Z.of_nat (length rewardedItems)
                then answer (ErrorMessageAndQueryOK "No free inventory space.") s
                else
                  let '(c, w1) := CompleteCondition quest (journal s) (world s) in
                  if c <? 0
                  then answer (ErrorMessageAndQueryOK "Cannot redeem the quest yet.") (mkSession (journal s) w1)
                  else
                    let '(_, w2) := CompleteAction quest (journal s) w1 in
                    let calls := complete_calls quest in
                    '(response, j, _) ← QuestComplete QuestDef now quest (journal s);
                    if response =? -1 then Some (ok, mkSession j w2, calls)
                    else
                      qr' ← activeQuests j !! r;
                      let '(paid, w3) := ProcessQuestRewards quest (Outcome qr') rewardedItems w2 in
                      Some (complete_reply quest CID paid, mkSession j w3, calls)
          end
      end
  end.

Definition QuestLeaveHandler (args : list string) (s : Session) : Answer :=
  let quest := argument args 0 in
  let kept := match QuestDef !! quest with Some qd => unabandon qd | None => false end in
  let w := if kept then SendBytes (PrepExt_Info "You cannot abandon that quest." INFOMSG_ERROR) (world s)
           else world s in
  let quest := if kept then 0 else quest in
  '(_, j, calls) ← QuestLeave QuestDef player CreatureID quest (journal s);
  Some (PrepExt_QueryResponseString queryID (sprintf_d quest), mkSession j w, calls).

Definition QuestShareHandler (args : list string) (s : Session) : Answer :=
  match args with
  | [] => answer (PrepExt_QueryResponseNull queryID) s
  | a :: _ =>
      let quest := atoi a in
      let res := CheckQuestShare QuestDef quest (journal s) in
      if negb (res =? SHARE_SUCCESS_QUALIFIES) then
        answer ok (mkSession (journal s)
          (SendBytes (PrepExt_Info (GetQuestShareErrorString res) INFOMSG_ERROR) (world s)))
      else
        let '(r, j) := QuestJoin_Helper QuestDef quest (journal s) in
        answer ok (mkSession j
          (if r =? 0 then SendBytes (WriteQuestJoin quest ++
                            PrepExt_SendInfoMessage "You have joined the quest." INFOMSG_INFO) (world s)
           else world s))
  end.

(** [mGrove]: the instance is a grove. [ResolveCreatureDef] is a parameter. *)
Definition QuestIndicatorHandler (mGrove : bool) (ResolveCreatureDef : Z -> Z) (args : list string)
    : Job Journal (list Z) :=
  match args with
  | [] => mret (PrepExt_QueryResponseError queryID "Invalid query->")
  | a :: _ =>
      if mGrove then mret (PrepExt_QueryResponseString queryID (QueryResponse_name NONE))
      else status ← QuestIndicator QuestDef (ResolveCreatureDef (atoi a));
           mret (PrepExt_QueryResponseString queryID (QueryResponse_name status))
  end.

Definition QuestGetOfferHandler (ResolveCreatureDef : Z -> Z) (args : list string) : Job Journal (list Z) :=
  match args with
  | [] => mret (PrepExt_QueryResponseError queryID "Invalid query->")
  | a :: _ => offer ← QuestGetQuestOffer QuestDef (ResolveCreatureDef (atoi a));
              mret (PrepExt_QueryResponseString queryID offer)
  end.

Definition QuestGetCompleteHandler (ResolveCreatureDef : Z -> Z) (args : list string) : Job Journal (list Z) :=
  match args with
  | [] => mret (PrepExt_QueryResponseError queryID "Invalid query->")
  | a :: _ =>
      let CID := atoi a in
      QuestGetCompleteQuest QuestDef (if CID =? CreatureID then -1 else ResolveCreatureDef CID) queryID
  end.

(** ** Rows of the quest window *)

Definition StringFromBool (value : bool) : string := if value then "true" else "false".

(** The reference a copy is made of; its pointer is resolved in the copy only. *)
Definition QuestList_rows (j : Journal) : option (list (list string)) :=
  rows ← mapM (fun q =>
      match GetQuestPointer QuestDef q with
      | Some (Some qd, _, _) => Some [[sprintf_d (QuestID q); title qd; sprintf_d (partySize qd)]]
      | Some (None, _, _) => Some []
      | None => None
      end) (activeQuests j);
  Some (concat rows).

(** " of " is in the text ([std::string::find]). *)
Fixpoint has_of (s : string) : bool :=
  String.prefix " of " s || match s with String _ t => has_of t | EmptyString => false end.

Definition objective_text (o : QuestObjective) (i : nat) (qref : option QuestReference) (done : bool) : string :=
  if done then "Complete"
  else match qref with
       | Some q =>
           if has_of (completeText o) && ((type o =? OBJECTIVE_TYPE_ACTIVATE) || (type o =? OBJECTIVE_TYPE_KILL))
           then sprintf_d (ObjCounter q !!! i) +:+ " of " +:+ sprintf_d (data2 o)
           else completeText o
       | None => completeText o
       end.

Definition objective_columns (a : QuestAct) (qref : option QuestReference) (i : nat) : list string :=
  let o := obj a i in
  let done := negb (match qref with Some q => ObjComplete q !!! i | None => complete o end =? 0) in
  [description o; StringFromBool done; sprintf_d (myCreatureDefID o); sprintf_d (myItemID o);
   objective_text o i qref done; markerLocations o].

(** The row of [QuestData], or the error it answers. A missing outcome is
    dereferenced: undefined. *)
Definition QuestData_row (quest : Z) (j : Journal) : option (string + list string) :=
  match QuestDef !! quest with
  | None => Some (inl "Server error: quest not found."%string)
  | Some qd =>
      let act := GetCurrentAct quest j in
      if Z.of_nat (length (actList qd)) <=? act then Some (inl "Server error: quest act does not exist"%string)
      else if act <? 0 then Some (inl "Server error: quest act not set"%string)
      else
        a ← act_at qd act;
        let qref := GetItem quest (activeQuests j) ≫= (activeQuests j !!.) in
        o ← GetOutcome qd (match qref with Some q => Outcome q | None => 0 end);
        Some (inr ([sprintf_d (questID qd); title qd;
                    match BodyText a with EmptyString => bodyText qd | t => t end;
                    compText o; sprintf_d (levelSuggested qd); sprintf_d (experience o);
                    sprintf_d (partySize qd); sprintf_d (numRewards o); sprintf_d (coin qd);
                    StringFromBool (unabandon qd); sprintf_d (valourGiven o); sGiver qd; sEnder qd]
                   ++ concat (map (objective_columns a qref) objectives)
                   ++ map (fun i => QuestItemReward_Print (rewardItem o !!! i)) (seq 0 MAXREWARDS)))
  end.
End Handlers.
