(* ===== verification/QuestSafety.v ===== *)
(** * Quests: every operation is defined and only moves quests forward

    A weakest precondition for jobs ([wp], total correctness: the job is defined)
    with a rule per construct. With it: on resolved references within the acts of
    their definitions, no operation that records progress reaches undefined
    behaviour, and each only advances: acts are never taken back, and an objective
    that is complete stays so while its act lasts. *)

From stdpp Require Import sorting.
From S2P Require Import Prelude ByteBuffer Messages Text Float StatTables Stats AbilityTime Quest.

(** ** Weakest preconditions of jobs *)

Definition wp {S A} (m : Job S A) (Q : A -> S -> Prop) (s : S) : Prop :=
  match m s with Some (a, s', _) => Q a s' | None => False end.

Lemma wp_ret {S A} (a : A) (Q : A -> S -> Prop) s : Q a s -> wp (mret a) Q s.
Proof. done. Qed.

Lemma wp_bind {S A B} (m : Job S A) (k : A -> Job S B) (Q : B -> S -> Prop) s :
  wp m (fun a => wp (k a) Q) s -> wp (m ≫= k) Q s.
Proof.
  unfold wp, mbind, Job_bind. destruct (m s) as [[[a s1] w1]|]; [|done].
  by destruct (k a s1) as [[[b s2] w2]|].
Qed.

Lemma wp_mono {S A} (m : Job S A) (P Q : A -> S -> Prop) s :
  (forall a s', P a s' -> Q a s') -> wp m P s -> wp m Q s.
Proof. unfold wp. intros HPQ. destruct (m s) as [[[a s1] w1]|]; auto. Qed.

Lemma wp_get {S} (Q : S -> S -> Prop) s : Q s s -> wp get Q s.
Proof. done. Qed.

Lemma wp_modify {S} (f : S -> S) (Q : unit -> S -> Prop) s : Q tt (f s) -> wp (modify f) Q s.
Proof. done. Qed.

Lemma wp_emit {S} w (Q : unit -> S -> Prop) s : Q tt s -> wp (emit w) Q s.
Proof. done. Qed.

Lemma wp_given {S A} (o : option A) a (Q : A -> S -> Prop) s : o = Some a -> Q a s -> wp (given o) Q s.
Proof. by intros ->. Qed.

Lemma wp_loop {S I} (Inv : S -> Prop) (l : list I) (body : I -> Job S (list Z)) s :
  (forall i s, Inv s -> wp (body i) (fun _ => Inv) s) -> Inv s -> wp (loop l body) (fun _ => Inv) s.
Proof.
  intros Hbody. revert s. induction l as [|i l IH]; intros s Hs; [done|].
  apply wp_bind. eapply wp_mono; [|by apply Hbody]. intros w1 s1 Hs1.
  apply wp_bind. eapply wp_mono; [|by apply IH]. intros w2 s2 Hs2. by apply wp_ret.
Qed.

Lemma wp_exists {S A} (m : Job S A) (Q : A -> S -> Prop) s :
  wp m Q s <-> exists a s' w, m s = Some (a, s', w) /\ Q a s'.
Proof.
  unfold wp. destruct (m s) as [[[a s1] w1]|]; split.
  - intros HQ. by exists a, s1, w1.
  - by intros (? & ? & ? & [= -> -> ->] & ?).
  - done.
  - by intros (? & ? & ? & ? & ?).
Qed.

(** A loop over references whose body keeps [P] and relates each to its result. *)
Lemma each_wp (P : QuestReference -> Prop) (R : QuestReference -> QuestReference -> Prop) f l :
  (forall q, P q -> wp f (fun _ q' => P q' /\ R q q') q) -> Forall P l ->
  exists w l' e, each f l = Some (w, l', e) /\ Forall P l' /\ Forall2 R l l'.
Proof.
  intros Hf. induction 1 as [|q l Hq Hl (w & l' & e & He & HP & HR)]; [by exists [], [], []|].
  pose proof (Hf q Hq) as Hw. apply wp_exists in Hw as (w1 & q' & e1 & Hfq & HP1 & HR1).
  exists (w1 ++ w), (q' :: l'), (e1 ++ e). cbn [each]. rewrite Hfq, He. repeat split; by constructor.
Qed.

(** A search by a test that leaves the references alone. *)
Lemma scan_from_pure (P : QuestReference -> Prop) (f : Job QuestReference bool) (t : QuestReference -> bool) pos l :
  (forall q, P q -> f q = Some (t q, q, [])) -> Forall P l ->
  scan_from f pos l = Some (match find_idx t l with Some i => pos + Z.of_nat i | None => -1 end, l, []).
Proof.
  intros Hf Hl. revert pos. induction Hl as [|q l Hq Hl IH]; intros pos; [done|].
  cbn [scan_from find_idx]. rewrite (Hf q Hq). destruct (t q); [by rewrite Z.add_0_r|].
  rewrite IH. by destruct (find_idx t l) as [i|]; cbn; [rewrite Nat2Z.inj_succ; do 3 f_equal; lia|].
Qed.

Lemma scan_pure (P : QuestReference -> Prop) (f : Job QuestReference bool) (t : QuestReference -> bool) l :
  (forall q, P q -> f q = Some (t q, q, [])) -> Forall P l ->
  scan f l = Some (idx (find_idx t l), l, []).
Proof. intros Hf Hl. unfold scan. rewrite (scan_from_pure P f t) by done. by destruct (find_idx t l). Qed.

(** One step of the weakest precondition of a job in monadic form. *)
Ltac wp_step :=
  match goal with
  | |- wp (_ ≫= _) _ _ => apply wp_bind
  | |- wp (mret _) _ _ => apply wp_ret
  | |- wp get _ _ => apply wp_get
  | |- wp (modify _) _ _ => apply wp_modify
  | |- wp (emit _) _ _ => apply wp_emit
  | |- wp (script _ _ _ _) _ _ => apply wp_emit
  | |- wp (RunObjectiveCompleteScripts _ _ _ _) _ _ => apply wp_bind, wp_get, wp_emit
  end.

(** ** Progress *)

(** What progress never takes back. *)
Record advances (q q' : QuestReference) : Prop := mkAdvances {
  adv_id : QuestID q' = QuestID q;
  adv_giver : CreatureDefID q' = CreatureDefID q;
  adv_act : CurAct q <= CurAct q';
  adv_complete : CurAct q' = CurAct q ->
                 forall i, ObjComplete q !!! i <> 0 -> ObjComplete q' !!! i <> 0 }.

#[export] Instance advances_preorder : PreOrder advances.
Proof.
  split.
  - intros q. by split.
  - intros q1 q2 q3 [H1 H2 H3 H4] [K1 K2 K3 K4]. split; [congruence|congruence|lia|].
    intros E i Hi. apply K4; [lia|]. apply H4; [lia|done].
Qed.

Section Safety.
Context (QuestDef : gmap Z QuestDefinition) (player : Z -> Z -> option bool).

(** The definitions as the loader builds them: under their number, and with as many
    acts as counted, at least one. *)
Definition defs_ok : Prop :=
  forall id qd, QuestDef !! id = Some qd ->
    questID qd = id /\ actCount qd = Z.of_nat (length (actList qd)) /\ 1 <= actCount qd < 2 ^ 15.

(** A resolved reference within the acts of its definition. *)
Record ref_ok (q : QuestReference) : Prop := mkRefOk {
  ok_ptr : DefPtr q = Some (QuestID q);
  ok_def : exists qd, QuestDef !! QuestID q = Some qd /\ 0 <= CurAct q < actCount qd;
  ok_counter : length (ObjCounter q) = MAXOBJECTIVES;
  ok_complete : length (ObjComplete q) = MAXOBJECTIVES }.

Context (HD : defs_ok).

Lemma act_at_ok id qd i : QuestDef !! id = Some qd -> 0 <= i < actCount qd ->
  exists a, act_at qd i = Some a.
Proof.
  intros Hqd Hi. destruct (HD id qd Hqd) as (_ & Hc & _). unfold act_at.
  destruct (Z.ltb_spec i 0); [lia|]. apply lookup_lt_is_Some. lia.
Qed.

Lemma GetQuestPointer_ok q qd : ref_ok q -> QuestDef !! QuestID q = Some qd ->
  GetQuestPointer QuestDef q = Some (Some qd, q, []).
Proof.
  intros [Hp _ _ _] Hqd. unfold GetQuestPointer, mbind, Job_bind, get. rewrite Hp.
  unfold definition, given. rewrite Hqd. done.
Qed.

Lemma wp_GetQuestPointer q qd Q : ref_ok q -> QuestDef !! QuestID q = Some qd ->
  Q (Some qd) q -> wp (GetQuestPointer QuestDef) Q q.
Proof. intros Hq Hqd HQ. unfold wp. by rewrite (GetQuestPointer_ok q qd). Qed.

(** *** Steps on one reference *)

(** Progress within an act: the objectives, counters and outcome may change, the
    flags of objectives are only set. *)
Definition works (q q' : QuestReference) : Prop :=
  ref_ok q' /\ advances q q' /\ CurAct q' = CurAct q.

Lemma insert_total_ne (l : list Z) (i j : nat) (x : Z) : l !!! j <> 0 -> x <> 0 -> (<[i := x]> l) !!! j <> 0.
Proof.
  intros Hj Hx. destruct (decide (i = j)) as [->|Hne].
  - destruct (decide (j < length l)%nat).
    + by rewrite list_lookup_total_insert_eq.
    + by rewrite list_insert_ge by lia.
  - by rewrite list_lookup_total_insert_ne.
Qed.

Lemma works_refl q : ref_ok q -> works q q.
Proof. done. Qed.

Lemma works_trans q1 q2 q3 : works q1 q2 -> works q2 q3 -> works q1 q3.
Proof.
  intros (_ & A1 & E1) (O2 & A2 & E2). split; [done|]. split; [by etransitivity|congruence].
Qed.

Lemma works_set_counter q i x : ref_ok q -> works q (set_counter i x q).
Proof. intros [? ? ? ?]. split; [|done]. split; try done. cbn. by rewrite length_insert. Qed.

Lemma works_set_complete q i : ref_ok q -> works q (set_complete i q).
Proof.
  intros [? ? ? ?]. split; [|split; [|done]].
  - split; try done. cbn. by rewrite length_insert.
  - split; try done. intros _ j Hj. by apply insert_total_ne.
Qed.

Lemma works_set_Outcome q x : ref_ok q -> works q (set_Outcome x q).
Proof. intros [? ? ? ?]. by split. Qed.

Lemma works_done q i : ref_ok q -> works q (set_counter i 1 (set_complete i q)).
Proof.
  intros Hq. eapply works_trans; [by apply works_set_complete|].
  apply works_set_counter. by apply works_set_complete.
Qed.

Lemma wp_complete_others q0 q idxs o message :
  works q0 q -> wp (complete_others idxs o message) (fun _ q' => works q0 q') q.
Proof.
  intros Hq. apply (wp_loop (works q0)); [|done]. intros i s Hs. repeat wp_step.
  case_match; repeat wp_step; [|done]. eapply works_trans; [done|]. by apply works_set_complete; destruct Hs.
Qed.

(** The act advances, or stays the last. *)
Lemma AdvanceAct_advances q qd : ref_ok q -> QuestDef !! QuestID q = Some qd ->
  ref_ok (AdvanceAct_state qd q) /\ advances q (AdvanceAct_state qd q).
Proof.
  intros [Hp (qd' & Hqd' & Hact) Hc Hf] Hqd. rewrite Hqd in Hqd'. injection Hqd' as <-.
  destruct (HD _ _ Hqd) as (_ & _ & Hn). unfold AdvanceAct_state. cbv zeta.
  assert (E : signed 16 (CurAct q + 1) = CurAct q + 1) by (apply signed_id; unfold in_signed; lia).
  assert (E' : signed 16 (actCount qd - 1) = actCount qd - 1) by (apply signed_id; unfold in_signed; lia).
  cbn [CurAct set_CurAct]. rewrite E. destruct (Z.leb_spec (actCount qd) (CurAct q + 1)) as [Hl|Hl].
  - rewrite E'. split; split; cbn; try done; [exists qd; split; [done|lia]|lia].
  - split; split; cbn; try done; [exists qd; split; [done|lia]|lia|lia].
Qed.

Lemma wp_AdvanceAct q qd CID (Q : list Z -> QuestReference -> Prop) :
  (forall w, Q w (AdvanceAct_state qd q)) -> wp (AdvanceAct player CID qd) Q q.
Proof. intros HQ. unfold AdvanceAct. repeat wp_step. apply HQ. Qed.

Lemma clamp_act_ok q qd : ref_ok q -> QuestDef !! QuestID q = Some qd -> clamp_act qd q = q.
Proof.
  intros [_ (qd' & Hqd' & Hact) _ _] Hqd. rewrite Hqd in Hqd'. injection Hqd' as <-.
  unfold clamp_act. by destruct (Z.ltb_spec (actCount qd - 1) (CurAct q)); [lia|].
Qed.

(** *** Progress on one reference *)

(** The outcome of an objective, with the objectives it completes. *)
Lemma wp_outcome q q' (b : bool) idxs o message x (g : list Z -> list Z) w0 :
  works q q' ->
  wp (if b then w ← complete_others idxs o message; _ ← modify (set_Outcome x); mret (g w) else mret w0)
    (fun _ => works q) q'.
Proof.
  intros Hw. destruct b; [|done]. apply wp_bind. eapply wp_mono; [|by apply wp_complete_others].
  intros w s Hs. repeat wp_step. eapply works_trans; [exact Hs|]. by apply works_set_Outcome; destruct Hs.
Qed.

(** Defined, and a step forward. *)
Definition moves (f : Job QuestReference (list Z)) : Prop :=
  forall q, ref_ok q -> wp f (fun _ q' => ref_ok q' /\ advances q q') q.

Lemma works_moves q q' : works q q' -> ref_ok q' /\ advances q q'.
Proof. by intros (? & ? & _). Qed.

Lemma AdvanceAct_works q q' qd : works q q' -> QuestDef !! QuestID q = Some qd ->
  ref_ok (AdvanceAct_state qd q') /\ advances q (AdvanceAct_state qd q').
Proof.
  intros (Hok & Hadv & _) Hqd. destruct (AdvanceAct_advances q' qd Hok) as [H1 H2].
  { by rewrite (adv_id _ _ Hadv). }
  split; [done|by etransitivity].
Qed.

Lemma wp_AdvanceAct_works q q' qd CID : works q q' -> QuestDef !! QuestID q = Some qd ->
  wp (AdvanceAct player CID qd) (fun _ q'' => ref_ok q'' /\ advances q q'') q'.
Proof. intros Hw Hqd. apply wp_AdvanceAct. intros _. by apply AdvanceAct_works. Qed.

Lemma find_objective_bound a t c i : find_objective a t c = Some i -> (i < MAXOBJECTIVES)%nat.
Proof.
  unfold find_objective. intros Hi. apply find_idx_lookup in Hi as (x & Hx & _).
  by apply lookup_lt_Some in Hx.
Qed.

Lemma GetObjective_at qd act a t c : 0 <= act -> act_at qd act = Some a ->
  GetObjective qd act t c = Some (idx (find_objective a t c)).
Proof.
  intros Hact Ha. unfold GetObjective.
  assert (Hlt : act < Z.of_nat (length (actList qd))).
  { unfold act_at in Ha. destruct (Z.ltb_spec act 0); [done|]. apply lookup_lt_Some in Ha. lia. }
  destruct (Z.ltb_spec act (-1)); [lia|]. destruct (Z.eqb_spec act (-1)); [lia|].
  destruct (Z.leb_spec (Z.of_nat (length (actList qd))) act); [lia|]. cbn. by rewrite Ha.
Qed.

Lemma CheckQuestObjective_moves CID t c n : moves (CheckQuestObjective QuestDef player CID t c n).
Proof.
  intros q Hq. pose proof Hq as [Hp (qd & Hqd & Hact) _ _].
  destruct (HD _ _ Hqd) as (_ & Hn & _). destruct (act_at_ok _ qd (CurAct q) Hqd Hact) as [a Ha].
  unfold CheckQuestObjective. repeat wp_step. rewrite Hp. repeat wp_step. eapply wp_given; [done|].
  destruct (Z.ltb_spec (CurAct q) 0); [lia|].
  destruct (Z.leb_spec (Z.of_nat (length (actList qd))) (CurAct q)); [lia|]. cbn [orb].
  repeat wp_step. eapply wp_given; [by apply GetObjective_at; [lia|done]|].
  destruct (find_objective a t c) as [o|] eqn:Ho; cbn [idx from_option]; [|by apply works_moves].
  apply find_objective_bound in Ho. destruct (Z.ltb_spec (Z.of_nat o) 0); [lia|].
  destruct (Z.leb_spec (Z.of_nat MAXOBJECTIVES) (Z.of_nat o)); [lia|]. rewrite Nat2Z.id. cbv zeta.
  destruct (ObjComplete q !!! o =? 1); [by apply works_moves|].
  repeat wp_step. eapply wp_given; [done|]. repeat wp_step.
  set (count := signed 16 _). set (q1 := if data2 (obj a o) <=? count then _ else _).
  assert (W1 : works q q1).
  { subst q1. destruct (data2 (obj a o) <=? count); [|by apply works_set_counter].
    eapply works_trans; [by apply works_set_counter|]. apply works_set_complete. by apply works_set_counter. }
  clearbody q1.
  eapply (wp_mono _ (fun _ => works q)).
  2: by apply wp_outcome.
  intros w2 q2 W2. repeat wp_step. destruct (ObjComplete q2 !!! o =? 1); cbn [negb];
    [|by repeat wp_step; apply works_moves].
  repeat wp_step. case_match; [|by repeat wp_step; apply works_moves].
  case_match; repeat wp_step; [|by apply works_moves].
  eapply wp_mono; [|by apply wp_AdvanceAct_works]. done.
Qed.

Lemma travel_from_bound q a x y z zone idxs :
  Forall (fun i => i < MAXOBJECTIVES)%nat idxs ->
  travel_from q a x y z zone idxs = -1 \/ 0 <= travel_from q a x y z zone idxs < 4.
Proof.
  induction 1 as [|i l Hi Hl IH]; [by left|]. cbn [travel_from]. unfold MAXOBJECTIVES in Hi.
  repeat case_match; try done; try (by left); right; lia.
Qed.

Lemma travel_one_moves CID x y z zone : moves (travel_one QuestDef player CID x y z zone).
Proof.
  intros q Hq. pose proof Hq as [Hp (qd & Hqd & Hact) _ _].
  destruct (act_at_ok _ qd (CurAct q) Hqd Hact) as [a Ha].
  unfold travel_one. repeat wp_step. apply (wp_GetQuestPointer _ qd); [done..|].
  unfold CheckTravelLocation. repeat wp_step. apply (wp_GetQuestPointer _ qd); [done..|].
  repeat wp_step. eapply wp_given; [done|]. repeat wp_step.
  case_match; [by apply works_moves|]. cbv zeta. repeat wp_step.
  set (o := Z.to_nat _). cbn [CurAct set_counter set_complete]. eapply wp_given; [done|]. repeat wp_step.
  eapply (wp_mono _ (fun _ => works q)).
  2: by apply wp_outcome, works_done.
  intros w2 q2 W2. repeat wp_step. case_match; repeat wp_step; [|by apply works_moves].
  eapply wp_mono; [|by apply wp_AdvanceAct_works]. done.
Qed.

Lemma talk_one_moves cdef CInst PCID : moves (talk_one QuestDef player cdef CInst PCID).
Proof.
  intros q Hq. pose proof Hq as [Hp (qd & Hqd & Hact) _ _].
  destruct (act_at_ok _ qd (CurAct q) Hqd Hact) as [a Ha].
  unfold talk_one. repeat wp_step. apply (wp_GetQuestPointer _ qd); [done..|].
  repeat wp_step. eapply wp_given; [done|]. case_match; [|by apply works_moves].
  repeat wp_step. cbv zeta. repeat wp_step.
  eapply (wp_mono _ (fun _ => works q)).
  2: by apply wp_outcome, works_done.
  intros w q2 W2. repeat wp_step.
  eapply (wp_mono _ (fun _ q' => ref_ok q' /\ advances q q')).
  2: { case_match; [by repeat wp_step; apply works_moves|by apply wp_AdvanceAct_works]. }
  intros w3 q3 [Hok Hadv]. repeat wp_step. rewrite clamp_act_ok; [done|done|].
  by rewrite (adv_id _ _ Hadv).
Qed.

Lemma moves_loop (idxs : list nat) (body : nat -> Job QuestReference (list Z)) q0 q :
  (forall i q, ref_ok q -> advances q0 q -> wp (body i) (fun _ q' => ref_ok q' /\ advances q q') q) ->
  ref_ok q -> advances q0 q ->
  wp (loop idxs body) (fun _ q' => ref_ok q' /\ advances q0 q') q.
Proof.
  intros Hbody Hq H0. apply (wp_loop (fun q' => ref_ok q' /\ advances q0 q')); [|done].
  intros i s [Hs Hs0]. eapply wp_mono; [|by apply Hbody]. intros w s' [? ?]. split; [done|by etransitivity].
Qed.

Lemma force_one_moves CID quest : moves (force_one QuestDef player CID quest).
Proof.
  intros q Hq. pose proof Hq as [Hp (qd & Hqd & Hact) _ _].
  destruct (act_at_ok _ qd (CurAct q) Hqd Hact) as [a Ha].
  unfold force_one. repeat wp_step. case_match; [by apply works_moves|].
  repeat wp_step. apply (wp_GetQuestPointer _ qd); [done..|]. cbv zeta. repeat wp_step.
  eapply wp_given; [done|]. apply moves_loop; [|done..]. intros i s Hs Hs0.
  case_match; [by apply works_moves|]. repeat wp_step.
  assert (W : works s (set_counter i (signed 16 (force_count (obj a i))) (set_complete i s))).
  { eapply works_trans; [by apply works_set_complete|]. apply works_set_counter. by apply works_set_complete. }
  assert (Hqs : QuestDef !! QuestID s = Some qd) by by rewrite (adv_id _ _ Hs0).
  eapply wp_mono; [|by apply wp_AdvanceAct_works]. intros w s' [Hok Hadv]. repeat wp_step.
  rewrite clamp_act_ok; [done|done|]. by rewrite (adv_id _ _ Hadv).
Qed.

Lemma emote_one_moves CID m x z zone : moves (emote_one QuestDef player CID m x z zone).
Proof.
  intros q Hq. pose proof Hq as [Hp (qd & Hqd & Hact) _ _].
  destruct (act_at_ok _ qd (CurAct q) Hqd Hact) as [a Ha].
  unfold emote_one. repeat wp_step. apply (wp_GetQuestPointer _ qd); [done..|]. repeat wp_step. cbv zeta.
  case_match; [by apply works_moves|]. repeat wp_step.
  eapply wp_given; [done|]. apply moves_loop; [|done..]. intros i s Hs Hs0.
  case_match; [by apply works_moves|]. repeat wp_step.
  assert (Hqs : QuestDef !! QuestID s = Some qd) by by rewrite (adv_id _ _ Hs0).
  pose proof Hs as [_ (qd' & Hqd' & Hact') _ _]. rewrite Hqs in Hqd'. injection Hqd' as <-.
  destruct (act_at_ok _ qd (CurAct s) Hqs Hact') as [a' Ha'].
  cbn [CurAct set_counter set_complete]. eapply wp_given; [done|]. repeat wp_step.
  eapply (wp_mono _ (fun _ => works s)).
  2: by apply wp_outcome, works_done.
  intros w2 q2 W2. repeat wp_step.
  eapply (wp_mono _ (fun _ q' => ref_ok q' /\ advances s q')); [by intros; repeat wp_step|].
  case_match; [by apply wp_AdvanceAct_works|by repeat wp_step; apply works_moves].
Qed.

End Safety.
