(* ===== verification/QuestLife.v ===== *)
(** * Quests: the life cycle of a quest in the journal

    A quest is in at most one of the phases of [Phase] for a player; [phase] reads
    it off the lists of the journal. The operations of the journal are an automaton
    on the phase of one quest ([phase_step]), and leave every other quest alone. *)

From stdpp Require Import sorting.
From S2P Require Import Prelude ByteBuffer Messages Text Float StatTables Stats AbilityTime Quest QuestSafety.

(** ** Membership *)

Definition ids (l : list QuestReference) : list Z := map QuestID l.

(** The quest [id] is in the list. *)
Definition has (id : Z) (l : list QuestReference) : bool := bool_decide (id ∈ ids l).

#[global] Arguments ids : simpl never.
#[global] Arguments has : simpl never.
#[global] Arguments AddItem : simpl never.
#[global] Arguments RemoveIndex : simpl never.

Lemma has_app id l1 l2 : has id (l1 ++ l2) = has id l1 || has id l2.
Proof.
  unfold has, ids. rewrite map_app. apply eq_true_iff_eq. rewrite orb_true_iff, !bool_decide_eq_true.
  apply elem_of_app.
Qed.

Lemma has_one id q : has id [q] = (QuestID q =? id).
Proof.
  unfold has, ids. cbn. apply eq_true_iff_eq. rewrite bool_decide_eq_true, list_elem_of_singleton, Z.eqb_eq.
  by split.
Qed.

Lemma has_add id q l : has id (AddItem q l) = has id l || (QuestID q =? id).
Proof. unfold AddItem. by rewrite has_app, has_one. Qed.

Lemma GetItem_Some id l r : GetItem id l = Some r -> exists q, l !! r = Some q /\ QuestID q = id.
Proof. intros Hr. apply find_idx_lookup in Hr as (q & Hq & E). exists q. split; [done|by apply Z.eqb_eq]. Qed.

Lemma GetItem_None id l : GetItem id l = None -> has id l = false.
Proof.
  intros Hr. apply find_idx_None in Hr. unfold has, ids. apply bool_decide_eq_false. intros Hin.
  apply list_elem_of_fmap in Hin as (q & -> & Hq). rewrite list.Forall_forall in Hr.
  specialize (Hr q Hq). by rewrite Z.eqb_refl in Hr.
Qed.

Lemma GetItem_has id l r : GetItem id l = Some r -> has id l = true.
Proof.
  intros Hr. apply GetItem_Some in Hr as (q & Hq & <-). apply bool_decide_eq_true.
  apply list_elem_of_fmap_2. by eapply list_elem_of_lookup_2.
Qed.

Lemma HasQuestID_has id l : (0 <=? HasQuestID id l) = has id l.
Proof.
  unfold HasQuestID. change (find_idx _ l) with (GetItem id l).
  destruct (GetItem id l) as [r|] eqn:Hr; cbn.
  - rewrite (GetItem_has _ _ _ Hr). by apply Z.leb_le; lia.
  - by rewrite (GetItem_None _ _ Hr).
Qed.

Lemma HasQuestID_missing id l : (HasQuestID id l =? -1) = negb (has id l).
Proof.
  rewrite <- HasQuestID_has. unfold HasQuestID. destruct (find_idx _ l) as [r|]; cbn; [|done].
  destruct (Z.eqb_spec (Z.of_nat r) (-1)); [lia|]. by destruct (Z.leb_spec 0 (Z.of_nat r)); [|lia].
Qed.

Lemma RemoveIndex_delete (l : list QuestReference) r q : l !! r = Some q ->
  RemoveIndex (Z.of_nat r) l = delete r l.
Proof.
  intros Hq. apply lookup_lt_Some in Hq. unfold RemoveIndex. destruct (Z.ltb_spec (Z.of_nat r) 0); [lia|].
  destruct (Z.leb_spec (Z.of_nat (length l)) (Z.of_nat r)); [lia|]. cbn. by rewrite Nat2Z.id.
Qed.

Lemma has_delete id l r q : NoDup (ids l) -> l !! r = Some q ->
  has id (delete r l) = has id l && negb (QuestID q =? id).
Proof.
  intros Hnd Hq. apply list_elem_of_split_length in Hq as (l1 & l2 & -> & ->). rewrite delete_middle.
  change (q :: l2) with ([q] ++ l2). rewrite !has_app, has_one.
  unfold ids in Hnd. rewrite map_app in Hnd. cbn in Hnd. apply list.NoDup_app in Hnd as (_ & H1 & H2).
  apply list.NoDup_cons in H2 as [H2 _]. destruct (Z.eqb_spec (QuestID q) id) as [<-|]; cbn.
  - rewrite andb_false_r. apply orb_false_iff. split; apply bool_decide_eq_false; [|done].
    intros Hin. by apply (H1 _ Hin), list_elem_of_here.
  - by rewrite andb_true_r.
Qed.

(** ** The invariant and the phases *)

Section Life.
Context (QuestDef : gmap Z QuestDefinition) (player : Z -> Z -> option bool).

Definition repeats (id : Z) : bool := match QuestDef !! id with Some qd => Repeat qd | None => false end.

(** A list without duplicates, of resolved references within their acts. *)
Definition list_ok (l : list QuestReference) : Prop := NoDup (ids l) /\ Forall (ref_ok QuestDef) l.

(** Where a quest may be: done and nowhere else, or offered and taken at once only
    if it can be repeated. *)
Definition places_ok (available active completed repeat : bool) : bool :=
  negb (completed && (available || active)) && (negb (available && active) || repeat).

Record journal_ok (j : Journal) : Prop := mkJournalOk {
  ok_available : list_ok (availableQuests j);
  ok_active : list_ok (activeQuests j);
  ok_completed : list_ok (completedQuests j);
  ok_places : forall id, places_ok (has id (availableQuests j)) (has id (activeQuests j))
                           (has id (completedQuests j)) (repeats id) = true }.

Inductive Phase := Absent | Offered | Taken | TakenOffered | Done.

Definition phase_of (available active completed : bool) : Phase :=
  if completed then Done
  else if active then (if available then TakenOffered else Taken)
  else if available then Offered else Absent.

Definition phase (id : Z) (j : Journal) : Phase :=
  phase_of (has id (availableQuests j)) (has id (activeQuests j)) (has id (completedQuests j)).

(** The operations of the journal. *)
Inductive Operation :=
| Join (id QueryIndex : Z)
| Finish (now id : Z)
| Leave (CID id : Z)
| ClearQuest (CID id : Z)
| ResetQuest (id : Z)
| Objective (CID objType targetCDefID targetCID : Z)
| Travel (CID x y z zone : Z)
| Talk (cdef CreatureInstID PlayerCID : Z)
| Force (CID id : Z)
| Emote (CID : Z) (message : string) (xpos zpos zoneID : Z)
| Build (level_ profession_ : Z) (guild : Z -> Z -> bool) (account : option (list Z)).

Definition perform (o : Operation) : Job Journal (list Z) :=
  match o with
  | Join id n => fun j => let '(w, j') := QuestJoin QuestDef id n j in Some (w, j', [])
  | Finish now id => _ ← QuestComplete QuestDef now id; mret []
  | Leave CID id => _ ← QuestLeave QuestDef player CID id; mret []
  | ClearQuest CID id => _ ← QuestClear QuestDef player CID id; mret []
  | ResetQuest id => _ ← modify (QuestResetObjectives id); mret []
  | Objective CID t c n => CheckQuestObjectives QuestDef player CID t c n
  | Travel CID x y z zone => CheckTravelLocations QuestDef player CID x y z zone
  | Talk cdef CInst PCID => CheckQuestTalk QuestDef player cdef CInst PCID
  | Force CID id => ForceComplete QuestDef player CID id
  | Emote CID m x z zone => FilterEmote QuestDef player CID m x z zone
  | Build l p g a => _ ← BuildAvailableQuests QuestDef l p g a; mret []
  end.

(** What an operation does to the phase of quest [id]. *)
Definition is_now (a : Availability) : bool := match a with Now => true | _ => false end.

Definition phase_step (o : Operation) (id : Z) (p : Phase) : Phase :=
  match o with
  | Join id' _ =>
      if id' =? id then match p with Offered => if repeats id then TakenOffered else Taken | p => p end else p
  | Finish _ id' =>
      if id' =? id then match p with
                        | Taken => if repeats id then Absent else Done
                        | TakenOffered => Offered
                        | p => p
                        end else p
  | Leave _ id' =>
      if id' =? id then match p with
                        | Taken => if repeats id then Absent else Offered
                        | TakenOffered => Offered
                        | p => p
                        end else p
  | ClearQuest _ id' =>
      if id' =? id then match p with
                        | Taken => if repeats id then Absent else Offered
                        | TakenOffered => Offered
                        | Done => Offered
                        | p => p
                        end else p
  | Build l pr g a =>
      let now := match QuestDef !! id with Some qd => is_now (availability l pr g a qd) | None => false end in
      match p with
      | Done => Done
      | Taken | TakenOffered => if now && repeats id then TakenOffered else Taken
      | Absent | Offered => if now then Offered else Absent
      end
  | _ => p
  end.

(** *** Lists *)

Lemma list_ok_add q l : list_ok l -> ref_ok QuestDef q -> has (QuestID q) l = false -> list_ok (AddItem q l).
Proof.
  intros [Hnd Hl] Hq Hnew. unfold list_ok, AddItem, ids. rewrite map_app. split.
  - apply list.NoDup_app. split; [done|]. split; [|by apply list.NoDup_singleton].
    intros x Hx Hx'. apply list_elem_of_singleton in Hx' as ->. by apply bool_decide_eq_false in Hnew.
  - apply list.Forall_app. split; [done|]. by constructor.
Qed.

Lemma list_ok_delete r l : list_ok l -> list_ok (delete r l).
Proof.
  intros [Hnd Hl]. split; [|by apply Forall_delete].
  eapply sublist_NoDup; [exact Hnd|]. apply (fmap_sublist QuestID), sublist_delete.
Qed.

Lemma list_ok_lookup l r q : list_ok l -> l !! r = Some q -> ref_ok QuestDef q.
Proof. intros [_ Hl] Hq. by eapply list.Forall_lookup_1 in Hq. Qed.

Lemma ref_ok_Reset q : ref_ok QuestDef q -> ref_ok QuestDef (Reset q).
Proof. intros [? (qd & ? & ?) ? ?]. split; try done. exists qd. split; [done|cbn; lia]. Qed.

Lemma ref_ok_ResetObjectives q : ref_ok QuestDef q -> ref_ok QuestDef (ResetObjectives q).
Proof. by intros [? ? ? ?]. Qed.

Lemma ref_ok_known q : ref_ok QuestDef q -> exists qd, QuestDef !! QuestID q = Some qd.
Proof. intros [_ (qd & ? & _) _ _]. by exists qd. Qed.

Lemma advances_ids l l' : Forall2 advances l l' -> ids l' = ids l.
Proof. induction 1 as [|q q' l l' Hq Hl IH]; [done|]. change (QuestID q' :: ids l' = QuestID q :: ids l). by rewrite IH, (adv_id _ _ Hq). Qed.

(** A journal whose active list has moved on. *)
Lemma journal_ok_moved j l : journal_ok j -> Forall (ref_ok QuestDef) l ->
  ids l = ids (activeQuests j) ->
  journal_ok (set_active l j) /\ forall id, phase id (set_active l j) = phase id j.
Proof.
  intros [Hav [Hnd Hac] Hco Hpl] Hl Hids. split.
  - split; cbn; try done; [split; [by rewrite Hids|done]|]. intros id. specialize (Hpl id).
    unfold has in *. by rewrite Hids.
  - intros id. unfold phase, has. cbn. by rewrite Hids.
Qed.

(** *** The operations *)

Definition follows (o : Operation) : Prop :=
  forall j, journal_ok j ->
    wp (perform o) (fun _ j' => journal_ok j' /\ forall id, phase id j' = phase_step o id (phase id j)) j.

(** The places of every quest after an operation are those of its new phase. *)
Lemma follows_by o j j' :
  list_ok (availableQuests j') -> list_ok (activeQuests j') -> list_ok (completedQuests j') ->
  (forall id, places_ok (has id (availableQuests j')) (has id (activeQuests j'))
                (has id (completedQuests j')) (repeats id) = true /\
              phase id j' = phase_step o id (phase id j)) ->
  journal_ok j' /\ forall id, phase id j' = phase_step o id (phase id j).
Proof. intros H1 H2 H3 H4. split; [split; [done..|]|]; intros id; apply H4. Qed.

(** Settles what happens to the places of a quest: the membership tests are cases. *)
Ltac by_places Hpl id :=
  generalize (Hpl id); unfold phase, phase_of, phase_step, places_ok; cbn;
  repeat match goal with
  | |- context [has ?i ?l] => destruct (has i l) eqn:?
  | |- context [repeats ?i] => destruct (repeats i) eqn:?
  end; cbn; congruence.

(** The same for an operation on quest [id0], whose lists are grown and shrunk. *)
Ltac by_cases Hpl id0 id :=
  unfold phase_step; destruct (Z.eqb_spec id0 id) as [<-|]; cbn;
  rewrite ?orb_false_r, ?andb_true_r, ?orb_true_r, ?andb_false_r; [by_places Hpl id0|first [done|apply Hpl]].

Lemma join_follows id0 n : follows (Join id0 n).
Proof.
  intros j Hj. pose proof Hj as [Hav Hac Hco Hpl]. unfold wp, perform, QuestJoin, QuestJoin_Helper.
  rewrite !HasQuestID_has.
  destruct (has id0 (completedQuests j)) eqn:E1; [|destruct (has id0 (activeQuests j)) eqn:E2].
  1-2: apply follows_by; [done..|]; intros id; split; [apply Hpl|]; by_cases Hpl id0 id.
  destruct (GetItem id0 (availableQuests j)) as [r|] eqn:Hr.
  2: { apply GetItem_None in Hr. apply follows_by; [done..|]. intros id. split; [apply Hpl|]. by_cases Hpl id0 id. }
  pose proof (GetItem_has _ _ _ Hr) as E3. apply GetItem_Some in Hr as (q & Hq & Hid). rewrite Hq.
  pose proof (list_ok_lookup _ _ _ Hav Hq) as Hok. unfold Sort. fold (repeats id0).
  assert (Hac' : list_ok (AddItem q (activeQuests j))) by (apply list_ok_add; [done..|by rewrite Hid]).
  destruct (repeats id0) eqn:Er; cbn [availableQuests set_active].
  - apply follows_by; [done..|]. intros id. unfold phase. cbn. rewrite has_add, Hid. split; by_cases Hpl id0 id.
  - rewrite (RemoveIndex_delete _ _ _ Hq). apply follows_by; cbn; try done; [by apply list_ok_delete|].
    intros id. unfold phase. cbn. rewrite has_add, (has_delete id _ _ q), Hid by (done || apply Hav).
    split; by_cases Hpl id0 id.
Qed.

Context (HD : defs_ok QuestDef).

Lemma GetQuestPointer_known q : ref_ok QuestDef q ->
  exists qd, QuestDef !! QuestID q = Some qd /\ questID qd = QuestID q /\
             GetQuestPointer QuestDef q = Some (Some qd, q, []).
Proof.
  intros Hq. destruct (ref_ok_known q Hq) as [qd Hqd]. exists qd. destruct (HD _ _ Hqd) as [? _].
  by rewrite (GetQuestPointer_ok QuestDef q qd).
Qed.

Lemma repeats_known id qd : QuestDef !! id = Some qd -> repeats id = Repeat qd.
Proof. unfold repeats. by intros ->. Qed.

Lemma finish_follows now id0 : follows (Finish now id0).
Proof.
  intros j Hj. pose proof Hj as [Hav Hac Hco Hpl]. unfold perform. apply wp_bind. unfold wp, QuestComplete.
  destruct (GetItem id0 (activeQuests j)) as [r|] eqn:Hr.
  2: { apply GetItem_None in Hr. apply follows_by; [done..|]. intros id. split; [apply Hpl|]. by_cases Hpl id0 id. }
  pose proof (GetItem_has _ _ _ Hr) as E3. apply GetItem_Some in Hr as (q & Hq & Hid).
  pose proof (list_ok_lookup _ _ _ Hac Hq) as Hok.
  destruct (GetQuestPointer_known q Hok) as (qd & Hqd & Hqid & Hget). rewrite Hid in Hqd.
  unfold at_index. destruct (Z.ltb_spec (Z.of_nat r) 0); [lia|]. rewrite Nat2Z.id, Hq, Hget.
  cbn [mbind option_bind]. rewrite list_insert_id by done. rewrite Hq. cbn [mbind option_bind].
  pose proof (repeats_known id0 qd Hqd) as Er. unfold Sort.
  assert (E1 : has id0 (completedQuests j) = false).
  { generalize (Hpl id0). unfold places_ok. rewrite E3, orb_true_r, andb_true_r.
    by destruct (has id0 (completedQuests j)). }
  destruct (Repeat qd) eqn:Erq.
  - cbn [activeQuests set_active]. rewrite (RemoveIndex_delete _ _ _ Hq).
    apply follows_by; cbn; [done|by apply list_ok_delete|done|].
    intros id. unfold phase. cbn. rewrite (has_delete id _ _ q), Hid by (done || apply Hac).
    split; by_cases Hpl id0 id.
  - destruct (0 <? RepeatMinuteDelay qd); unfold AddQuestRepeatDelay; cbn [activeQuests set_active set_completed set_delayed];
    rewrite (RemoveIndex_delete _ _ _ Hq); (apply follows_by; cbn;
      [done|by apply list_ok_delete|apply list_ok_add; [done..|by rewrite Hid]|]);
      intros id; unfold phase; cbn; rewrite has_add, (has_delete id _ _ q), Hid by (done || apply Hac);
      split; by_cases Hpl id0 id.
Qed.

Lemma leave_wp CID id0 j : journal_ok j ->
  wp (QuestLeave QuestDef player CID id0)
    (fun _ j' => (journal_ok j' /\ forall id, phase id j' = phase_step (Leave CID id0) id (phase id j)) /\
                 completedQuests j' = completedQuests j /\
                 (has id0 (activeQuests j) = false -> j' = j)) j.
Proof.
  intros Hj. pose proof Hj as [Hav Hac Hco Hpl]. unfold wp, QuestLeave.
  destruct (GetItem id0 (activeQuests j)) as [r|] eqn:Hr.
  2: { apply GetItem_None in Hr. split; [|done]. apply follows_by; [done..|]. intros id. split; [apply Hpl|].
       by_cases Hpl id0 id. }
  pose proof (GetItem_has _ _ _ Hr) as E3. apply GetItem_Some in Hr as (q & Hq & Hid). rewrite Hq.
  pose proof (list_ok_lookup _ _ _ Hac Hq) as Hok. destruct (ref_ok_known q Hok) as [qd Hqd]. rewrite Hid in Hqd.
  pose proof (repeats_known id0 qd Hqd) as Er. cbn [mbind option_bind]. rewrite Hqd. unfold Sort.
  rewrite <- Er. destruct (repeats id0) eqn:Erq; cbn [activeQuests set_available]; rewrite (RemoveIndex_delete _ _ _ Hq).
  - split; [|split; [done|congruence]]. apply follows_by; cbn; [done|by apply list_ok_delete|done|].
    intros id. unfold phase. cbn. rewrite (has_delete id _ _ q), Hid by (done || apply Hac).
    split; by_cases Hpl id0 id.
  - split; [|split; [done|congruence]].
    assert (E1 : has id0 (availableQuests j) = false).
    { generalize (Hpl id0). unfold places_ok. rewrite E3, Erq, andb_true_r, orb_false_r.
      by destruct (has id0 (availableQuests j)); rewrite ?andb_false_r. }
    apply follows_by; cbn; [|by apply list_ok_delete|done|].
    { apply list_ok_add; [done|by apply ref_ok_Reset|by rewrite <- Hid in E1]. }
    intros id. unfold phase. cbn. rewrite has_add, (has_delete id _ _ q) by (done || apply Hac). cbn [QuestID Reset].
    rewrite Hid. split; by_cases Hpl id0 id.
Qed.

Lemma leave_follows CID id0 : follows (Leave CID id0).
Proof.
  intros j Hj. unfold perform. apply wp_bind. eapply wp_mono; [|by apply leave_wp].
  intros _ j' [H _]. by apply wp_ret.
Qed.

Lemma clear_follows CID id0 : follows (ClearQuest CID id0).
Proof.
  intros j Hj. unfold perform, QuestClear. do 2 apply wp_bind. eapply wp_mono; [|by apply leave_wp].
  intros _ j1 ((Hj1 & Hph) & Hcomp & _). apply wp_modify, wp_ret.
  pose proof Hj1 as [Hav Hac Hco Hpl].
  destruct (GetItem id0 (completedQuests j1)) as [r|] eqn:Hr; cbn [mbind option_bind].
  2: { apply GetItem_None in Hr. split; [done|]. intros id. rewrite Hph. cbn.
       destruct (Z.eqb_spec id0 id) as [<-|]; [|done]. rewrite Hcomp in Hr. unfold phase, phase_of. rewrite Hr.
       by repeat case_match. }
  pose proof (GetItem_has _ _ _ Hr) as E3. apply GetItem_Some in Hr as (q & Hq & Hid). rewrite Hq.
  pose proof (list_ok_lookup _ _ _ Hco Hq) as Hok. destruct (ref_ok_known q Hok) as [qd Hqd]. rewrite Hid in Hqd.
  cbn [mbind option_bind]. rewrite Hqd. unfold Sort. cbn [completedQuests set_available].
  rewrite (RemoveIndex_delete _ _ _ Hq).
  assert (E1 : has id0 (availableQuests j1) = false /\ has id0 (activeQuests j1) = false).
  { generalize (Hpl id0). unfold places_ok. rewrite E3.
    by destruct (has id0 (availableQuests j1)), (has id0 (activeQuests j1)). }
  assert (E2 : has id0 (completedQuests j) = true) by by rewrite <- Hcomp.
  split.
  - split; cbn; [|done|by apply list_ok_delete|].
    + apply list_ok_add; [done|by apply ref_ok_Reset|cbn; rewrite Hid; apply E1].
    + intros id. rewrite has_add, (has_delete id _ _ q) by (done || apply Hco). cbn [QuestID Reset]. rewrite Hid.
      destruct E1. by_cases Hpl id0 id.
  - intros id. specialize (Hph id). revert Hph. unfold phase. cbn.
    rewrite has_add, (has_delete id _ _ q) by (done || apply Hco). cbn [QuestID Reset]. rewrite Hid.
    destruct (Z.eqb_spec id0 id) as [<-|]; cbn; [|by rewrite orb_false_r, andb_true_r].
    destruct E1 as [-> ->]. by rewrite E2, E3.
Qed.

(** *** Progress *)

Lemma each_follows o f : moves QuestDef f -> perform o = on_active (each f) ->
  (forall id p, phase_step o id p = p) -> follows o.
Proof.
  intros Hf Ho1 Ho j Hj. rewrite Ho1. destruct (each_wp (ref_ok QuestDef) advances f (activeQuests j) Hf) as
    (w & l & e & He & Hl & Hadv); [apply Hj|].
  unfold wp, on_active. rewrite He. destruct (journal_ok_moved j l Hj Hl (advances_ids _ _ Hadv)) as [H1 H2].
  split; [done|]. intros id. by rewrite Ho, H2.
Qed.

Lemma objective_moves CID t c n :
  moves QuestDef (q ← get; if Complete q =? 0 then CheckQuestObjective QuestDef player CID t c n else mret []).
Proof.
  intros q Hq. repeat wp_step. case_match; [by apply CheckQuestObjective_moves|by repeat wp_step].
Qed.

(** *** Searches *)

(** The test of [HasCreatureReturn] on a resolved reference. *)
Definition returns_to (searchVal : Z) (q : QuestReference) : bool :=
  match QuestDef !! QuestID q with
  | None => false
  | Some qd =>
      if searchVal =? -1 then
        match act_at qd (actCount qd - 1) with
        | Some a => negb (type (obj a 0) =? OBJECTIVE_TYPE_TALK)
        | None => false
        end
      else match act_at qd (CurAct q) with Some a => talks_to a searchVal | None => false end
  end.

Lemma HasCreatureReturn_pure c l : Forall (ref_ok QuestDef) l ->
  HasCreatureReturn QuestDef c l = Some (idx (find_idx (returns_to c) l), l, []).
Proof.
  apply scan_pure. intros q Hq. destruct (GetQuestPointer_known q Hq) as (qd & Hqd & _ & Hget).
  pose proof Hq as [_ (qd' & Hqd' & Hact) _ _]. rewrite Hqd in Hqd'. injection Hqd' as <-.
  destruct (HD _ _ Hqd) as (_ & Hn & Hlen).
  unfold mbind at 1, Job_bind at 1. rewrite Hget. unfold get, mbind, Job_bind. unfold returns_to. rewrite Hqd.
  destruct (act_at_ok QuestDef HD _ qd (actCount qd - 1) Hqd ltac:(lia)) as [a Ha].
  destruct (act_at_ok QuestDef HD _ qd (CurAct q) Hqd Hact) as [a' Ha']. rewrite Ha, Ha'.
  by destruct (c =? -1).
Qed.

Lemma ids_insert l i q q' : l !! i = Some q -> QuestID q' = QuestID q -> ids (<[i := q']> l) = ids l.
Proof.
  intros Hq E. unfold ids. etransitivity; [apply (list_fmap_insert QuestID)|]. rewrite E.
  apply list_insert_id. change (map QuestID l) with (QuestID <$> l). by rewrite list_lookup_fmap, Hq.
Qed.

Lemma alter_lookup {A} (f : A -> A) (l : list A) (i : nat) x : l !! i = Some x -> alter f i l = <[i := f x]> l.
Proof.
  revert i. induction l as [|y l IH]; intros [|i]; cbn; try done; [by intros [= ->]|].
  intros Hx. f_equal. by apply IH.
Qed.

Lemma talk_follows c n p : follows (Talk c n p).
Proof.
  intros j Hj. unfold perform, CheckQuestTalk. apply wp_bind. unfold wp at 1, on_active at 1.
  rewrite HasCreatureReturn_pure by apply Hj.
  destruct (find_idx (returns_to c) (activeQuests j)) as [r|] eqn:Hr; cbn [idx from_option].
  2: { apply wp_ret. by apply (journal_ok_moved j); [|apply Hj|]. }
  destruct (Z.eqb_spec (Z.of_nat r) (-1)); [lia|].
  apply find_idx_lookup in Hr as (q & Hq & _). unfold wp, on_active, at_index. cbn [activeQuests set_active].
  destruct (Z.ltb_spec (Z.of_nat r) 0); [lia|]. rewrite Nat2Z.id, Hq.
  pose proof (list_ok_lookup _ _ _ (ok_active _ Hj) Hq) as Hok.
  pose proof (talk_one_moves QuestDef player HD c n p q Hok) as Hw. apply wp_exists in Hw as (w & q' & e & -> & Hok' & Hadv).
  apply (journal_ok_moved j); [done| |].
  - apply Forall_insert; [apply Hj|done].
  - by apply (ids_insert _ _ q), (adv_id _ _ Hadv).
Qed.

Lemma reset_follows id0 : follows (ResetQuest id0).
Proof.
  intros j Hj. unfold perform. apply wp_bind, wp_modify, wp_ret. unfold QuestResetObjectives.
  destruct (GetItem id0 (activeQuests j)) as [r|] eqn:Hr; [|done].
  apply GetItem_Some in Hr as (q & Hq & _). pose proof (list_ok_lookup _ _ _ (ok_active _ Hj) Hq) as Hok.
  rewrite (alter_lookup _ _ _ _ Hq). apply (journal_ok_moved j); [done| |].
  - apply Forall_insert; [apply Hj|by apply ref_ok_ResetObjectives].
  - by apply (ids_insert _ _ q).
Qed.

(** *** The list of available quests *)

Section Building.
Context (l p : Z) (g : Z -> Z -> bool) (a : option (list Z)).

(** The character may take the quest. *)
Definition offered_now (id : Z) : bool :=
  match QuestDef !! id with Some qd => is_now (availability l p g a qd) | None => false end.

(** What the loop has done before the remaining entries [rest], which are
    definitions not met yet. *)
Record building (j0 j : Journal) (seen : list Z) : Prop := mkBuilding {
  b_active : activeQuests j = activeQuests j0;
  b_completed : completedQuests j = completedQuests j0;
  b_delayed : delayedRepeat j = delayedRepeat j0;
  b_ok : list_ok (availableQuests j);
  b_has : forall id, has id (availableQuests j) =
            bool_decide (id ∈ seen) && offered_now id &&
            negb (has id (completedQuests j0)) && (negb (has id (activeQuests j0)) || repeats id) }.

Lemma new_reference_ok id qd : QuestDef !! id = Some qd -> ref_ok QuestDef (new_reference id (Some id) (QuestGiverID qd)).
Proof.
  intros Hqd. destruct (HD _ _ Hqd) as (_ & _ & Hn). split; try done. exists qd. split; [done|cbn; lia].
Qed.

Lemma consider_building j0 j seen id qd : building j0 j seen -> QuestDef !! id = Some qd -> id ∉ seen ->
  wp (consider QuestDef l p g a id qd) (fun _ j' => building j0 j' (id :: seen)) j.
Proof.
  intros [Ha Hc Hdel Hok Hhas] Hqd Hnew. destruct (HD _ _ Hqd) as (Hid & _ & _). unfold consider.
  pose proof (new_reference_ok id qd Hqd) as Href. rewrite Hid.
  assert (Hseen : forall i, bool_decide (i ∈ id :: seen) = (id =? i) || bool_decide (i ∈ seen)).
  { intros i. apply eq_true_iff_eq. rewrite orb_true_iff, !bool_decide_eq_true, elem_of_cons, Z.eqb_eq.
    split; intros [?|?]; auto. }
  assert (Hnot : bool_decide (id ∈ seen) = false) by by apply bool_decide_eq_false.
  assert (Hskip : (offered_now id &&
            negb (has id (completedQuests j0)) && (negb (has id (activeQuests j0)) || repeats id)) = false ->
            forall j', availableQuests j' = availableQuests j -> activeQuests j' = activeQuests j ->
            completedQuests j' = completedQuests j -> delayedRepeat j' = delayedRepeat j ->
            building j0 j' (id :: seen)).
  { intros Hno j' E1 E2 E3 E4. split; [congruence..|by rewrite E1|]. intros i. rewrite E1, Hhas, Hseen.
    destruct (Z.eqb_spec id i) as [<-|]; [|done]. rewrite Hnot. cbn. by rewrite Hno. }
  destruct (availability l p g a qd) eqn:Hav.
  - apply wp_ret. apply Hskip; [|done..]. unfold offered_now. by rewrite Hqd, Hav.
  - apply wp_modify. apply Hskip; [|done..]. unfold offered_now. by rewrite Hqd, Hav.
  - unfold wp, AddPendingQuest. rewrite !HasQuestID_has. cbn [QuestID new_reference]. rewrite Ha, Hc.
    destruct (has id (completedQuests j0)) eqn:E1.
    { apply Hskip; [|done..]. by rewrite andb_false_r. }
    assert (Hfresh : has id (availableQuests j) = false) by by rewrite Hhas, Hnot.
    assert (Hadd : negb (has id (activeQuests j0)) || repeats id = true ->
      building j0 (set_available (Sort (AddItem (new_reference id (Some id) (QuestGiverID qd))
        (availableQuests j))) j) (id :: seen)).
    { intros Hyes. split; [done..|by apply list_ok_add|]. intros i. cbn. unfold Sort. rewrite has_add, Hhas, Hseen.
      cbn [QuestID new_reference]. destruct (Z.eqb_spec id i) as [<-|]; [|by rewrite orb_false_r].
      unfold offered_now. by rewrite Hqd, Hav, E1, Hyes, orb_true_r. }
    destruct (has id (activeQuests j0)) eqn:E2.
    + rewrite (GetQuestPointer_ok QuestDef _ qd) by done. cbn. rewrite !HasQuestID_has, E2, Hfresh.
      rewrite <- (repeats_known id qd) by done.
      destruct (repeats id) eqn:Er; cbn; [by apply Hadd|apply Hskip; [|done..]; by rewrite andb_false_r].
    + cbn. rewrite !HasQuestID_has, E2, Hfresh. by apply Hadd.
Qed.

Lemma consider_all_building j0 rest j seen :
  (forall id qd, (id, qd) ∈ rest -> QuestDef !! id = Some qd) -> NoDup (map fst rest) ->
  (forall id, id ∈ map fst rest -> id ∉ seen) ->
  building j0 j seen ->
  wp (consider_all QuestDef l p g a rest)
     (fun _ j' => building j0 j' (rev (map fst rest) ++ seen)) j.
Proof.
  revert j seen. induction rest as [|[id qd] rest IH]; intros j seen Hdef Hnd Hdis Hj; [done|].
  apply list.NoDup_cons in Hnd as [Hnew Hnd]. cbn [consider_all]. apply wp_bind.
  eapply wp_mono; [|eapply consider_building; [done|apply Hdef, list_elem_of_here|apply Hdis, list_elem_of_here]].
  intros [] j1 Hj1. cbn [map fst rev]. rewrite <- app_assoc. apply IH; [|done| |done].
  - intros i d Hi. by apply Hdef, list_elem_of_further.
  - intros i Hi Hin. apply elem_of_cons in Hin as [E|Hin]; [by rewrite E in Hi|].
    revert Hin. by apply Hdis, list_elem_of_further.
Qed.

Lemma build_wp j :
  wp (BuildAvailableQuests QuestDef l p g a)
     (fun _ j' => activeQuests j' = activeQuests j /\ completedQuests j' = completedQuests j /\
        delayedRepeat j' = delayedRepeat j /\ list_ok (availableQuests j') /\
        forall id, has id (availableQuests j') =
          offered_now id && negb (has id (completedQuests j)) && (negb (has id (activeQuests j)) || repeats id)) j.
Proof.
  unfold BuildAvailableQuests. apply wp_bind, wp_modify.
  set (rest := merge_sort key_le (map_to_list QuestDef)).
  assert (Hperm : rest ≡ₚ map_to_list QuestDef) by apply merge_sort_Permutation.
  assert (Hin : forall id qd, (id, qd) ∈ rest <-> QuestDef !! id = Some qd).
  { intros id qd. rewrite Hperm. apply elem_of_map_to_list. }
  eapply wp_mono; [|apply (consider_all_building j rest _ [])].
  2: by intros; apply Hin.
  2: { change (map fst rest) with (rest.*1). rewrite Hperm. apply NoDup_fst_map_to_list. }
  2: by intros; apply not_elem_of_nil.
  2: { split; [done..| |by intros id; cbn]. split; constructor. }
  rewrite app_nil_r. intros [] j' [Ha Hc Hdel Hok Hhas]. do 4 (split; [done|]).
  intros id. rewrite Hhas. unfold offered_now. destruct (QuestDef !! id) as [qd|] eqn:Hqd; [|by rewrite andb_false_r].
  rewrite bool_decide_true; [done|]. rewrite rev_alt. apply elem_of_reverse.
  change (map fst rest) with (rest.*1). apply list_elem_of_fmap. exists (id, qd). split; [done|by apply Hin].
Qed.

Lemma build_follows : follows (Build l p g a).
Proof.
  intros j Hj. pose proof Hj as [Hav Hac Hco Hpl]. unfold perform. apply wp_bind.
  eapply wp_mono; [|apply build_wp]. intros [] j' (Ha & Hc & _ & Hok & Hh). apply wp_ret.
  apply follows_by; [done|by rewrite Ha|by rewrite Hc|]. intros id. unfold phase. rewrite Ha, Hc, Hh.
  cbn [phase_step]. fold (offered_now id). destruct (offered_now id); split; by_places Hpl id.
Qed.
End Building.

Lemma all_follow o : follows o.
Proof.
  destruct o.
  - apply join_follows.
  - apply finish_follows.
  - apply leave_follows.
  - apply clear_follows.
  - apply reset_follows.
  - eapply each_follows; [by apply objective_moves|done|done].
  - eapply each_follows; [by apply travel_one_moves|done|done].
  - apply talk_follows.
  - eapply each_follows; [by apply force_one_moves|done|done].
  - eapply each_follows; [by apply emote_one_moves|done|done].
  - apply build_follows.
Qed.

(** A sequence of operations. *)
Fixpoint performs (os : list Operation) : Job Journal (list Z) :=
  match os with
  | [] => mret []
  | o :: os => w1 ← perform o; w2 ← performs os; mret (w1 ++ w2)
  end.

Lemma performs_follow os j : journal_ok j ->
  wp (performs os) (fun _ j' => journal_ok j' /\
    forall id, phase id j' = foldl (fun p o => phase_step o id p) (phase id j) os) j.
Proof.
  revert j. induction os as [|o os IH]; intros j Hj; [done|]. cbn [performs]. apply wp_bind.
  eapply wp_mono; [|by apply all_follow]. intros w1 j1 [Hj1 H1]. apply wp_bind.
  eapply wp_mono; [|by apply IH]. intros w2 j2 [Hj2 H2]. apply wp_ret. split; [done|].
  intros id. by rewrite H2, H1.
Qed.

End Life.
