(* ===== verification/QuestFile.v ===== *)
(** * Quests: the character file and what loading it restores

    A saved journal is read back, up to what is not in the file; resolving a loaded
    journal removes what has no valid definition, gives back quests whose delay is
    over, and establishes the invariant of [QuestLife]. *)

From stdpp Require Import sorting.
From S2P Require Import Prelude ByteBuffer Messages Text Float StatTables Stats AbilityTime AbilityTimeFacts Quest QuestSafety QuestLife.

Section Resolve.
Context (QuestDef : gmap Z QuestDefinition).
Context (HD : defs_ok QuestDef).

(** ** Entries without a valid definition *)

(** A reference as the loader leaves it: not resolved yet, or resolved. *)
Record loaded (q : QuestReference) : Prop := mkLoaded {
  loaded_ptr : DefPtr q = None \/ (DefPtr q = Some (QuestID q) /\ is_Some (QuestDef !! QuestID q));
  loaded_counter : length (ObjCounter q) = MAXOBJECTIVES;
  loaded_complete : length (ObjComplete q) = MAXOBJECTIVES }.

Definition resolved (q : QuestReference) : QuestReference :=
  match QuestDef !! QuestID q with Some _ => set_DefPtr (Some (QuestID q)) q | None => q end.

(** The definition is known and the act is one of its acts. *)
Definition valid (q : QuestReference) : bool :=
  match QuestDef !! QuestID q with
  | Some qd => (0 <=? CurAct q) && (CurAct q <? Z.of_nat (length (actList qd)))
  | None => false
  end.

Lemma GetQuestPointer_loaded q : loaded q ->
  GetQuestPointer QuestDef q = Some (QuestDef !! QuestID q, resolved q, []).
Proof.
  intros [Hp _ _]. unfold GetQuestPointer, mbind, Job_bind, get, resolved.
  destruct Hp as [->|[Hp [qd Hqd]]].
  - by destruct (QuestDef !! QuestID q).
  - rewrite Hp. unfold definition, given. rewrite Hqd. cbn. do 2 f_equal. by destruct q; cbn in *; subst.
Qed.

Lemma TestInvalid_loaded q : loaded q -> TestInvalid QuestDef q = Some (negb (valid q), resolved q, []).
Proof.
  intros Hq. unfold TestInvalid. unfold mbind at 1, Job_bind at 1. rewrite GetQuestPointer_loaded by done.
  unfold valid, resolved, mbind, Job_bind, get. destruct (QuestDef !! QuestID q) as [qd|]; [|done]. cbn.
  do 3 f_equal. by rewrite negb_andb, <- Z.ltb_antisym, <- Z.leb_antisym.
Qed.

Lemma loaded_resolved q : loaded q -> loaded (resolved q).
Proof.
  intros [Hp Hc Hf]. unfold resolved. destruct (QuestDef !! QuestID q) eqn:E; split; try done.
  - right. cbn. rewrite E. by split; [|eexists].
  - by left; destruct Hp as [?|[_ [? ?]]].
Qed.

Lemma resolved_id q : QuestID (resolved q) = QuestID q.
Proof. unfold resolved. by destruct (QuestDef !! QuestID q). Qed.

Lemma resolved_idem q : resolved (resolved q) = resolved q.
Proof. unfold resolved. destruct (QuestDef !! QuestID q) eqn:E; cbn; by rewrite ?E. Qed.

Lemma valid_resolved q : valid (resolved q) = valid q.
Proof. unfold valid, resolved. destruct (QuestDef !! QuestID q) eqn:E; cbn; by rewrite ?E. Qed.

Lemma valid_ref_ok q : loaded q -> valid q = true -> ref_ok QuestDef (resolved q).
Proof.
  intros [Hp Hc Hf] Hv. unfold valid in Hv. unfold resolved. destruct (QuestDef !! QuestID q) as [qd|] eqn:E; [|done].
  apply andb_true_iff in Hv as [H1%Z.leb_le H2%Z.ltb_lt]. destruct (HD _ _ E) as (_ & Hn & _).
  split; try done. exists qd. split; [done|cbn; lia].
Qed.

Lemma ids_resolved l : ids (map resolved l) = ids l.
Proof. unfold ids. rewrite map_map. apply map_ext, resolved_id. Qed.

(** The search for an invalid entry resolves the entries before it, and it. *)
Lemma scan_invalid_none pos l : Forall loaded l -> Forall (fun q => valid q = true) l ->
  scan_from (TestInvalid QuestDef) pos l = Some (-1, map resolved l, []).
Proof.
  intros Hl Hv. revert pos. induction Hl as [|q l Hq Hl IH]; intros pos; [done|].
  apply list.Forall_cons in Hv as [Hvq Hv]. cbn [scan_from map]. rewrite TestInvalid_loaded, Hvq by done. cbn.
  by rewrite IH.
Qed.

Lemma scan_invalid_some pos l1 q l2 : Forall loaded (l1 ++ q :: l2) -> Forall (fun q => valid q = true) l1 ->
  valid q = false ->
  scan_from (TestInvalid QuestDef) pos (l1 ++ q :: l2) =
  Some (pos + Z.of_nat (length l1), map resolved l1 ++ resolved q :: l2, []).
Proof.
  intros Hl Hv Hq. revert pos. induction l1 as [|p l1 IH]; intros pos.
  - apply list.Forall_cons in Hl as [Hlq _]. cbn [scan_from app map]. rewrite TestInvalid_loaded, Hq by done. cbn.
    by rewrite Z.add_0_r.
  - apply list.Forall_cons in Hl as [Hlp Hl]. apply list.Forall_cons in Hv as [Hvp Hv].
    cbn [scan_from app map]. rewrite TestInvalid_loaded, Hvp by done. cbn [negb].
    rewrite IH by done. cbn [length]. do 3 f_equal. lia.
Qed.

Lemma split_invalid l : Forall (fun q => valid q = true) l \/
  exists l1 q l2, l = l1 ++ q :: l2 /\ Forall (fun q => valid q = true) l1 /\ valid q = false.
Proof.
  induction l as [|p l IH]; [by left|]. destruct (valid p) eqn:Hp.
  - destruct IH as [IH|(l1 & q & l2 & -> & H1 & H2)]; [left; by constructor|].
    right. exists (p :: l1), q, l2. split; [done|]. split; [by constructor|done].
  - right. exists [], p, l. done.
Qed.

Definition keep_valid (l : list QuestReference) : list QuestReference :=
  map resolved (List.filter valid l).

Lemma keep_valid_app l1 l2 : keep_valid (l1 ++ l2) = keep_valid l1 ++ keep_valid l2.
Proof. unfold keep_valid. by rewrite List.filter_app, map_app. Qed.

Lemma keep_valid_all l : Forall (fun q => valid q = true) l -> keep_valid l = map resolved l.
Proof.
  induction 1 as [|q l Hq Hl IH]; [done|]. unfold keep_valid in *. cbn [List.filter]. rewrite Hq. cbn [map]. by rewrite IH.
Qed.

Lemma keep_valid_resolved l : keep_valid (map resolved l) = keep_valid l.
Proof.
  unfold keep_valid. induction l as [|q l IH]; [done|]. cbn [map List.filter]. rewrite valid_resolved.
  destruct (valid q); cbn [map]; by rewrite ?resolved_idem, IH.
Qed.

(** The removal loop ends, with the valid entries, resolved, in their order. *)
Lemma remove_invalid_spec fuel l : Forall loaded l -> (length l <= fuel)%nat ->
  remove_invalid QuestDef fuel l = Some (tt, keep_valid l, []).
Proof.
  revert l. induction fuel as [|fuel IH]; intros l Hl Hlen; cbn [remove_invalid];
    unfold mbind at 1, Job_bind at 1, scan; destruct (split_invalid l) as [Hv|(l1 & q & l2 & -> & H1 & H2)].
  1, 3: rewrite scan_invalid_none by done; cbn; by rewrite keep_valid_all.
  - rewrite length_app in Hlen. cbn in Hlen. lia.
  - rewrite (scan_invalid_some 0 l1 q l2) by done. rewrite Z.add_0_l.
    destruct (Z.ltb_spec (Z.of_nat (length l1)) 0); [lia|]. unfold mbind, Job_bind, modify.
    rewrite (RemoveIndex_delete _ _ (resolved q)).
    2: { rewrite lookup_app_r by (by rewrite length_map). by rewrite length_map, Nat.sub_diag. }
    rewrite <- (length_map resolved l1) at 1. rewrite delete_middle.
    apply list.Forall_app in Hl as [Hl1 Hl2]. apply list.Forall_cons in Hl2 as [_ Hl2].
    rewrite IH.
    + rewrite !keep_valid_app, keep_valid_resolved.
      by replace (keep_valid (q :: l2)) with (keep_valid l2) by (unfold keep_valid; cbn [List.filter]; by rewrite H2).
    + apply list.Forall_app. split; [|done]. apply Forall_map. eapply list.Forall_impl; [exact Hl1|]. exact loaded_resolved.
    + rewrite length_app, length_map. rewrite length_app in Hlen. cbn in Hlen. lia.
Qed.

Lemma unique_from_NoDup last l : NoDup (last :: ids l) -> unique_from last l = l.
Proof.
  revert last. induction l as [|q l IH]; intros last Hnd; [done|]. cbn [unique_from].
  change (ids (q :: l)) with (QuestID q :: ids l) in Hnd.
  apply list.NoDup_cons in Hnd as [Hlast Hnd]. destruct (Z.eqb_spec (QuestID q) last) as [E|_].
  - rewrite E in Hlast. by destruct Hlast; apply list_elem_of_here.
  - by rewrite IH.
Qed.

Lemma unique_NoDup l : NoDup (ids l) -> unique l = l.
Proof. destruct l as [|q l]; [done|]. intros Hnd. cbn. f_equal. by apply unique_from_NoDup. Qed.

Lemma ids_filter_NoDup (f : QuestReference -> bool) l : NoDup (ids l) -> NoDup (ids (List.filter f l)).
Proof.
  induction l as [|q l IH]; [done|]. change (ids (q :: l)) with (QuestID q :: ids l).
  intros Hnd. apply list.NoDup_cons in Hnd as [Hq Hnd]. cbn [List.filter].
  destruct (f q); [|by apply IH]. apply list.NoDup_cons. split; [|by apply IH].
  intros Hin. apply Hq. apply list_elem_of_fmap in Hin as (p & -> & Hp).
  apply list_elem_of_fmap_2. apply list_elem_of_In in Hp. apply filter_In in Hp as [Hp _]. by apply list_elem_of_In.
Qed.

Lemma RemoveInvalidEntries_spec l : Forall loaded l -> NoDup (ids l) ->
  RemoveInvalidEntries QuestDef l = Some (tt, keep_valid l, []) /\ list_ok QuestDef (keep_valid l).
Proof.
  intros Hl Hnd.
  assert (Hnd' : NoDup (ids (keep_valid l))).
  { unfold keep_valid. rewrite ids_resolved. by apply ids_filter_NoDup. }
  split.
  - unfold RemoveInvalidEntries, get, mbind, Job_bind, modify. rewrite remove_invalid_spec by done. cbn.
    by rewrite unique_NoDup.
  - split; [done|]. unfold keep_valid. apply Forall_map. apply list.Forall_forall. intros q Hq.
    apply list_elem_of_In, filter_In in Hq as [Hq%list_elem_of_In Hv]. cbn. apply valid_ref_ok; [|done].
    by eapply list.Forall_forall in Hl.
Qed.

(** ** Giving quests back *)

Local Abbreviation journal_ok := (QuestLife.journal_ok QuestDef).

Lemma fresh_ref_ok id : is_Some (QuestDef !! id) -> ref_ok QuestDef (new_reference id (Some id) 0).
Proof.
  intros [qd Hqd]. destruct (HD _ _ Hqd) as (_ & _ & Hn). split; try done. exists qd. split; [done|cbn; lia].
Qed.

Lemma restore_available id0 j :
  is_Some (QuestDef !! id0) -> list_ok QuestDef (availableQuests j) ->
  list_ok QuestDef (availableQuests (restore id0 j)) /\
  forall id, has id (availableQuests (restore id0 j)) =
             has id (availableQuests j) || ((id0 =? id) && negb (has id0 (activeQuests j))).
Proof.
  intros Hd Hok. unfold restore. rewrite !HasQuestID_missing. unfold AddItem_new.
  destruct (has id0 (activeQuests j)); cbn; [split; [done|]; intros id; by rewrite andb_false_r, orb_false_r|].
  destruct (has id0 (availableQuests j)) eqn:E; cbn.
  - split; [done|]. intros id. destruct (Z.eqb_spec id0 id) as [<-|]; [by rewrite E|by rewrite orb_false_r].
  - split; [by apply (list_ok_add QuestDef (new_reference id0 (Some id0) 0)); [|by apply fresh_ref_ok|]|].
    intros id. rewrite has_app, has_one. cbn. by rewrite andb_true_r.
Qed.

Lemma restore_rest id0 j :
  activeQuests (restore id0 j) = activeQuests j /\ completedQuests (restore id0 j) = completedQuests j /\
  delayedRepeat (restore id0 j) = delayedRepeat j.
Proof. unfold restore. by case_match. Qed.

(** Quest [id0] is given back: it leaves the completed list, at [r], and is offered. *)
Lemma give_back id0 r q j : journal_ok j -> completedQuests j !! r = Some q -> QuestID q = id0 ->
  let j' := set_completed (delete r (completedQuests j)) (restore id0 j) in
  journal_ok j' /\ forall id, phase id j' = if id0 =? id then Offered else phase id j.
Proof.
  intros [Hav Hac Hco Hpl] Hq Hid. cbv zeta.
  pose proof (list_ok_lookup _ _ _ _ Hco Hq) as Hok. pose proof (ref_ok_known _ _ Hok) as Hknown. rewrite Hid in Hknown.
  destruct (restore_available id0 j Hknown Hav) as [Hav' Hh]. destruct (restore_rest id0 j) as (E1 & E2 & _).
  assert (Hin : has id0 (completedQuests j) = true).
  { rewrite <- Hid. apply bool_decide_eq_true, list_elem_of_fmap_2. by eapply list_elem_of_lookup_2. }
  pose proof (Hpl id0) as Hp0. unfold places_ok in Hp0. rewrite Hin in Hp0. cbn in Hp0.
  destruct (has id0 (availableQuests j)) eqn:E3; [done|]. destruct (has id0 (activeQuests j)) eqn:E4; [done|].
  split.
  - split; cbn; [done|by rewrite E1|by apply list_ok_delete|]. intros id.
    rewrite Hh, E1, (has_delete id _ _ q), Hid by (done || apply Hco).
    destruct (Z.eqb_spec id0 id) as [<-|]; [by rewrite E3, E4, andb_false_r|].
    rewrite orb_false_r, andb_true_r. apply Hpl.
  - intros id. unfold phase. cbn. rewrite Hh, E1, (has_delete id _ _ q), Hid by (done || apply Hco).
    destruct (Z.eqb_spec id0 id) as [<-|]; [by rewrite E3, E4, andb_false_r|].
    by rewrite orb_false_r, andb_true_r.
Qed.

(** What a delay that is over does to the phase of its quest. *)
Definition released (p : Phase) : Phase := match p with Done | Absent => Offered | p => p end.

Lemma release_ok id0 j : journal_ok j ->
  journal_ok (release QuestDef id0 j) /\
  (forall id, phase id (release QuestDef id0 j) =
     if (id0 =? id) && bool_decide (is_Some (QuestDef !! id0)) then released (phase id j) else phase id j) /\
  delayedRepeat (release QuestDef id0 j) = delayedRepeat j.
Proof.
  intros Hj. unfold release. destruct (QuestDef !! id0) as [qd|] eqn:Hqd.
  2: { split; [done|]. split; [|done]. intros id. rewrite bool_decide_false by (intros [? ?]; done). by rewrite andb_false_r. }
  rewrite bool_decide_true by done. pose proof Hj as [Hav Hac Hco Hpl].
  destruct (restore_rest id0 j) as (E1 & E2 & E3). unfold remove_completed. rewrite E2.
  destruct (GetItem id0 (completedQuests j)) as [r|] eqn:Hr.
  - pose proof (GetItem_has _ _ _ Hr) as Hin. apply GetItem_Some in Hr as (q & Hq & Hid).
    rewrite (RemoveIndex_delete _ _ q Hq). destruct (give_back id0 r q j Hj Hq Hid) as [H1 H2].
    split; [done|]. split; [|done]. intros id. rewrite H2. destruct (Z.eqb_spec id0 id) as [<-|]; [|done].
    cbn. unfold phase, phase_of. by rewrite Hin.
  - apply GetItem_None in Hr.
    destruct (restore_available id0 j ltac:(by eexists) Hav) as [Hav' Hh]. split; [|split; [|done]].
    + split; [done|by rewrite E1|by rewrite E2|]. intros id. rewrite Hh, E1, E2.
      destruct (Z.eqb_spec id0 id) as [<-|]; [|by rewrite orb_false_r; apply Hpl].
      generalize (Hpl id0). unfold places_ok. rewrite Hr.
      by destruct (has id0 (availableQuests j)), (has id0 (activeQuests j)).
    + intros id. unfold phase. rewrite Hh, E1, E2.
      destruct (Z.eqb_spec id0 id) as [<-|]; [|by rewrite orb_false_r].
      unfold phase_of. rewrite Hr. by destruct (has id0 (availableQuests j)), (has id0 (activeQuests j)).
Qed.

(** A delay of quest [id] is over. *)
Definition due (now : Z) (l : list QuestRepeatDelay) (id : Z) : bool :=
  existsb (fun d => IsAvailable now d && (delay_QuestID d =? id)) l.

Lemma released_idem p : released (released p) = released p.
Proof. by destruct p. Qed.

Lemma release_all now l j : journal_ok j ->
  let j' := foldl (fun j d => if IsAvailable now d then release QuestDef (delay_QuestID d) j else j) j l in
  journal_ok j' /\
  (forall id, phase id j' =
     if due now l id && bool_decide (is_Some (QuestDef !! id)) then released (phase id j) else phase id j) /\
  delayedRepeat j' = delayedRepeat j.
Proof.
  revert j. induction l as [|d l IH]; intros j Hj; [done|]. cbn [foldl due existsb].
  destruct (IsAvailable now d); cbn [andb]; [|by apply IH].
  destruct (release_ok (delay_QuestID d) j Hj) as (H1 & H2 & H3).
  destruct (IH _ H1) as (H4 & H5 & H6). split; [done|]. split; [|congruence].
  intros id. rewrite H5, H2. fold (due now l id).
  destruct (Z.eqb_spec (delay_QuestID d) id) as [->|]; cbn [orb andb]; [|done].
  destruct (bool_decide (is_Some (QuestDef !! id))), (due now l id); cbn; by rewrite ?released_idem.
Qed.

Lemma CheckRepeatDelay_ok now j : journal_ok j ->
  journal_ok (CheckRepeatDelay QuestDef now j) /\
  (forall id, phase id (CheckRepeatDelay QuestDef now j) =
     if due now (delayedRepeat j) id && bool_decide (is_Some (QuestDef !! id)) then released (phase id j)
     else phase id j).
Proof.
  intros Hj. destruct (release_all now (delayedRepeat j) j Hj) as ([H1 H2 H3 H4] & H5 & _).
  unfold CheckRepeatDelay. by split.
Qed.

(** ** Completed quests that should have had a delay *)

Lemma old_repeat_ext j j' id : delayedRepeat j' = delayedRepeat j -> old_repeat QuestDef j' id = old_repeat QuestDef j id.
Proof. unfold old_repeat, GetRepeatDelayIndex. by intros ->. Qed.

Lemma remove_old_ok l kept j : journal_ok (set_completed (kept ++ l) j) ->
  (forall q, q ∈ kept -> old_repeat QuestDef j (QuestID q) = false) ->
  journal_ok (remove_old QuestDef l kept j) /\
  forall id, phase id (remove_old QuestDef l kept j) =
    match phase id (set_completed (kept ++ l) j) with
    | Done => if old_repeat QuestDef j id then Offered else Done
    | p => p
    end.
Proof.
  revert kept j. induction l as [|q l IH]; intros kept j Hj Hkept.
  - cbn [remove_old]. rewrite app_nil_r in *. split; [done|]. intros id.
    destruct (phase id (set_completed kept j)) eqn:Hp; try done.
    assert (Hin : has id kept = true).
    { revert Hp. unfold phase, phase_of. cbn. by repeat case_match. }
    apply bool_decide_eq_true, list_elem_of_fmap in Hin as (q & -> & Hq). by rewrite Hkept.
  - cbn [remove_old]. set (J := set_completed (kept ++ q :: l) j) in *.
    assert (Hlk : completedQuests J !! length kept = Some q).
    { cbn. rewrite lookup_app_r by done. by rewrite Nat.sub_diag. }
    pose proof (ref_ok_known _ _ (list_ok_lookup _ _ _ _ (ok_completed _ _ Hj) Hlk)) as [qd Hqd].
    destruct (old_repeat QuestDef j (QuestID q)) eqn:Ho.
    + rewrite Hqd. destruct (give_back (QuestID q) (length kept) q J Hj Hlk eq_refl) as [H1 H2].
      cbn [completedQuests J set_completed] in H1, H2. rewrite delete_middle in H1, H2.
      assert (E : set_completed (kept ++ l) (restore (QuestID q) J) =
                  set_completed (kept ++ l) (restore (QuestID q) j)).
      { unfold restore. cbn. by case_match. }
      rewrite E in H1, H2. destruct (restore_rest (QuestID q) j) as (_ & _ & E3).
      destruct (IH kept (restore (QuestID q) j) H1) as [H3 H4].
      { intros p Hp. rewrite (old_repeat_ext j) by done. by apply Hkept. }
      split; [done|]. intros id. rewrite H4, H2, (old_repeat_ext j) by done.
      destruct (Z.eqb_spec (QuestID q) id) as [<-|]; [|done]. rewrite Ho.
      assert (Hin : has (QuestID q) (kept ++ q :: l) = true).
      { apply bool_decide_eq_true, list_elem_of_fmap_2. by eapply list_elem_of_lookup_2. }
      unfold phase, phase_of. cbn. by rewrite Hin.
    + subst J. replace (kept ++ q :: l) with ((kept ++ [q]) ++ l) in * by (by rewrite <- app_assoc).
      apply IH; [done|]. intros p Hp. apply elem_of_app in Hp as [Hp|Hp]; [by apply Hkept|].
      by apply list_elem_of_singleton in Hp as ->.
Qed.

Lemma RemoveOldRepeatQuests_ok j : journal_ok j ->
  journal_ok (RemoveOldRepeatQuests QuestDef j) /\
  forall id, phase id (RemoveOldRepeatQuests QuestDef j) =
    match phase id j with Done => if old_repeat QuestDef j id then Offered else Done | p => p end.
Proof.
  intros Hj. assert (E : set_completed ([] ++ completedQuests j) j = j) by by destruct j.
  destruct (remove_old_ok (completedQuests j) [] j) as [H1 H2]; [by rewrite E|by intros ? ?%elem_of_nil|].
  unfold RemoveOldRepeatQuests. split; [done|]. intros id. by rewrite H2, E.
Qed.

(** ** Resolving a loaded journal *)

Lemma ResolveIDs_ok l : Forall (ref_ok QuestDef) l ->
  wp (ResolveIDs QuestDef) (fun _ l' => Forall (ref_ok QuestDef) l' /\ ids l' = ids l) l.
Proof.
  intros Hl. unfold wp, ResolveIDs.
  edestruct (each_wp (ref_ok QuestDef) (fun q q' => QuestID q' = QuestID q)) as (w & l' & e & He & Hok & Hids);
    [|exact Hl|rewrite He].
  - intros q Hq. destruct (GetQuestPointer_known QuestDef HD q Hq) as (qd & Hqd & _ & Hget).
    apply wp_bind, (wp_GetQuestPointer QuestDef q qd); [done..|]. apply wp_bind, wp_modify, wp_ret. by destruct Hq.
  - split; [done|]. clear Hl He Hok. induction Hids as [|q q' l l' E Hl IH]; [done|].
    change (QuestID q' :: ids l' = QuestID q :: ids l). by rewrite E, IH.
Qed.

(** A journal as it was loaded, with the offers built on it. *)
Record loaded_journal (j : Journal) : Prop := mkLoadedJournal {
  lj_available : list_ok QuestDef (availableQuests j);
  lj_active : Forall loaded (activeQuests j) /\ NoDup (ids (activeQuests j));
  lj_completed : Forall loaded (completedQuests j) /\ NoDup (ids (completedQuests j));
  lj_places : forall id, places_ok (has id (availableQuests j)) (has id (activeQuests j))
                           (has id (completedQuests j)) (repeats QuestDef id) = true }.

(** The phase of a quest once the journal [j] is resolved at time [now]. *)
Definition resolved_phase (now : Z) (j : Journal) (id : Z) : Phase :=
  let over := due now (delayedRepeat j) id && bool_decide (is_Some (QuestDef !! id)) in
  if has id (keep_valid (completedQuests j)) then
    if over || old_repeat QuestDef (CheckRepeatDelay QuestDef now j) id then Offered else Done
  else if has id (keep_valid (activeQuests j)) then
    (if has id (availableQuests j) then TakenOffered else Taken)
  else if has id (availableQuests j) || over then Offered else Absent.

Lemma has_keep_valid id l : has id (keep_valid l) = true -> has id l = true.
Proof.
  unfold keep_valid. intros Hin. apply bool_decide_eq_true in Hin. rewrite ids_resolved in Hin.
  apply bool_decide_eq_true. apply list_elem_of_fmap in Hin as (q & -> & Hq). apply list_elem_of_fmap_2.
  apply list_elem_of_In, filter_In in Hq as [Hq _]. by apply list_elem_of_In.
Qed.

Lemma resolve_loaded now j : loaded_journal j ->
  wp (ResolveLoadedQuests QuestDef now)
     (fun _ j' => journal_ok j' /\ forall id, phase id j' = resolved_phase now j id) j.
Proof.
  intros [Hav [Hla Hna] [Hlc Hnc] Hpl]. unfold ResolveLoadedQuests.
  apply wp_bind, wp_modify, wp_bind. unfold Sort.
  destruct (RemoveInvalidEntries_spec _ Hla Hna) as [Ea Oka]. destruct (RemoveInvalidEntries_spec _ Hlc Hnc) as [Ec Okc].
  unfold wp at 1, on_active at 1. cbn [activeQuests set_active set_completed]. rewrite Ea.
  apply wp_bind. unfold wp at 1, on_completed at 1. cbn [completedQuests set_active set_completed]. rewrite Ec.
  set (j1 := set_completed _ _). apply wp_bind, wp_modify.
  assert (H1 : journal_ok j1).
  { split; cbn; [done..|]. intros id. generalize (Hpl id) (has_keep_valid id (activeQuests j)) (has_keep_valid id (completedQuests j)).
    unfold places_ok. destruct (has id (keep_valid (activeQuests j))), (has id (keep_valid (completedQuests j))); intros HP HA HC;
      rewrite ?HA, ?HC in HP by done; revert HP;
      by destruct (has id (availableQuests j)), (repeats QuestDef id), (has id (activeQuests j)), (has id (completedQuests j)). }
  destruct (CheckRepeatDelay_ok now j1 H1) as [H2 P2]. apply wp_bind, wp_modify.
  destruct (RemoveOldRepeatQuests_ok _ H2) as [H3 P3]. set (j3 := RemoveOldRepeatQuests _ _) in *.
  apply wp_bind. unfold wp at 1, on_active at 1.
  pose proof (ResolveIDs_ok _ (proj2 (ok_active _ _ H3))) as Hw. apply wp_exists in Hw as (u & la & e & -> & Hoka & Hida).
  unfold wp, on_available. cbn [availableQuests set_active].
  pose proof (ResolveIDs_ok _ (proj2 (ok_available _ _ H3))) as Hw. apply wp_exists in Hw as (u' & lv & e' & -> & Hokv & Hidv).
  assert (Hsame : forall id, has id la = has id (activeQuests j3) /\ has id lv = has id (availableQuests j3)).
  { intros id. unfold has. by rewrite Hida, Hidv. }
  split.
  - destruct H3 as [[Hn1 _] [Hn2 _] Hc Hp]. split; cbn; [by split; [rewrite Hidv|]|by split; [rewrite Hida|]|done|].
    intros id. destruct (Hsame id) as [-> ->]. apply Hp.
  - intros id. transitivity (phase id j3).
    { unfold phase. cbn. by destruct (Hsame id) as [-> ->]. }
    rewrite P3, P2. unfold resolved_phase. rewrite (old_repeat_ext (CheckRepeatDelay QuestDef now j)) by done.
    cbn [delayedRepeat j1 set_completed set_active]. unfold phase, phase_of.
    cbn [availableQuests activeQuests completedQuests j1 set_active set_completed].
    generalize (ok_places _ _ H1 id). unfold places_ok. cbn [availableQuests activeQuests completedQuests j1 set_active set_completed].
    by destruct (due now _ id && _), (has id (keep_valid (activeQuests j))), (has id (keep_valid (completedQuests j))),
      (has id (availableQuests j)).
Qed.
End Resolve.

(** ** The character file *)

(** The fields of a reference and of a delay are of their C types. *)
Record ref_fits (q : QuestReference) : Prop := mkRefFits {
  fits_id : in_signed 32 (QuestID q);
  fits_act : in_signed 16 (CurAct q);
  fits_counter : length (ObjCounter q) = MAXOBJECTIVES /\ Forall (in_signed 16) (ObjCounter q);
  fits_complete : length (ObjComplete q) = MAXOBJECTIVES /\ Forall (in_signed 8) (ObjComplete q) }.

(** A start time of 0 is read as the present. *)
Definition delay_fits (d : QuestRepeatDelay) : Prop :=
  in_signed 32 (delay_QuestID d) /\ 0 < StartTimeMinutes d < 2 ^ 64 /\ 0 <= WaitTimeMinutes d < 2 ^ 64.

(** What the file keeps of a reference. *)
Definition saved_active (q : QuestReference) : QuestReference :=
  mkReference (QuestID q) 0 None (ObjCounter q) (ObjComplete q) 0 (CurAct q) 0.
Definition saved_completed (q : QuestReference) : QuestReference := new_reference (QuestID q) None 0.

Definition empty_journal : Journal := mkJournal [] [] [] [] [].

Definition saved (j : Journal) : Journal :=
  mkJournal [] (map saved_completed (completedQuests j)) (map saved_active (activeQuests j)) [] (delayedRepeat j).

Lemma split_numbers l : l <> [] -> Split (Text.Join (map sprintf_d l) ",") "," = map sprintf_d l.
Proof.
  intros Hl. apply (split_join_lemma (chr 44)); [by destruct l|].
  induction l as [|x l IH]; [done|]. cbn [map forallb]. rewrite sprintf_d_lacks by done.
  destruct l; [done|]. by apply IH.
Qed.

Lemma active_line_join q c0 c1 c2 c3 n0 n1 n2 n3 :
  ObjComplete q = [c0; c1; c2; c3] -> ObjCounter q = [n0; n1; n2; n3] ->
  active_line q = Text.Join (map sprintf_d [QuestID q; CurAct q; c0; n0; c1; n1; c2; n2; c3; n3]) ",".
Proof.
  intros Hc Hn. unfold active_line. rewrite Hc, Hn. cbn [objectives seq MAXOBJECTIVES foldr map Text.Join].
  by rewrite string_app_nil.
Qed.

Lemma four {A} (l : list A) : length l = MAXOBJECTIVES -> exists a b c d, l = [a; b; c; d].
Proof. destruct l as [|a [|b [|c [|d [|]]]]]; try done. by exists a, b, c, d. Qed.

Lemma in_signed_weaken w v z : 0 < w <= v -> in_signed w z -> in_signed v z.
Proof.
  unfold in_signed. intros Hw Hz. pose proof (Z.pow_le_mono_r 2 (w - 1) (v - 1)). lia.
Qed.

Lemma read_active_written q j : ref_fits q ->
  read_active (active_line q) j = Some (set_active (AddItem (saved_active q) (activeQuests j)) j).
Proof.
  intros [Hid Hact [Hln Hn] [Hlc Hc]].
  destruct (four _ Hlc) as (c0 & c1 & c2 & c3 & Ec). destruct (four _ Hln) as (n0 & n1 & n2 & n3 & En).
  rewrite Ec in Hc. rewrite En in Hn.
  repeat match goal with H : Forall _ (_ :: _) |- _ => apply list.Forall_cons in H as [? H] end.
  unfold read_active. rewrite (active_line_join q _ _ _ _ _ _ _ _ Ec En), split_numbers by done.
  cbn [map read_objectives].
  rewrite !atoi_sprintf_d_lemma by (done || by eapply in_signed_weaken; [|eassumption]).
  cbn. rewrite !signed_id by (lia || done). unfold saved_active. by rewrite Ec, En.
Qed.

Lemma read_complete_written q j : ref_fits q ->
  read_complete (complete_line q) j = set_completed (AddItem (saved_completed q) (completedQuests j)) j.
Proof.
  intros [Hid _ _ _]. unfold read_complete, complete_line.
  change (sprintf_d (QuestID q)) with (Text.Join (map sprintf_d [QuestID q]) ","). rewrite split_numbers by done.
  cbn [map]. by rewrite atoi_sprintf_d_lemma.
Qed.

Lemma read_repeat_written now d j : delay_fits d ->
  read_repeat now (repeat_line d) j = set_delayed (delayedRepeat j ++ [d]) j.
Proof.
  intros (Hid & Hs & Hw). unfold read_repeat, repeat_line. rewrite !sprintf_lu_d by lia.
  change (sprintf_d (delay_QuestID d) +:+ "," +:+ sprintf_d (StartTimeMinutes d) +:+ "," +:+
          sprintf_d (WaitTimeMinutes d)) with
    (Text.Join (map sprintf_d [delay_QuestID d; StartTimeMinutes d; WaitTimeMinutes d]) ",").
  rewrite split_numbers by done. cbn [map]. rewrite atoi_sprintf_d_lemma by done.
  rewrite <- !sprintf_lu_d by lia. rewrite !strtoul_print by lia. unfold AddQuestRepeatDelay.
  destruct (Z.eqb_spec (StartTimeMinutes d) 0); [lia|]. by destruct d.
Qed.

Lemma read_values_fold {A} now key (line : A -> string) (f : A -> Journal -> Journal) (l : list A) (P : A -> Prop) j :
  (forall a j, P a -> read_value now key (line a) j = Some (f a j)) -> Forall P l ->
  read_values now key (map line l) j = Some (foldl (fun j a => f a j) j l).
Proof.
  intros Hf. intros Hl. revert j. induction Hl as [|a l Ha Hl IH]; intros j; [done|].
  cbn [map read_values foldl]. rewrite Hf by done. cbn [mbind option_bind]. apply IH.
Qed.

Lemma fold_active l j :
  foldl (fun j q => set_active (AddItem (saved_active q) (activeQuests j)) j) j l =
  set_active (activeQuests j ++ map saved_active l) j.
Proof.
  revert j. induction l as [|q l IH]; intros j; [cbn; rewrite app_nil_r; by destruct j|].
  cbn [foldl]. rewrite IH. cbn. unfold AddItem. by rewrite <- app_assoc.
Qed.

Lemma fold_completed l j :
  foldl (fun j q => set_completed (AddItem (saved_completed q) (completedQuests j)) j) j l =
  set_completed (completedQuests j ++ map saved_completed l) j.
Proof.
  revert j. induction l as [|q l IH]; intros j; [cbn; rewrite app_nil_r; by destruct j|].
  cbn [foldl]. rewrite IH. cbn. unfold AddItem. by rewrite <- app_assoc.
Qed.

Lemma fold_delayed l j :
  foldl (fun j d => set_delayed (delayedRepeat j ++ [d]) j) j l = set_delayed (delayedRepeat j ++ l) j.
Proof.
  revert j. induction l as [|d l IH]; intros j; [cbn; rewrite app_nil_r; by destruct j|].
  cbn [foldl]. rewrite IH. cbn. by rewrite <- app_assoc.
Qed.

(** A section left out is a section without values. *)
Lemma read_written now key values rest j :
  read_quests now (filter (fun e : string * list string => e.2 <> []) ((key, values) :: rest)) j =
  (j' ← read_values now key values j;
   read_quests now (filter (fun e : string * list string => e.2 <> []) rest) j').
Proof.
  destruct values as [|v vs]; [by rewrite filter_cons_False by auto|].
  by rewrite filter_cons_True by done.
Qed.

Lemma file_roundtrip now j :
  Forall ref_fits (activeQuests j) -> Forall ref_fits (completedQuests j) -> Forall delay_fits (delayedRepeat j) ->
  read_quests now (write_quests j) empty_journal = Some (saved j).
Proof.
  intros Ha Hc Hd. unfold write_quests. rewrite !read_written.
  rewrite (read_values_fold now "active" active_line _ _ _ _ read_active_written Ha). cbn [mbind option_bind].
  rewrite read_written.
  rewrite (read_values_fold now "complete" complete_line
    (fun q j => set_completed (AddItem (saved_completed q) (completedQuests j)) j) _ ref_fits);
    [|by intros q j' Hq; cbn; rewrite read_complete_written|done]. cbn [mbind option_bind]. rewrite read_written.
  rewrite (read_values_fold now "repeat" repeat_line
    (fun d j => set_delayed (delayedRepeat j ++ [d]) j) _ delay_fits);
    [|by intros q j' Hq; cbn; rewrite read_repeat_written|done]. cbn [mbind option_bind read_quests].
  by rewrite fold_active, fold_completed, fold_delayed.
Qed.

(** ** A logout and a login *)

Section Relogin.
Context (QuestDef : gmap Z QuestDefinition).
Context (HD : defs_ok QuestDef).

Lemma keep_valid_ids (l : list QuestReference) : Forall (fun q => valid QuestDef q = true) l ->
  ids (keep_valid QuestDef l) = ids l.
Proof. intros Hl. rewrite keep_valid_all by done. apply ids_resolved. Qed.

Lemma ref_ok_valid q : ref_ok QuestDef q -> valid QuestDef q = true.
Proof.
  intros [_ (qd & Hqd & Hact) _ _]. unfold valid. rewrite Hqd. destruct (HD _ _ Hqd) as (_ & Hn & _).
  apply andb_true_iff. split; [apply Z.leb_le|apply Z.ltb_lt]; lia.
Qed.

Lemma saved_completed_valid q : ref_ok QuestDef q -> valid QuestDef (saved_completed q) = true.
Proof.
  intros [_ (qd & Hqd & Hact) _ _]. unfold valid. cbn. rewrite Hqd. destruct (HD _ _ Hqd) as (_ & Hn & Hl).
  apply Z.ltb_lt. lia.
Qed.

(** A delay of the quest is not over. *)
Definition waits (now : Z) (l : list QuestRepeatDelay) (id : Z) : bool :=
  existsb (fun d => negb (IsAvailable now d) && (delay_QuestID d =? id)) l.

(** A completed quest is offered again: a delay of it is over, or it should have one. *)
Definition given_back (now : Z) (l : list QuestRepeatDelay) (id : Z) : bool :=
  due now l id ||
  match QuestDef !! id with
  | Some qd => (0 <? RepeatMinuteDelay qd) && negb (waits now l id)
  | None => false
  end.

Section Character.
(** The character that logs in. *)
Context (lvl prof : Z) (guilds : Z -> Z -> bool) (acc : option (list Z)).

Definition relogin_phase (now : Z) (j : Journal) (id : Z) : Phase :=
  match phase id j with
  | Taken | TakenOffered => if offered_now QuestDef lvl prof guilds acc id && repeats QuestDef id then TakenOffered else Taken
  | Done => if given_back now (delayedRepeat j) id then Offered else Done
  | Offered | Absent =>
      if offered_now QuestDef lvl prof guilds acc id
         || (due now (delayedRepeat j) id && bool_decide (is_Some (QuestDef !! id))) then Offered else Absent
  end.

Lemma waiting_index now l id :
  (idx (find_idx (fun d => delay_QuestID d =? id) (filter (fun d => IsAvailable now d = false) l)) =? -1)
  = negb (waits now l id).
Proof.
  destruct (find_idx _ _) as [i|] eqn:Hi; cbn [idx from_option].
  - apply find_idx_lookup in Hi as (d & Hd & E). apply list_elem_of_lookup_2, list_elem_of_filter in Hd as [Hw Hd].
    destruct (Z.eqb_spec (Z.of_nat i) (-1)); [lia|]. symmetry. apply negb_false_iff, existsb_exists.
    exists d. split; [by apply list_elem_of_In|]. by rewrite Hw, E.
  - symmetry. apply negb_true_iff. destruct (waits now l id) eqn:Hw; [|done].
    apply existsb_exists in Hw as (d & Hd & [Hav E]%andb_true_iff). apply find_idx_None in Hi.
    rewrite list.Forall_forall in Hi. rewrite Hi in E; [done|]. apply list_elem_of_filter.
    split; [by apply negb_true_iff|by apply list_elem_of_In].
Qed.

(** What loading a character does with its quests: [OnFinishedLoading] builds the
    offers, then resolves the journal. *)
Definition finish_loading (now : Z) : Job Journal unit :=
  _ ← BuildAvailableQuests QuestDef lvl prof guilds acc; ResolveLoadedQuests QuestDef now.

Lemma saved_ids j :
  ids (activeQuests (saved j)) = ids (activeQuests j) /\ ids (completedQuests (saved j)) = ids (completedQuests j).
Proof. unfold ids. cbn. by rewrite !map_map. Qed.

Lemma keep_saved_ids j : journal_ok QuestDef j ->
  ids (keep_valid QuestDef (activeQuests (saved j))) = ids (activeQuests j) /\
  ids (keep_valid QuestDef (completedQuests (saved j))) = ids (completedQuests j).
Proof.
  intros [_ [_ Hac] [_ Hco] _]. destruct (saved_ids j) as [Ea Ec]. split.
  - rewrite keep_valid_ids; [done|]. apply Forall_map. eapply list.Forall_impl; [exact Hac|].
    intros q Hq. by apply ref_ok_valid in Hq.
  - rewrite keep_valid_ids; [done|]. apply Forall_map. eapply list.Forall_impl; [exact Hco|]. exact saved_completed_valid.
Qed.

Lemma saved_loaded j j' : journal_ok QuestDef j ->
  activeQuests j' = activeQuests (saved j) -> completedQuests j' = completedQuests (saved j) ->
  list_ok QuestDef (availableQuests j') ->
  (forall id, has id (availableQuests j') =
     offered_now QuestDef lvl prof guilds acc id && negb (has id (completedQuests (saved j))) &&
     (negb (has id (activeQuests (saved j))) || repeats QuestDef id)) ->
  loaded_journal QuestDef j'.
Proof.
  intros [_ [Hna Hac] [Hnc Hco] Hpl] Ea Ec Hok Hh. destruct (saved_ids j) as [Ia Ic]. split; [done| | |].
  - rewrite Ea. split; [|by rewrite Ia]. apply Forall_map. eapply list.Forall_impl; [exact Hac|]. intros q [_ _ H1 H2]. split; auto.
  - rewrite Ec. split; [|by rewrite Ic]. apply Forall_map. apply list.Forall_true. intros q. split; auto.
  - intros id. rewrite Hh, Ea, Ec. unfold has. rewrite Ia, Ic. fold (has id (activeQuests j)) (has id (completedQuests j)).
    generalize (Hpl id). unfold places_ok.
    by destruct (has id (activeQuests j)), (has id (completedQuests j)), (offered_now _ _ _ _ _ id), (repeats QuestDef id),
      (has id (availableQuests j)).
Qed.

Lemma relogin now j : journal_ok QuestDef j ->
  Forall ref_fits (activeQuests j) -> Forall ref_fits (completedQuests j) -> Forall delay_fits (delayedRepeat j) ->
  exists jl, read_quests now (write_quests j) empty_journal = Some jl /\
    wp (finish_loading now)
       (fun _ j' => journal_ok QuestDef j' /\ forall id, phase id j' = relogin_phase now j id) jl.
Proof.
  intros Hj Ha Hc Hd. exists (saved j). split; [by apply file_roundtrip|].
  apply wp_bind. eapply wp_mono; [|by apply build_wp]. intros [] j1 (Ea & Ec & Ed & Hok & Hh).
  eapply wp_mono; [|by apply resolve_loaded, (saved_loaded j)]. intros [] j2 [H1 H2]. split; [done|].
  intros id. rewrite H2. unfold resolved_phase, relogin_phase, phase, phase_of. rewrite Hh, Ea, Ec, Ed.
  destruct (saved_ids j) as [Ia Ic]. destruct (keep_saved_ids j Hj) as [Ka Kc]. unfold has. rewrite Ia, Ic, Ka, Kc.
  fold (has id (activeQuests j)) (has id (completedQuests j)) (has id (availableQuests j)).
  unfold given_back, old_repeat, GetRepeatDelayIndex, CheckRepeatDelay. cbn [delayedRepeat set_delayed saved]. rewrite Ed.
  rewrite waiting_index. cbn [delayedRepeat saved]. generalize (ok_places _ _ Hj id). unfold places_ok.
  assert (Hknown : has id (completedQuests j) = true -> is_Some (QuestDef !! id)).
  { intros Hin. apply bool_decide_eq_true, list_elem_of_fmap in Hin as (q & -> & Hq).
    pose proof (proj2 (ok_completed _ _ Hj)) as Hco.
    eapply list.Forall_forall in Hco; [|exact Hq]. apply ref_ok_known in Hco as [qd Hqd]. by exists qd. }
  destruct (has id (completedQuests j)), (has id (activeQuests j)), (has id (availableQuests j)); cbn; try done.
  1: { destruct (Hknown eq_refl) as [qd Hqd]. rewrite Hqd. rewrite bool_decide_true by done. by rewrite andb_true_r. }
  all: by destruct (offered_now _ _ _ _ _ id), (repeats QuestDef id).
Qed.
End Character.
End Relogin.
