(* ===== verification/QuestRun.v ===== *)
(** * Quests: theorems

    The journal is safe and follows the life cycle of its quests ([QuestLife]), also
    over a logout ([QuestFile]); an objective is complete after exactly the number of
    events it asks for; the rewards selected are those required and those chosen;
    what the handler that redeems a quest pays. Examples are two small quests. *)

From stdpp Require Import sorting.
From S2P Require Import Prelude ByteBuffer Messages Text Float StatTables Stats AbilityTime AbilityTimeFacts Quest QuestHandlers QuestSafety QuestLife QuestFile.

(** ** Counting *)

Section Counting.
Context (QuestDef : gmap Z QuestDefinition) (player : Z -> Z -> option bool).
Context (HD : defs_ok QuestDef).

(** The same event, [n] times. *)
Fixpoint times (n : nat) (f : Job QuestReference (list Z)) : Job QuestReference (list Z) :=
  match n with
  | O => mret []
  | S n => w1 ← times n f; w2 ← f; mret (w1 ++ w2)
  end.

Lemma wp_times n f (R : nat -> QuestReference -> Prop) q :
  R O q -> (forall k q', (k < n)%nat -> R k q' -> wp f (fun _ => R (S k)) q') -> wp (times n f) (fun _ => R n) q.
Proof.
  intros H0 Hstep. induction n as [|n IH]; [done|]. cbn [times]. apply wp_bind.
  eapply wp_mono; [|apply IH; intros k q' Hk; apply (Hstep k q'); lia]. intros w1 q1 H1. apply wp_bind.
  eapply wp_mono; [|apply (Hstep n q1); [lia|exact H1]]. intros w2 q2 H2. by apply wp_ret.
Qed.

(** An event [CheckQuestObjective] takes for objective [o] of the act of [q]. *)
Record counts (q : QuestReference) (qd : QuestDefinition) (a : QuestAct) (o : nat) (t c : Z) : Prop := mkCounts {
  c_def : QuestDef !! QuestID q = Some qd;
  c_act : act_at qd (CurAct q) = Some a;
  c_obj : find_objective a t c = Some o;
  c_plain : outcome (obj a o) <= -1 }.

(** What completes with the last event: the objective, and the act if nothing else
    of it is open. *)
Definition completes (qd : QuestDefinition) (a : QuestAct) (o : nat) (q : QuestReference) : QuestReference :=
  let q1 := set_complete o (set_counter o (data2 (obj a o)) q) in
  if (CheckCompletedAct q1 a =? 1) && (CurAct q1 <? actCount qd - 1) then AdvanceAct_state qd q1 else q1.

Lemma set_counter_twice o x y q : set_counter o x (set_counter o y q) = set_counter o x q.
Proof. unfold set_counter. cbn. by rewrite list_insert_insert_eq. Qed.

Lemma counter_lookup o n q : ref_ok QuestDef q -> (o < MAXOBJECTIVES)%nat -> ObjCounter (set_counter o n q) !!! o = n.
Proof.
  intros [_ _ Hc _] Ho. cbn. apply list_lookup_total_insert_eq. lia.
Qed.

Lemma counts_counted o n q qd a t c : counts q qd a o t c -> counts (set_counter o n q) qd a o t c.
Proof. by intros [? ? ? ?]. Qed.

(** One event. *)
Lemma event_wp q qd a o t c CID n :
  ref_ok QuestDef q -> counts q qd a o t c -> ObjComplete q !!! o = 0 ->
  wp (CheckQuestObjective QuestDef player CID t c n)
     (fun _ q' =>
        let count := signed 16 (ObjCounter q !!! o + 1) in
        if data2 (obj a o) <=? count then
          let q1 := set_complete o (set_counter o count q) in
          q' = (if (CheckCompletedAct q1 a =? 1) && (CurAct q1 <? actCount qd - 1)
                then AdvanceAct_state qd q1 else q1)
        else q' = set_counter o count q) q.
Proof.
  intros Hq [Hqd Ha Ho Hout] Hopen. pose proof Hq as [Hp (qd' & Hqd' & Hact) Hlc Hlf].
  rewrite Hqd in Hqd'. injection Hqd' as <-. destruct (HD _ _ Hqd) as (_ & Hn & _).
  pose proof (find_objective_bound _ _ _ _ Ho) as Hbound. unfold MAXOBJECTIVES in Hbound, Hlc, Hlf.
  unfold CheckQuestObjective. repeat wp_step. rewrite Hp. repeat wp_step. eapply wp_given; [done|].
  destruct (Z.ltb_spec (CurAct q) 0); [lia|].
  destruct (Z.leb_spec (Z.of_nat (length (actList qd))) (CurAct q)); [lia|]. cbn [orb].
  repeat wp_step. eapply wp_given; [by apply GetObjective_at; [lia|done]|]. rewrite Ho. cbn [idx from_option].
  destruct (Z.ltb_spec (Z.of_nat o) 0); [lia|].
  destruct (Z.leb_spec (Z.of_nat MAXOBJECTIVES) (Z.of_nat o)) as [Hm|_]; [unfold MAXOBJECTIVES in Hm; lia|].
  rewrite Nat2Z.id. cbv zeta. rewrite Hopen. cbn [Z.eqb]. repeat wp_step. eapply wp_given; [done|]. repeat wp_step.
  destruct (Z.ltb_spec (-1) (outcome (obj a o))); [lia|]. set (count := signed 16 _).
  destruct (data2 (obj a o) <=? count) eqn:Hd; repeat wp_step; cbn [ObjComplete set_complete set_counter].
  - rewrite list_lookup_total_insert_eq by lia. change (negb (1 =? 1)) with false. cbv iota. repeat wp_step.
    set (q1 := set_complete o (set_counter o count q)).
    destruct (CheckCompletedAct q1 a =? 1); cbn [andb]; [|by repeat wp_step].
    destruct (CurAct q1 <? actCount qd - 1); repeat wp_step; [|done].
    apply wp_AdvanceAct. intros w. by repeat wp_step.
  - rewrite Hopen. change (negb (0 =? 1)) with true. cbv iota. by repeat wp_step.
Qed.

Lemma events_before q qd a o t c CID n k :
  ref_ok QuestDef q -> counts q qd a o t c -> ObjComplete q !!! o = 0 ->
  ObjCounter q !!! o + Z.of_nat k < data2 (obj a o) < 2 ^ 15 -> 0 <= ObjCounter q !!! o ->
  wp (times k (CheckQuestObjective QuestDef player CID t c n))
     (fun _ q' => q' = set_counter o (ObjCounter q !!! o + Z.of_nat k) q) q.
Proof.
  intros Hq Hc Hopen Hk Hpos.
  pose proof (find_objective_bound _ _ _ _ (c_obj _ _ _ _ _ _ Hc)) as Hbound.
  apply (wp_times k _ (fun i q' => q' = set_counter o (ObjCounter q !!! o + Z.of_nat i) q)).
  - rewrite Z.add_0_r. unfold set_counter. destruct q as [i0 d0 p0 oc0 of0 cm0 ca0 ou0]. cbn in *. f_equal.
    rewrite list_insert_id; [done|]. rewrite list_lookup_lookup_total_lt; [done|].
    destruct Hq as [_ _ Hlc _]. cbn in Hlc. lia.
  - intros i q' Hi ->. eapply wp_mono; [|apply event_wp; [by apply works_set_counter|by apply counts_counted|done]].
    intros w q'. cbv zeta. rewrite (counter_lookup o) by done.
    rewrite signed_id by (lia || (unfold in_signed; lia)).
    destruct (Z.leb_spec (data2 (obj a o)) (ObjCounter q !!! o + Z.of_nat i + 1)); [lia|].
    intros ->. rewrite set_counter_twice. f_equal. lia.
Qed.

Lemma events_complete q qd a o t c CID n k :
  ref_ok QuestDef q -> counts q qd a o t c -> ObjComplete q !!! o = 0 ->
  0 <= ObjCounter q !!! o < data2 (obj a o) -> data2 (obj a o) < 2 ^ 15 ->
  Z.of_nat k = data2 (obj a o) - ObjCounter q !!! o ->
  wp (times k (CheckQuestObjective QuestDef player CID t c n)) (fun _ q' => q' = completes qd a o q) q.
Proof.
  intros Hq Hc Hopen Hr Hmax Hk.
  pose proof (find_objective_bound _ _ _ _ (c_obj _ _ _ _ _ _ Hc)) as Hbound.
  destruct k as [|k]; [lia|]. cbn [times]. apply wp_bind.
  eapply wp_mono; [|apply (events_before q qd a o t c CID n k); [done..|lia|lia]]. intros w1 q1 ->.
  apply wp_bind. eapply wp_mono; [|apply event_wp; [by apply works_set_counter|by apply counts_counted|done]].
  intros w2 q2. cbv zeta. rewrite (counter_lookup o) by done.
  rewrite signed_id by (lia || (unfold in_signed; lia)).
  replace (ObjCounter q !!! o + Z.of_nat k + 1) with (data2 (obj a o)) by lia.
  rewrite Z.leb_refl. rewrite set_counter_twice. intros ->. by apply wp_ret.
Qed.

(** An objective that asks for more than a [short] holds. *)
Lemma events_forever q qd a o t c CID n k :
  ref_ok QuestDef q -> counts q qd a o t c -> ObjComplete q !!! o = 0 -> 2 ^ 15 <= data2 (obj a o) ->
  wp (times k (CheckQuestObjective QuestDef player CID t c n))
     (fun _ q' => exists x, q' = set_counter o x q) q.
Proof.
  intros Hq Hc Hopen Hbig.
  pose proof (find_objective_bound _ _ _ _ (c_obj _ _ _ _ _ _ Hc)) as Hbound.
  apply (wp_times k _ (fun _ q' => exists x, q' = set_counter o x q)).
  - exists (ObjCounter q !!! o). unfold set_counter. destruct q as [i0 d0 p0 oc0 of0 cm0 ca0 ou0]. cbn in *. f_equal.
    rewrite list_insert_id; [done|]. rewrite list_lookup_lookup_total_lt; [done|].
    destruct Hq as [_ _ Hlc _]. cbn in Hlc. lia.
  - intros i q' _ [x ->]. eapply wp_mono; [|apply event_wp; [by apply works_set_counter|by apply counts_counted|done]].
    intros w q'. cbv zeta. pose proof (signed_range 16 (ObjCounter (set_counter o x q) !!! o + 1) ltac:(lia)) as Hrange.
    unfold in_signed in Hrange. destruct (Z.leb_spec (data2 (obj a o)) (signed 16 (ObjCounter (set_counter o x q) !!! o + 1))); [lia|].
    intros ->. eexists. by rewrite set_counter_twice.
Qed.
End Counting.

(** ** Selecting rewards *)

Section Rewards.
Context (o : QuestOutcome) (sel : list Z).

Definition reward (i : nat) : QuestItemReward := rewardItem o !!! i.

(** The reward exists, and is granted; it is granted by choice. *)
Definition offered (i : nat) : Prop := itemID (reward i) <> 0.
Definition granted (i : nat) : Prop := offered i /\ (required (reward i) = true \/ Z.of_nat i ∈ sel).
Definition picked (i : nat) : Prop := offered i /\ required (reward i) = false /\ Z.of_nat i ∈ sel.

#[export] Instance offered_dec i : Decision (offered i) := _.
#[export] Instance granted_dec i : Decision (granted i) := _.
#[export] Instance picked_dec i : Decision (picked i) := _.

Lemma index_of_elem v l : (0 <=? index_of v l) = bool_decide (v ∈ l).
Proof.
  unfold index_of. apply eq_true_iff_eq. rewrite bool_decide_eq_true, Z.leb_le, idx_nonneg, find_idx_is_Some.
  split.
  - by intros (x & Hx & ->%Z.eqb_eq).
  - intros Hv. exists v. split; [done|apply Z.eqb_refl].
Qed.

Lemma select_fold idxs s :
  foldl (select_reward sel o) s idxs =
  mkSelection (possibleRewards s + Z.of_nat (length (filter offered idxs)))
    (choiceCount s + Z.of_nat (length (filter picked idxs)))
    (outputRewardList s ++ map reward (filter granted idxs)).
Proof.
  revert s. induction idxs as [|i idxs IH]; intros s.
  - cbn. rewrite !Z.add_0_r, app_nil_r. by destruct s.
  - cbn [foldl]. rewrite IH, !filter_cons. unfold select_reward at 1 2 3.
    fold (reward i). rewrite index_of_elem. destruct (decide (offered i)) as [Ho|Ho]; unfold offered in Ho.
    + rewrite (proj2 (Z.eqb_neq _ _) Ho). cbn [possibleRewards choiceCount outputRewardList].
      destruct (required (reward i)) eqn:Hr, (decide (Z.of_nat i ∈ sel)) as [Hs|Hs].
      all: rewrite ?(bool_decide_eq_true_2 _ Hs), ?(bool_decide_eq_false_2 _ Hs); cbn [negb andb orb].
      all: first [rewrite (decide_True (P := granted i)) by (split; [done|by auto])
                 |rewrite (decide_False (P := granted i)) by (unfold granted; rewrite Hr; intros [_ [?|?]]; done)].
      all: first [rewrite (decide_True (P := picked i)) by (split; [done|by auto])
                 |rewrite (decide_False (P := picked i)) by (unfold picked; rewrite Hr; intros (_ & ? & ?); done)].
      all: cbn [length map]; rewrite ?Nat2Z.inj_succ, <- ?app_assoc; cbn [app]; f_equal; lia.
    + assert (E : itemID (reward i) = 0) by (destruct (Z.eq_dec (itemID (reward i)) 0); [done|by destruct Ho]).
      rewrite E, Z.eqb_refl.
      rewrite (decide_False (P := granted i)) by (by intros [H _]). by rewrite (decide_False (P := picked i)) by (by intros [H _]).
Qed.

Lemma filter_rewards qd idx : GetOutcome qd idx = Some o ->
  FilterSelectedRewards qd idx sel [] =
  (negb ((0 <? numRewards o) &&
         negb (Z.of_nat (length (filter picked (seq 0 MAXREWARDS))) =? numRewards o) &&
         (1 <? Z.of_nat (length (filter offered (seq 0 MAXREWARDS))))),
   map reward (filter granted (seq 0 MAXREWARDS))).
Proof. intros Ho. unfold FilterSelectedRewards. rewrite Ho, select_fold. done. Qed.
End Rewards.

(** ** Redeeming *)

Section Redeem.
Context {W : Type} `{QuestHost W}.
Context (QuestDef : gmap Z QuestDefinition) (player : Z -> Z -> option bool) (CreatureID queryID : Z).
Context (HD : defs_ok QuestDef).

(** The handler accepts to redeem the quest [q] for [items], leaving the world [w2]
    after the actions of the quest. *)
Record redeems (args : list string) (s : Session) (qd : QuestDefinition) (q : QuestReference)
    (items : list QuestItemReward) (w2 : W) : Prop := mkRedeems {
  rd_quest : argument args 0 = QuestID q;
  rd_def : QuestDef !! QuestID q = Some qd;
  rd_ender : exists e, quest_ender CreatureID (argument args 1) s = inr e /\
                       IsQuestRedeemable QuestDef (Some qd) (QuestID q) e (journal s) = true;
  rd_items : FilterSelectedRewards qd (Outcome q) (map (fun a => unsigned 64 (atoi a)) (drop 2 args)) [] = (true, items);
  rd_slots : Z.of_nat (length items) <= unsigned 64 (CountFreeSlots (world s));
  rd_condition : 0 <= fst (CompleteCondition (QuestID q) (journal s) (world s));
  rd_action : snd (CompleteAction (QuestID q) (journal s)
                     (snd (CompleteCondition (QuestID q) (journal s) (world s)))) = w2 }.

Lemma GetItem_middle l1 q l2 : NoDup (ids (l1 ++ q :: l2)) -> GetItem (QuestID q) (l1 ++ q :: l2) = Some (length l1).
Proof.
  intros Hnd. destruct (GetItem (QuestID q) (l1 ++ q :: l2)) as [r|] eqn:Hr.
  - apply GetItem_Some in Hr as (p & Hp & E). f_equal.
    apply (NoDup_lookup (ids (l1 ++ q :: l2)) r (length l1) (QuestID q)); [done| |].
    + change (ids ?l) with (QuestID <$> l). by rewrite list_lookup_fmap, Hp, <- E.
    + change (ids ?l) with (QuestID <$> l). by rewrite list_lookup_fmap, lookup_app_r, Nat.sub_diag by done.
  - apply GetItem_None in Hr. unfold ids in Hr. apply bool_decide_eq_false in Hr. destruct Hr. unfold ids.
    rewrite map_app. cbn. apply elem_of_app. right. apply list_elem_of_here.
Qed.

(** What is left of the journal. *)
Definition redeemed (now : Z) (qd : QuestDefinition) (q : QuestReference) (l : list QuestReference) (j : Journal) : Journal :=
  let j := set_active l j in
  if Repeat qd then j
  else
    let j := set_completed (completedQuests j ++ [q]) j in
    if 0 <? RepeatMinuteDelay qd then AddQuestRepeatDelay now (questID qd) 0 (RepeatMinuteDelay qd) j else j.

Lemma QuestComplete_middle now j l1 q l2 qd : journal_ok QuestDef j ->
  activeQuests j = l1 ++ q :: l2 -> QuestDef !! QuestID q = Some qd ->
  QuestComplete QuestDef now (QuestID q) j = Some (1, redeemed now qd q (l1 ++ l2) j, []).
Proof.
  intros Hj Hl Hqd. pose proof (ok_active _ _ Hj) as [Hnd Hok]. rewrite Hl in Hnd, Hok.
  unfold QuestComplete. rewrite Hl, (GetItem_middle l1 q l2 Hnd). unfold at_index.
  destruct (Z.ltb_spec (Z.of_nat (length l1)) 0); [lia|]. rewrite Nat2Z.id.
  assert (Hq : (l1 ++ q :: l2) !! length l1 = Some q) by (by rewrite lookup_app_r, Nat.sub_diag by done).
  rewrite Hq. apply list.Forall_app in Hok as [_ Hok]. apply list.Forall_cons in Hok as [Hokq _].
  rewrite (GetQuestPointer_ok QuestDef q qd) by done. cbn [mbind option_bind].
  rewrite list_insert_id by done. rewrite Hq. cbn [mbind option_bind]. unfold redeemed, Sort, AddItem.
  destruct (Repeat qd); [|destruct (0 <? RepeatMinuteDelay qd)]; unfold AddQuestRepeatDelay;
    cbn [activeQuests set_active set_completed set_delayed];
    by rewrite (RemoveIndex_delete _ _ q Hq), delete_middle.
Qed.

Lemma redeem_spec now args s l1 q l2 qd items w2 : journal_ok QuestDef (journal s) ->
  activeQuests (journal s) = l1 ++ q :: l2 -> redeems args s qd q items w2 ->
  QuestCompleteHandler QuestDef player CreatureID queryID now args s =
  match l2 with
  | [] => None
  | next :: _ =>
      let '(paid, w3) := ProcessQuestRewards (QuestID q) (Outcome next) items w2 in
      Some (complete_reply queryID (QuestID q) (argument args 1) paid,
            mkSession (redeemed now qd q (l1 ++ l2) (journal s)) w3,
            complete_calls player CreatureID (QuestID q))
  end.
Proof.
  intros Hj Hl [Hquest Hqd (e & Hender & Hred) Hitems Hslots Hcond Hact]. unfold QuestCompleteHandler.
  rewrite Hquest, Hender, Hqd. destruct (HD _ _ Hqd) as [Hid _]. rewrite Hid.
  pose proof (ok_active _ _ Hj) as [Hnd _]. rewrite Hl in Hnd |- *.
  rewrite (GetItem_middle l1 q l2 Hnd), Hred. cbn [negb].
  rewrite lookup_app_r, Nat.sub_diag by done. cbn [lookup list_lookup mbind option_bind].
  rewrite Hitems. cbn [negb]. rewrite (proj2 (Z.ltb_ge _ _)) by lia.
  destruct (CompleteCondition (QuestID q) (journal s) (world s)) as [c w1]. cbn [fst snd] in *.
  rewrite (proj2 (Z.ltb_ge _ _)) by lia.
  destruct (CompleteAction (QuestID q) (journal s) w1) as [x w2']. cbn [snd] in Hact. subst w2'.
  rewrite (QuestComplete_middle now (journal s) l1 q l2 qd) by done. cbn [mbind option_bind]. change (1 =? -1) with false.
  cbv iota. assert (E : activeQuests (redeemed now qd q (l1 ++ l2) (journal s)) = l1 ++ l2).
  { unfold redeemed. by repeat case_match. }
  rewrite E. rewrite lookup_app_r, Nat.sub_diag by done. by destruct l2 as [|next l2].
Qed.
End Redeem.

(** ** Examples *)

Definition example_objective (objType : Z) (targets : list Z) (needed talk : Z) : QuestObjective :=
  mkObjective objType false targets needed 0 EmptyString EmptyString 0 talk 0 EmptyString EmptyString (-1).

Definition example_act (o : QuestObjective) : QuestAct :=
  mkAct (o :: replicate 3 QuestObjective_Clear) EmptyString.

Definition example_outcome (exp : Z) : QuestOutcome :=
  mkOutcome "Well done." exp 0 (mkReward 77 1 true :: replicate 3 QuestItemReward_Clear) 0 0.

Definition example_quest (id needed : Z) (repeat : bool) : QuestDefinition :=
  mkDefinition 0 id "Wolves" "Hunt." 1 1 0 false EmptyString EmptyString 1 0 0 40 50
    [example_act (example_objective OBJECTIVE_TYPE_KILL [100] needed 0);
     example_act (example_objective OBJECTIVE_TYPE_TALK [] 0 50)] 2 repeat 0 false 0 0 false
    [example_outcome 10; example_outcome 90] 2.

(** A quest, a bounty that may be repeated, and one that asks for too much. *)
Definition example_defs : gmap Z QuestDefinition :=
  <[7 := example_quest 7 3 false]> (<[8 := example_quest 8 1 true]>
    {[9 := example_quest 9 40000 false]}).

Lemma example_defs_ok : defs_ok example_defs.
Proof.
  intros id qd Hqd. unfold example_defs in Hqd.
  rewrite lookup_insert_Some, lookup_insert_Some, lookup_singleton_Some in Hqd.
  destruct Hqd as [[<- <-]|[_ [[<- <-]|[_ [<- <-]]]]]; by vm_compute.
Qed.

Definition no_player (CID quest : Z) : option bool := None.

Definition example_ref (id act outcome : Z) : QuestReference :=
  mkReference id 40 (Some id) no_objectives no_objectives 0 act outcome.

Lemma example_ref_ok id act out : id ∈ [7; 8; 9] -> 0 <= act < 2 -> ref_ok example_defs (example_ref id act out).
Proof.
  intros Hid Hact. split; [done| |done..].
  repeat (apply elem_of_cons in Hid as [->|Hid]; [eexists; split; [reflexivity|cbn; lia]|]).
  by apply elem_of_nil in Hid.
Qed.

Definition example_journal : Journal :=
  mkJournal [example_ref 8 0 0] [] [example_ref 7 1 0; example_ref 8 0 1] [] [].

Lemma example_journal_ok : journal_ok example_defs example_journal.
Proof.
  assert (Hnd : forall l : list Z, bool_decide (NoDup l) = true -> NoDup l) by (by intros l ?%bool_decide_eq_true).
  split; cbn.
  - split; [by apply Hnd|]. repeat constructor; apply example_ref_ok; [set_solver|lia].
  - split; [by apply Hnd|]. repeat constructor; apply example_ref_ok; [set_solver|lia|set_solver|lia].
  - split; constructor.
  - intros id. destruct (decide (id = 8)) as [->|H8]; [done|]. unfold places_ok, has, ids. cbn.
    rewrite (bool_decide_eq_false_2 (id ∈ [8])) by (by intros ?%list_elem_of_singleton). by rewrite (bool_decide_eq_false_2 (id ∈ [])) by apply not_elem_of_nil.
Qed.

(** ** Theorems *)

(** C18. However a player takes, advances, leaves, clears and finishes quests, in any
    order and with any arguments, and however often the list of available quests is
    rebuilt, no operation of the journal reaches undefined behaviour (no act outside
    its definition is read, no pointer to a missing definition followed), and the
    journal stays well formed: no quest is listed twice in a list, a completed quest
    is neither offered nor active, a quest is offered and active at once only if it
    can be repeated, every reference is resolved and within the acts of its
    definition. *)
Theorem journal_safe QuestDef player os j : defs_ok QuestDef -> journal_ok QuestDef j ->
  exists w j' calls, performs QuestDef player os j = Some (w, j', calls) /\ journal_ok QuestDef j'.
Proof.
  intros HD Hj. pose proof (performs_follow QuestDef player HD os j Hj) as Hw.
  apply wp_exists in Hw as (w & j' & calls & E & Hj' & _). by exists w, j', calls.
Qed.

Lemma journal_safe_witness :
  exists w j' calls, performs example_defs no_player
    [Talk 50 900 1; Finish 5 7; Leave 1 8; Join 8 2; Objective 1 OBJECTIVE_TYPE_KILL 100 901] example_journal
    = Some (w, j', calls) /\ journal_ok example_defs j'.
Proof. exact (journal_safe _ _ _ _ example_defs_ok example_journal_ok). Defined.

(** C17. The journal implements the life cycle of a quest: the phase of every quest
    (absent, offered, taken, taken while offered again, done) after a sequence of
    operations is that of an automaton on its own phase. Joining takes a quest only
    if it is offered; finishing makes it done, or ends a repeatable one; leaving and
    clearing offer it again; progress changes no phase; and no operation on one
    quest changes the phase of another. *)
Theorem phases_follow QuestDef player os j : defs_ok QuestDef -> journal_ok QuestDef j ->
  exists w j' calls, performs QuestDef player os j = Some (w, j', calls) /\
    forall id, phase id j' = foldl (fun p o => phase_step QuestDef o id p) (phase id j) os.
Proof.
  intros HD Hj. pose proof (performs_follow QuestDef player HD os j Hj) as Hw.
  apply wp_exists in Hw as (w & j' & calls & E & _ & Hph). by exists w, j', calls.
Qed.

Lemma phases_follow_witness :
  exists w j' calls, performs example_defs no_player [Talk 50 900 1; Finish 5 7; Leave 1 8; Join 8 2] example_journal
    = Some (w, j', calls) /\
    forall id, phase id j' = foldl (fun p o => phase_step example_defs o id p) (phase id example_journal)
                               [Talk 50 900 1; Finish 5 7; Leave 1 8; Join 8 2].
Proof. exact (phases_follow _ _ _ _ example_defs_ok example_journal_ok). Defined.



(** C20. An objective is complete after exactly the number of events it asks for: of
    an open objective at count [n] that asks for [data2], fewer than [data2 - n]
    events only raise its counter, one by one, and that many complete it, and with
    it the act, if no other objective is open and the act is not the last: the next
    act begins with nothing done. *)
Theorem objective_counts QuestDef player q qd a o t c CID n k :
  defs_ok QuestDef -> ref_ok QuestDef q -> counts QuestDef q qd a o t c -> ObjComplete q !!! o = 0 ->
  0 <= ObjCounter q !!! o < data2 (obj a o) -> data2 (obj a o) < 2 ^ 15 ->
  Z.of_nat k <= data2 (obj a o) - ObjCounter q !!! o ->
  exists w calls, times k (CheckQuestObjective QuestDef player CID t c n) q =
    Some (w, (if Z.of_nat k <? data2 (obj a o) - ObjCounter q !!! o
              then set_counter o (ObjCounter q !!! o + Z.of_nat k) q else completes qd a o q), calls).
Proof.
  intros HD Hq Hc Hopen Hr Hmax Hk. destruct (Z.ltb_spec (Z.of_nat k) (data2 (obj a o) - ObjCounter q !!! o)).
  - pose proof (events_before QuestDef player HD q qd a o t c CID n k Hq Hc Hopen ltac:(lia) ltac:(lia)) as Hw.
    apply wp_exists in Hw as (w & q' & calls & E & ->). by exists w, calls.
  - pose proof (events_complete QuestDef player HD q qd a o t c CID n k Hq Hc Hopen Hr Hmax ltac:(lia)) as Hw.
    apply wp_exists in Hw as (w & q' & calls & E & ->). by exists w, calls.
Qed.

Lemma objective_counts_witness :
  exists w calls, times 3 (CheckQuestObjective example_defs no_player 1 OBJECTIVE_TYPE_KILL 100 901) (example_ref 7 0 0) =
    Some (w, example_ref 7 1 0, calls).
Proof.
  refine (objective_counts example_defs no_player (example_ref 7 0 0) (example_quest 7 3 false)
            (example_act (example_objective OBJECTIVE_TYPE_KILL [100] 3 0)) 0 OBJECTIVE_TYPE_KILL 100 1 901 3
            example_defs_ok (example_ref_ok 7 0 0 ltac:(set_solver) ltac:(lia)) _ _ _ _ _); first [done|by split].
Defined.

(** The counter of an objective is a [short]: an objective that asks for more than
    32767 events is never completed, however many events there are; the counter
    wraps round instead. *)
Theorem large_objective_never_completes QuestDef player q qd a o t c CID n k :
  defs_ok QuestDef -> ref_ok QuestDef q -> counts QuestDef q qd a o t c -> ObjComplete q !!! o = 0 ->
  2 ^ 15 <= data2 (obj a o) ->
  exists w q' calls, times k (CheckQuestObjective QuestDef player CID t c n) q = Some (w, q', calls) /\
    ObjComplete q' !!! o = 0 /\ CurAct q' = CurAct q.
Proof.
  intros HD Hq Hc Hopen Hbig.
  pose proof (events_forever QuestDef player HD q qd a o t c CID n k Hq Hc Hopen Hbig) as Hw.
  apply wp_exists in Hw as (w & q' & calls & E & x & ->). by exists w, (set_counter o x q), calls.
Qed.

Lemma large_objective_never_completes_witness :
  exists w q' calls, times (Z.to_nat 40001) (CheckQuestObjective example_defs no_player 1 OBJECTIVE_TYPE_KILL 100 901)
    (example_ref 9 0 0) = Some (w, q', calls) /\ ObjComplete q' !!! 0%nat = 0 /\ CurAct q' = CurAct (example_ref 9 0 0).
Proof.
  refine (large_objective_never_completes example_defs no_player (example_ref 9 0 0) (example_quest 9 40000 false)
            (example_act (example_objective OBJECTIVE_TYPE_KILL [100] 40000 0)) 0 OBJECTIVE_TYPE_KILL 100 1 901 (Z.to_nat 40001)
            example_defs_ok (example_ref_ok 9 0 0 ltac:(set_solver) ltac:(lia)) _ _ _); first [done|by split].
Defined.

(** Redeeming a quest grants, of the rewards that exist, in their order, the
    required ones and the ones the player selected; the selection is refused exactly
    if the number of optional rewards selected is not the number asked for, when a
    number is asked for and there is more than one reward to have. An outcome the
    definition does not have is refused. *)
Theorem selected_rewards qd idx sel :
  FilterSelectedRewards qd idx sel [] =
  match GetOutcome qd idx with
  | None => (false, [])
  | Some o =>
      (negb ((0 <? numRewards o) &&
             negb (Z.of_nat (length (filter (picked o sel) (seq 0 MAXREWARDS))) =? numRewards o) &&
             (1 <? Z.of_nat (length (filter (offered o) (seq 0 MAXREWARDS))))),
       map (reward o) (filter (granted o sel) (seq 0 MAXREWARDS)))
  end.
Proof.
  destruct (GetOutcome qd idx) as [o|] eqn:Ho; [by apply filter_rewards|].
  unfold FilterSelectedRewards. by rewrite Ho.
Qed.

#[export] Instance example_host : QuestHost (list (Z * Z)) := {
  ResolveCreatureInstance w CID := Some (50, 10);
  AcceptCondition q j w := (0, w);
  AcceptAction q j w := (0, w);
  CompleteCondition q j w := (0, w);
  CompleteAction q j w := (0, w);
  HasAccountCompletedQuest w q := false;
  PushAccountQuest q w := w;
  CountFreeSlots w := 10;
  ProcessQuestRewards q outcome items w := (1, w ++ [(q, outcome)]);
  AddActiveScript q w := w;
  SendBytes l w := w }.

(** What the handler pays when a quest is redeemed is the outcome of another
    quest: it reads the outcome through a pointer into the list of active quests
    after the quest has been removed from it, so the experience, heroism and valour
    are those of the outcome index of the next active quest. For the last active
    quest the pointer is past the end of the list, and the read is undefined. *)
Theorem redeem_pays_next {W} `{QuestHost W} QuestDef player CreatureID queryID now args s l1 q l2 qd items w2 :
  defs_ok QuestDef -> journal_ok QuestDef (journal s) -> activeQuests (journal s) = l1 ++ q :: l2 ->
  redeems QuestDef CreatureID args s qd q items w2 ->
  QuestCompleteHandler QuestDef player CreatureID queryID now args s =
  match l2 with
  | [] => None
  | next :: _ =>
      let '(paid, w3) := ProcessQuestRewards (QuestID q) (Outcome next) items w2 in
      Some (complete_reply queryID (QuestID q) (argument args 1) paid,
            mkSession (redeemed now qd q (l1 ++ l2) (journal s)) w3,
            complete_calls player CreatureID (QuestID q))
  end.
Proof. intros. by apply redeem_spec. Qed.

Definition done_ref (id out : Z) : QuestReference :=
  mkReference id 40 (Some id) [1; 0; 0; 0] [1; 0; 0; 0] 0 1 out.

Definition redeem_journal : Journal := mkJournal [] [] [done_ref 7 0; example_ref 8 0 1] [] [].

Lemma redeem_journal_ok : journal_ok example_defs redeem_journal.
Proof.
  assert (Hnd : forall l : list Z, bool_decide (NoDup l) = true -> NoDup l) by (by intros l ?%bool_decide_eq_true).
  split; cbn.
  - split; constructor.
  - split; [by apply Hnd|]. repeat constructor; try (apply example_ref_ok; [set_solver|lia]).
    exists (example_quest 7 3 false). split; [done|cbn; lia].
  - split; constructor.
  - intros id. unfold places_ok, has, ids. cbn. by rewrite (bool_decide_eq_false_2 (id ∈ [])) by apply not_elem_of_nil.
Qed.

(** Quest 7 has outcome 0; the player is paid outcome 1, that of quest 8. *)
Lemma redeem_pays_next_witness :
  exists bytes j calls,
    QuestCompleteHandler example_defs no_player 1 3 5 ["7"; "900"]%string (mkSession redeem_journal [])
    = Some (bytes, mkSession j [(7, 1)], calls).
Proof.
  rewrite (redeem_pays_next example_defs no_player 1 3 5 ["7"; "900"]%string (mkSession redeem_journal [])
             [] (done_ref 7 0) [example_ref 8 0 1] (example_quest 7 3 false) [mkReward 77 1 true] []
             example_defs_ok redeem_journal_ok eq_refl).
  - do 3 eexists. reflexivity.
  - split; try done. exists 50. split; by vm_compute.
Defined.

(** Talking to the creature of a talk objective advances an act that is not the last
    whatever else of the act is open. *)
Theorem talk_skips_objectives QuestDef player cdef CInst PCID q qd a o :
  defs_ok QuestDef -> ref_ok QuestDef q -> QuestDef !! QuestID q = Some qd -> act_at qd (CurAct q) = Some a ->
  find_idx (fun b => (type (obj a b) =? OBJECTIVE_TYPE_TALK) && (myCreatureDefID (obj a b) =? cdef)) objectives = Some o ->
  outcome (obj a o) = -1 -> CurAct q < actCount qd - 1 ->
  wp (talk_one QuestDef player cdef CInst PCID)
     (fun _ q' => CurAct q' = CurAct q + 1 /\ ObjComplete q' = no_objectives) q.
Proof.
  intros HD Hq Hqd Ha Ho Hout Hlast. unfold talk_one. repeat wp_step.
  apply (wp_GetQuestPointer _ q qd); [done..|]. repeat wp_step. eapply wp_given; [done|]. rewrite Ho.
  repeat wp_step. cbv zeta. repeat wp_step. rewrite Hout. change (-1 <? -1) with false. cbv iota.
  repeat wp_step. cbn [CurAct set_counter set_complete].
  rewrite (proj2 (Z.eqb_neq (CurAct q) _)) by lia. cbn [andb]. apply wp_AdvanceAct. intros w. repeat wp_step.
  destruct Hq as [_ (qd' & Hqd' & Hact) _ _]. rewrite Hqd in Hqd'. injection Hqd' as <-.
  destruct (HD _ _ Hqd) as (_ & _ & Hmax).
  unfold AdvanceAct_state. cbn [CurAct set_counter set_complete set_CurAct].
  rewrite signed_id by (lia || (unfold in_signed; lia)). rewrite (proj2 (Z.leb_gt _ _)) by lia.
  unfold clamp_act. cbn [CurAct set_Complete0 ClearObjectiveData ResetObjectives set_CurAct set_counter set_complete].
  by rewrite (proj2 (Z.ltb_ge _ _)) by lia.
Qed.

(** Leaving a guild leaves the guild's quest unless it is the first of the active
    quests: the index 0 is taken for "not active". *)
Theorem leave_guild_keeps_first QuestDef player CID qd q l j :
  activeQuests j = q :: l -> QuestID q = questID qd ->
  leave_guild_quest QuestDef player CID (guildId qd) qd j = Some ([], j, []).
Proof.
  intros Hl Hid. unfold leave_guild_quest, mbind, Job_bind, get. unfold HasQuestID. rewrite Hl. cbn [find_idx].
  by rewrite Hid, !Z.eqb_refl.
Qed.
