(* ===== verification/Entities.v ===== *)
(** * Entities: how records are stored under sections and keys

    Models [src/SOURCE/Server/Entities.h] and [Entities.cpp] without the text files,
    and the string functions of [Util.cpp] they need. A stored record (a character, an
    auction, a clan) writes itself through an [AbstractEntityWriter] and reads itself
    through an [AbstractEntityReader]: here the classes [EntityWriter] and
    [EntityReader], with the promises their clients rely on, [WriterSpec] and
    [ReaderSpec]. [Cluster] implements them over the store of the servers. *)

From S2P Require Import Prelude ByteBuffer Text.

(** ** Functions of [Util] *)

Definition HasBeginning (fullString beginning : string) : bool := String.prefix beginning fullString.

(** [ReplaceAllTo]: [skip] characters of a match remain to be dropped. [from] is not
    empty: the loop would not end. *)
Fixpoint replace_from (from to str : string) (skip : nat) : string :=
  match str with
  | EmptyString => EmptyString
  | String c s =>
      match skip with
      | S k => replace_from from to s k
      | O => if String.prefix from str
             then to +:+ replace_from from to s (String.length from - 1)
             else String c (replace_from from to s 0)
      end
  end.

Definition ReplaceAllTo (str from to : string) : string := replace_from from to str 0.

(** [s.substr(n)], which throws past the end. *)
Definition substr_from (n : nat) (s : string) : option string :=
  if (n <=? String.length s)%nat then Some (String.substring n (String.length s - n) s) else None.

Definition has_char (d : Ascii.ascii) (s : string) : bool := negb (all_chars (fun c => negb (Ascii.eqb c d)) s).

(** What precedes the last [d], if there is one: [find_last_of] and [substr]. *)
Fixpoint before_last (d : Ascii.ascii) (s : string) : option string :=
  match s with
  | EmptyString => None
  | String c s' =>
      match before_last d s' with
      | Some p => Some (String c p)
      | None => if Ascii.eqb c d then Some EmptyString else None
      end
  end.

(** ** Section paths *)

Definition slash : Ascii.ascii := chr 47.

Definition push_section (path section : string) : string :=
  (if (0 <? String.length path)%nat then path +:+ "/" else path) +:+ section.

Definition replace_section (path section : string) : string :=
  if (String.length path =? 0)%nat then section
  else
    let l := Split path "/" in
    Text.Join (<[(length l - 1)%nat := section]> l) "/".

Definition pop_section (path : string) : string := default EmptyString (before_last slash path).

(** ** Actions

    An action on a state [S]; [None] is an exception or undefined behaviour. *)

Definition Act (S A : Type) : Type := S -> option (A * S).

#[export] Instance Act_ret S : MRet (Act S) := fun A a s => Some (a, s).
#[export] Instance Act_bind S : MBind (Act S) := fun A B f m s =>
  match m s with Some (a, s') => f a s' | None => None end.

Definition modify {S} (f : S -> S) : Act S unit := fun s => Some (tt, f s).
Definition gets {S A} (f : S -> A) : Act S A := fun s => Some (f s, s).

Lemma Act_bind_Some {S A B} (m : Act S A) (f : A -> Act S B) s a s' :
  m s = Some (a, s') -> (m ≫= f) s = f a s'.
Proof. intros E. cbv [mbind Act_bind]. by rewrite E. Qed.

Lemma Act_assoc {S A B C} (m : Act S A) (f : A -> Act S B) (g : B -> Act S C) s :
  ((m ≫= f) ≫= g) s = (m ≫= (fun a => f a ≫= g)) s.
Proof. cbv [mbind Act_bind]. by destruct (m s) as [[a s']|]. Qed.

(** ** Actions that succeed *)

Definition does {S A} (m : Act S A) (s : S) (Q : A -> S -> Prop) : Prop := exists a s', m s = Some (a, s') /\ Q a s'.

Section Does.
Context {S A B : Type}.
Implicit Types (m : Act S A) (k : A -> Act S B) (s : S).

Lemma does_ret (a : A) s (Q : A -> S -> Prop) : Q a s -> does (mret a) s Q.
Proof. by exists a, s. Qed.

Lemma does_bind m k s Q : does m s (fun a s' => does (k a) s' Q) -> does (m ≫= k) s Q.
Proof. intros (a & s' & E & b & s2 & E2 & HQ). exists b, s2. by rewrite (Act_bind_Some _ _ _ _ _ E). Qed.

Lemma does_eq m s a s' (Q : A -> S -> Prop) : m s = Some (a, s') -> Q a s' -> does m s Q.
Proof. by exists a, s'. Qed.

Lemma does_mono m s (Q Q' : A -> S -> Prop) : does m s Q -> (forall a s', Q a s' -> Q' a s') -> does m s Q'.
Proof. intros (a & s' & E & HQ) H. exists a, s'. auto. Qed.

End Does.

Lemma does_modify {S} (f : S -> S) s (Q : unit -> S -> Prop) : Q tt (f s) -> does (modify f) s Q.
Proof. by exists tt, (f s). Qed.
Lemma does_gets {S A} (f : S -> A) s (Q : A -> S -> Prop) : Q (f s) s -> does (gets f) s Q.
Proof. by exists (f s), s. Qed.

(** What holds whenever an action succeeds. *)
Definition may {S A} (m : Act S A) (s : S) (Q : A -> S -> Prop) : Prop := forall a s', m s = Some (a, s') -> Q a s'.

Lemma may_ret {S A} (a : A) (s : S) (Q : A -> S -> Prop) : Q a s -> may (mret a) s Q.
Proof. by intros HQ a' s' [= <- <-]. Qed.

Lemma may_bind {S A B} (m : Act S A) (k : A -> Act S B) s Q : may m s (fun a s' => may (k a) s' Q) -> may (m ≫= k) s Q.
Proof.
  intros Hm b s2. cbv [mbind Act_bind]. destruct (m s) as [[a s']|] eqn:E; [|done]. exact (Hm a s' E b s2).
Qed.

Lemma may_modify {S} (f : S -> S) s (Q : unit -> S -> Prop) : Q tt (f s) -> may (modify f) s Q.
Proof. by intros HQ [] s' [= <-]. Qed.

Lemma may_gets {S A} (f : S -> A) s (Q : A -> S -> Prop) : Q (f s) s -> may (gets f) s Q.
Proof. by intros HQ a s' [= <- <-]. Qed.

Lemma may_mono {S A} (m : Act S A) s (Q Q' : A -> S -> Prop) : may m s Q -> (forall a s', Q a s' -> Q' a s') -> may m s Q'.
Proof. intros Hm HQ a s' E. by apply HQ, Hm. Qed.

Lemma does_may {S A} (m : Act S A) s (Q : A -> S -> Prop) : does m s Q -> may m s Q.
Proof. intros (a & s' & E & HQ) a' s2. rewrite E. by intros [= <- <-]. Qed.

(** ** Writers *)

Record WriterBase := mkWriterBase { w_section : string; w_catalog : string; w_id : string }.

Definition WriterBase_new : WriterBase := mkWriterBase EmptyString EmptyString EmptyString.

(** The virtual functions of [AbstractEntityWriter]. *)
Class EntityWriter (S : Type) := {
  writer_base : S -> WriterBase;
  set_writer_base : WriterBase -> S -> S;
  put_value : string -> string -> S -> S;
  put_list : string -> list string -> S -> S }.

Section Writer.
Context {S : Type} `{EntityWriter S}.

Definition writer_Key (catalog id : string) (s : S) : S :=
  set_writer_base (mkWriterBase (w_section (writer_base s)) catalog id) s.
Definition set_section (section : string) (s : S) : S :=
  set_writer_base (mkWriterBase section (w_catalog (writer_base s)) (w_id (writer_base s))) s.
Definition writer_PushSection (section : string) (s : S) : S :=
  set_section (push_section (w_section (writer_base s)) section) s.
Definition writer_Section (section : string) (s : S) : S :=
  set_section (replace_section (w_section (writer_base s)) section) s.
Definition writer_PopSection (s : S) : S := set_section (pop_section (w_section (writer_base s))) s.

Definition put_ulong (key : string) (value : Z) (s : S) : S := put_value key (sprintf_lu value) s.
Definition put_int (key : string) (value : Z) (s : S) : S := put_value key (sprintf_d value) s.
Definition put_bool (key : string) (value : bool) (s : S) : S :=
  put_value key (sprintf_d (if value then 1 else 0)) s.

End Writer.

(** What [ListValue] stores: the items, with commas and backslashes escaped. *)
Definition escape_item (s : string) : string := ReplaceAllTo (ReplaceAllTo s "\" "\\") "," "\,".

Definition join_items (value : list string) : string :=
  fold_left (fun v it => (if (0 <? String.length v)%nat then v +:+ "," else v) +:+ escape_item it) value EmptyString.

(** ** Readers *)

Record ReaderBase := mkReaderBase { r_section : string; r_catalog : string; r_id : string; r_flat : bool }.

Definition ReaderBase_new : ReaderBase := mkReaderBase EmptyString EmptyString EmptyString false.

(** The virtual functions of [AbstractEntityReader]. *)
Class EntityReader (S : Type) := {
  reader_base : S -> ReaderBase;
  set_reader_base : ReaderBase -> S -> S;
  Value : string -> string -> Act S string;
  ListValue : string -> string -> Act S (list string);
  Sections : Act S (list string);
  Keys : Act S (list string);
  Exists : Act S bool }.

Section Reader.
Context {S : Type} `{EntityReader S}.

Definition reader_Key (catalog id : string) (flat : bool) (s : S) : S :=
  set_reader_base (mkReaderBase (r_section (reader_base s)) catalog id flat) s.
Definition at_section (section : string) (s : S) : S :=
  set_reader_base (mkReaderBase section (r_catalog (reader_base s)) (r_id (reader_base s)) (r_flat (reader_base s))) s.
Definition PushSection (section : string) (s : S) : S :=
  at_section (push_section (r_section (reader_base s)) section) s.
Definition reader_Section (section : string) (s : S) : S :=
  at_section (replace_section (r_section (reader_base s)) section) s.
Definition PopSection (s : S) : S := at_section (pop_section (r_section (reader_base s))) s.

Definition ValueInt (key : string) (defaultValue : Z) : Act S Z :=
  v ← Value key (sprintf_d defaultValue); mret (atoi v).
Definition ValueULong (key : string) (defaultValue : Z) : Act S Z :=
  v ← Value key (sprintf_lu defaultValue); mret (strtoul v).
Definition ValueBool (key : string) (defaultValue : bool) : Act S bool :=
  v ← Value key (if defaultValue then "true" else "false");
  mret (existsb (String.eqb v) ["1"; "true"; "TRUE"; "True"]).

End Reader.

(** [ListValue] on the text of a list that is not empty. *)
Definition split_items (sep v : string) : option (list string) :=
  l ← SplitEscaped v (chr 44);
  Some (map (fun a => ReplaceAllTo (ReplaceAllTo a ("\" +:+ sep) sep) "\\" "\") l).

Definition list_of_value (separator v : string) : option (list string) :=
  if (String.length v =? 0)%nat then Some []
  else split_items (if (String.length separator =? 0)%nat then "," else separator) v.

(** An entity of the server: how it reads and writes itself. *)
Class Entity (E : Type) := {
  WriteEntity : forall S `{EntityWriter S}, E -> S -> bool * S;
  EntityKeys : forall S `{EntityReader S}, E -> S -> bool * S;
  ReadEntity : forall S `{EntityReader S}, E -> Act S (bool * E) }.

(** ** What readers and writers promise

    [written] is the sequence of values, each with its section and key. *)

Class WriterSpec (S : Type) `{EntityWriter S} := {
  written : S -> list (string * string * string);
  base_put_value k v s : writer_base (put_value k v s) = writer_base s;
  base_put_list k l s : writer_base (put_list k l s) = writer_base s;
  base_set_writer_base b s : writer_base (set_writer_base b s) = b;
  written_put_value k v s : written (put_value k v s) = written s ++ [(w_section (writer_base s), k, v)];
  written_put_list k l s : written (put_list k l s) = written s ++ [(w_section (writer_base s), k, join_items l)];
  written_set_writer_base b s : written (set_writer_base b s) = written s }.

(** A reader [answers f] when it gives, for the entity at which it is placed, the value
    [f section key], or the default where [f] has none. *)
Class ReaderSpec (S : Type) `{EntityReader S} := {
  answers : (string -> string -> option string) -> S -> Prop;
  base_set_reader_base b s : reader_base (set_reader_base b s) = b;
  answers_section f sec s : answers f s -> answers f (at_section sec s);
  answers_Value f s k d : answers f s -> exists s',
    Value k d s = Some (default d (f (r_section (reader_base s)) k), s') /\
    answers f s' /\ reader_base s' = reader_base s;
  answers_ListValue f s k sep l : answers f s ->
    list_of_value sep (default EmptyString (f (r_section (reader_base s)) k)) = Some l -> exists s',
    ListValue k sep s = Some (l, s') /\ answers f s' /\ reader_base s' = reader_base s }.

(** ** Lists of values *)

Definition esc (c : Ascii.ascii) : string :=
  if Ascii.eqb c (chr 92) then "\\" else if Ascii.eqb c (chr 44) then "\," else String c EmptyString.

Fixpoint escaped (s : string) : string :=
  match s with EmptyString => EmptyString | String c s' => esc c +:+ escaped s' end.

Definition doubled (c : Ascii.ascii) : string :=
  if Ascii.eqb c (chr 92) then "\\" else String c EmptyString.

Fixpoint doubled_all (s : string) : string :=
  match s with EmptyString => EmptyString | String c s' => doubled c +:+ doubled_all s' end.

Lemma prefix_cons_false x a c s : Ascii.eqb x c = false -> String.prefix (String x a) (String c s) = false.
Proof. intros E. cbn. destruct (Ascii.ascii_dec x c) as [->|]; [by rewrite Ascii.eqb_refl in E|done]. Qed.

Lemma prefix_cons_true x s : String.prefix (String x EmptyString) (String x s) = true.
Proof. cbn. destruct (Ascii.ascii_dec x x); [|done]. by destruct s. Qed.

(** Replacing one character. *)
Lemma replace_char_cons x to c s : replace_from (String x EmptyString) to (String c s) 0 =
  (if Ascii.eqb c x then to else String c EmptyString) +:+ replace_from (String x EmptyString) to s 0.
Proof.
  cbn [replace_from]. destruct (Ascii.eqb_spec c x) as [->|Hne].
  - by rewrite prefix_cons_true.
  - rewrite prefix_cons_false; [done|]. destruct (Ascii.eqb_spec x c); congruence.
Qed.

Lemma replace_char_app x to a b : replace_from (String x EmptyString) to (a +:+ b) 0 =
  replace_from (String x EmptyString) to a 0 +:+ replace_from (String x EmptyString) to b 0.
Proof.
  induction a as [|c a IH]; [done|]. change (String c a +:+ b) with (String c (a +:+ b)).
  rewrite !replace_char_cons, IH. by rewrite string_app_assoc.
Qed.

Lemma escape_item_escaped s : escape_item s = escaped s.
Proof.
  unfold escape_item, ReplaceAllTo. induction s as [|c s IH]; [done|].
  rewrite replace_char_cons, replace_char_app, IH. cbn [escaped]. f_equal. unfold esc.
  change (Ascii.Ascii false false true true true false true false) with (chr 92).
  destruct (Ascii.eqb c (chr 92)) eqn:E1; [done|]. by rewrite replace_char_cons, string_app_nil.
Qed.

(** Undoing the escapes of the commas, then of the backslashes. *)
Lemma escaped_no_comma s : String.prefix "," (escaped s) = false.
Proof.
  destruct s as [|c s]; [done|]. cbn [escaped]. unfold esc.
  destruct (Ascii.eqb_spec c (chr 92)); [done|]. destruct (Ascii.eqb_spec c (chr 44)) as [|Hne]; [done|].
  apply (prefix_cons_false (chr 44)). destruct (Ascii.eqb_spec (chr 44) c); congruence.
Qed.

Lemma unescape_comma s : replace_from "\," "," (escaped s) 0 = doubled_all s.
Proof.
  induction s as [|c s IH]; [done|]. cbn [escaped doubled_all]. unfold esc, doubled.
  destruct (Ascii.eqb_spec c (chr 92)) as [->|H1].
  - change ("\\" +:+ escaped s) with (String (chr 92) (String (chr 92) (escaped s))).
    cbn [replace_from]. change (String.prefix "\," (String (chr 92) (String (chr 92) (escaped s)))) with false.
    change (String.prefix "\," (String (chr 92) (escaped s))) with (String.prefix "," (escaped s)).
    rewrite escaped_no_comma. cbn. by rewrite IH.
  - destruct (Ascii.eqb_spec c (chr 44)) as [->|H2].
    + change ("\," +:+ escaped s) with (String (chr 92) (String (chr 44) (escaped s))).
      cbn [replace_from]. change (String.prefix "\," (String (chr 92) (String (chr 44) (escaped s)))) with (String.prefix EmptyString (escaped s)).
      rewrite prefix_nil. cbn. by rewrite IH.
    + change (String c EmptyString +:+ escaped s) with (String c (escaped s)). cbn [replace_from].
      rewrite (prefix_cons_false (chr 92)); [by rewrite IH|]. destruct (Ascii.eqb_spec (chr 92) c); congruence.
Qed.

Lemma unescape_backslash s : replace_from "\\" "\" (doubled_all s) 0 = s.
Proof.
  induction s as [|c s IH]; [done|]. cbn [doubled_all]. unfold doubled.
  destruct (Ascii.eqb_spec c (chr 92)) as [->|H1].
  - change ("\\" +:+ doubled_all s) with (String (chr 92) (String (chr 92) (doubled_all s))).
    cbn [replace_from]. change (String.prefix "\\" (String (chr 92) (String (chr 92) (doubled_all s)))) with (String.prefix EmptyString (doubled_all s)).
    rewrite prefix_nil. cbn. by rewrite IH.
  - change (String c EmptyString +:+ doubled_all s) with (String c (doubled_all s)). cbn [replace_from].
    rewrite (prefix_cons_false (chr 92)); [by rewrite IH|]. destruct (Ascii.eqb_spec (chr 92) c); congruence.
Qed.

(** The separators are found between the escaped items. *)
Lemma split_escaped_item s rest cur :
  split_escaped_from (chr 44) false (escaped s +:+ rest) cur =
  split_escaped_from (chr 44) false rest (cur +:+ escaped s).
Proof.
  revert cur. induction s as [|c s IH]; intros cur; cbn [escaped].
  - by rewrite string_app_nil.
  - rewrite !string_app_assoc. unfold esc. destruct (Ascii.eqb_spec c (chr 92)) as [->|H1].
    + change ("\\" +:+ escaped s +:+ rest) with (String (chr 92) (String (chr 92) (escaped s +:+ rest))).
      cbn [split_escaped_from]. change (code (chr 92) =? 92) with true. cbn [andb negb].
      change (code (chr 92) =? 92) with true. cbn [andb negb]. rewrite IH. by rewrite !string_app_assoc.
    + destruct (Ascii.eqb_spec c (chr 44)) as [->|H2].
      * change ("\," +:+ escaped s +:+ rest) with (String (chr 92) (String (chr 44) (escaped s +:+ rest))).
        cbn [split_escaped_from]. change (code (chr 92) =? 92) with true. cbn [andb negb].
        change (code (chr 44) =? 92) with false. cbn [andb negb]. rewrite IH. by rewrite !string_app_assoc.
      * change (String c EmptyString +:+ escaped s +:+ rest) with (String c (escaped s +:+ rest)).
        cbn [split_escaped_from].
        assert ((code c =? 92) = false) as -> by (by apply Z.eqb_neq; intros E; apply H1; rewrite <- (ascii_byte c), E).
        assert ((code c =? code (chr 44)) = false) as -> by (apply Z.eqb_neq; intros E; apply H2; rewrite <- (ascii_byte c), E; done).
        cbn [andb negb]. rewrite IH. by rewrite !string_app_assoc.
Qed.

Fixpoint tail_items (l : list string) : string :=
  match l with [] => EmptyString | x :: l' => "," +:+ escaped x +:+ tail_items l' end.

(** An empty item at the front leaves no trace in the text. *)
Fixpoint drop_empty (l : list string) : list string :=
  match l with EmptyString :: l' => drop_empty l' | _ => l end.

Lemma escaped_nonempty c s : exists h t, escaped (String c s) = String h t.
Proof.
  cbn [escaped]. unfold esc. destruct (Ascii.eqb c (chr 92)); [by eexists _, _|].
  destruct (Ascii.eqb c (chr 44)); by eexists _, _.
Qed.

Lemma join_from l v : v <> EmptyString ->
  fold_left (fun v it => (if (0 <? String.length v)%nat then v +:+ "," else v) +:+ escape_item it) l v =
  v +:+ tail_items l.
Proof.
  revert v. induction l as [|x l IH]; intros v Hv; cbn [fold_left tail_items]; [by rewrite string_app_nil|].
  destruct v as [|h v]; [done|]. cbn [String.length Nat.ltb Nat.leb]. rewrite escape_item_escaped, IH by done.
  by rewrite !string_app_assoc.
Qed.

Lemma join_items_eq l : join_items l =
  match drop_empty l with [] => EmptyString | x :: l' => escaped x +:+ tail_items l' end.
Proof.
  unfold join_items. induction l as [|[|c x] l IH]; [done|exact IH|]. cbn [fold_left drop_empty].
  rewrite escape_item_escaped. cbn [String.length Nat.ltb Nat.leb].
  change (EmptyString +:+ escaped (String c x)) with (escaped (String c x)). apply join_from.
  by destruct (escaped_nonempty c x) as (h & t & ->).
Qed.

Lemma split_tail l cur :
  split_escaped_from (chr 44) false (tail_items l) cur = cur :: map escaped l.
Proof.
  revert cur. induction l as [|x l IH]; intros cur; [done|]. cbn [tail_items map].
  change ("," +:+ escaped x +:+ tail_items l) with (String (chr 44) (escaped x +:+ tail_items l)).
  cbn [split_escaped_from]. change (code (chr 44) =? 92) with false. rewrite Z.eqb_refl. cbn [andb negb].
  rewrite split_escaped_item, IH. done.
Qed.

Lemma unescape_items l :
  map (fun a => ReplaceAllTo (ReplaceAllTo a ("\" +:+ ",") ",") "\\" "\") (map escaped l) = l.
Proof.
  induction l as [|x l IH]; [done|]. cbn [map]. rewrite IH. f_equal. unfold ReplaceAllTo.
  change ("\" +:+ ",")%string with "\,"%string. by rewrite unescape_comma, unescape_backslash.
Qed.

Lemma list_roundtrip sep l : sep = EmptyString \/ sep = ","%string ->
  list_of_value sep (join_items l) = Some (drop_empty l).
Proof.
  intros Hsep. rewrite join_items_eq. unfold list_of_value.
  assert ((if (String.length sep =? 0)%nat then ","%string else sep) = ","%string) as -> by (by destruct Hsep as [->| ->]).
  assert (drop_empty l = [] \/ exists c x l', drop_empty l = String c x :: l') as [->|(c & x & l' & ->)].
  { induction l as [|[|c x] l IH]; [by left|exact IH|]. right. by exists c, x, l. }
  - done.
  - destruct (escaped_nonempty c x) as (h & t & E). rewrite E.
    change (String h t +:+ tail_items l') with (String h (t +:+ tail_items l')). cbn [String.length Nat.eqb].
    unfold split_items, SplitEscaped. change (String h (t +:+ tail_items l')) with (String h t +:+ tail_items l').
    rewrite <- E. cbn [mbind option_bind]. rewrite split_escaped_item, split_tail.
    change ((EmptyString +:+ escaped (String c x)) :: map escaped l') with (map escaped (String c x :: l')).
    by rewrite unescape_items.
Qed.

#[global] Arguments strtoul : simpl never.
#[global] Arguments sprintf_lu : simpl never.
#[global] Arguments sprintf_d : simpl never.

(** ** Reading through the interface *)

Section Reading.
Context {S : Type} `{ReaderSpec S}.

(** From a reader at [b], [m] gives [a] and leaves the reader at [b']. *)
Definition gives (f : string -> string -> option string) (b : ReaderBase) {A} (m : Act S A) (a : A) (b' : ReaderBase) : Prop :=
  forall s, answers f s -> reader_base s = b -> exists s', m s = Some (a, s') /\ answers f s' /\ reader_base s' = b'.

Context (f : string -> string -> option string).

Lemma gives_ret {A} (a : A) b : gives f b (mret a) a b.
Proof. intros s Hs Hb. by exists s. Qed.

Lemma gives_bind {A B} (m : Act S A) (k : A -> Act S B) a c b b1 b2 :
  gives f b m a b1 -> gives f b1 (k a) c b2 -> gives f b (m ≫= k) c b2.
Proof.
  intros Hm Hk s Hs Hb. destruct (Hm s Hs Hb) as (s1 & E1 & Hs1 & Hb1). destruct (Hk s1 Hs1 Hb1) as (s2 & E2 & ? & ?).
  exists s2. by rewrite (Act_bind_Some _ _ _ _ _ E1).
Qed.

Lemma gives_Value b k d : gives f b (Value k d) (default d (f (r_section b) k)) b.
Proof. intros s Hs <-. by apply answers_Value. Qed.

Lemma gives_ListValue b k sep l : list_of_value sep (default EmptyString (f (r_section b) k)) = Some l ->
  gives f b (ListValue k sep) l b.
Proof. intros Hl s Hs <-. by apply answers_ListValue. Qed.

Lemma gives_at b sec : gives f b (modify (at_section sec)) tt (mkReaderBase sec (r_catalog b) (r_id b) (r_flat b)).
Proof.
  intros s Hs <-. exists (at_section sec s). split; [done|]. split; [by apply answers_section|].
  apply base_set_reader_base.
Qed.

Lemma gives_ValueInt b k d n : f (r_section b) k = Some (sprintf_d n) -> in_i32 n -> gives f b (ValueInt k d) n b.
Proof.
  intros E Hn. eapply gives_bind; [apply gives_Value|]. rewrite E. cbn. rewrite atoi_sprintf_d_lemma by done. apply gives_ret.
Qed.

Lemma gives_ValueULong b k d n : f (r_section b) k = Some (sprintf_lu n) -> in_unsigned 64 n ->
  gives f b (ValueULong k d) n b.
Proof.
  intros E Hn. eapply gives_bind; [apply gives_Value|]. rewrite E. cbn. rewrite strtoul_print by done. apply gives_ret.
Qed.

Lemma gives_ValueBool b k d (x : bool) : f (r_section b) k = Some (sprintf_d (if x then 1 else 0)) ->
  gives f b (ValueBool k d) x b.
Proof.
  intros E. eapply gives_bind; [apply gives_Value|]. rewrite E. destruct x; apply gives_ret.
Qed.

Lemma gives_ValueInt_none b k d : f (r_section b) k = None -> in_i32 d -> gives f b (ValueInt k d) d b.
Proof.
  intros E Hn. eapply gives_bind; [apply gives_Value|]. rewrite E. cbn. rewrite atoi_sprintf_d_lemma by done. apply gives_ret.
Qed.

Lemma gives_ValueULong_none b k d : f (r_section b) k = None -> in_unsigned 64 d -> gives f b (ValueULong k d) d b.
Proof.
  intros E Hn. eapply gives_bind; [apply gives_Value|]. rewrite E. cbn. rewrite strtoul_print by done. apply gives_ret.
Qed.

Lemma gives_ValueBool_none b k (d : bool) : f (r_section b) k = None -> gives f b (ValueBool k d) d b.
Proof. intros E. eapply gives_bind; [apply gives_Value|]. rewrite E. destruct d; apply gives_ret. Qed.

End Reading.

(** ** What a writer leaves

    The last value written for a section and a key. *)

Fixpoint last_value (l : list (string * string * string)) (sec k : string) : option string :=
  match l with
  | [] => None
  | (s, k', v) :: l' =>
      match last_value l' sec k with
      | Some v' => Some v'
      | None => if String.eqb s sec && String.eqb k' k then Some v else None
      end
  end.

Lemma last_value_app l1 l2 sec k : last_value (l1 ++ l2) sec k =
  match last_value l2 sec k with Some v => Some v | None => last_value l1 sec k end.
Proof.
  induction l1 as [|[[s k'] v] l1 IH]; cbn; [by destruct (last_value l2 sec k)|]. rewrite IH.
  by destruct (last_value l2 sec k).
Qed.

Create Rewrite HintDb entity.
#[export] Hint Rewrite @base_put_value @base_put_list @base_set_writer_base @written_put_value @written_put_list
  @written_set_writer_base using typeclasses eauto : entity.

(** ** Section paths *)

Lemma before_last_append p s : all_chars (fun c => negb (Ascii.eqb c slash)) s = true ->
  before_last slash (p +:+ String slash s) = Some p.
Proof.
  intros Hs. assert (before_last slash s = None) as E.
  { induction s as [|c s IH]; [done|]. cbn [all_chars before_last] in Hs |- *. apply andb_true_iff in Hs as [Hc Hs].
    rewrite IH by done. by apply negb_true_iff in Hc as ->. }
  induction p as [|c p IH].
  - change (EmptyString +:+ String slash s) with (String slash s). cbn [before_last]. rewrite E. by rewrite Ascii.eqb_refl.
  - change (String c p +:+ String slash s) with (String c (p +:+ String slash s)). cbn [before_last]. by rewrite IH.
Qed.

Lemma pop_push path section : path <> EmptyString ->
  all_chars (fun c => negb (Ascii.eqb c slash)) section = true -> pop_section (push_section path section) = path.
Proof.
  intros Hp Hs. unfold pop_section, push_section. destruct path as [|c path]; [done|].
  cbn [String.length Nat.ltb Nat.leb]. rewrite string_app_assoc.
  change ("/" +:+ section) with (String slash section). by rewrite before_last_append.
Qed.

(** ** What an entity promises

    The catalog and the name it is stored under, and the values it writes. *)

Class EntityLaws (E : Type) `{Entity E} := {
  catalog_of : E -> string;
  id_of : E -> string;
  values : E -> list (string * string * string);
  WriteEntity_values S `{WriterSpec S} e s : written s = [] -> writer_base s = WriterBase_new ->
    exists s', WriteEntity S e s = (true, s') /\ written s' = values e /\
      w_catalog (writer_base s') = catalog_of e /\ w_id (writer_base s') = id_of e;
  EntityKeys_key S `{EntityReader S} e s : exists flat,
    EntityKeys S e s = (true, reader_Key (catalog_of e) (id_of e) flat s) }.

(** From the answers [f], a reader placed at the entity reads [e'] into [e]. *)
Definition reads {E} `{EntityLaws E} (f : string -> string -> option string) (e e' : E) : Prop :=
  forall S (re : EntityReader S) (rs : ReaderSpec S) flat, exists b',
    gives f (mkReaderBase EmptyString (catalog_of e) (id_of e) flat) (ReadEntity S e) (true, e') b'.
