(* ===== verification/Cluster.v ===== *)
(** * Cluster: the store the servers share

    Models the entity reader and writer of [src/SOURCE/Server/Cluster.h] and
    [Cluster.cpp] and the operations of [ClusterManager] on keys, lists, maps and
    entities. The store is a Redis server: the class [Redis] is a client of it, with the
    documented meaning of each command on a keyspace as its laws; [Keyspace] itself is
    an instance. Commands that are queued and committed together are run one after
    another; a connection does not break in between. *)

From S2P Require Import Prelude ByteBuffer Text Entities.

(** ** The Redis server *)

Inductive RedisValue :=
| RedisString (s : string)
| RedisList (l : list string)
| RedisHash (h : gmap string string).

Abbreviation Keyspace := (gmap string RedisValue).

#[warnings="-register-all"]
Inductive Reply := ReplyNull | ReplyError (e : string) | ReplyInteger (z : Z) | ReplyString (s : string)
| ReplyArray (l : list Reply).

Inductive Command :=
| LRANGE (key : string) | LREM (key : string) (count : Z) (value : string)
| RPUSH (key : string) (values : list string)
| HMSET (key : string) (fields : list (string * string)) | HSET (key field value : string)
| HGETALL (key : string) | HGET (key field : string)
| DEL (key : string) | EXISTS (key : string)
| GET (key : string) | SET (key value : string) | INCRBY (key : string) (n : Z) | DECRBY (key : string) (n : Z).

Definition WRONGTYPE : Reply :=
  ReplyError "WRONGTYPE Operation against a key holding the wrong kind of value".

(** The integer a stored string stands for. *)
Definition redis_integer (s : string) : option Z :=
  if String.eqb (sprintf_d (strtol s 10)) s then Some (strtol s 10) else None.

Definition hash_fields (h : gmap string string) (fields : list (string * string)) : gmap string string :=
  fold_left (fun h f => <[f.1 := f.2]> h) fields h.

(** [LREM]: the first [count] occurrences, all of them with a count of 0. *)
Fixpoint remove_first (count : nat) (value : string) (l : list string) : list string :=
  match count, l with
  | O, _ | _, [] => l
  | S n, x :: l' => if String.eqb x value then remove_first n value l' else x :: remove_first count value l'
  end.

Definition lrem (count : Z) (value : string) (l : list string) : list string :=
  remove_first (if count =? 0 then length l else Z.to_nat count) value l.

(** A list that becomes empty is removed. *)
Definition put_list_at (key : string) (l : list string) (ks : Keyspace) : Keyspace :=
  match l with [] => delete key ks | _ => <[key := RedisList l]> ks end.

Definition add_integer (key : string) (n : Z) (ks : Keyspace) : Reply * Keyspace :=
  let add z := if (- 2 ^ 63 <=? z + n) && (z + n <? 2 ^ 63)
               then (ReplyInteger (z + n), <[key := RedisString (sprintf_d (z + n))]> ks)
               else (ReplyError "ERR increment or decrement would overflow", ks) in
  match ks !! key with
  | None => add 0
  | Some (RedisString s) =>
      match redis_integer s with Some z => add z | None => (ReplyError "ERR value is not an integer or out of range", ks) end
  | Some _ => (WRONGTYPE, ks)
  end.

Definition pairs (l : list (string * string)) : Reply :=
  ReplyArray (flat_map (fun f => [ReplyString f.1; ReplyString f.2]) l).

(** What a command does and answers, [HGETALL] in one order of the fields. *)
Definition redis (c : Command) (ks : Keyspace) : Reply * Keyspace :=
  match c with
  | LRANGE k =>
      (match ks !! k with
       | None => ReplyArray []
       | Some (RedisList l) => ReplyArray (map ReplyString l)
       | Some _ => WRONGTYPE
       end, ks)
  | LREM k count v =>
      match ks !! k with
      | None => (ReplyInteger 0, ks)
      | Some (RedisList l) =>
          let l' := lrem count v l in (ReplyInteger (Z.of_nat (length l) - Z.of_nat (length l')), put_list_at k l' ks)
      | Some _ => (WRONGTYPE, ks)
      end
  | RPUSH k [] => (ReplyError "ERR wrong number of arguments for 'rpush' command", ks)
  | RPUSH k vs =>
      match ks !! k with
      | None => (ReplyInteger (Z.of_nat (length vs)), put_list_at k vs ks)
      | Some (RedisList l) => (ReplyInteger (Z.of_nat (length (l ++ vs))), put_list_at k (l ++ vs) ks)
      | Some _ => (WRONGTYPE, ks)
      end
  | HMSET k [] => (ReplyError "ERR wrong number of arguments for 'hmset' command", ks)
  | HMSET k fs =>
      match ks !! k with
      | None => (ReplyString "OK", <[k := RedisHash (hash_fields ∅ fs)]> ks)
      | Some (RedisHash h) => (ReplyString "OK", <[k := RedisHash (hash_fields h fs)]> ks)
      | Some _ => (WRONGTYPE, ks)
      end
  | HSET k f v =>
      match ks !! k with
      | None => (ReplyInteger 1, <[k := RedisHash {[f := v]}]> ks)
      | Some (RedisHash h) => (ReplyInteger (match h !! f with Some _ => 0 | None => 1 end), <[k := RedisHash (<[f := v]> h)]> ks)
      | Some _ => (WRONGTYPE, ks)
      end
  | HGETALL k =>
      (match ks !! k with
       | None => ReplyArray []
       | Some (RedisHash h) => pairs (map_to_list h)
       | Some _ => WRONGTYPE
       end, ks)
  | HGET k f =>
      (match ks !! k with
       | None => ReplyNull
       | Some (RedisHash h) => match h !! f with Some v => ReplyString v | None => ReplyNull end
       | Some _ => WRONGTYPE
       end, ks)
  | DEL k => (ReplyInteger (match ks !! k with Some _ => 1 | None => 0 end), delete k ks)
  | EXISTS k => (ReplyInteger (match ks !! k with Some _ => 1 | None => 0 end), ks)
  | GET k =>
      (match ks !! k with
       | None => ReplyNull
       | Some (RedisString s) => ReplyString s
       | Some _ => WRONGTYPE
       end, ks)
  | SET k v => (ReplyString "OK", <[k := RedisString v]> ks)
  | INCRBY k n => add_integer k n ks
  | DECRBY k n => add_integer k (- n) ks
  end.

(** The answers a server may give: the fields of a hash come in any order. *)
Definition replies (c : Command) (ks : Keyspace) (rep : Reply) : Prop :=
  match c with
  | HGETALL k =>
      match ks !! k with
      | Some (RedisHash h) => exists l, l ≡ₚ map_to_list h /\ rep = pairs l
      | _ => rep = (redis c ks).1
      end
  | _ => rep = (redis c ks).1
  end.

Class Redis (R : Type) := {
  is_connected : R -> bool;
  command : Command -> R -> Reply * R;
  contents : R -> Keyspace;
  command_contents c r : is_connected r = true -> contents (command c r).2 = (redis c (contents r)).2;
  command_connected c r : is_connected r = true -> is_connected (command c r).2 = true;
  command_replies c r : is_connected r = true -> replies c (contents r) (command c r).1 }.

#[export, refine] Instance Keyspace_redis : Redis Keyspace := {|
  is_connected _ := true; command := redis; contents ks := ks |}.
Proof.
  all: intros c ks _; try done. destruct c; cbn; try done.
  destruct (ks !! key) as [[]|] eqn:E; try done. by eexists.
Defined.

(** ** Replies *)

Section Client.
Context {R : Type} `{Redis R}.

(** Send a command and wait for its reply. *)
Definition send (c : Command) : Act R Reply := fun r => Some (command c r).

Definition throw {S A} : Act S A := fun _ => None.

Definition as_array {S} (rep : Reply) : Act S (list Reply) :=
  match rep with ReplyArray l => mret l | _ => throw end.
Definition is_string (rep : Reply) : bool :=
  match rep with ReplyString _ | ReplyError _ => true | _ => false end.
Definition as_string {S} (rep : Reply) : Act S string :=
  match rep with ReplyString s | ReplyError s => mret s | _ => throw end.
Definition as_integer {S} (rep : Reply) : Act S Z :=
  match rep with ReplyInteger z => mret z | _ => throw end.
Definition is_error (rep : Reply) : bool := match rep with ReplyError _ => true | _ => false end.
Definition is_null (rep : Reply) : bool := match rep with ReplyNull => true | _ => false end.

Fixpoint all_strings {S} (l : list Reply) : Act S (list string) :=
  match l with
  | [] => mret []
  | x :: l' => s ← as_string x; rest ← all_strings l'; mret (s :: rest)
  end.

Fixpoint string_pairs {S} (l : list Reply) : Act S (list (string * string)) :=
  match l with
  | [] => mret []
  | [_] => throw
  | n :: v :: l' => k ← as_string n; x ← as_string v; rest ← string_pairs l'; mret ((k, x) :: rest)
  end.

(** The elements that are strings. *)
Fixpoint the_strings (l : list Reply) : list string :=
  match l with
  | [] => []
  | ReplyString s :: l' | ReplyError s :: l' => s :: the_strings l'
  | _ :: l' => the_strings l'
  end.

(** ** Keys of an entity *)

Definition entity_key (catalog id : string) : string := cstr catalog +:+ ":" +:+ cstr id.
Definition subkeys_key (catalog id : string) : string := entity_key catalog id +:+ "^_SUBKEYS_".
Definition section_key (catalog id section : string) : string :=
  if (String.length section =? 0)%nat then entity_key catalog id +:+ ":DEFAULT"
  else entity_key catalog id +:+ ":" +:+ cstr section.

(** ** [ClusterEntityReader] *)

Record ClusterReader := mkClusterReader {
  cr_base : ReaderBase; mTestedExistence : bool; mExists : bool;
  mValues : gmap string (list (string * string)); mGotSections : bool; mSections : list string; cr_client : R }.

Definition ClusterReader_new (r : R) : ClusterReader := mkClusterReader ReaderBase_new false false ∅ false [] r.

(** An action of the client, inside the reader. *)
Definition on_client {A} (m : Act R A) : Act ClusterReader A := fun s =>
  match m (cr_client s) with
  | Some (a, r) => Some (a, mkClusterReader (cr_base s) (mTestedExistence s) (mExists s) (mValues s) (mGotSections s) (mSections s) r)
  | None => None
  end.

Definition set_cr_base (b : ReaderBase) (s : ClusterReader) : ClusterReader :=
  mkClusterReader b (mTestedExistence s) (mExists s) (mValues s) (mGotSections s) (mSections s) (cr_client s).
Definition set_exists (e : bool) (s : ClusterReader) : ClusterReader :=
  mkClusterReader (cr_base s) true e (mValues s) (mGotSections s) (mSections s) (cr_client s).
Definition set_values (sec : string) (l : list (string * string)) (s : ClusterReader) : ClusterReader :=
  mkClusterReader (cr_base s) (mTestedExistence s) (mExists s) (<[sec := l]> (mValues s)) (mGotSections s) (mSections s) (cr_client s).
Definition set_sections (l : list string) (s : ClusterReader) : ClusterReader :=
  mkClusterReader (cr_base s) (mTestedExistence s) (mExists s) (mValues s) true l (cr_client s).

Definition CreateSectionKey (b : ReaderBase) : string := section_key (r_catalog b) (r_id b) (r_section b).

Definition cluster_Exists : Act ClusterReader bool := fun s =>
  if negb (is_connected (cr_client s)) then Some (false, s)
  else if mTestedExistence s then Some (mExists s, s)
  else (rep ← on_client (send (EXISTS (CreateSectionKey (cr_base s))));
        _ ← modify (set_exists (match rep with ReplyInteger z => z =? 1 | _ => mExists s end));
        gets mExists) s.

(** [mValues[mSection]]: the fields of the section, read once. *)
Definition CheckLoaded : Act ClusterReader (list (string * string)) := fun s =>
  let sec := r_section (cr_base s) in
  match mValues s !! sec with
  | Some l => Some (l, s)
  | None => (rep ← on_client (send (HGETALL (CreateSectionKey (cr_base s))));
             arr ← as_array rep; l ← string_pairs arr;
             _ ← modify (set_values sec l); mret l) s
  end.

Definition cluster_Value (key defaultValue : string) : Act ClusterReader string :=
  l ← CheckLoaded;
  mret (match List.find (fun p => String.eqb p.1 key) l with Some p => p.2 | None => defaultValue end).

Definition cluster_ListValue (key separator : string) : Act ClusterReader (list string) :=
  v ← cluster_Value key EmptyString;
  match list_of_value separator v with Some l => mret l | None => throw end.

Definition cluster_Keys : Act ClusterReader (list string) := l ← CheckLoaded; mret (map fst l).

Fixpoint section_names {S} (n : nat) (l : list string) : Act S (list string) :=
  match l with
  | [] => mret []
  | k :: l' => match substr_from n k with
               | Some s => rest ← section_names n l'; mret (s :: rest)
               | None => throw
               end
  end.

(** The sections below [path], not those further down. *)
Definition direct_section (path a : string) : bool :=
  HasBeginning a path &&
  negb (has_char slash (default EmptyString
    (substr_from (if (String.length path =? 0)%nat || (String.length a =? String.length path)%nat
                  then 0 else S (String.length path)) a))).

Definition cluster_Sections : Act ClusterReader (list string) := fun s =>
  let b := cr_base s in
  let filtered := gets (fun s => List.filter (direct_section (r_section (cr_base s))) (mSections s)) in
  if mGotSections s then filtered s
  else (rep ← on_client (send (LRANGE (subkeys_key (r_catalog b) (r_id b))));
        arr ← as_array rep;
        names ← section_names (String.length (r_catalog b) + String.length (r_id b) + 2) (the_strings arr);
        _ ← modify (set_sections names);
        _ ← modify (fun s => if mTestedExistence s then s
                             else set_exists (negb (length (mSections s) =? 0)%nat) s);
        filtered) s.

#[export] Instance ClusterEntityReader : EntityReader ClusterReader := {|
  reader_base := cr_base; set_reader_base := set_cr_base; Value := cluster_Value;
  ListValue := cluster_ListValue; Sections := cluster_Sections; Keys := cluster_Keys;
  Exists := cluster_Exists |}.

End Client.

Arguments ClusterReader R : clear implicits.

(** ** [ClusterEntityWriter] *)

Record ClusterWriter := mkClusterWriter { cw_base : WriterBase; mStringValues : list (string * string * string) }.

Definition ClusterWriter_new : ClusterWriter := mkClusterWriter WriterBase_new [].

Definition push_value (key value : string) (w : ClusterWriter) : ClusterWriter :=
  mkClusterWriter (cw_base w) (mStringValues w ++ [(w_section (cw_base w), key, value)]).

#[export] Instance ClusterEntityWriter : EntityWriter ClusterWriter := {|
  writer_base := cw_base; set_writer_base b w := mkClusterWriter b (mStringValues w);
  put_value := push_value; put_list key value := push_value key (join_items value) |}.

#[export, refine] Instance ClusterWriterSpec : WriterSpec ClusterWriter := {| written := mStringValues |}.
Proof. all: done. Defined.

Section Manager.
Context {R : Type} `{Redis R}.

(** Store one section, and move its key to the end of the list of sections. *)
Definition write_section (listKey secKey : string) (a : list (string * string)) (currentKeys : gset string)
    : Act R (gset string) :=
  _ ← send (LREM listKey 0 secKey);
  _ ← send (RPUSH listKey [secKey]);
  _ ← send (HMSET secKey a);
  mret (currentKeys ∖ {[secKey]}).

Definition write_pending (catalog id sec : string) (a : list (string * string)) (currentKeys : gset string)
    : Act R (gset string) :=
  match a with
  | [] => mret currentKeys
  | _ => write_section (subkeys_key catalog id) (section_key catalog id sec) a currentKeys
  end.

(** [sec] and [a] are the section being collected and its values so far. *)
Fixpoint write_values (catalog id : string) (l : list (string * string * string)) (sec : string)
    (a : list (string * string)) (currentKeys : gset string) : Act R (gset string) :=
  match l with
  | [] => write_pending catalog id sec a currentKeys
  | (s, k, v) :: l' =>
      if String.eqb s sec then write_values catalog id l' sec (a ++ [(k, v)]) currentKeys
      else ck ← write_pending catalog id sec a currentKeys; write_values catalog id l' s [(k, v)] ck
  end.

Fixpoint delete_keys (l : list string) : Act R unit :=
  match l with [] => mret tt | k :: l' => _ ← send (DEL k); delete_keys l' end.

Definition ClusterEntityWriter_End (w : ClusterWriter) : Act R bool :=
  let catalog := w_catalog (cw_base w) in
  let id := w_id (cw_base w) in
  rep ← send (LRANGE (subkeys_key catalog id));
  arr ← as_array rep;
  ck ← write_values catalog id (mStringValues w) EmptyString [] (list_to_set (the_strings arr));
  _ ← delete_keys (elements ck);
  mret true.

(** ** [ClusterManager] *)

Definition ListAdd (key value : string) : Act R bool := _ ← send (RPUSH key [value]); mret true.
Definition ListSet (key : string) (value : list string) : Act R bool :=
  _ ← send (DEL key); _ ← send (RPUSH key value); mret true.
Definition ListRemove (key value : string) (sync : bool) : Act R bool :=
  rep ← send (LREM key 1 value);
  if sync then n ← as_integer rep; mret (0 <? n) else mret true.
Definition GetList (key : string) : Act R (list string) :=
  rep ← send (LRANGE key);
  if is_error rep then mret [] else arr ← as_array rep; all_strings arr.
Definition GetMapVal (key mapKey defaultValue : string) : Act R string :=
  rep ← send (HGET key mapKey); if is_string rep then as_string rep else mret defaultValue.
Definition SetMapVal (key mapKey mapVal : string) : Act R unit := _ ← send (HSET key mapKey mapVal); mret tt.
Definition GetMap (key : string) : Act R (gmap string string) :=
  rep ← send (HGETALL key);
  match rep with ReplyArray arr => l ← string_pairs arr; mret (hash_fields ∅ l) | _ => mret ∅ end.
Definition HasKey (key : string) : Act R bool :=
  rep ← send (EXISTS key); mret (match rep with ReplyInteger z => negb (z =? 0) | _ => false end).
Definition GetKey (key defaultValue : string) : Act R string :=
  rep ← send (GET key); if is_null rep then mret defaultValue else as_string rep.
Definition RemoveKey (key : string) (sync : bool) : Act R bool :=
  rep ← send (DEL key); mret (if sync then negb (is_error rep) else true).
Definition SetKey (key value : string) (sync : bool) : Act R bool :=
  rep ← send (SET key value);
  mret (if sync then match rep with ReplyInteger z => z =? 1 | _ => false end else false).
Definition NextValue (key : string) (incr : Z) : Act R Z :=
  if 0 <? incr then
    rep ← send (INCRBY key incr); if is_error rep then mret 0 else as_integer rep
  else if incr <? 0 then
    rep ← send (DECRBY key (i32 (incr * -1))); if is_error rep then mret 0 else as_integer rep
  else mret 0.

(** *** Entities *)

Context {E : Type} `{Entity E}.

Definition ClusterManager_WriteEntity (e : E) : Act R bool := fun r =>
  if negb (is_connected r) then Some (false, r)
  else let '(ok, w) := WriteEntity ClusterWriter e ClusterWriter_new in
       if (ok : bool) then ClusterEntityWriter_End w r else Some (false, r).

Definition ClusterManager_ReadEntity (e : E) : Act R (bool * E) := fun r =>
  let '(ok, cer) := EntityKeys (ClusterReader R) e (ClusterReader_new r) in
  if (ok : bool) then
    match ReadEntity (ClusterReader R) e cer with
    | Some (res, cer') => Some (res, cr_client cer')
    | None => None
    end
  else Some ((false, e), cr_client cer).

Fixpoint remove_sections (catalog id : string) (sections : list string) : Act R unit :=
  match sections with
  | [] => mret tt
  | a :: l => _ ← RemoveKey (entity_key catalog id +:+ ":" +:+ cstr a) true; remove_sections catalog id l
  end.

Definition ClusterManager_RemoveEntity (e : E) : Act R bool := fun r =>
  let '(ok, cer) := EntityKeys (ClusterReader R) e (ClusterReader_new r) in
  if (ok : bool) then
    match cluster_Sections cer with
    | Some (sections, cer') =>
        let catalog := r_catalog (cr_base cer') in
        let id := r_id (cr_base cer') in
        (_ ← remove_sections catalog id sections;
         _ ← RemoveKey (subkeys_key catalog id) true;
         mret true) (cr_client cer')
    | None => None
    end
  else Some (false, cr_client cer).

End Manager.
