(* ===== verification/ClusterFacts.v ===== *)
(** * Cluster: what is saved is what is read

    The effect of the writer of [Cluster] on the keyspace ([End_runs]), the answers of its
    reader ([ClusterReaderSpec]), and what follows for entities: [WriteEntity_saves],
    [ReadEntity_reads], and the properties on saving, reading and removing. *)

From S2P Require Import Prelude ByteBuffer Text Entities Cluster.

(** ** Commands on the keyspace *)

Definition list_at (ks : Keyspace) (k : string) : option (list string) :=
  match ks !! k with None => Some [] | Some (RedisList l) => Some l | Some _ => None end.
Definition hash_at (ks : Keyspace) (k : string) : option (gmap string string) :=
  match ks !! k with None => Some ∅ | Some (RedisHash h) => Some h | Some _ => None end.

Lemma hash_fields_lookup K a h k : hash_fields h a !! k =
  match last_value (map (fun f => (K, f.1, f.2)) a) K k with Some v => Some v | None => h !! k end.
Proof.
  unfold hash_fields. revert h. induction a as [|[k' v] a IH]; intros h; [done|].
  cbn [fold_left map last_value fst snd]. rewrite IH. destruct (last_value _ K k); [done|].
  rewrite String.eqb_refl. cbn [andb]. destruct (String.eqb_spec k' k) as [->|Hne].
  - by rewrite lookup_insert_eq.
  - by rewrite lookup_insert_ne.
Qed.

Lemma remove_first_all n v l : (length l <= n)%nat -> remove_first n v l = List.filter (fun x => negb (String.eqb x v)) l.
Proof.
  revert n. induction l as [|x l IH]; intros [|n] Hn; try done; cbn in Hn; [lia|].
  cbn [remove_first List.filter]. destruct (String.eqb x v); cbn; [apply IH; lia|]. f_equal. apply (IH (S n)). lia.
Qed.

Lemma lrem_all v l : lrem 0 v l = List.filter (fun x => negb (String.eqb x v)) l.
Proof. by apply remove_first_all. Qed.

Lemma list_at_put ks k l : list_at (put_list_at k l ks) k = Some l.
Proof. unfold list_at, put_list_at. destruct l; [by rewrite lookup_delete_eq|by rewrite lookup_insert_eq]. Qed.

Lemma lookup_put_list_ne ks k k' l : k <> k' -> put_list_at k l ks !! k' = ks !! k'.
Proof. intros Hne. unfold put_list_at. destruct l; [by rewrite lookup_delete_ne|by rewrite lookup_insert_ne]. Qed.

(** What a client that stays connected does to the keyspace. *)
Section Runs.
Context {R : Type} `{Redis R}.

Definition runs {A} (m : Act R A) (ks : Keyspace) (Q : A -> Keyspace -> Prop) : Prop :=
  forall r, is_connected r = true -> contents r = ks ->
  exists a r', m r = Some (a, r') /\ is_connected r' = true /\ Q a (contents r').

Lemma runs_ret {A} (a : A) ks (Q : A -> Keyspace -> Prop) : Q a ks -> runs (mret a) ks Q.
Proof. intros HQ r Hr <-. by exists a, r. Qed.

Lemma runs_bind {A B} (m : Act R A) (k : A -> Act R B) ks Q :
  runs m ks (fun a ks' => runs (k a) ks' Q) -> runs (m ≫= k) ks Q.
Proof.
  intros Hm r Hr Hks. destruct (Hm r Hr Hks) as (a & r1 & E & Hr1 & Hk).
  destruct (Hk r1 Hr1 eq_refl) as (b & r2 & E2 & Hr2 & HQ). exists b, r2. by rewrite (Act_bind_Some _ _ _ _ _ E).
Qed.

Lemma runs_send c ks (Q : Reply -> Keyspace -> Prop) :
  (forall rep, replies c ks rep -> Q rep (redis c ks).2) -> runs (send c) ks Q.
Proof.
  intros HQ r Hr <-. exists (command c r).1, (command c r).2. unfold send. split; [by destruct (command c r)|].
  split; [by apply command_connected|]. rewrite command_contents by done. by apply HQ, command_replies.
Qed.

Lemma runs_mono {A} (m : Act R A) ks (Q Q' : A -> Keyspace -> Prop) :
  runs m ks Q -> (forall a ks', Q a ks' -> Q' a ks') -> runs m ks Q'.
Proof. intros Hm HQ r Hr Hks. destruct (Hm r Hr Hks) as (a & r' & ? & ? & ?). exists a, r'. eauto. Qed.

(** Storing a section: its fields are set, its key ends the list, nothing else changes. *)
Definition stored_section (listKey K : string) (a : list (string * string)) (ks ks' : Keyspace) : Prop :=
  (exists index h, list_at ks listKey = Some index /\ hash_at ks K = Some h /\
    list_at ks' listKey = Some (List.filter (fun x => negb (String.eqb x K)) index ++ [K]) /\
    hash_at ks' K = Some (hash_fields h a)) /\
  forall k, k <> listKey -> k <> K -> ks' !! k = ks !! k.

Lemma write_section_runs listKey K a ck ks : listKey <> K -> a <> [] ->
  is_Some (list_at ks listKey) -> is_Some (hash_at ks K) ->
  runs (write_section listKey K a ck) ks (fun ck' ks' => ck' = ck ∖ {[K]} /\ stored_section listKey K a ks ks').
Proof.
  intros Hne Ha [index Hl] [h Hh]. apply runs_bind, runs_send. intros _ _.
  set (ks1 := (redis (LREM listKey 0 K) ks).2).
  assert (list_at ks1 listKey = Some (List.filter (fun x => negb (String.eqb x K)) index)) as H1.
  { subst ks1. unfold list_at in Hl. cbn [redis]. destruct (ks !! listKey) as [[]|] eqn:E; simplify_eq.
    - cbn [snd]. by rewrite list_at_put, lrem_all.
    - cbn. unfold list_at. by rewrite E. }
  assert (forall k, k <> listKey -> ks1 !! k = ks !! k) as F1.
  { intros k Hk. subst ks1. cbn [redis]. destruct (ks !! listKey) as [[]|]; try done. by apply lookup_put_list_ne. }
  clearbody ks1. apply runs_bind, runs_send. intros _ _. set (ks2 := (redis (RPUSH listKey [K]) ks1).2).
  assert (list_at ks2 listKey = Some (List.filter (fun x => negb (String.eqb x K)) index ++ [K])) as H2.
  { subst ks2. unfold list_at in H1. cbn [redis]. destruct (ks1 !! listKey) as [[]|] eqn:E; try done; injection H1 as <-; cbn [snd]; by rewrite list_at_put. }
  assert (forall k, k <> listKey -> ks2 !! k = ks !! k) as F2.
  { intros k Hk. subst ks2. rewrite <- F1 by done. cbn [redis]. destruct (ks1 !! listKey) as [[]|]; try done; by apply lookup_put_list_ne. }
  clearbody ks2. apply runs_bind, runs_send. intros _ _. apply runs_ret. split; [done|].
  destruct a as [|f a]; [done|]. unfold hash_at in Hh. rewrite <- (F2 K) in Hh by done.
  cbn [redis]. split.
  - exists index, h. split; [done|]. unfold hash_at at 1. rewrite <- (F2 K) by done. split; [done|].
    destruct (ks2 !! K) as [[]|] eqn:E; simplify_eq; cbn [snd]; unfold list_at, hash_at;
      rewrite lookup_insert_eq, lookup_insert_ne by done; done.
  - intros k Hk1 Hk2. rewrite <- F2 by done.
    destruct (ks2 !! K) as [[]|] eqn:E; simplify_eq; cbn [snd]; by rewrite lookup_insert_ne.
Qed.

End Runs.

(** ** The stored form of one entity *)

Lemma append_inj_l (a b c : string) : a +:+ b = a +:+ c -> b = c.
Proof.
  induction a as [|x a IH]; [done|]. change (String x (a +:+ b) = String x (a +:+ c) -> b = c).
  intros [= E]. auto.
Qed.

Lemma section_key_suffix catalog id section : exists s, section_key catalog id section = entity_key catalog id +:+ String (chr 58) s.
Proof. unfold section_key. destruct (String.length section =? 0)%nat; [by exists "DEFAULT"%string|by exists (cstr section)]. Qed.

Lemma section_key_index catalog id section : subkeys_key catalog id <> section_key catalog id section.
Proof.
  destruct (section_key_suffix catalog id section) as [s ->]. unfold subkeys_key. intros E.
  by apply append_inj_l in E.
Qed.

(** A name that is not cut short, and is not that of the section without a name. *)
Definition plain_section (s : string) : bool := String.eqb (cstr s) s && negb (String.eqb s "DEFAULT").

Lemma section_key_inj catalog id s1 s2 : plain_section s1 = true -> plain_section s2 = true ->
  section_key catalog id s1 = section_key catalog id s2 -> s1 = s2.
Proof.
  unfold plain_section. intros [C1%String.eqb_eq D1]%andb_true_iff [C2%String.eqb_eq D2]%andb_true_iff.
  apply negb_true_iff, String.eqb_neq in D1, D2.
  unfold section_key. rewrite C1, C2. destruct s1 as [|c1 s1], s2 as [|c2 s2]; cbn [String.length Nat.eqb]; try done;
    intros E; apply append_inj_l in E; injection E; intros; subst; done.
Qed.

Section Stored.
Context {R : Type} `{Redis R}.
Context (catalog id : string).

Let K := section_key catalog id.
Let L := subkeys_key catalog id.

(** The keys of the entity hold what its writer stores, and the list names its sections. *)
Record entity_ok (ks : Keyspace) (index : list string) : Prop := mkEntityOk {
  index_at : list_at ks L = Some index;
  sections_at : forall sec, is_Some (hash_at ks (K sec));
  index_names : forall k, k ∈ index -> exists sec, k = K sec;
  index_once : NoDup index }.

Definition content (ks : Keyspace) (k f : string) : option string := default ∅ (hash_at ks k) !! f.

Definition keyed (l : list (string * string * string)) : list (string * string * string) :=
  map (fun x => (K x.1.1, x.1.2, x.2)) l.
Definition written_keys (l : list (string * string * string)) : list string := map (fun x => K x.1.1) l.

(** [ks'] is [ks] after the values [l]. *)
Record written_out (l : list (string * string * string)) (ks ks' : Keyspace) (index index' : list string) : Prop := mkWrittenOut {
  out_ok : entity_ok ks' index';
  out_content : forall sec k, content ks' (K sec) k =
    match last_value (keyed l) (K sec) k with Some v => Some v | None => content ks (K sec) k end;
  out_index : forall k, k ∈ index' <-> k ∈ index \/ k ∈ written_keys l;
  out_frame : forall k, k <> L -> (forall sec, k <> K sec) -> ks' !! k = ks !! k }.

Lemma written_out_nil ks index : entity_ok ks index -> written_out [] ks ks index index.
Proof. intros Hok. split; try done. intros k. cbn. rewrite elem_of_nil. tauto. Qed.

Lemma written_out_app l1 l2 ks ks1 ks2 i i1 i2 :
  written_out l1 ks ks1 i i1 -> written_out l2 ks1 ks2 i1 i2 -> written_out (l1 ++ l2) ks ks2 i i2.
Proof.
  intros [_ C1 I1 F1] [Hok C2 I2 F2]. split; [done| | |].
  - intros sec k. unfold keyed. rewrite map_app, last_value_app, C2, C1. unfold keyed.
    by destruct (last_value (map _ l2) (K sec) k).
  - intros k. unfold written_keys. rewrite map_app, I2, I1, elem_of_app. unfold written_keys. tauto.
  - intros k H1 H2. by rewrite F2, F1.
Qed.

Definition pending (sec : string) (a : list (string * string)) : list (string * string * string) :=
  map (fun f => (sec, f.1, f.2)) a.

Lemma last_value_pending_ne sec a k k0 : K sec <> k0 -> last_value (keyed (pending sec a)) k0 k = None.
Proof.
  intros Hne. induction a as [|f a IH]; [done|]. cbn. unfold keyed, pending in IH. rewrite IH.
  by apply String.eqb_neq in Hne as ->.
Qed.

Lemma last_value_pending sec a k : last_value (keyed (pending sec a)) (K sec) k =
  last_value (map (fun f => (K sec, f.1, f.2)) a) (K sec) k.
Proof. unfold keyed, pending. by rewrite map_map. Qed.

Lemma stored_written_out sec a ks ks' index : a <> [] -> entity_ok ks index -> stored_section L (K sec) a ks ks' ->
  exists index', written_out (pending sec a) ks ks' index index'.
Proof.
  intros Ha [Hi Hs Hn Hnd] [(index0 & h & Hi0 & Hh & Hi' & Hh') F].
  rewrite Hi in Hi0. injection Hi0 as <-.
  exists (List.filter (fun x => negb (String.eqb x (K sec))) index ++ [K sec]).
  assert (forall s, K s <> K sec -> hash_at ks' (K s) = hash_at ks (K s)) as Hsame.
  { intros s Hne. unfold hash_at. rewrite F; [done| |done]. apply not_eq_sym, section_key_index. }
  assert (forall k, k ∈ List.filter (fun x => negb (String.eqb x (K sec))) index ++ [K sec] <-> k ∈ index \/ k = K sec) as Hin.
  { intros k. rewrite !list_elem_of_In, in_app_iff, List.filter_In, negb_true_iff, String.eqb_neq.
    cbn. destruct (decide (k = K sec)); intuition congruence. }
  split.
  - split; [done| | |].
    + intros s. destruct (decide (K s = K sec)) as [->|Hne]; [by eexists|]. by rewrite Hsame.
    + intros k [Hk|Hk]%Hin; [auto|by eexists].
    + apply NoDup_ListNoDup, List.NoDup_app; [by apply List.NoDup_filter, NoDup_ListNoDup|apply NoDup_ListNoDup, NoDup_singleton|].
      intros k. rewrite List.filter_In, negb_true_iff, String.eqb_neq. intros [_ Hk] [E|[]]. congruence.
  - intros s k. destruct (decide (K s = K sec)) as [->|Hne].
    + rewrite last_value_pending. unfold content. rewrite Hh', Hh. cbn [default from_option]. apply hash_fields_lookup.
    + rewrite last_value_pending_ne by done. unfold content. by rewrite Hsame.
  - intros k. rewrite Hin. unfold written_keys, pending. rewrite map_map. cbn.
    rewrite (list_elem_of_In (map _ a)), in_map_iff.
    destruct a as [|f a]; [done|]. split; (intros [?|Hk]; [by left|right]).
    + exists f. split; [done|by left].
    + by destruct Hk as (? & -> & _).
  - intros k H1 H2. by apply F.
Qed.

Lemma write_pending_runs sec a ck ks index : entity_ok ks index ->
  runs (write_pending catalog id sec a ck) ks (fun ck' ks' =>
    ck' = ck ∖ list_to_set (written_keys (pending sec a)) /\ exists index', written_out (pending sec a) ks ks' index index').
Proof.
  intros Hok. destruct a as [|f a].
  - apply runs_ret. split; [cbn; set_solver|]. exists index. by apply written_out_nil.
  - eapply runs_mono.
    + apply write_section_runs; [apply section_key_index|done|by eexists; apply Hok|apply Hok].
    + intros ck' ks' [-> Hst]. split; [|by apply stored_written_out].
      unfold written_keys, pending. cbn [map list_to_set]. change (section_key catalog id sec) with (K sec).
      enough (list_to_set (map (fun x : string * string * string => K x.1.1) (map (fun f0 => (sec, f0.1, f0.2)) a)) ⊆@{gset string} {[K sec]}) by set_solver.
      clear. induction a as [|g a IH]; cbn; set_solver.
Qed.

Lemma pending_snoc sec a k v : pending sec (a ++ [(k, v)]) = pending sec a ++ [(sec, k, v)].
Proof. unfold pending. by rewrite map_app. Qed.

Lemma write_values_runs l : forall sec a ck ks index, entity_ok ks index ->
  runs (write_values catalog id l sec a ck) ks (fun ck' ks' =>
    ck' = ck ∖ list_to_set (written_keys (pending sec a ++ l)) /\ exists index', written_out (pending sec a ++ l) ks ks' index index').
Proof.
  induction l as [|[[s k] v] l IH]; intros sec a ck ks index Hok; cbn [write_values].
  - rewrite app_nil_r. by apply write_pending_runs.
  - destruct (String.eqb_spec s sec) as [->|_].
    + replace (pending sec a ++ (sec, k, v) :: l) with (pending sec (a ++ [(k, v)]) ++ l)
        by (by rewrite pending_snoc, <- app_assoc). by apply IH.
    + apply runs_bind. eapply runs_mono; [by apply write_pending_runs|].
      intros ck1 ks1 (-> & i1 & W1). eapply runs_mono; [by apply IH, W1|].
      intros ck' ks' (-> & i2 & W2). split.
      * unfold written_keys. by rewrite difference_difference_l_L, <- list_to_set_app_L, <- map_app.
      * exists i2. by eapply written_out_app; [|exact W2].
Qed.

(** Deleting keys of the entity. *)
Lemma delete_keys_runs l : forall ks index, entity_ok ks index -> (forall k, k ∈ l -> exists sec, k = K sec) ->
  runs (delete_keys l) ks (fun _ ks' => entity_ok ks' index /\
    (forall k, k ∈ l -> ks' !! k = None) /\ forall k, k ∉ l -> ks' !! k = ks !! k).
Proof.
  induction l as [|x l IH]; intros ks index Hok Hl; cbn [delete_keys].
  - apply runs_ret. split; [done|]. split; [by intros k ?%elem_of_nil|done].
  - apply runs_bind, runs_send. intros _ _. cbn [redis snd].
    destruct (Hl x ltac:(by left)) as [sx Hx].
    assert (entity_ok (delete x ks) index) as Hok1.
    { destruct Hok as [Hi Hs Hn Hnd]. split; [|intros s|done|done].
      - unfold list_at. rewrite lookup_delete_ne; [done|]. rewrite Hx. apply not_eq_sym, section_key_index.
      - unfold hash_at. destruct (decide (x = K s)) as [->|]; [by rewrite lookup_delete_eq; eexists|].
        rewrite lookup_delete_ne by done. apply Hs. }
    eapply runs_mono; [apply IH; [exact Hok1|intros k Hk; apply Hl; by right]|].
    intros _ ks' (Hok' & Hdel & Hkeep). split; [done|]. split.
    + intros k Hk. destruct (decide (k ∈ l)) as [|Hkl]; [by apply Hdel|].
      apply elem_of_cons in Hk as [->|]; [|done]. rewrite Hkeep by done. by rewrite lookup_delete_eq.
    + intros k Hk. rewrite not_elem_of_cons in Hk. destruct Hk as [Hk1 Hk2]. rewrite Hkeep by done.
      by rewrite lookup_delete_ne.
Qed.

(** What the store holds of the entity after a save of [l]: sections that are written
    keep the fields that are not written again; sections that are not are emptied. *)
Definition saved_value (l : list (string * string * string)) (ks : Keyspace) (index : list string) (k f : string) : option string :=
  match last_value (keyed l) k f with
  | Some v => Some v
  | None => if decide (k ∈ index /\ k ∉ written_keys l) then None else content ks k f
  end.

Lemma last_value_written l k f v : last_value (keyed l) k f = Some v -> k ∈ written_keys l.
Proof.
  revert v. induction l as [|[[s' k'] v'] l IH]; intros v; [done|]. unfold keyed, written_keys in *. cbn.
  destruct (last_value _ k f) as [v0|]; [intros _; right; by eapply IH|].
  destruct (String.eqb_spec (K s') k) as [->|]; [by left|done].
Qed.

Lemma the_strings_map l : the_strings (map ReplyString l) = l.
Proof. induction l as [|x l IH]; cbn; by rewrite ?IH. Qed.

Lemma lrange_reply ks k l rep : list_at ks k = Some l -> replies (LRANGE k) ks rep -> rep = ReplyArray (map ReplyString l).
Proof. unfold list_at. cbn. intros Hl ->. by destruct (ks !! k) as [[]|]; simplify_eq. Qed.

Record saved (l : list (string * string * string)) (ks ks' : Keyspace) (index index' : list string) : Prop := mkSaved {
  saved_ok : entity_ok ks' index';
  saved_content : forall sec f, content ks' (K sec) f = saved_value l ks index (K sec) f;
  saved_index : forall k, k ∈ index' <-> k ∈ index \/ k ∈ written_keys l;
  saved_frame : forall k, k <> L -> (forall sec, k <> K sec) -> ks' !! k = ks !! k }.

Lemma End_runs sec l ks index : entity_ok ks index ->
  runs (ClusterEntityWriter_End (mkClusterWriter (mkWriterBase sec catalog id) l)) ks
    (fun ok ks' => ok = true /\ exists index', saved l ks ks' index index').
Proof.
  intros Hok. unfold ClusterEntityWriter_End. cbn [cw_base w_catalog w_id mStringValues].
  apply runs_bind, runs_send. intros rep Hrep. apply (lrange_reply _ _ index) in Hrep as ->; [|apply Hok].
  apply runs_bind, runs_ret. rewrite the_strings_map. cbn [redis snd].
  apply runs_bind. eapply runs_mono; [by apply write_values_runs|].
  intros ck ks1 (-> & index1 & [Hok1 C1 I1 F1]). cbn [pending map app] in *.
  apply runs_bind. eapply runs_mono; [apply (delete_keys_runs _ _ index1); [done|]|].
  - intros k Hk. rewrite elem_of_elements, elem_of_difference, elem_of_list_to_set in Hk. destruct Hk as [Hk _]. by apply (index_names _ _ Hok).
  - intros _ ks' (Hok' & Hdel & Hkeep). apply runs_ret. split; [done|]. exists index1.
    assert (forall k, k ∈ elements (list_to_set index ∖ list_to_set (written_keys l) : gset string) <-> k ∈ index /\ k ∉ written_keys l) as Hel.
    { intros k. by rewrite elem_of_elements, elem_of_difference, !elem_of_list_to_set. }
    split; [done| |done|].
    + intros s f. unfold saved_value. destruct (decide (K s ∈ index /\ K s ∉ written_keys l)) as [Hd|Hd].
      * unfold content. unfold hash_at. rewrite Hdel by (by apply Hel). cbn. rewrite lookup_empty.
        destruct (last_value (keyed l) (K s) f) eqn:E; [|done]. destruct Hd as [_ []]. by eapply last_value_written.
      * assert (hash_at ks' (K s) = hash_at ks1 (K s)) as E by (unfold hash_at; rewrite Hkeep; [done|by rewrite Hel]).
        unfold content. rewrite E. apply C1.
    + intros k H1 H2. rewrite Hkeep; [by apply F1|]. rewrite Hel. intros [Hk _].
      destruct (index_names _ _ Hok k Hk) as [s ->]. by apply (H2 s).
Qed.

End Stored.

(** ** The reader gives what is stored *)

Lemma find_hash (l : list (string * string)) (h : gmap string string) key d : l ≡ₚ map_to_list h ->
  match List.find (fun p => String.eqb p.1 key) l with Some p => p.2 | None => d end = default d (h !! key).
Proof.
  intros Hl. destruct (List.find _ l) as [[k v]|] eqn:E.
  - apply List.find_some in E as [Hin Hk%String.eqb_eq]. cbn in Hk. subst k.
    rewrite <- list_elem_of_In, Hl in Hin. apply elem_of_map_to_list in Hin. by rewrite Hin.
  - destruct (h !! key) as [v|] eqn:Hv; [|done]. exfalso.
    apply elem_of_map_to_list in Hv. rewrite <- Hl, list_elem_of_In in Hv.
    pose proof (List.find_none _ _ E _ Hv) as Hne. cbn in Hne. by rewrite String.eqb_refl in Hne.
Qed.

Lemma string_pairs_pairs {S} (l : list (string * string)) (s : S) :
  string_pairs (flat_map (fun f => [ReplyString f.1; ReplyString f.2]) l) s = Some (l, s).
Proof.
  induction l as [|[k v] l IH]; [done|]. cbn. cbv [mbind Act_bind mret Act_ret] in IH |- *. by rewrite IH.
Qed.

Section ReadBack.
Context {R : Type} `{Redis R}.

Definition entity_section (s : ClusterReader R) (sec : string) : string :=
  section_key (r_catalog (cr_base s)) (r_id (cr_base s)) sec.

(** The keyspace is [ks], and stays so. *)
Context (ks : Keyspace).

Record cluster_answers (f : string -> string -> option string) (s : ClusterReader R) : Prop := mkClusterAnswers {
  answers_connected : is_connected (cr_client s) = true;
  answers_contents : contents (cr_client s) = ks;
  answers_fields : forall sec, exists h, hash_at ks (entity_section s sec) = Some h /\
    (forall k, f sec k = h !! k) /\ forall l, mValues s !! sec = Some l -> l ≡ₚ map_to_list h }.

Lemma CheckLoaded_spec f s : cluster_answers f s -> exists l s' h, CheckLoaded s = Some (l, s') /\
  cluster_answers f s' /\ cr_base s' = cr_base s /\ l ≡ₚ map_to_list h /\ forall k, f (r_section (cr_base s)) k = h !! k.
Proof.
  intros [Hc Hks Hf]. destruct (Hf (r_section (cr_base s))) as (h & Hh & Hfh & Hl). unfold CheckLoaded.
  destruct (mValues s !! r_section (cr_base s)) as [l|] eqn:E.
  - exists l, s, h. specialize (Hl l eq_refl). split; [done|]. by split; [split|].
  - change (CreateSectionKey (cr_base s)) with (entity_section s (r_section (cr_base s))).
    set (K := entity_section s (r_section (cr_base s))) in *.
    pose proof (command_replies (HGETALL K) _ Hc) as Hrep. pose proof (command_contents (HGETALL K) _ Hc) as Hcont.
    pose proof (command_connected (HGETALL K) _ Hc) as Hconn.
    assert (exists l, l ≡ₚ map_to_list h /\ (command (HGETALL K) (cr_client s)).1 = pairs l) as (l & Hperm & Hl1).
    { unfold hash_at in Hh. cbn in Hrep. rewrite Hks in Hrep. destruct (ks !! K) as [[]|] eqn:EK; simplify_eq; [done|].
      exists []. by rewrite map_to_list_empty. }
    destruct (command (HGETALL K) (cr_client s)) as [rep r'] eqn:EC. cbn in Hl1, Hcont, Hconn. subst rep.
    exists l. eexists. exists h. cbv [mbind Act_bind on_client send modify mret Act_ret as_array]. rewrite EC.
    cbn [pairs]. rewrite string_pairs_pairs. split; [reflexivity|]. split; [|done].
    split; [done|cbn; by rewrite Hcont|]. intros sec. destruct (Hf sec) as (h' & Hh' & Hfh' & Hl'). exists h'. cbn.
    split; [done|]. split; [done|]. intros l0.
    destruct (decide (r_section (cr_base s) = sec)) as [<-|Hne].
    + rewrite lookup_insert_eq. intros [= <-]. subst K. unfold entity_section in *. rewrite Hh in Hh'. by injection Hh' as <-.
    + rewrite lookup_insert_ne by done. auto.
Qed.

Lemma cluster_Value_spec f s k d : cluster_answers f s -> exists s',
  cluster_Value k d s = Some (default d (f (r_section (cr_base s)) k), s') /\ cluster_answers f s' /\ cr_base s' = cr_base s.
Proof.
  intros Hs. destruct (CheckLoaded_spec f s Hs) as (l & s' & h & E & Hs' & Hb & Hl & Hf). exists s'.
  unfold cluster_Value. rewrite (Act_bind_Some _ _ _ _ _ E). split; [|done].
  cbv [mret Act_ret]. by rewrite (find_hash l h), Hf.
Qed.

#[export, refine] Instance ClusterReaderSpec : ReaderSpec (ClusterReader R) := {| answers := cluster_answers |}.
Proof.
  - done.
  - intros f sec s [Hc Hks Hf]. by split.
  - intros f s k d. apply cluster_Value_spec.
  - intros f s k sep l Hs Hl. destruct (cluster_Value_spec f s k EmptyString Hs) as (s' & E & Hs' & Hb).
    exists s'. split; [|done]. change (cluster_ListValue k sep s = Some (l, s')). unfold cluster_ListValue.
    rewrite (Act_bind_Some _ _ _ _ _ E). cbn in Hl |- *. by rewrite Hl.
Defined.

End ReadBack.

(** A reader placed at an entity answers with the contents of the keyspace. *)
Lemma fresh_answers {R} `{Redis R} (r : R) sec catalog id flat index : is_connected r = true -> entity_ok catalog id (contents r) index ->
  cluster_answers (contents r) (fun sec k => content (contents r) (section_key catalog id sec) k)
    (mkClusterReader (mkReaderBase sec catalog id flat) false false ∅ false [] r).
Proof.
  intros Hr Hok. split; [done|done|]. intros s. destruct (sections_at _ _ _ _ Hok s) as [h Hh]. exists h.
  split; [done|]. split; [|done]. intros k. unfold content. by rewrite Hh.
Qed.

Lemma last_value_root catalog id l k : Forall (fun x => x.1.1 = EmptyString) l ->
  last_value (keyed catalog id l) (section_key catalog id EmptyString) k = last_value l EmptyString k.
Proof.
  induction 1 as [|[[sec k'] v] l Hx _ IH]; [done|]. cbn in Hx. subst sec.
  change (keyed catalog id ((EmptyString, k', v) :: l)) with ((section_key catalog id EmptyString, k', v) :: keyed catalog id l).
  cbn [last_value]. rewrite IH, !String.eqb_refl. done.
Qed.

(** ** Saving and loading an entity *)

Section SaveLoad.
Context {R : Type} `{Redis R} {E : Type} `{EntityLaws E}.


Lemma WriteEntity_saves (e : E) (r : R) index : is_connected r = true ->
  entity_ok (catalog_of e) (id_of e) (contents r) index ->
  exists r' index', ClusterManager_WriteEntity e r = Some (true, r') /\ is_connected r' = true /\
    saved (catalog_of e) (id_of e) (values e) (contents r) (contents r') index index'.
Proof.
  intros Hr Hok. unfold ClusterManager_WriteEntity. rewrite Hr. cbn [negb].
  edestruct (WriteEntity_values ClusterWriter e ClusterWriter_new) as (w & Ew & Hw & Hcat & Hid); [done..|].
  rewrite Ew. destruct w as [[sec cat i] l]. cbn in Hw, Hcat, Hid. subst cat i l.
  destruct (End_runs _ _ sec (values e) _ _ Hok r Hr eq_refl) as (ok & r' & E1 & Hr' & -> & index' & Hs).
  by exists r', index'.
Qed.

Lemma ReadEntity_reads (e e' : E) (r : R) index f : is_connected r = true ->
  entity_ok (catalog_of e) (id_of e) (contents r) index ->
  (forall sec k, content (contents r) (section_key (catalog_of e) (id_of e) sec) k = f sec k) ->
  reads f e e' -> exists r', ClusterManager_ReadEntity e r = Some ((true, e'), r') /\ is_connected r' = true /\
    contents r' = contents r.
Proof.
  intros Hr Hok Hf Hreads. unfold ClusterManager_ReadEntity.
  destruct (EntityKeys_key (ClusterReader R) e (ClusterReader_new r)) as [flat Ek]. rewrite Ek.
  destruct (Hreads (ClusterReader R) _ (ClusterReaderSpec (contents r)) flat) as [b' Hg].
  assert (cluster_answers (contents r) f (reader_Key (catalog_of e) (id_of e) flat (ClusterReader_new r))) as Hans.
  { destruct (fresh_answers r EmptyString _ _ flat _ Hr Hok) as [Hc Hks Hfields]. split; [done|done|].
    intros sec. destruct (Hfields sec) as (h & Hh & Hk & Hl). exists h. split; [done|]. split; [|done].
    intros k. by rewrite <- Hf. }
  destruct (Hg _ Hans eq_refl) as (s' & Es & [Hc' Hks' _] & _). rewrite Es. by exists (cr_client s').
Qed.

End SaveLoad.

(** ** Lists and counters *)

Lemma all_strings_map {S} l (s : S) : all_strings (map ReplyString l) s = Some (l, s).
Proof. induction l as [|x l IH]; [done|]. cbn [map all_strings]. cbv [as_string mbind Act_bind mret Act_ret]. by rewrite IH. Qed.

Section Lists.
Context {R : Type} `{Redis R}.

Lemma GetList_runs key ks l (Q : list string -> Keyspace -> Prop) : list_at ks key = Some l -> Q l ks -> runs (GetList key) ks Q.
Proof.
  intros Hl HQ. unfold GetList. apply runs_bind, runs_send. intros rep Hrep. apply (lrange_reply _ _ _ _ Hl) in Hrep as ->.
  intros r Hr Hc. cbn [redis snd] in Hc. exists l, r. cbv [is_error as_array mbind Act_bind mret Act_ret]. rewrite all_strings_map. by rewrite Hc.
Qed.

Lemma ListAdd_runs key value ks l (Q : bool -> Keyspace -> Prop) : list_at ks key = Some l ->
  (forall ks', list_at ks' key = Some (l ++ [value]) -> (forall k, k <> key -> ks' !! k = ks !! k) -> Q true ks') ->
  runs (ListAdd key value) ks Q.
Proof.
  intros Hl HQ. unfold ListAdd. apply runs_bind, runs_send. intros rep _. apply runs_ret.
  assert ((redis (RPUSH key [value]) ks).2 = put_list_at key (l ++ [value]) ks) as ->.
  { cbn. unfold list_at in Hl. by destruct (ks !! key) as [[]|]; simplify_eq. }
  apply HQ; [apply list_at_put|]. intros k Hk. by apply lookup_put_list_ne.
Qed.

Lemma ListRemove_runs key value ks l (Q : bool -> Keyspace -> Prop) : list_at ks key = Some l ->
  (forall b ks', list_at ks' key = Some (lrem 1 value l) -> (forall k, k <> key -> ks' !! k = ks !! k) -> Q b ks') ->
  runs (ListRemove key value true) ks Q.
Proof.
  intros Hl HQ. unfold ListRemove. apply runs_bind, runs_send. intros rep Hrep. apply runs_bind.
  unfold list_at in Hl. cbn [replies redis] in Hrep |- *. destruct (ks !! key) as [[| l0 |]|] eqn:E; try done; simplify_eq/=.
  - apply runs_ret, runs_ret. apply HQ; [apply list_at_put|]. intros k Hk. by apply lookup_put_list_ne.
  - apply runs_ret, runs_ret. apply HQ; [|done]. unfold list_at. by rewrite E.
Qed.

(** The counter holds a number that is below the greatest one. *)
Definition counter_at (ks : Keyspace) (key : string) (n : Z) : Prop :=
  -2 ^ 63 <= n < 2 ^ 63 - 1 /\
  match ks !! key with None => n = 0 | Some (RedisString s) => redis_integer s = Some n | Some _ => False end.

Lemma NextValue_runs key ks n (Q : Z -> Keyspace -> Prop) : counter_at ks key n ->
  (forall ks', (forall k, k <> key -> ks' !! k = ks !! k) -> Q (n + 1) ks') -> runs (NextValue key 1) ks Q.
Proof.
  intros [Hn Hc] HQ. unfold NextValue. cbn [Z.ltb Z.compare]. apply runs_bind, runs_send. intros rep Hrep.
  cbn [replies redis] in Hrep |- *. unfold add_integer in *.
  assert ((- 2 ^ 63 <=? n + 1) && (n + 1 <? 2 ^ 63) = true) as E by (apply andb_true_intro; rewrite Z.leb_le, Z.ltb_lt; lia).
  destruct (ks !! key) as [[s| |]|]; try done; [rewrite Hc in Hrep |- *|subst n]; rewrite E in Hrep |- *; subst rep.
  all: apply runs_ret, HQ; intros k Hk; cbn; by rewrite lookup_insert_ne.
Qed.

End Lists.

(** ** Removing an entity *)

Definition section_name (sec : string) : string := if (String.length sec =? 0)%nat then "DEFAULT" else cstr sec.

Lemma section_key_name catalog id sec : section_key catalog id sec = entity_key catalog id +:+ ":" +:+ section_name sec.
Proof. unfold section_key, section_name. by destruct (String.length sec =? 0)%nat. Qed.

Lemma cstr_section_name sec : cstr (section_name sec) = section_name sec.
Proof. unfold section_name. destruct (String.length sec =? 0)%nat; [done|apply cstr_idem]. Qed.

Lemma substring_suffix p s : String.substring (String.length p) (String.length s) (p +:+ s) = s.
Proof. induction p as [|c p IH]; [apply substring_whole|exact IH]. Qed.

Lemma substr_from_append p s : substr_from (String.length p) (p +:+ s) = Some s.
Proof.
  unfold substr_from. rewrite string_length_app. destruct (Nat.leb_spec (String.length p) (String.length p + String.length s)); [|lia].
  replace (String.length p + String.length s - String.length p)%nat with (String.length s) by lia.
  by rewrite substring_suffix.
Qed.

Section Remove.
Context {R : Type} `{Redis R}.
Context (catalog id : string) (Hcat : cstr catalog = catalog) (Hid : cstr id = id).

Let K := section_key catalog id.
Let L := subkeys_key catalog id.

Lemma section_suffix sec :
  substr_from (String.length catalog + String.length id + 2) (K sec) = Some (section_name sec).
Proof.
  unfold K. rewrite section_key_name. unfold entity_key. rewrite Hcat, Hid.
  replace (String.length catalog + String.length id + 2)%nat with (String.length ((catalog +:+ ":" +:+ id) +:+ ":")).
  - rewrite <- (string_app_assoc (catalog +:+ ":" +:+ id) ":"). apply substr_from_append.
  - rewrite !string_length_app. cbn. lia.
Qed.

Lemma section_names_spec {S} secs (s : S) :
  section_names (String.length catalog + String.length id + 2) (map K secs) s = Some (map section_name secs, s).
Proof.
  induction secs as [|sec secs IH]; [done|]. cbn [map section_names]. rewrite section_suffix.
  cbv [mbind Act_bind mret Act_ret]. by rewrite IH.
Qed.

(** The sections that have no slash in their name. *)
Definition top_sections (secs : list string) : list string :=
  List.filter (fun sec => negb (has_char slash (section_name sec))) secs.

Lemma direct_section_root a : direct_section EmptyString a = negb (has_char slash a).
Proof.
  unfold direct_section, HasBeginning. rewrite prefix_nil. cbn [andb String.length Nat.eqb orb].
  unfold substr_from. cbn [Nat.leb default from_option]. by rewrite Nat.sub_0_r, substring_whole.
Qed.

Lemma filter_names secs : List.filter (direct_section EmptyString) (map section_name secs) = map section_name (top_sections secs).
Proof.
  unfold top_sections. induction secs as [|sec secs IH]; [done|]. cbn [map List.filter]. rewrite direct_section_root.
  destruct (negb (has_char slash (section_name sec))); cbn [map]; by rewrite IH.
Qed.

Lemma remove_sections_runs secs ks : runs (remove_sections catalog id (map section_name secs)) ks (fun _ ks' =>
  (forall k, k ∈ map K secs -> ks' !! k = None) /\ forall k, k ∉ map K secs -> ks' !! k = ks !! k).
Proof.
  revert ks. induction secs as [|sec secs IH]; intros ks; cbn [map remove_sections].
  - apply runs_ret. split; [by intros k ?%elem_of_nil|done].
  - apply runs_bind. unfold RemoveKey. apply runs_bind, runs_send. intros rep _. apply runs_ret.
    rewrite cstr_section_name, <- section_key_name. change (section_key catalog id sec) with (K sec). cbn [redis snd].
    eapply runs_mono; [apply IH|]. intros _ ks' [Hdel Hkeep]. split.
    + intros k Hk. destruct (decide (k ∈ map K secs)) as [|Hkl]; [by apply Hdel|].
      apply elem_of_cons in Hk as [->|]; [|done]. rewrite Hkeep by done. by rewrite lookup_delete_eq.
    + intros k Hk. rewrite not_elem_of_cons in Hk. destruct Hk. rewrite Hkeep by done. by rewrite lookup_delete_ne.
Qed.

Lemma Sections_fresh (r : R) flat secs : is_connected r = true -> list_at (contents r) L = Some (map K secs) ->
  exists s', cluster_Sections (mkClusterReader (mkReaderBase EmptyString catalog id flat) false false ∅ false [] r) =
    Some (map section_name (top_sections secs), s') /\
    is_connected (cr_client s') = true /\ contents (cr_client s') = contents r /\
    cr_base s' = mkReaderBase EmptyString catalog id flat.
Proof.
  intros Hr HL. unfold cluster_Sections. cbn [cr_base mGotSections r_catalog r_id].
  pose proof (command_replies (LRANGE L) _ Hr) as Hrep. pose proof (command_contents (LRANGE L) _ Hr) as Hcont.
  pose proof (command_connected (LRANGE L) _ Hr) as Hconn. apply (lrange_reply _ _ _ _ HL) in Hrep.
  fold L. destruct (command (LRANGE L) r) as [rep r'] eqn:EC. cbn in Hrep, Hcont, Hconn. subst rep.
  eexists. cbv [mbind Act_bind on_client send modify mret Act_ret as_array gets]. cbn [cr_client]. rewrite EC.
  rewrite the_strings_map, section_names_spec. cbn. rewrite filter_names. split; [reflexivity|]. done.
Qed.

End Remove.

(** Removing an entity deletes the list of its sections and every section whose name
    has no slash; the sections further down stay, and so does all that is not of the
    entity. *)
Lemma RemoveEntity_removes {R} `{Redis R} {E} `{EntityLaws E} (e : E) (r : R) (secs : list string)
    (Hr : is_connected r = true) (Hc : cstr (catalog_of e) = catalog_of e) (Hi : cstr (id_of e) = id_of e)
    (Hok : entity_ok (catalog_of e) (id_of e) (contents r) (map (section_key (catalog_of e) (id_of e)) secs)) :
  exists r', ClusterManager_RemoveEntity e r = Some (true, r') /\ is_connected r' = true /\ forall k,
    contents r' !! k =
      if decide (k = subkeys_key (catalog_of e) (id_of e) \/
                 k ∈ map (section_key (catalog_of e) (id_of e)) (top_sections secs))
      then None else contents r !! k.
Proof.
  unfold ClusterManager_RemoveEntity.
  destruct (EntityKeys_key (ClusterReader R) e (ClusterReader_new r)) as [flat ->].
  destruct (Sections_fresh (catalog_of e) (id_of e) Hc Hi r flat secs Hr (index_at _ _ _ _ Hok)) as (s' & Es & Hr1 & Hc1 & Hb).
  change (reader_Key (catalog_of e) (id_of e) flat (ClusterReader_new r))
    with (mkClusterReader (mkReaderBase EmptyString (catalog_of e) (id_of e) flat) false false ∅ false [] r).
  rewrite Es, Hb. cbn [r_catalog r_id].
  assert (runs (_ ← remove_sections (catalog_of e) (id_of e) (map section_name (top_sections secs));
                _ ← RemoveKey (subkeys_key (catalog_of e) (id_of e)) true; mret true) (contents r)
    (fun ok ks' => ok = true /\ forall k, ks' !! k = if decide (k = subkeys_key (catalog_of e) (id_of e) \/
        k ∈ map (section_key (catalog_of e) (id_of e)) (top_sections secs)) then None else contents r !! k)) as Hruns.
  { apply runs_bind. eapply runs_mono; [apply remove_sections_runs|]. intros _ ks1 [Hdel Hkeep].
    apply runs_bind. unfold RemoveKey. apply runs_bind, runs_send. intros rep _. apply runs_ret, runs_ret.
    split; [done|]. intros k. cbn [redis snd].
    destruct (decide (k = subkeys_key (catalog_of e) (id_of e))) as [->|Hne].
    - rewrite lookup_delete_eq, decide_True; [done|by left].
    - rewrite lookup_delete_ne by done. destruct (decide _) as [[?|Hk]|Hk]; [done|by apply Hdel|].
      apply Hkeep. tauto. }
  destruct (Hruns (cr_client s') Hr1 Hc1) as (ok & r' & Er & Hr' & -> & Hks). by exists r'.
Qed.

(** ** Properties *)

(** C8. What the store returns after a save: every key gives the last value written
    under it; a key that was not written again keeps its old value if its section was
    written, and loses it otherwise. The save succeeds, the entity stays well formed and
    no key of another entity changes. *)
Theorem saved_then_read {R} `{Redis R} (r : R) (catalog id : string) (l : list (string * string * string))
    (index : list string) (Hr : is_connected r = true) (Hok : entity_ok catalog id (contents r) index) :
  exists r', ClusterEntityWriter_End (mkClusterWriter (mkWriterBase EmptyString catalog id) l) r = Some (true, r') /\
    (exists index', entity_ok catalog id (contents r') index') /\
    (forall sec key dflt, exists cer,
       Value key dflt (mkClusterReader (mkReaderBase sec catalog id true) false false ∅ false [] r') =
       Some (default dflt (saved_value catalog id l (contents r) index (section_key catalog id sec) key), cer)) /\
    forall k, k <> subkeys_key catalog id -> (forall sec, k <> section_key catalog id sec) ->
      contents r' !! k = contents r !! k.
Proof.
  destruct (End_runs catalog id EmptyString l _ _ Hok r Hr eq_refl) as (ok & r' & E & Hr' & -> & index' & [Hok' Hcont _ Hframe]).
  exists r'. split; [done|]. split; [by exists index'|]. split; [|done]. intros sec key dflt.
  destruct (gives_Value (H0 := ClusterReaderSpec (contents r')) _ _ key dflt _ (fresh_answers r' sec catalog id true index' Hr' Hok') eq_refl) as (cer & Ev & _).
  exists cer. rewrite Ev. cbn [r_section]. by rewrite Hcont.
Qed.

Definition example_values : list (string * string * string) :=
  [(EmptyString, "NAME", "Anubia"); ("PREFS", "sound", "on"); ("PREFS", "sound", "off")]%string.

Definition example_store : Keyspace :=
  <["Clan:7^_SUBKEYS_" := RedisList ["Clan:7:DEFAULT"; "Clan:7:OLD"]%string]>
  (<["Clan:7:DEFAULT" := RedisHash {["MOTD" := "hello"]}]>
  (<["Clan:7:OLD" := RedisHash {["x" := "1"]}]> ∅))%string.

Lemma example_store_ok : entity_ok "Clan" "7" example_store ["Clan:7:DEFAULT"; "Clan:7:OLD"]%string.
Proof.
  split; [done| | |].
  - intros sec. unfold hash_at, example_store. rewrite lookup_insert_ne by exact (section_key_index "Clan" "7" sec).
    destruct (decide (section_key "Clan" "7" sec = "Clan:7:DEFAULT"%string)) as [->|H1]; [rewrite lookup_insert_eq; by eexists|].
    rewrite lookup_insert_ne by (by apply not_eq_sym).
    destruct (decide (section_key "Clan" "7" sec = "Clan:7:OLD"%string)) as [->|H2]; [rewrite lookup_insert_eq; by eexists|].
    rewrite lookup_insert_ne by (by apply not_eq_sym). by eexists.
  - intros k Hk. apply elem_of_cons in Hk as [->|Hk]; [by exists EmptyString|].
    apply elem_of_cons in Hk as [->|Hk]; [by exists "OLD"%string|by apply elem_of_nil in Hk].
  - apply (bool_decide_eq_true_1 _). by vm_compute.
Qed.

Lemma saved_then_read_witness :
  saved_value "Clan" "7" example_values example_store ["Clan:7:DEFAULT"; "Clan:7:OLD"]%string (section_key "Clan" "7" "PREFS") "sound" = Some "off"%string /\
  exists r', ClusterEntityWriter_End (mkClusterWriter (mkWriterBase EmptyString "Clan" "7") example_values) example_store = Some (true, r').
Proof.
  split; [by vm_compute|].
  destruct (saved_then_read (H:=Keyspace_redis) example_store "Clan" "7" example_values _ eq_refl example_store_ok) as (r' & E & _).
  by exists r'.
Defined.

(** A list of strings survives being stored, whatever characters are in it, except
    for empty strings in front. *)
Theorem stored_list_roundtrip (l : list string) : list_of_value EmptyString (join_items l) = Some (drop_empty l).
Proof. by apply list_roundtrip; left. Qed.
