(* ===== verification/StdSort.v ===== *)
(** * Sorting with the C++ library

    [std::sort] with a comparison [lt] that is a strict weak order, as the class
    [StdSort]: documented behaviour of the library. Elements that compare equal come in
    any order. Merge sort is an instance. *)

From stdpp Require Import sorting.
From S2P Require Import Prelude.

Record strict_weak {A} (lt : A -> A -> bool) : Prop := mkStrictWeak {
  lt_asym a b : lt a b = true -> lt b a = false;
  lt_split a b c : lt a c = true -> lt a b = true \/ lt b c = true }.

Class StdSort (A : Type) := {
  std_sort : (A -> A -> bool) -> list A -> list A;
  std_sort_perm lt l : strict_weak lt -> std_sort lt l ≡ₚ l;
  std_sort_sorted lt l : strict_weak lt -> StronglySorted (fun a b => lt b a = false) (std_sort lt l) }.

(** An instance: merge sort. *)
Section MergeSort.
Context {A : Type} (lt : A -> A -> bool).

Definition not_after (a b : A) : Prop := lt b a = false.

#[local] Instance not_after_dec : RelDecision not_after.
Proof. intros a b. unfold not_after. apply _. Defined.

Definition merge_by (l : list A) : list A := merge_sort not_after l.

Lemma merge_by_sorted l : strict_weak lt -> StronglySorted not_after (merge_by l).
Proof.
  intros [Hasym Hsplit]. apply StronglySorted_merge_sort.
  - intros a b c Hab Hbc. unfold not_after in *. destruct (lt c a) eqn:E; [|done].
    destruct (Hsplit c b a E); congruence.
  - intros a b. unfold not_after. destruct (lt b a) eqn:E; [right; auto|by left].
Qed.
End MergeSort.

#[export, refine] Instance merge_std_sort A : StdSort A := {| std_sort := merge_by |}.
Proof. - intros lt l _. apply merge_sort_Permutation. - intros lt l. apply merge_by_sorted. Defined.

(** Comparisons by a number. *)
Lemma strict_weak_lt {A} (f : A -> Z) : strict_weak (fun a b => f a <? f b).
Proof. split; [intros a b|intros a b c]; rewrite ?Z.ltb_lt, ?Z.ltb_ge; lia. Qed.

Lemma strict_weak_flip {A} (lt : A -> A -> bool) : strict_weak lt -> strict_weak (fun a b => lt b a).
Proof. intros [Ha Hs]. split; [auto|]. intros a b c H. destruct (Hs c b a H); auto. Qed.

Lemma StronglySorted_weaken {A} (R1 R2 : A -> A -> Prop) l :
  (forall a b, R1 a b -> R2 a b) -> StronglySorted R1 l -> StronglySorted R2 l.
Proof. intros HR. induction 1 as [|a l _ IH Hf]; constructor; [done|]. eapply list.Forall_impl; [exact Hf|auto]. Qed.
