(* ===== verification/Scheduler.v ===== *)
(** * Scheduler: tasks that run later

    Models [src/SOURCE/Server/Scheduler.h] and [Scheduler.cpp]: the timed tasks, in the
    order of their times, and the queue of tasks to run now. A task is a value of [Task],
    which [perform] runs on the [World] (and the scheduler, which it may use). [Pool], which
    hands a task to other threads, is not modelled. The tasks are sorted
    by [std::sort]: equal times come in any order. *)

From S2P Require Import Prelude StdSort.

Definition MAX_TASKS_PER_CYCLE : Z := 5.

Section Scheduler.
Context {Task : Type}.

Record ScheduledTimerTask := mkTimerTask { mWhen : Z; mTaskId : Z; mTask : Task }.

Definition ScheduledTaskSort (l1 l2 : ScheduledTimerTask) : bool := mWhen l1 <? mWhen l2.

Record Scheduler := mkScheduler {
  mRunning : bool; mNextRun : Z; mNextTaskId : Z; scheduled : list ScheduledTimerTask;
  mQueue : list Task;
  mStopped : bool  (* the queue was stopped, and not restarted *) }.

Definition Scheduler_new : Scheduler := mkScheduler false 0 0 [] [] false.
Definition Init (s : Scheduler) : Scheduler := mkScheduler true (mNextRun s) (mNextTaskId s) (scheduled s) (mQueue s) (mStopped s).
Definition IsRunning (s : Scheduler) : bool := mRunning s.

(** [Shutdown] stops the queue of the [Schedulable] too. *)
Definition Shutdown (s : Scheduler) : Scheduler :=
  if mRunning s then mkScheduler false (mNextRun s) (mNextTaskId s) [] (mQueue s) true else s.

Definition Submit (task : Task) (s : Scheduler) : Scheduler :=
  mkScheduler (mRunning s) (mNextRun s) (mNextTaskId s) (scheduled s) (mQueue s ++ [task]) (mStopped s).

Definition Cancel (id : Z) (s : Scheduler) : Scheduler :=
  match find_idx (fun t => mTaskId t =? id) (scheduled s) with
  | Some i => mkScheduler (mRunning s) (mNextRun s) (mNextTaskId s) (delete i (scheduled s)) (mQueue s) (mStopped s)
  | None => s
  end.

Context `{!StdSort ScheduledTimerTask}.

Definition head_time (l : list ScheduledTimerTask) : Z := match l with [] => 0 | t :: _ => mWhen t end.

(** The identifier of the task and the scheduler. *)
Definition Schedule (g_ServerTime g_MainSleep : Z) (task : Task) (when_ : Z) (s : Scheduler) : Z * Scheduler :=
  let when_ := if when_ <=? g_ServerTime then u64 (g_ServerTime + g_MainSleep) else when_ in
  let id := mNextTaskId s in
  let l := std_sort ScheduledTaskSort (scheduled s ++ [mkTimerTask when_ id task]) in
  (id, mkScheduler (mRunning s) (head_time l) (i32 (id + 1)) l (mQueue s) (mStopped s)).

Definition ScheduleIn (g_ServerTime g_MainSleep : Z) (task : Task) (wait : Z) (s : Scheduler) : Z * Scheduler :=
  Schedule g_ServerTime g_MainSleep task (u64 (wait + g_ServerTime)) s.

(** The [while] loop of [RunScheduledTasks]: at most [c] more tasks go to the queue.
    [now] is the clock of the platform, read again for every task. *)
Fixpoint submit_due (now : nat -> Z) (c : nat) (s : Scheduler) : Scheduler :=
  match c with
  | O => s
  | S c' =>
      if mRunning s && (0 <? mNextRun s) then
        match scheduled s with
        | [] => s
        | t :: l =>
            if mNextRun s <? now c
            then submit_due now c'
                   (Submit (mTask t) (mkScheduler (mRunning s) (head_time l) (mNextTaskId s) l (mQueue s) (mStopped s)))
            else s
        end
      else s
  end.

Context {World : Type} (perform : Task -> World * Scheduler -> option (World * Scheduler)).

(** [mQueue.run()]: until the queue is empty, what tasks add included, or stopped. *)
Fixpoint run_queue (fuel : nat) (ws : World * Scheduler) : Res (World * Scheduler) :=
  let s := ws.2 in
  if mStopped s then Ret ws
  else match mQueue s with
  | [] => Ret ws
  | t :: q =>
      match fuel with
      | O => NoFuel
      | S fuel' =>
          match perform t (ws.1, mkScheduler (mRunning s) (mNextRun s) (mNextTaskId s) (scheduled s) q false) with
          | Some ws' => run_queue fuel' ws'
          | None => Undef
          end
      end
  end.

Definition restart (s : Scheduler) : Scheduler :=
  mkScheduler (mRunning s) (mNextRun s) (mNextTaskId s) (scheduled s) (mQueue s) false.

(** [Scheduler::RunScheduledTasks], with that of [Schedulable] at its end. *)
Definition RunScheduledTasks (fuel : nat) (now : nat -> Z) (ws : World * Scheduler) : Res (World * Scheduler) :=
  ws' ← run_queue fuel (ws.1, submit_due now (Z.to_nat MAX_TASKS_PER_CYCLE) ws.2);
  mret (ws'.1, restart ws'.2).

End Scheduler.

Arguments ScheduledTimerTask Task : clear implicits.
Arguments Scheduler Task : clear implicits.
