(* ===== verification/SchedulerFacts.v ===== *)
(** * Scheduler: order, liveness, and early tasks

    The timed tasks stay sorted with distinct identifiers ([operations_keep_wf]); cycles
    hand over exactly the tasks whose time has passed ([cycles_submit_due]), unless the
    first task was cancelled: then the next one runs early ([cancelled_head_runs_next]). *)

From stdpp Require Import sorting.
From S2P Require Import Prelude StdSort Scheduler.

Section Facts.
Context {Task : Type} `{!StdSort (ScheduledTimerTask Task)}.

Implicit Types (s : Scheduler Task) (t : ScheduledTimerTask Task) (l : list (ScheduledTimerTask Task)).

Lemma ScheduledTaskSort_weak : strict_weak (@ScheduledTaskSort Task).
Proof. apply (strict_weak_lt mWhen). Qed.

Definition earlier (a b : ScheduledTimerTask Task) : Prop := mWhen a <= mWhen b.

(** The identifiers stay below the bound of [int]: the counter has not wrapped. *)
Record sched_wf s : Prop := mkSchedWf {
  wf_order : StronglySorted earlier (scheduled s);
  wf_ids : NoDup (mTaskId <$> scheduled s);
  wf_below : Forall (fun t => mTaskId t < mNextTaskId s) (scheduled s);
  wf_positive : Forall (fun t => 0 < mWhen t) (scheduled s);
  wf_next : scheduled s <> [] -> 0 < mNextRun s <= head_time (scheduled s) }.

(** The next run is that of the first task: true until a task is cancelled. *)
Definition next_exact s : Prop := scheduled s <> [] -> mNextRun s = head_time (scheduled s).

Lemma head_time_In l : l <> [] -> Forall (fun t => 0 < mWhen t) l -> 0 < head_time l.
Proof. destruct l as [|t l]; [done|]. by intros _ [? _]%list.Forall_cons. Qed.

Lemma scheduled_Schedule now sleep task w s :
  scheduled (Schedule now sleep task w s).2 ≡ₚ
    mkTimerTask (if w <=? now then u64 (now + sleep) else w) (mNextTaskId s) task :: scheduled s.
Proof.
  unfold Schedule. cbn [scheduled snd]. rewrite std_sort_perm by apply ScheduledTaskSort_weak. by rewrite Permutation_app_comm.
Qed.

Lemma Schedule_wf now sleep task w s : sched_wf s -> 0 <= mNextTaskId s < 2 ^ 31 - 1 ->
  0 < (if w <=? now then u64 (now + sleep) else w) ->
  sched_wf (Schedule now sleep task w s).2 /\ next_exact (Schedule now sleep task w s).2.
Proof.
  intros [Ho Hi Hb Hp Hn] Hid Hw. pose proof (scheduled_Schedule now sleep task w s) as Hperm.
  set (t := mkTimerTask _ _ _) in Hperm.
  assert (mNextTaskId (Schedule now sleep task w s).2 = mNextTaskId s + 1) as Hnext.
  { unfold Schedule. cbn. apply i32_id. unfold in_signed. cbn. lia. }
  assert (Forall (fun t0 => 0 < mWhen t0) (scheduled (Schedule now sleep task w s).2)) as Hp'.
  { rewrite Hperm. constructor; [exact Hw|done]. }
  split; [split|].
  - eapply StronglySorted_weaken; [|apply std_sort_sorted, ScheduledTaskSort_weak].
    intros a b. unfold ScheduledTaskSort, earlier. by rewrite Z.ltb_ge.
  - rewrite Hperm. cbn. apply list.NoDup_cons. split; [|done]. intros (t0 & E & Hin)%list_elem_of_fmap.
    apply (proj1 (list.Forall_forall _ _) Hb) in Hin. lia.
  - rewrite Hperm, Hnext. constructor; [cbn; lia|]. eapply list.Forall_impl; [exact Hb|]. cbn. lia.
  - done.
  - intros Hne. change (mNextRun (Schedule now sleep task w s).2) with (head_time (scheduled (Schedule now sleep task w s).2)).
    split; [|lia]. by apply head_time_In.
  - done.
Qed.

Lemma head_time_sorted l t : StronglySorted earlier l -> t ∈ l -> head_time l <= mWhen t.
Proof.
  intros Hs Ht. destruct Hs as [|a l Hs Hf]; [by apply elem_of_nil in Ht|]. cbn.
  apply elem_of_cons in Ht as [->|Ht]; [lia|]. by apply (proj1 (list.Forall_forall _ _) Hf) in Ht.
Qed.

Lemma StronglySorted_delete i l : StronglySorted earlier l -> StronglySorted earlier (delete i l).
Proof.
  intros Hs. revert i. induction Hs as [|a l Hs IH Hf]; intros [|i]; cbn; [constructor..|done|].
  constructor; [apply IH|]. by apply Forall_delete.
Qed.

Lemma Cancel_wf id s : sched_wf s -> sched_wf (Cancel id s).
Proof.
  intros [Ho Hi Hb Hp Hn]. unfold Cancel. destruct (find_idx _ (scheduled s)) as [i|]; [|by split].
  split; cbn.
  - by apply StronglySorted_delete.
  - eapply sublist_NoDup; [exact Hi|]. apply fmap_sublist, sublist_delete.
  - by apply Forall_delete.
  - by apply Forall_delete.
  - intros Hne. assert (scheduled s <> []) as Hne'.
    { intros E. apply Hne. rewrite E. by destruct i. }
    destruct (Hn Hne') as [H1 H2]. split; [done|]. etrans; [exact H2|].
    destruct (delete i (scheduled s)) as [|b l] eqn:E; [done|]. cbn. apply head_time_sorted; [done|].
    assert (b ∈ delete i (scheduled s)) as Hb' by (rewrite E; by left).
    eapply elem_of_submseteq; [exact Hb'|]. apply sublist_submseteq, sublist_delete.
Qed.

(** Cancelling removes the task with the identifier, and no other. *)
Lemma Cancel_scheduled id s : NoDup (mTaskId <$> scheduled s) ->
  scheduled (Cancel id s) = List.filter (fun t => negb (mTaskId t =? id)) (scheduled s).
Proof.
  unfold Cancel. intros Hnd. destruct (find_idx _ (scheduled s)) as [i|] eqn:E.
  - cbn [scheduled]. revert i E. induction (scheduled s) as [|a l IH]; intros i E; [done|].
    cbn in Hnd. apply list.NoDup_cons in Hnd as [Ha Hnd]. cbn in E |- *. destruct (Z.eqb_spec (mTaskId a) id) as [Hid|Hid].
    + injection E as <-. cbn. clear -Ha Hid. induction l as [|b l IHl]; [done|]. cbn in Ha |- *.
      apply not_elem_of_cons in Ha as [Hab Ha]. assert (mTaskId b <> id) as Hb%Z.eqb_neq by congruence.
      rewrite Hb. cbn. by rewrite <- IHl.
    + destruct (find_idx _ l) as [j|] eqn:Ej; [|done]. injection E as <-. cbn [negb]. by rewrite <- (IH Hnd j eq_refl).
  - apply find_idx_None in E. clear Hnd. induction E as [|a l Ha _ IH]; [done|]. cbn. rewrite Ha. cbn. by rewrite <- IH.
Qed.

(** ** Cycles *)

Definition due (now : Z) s : list (ScheduledTimerTask Task) := List.filter (fun t => mWhen t <? now) (scheduled s).
Definition later (now : Z) s : list (ScheduledTimerTask Task) := List.filter (fun t => negb (mWhen t <? now)) (scheduled s).

Lemma sorted_later now a l : StronglySorted earlier (a :: l) -> (mWhen a <? now) = false ->
  List.filter (fun t => mWhen t <? now) (a :: l) = [].
Proof.
  intros [_ Hf]%StronglySorted_inv Ha. cbn. rewrite Ha. to_prop. induction Hf as [|b l Hb _ IH]; [done|].
  cbn. unfold earlier in Hb. destruct (Z.ltb_spec (mWhen b) now); [lia|done].
Qed.

(** One task handed over. *)
Definition shift (t : ScheduledTimerTask Task) l s : Scheduler Task :=
  Submit (mTask t) (mkScheduler (mRunning s) (head_time l) (mNextTaskId s) l (mQueue s) (mStopped s)).

Lemma shift_wf t l s : sched_wf s -> scheduled s = t :: l -> sched_wf (shift t l s) /\ next_exact (shift t l s).
Proof.
  intros [Ho Hi Hb Hp Hn] E. rewrite E in *. apply StronglySorted_inv in Ho as [Ho _].
  cbn in Hi. apply list.NoDup_cons in Hi as [_ Hi]. apply list.Forall_cons in Hb as [_ Hb], Hp as [_ Hp].
  split; [|done]. split; try done. cbn. intros Hne. split; [by apply head_time_In|lia].
Qed.

Lemma submit_due_exact now c s : sched_wf s -> next_exact s -> mRunning s = true ->
  let s' := submit_due (fun _ => now) c s in
  sched_wf s' /\ next_exact s' /\ mRunning s' = true /\
  mQueue s' = mQueue s ++ map mTask (take c (due now s)) /\ due now s' = drop c (due now s) /\ later now s' = later now s.
Proof.
  revert s. induction c as [|c IH]; intros s Hwf Hex Hrun; cbn [submit_due].
  - by rewrite app_nil_r.
  - rewrite Hrun. destruct (scheduled s) as [|t l] eqn:E.
    + assert (due now s = []) as Hnone by (unfold due; by rewrite E). rewrite Hnone.
      destruct (0 <? mNextRun s); cbn [andb take drop map]; by rewrite app_nil_r.
    + destruct (wf_next s Hwf) as [Hpos _]; [by rewrite E|].
      assert (mNextRun s = mWhen t) as Hnr by (rewrite Hex; rewrite E; done).
      destruct (Z.ltb_spec 0 (mNextRun s)); [|lia]. cbn [andb]. rewrite Hnr. destruct (mWhen t <? now) eqn:Hdue.
      * destruct (shift_wf t l s Hwf E) as [Hwf' Hex']. unfold shift in Hwf', Hex'.
        destruct (IH _ Hwf' Hex' Hrun) as (H1 & H2 & H3 & H4 & H5 & H6).
        rewrite Hrun in H1, H2, H3, H4, H5, H6. split; [done|]. split; [done|]. split; [done|].
        unfold due, later in *. rewrite E. cbn [List.filter]. rewrite Hdue. cbn [negb take drop map].
        cbn [scheduled Submit mQueue] in H4, H5, H6. rewrite H4, H5, H6. by rewrite <- app_assoc.
      * assert (due now s = []) as Hnone.
        { unfold due. rewrite E. apply sorted_later; [|done]. rewrite <- E. apply Hwf. }
        rewrite Hnone. cbn. by rewrite app_nil_r.
Qed.

Lemma cycles_exact now n s : sched_wf s -> next_exact s -> mRunning s = true ->
  let s' := Nat.iter n (submit_due (fun _ => now) (Z.to_nat MAX_TASKS_PER_CYCLE)) s in
  sched_wf s' /\ next_exact s' /\ mRunning s' = true /\
  mQueue s' = mQueue s ++ map mTask (take (5 * n) (due now s)) /\ due now s' = drop (5 * n) (due now s) /\ later now s' = later now s.
Proof.
  intros Hwf Hex Hrun. induction n as [|n (H1 & H2 & H3 & H4 & H5 & H6)]; [by rewrite app_nil_r|].
  rewrite Nat.iter_succ. cbv zeta. destruct (submit_due_exact now (Z.to_nat MAX_TASKS_PER_CYCLE) _ H1 H2 H3) as (G1 & G2 & G3 & G4 & G5 & G6).
  split; [done|]. split; [done|]. split; [done|]. rewrite G4, G5, G6, H4, H5, H6.
  change (Z.to_nat MAX_TASKS_PER_CYCLE) with 5%nat. split; [|split; [|done]].
  - rewrite <- app_assoc, <- map_app. do 2 f_equal. rewrite take_take_drop. f_equal. lia.
  - rewrite drop_drop. f_equal. lia.
Qed.

(** ** Sequences of operations *)

Inductive Operation :=
| DoSchedule (now sleep : Z) (task : Task) (when_ : Z)
| DoCancel (id : Z)
| DoSubmit (task : Task)
| DoCycle (now : nat -> Z).

Definition operate s (op : Operation) : Scheduler Task :=
  match op with
  | DoSchedule now sleep task when_ => (Schedule now sleep task when_ s).2
  | DoCancel id => Cancel id s
  | DoSubmit task => Submit task s
  | DoCycle now => submit_due now (Z.to_nat MAX_TASKS_PER_CYCLE) s
  end.

(** The time a task is given is not zero. *)
Definition operation_ok (op : Operation) : bool :=
  match op with DoSchedule now sleep _ w => 0 <? (if w <=? now then u64 (now + sleep) else w) | _ => true end.

Lemma submit_due_wf now c s : sched_wf s -> sched_wf (submit_due now c s) /\ mNextTaskId (submit_due now c s) = mNextTaskId s.
Proof.
  revert s. induction c as [|c IH]; intros s Hwf; cbn [submit_due]; [done|].
  destruct (mRunning s && _); [|done]. destruct (scheduled s) as [|t l] eqn:E; [done|].
  destruct (mNextRun s <? _); [|done]. apply (IH (shift t l s)). by apply shift_wf.
Qed.

Lemma operate_wf s op : sched_wf s -> operation_ok op = true -> 0 <= mNextTaskId s < 2 ^ 31 - 1 ->
  sched_wf (operate s op) /\ mNextTaskId s <= mNextTaskId (operate s op) <= mNextTaskId s + 1.
Proof.
  intros Hwf Hop Hid. destruct op as [now sleep task w|id|task|now]; cbn [operate].
  - cbn in Hop. apply Z.ltb_lt in Hop. destruct (Schedule_wf now sleep task w s Hwf Hid Hop) as [H1 _].
    split; [done|]. unfold Schedule. cbn [mNextTaskId snd]. rewrite i32_id; [lia|]. unfold in_signed. cbn. lia.
  - split; [by apply Cancel_wf|]. unfold Cancel. destruct (find_idx _ _); cbn; lia.
  - split; [|cbn; lia]. destruct Hwf. by split.
  - destruct (submit_due_wf now (Z.to_nat MAX_TASKS_PER_CYCLE) s Hwf) as [H1 H2]. split; [done|lia].
Qed.

Lemma operations_wf ops s : sched_wf s -> forallb operation_ok ops = true ->
  0 <= mNextTaskId s -> mNextTaskId s + Z.of_nat (length ops) < 2 ^ 31 -> sched_wf (fold_left operate ops s).
Proof.
  revert s. induction ops as [|op ops IH]; intros s Hwf Hops H0 Hlen; [done|].
  cbn in Hops, Hlen |- *. apply andb_true_iff in Hops as [Hop Hops].
  destruct (operate_wf s op Hwf Hop) as [H1 H2]; [lia|]. apply IH; [done..|lia|lia].
Qed.

End Facts.

(** ** Properties *)

(** C36. Whatever is scheduled, cancelled, submitted and run, the tasks stay in the order
    of their times with distinct identifiers, all below the counter of identifiers, and
    the next run is never after the first task, so that no task is late. *)
Theorem operations_keep_wf {Task} `{!StdSort (ScheduledTimerTask Task)} (ops : list (Operation (Task:=Task)))
    (Hops : forallb operation_ok ops = true) (Hlen : Z.of_nat (length ops) < 2 ^ 31) :
  sched_wf (fold_left operate ops (Init Scheduler_new)).
Proof.
  apply operations_wf; [|done|done|cbn; lia]. split; cbn; try constructor; done.
Qed.

Definition example_operations : list (Operation (Task:=string)) :=
  [DoSchedule 1000 1 "a" 5000; DoSchedule 1000 1 "b" 2000; DoSchedule 1000 1 "c" 500; DoCancel 1; DoCycle (fun _ => 3000)]%string.

Lemma operations_keep_wf_witness :
  sched_wf (fold_left operate example_operations (Init Scheduler_new)) /\
  map mTask (scheduled (fold_left operate example_operations (Init Scheduler_new))) = ["a"]%string.
Proof.
  split; [apply (operations_keep_wf example_operations); [by vm_compute|by vm_compute]|by vm_compute].
Defined.

(** C12. As long as no first task was cancelled, [n] cycles at a time [now] hand over the
    first [5 n] tasks whose time is before [now], in the order of their times, and no
    others; the tasks whose time has not come stay. Enough cycles hand over all of them. *)
Theorem cycles_submit_due {Task} `{!StdSort (ScheduledTimerTask Task)} (s : Scheduler Task) (now : Z) (n : nat)
    (Hwf : sched_wf s) (Hex : next_exact s) (Hrun : mRunning s = true) :
  let s' := Nat.iter n (submit_due (fun _ => now) (Z.to_nat MAX_TASKS_PER_CYCLE)) s in
  mQueue s' = mQueue s ++ map mTask (take (5 * n) (due now s)) /\
  later now s' = later now s /\
  (length (due now s) <= 5 * n -> due now s' = [])%nat.
Proof.
  destruct (cycles_exact now n s Hwf Hex Hrun) as (_ & _ & _ & H4 & H5 & H6). cbv zeta. split; [done|].
  split; [done|]. intros Hn. rewrite H5. by apply drop_ge.
Qed.

Definition example_schedule : Scheduler string :=
  (Schedule 1000 1 "late" 9000 (Schedule 1000 1 "soon" 2000 (Init Scheduler_new)).2).2%string.

Lemma example_schedule_ok : sched_wf example_schedule /\ next_exact example_schedule.
Proof.
  unfold example_schedule. apply Schedule_wf; [|by vm_compute|by vm_compute].
  apply Schedule_wf; [|by vm_compute|by vm_compute]. split; cbn; try constructor; done.
Qed.

Lemma cycles_submit_due_witness :
  mQueue (submit_due (fun _ => 3000) 5 example_schedule) = ["soon"]%string.
Proof.
  destruct (cycles_submit_due example_schedule 3000 1) as (H & _); [apply example_schedule_ok..|done|].
  etrans; [exact H|]. by vm_compute.
Defined.

(** When the first task is cancelled, the time of the next run stays: at that time the
    next task is handed over, however far its own time is. *)
Theorem cancelled_head_runs_next {Task} `{!StdSort (ScheduledTimerTask Task)} (s : Scheduler Task) (a b : ScheduledTimerTask Task)
    (l : list (ScheduledTimerTask Task)) (now : Z) (Hwf : sched_wf s) (Hex : next_exact s) (Hrun : mRunning s = true)
    (Hs : scheduled s = a :: b :: l) (Ha : mWhen a < now) (Hb : now <= mWhen b) :
  mQueue (submit_due (fun _ => now) (Z.to_nat MAX_TASKS_PER_CYCLE) s) = mQueue s ++ [mTask a] /\
  mQueue (submit_due (fun _ => now) (Z.to_nat MAX_TASKS_PER_CYCLE) (Cancel (mTaskId a) s)) = mQueue s ++ [mTask b].
Proof.
  pose proof (wf_order _ Hwf) as Ho. rewrite Hs in Ho. apply StronglySorted_inv in Ho as [Ho _].
  destruct (wf_next _ Hwf) as [Hpos _]; [by rewrite Hs|].
  assert (mNextRun s = mWhen a) as Hnr by (rewrite Hex; rewrite Hs; done). split.
  - destruct (submit_due_exact now (Z.to_nat MAX_TASKS_PER_CYCLE) s Hwf Hex Hrun) as (_ & _ & _ & -> & _).
    do 2 f_equal. unfold due. rewrite Hs. pose proof (sorted_later now b l Ho ltac:(apply Z.ltb_ge; lia)) as Hl.
    cbn [List.filter] in Hl |- *. destruct (Z.ltb_spec (mWhen a) now); [|lia]. by rewrite Hl.
  - unfold Cancel. rewrite Hs. cbn [find_idx]. rewrite Z.eqb_refl. cbn [delete list_delete].
    change (Z.to_nat MAX_TASKS_PER_CYCLE) with 5%nat. cbn [submit_due mRunning mNextRun scheduled]. rewrite Hrun.
    destruct (Z.ltb_spec 0 (mNextRun s)); [|lia]. cbn [andb]. destruct (Z.ltb_spec (mNextRun s) now); [|lia].
    cbn [Submit mRunning mNextRun scheduled mNextTaskId mQueue mStopped]. destruct l as [|c l]; cbn [head_time].
    + by destruct (0 <? 0).
    + apply StronglySorted_inv in Ho as [_ [Hbc _]%list.Forall_cons]. unfold earlier in Hbc.
      destruct (Z.ltb_spec 0 (mWhen c)); [|done]. cbn [andb].
      destruct (Z.ltb_spec (mWhen c) now); [lia|done].
Qed.

Lemma cancelled_head_runs_next_witness :
  mQueue (submit_due (fun _ => 3000) 5 (Cancel 0 example_schedule)) = ["late"]%string.
Proof.
  destruct (cancelled_head_runs_next example_schedule (mkTimerTask 2000 0 "soon") (mkTimerTask 9000 1 "late") [] 3000) as [_ H];
    [apply example_schedule_ok..|by vm_compute|by vm_compute|done|done|exact H].
Defined.
