(* ===== verification/Auction.v ===== *)
(** * Auction house: data, storage, searches and messages

    Models [src/SOURCE/Server/AuctionHouse.h] and the parts of [AuctionHouse.cpp] that do
    not touch players: the auctioned item with its bids, how it is written to and read from
    the store of [Cluster], the messages to the clients, and the search with its orders.
    [unsigned long] and [time_t] are 64 bits. *)

From S2P Require Import Prelude StdSort ByteBuffer Text Items Inventory Entities Cluster.

Definition KEYPREFIX_AUCTION_ITEM : string := "AuctionItem".
Definition ID_NEXT_AUCTION_ITEM_ID : string := "NextAuctionItemID".
Definition LISTPREFIX_AUCTION_ITEMS : string := "AuctionItems".

Module AuctionHouseError.
Definition NONE : Z := 0.
Definition SOLD_OUT : Z := 1.
Definition NOT_ENOUGH_COPPER : Z := 2.
Definition NOT_ENOUGH_CREDITS : Z := 3.
Definition NOT_YET_AVAILABLE : Z := 4.
Definition NO_LONGER_AVAILABLE : Z := 5.
Definition NOT_ENOUGH_FREE_SLOTS : Z := 7.
Definition SERVER_ERROR : Z := 8.

Definition GetDescription (id : Z) : string :=
  switch id
    [(NONE, "No error"); (SOLD_OUT, "Sold out!"); (NOT_ENOUGH_COPPER, "You do not have enough copper!");
     (NOT_ENOUGH_CREDITS, "You do not have enough credits!"); (NOT_YET_AVAILABLE, "This item is not yet available!");
     (NO_LONGER_AVAILABLE, "This item is no longer available!");
     (NOT_ENOUGH_FREE_SLOTS, "You do not have enough slots in your inventory!"); (SERVER_ERROR, "Internal error.")]%string
    "<undefined>"%string.
End AuctionHouseError.

Module AuctionHouseSearchOrder.
Definition REMAINING : Z := 0.
Definition END_TIME : Z := 1.
Definition LEVEL : Z := 2.
Definition QUALITY : Z := 3.
Definition TYPE : Z := 4.
Definition WEAPON_TYPE : Z := 5.
Definition BUY_COPPER : Z := 6.
Definition BUY_CREDITS : Z := 7.
Definition BID_COPPER : Z := 8.
Definition BID_CREDITS : Z := 9.
End AuctionHouseSearchOrder.

(** ** Items and bids *)

Record AuctionHouseBid := mkBid { mBuyer : Z; mCopper : Z; mCredits : Z; mBidTime : Z }.

Definition AuctionHouseBid_new : AuctionHouseBid := mkBid 0 0 0 0.

Record AuctionHouseItem := mkAuction {
  mId : Z; mAuctioneer : Z; mBids : list AuctionHouseBid; mSeller : Z; mStartDate : Z; mEndDate : Z;
  mReserveCopper : Z; mReserveCredits : Z; mBuyItNowCopper : Z; mBuyItNowCredits : Z;
  mSecondsRemaining : Z; mItemId : Z; mLookId : Z; mCount : Z; mCompleted : bool }.

Definition AuctionHouseItem_new : AuctionHouseItem := mkAuction 0 0 [] 0 0 0 0 0 0 0 0 0 0 0 false.

Definition set_mId (id : Z) (it : AuctionHouseItem) : AuctionHouseItem :=
  mkAuction id (mAuctioneer it) (mBids it) (mSeller it) (mStartDate it) (mEndDate it)
    (mReserveCopper it) (mReserveCredits it) (mBuyItNowCopper it) (mBuyItNowCredits it)
    (mSecondsRemaining it) (mItemId it) (mLookId it) (mCount it) (mCompleted it).
Definition set_mBids (l : list AuctionHouseBid) (it : AuctionHouseItem) : AuctionHouseItem :=
  mkAuction (mId it) (mAuctioneer it) l (mSeller it) (mStartDate it) (mEndDate it)
    (mReserveCopper it) (mReserveCredits it) (mBuyItNowCopper it) (mBuyItNowCredits it)
    (mSecondsRemaining it) (mItemId it) (mLookId it) (mCount it) (mCompleted it).
Definition set_mCompleted (c : bool) (it : AuctionHouseItem) : AuctionHouseItem :=
  mkAuction (mId it) (mAuctioneer it) (mBids it) (mSeller it) (mStartDate it) (mEndDate it)
    (mReserveCopper it) (mReserveCredits it) (mBuyItNowCopper it) (mBuyItNowCredits it)
    (mSecondsRemaining it) (mItemId it) (mLookId it) (mCount it) c.

Definition IsExpired (g_ServerTime : Z) (it : AuctionHouseItem) : bool := mEndDate it <=? g_ServerTime.

(** The difference of two unsigned numbers, as a [long]. *)
Definition GetSecondsRemaining (g_ServerTime : Z) (it : AuctionHouseItem) : Z :=
  let timeRemaining := i64 (mEndDate it - g_ServerTime) in
  (if timeRemaining <? 0 then 0 else timeRemaining) / 1000.

(** The bid is accepted when it is higher in copper or in credits than the last one. *)
Definition Bid (now : Z) (creatureDefID copper credits : Z) (it : AuctionHouseItem) : bool * AuctionHouseItem :=
  let add l := set_mBids (l ++ [mkBid creatureDefID copper credits now]) it in
  let without_own := match find_idx (fun b => mBuyer b =? creatureDefID) (mBids it) with
                     | Some i => delete i (mBids it) | None => mBids it end in
  match list.last (mBids it) with
  | None => (true, add without_own)
  | Some high =>
      if (mCopper high <? copper) || (mCredits high <? credits) then
        if mBuyer high =? creatureDefID then (false, it) else (true, add without_own)
      else (false, it)
  end.

(** ** The store *)

Definition bid_text (b : AuctionHouseBid) : string :=
  sprintf_d (mBuyer b) +:+ "," +:+ sprintf_lu (mCopper b) +:+ "," +:+ sprintf_lu (mCredits b) +:+ "," +:+ sprintf_d (mBidTime b).

Definition item_WriteEntity {S} `{EntityWriter S} (it : AuctionHouseItem) (s : S) : S :=
  put_list "Bid" (map bid_text (mBids it))
  (put_int "LookId" (mLookId it)
  (put_int "Count" (mCount it)
  (put_int "ItemID" (mItemId it)
  (put_bool "Completed" (mCompleted it)
  (put_ulong "SecondsRemaining" (mSecondsRemaining it)
  (put_ulong "BuyItNowCredits" (mBuyItNowCredits it)
  (put_ulong "BuyItNowCopper" (mBuyItNowCopper it)
  (put_ulong "ReserveCredits" (mReserveCredits it)
  (put_ulong "ReserveCopper" (mReserveCopper it)
  (put_int "Auctioneer" (mAuctioneer it)
  (put_int "Seller" (mSeller it)
  (put_ulong "EndDate" (mEndDate it)
  (put_ulong "BeginDate" (mStartDate it)
  (writer_Key KEYPREFIX_AUCTION_ITEM (sprintf_d (mId it)) s)))))))))))))).

Definition item_EntityKeys {S} `{EntityReader S} (it : AuctionHouseItem) (s : S) : S :=
  reader_Key KEYPREFIX_AUCTION_ITEM (sprintf_d (mId it)) true s.

(** The loop over the stored bids: [l] is the list of all of them, [a] the parts of one.
    [l[3]] of a shorter list is undefined. *)
Fixpoint read_bids (l rest : list string) (bids : list AuctionHouseBid) : option (list AuctionHouseBid) :=
  match rest with
  | [] => Some bids
  | it :: rest' =>
      if (4 <? length (Split it ","))%nat then
        l0 ← l !! 0%nat; l1 ← l !! 1%nat; l2 ← l !! 2%nat; l3 ← l !! 3%nat;
        read_bids l rest' (bids ++ [mkBid (atoi l0) (strtoul l1) (strtoul l2) (i64 (strtoul l3))])
      else read_bids l rest' bids
  end.

Definition item_ReadEntity {S} `{EntityReader S} (it : AuctionHouseItem) : Act S AuctionHouseItem :=
  start ← ValueULong "BeginDate" 0;
  end_ ← ValueULong "EndDate" 0;
  seller ← ValueInt "Seller" 0;
  auctioneer ← ValueInt "Auctioneer" 0;
  reserveCopper ← ValueULong "ReserveCopper" 0;
  reserveCredits ← ValueULong "ReserveCredits" 0;
  buyCopper ← ValueULong "BuyItNowCopper" 0;
  buyCredits ← ValueULong "BuyItNowCredits" 0;
  seconds ← ValueULong "SectionsRemaining" 0;
  completed ← ValueBool "Completed" false;
  itemId ← ValueInt "ItemID" 0;
  count ← ValueInt "Count" 0;
  look ← ValueInt "LookID" 0;
  l ← ListValue "Bid" EmptyString;
  match read_bids l l (mBids it) with
  | Some bids => mret (mkAuction (mId it) auctioneer bids seller start end_ reserveCopper reserveCredits
                         buyCopper buyCredits seconds itemId look count completed)
  | None => throw
  end.

#[export] Instance AuctionHouseItem_entity : Entity AuctionHouseItem := {|
  WriteEntity S _ it s := (true, item_WriteEntity it s);
  EntityKeys S _ it s := (true, item_EntityKeys it s);
  ReadEntity S _ it := it' ← item_ReadEntity it; mret (true, it') |}.

Section Store.
Context {R : Type} `{Redis R}.

Definition SaveItem (item : AuctionHouseItem) : Act R bool := ClusterManager_WriteEntity item.

(** An item that cannot be read is returned with its identifier all the same. *)
Definition LoadItem (id : Z) : Act R AuctionHouseItem :=
  r ← ClusterManager_ReadEntity (set_mId id AuctionHouseItem_new); mret r.2.

End Store.

(** ** Messages to the clients *)

Definition FormatAuctionItemProto (it : AuctionHouseItem) : string :=
  SafeFormat 32 ("item" +:+ sprintf_d (mItemId it) +:+ ":" +:+ sprintf_d (mLookId it) +:+ ":" +:+ sprintf_d (mCount it) +:+ ":" +:+ sprintf_d 0).

(** The number of bids is printed as an [int]. *)
Definition bid_count (it : AuctionHouseItem) : string := sprintf_d (i32 (Z.of_nat (length (mBids it)))).

Definition WriteAuctionItem (g_ServerTime : Z) (it : AuctionHouseItem) (sellerName : string) : list Z :=
  PutStringUTF (sprintf_d (mId it)) ++ PutStringUTF (FormatAuctionItemProto it) ++ PutStringUTF sellerName ++
  PutStringUTF (sprintf_lu (GetSecondsRemaining g_ServerTime it)) ++
  PutStringUTF (sprintf_lu (mBuyItNowCopper it)) ++ PutStringUTF (sprintf_lu (mBuyItNowCredits it)) ++
  PutStringUTF (bid_count it) ++
  match list.last (mBids it) with
  | Some highBid => PutStringUTF (sprintf_lu (mCopper highBid)) ++ PutStringUTF (sprintf_lu (mCredits highBid))
  | None => PutStringUTF "0" ++ PutStringUTF "0"
  end.

Definition auction_message (kind : Z) (fields : list Z) : list Z :=
  let body := PutByte kind ++ fields in
  PutByte 97 ++ PutShort (Z.of_nat (length body)) ++ body.

(** [BroadcastUpdate] reads the last bid: undefined when there is none. *)
Definition BroadcastUpdate (g_ServerTime auctioneerCID : Z) (it : AuctionHouseItem) : option (list Z) :=
  highBid ← list.last (mBids it);
  Some (auction_message 2 (PutStringUTF (sprintf_d auctioneerCID) ++ PutStringUTF (sprintf_d (mId it)) ++
    PutStringUTF (sprintf_lu (GetSecondsRemaining g_ServerTime it)) ++ PutStringUTF (bid_count it) ++
    PutStringUTF (sprintf_lu (mCopper highBid)) ++ PutStringUTF (sprintf_lu (mCredits highBid)))).

Definition BroadcastRemovedItem (auctioneerCID auctionItemID : Z) : list Z :=
  auction_message 3 (PutStringUTF (sprintf_d auctioneerCID) ++ PutStringUTF (sprintf_d auctionItemID)).

(** [auctioneerCID] is 0 when no instance of the auctioneer is known. *)
Definition new_item_message (g_ServerTime auctioneerCID : Z) (it : AuctionHouseItem) (sellerName : string) : list Z :=
  auction_message 1 (PutStringUTF (sprintf_d auctioneerCID) ++ WriteAuctionItem g_ServerTime it sellerName).

(** ** Searching *)

Record AuctionHouseSearch := mkSearch {
  s_auctioneer : Z; s_itemTypeId : Z; s_qualityId : Z; s_order : Z; s_maxRows : Z; s_reverse : bool;
  s_copperStart : Z; s_copperEnd : Z; s_creditsStart : Z; s_creditsEnd : Z; s_levelStart : Z; s_levelEnd : Z;
  s_search : string }.

Definition AuctionHouseSearch_new : AuctionHouseSearch :=
  mkSearch 0 (-1) (-1) AuctionHouseSearchOrder.REMAINING (-1) false 0 99999999 0 9999999 0 99 EmptyString.

(** [CaseInsensitiveStringFind]: [c2] is what of [pat] is still to be matched. *)
Fixpoint find_ci (pat c2 s : string) : bool :=
  match s with
  | EmptyString => false
  | String c s' =>
      match c2 with
      | EmptyString => false
      | String d c2' =>
          if Ascii.eqb (lower c) (lower d)
          then if (String.length c2' =? 0)%nat then true else find_ci pat c2' s'
          else find_ci pat pat s'
      end
  end.

Definition CaseInsensitiveStringFind (str1 str2 : string) : bool := find_ci str2 str2 str1.

Section Search.
Context {R : Type} `{Redis R} {db : ItemDb} `{!StdSort AuctionHouseItem}.

(** [GetSafePointerByID], which never gives a null pointer. *)
Definition GetSafePointerByID (ID : Z) : ItemDef := default default_item (item_of ID).

Definition search_matches (q : AuctionHouseSearch) (it : AuctionHouseItem) : bool :=
  let itemDef := GetSafePointerByID (mItemId it) in
  ((mAuctioneer it =? 0) || (s_auctioneer q =? mAuctioneer it)) &&
  ((s_itemTypeId q =? -1) || (s_itemTypeId q =? mType itemDef)) &&
  ((s_qualityId q =? -1) || (s_qualityId q =? mQualityLevel itemDef)) &&
  ((s_levelStart q <=? mLevel itemDef) && (mLevel itemDef <=? s_levelEnd q)) &&
  ((s_copperStart q <=? mBuyItNowCopper it) && (mBuyItNowCopper it <=? s_copperEnd q)) &&
  ((mBuyItNowCredits it =? 0) ||
   ((s_creditsStart q <=? mBuyItNowCredits it) && (mBuyItNowCredits it <=? s_creditsEnd q))) &&
  ((String.length (s_search q) =? 0)%nat || CaseInsensitiveStringFind (mDisplayName itemDef) (s_search q)).

(** The loop over the identifiers of the list, [break] at the limit of rows. *)
Fixpoint collect (q : AuctionHouseSearch) (ids : list string) (results : list AuctionHouseItem)
    : Act R (list AuctionHouseItem) :=
  match ids with
  | [] => mret results
  | id :: ids' =>
      r ← ClusterManager_ReadEntity (set_mId (atoi id) AuctionHouseItem_new);
      let '(ok, it) := (r : bool * AuctionHouseItem) in
      if (negb ok : bool) then collect q ids' results
      else if (-1 <? s_maxRows q) && (s_maxRows q <=? Z.of_nat (length results)) then mret results
      else collect q ids' (if search_matches q it then results ++ [it] else results)
  end.

Definition high_bid (f : AuctionHouseBid -> Z) (it : AuctionHouseItem) : Z :=
  match list.last (mBids it) with Some b => f b | None => 0 end.

Definition remainingSort (g_ServerTime : Z) (l1 l2 : AuctionHouseItem) : bool :=
  if (mEndDate l1 <? g_ServerTime) && (g_ServerTime <=? mEndDate l2) then true
  else if (g_ServerTime <=? mEndDate l1) && (mEndDate l2 <? g_ServerTime) then false
  else mEndDate l2 <? mEndDate l1.

(** The other comparisons put the greater value first. *)
Definition descending (f : AuctionHouseItem -> Z) (l1 l2 : AuctionHouseItem) : bool := f l2 <? f l1.
Definition endTimeSort := descending mEndDate.
Definition levelSort := descending (fun it => mLevel (GetSafePointerByID (mItemId it))).
Definition qualitySort := descending (fun it => mQualityLevel (GetSafePointerByID (mItemId it))).
Definition typeSort := descending (fun it => mType (GetSafePointerByID (mItemId it))).
Definition weaponTypeSort := descending (fun it => mWeaponType (GetSafePointerByID (mItemId it))).
Definition buyCopperSort := descending mBuyItNowCopper.
Definition buyCreditsSort := descending mBuyItNowCredits.
Definition bidCopperSort := descending (high_bid mCopper).
Definition bidCreditsSort := descending (high_bid mCredits).

(** The comparison of an order; an unknown order does not sort. *)
Definition search_order (g_ServerTime order : Z) : option (AuctionHouseItem -> AuctionHouseItem -> bool) :=
  switch order
    [(AuctionHouseSearchOrder.REMAINING, Some (remainingSort g_ServerTime)); (AuctionHouseSearchOrder.END_TIME, Some endTimeSort);
     (AuctionHouseSearchOrder.LEVEL, Some levelSort); (AuctionHouseSearchOrder.QUALITY, Some qualitySort);
     (AuctionHouseSearchOrder.TYPE, Some typeSort); (AuctionHouseSearchOrder.WEAPON_TYPE, Some weaponTypeSort);
     (AuctionHouseSearchOrder.BUY_COPPER, Some buyCopperSort); (AuctionHouseSearchOrder.BUY_CREDITS, Some buyCreditsSort);
     (AuctionHouseSearchOrder.BID_COPPER, Some bidCopperSort); (AuctionHouseSearchOrder.BID_CREDITS, Some bidCreditsSort)]
    None.

Definition Search (g_ServerTime : Z) (q : AuctionHouseSearch) : Act R (list AuctionHouseItem) :=
  ids ← GetList LISTPREFIX_AUCTION_ITEMS;
  results ← collect q ids [];
  let sorted := match search_order g_ServerTime (s_order q) with
                | Some lt => std_sort lt results | None => results end in
  mret (if s_reverse q then rev sorted else sorted).

End Search.
