(* ===== verification/AuctionHouse.v ===== *)
(** * Auction house: the manager and the queries of the players

    Models [AuctionHouseManager] of [src/SOURCE/Server/AuctionHouse.cpp] and the handlers
    of [query/AuctionHouseHandlers.cpp]. The [World] holds what they share with the rest of
    the server: characters, those that are in the game, accounts, the store, the scheduler,
    the timers, the depth of the lock [cs], and what was sent. Every function is an action
    on it; [None] is undefined behaviour (a null pointer) or an exception. Which chat
    messages are delivered is a parameter. *)

From S2P Require Import Prelude StdSort ByteBuffer Messages Text Float Items Inventory Entities Cluster Scheduler Auction.

(** ** The world *)

Record CharacterStatSet := mkCss { copper : Z; credits : Z; display_name : string }.

Record CharacterData := mkCharacter { cdef_css : CharacterStatSet; inventory : InventoryManager; pendingChanges : Z; AccountID : Z }.

(** A character in the game: its stats are a copy, its [charPtr] is the character with
    the same definition. *)
Record CreatureInstance := mkInstance { CreatureID : Z; css : CharacterStatSet; simulatorPtr : option Z }.

Record AccountData := mkAccount { Credits : Z; PendingMinorUpdates : Z }.

Record ChatMessage := mkChat { mMessage : string; mSender : string; mRecipient : string; mTell : bool }.

Inductive Output :=
| Chat (m : ChatMessage)
| OfflineMessage (m : ChatMessage)
| ToSimulator (sim : Z) (bytes : list Z)
| ToAllSimulators (bytes : list Z)
| StatUpdate (creature stat : Z)
| NotifyDestroy (itemID : Z)
| ClusterAuction (auctionItemId : Z) (sellerName : string)
| ClusterAuctionItemRemoved (auctionItemId auctioneerCDefID : Z)
| ClusterAuctionItemUpdated (auctionItemId : Z).

(** The tasks the manager schedules. The timer of a new auction holds a pointer to a
    local variable of [Auction], which is gone when it runs: [CompleteDangling]. *)
Inductive AuctionTask :=
| CompleteDangling
| CompleteTask (id : Z)
| ExpireTask (item : AuctionHouseItem).

Record World (R : Type) := mkWorld {
  store : R;
  g_ServerTime : Z;
  clock : Z;                                (* time(NULL) *)
  characters : gmap Z CharacterData;        (* what RequestCharacter finds *)
  players : gmap Z CreatureInstance;        (* by definition, in the game *)
  accounts : gmap Z AccountData;            (* what can be loaded *)
  loaded : gset Z;                          (* the accounts in memory *)
  npcs : gmap Z Z;                          (* instances of NPCs, by definition *)
  sched : Scheduler AuctionTask;
  mTimers : gmap Z Z;
  cs : Z;                                   (* depth of the lock *)
  sent : list Output }.

Arguments mkWorld {R}. Arguments store {R}. Arguments g_ServerTime {R}. Arguments clock {R}.
Arguments characters {R}. Arguments players {R}. Arguments accounts {R}. Arguments loaded {R}.
Arguments npcs {R}. Arguments sched {R}. Arguments mTimers {R}. Arguments cs {R}. Arguments sent {R}.

Record Config := mkConfig {
  UseAccountCredits : bool; MaxAuctionExpiredHours : Z; MinAuctionHours : Z; MaxAuctionHours : Z;
  PercentageCommisionPerHour : Z; BuybackLimit : Z; g_MainSleep : Z; is_master : bool; clusterable : bool }.

Definition STAT_COPPER : Z := 114.
Definition STAT_CREDITS : Z := 115.

Section Manager.
Context {R : Type} `{Redis R} {db : ItemDb} `{!StdSort AuctionHouseItem} `{!StdSort (ScheduledTimerTask AuctionTask)}.
Context (cfg : Config).
(** The name of a creature definition, and who is reached by a message. *)
Context (creature_name : Z -> option string) (delivered : ChatMessage -> World R -> bool).

Abbreviation W := (World R).

Definition set_store (r : R) (w : W) : W :=
  mkWorld r (g_ServerTime w) (clock w) (characters w) (players w) (accounts w) (loaded w) (npcs w) (sched w) (mTimers w) (cs w) (sent w).
Definition upd_character (id : Z) (f : CharacterData -> CharacterData) (w : W) : W :=
  mkWorld (store w) (g_ServerTime w) (clock w) (alter f id (characters w)) (players w) (accounts w) (loaded w) (npcs w) (sched w) (mTimers w) (cs w) (sent w).
Definition upd_player (id : Z) (f : CreatureInstance -> CreatureInstance) (w : W) : W :=
  mkWorld (store w) (g_ServerTime w) (clock w) (characters w) (alter f id (players w)) (accounts w) (loaded w) (npcs w) (sched w) (mTimers w) (cs w) (sent w).
Definition upd_account (id : Z) (f : AccountData -> AccountData) (w : W) : W :=
  mkWorld (store w) (g_ServerTime w) (clock w) (characters w) (players w) (alter f id (accounts w)) (loaded w) (npcs w) (sched w) (mTimers w) (cs w) (sent w).
Definition set_loaded (l : gset Z) (w : W) : W :=
  mkWorld (store w) (g_ServerTime w) (clock w) (characters w) (players w) (accounts w) l (npcs w) (sched w) (mTimers w) (cs w) (sent w).
Definition set_timers (s : Scheduler AuctionTask) (t : gmap Z Z) (w : W) : W :=
  mkWorld (store w) (g_ServerTime w) (clock w) (characters w) (players w) (accounts w) (loaded w) (npcs w) s t (cs w) (sent w).
Definition add_cs (n : Z) (w : W) : W :=
  mkWorld (store w) (g_ServerTime w) (clock w) (characters w) (players w) (accounts w) (loaded w) (npcs w) (sched w) (mTimers w) (cs w + n) (sent w).
Definition emit (o : Output) (w : W) : W :=
  mkWorld (store w) (g_ServerTime w) (clock w) (characters w) (players w) (accounts w) (loaded w) (npcs w) (sched w) (mTimers w) (cs w) (sent w ++ [o]).

Definition Enter : Act W unit := modify (add_cs 1).
Definition Leave : Act W unit := modify (add_cs (-1)).
Definition say (o : Output) : Act W unit := modify (emit o).

(** An action of the store. *)
Definition on_store {A} (m : Act R A) : Act W A := fun w =>
  match m (store w) with Some (a, r) => Some (a, set_store r w) | None => None end.

(** ** Pointers to stats *)

Inductive CssPtr := InstanceCss (id : Z) | CharacterCss (id : Z).

Definition get_css (p : CssPtr) (w : W) : option CharacterStatSet :=
  match p with InstanceCss id => css <$> players w !! id | CharacterCss id => cdef_css <$> characters w !! id end.

Definition upd_css (p : CssPtr) (f : CharacterStatSet -> CharacterStatSet) : W -> W :=
  match p with
  | InstanceCss id => upd_player id (fun c => mkInstance (CreatureID c) (f (css c)) (simulatorPtr c))
  | CharacterCss id => upd_character id (fun c => mkCharacter (f (cdef_css c)) (inventory c) (pendingChanges c) (AccountID c))
  end.

Definition deref_css (p : CssPtr) : Act W CharacterStatSet := fun w =>
  match get_css p w with Some c => Some (c, w) | None => None end.

Definition add_copper (n : Z) (c : CharacterStatSet) : CharacterStatSet := mkCss (i32 (copper c + n)) (credits c) (display_name c).
Definition set_credits (n : Z) (c : CharacterStatSet) : CharacterStatSet := mkCss (copper c) n (display_name c).
Definition add_credits (n : Z) (c : CharacterStatSet) : CharacterStatSet := set_credits (i32 (credits c + n)) c.

Definition set_inventory (m : InventoryManager) (c : CharacterData) : CharacterData :=
  mkCharacter (cdef_css c) m (pendingChanges c) (AccountID c).
Definition pending_change (c : CharacterData) : CharacterData :=
  mkCharacter (cdef_css c) (inventory c) (i32 (pendingChanges c + 1)) (AccountID c).
Definition minor_update (a : AccountData) : AccountData := mkAccount (Credits a) (i32 (PendingMinorUpdates a + 1)).
Definition set_Credits (n : Z) (a : AccountData) : AccountData := mkAccount n (PendingMinorUpdates a).

(** [SendStatUpdate] of a character, if it is in the game. *)
Definition stat_update (id stat : Z) (w : W) : W :=
  match players w !! id with Some c => emit (StatUpdate (CreatureID c) stat) w | None => w end.

(** The seller or a bidder, in the game or not: the pointers that are not null. *)
Record Party := mkParty { p_id : Z; p_instance : bool; p_css : option CssPtr; p_character : bool; p_account : option Z }.

Definition FetchIndividualAccount (id : Z) : Act W (option Z) := fun w =>
  match accounts w !! id with Some _ => Some (Some id, set_loaded ({[id]} ∪ loaded w) w) | None => Some (None, w) end.
Definition GetActiveAccountByID (id : Z) : Act W (option Z) := fun w =>
  Some (if decide (id ∈ loaded w) then Some id else None, w).

Definition find_party (id : Z) : Act W Party := fun w =>
  match players w !! id with
  | Some _ =>
      match characters w !! id with
      | Some cd => (a ← GetActiveAccountByID (AccountID cd); mret (mkParty id true (Some (InstanceCss id)) true a)) w
      | None => None
      end
  | None =>
      match characters w !! id with
      | Some cd => (a ← FetchIndividualAccount (AccountID cd); mret (mkParty id false (Some (CharacterCss id)) true a)) w
      | None => Some (mkParty id false None false None, w)
      end
  end.

(** ** Messages *)

Definition chat (text sender recipient : string) (tell : bool) : ChatMessage := mkChat text sender recipient tell.

Definition SendChatMessage (m : ChatMessage) : Act W bool := fun w => Some (delivered m w, emit (Chat m) w).

(** A message that is stored for later when it reaches no one. *)
Definition tell (m : ChatMessage) : Act W unit :=
  ok ← SendChatMessage m; if (ok : bool) then mret tt else say (OfflineMessage m).

Definition auctioneer_name (cdef : Z) : string := default "EEBay"%string (creature_name cdef).

Definition item_name (it : AuctionHouseItem) : string := mDisplayName (GetSafePointerByID (mItemId it)).

(** ** Timers *)

Definition CancelItemTimer (id : Z) : Act W unit := modify (fun w =>
  match mTimers w !! id with
  | Some t => set_timers (Cancel t (sched w)) (delete id (mTimers w)) w
  | None => w
  end).

Definition schedule_timer (id : Z) (task : AuctionTask) (when_ : Z) : Act W unit := modify (fun w =>
  let '(t, s) := Schedule (g_ServerTime w) (g_MainSleep cfg) task when_ (sched w) in
  set_timers s (<[id := t]> (mTimers w)) w).

Definition expiry_time (it : AuctionHouseItem) : Z := u64 (mEndDate it + i32 (MaxAuctionExpiredHours cfg * 3600000)).

(** ** Removing *)

Definition RemoveItem (id : Z) : Act W bool :=
  _ ← Enter;
  ah ← on_store (LoadItem id);
  _ ← (if mId ah =? 0 then mret tt
       else
         _ ← CancelItemTimer (mId ah);
         ok ← on_store (ClusterManager_RemoveEntity ah);
         if negb ok then mret tt
         else
           _ ← on_store (ListRemove LISTPREFIX_AUCTION_ITEMS (sprintf_d id) true);
           if clusterable cfg then say (ClusterAuctionItemRemoved (mId ah) (mAuctioneer ah)) else mret tt);
  _ ← Leave;
  mret true.

(** [RemoveItem] and the message to the players at an instance of the auctioneer. *)
Definition broadcast_removed (auctioneer id : Z) : Act W unit := fun w =>
  match npcs w !! auctioneer with
  | Some cid => say (ToAllSimulators (BroadcastRemovedItem cid id)) w
  | None => Some (tt, w)
  end.

(** The slot that goes to the buyback list. *)
Definition returned_slot (it : AuctionHouseItem) : InventorySlot :=
  mkSlot 0 (mItemId it) (mCount it) (mLookId it) 0 (i64 (mSecondsRemaining it)) 0.

Definition give_back (p : Party) (it : AuctionHouseItem) : Act W unit := fun w =>
  match characters w !! p_id p with
  | None => Some (tt, w)
  | Some cd =>
      match AddBuyBack (g_ServerTime w) (BuybackLimit cfg) (inventory cd) (returned_slot it) with
      | None => None
      | Some (bytes, destroyed, inv) =>
          let w1 := match destroyed with Some d => emit (NotifyDestroy d) w | None => w end in
          let w2 := upd_character (p_id p) (fun c => pending_change (set_inventory inv c)) w1 in
          match players w !! p_id p with
          | Some c => match simulatorPtr c with Some sim => Some (tt, emit (ToSimulator sim bytes) w2) | None => Some (tt, w2) end
          | None => Some (tt, w2)
          end
      end
  end.

(** The name in the message of an expired item: with an instance of the auctioneer it is
    read through its [charPtr], which only players have. *)
Definition expired_sender (auctioneer : Z) : Act W string := fun w =>
  match npcs w !! auctioneer with Some _ => None | None => Some (auctioneer_name auctioneer, w) end.

Definition ExpireItem (item : AuctionHouseItem) : Act W unit :=
  _ ← Enter;
  seller ← find_party (mSeller item);
  _ ← match p_css seller with
      | None => mret tt
      | Some p =>
          sellerCss ← deref_css p;
          sender ← expired_sender (mAuctioneer item);
          _ ← tell (chat (SafeFormat 1024 ("Your expired auction item '" +:+ item_name item +:+
                "' has been in the auction house too long and has been removed. You may retrieve it from your buyback."))
                sender (display_name sellerCss) true);
          give_back seller item
      end;
  _ ← CancelItemTimer (mId item);
  _ ← RemoveItem (mId item);
  _ ← broadcast_removed (mAuctioneer item) (mId item);
  Leave.

(** ** The end of an auction *)

Definition below_reserve (it : AuctionHouseItem) (b : AuctionHouseBid) : bool :=
  (negb (mReserveCopper it =? 0) && (mCopper b <? mReserveCopper it)) ||
  (negb (mReserveCredits it =? 0) && (mCredits b <? mReserveCredits it)).

Definition bid_failed (it : AuctionHouseItem) (why sender recipient : string) : ChatMessage :=
  chat (SafeFormat 1024 ("Your bid on '" +:+ item_name it +:+ "' failed because you do not have enough " +:+ why +:+
          ". Item goes to next bidder or back to seller.")) sender recipient true.

(** [css->credits = account->Credits], with credits of the account in use. *)
Definition sync_credits (p : CssPtr) (account : option Z) : Act W unit := fun w =>
  if UseAccountCredits cfg then
    match account with
    | Some a => match accounts w !! a with
                | Some acc => Some (tt, upd_css p (set_credits (Credits acc)) w)
                | None => None
                end
    | None => None
    end
  else Some (tt, w).

(** [account->PendingMinorUpdates++]. *)
Definition account_update (account : option Z) : Act W unit := fun w =>
  match account with Some a => Some (tt, upd_account a minor_update w) | None => None end.

(** The transfer of copper to the seller. *)
Definition pay_copper (buyer : Party) (p : CssPtr) (seller : Party) (n : Z) (w : W) : W :=
  if 0 <? n then
    let w1 := stat_update (p_id buyer) STAT_COPPER
                (upd_character (p_id buyer) pending_change (upd_css p (add_copper (- n)) w)) in
    match p_css seller with
    | None => w1
    | Some sp =>
        let w2 := upd_css sp (add_copper n) w1 in
        let w3 := if p_character seller then upd_character (p_id seller) pending_change w2 else w2 in
        if p_instance seller then stat_update (p_id seller) STAT_COPPER w3 else w3
    end
  else w.

(** The transfer of credits: the credits of the accounts do not change. *)
Definition pay_credits (buyer : Party) (p : CssPtr) (seller : Party) (n : Z) : Act W unit :=
  if 0 <? n then
    _ ← modify (upd_css p (add_credits (- n)));
    _ ← (if UseAccountCredits cfg then account_update (p_account buyer) else modify (upd_character (p_id buyer) pending_change));
    _ ← modify (stat_update (p_id buyer) STAT_CREDITS);
    match p_css seller with
    | None => mret tt
    | Some sp =>
        _ ← modify (upd_css sp (add_credits n));
        _ ← (match p_account seller with
             | Some a => if UseAccountCredits cfg then modify (upd_account a minor_update)
                         else modify (upd_character (p_id seller) pending_change)
             | None => if p_character seller then modify (upd_character (p_id seller) pending_change) else mret tt
             end);
        if p_instance seller then modify (stat_update (p_id seller) STAT_CREDITS) else mret tt
    end
  else mret tt.

(** The item goes to a character: the slot, or [None] when it does not fit. *)
Definition take_item (id : Z) (it : AuctionHouseItem) : Act W (option nat) := fun w =>
  match characters w !! id with
  | None => None
  | Some cd =>
      let '(slot, inv) := AddItem_Ex (g_ServerTime w) (inventory cd) INV_CONTAINER (mItemId it) (i32 (mCount it + 1)) in
      Some (slot, upd_character id (set_inventory inv) w)
  end.

(** [sendSlot->secondsRemaining = ..; sendSlot->customLook = ..]. *)
Definition dress_slot (id : Z) (i : nat) (it : AuctionHouseItem) : W -> W :=
  upd_character id (fun c => set_inventory (update_slot (inventory c) INV_CONTAINER i (fun s =>
    mkSlot (CCSID s) (IID s) (count s) (mLookId it) (bindStatus s) (i64 (mSecondsRemaining it)) (timeLoaded s))) c).

(** [AddItemUpdate] of the slot, to the simulator of a character in the game. *)
Definition send_slot (id : Z) (i : nat) (w : W) : W :=
  match c ← players w !! id; sim ← simulatorPtr c; cd ← characters w !! id; s ← cont (inventory cd) INV_CONTAINER !! i; Some (sim, s) with
  | Some (sim, s) => emit (ToSimulator sim (Global.AddItemUpdate (g_ServerTime w) s)) w
  | None => w
  end.

(** One bid that reaches the reserve: true when the item is sold. [creatureInstance] is
    read in the last part although it is null for a bidder who is not in the game. *)
Definition try_bid (item : AuctionHouseItem) (seller : Party) (b : AuctionHouseBid) : Act W bool :=
  buyer ← find_party (mBuyer b);
  match p_css buyer with
  | None => mret false
  | Some p =>
      if negb (p_instance buyer) && bool_decide (p_account buyer = None) then mret false
      else
        _ ← sync_credits p (p_account buyer);
        c ← deref_css p;
        slot ← gets (fun w => from_option (fun cd => GetFreeSlot (inventory cd) INV_CONTAINER) (-1) (characters w !! mBuyer b));
        if slot =? -1 then
          _ ← tell (bid_failed item "inventory space" "EEBay" (display_name c)); mret false
        else if (0 <? mCopper b) && (u64 (copper c) <? mCopper b) then
          _ ← tell (bid_failed item "copper" (auctioneer_name (mAuctioneer item)) EmptyString); mret false
        else if (0 <? mCredits b) && (u64 (credits c) <? mCredits b) then
          _ ← tell (bid_failed item "credits" (auctioneer_name (mAuctioneer item)) (display_name c)); mret false
        else
          added ← take_item (mBuyer b) item;
          if negb (p_instance buyer) then throw
          else match added with
          | None => mret false
          | Some i =>
              _ ← modify (upd_character (mBuyer b) pending_change);
              _ ← modify (dress_slot (mBuyer b) i item);
              _ ← modify (send_slot (mBuyer b) i);
              _ ← modify (pay_copper buyer p seller (mCopper b));
              _ ← pay_credits buyer p seller (mCredits b);
              c' ← deref_css p;
              _ ← SendChatMessage (chat (SafeFormat 1024 (display_name c' +:+ " is the winning bidder of '" +:+ item_name item +:+ "'!"))
                     (auctioneer_name (mAuctioneer item)) EmptyString false);
              mret true
          end
  end.

(** The loop over the bids, the last one first: [success] and [reserveReached]. *)
Fixpoint best_bid (item : AuctionHouseItem) (seller : Party) (l : list AuctionHouseBid) (reserveReached : bool)
    : Act W (bool * bool) :=
  match l with
  | [] => mret (false, reserveReached)
  | b :: l' =>
      if below_reserve item b then mret (true, reserveReached)
      else
        sold ← try_bid item seller b;
        if (sold : bool) then mret (true, false) else best_bid item seller l' false
  end.

(** The item stays for the seller to take, and expires later. *)
Definition keep_unsold (item : AuctionHouseItem) (seller : Party) (why : string) : Act W unit :=
  match p_css seller with
  | None => throw
  | Some p =>
      sellerCss ← deref_css p;
      _ ← tell (chat (SafeFormat 1024 ("Your auction item '" +:+ item_name item +:+ "' failed to " +:+ why +:+ ". You have " +:+
            sprintf_d (MaxAuctionExpiredHours cfg) +:+
            " hours to remove it from the auction before it is automatically removed and placed in your vendor buyback inventory."))
            (auctioneer_name (mAuctioneer item)) (display_name sellerCss) true);
      let item' := set_mCompleted true item in
      _ ← on_store (SaveItem item');
      _ ← CancelItemTimer (mId item);
      _ ← schedule_timer (mId item) (ExpireTask item') (expiry_time item);
      Leave
  end.

Definition CompleteAuction (auctionItemID : Z) : Act W unit :=
  item ← on_store (LoadItem auctionItemID);
  if mId item =? 0 then mret tt
  else
    _ ← Enter;
    seller ← find_party (mSeller item);
    r ← best_bid item seller (rev (mBids item)) true;
    let '(success, reserveReached) := (r : bool * bool) in
    if (negb success : bool) then keep_unsold item seller "attract any bids"
    else if negb reserveReached then keep_unsold item seller "reach the reserve price"
    else
      _ ← CancelItemTimer (mId item);
      _ ← RemoveItem (mId item);
      _ ← Leave;
      broadcast_removed (mAuctioneer item) (mId item).

(** What the scheduler runs. *)
Definition run_task (t : AuctionTask) : Act W unit :=
  match t with
  | CompleteDangling => throw
  | CompleteTask id => CompleteAuction id
  | ExpireTask item => ExpireItem item
  end.

(** The scheduler of the server, with the tasks of the auction house. *)
Definition perform (t : AuctionTask) (ws : W * Scheduler AuctionTask) : option (W * Scheduler AuctionTask) :=
  match run_task t (set_timers ws.2 (mTimers ws.1) ws.1) with
  | Some (_, w) => Some (w, sched w)
  | None => None
  end.

Definition run_server (fuel : nat) (now : nat -> Z) (w : W) : Res W :=
  ws ← RunScheduledTasks perform fuel now (w, sched w);
  mret (set_timers ws.2 (mTimers ws.1) ws.1).

(** ** Loading and stopping *)

Fixpoint load_items (ids : list string) : Act W unit :=
  match ids with
  | [] => mret tt
  | id :: ids' =>
      item ← on_store (LoadItem (atoi id));
      _ ← Enter;
      _ ← CancelItemTimer (mId item);
      _ ← (if is_master cfg then
             if negb (mCompleted item) then schedule_timer (mId item) (CompleteTask (mId item)) (mEndDate item)
             else schedule_timer (mId item) (ExpireTask item) (expiry_time item)
           else mret tt);
      _ ← Leave;
      load_items ids'
  end.

Definition LoadItems : Act W Z :=
  ids ← on_store (GetList LISTPREFIX_AUCTION_ITEMS); _ ← load_items ids; mret 0.

(** The identifiers in the order of the map's keys; any order cancels the same tasks. *)
Definition CancelAllTimers : Act W unit :=
  _ ← Enter;
  _ ← modify (fun w => set_timers (fold_left (fun s t => Cancel t s) (map snd (map_to_list (mTimers w))) (sched w)) ∅ w);
  Leave.

(** ** Selling *)

Definition BroadcastNewItem (auctionItemID : Z) (sellerName : string) : Act W unit :=
  ahItem ← on_store (LoadItem auctionItemID);
  if mId ahItem =? 0 then mret tt
  else
    w ← gets id;
    say (ToAllSimulators (new_item_message (g_ServerTime w) (default 0 (npcs w !! mAuctioneer ahItem)) ahItem sellerName)).

Definition BroadcastAndSetupTimer (ahItem : AuctionHouseItem) (task : AuctionTask) (sellerName : string) : Act W unit :=
  _ ← BroadcastNewItem (mId ahItem) sellerName;
  if is_master cfg then schedule_timer (mId ahItem) task (mEndDate ahItem) else mret tt.

Definition hours_ms (hours : Z) : Z := i32 (i32 (i32 (hours * 60) * 60) * 1000).
Definition days_ms (days : Z) : Z := i32 (i32 (i32 (i32 (days * 60) * 60) * 24) * 1000).

(** The item of a new auction. *)
Definition new_auction (id auctioneer seller start : Z) (slot : InventorySlot)
    (reserveCopper reserveCredits buyItNowCopper buyItNowCredits days hours : Z) : AuctionHouseItem :=
  mkAuction id auctioneer [] seller start (u64 (start + hours_ms hours + days_ms days))
    reserveCopper reserveCredits buyItNowCopper buyItNowCredits
    (u64 (secondsRemaining slot)) (IID slot) (customLook slot) (count slot) false.

(** The commissions; [me] is the character, [account] its account. *)
Definition charge (me account copperCommision creditsCommision : Z) : Act W unit :=
  let p := InstanceCss me in
  _ ← (if negb (copperCommision =? 0) then
         _ ← modify (upd_css p (add_copper (- copperCommision))); modify (stat_update me STAT_COPPER)
       else mret tt);
  if 0 <? creditsCommision then
    _ ← modify (upd_css p (add_credits (- creditsCommision)));
    c ← deref_css p;
    _ ← (if UseAccountCredits cfg then modify (upd_account account (fun a => minor_update (set_Credits (credits c) a))) else mret tt);
    modify (stat_update me STAT_CREDITS)
  else mret tt.

(** The player is in the game. *)
Definition Auction (me account : Z) (slot : InventorySlot) (copperCommision creditsCommision auctioneer : Z)
    (reserveCopper reserveCredits buyItNowCopper buyItNowCredits days hours : Z) : Act W AuctionHouseItem :=
  _ ← charge me account copperCommision creditsCommision;
  id ← on_store (NextValue ID_NEXT_AUCTION_ITEM_ID 1);
  start ← gets (@g_ServerTime R);
  let ahItem := new_auction (i32 id) auctioneer me start slot reserveCopper reserveCredits buyItNowCopper buyItNowCredits days hours in
  saved ← on_store (SaveItem ahItem);
  _ ← (if (saved : bool) then on_store (ListAdd LISTPREFIX_AUCTION_ITEMS (sprintf_d (mId ahItem))) else mret true);
  cd ← deref_css (CharacterCss me);
  match creature_name auctioneer with
  | None => throw
  | Some name =>
      _ ← SendChatMessage (chat (display_name cd +:+ " is selling " +:+ item_name ahItem +:+ " at " +:+ name +:+ "'s auction house")
            "EEBay" EmptyString false);
      _ ← BroadcastAndSetupTimer ahItem CompleteDangling (display_name cd);
      _ ← (if clusterable cfg then say (ClusterAuction (i32 buyItNowCopper) (display_name cd)) else mret tt);
      mret ahItem
  end.

(** ** Buying *)

(** [css] and [accPtr] of the caller; the stats take the credits of the account. *)
Definition ValidateItem (it : AuctionHouseItem) (me account : Z) : Act W Z :=
  c ← deref_css (InstanceCss me);
  if u64 (copper c) <? mBuyItNowCopper it then mret AuctionHouseError.NOT_ENOUGH_COPPER
  else
    _ ← sync_credits (InstanceCss me) (Some account);
    c' ← deref_css (InstanceCss me);
    if u64 (credits c') <? mBuyItNowCredits it then mret AuctionHouseError.NOT_ENOUGH_CREDITS
    else
      now ← gets (@g_ServerTime R);
      if negb (mStartDate it =? 0) && (now <? mStartDate it) then mret AuctionHouseError.NOT_YET_AVAILABLE
      else if negb (mEndDate it =? 0) && (mEndDate it <=? now) then mret AuctionHouseError.NO_LONGER_AVAILABLE
      else
        cd ← gets (fun w => characters w !! me);
        match cd with
        | None => throw
        | Some cd =>
            mret (if GetFreeSlot (inventory cd) INV_CONTAINER =? -1 then AuctionHouseError.NOT_ENOUGH_FREE_SLOTS
                  else AuctionHouseError.NONE)
        end.

(** ** The queries

    [me] is the character of the player and [account] its account; [npc_at] finds the
    definition and name of an NPC of the player's instance. *)

Context (me account : Z) (npc_at : Z -> option (Z * string)) (queryID : Z) (args : list string).

Definition reply_error (message : string) : Act W (list Z) := mret (PrepExt_QueryResponseError queryID message).
Definition reply_ok : list Z := PrepExt_QueryResponseString queryID "OK".

(** [atoi(query->GetString(i))]: a null pointer when there is no such argument. *)
Definition string_arg (i : nat) : Act W string := fun w => match args !! i with Some a => Some (a, w) | None => None end.
Definition atol (s : string) : Z := strtol s 10.
Definition ulong_arg (i : nat) : Act W Z := s ← string_arg i; mret (u64 (atol s)).
Definition int_arg (i : nat) : Act W Z := s ← string_arg i; mret (atoi s).
(** [GetInteger], [GetLong] and [GetBool]: 0 when there is no such argument. *)
Definition GetInteger (i : nat) : Z := match args !! i with Some a => atoi a | None => 0 end.
Definition GetLong (i : nat) : Z := match args !! i with Some a => atol a | None => 0 end.

(** *** The contents *)

(** [%f]. *)
Definition sprintf_f (v : Float.Value) : string :=
  match v with
  | Finite neg m e =>
      let q := div_half_even (num m e * 10 ^ 6) (den e) in
      let frac := print_unsigned 10 (q mod 10 ^ 6) in
      (if neg then "-" else EmptyString) +:+ print_unsigned 10 (q / 10 ^ 6) +:+ "." +:+
      zeros (6 - String.length frac) +:+ frac
  | Infinite neg => if neg then "-inf" else "inf"
  | NotANumber => "nan"
  end.

Definition search_of : AuctionHouseSearch :=
  mkSearch 0 (GetInteger 1) (GetInteger 2) (GetInteger 3) (-1) (negb (GetInteger 11 =? 0))
    (u64 (GetLong 5)) (u64 (GetLong 6)) (u64 (GetLong 7)) (u64 (GetLong 8)) (i16 (GetInteger 9)) (i16 (GetInteger 10))
    (default EmptyString (args !! 4%nat)).

Definition set_auctioneer (id : Z) (q : AuctionHouseSearch) : AuctionHouseSearch :=
  mkSearch id (s_itemTypeId q) (s_qualityId q) (s_order q) (s_maxRows q) (s_reverse q) (s_copperStart q) (s_copperEnd q)
    (s_creditsStart q) (s_creditsEnd q) (s_levelStart q) (s_levelEnd q) (s_search q).

Definition auction_row (w : W) (it : AuctionHouseItem) : list Z :=
  PutByte 9 ++ WriteAuctionItem (g_ServerTime w) it
    (match characters w !! mSeller it with Some cd => display_name (cdef_css cd) | None => "<Missing character>"%string end).

Definition AuctionHouseContentsHandler : Act W (list Z) :=
  if (length args <? 12)%nat then reply_error "Invalid query."
  else match npc_at (GetInteger 0) with
  | None => reply_error "Unknown auctioneer."
  | Some (cdef, name) =>
      w ← gets id;
      results ← on_store (Search (g_ServerTime w) (set_auctioneer cdef search_of));
      let rows := take 511 results in
      let body := PutInteger queryID ++ PutShort (Z.of_nat (length rows) + 1) ++
        PutByte 2 ++ PutStringUTF (SafeFormat 128 (sprintf_f (decode (PercentageCommisionPerHour cfg)))) ++ PutStringUTF name ++
        concat (map (auction_row w) rows) in
      mret (PutByte 1 ++ PutShort (Z.of_nat (length body)) ++ body)
  end.

(** *** A new auction *)

(** [(unsigned long)((double)price * (percentage / 100) * hours)], with the rounding of
    each step; undefined when the result does not fit. *)
Definition double_mul (v1 v2 : Float.Value) : Float.Value :=
  match v1, v2 with
  | Finite s1 m1 e1, Finite s2 m2 e2 => round_ratio double (xorb s1 s2) (num (m1 * m2) (e1 + e2)) (den (e1 + e2))
  | _, _ => NotANumber
  end.

Definition percentage : Float.Value :=
  match decode (PercentageCommisionPerHour cfg) with
  | Finite neg m e => round_ratio single neg (num m e) (den e * 100)
  | v => v
  end.

Definition double_of_int (z : Z) : Float.Value := round_ratio double (z <? 0) (Z.abs z) 1.

Definition commission (price totalHours : Z) : option Z :=
  match double_mul (double_mul (double_of_int price) percentage) (double_of_int totalHours) with
  | Finite neg m e =>
      let z := signed_value neg (num m e / den e) in
      if (0 <=? z) && (z <? 2 ^ 64) then Some z else None
  | _ => None
  end.

Definition too_long : string :=
  SafeFormat 128 ("Auction too long. Can be at most " +:+ sprintf_d (MaxAuctionHours cfg) +:+ " hours.").
Definition too_short : string :=
  SafeFormat 128 ("Auction too short. Must be at least " +:+ sprintf_d (MinAuctionHours cfg) +:+ " hours.").

(** An [int] is printed as an [unsigned long]: its upper half is what the call left, zero. *)
Definition not_enough (what : string) (required have : Z) : string :=
  SafeFormat 128 ("You do not have enough " +:+ what +:+ " to list this item. " +:+ sprintf_lu required +:+
  " are required, but you only have " +:+ sprintf_lu (u32 have) +:+ ".").

Definition AuctionHouseAuctionHandler : Act W (list Z) :=
  if (length args <? 7)%nat then reply_error "Invalid query."
  else
    w ← gets id;
    match characters w !! me, players w !! me, accounts w !! account with
    | Some cd, Some ci, Some acc =>
        match cont (inventory cd) AUCTION_CONTAINER with
        | [] => reply_error "You must place the items to send in your auction box."
        | slot :: _ =>
            auctioneerCID ← int_arg 0;
            match npc_at auctioneerCID with
            | None => reply_error "Unknown auctioneer."
            | Some (cdef, _) =>
                days ← int_arg 1;
                hours ← int_arg 2;
                let totalHours := i32 (i32 (days * 24) + hours) in
                if totalHours <? MinAuctionHours cfg then reply_error too_short
                else if MaxAuctionHours cfg <? totalHours then reply_error too_long
                else
                  reserveCopper ← ulong_arg 3;
                  reserveCredits ← ulong_arg 4;
                  buyItNowCopper ← ulong_arg 5;
                  buyItNowCredits ← ulong_arg 6;
                  if negb (reserveCopper =? 0) && negb (buyItNowCopper =? 0) && (buyItNowCopper <=? reserveCopper)
                  then reply_error "If you have a reserve copper price set, it must be less than the buy-it-now price."
                  else if negb (reserveCredits =? 0) && negb (buyItNowCredits =? 0) && (buyItNowCredits <=? reserveCredits)
                  then reply_error "If you have a reserve credit price set, it must be less than the buy-it-now price."
                  else
                    let copperPrice := Z.max reserveCopper buyItNowCopper in
                    let creditsPrice := Z.max reserveCredits buyItNowCredits in
                    if (copperPrice =? 0) && (creditsPrice =? 0)
                    then reply_error "You must provide either a copper and/or a credit price."
                    else match commission copperPrice totalHours, commission creditsPrice totalHours with
                    | Some copperCommision, Some creditsCommision =>
                        if copper (css ci) <? i32 copperCommision
                        then reply_error (not_enough "copper" copperCommision (copper (css ci)))
                        else if (if UseAccountCredits cfg then Credits acc <? i32 creditsCommision
                                 else credits (css ci) <? i32 creditsCommision)
                        then reply_error (not_enough "credits" creditsCommision
                               (if UseAccountCredits cfg then Credits acc
                                else if copper (css ci) <? i32 creditsCommision then 1 else 0))
                        else
                          ahItem ← Auction me account slot copperCommision creditsCommision cdef
                                     reserveCopper reserveCredits buyItNowCopper buyItNowCredits days hours;
                          w1 ← gets id;
                          match characters w1 !! me with
                          | None => throw
                          | Some cd1 =>
                              match RemoveItemsAndUpdate (g_ServerTime w1) (inventory cd1) AUCTION_CONTAINER
                                      (mItemId ahItem) (i32 (mCount ahItem + 1)) with
                              | None => throw
                              | Some (bytes, inv) =>
                                  _ ← modify (upd_character me (fun c => pending_change (set_inventory inv c)));
                                  mret (reply_ok ++ bytes)
                              end
                          end
                    | _, _ => throw
                    end
            end
        end
    | _, _, _ => throw
    end.

(** *** Bidding *)

(** The item is loaded and bid for under the lock, and saved after it is left. *)
Definition AuctionHouseBidHandler : Act W (list Z) :=
  copper ← ulong_arg 1;
  credits ← ulong_arg 2;
  auctionId ← int_arg 3;
  auctioneerCID ← int_arg 0;
  match npc_at auctioneerCID with
  | None => reply_error "Unknown auctioneer."
  | Some (cdef, _) =>
      _ ← Enter;
      item ← on_store (LoadItem auctionId);
      w ← gets id;
      if mId item =? 0 then _ ← Leave; reply_error "Could not find item."
      else if negb (mAuctioneer item =? 0) && negb (mAuctioneer item =? cdef)
      then _ ← Leave; reply_error "Incorrect auctioneer."
      else if IsExpired (g_ServerTime w) item then _ ← Leave; reply_error "Cannot bid on expired auctions."
      else
        let '(bidOk, item') := Bid (clock w) me copper credits item in
        _ ← Leave;
        if (negb bidOk : bool) then reply_error "Bid rejected."
        else
          _ ← on_store (SaveItem item');
          match BroadcastUpdate (g_ServerTime w) auctioneerCID item' with
          | None => throw
          | Some bytes =>
              _ ← say (ToAllSimulators bytes);
              _ ← (if clusterable cfg then say (ClusterAuctionItemUpdated (mId item')) else mret tt);
              mret reply_ok
          end
  end.

(** *** Buying at once *)

Definition add_error (err : Z) : string :=
  if err =? ERR.ERROR_ITEM then "Server error: item does not exist."
  else if err =? ERR.ERROR_SPACE then "You do not have any free inventory space."
  else if err =? ERR.ERROR_LIMIT then "You already the maximum amount of these items."
  else "Server error: undefined error.".

(** The price in copper: the buyer pays, the seller's stats get it. *)
Definition buy_copper (seller : Party) (n : Z) (w : W) : W :=
  if 0 <? n then
    let w1 := stat_update me STAT_COPPER (upd_css (InstanceCss me) (add_copper (- n)) w) in
    let w2 := match p_css seller with Some sp => upd_css sp (add_copper n) w1 | None => w1 end in
    let w3 := if p_character seller then upd_character (p_id seller) pending_change w2 else w2 in
    if p_instance seller then stat_update (p_id seller) STAT_COPPER w3 else w3
  else w.

(** The price in credits: with credits of the account, the account of the seller gets the
    credits of the seller's stats and the price. *)
Definition buy_credits (seller : Party) (n : Z) : Act W unit :=
  if 0 <? n then
    _ ← modify (upd_css (InstanceCss me) (add_credits (- n)));
    c ← deref_css (InstanceCss me);
    _ ← (if UseAccountCredits cfg then
           _ ← modify (upd_account account (fun a => minor_update (set_Credits (credits c) a)));
           match p_account seller with
           | None => mret tt
           | Some sa =>
               match p_css seller with
               | None => throw
               | Some sp =>
                   sc ← deref_css sp;
                   modify (upd_account sa (fun a => minor_update (set_Credits (i32 (credits sc + n)) a)))
               end
           end
         else
           _ ← (match p_css seller with Some sp => modify (upd_css sp (add_credits n)) | None => mret tt end);
           if p_character seller then modify (upd_character (p_id seller) pending_change) else mret tt);
    _ ← modify (stat_update me STAT_CREDITS);
    if p_instance seller then modify (stat_update (p_id seller) STAT_CREDITS) else mret tt
  else mret tt.

(** The purchase of an item of this auctioneer. The lock is not left when the purchase is
    refused or the item does not fit. *)
Definition purchase (item : AuctionHouseItem) (auctioneerCID : Z) (name : string) : Act W (list Z) :=
  errCode ← ValidateItem item me account;
  if negb (errCode =? AuctionHouseError.NONE) then reply_error (AuctionHouseError.GetDescription errCode)
  else
    added ← take_item me item;
    w ← gets id;
    match added, characters w !! me with
    | _, None => throw
    | None, Some cd => reply_error (add_error (LastError (inventory cd)))
    | Some i, Some _ =>
        _ ← modify (upd_character me pending_change);
        _ ← modify (dress_slot me i item);
        seller ← find_party (mSeller item);
        _ ← RemoveItem (mId item);
        _ ← Leave;
        _ ← say (ToAllSimulators (BroadcastRemovedItem auctioneerCID (mId item)));
        _ ← modify (buy_copper seller (mBuyItNowCopper item));
        _ ← buy_credits seller (mBuyItNowCredits item);
        w1 ← gets id;
        match (cd ← characters w1 !! me; cont (inventory cd) INV_CONTAINER !! i), characters w1 !! me with
        | Some sendSlot, Some cd =>
            _ ← SendChatMessage (chat (SafeFormat 128 (display_name (cdef_css cd) +:+ " bought " +:+ item_name item +:+
                  " at " +:+ name +:+ "'s auction house")) "EEBay" EmptyString false);
            mret (Global.AddItemUpdate (g_ServerTime w1) sendSlot ++ reply_ok)
        | _, _ => throw
        end
    end.

Definition AuctionHouseBuyHandler : Act W (list Z) :=
  auctionId ← int_arg 1;
  item ← on_store (LoadItem auctionId);
  _ ← Enter;
  if mId item =? 0 then _ ← Leave; reply_error "Could not find item."
  else
    auctioneerCID ← int_arg 0;
    match npc_at auctioneerCID with
    | None => _ ← Leave; reply_error "Unknown auctioneer."
    | Some (cdef, name) =>
        if negb (mAuctioneer item =? 0) && negb (mAuctioneer item =? cdef)
        then _ ← Leave; reply_error "Incorrect auctioneer."
        else purchase item auctioneerCID name
    end.

End Manager.
