(* ===== verification/AuctionFacts.v ===== *)
(** * Auction house: what is stored, found and sold *)

From stdpp Require Import sorting.
From S2P Require Import Prelude StdSort ByteBuffer Messages Text Float Items Inventory Entities Cluster ClusterFacts Scheduler SchedulerFacts Auction AuctionHouse.

(** ** The stored form of an item *)

Definition auction_values (it : AuctionHouseItem) : list (string * string * string) :=
  map (fun kv => (EmptyString, kv.1, kv.2))
    [("BeginDate", sprintf_lu (mStartDate it)); ("EndDate", sprintf_lu (mEndDate it)); ("Seller", sprintf_d (mSeller it));
     ("Auctioneer", sprintf_d (mAuctioneer it)); ("ReserveCopper", sprintf_lu (mReserveCopper it));
     ("ReserveCredits", sprintf_lu (mReserveCredits it)); ("BuyItNowCopper", sprintf_lu (mBuyItNowCopper it));
     ("BuyItNowCredits", sprintf_lu (mBuyItNowCredits it)); ("SecondsRemaining", sprintf_lu (mSecondsRemaining it));
     ("Completed", sprintf_d (if mCompleted it then 1 else 0)); ("ItemID", sprintf_d (mItemId it));
     ("Count", sprintf_d (mCount it)); ("LookId", sprintf_d (mLookId it)); ("Bid", join_items (map bid_text (mBids it)))]%string.

#[export, refine] Instance AuctionHouseItem_laws : EntityLaws AuctionHouseItem := {|
  catalog_of _ := KEYPREFIX_AUCTION_ITEM; id_of it := sprintf_d (mId it); values := auction_values |}.
Proof.
  - intros S ? ? it s Hs Hb. eexists. split; [reflexivity|].
    unfold item_WriteEntity, put_int, put_ulong, put_bool, writer_Key.
    autorewrite with entity. rewrite Hs, Hb. done.
  - intros S ? it s. exists true. done.
Defined.

(** The fields fit their types. *)
Record auction_fits (it : AuctionHouseItem) : Prop := mkFits {
  fits_seller : in_i32 (mSeller it); fits_auctioneer : in_i32 (mAuctioneer it);
  fits_item : in_i32 (mItemId it); fits_count : in_i32 (mCount it);
  fits_start : in_unsigned 64 (mStartDate it); fits_end : in_unsigned 64 (mEndDate it);
  fits_rcopper : in_unsigned 64 (mReserveCopper it); fits_rcredits : in_unsigned 64 (mReserveCredits it);
  fits_bcopper : in_unsigned 64 (mBuyItNowCopper it); fits_bcredits : in_unsigned 64 (mBuyItNowCredits it) }.

(** What is read back of an item: no bids, no look, no time left. *)
Definition reloaded (it : AuctionHouseItem) : AuctionHouseItem :=
  mkAuction (mId it) (mAuctioneer it) [] (mSeller it) (mStartDate it) (mEndDate it)
    (mReserveCopper it) (mReserveCredits it) (mBuyItNowCopper it) (mBuyItNowCredits it)
    0 (mItemId it) 0 (mCount it) (mCompleted it).

Definition bid_fits (b : AuctionHouseBid) : Prop := 0 <= mCopper b /\ 0 <= mCredits b.

(** A stored bid has four parts. *)
Lemma bid_text_parts b : bid_fits b -> length (Split (bid_text b) ",") = 4%nat.
Proof.
  intros [Hc Hr]. unfold bid_text. rewrite !sprintf_lu_d by done.
  pose proof (split_join_lemma (chr 44) (map sprintf_d [mBuyer b; mCopper b; mCredits b; mBidTime b]) ltac:(done)) as E.
  cbn [map Text.Join forallb] in E. change (String (chr 44) EmptyString) with ","%string in E. rewrite E; [done|].
  by rewrite !sprintf_d_lacks.
Qed.

Lemma read_bids_short l rest acc : Forall (fun s => length (Split s ",") = 4%nat) rest -> read_bids l rest acc = Some acc.
Proof. induction 1 as [|s rest Hs _ IH]; [done|]. cbn [read_bids]. by rewrite Hs. Qed.

Lemma Forall_drop_empty (P : string -> Prop) l : Forall P l -> Forall P (drop_empty l).
Proof. induction 1 as [|[|c s] l Hs Hl IH]; cbn; [done|done|by constructor]. Qed.

(** The next value read is the stored one, or the default. *)
Ltac stored Hf := cbn [r_section]; apply Hf; apply list_elem_of_In; cbn; tauto.
Ltac read_value Hf :=
  eapply gives_bind;
  [first [ apply gives_ValueULong; [stored Hf|done] | apply gives_ValueInt; [stored Hf|done]
         | apply gives_ValueBool; stored Hf | apply gives_ValueULong_none; [done|by split]
         | apply gives_ValueInt_none; [done|by split] ]|].

Lemma auction_reads (it : AuctionHouseItem) f : auction_fits it -> Forall bid_fits (mBids it) ->
  (forall k v, (EmptyString, k, v) ∈ auction_values it -> f EmptyString k = Some v) ->
  f EmptyString "SectionsRemaining"%string = None -> f EmptyString "LookID"%string = None ->
  reads f (set_mId (mId it) AuctionHouseItem_new) (reloaded it).
Proof.
  intros [] Hb Hf Hsec Hlook S re rs flat. exists (mkReaderBase EmptyString KEYPREFIX_AUCTION_ITEM (sprintf_d (mId it)) flat).
  cbn [ReadEntity AuctionHouseItem_entity]. eapply gives_bind; [|apply gives_ret]. unfold item_ReadEntity.
  do 13 (read_value Hf). eapply gives_bind.
  - apply (gives_ListValue f _ _ _ (drop_empty (map bid_text (mBids it)))). cbn [r_section].
    rewrite (Hf "Bid"%string (join_items (map bid_text (mBids it)))) by (apply list_elem_of_In; cbn; tauto).
    cbn [default from_option]. by apply list_roundtrip; left.
  - rewrite read_bids_short; [apply gives_ret|].
    apply Forall_drop_empty, Forall_map. eapply list.Forall_impl; [exact Hb|]. apply bid_text_parts.
Qed.

Lemma auction_last_value it k v : (EmptyString, k, v) ∈ auction_values it -> last_value (auction_values it) EmptyString k = Some v.
Proof.
  intros Hin. apply list_elem_of_In in Hin. cbn in Hin.
  repeat (destruct Hin as [[= <- <-]|Hin]; [reflexivity|]). done.
Qed.

Section Stored.
Context {R : Type} `{Redis R}.

Abbreviation auction_ok it ks index := (entity_ok KEYPREFIX_AUCTION_ITEM (sprintf_d (mId it)) ks index).

(** The names of two fields that are read and never written. *)
Definition never_written (it : AuctionHouseItem) (ks : Keyspace) : Prop :=
  content ks (section_key KEYPREFIX_AUCTION_ITEM (sprintf_d (mId it)) EmptyString) "SectionsRemaining" = None /\
  content ks (section_key KEYPREFIX_AUCTION_ITEM (sprintf_d (mId it)) EmptyString) "LookID" = None.

Lemma SaveItem_stores (it : AuctionHouseItem) (r : R) index : is_connected r = true -> auction_ok it (contents r) index ->
  never_written it (contents r) ->
  exists r' index', SaveItem it r = Some (true, r') /\ is_connected r' = true /\ auction_ok it (contents r') index' /\
    section_key KEYPREFIX_AUCTION_ITEM (sprintf_d (mId it)) EmptyString ∈ index' /\ never_written it (contents r') /\
    (forall k v, (EmptyString, k, v) ∈ auction_values it ->
       content (contents r') (section_key KEYPREFIX_AUCTION_ITEM (sprintf_d (mId it)) EmptyString) k = Some v) /\
    forall k, k <> subkeys_key KEYPREFIX_AUCTION_ITEM (sprintf_d (mId it)) ->
      (forall sec, k <> section_key KEYPREFIX_AUCTION_ITEM (sprintf_d (mId it)) sec) -> contents r' !! k = contents r !! k.
Proof.
  intros Hr Hok [Hn1 Hn2]. destruct (WriteEntity_saves (H1 := AuctionHouseItem_laws) it r index Hr Hok) as (r' & index' & E & Hr' & [Hok' Hc Hi Hframe]).
  cbn [catalog_of id_of AuctionHouseItem_laws values] in *.
  assert (Forall (fun x => x.1.1 = EmptyString) (auction_values it)) as Hroot.
  { apply list.Forall_forall. intros x Hx. apply list_elem_of_In, in_map_iff in Hx as (? & <- & _). done. }
  assert (section_key KEYPREFIX_AUCTION_ITEM (sprintf_d (mId it)) EmptyString ∈
    written_keys KEYPREFIX_AUCTION_ITEM (sprintf_d (mId it)) (auction_values it)) as Hw by (by left).
  exists r', index'. split; [done|]. split; [done|]. split; [done|]. split; [apply Hi; by right|]. split; [|split; [|done]].
  - split; rewrite Hc; unfold saved_value; rewrite last_value_root by done; rewrite decide_False by tauto; done.
  - intros k v Hin. rewrite Hc. unfold saved_value. rewrite last_value_root by done. by rewrite (auction_last_value _ _ _ Hin).
Qed.

Lemma ReadItem_reloads (it : AuctionHouseItem) (r : R) index : is_connected r = true -> auction_ok it (contents r) index ->
  never_written it (contents r) -> auction_fits it -> Forall bid_fits (mBids it) ->
  (forall k v, (EmptyString, k, v) ∈ auction_values it ->
     content (contents r) (section_key KEYPREFIX_AUCTION_ITEM (sprintf_d (mId it)) EmptyString) k = Some v) ->
  exists r', ClusterManager_ReadEntity (set_mId (mId it) AuctionHouseItem_new) r = Some ((true, reloaded it), r') /\ is_connected r' = true /\ contents r' = contents r.
Proof.
  intros Hr Hok [Hn1 Hn2] Hfits Hb Hv.
  destruct (ReadEntity_reads (H1 := AuctionHouseItem_laws) (set_mId (mId it) AuctionHouseItem_new) (reloaded it) r index
    (fun sec k => content (contents r) (section_key KEYPREFIX_AUCTION_ITEM (sprintf_d (mId it)) sec) k) Hr Hok) as (r' & E & Hr' & Hc').
  - done.
  - by apply auction_reads.
  - by exists r'.
Qed.

End Stored.

(** Goes through the actions that are known. *)
Ltac go := repeat
  (unfold Enter, Leave, say;
   match goal with
   | |- does (_ ≫= _) _ _ => apply does_bind
   | |- does (mret _) _ _ => apply does_ret
   | |- does (modify _) _ _ => apply does_modify
   | |- does (gets _) _ _ => apply does_gets
   end).

(** ** Items in the world *)

Section InWorld.
Context {R : Type} `{Redis R} {db : ItemDb} `{!StdSort AuctionHouseItem} `{!StdSort (ScheduledTimerTask AuctionTask)}.
Context (cfg : Config) (creature_name : Z -> option string) (delivered : ChatMessage -> World R -> bool).

(** The store [r] holds the item. *)
Record holds (it : AuctionHouseItem) (r : R) : Prop := mkHolds {
  h_connected : is_connected r = true;
  h_index : exists index, entity_ok KEYPREFIX_AUCTION_ITEM (sprintf_d (mId it)) (contents r) index /\
    section_key KEYPREFIX_AUCTION_ITEM (sprintf_d (mId it)) EmptyString ∈ index;
  h_never : never_written it (contents r);
  h_fits : auction_fits it;
  h_bids : Forall bid_fits (mBids it);
  h_values : forall k v, (EmptyString, k, v) ∈ auction_values it ->
    content (contents r) (section_key KEYPREFIX_AUCTION_ITEM (sprintf_d (mId it)) EmptyString) k = Some v }.

Lemma holds_contents it (r r' : R) : holds it r -> is_connected r' = true -> contents r' = contents r -> holds it r'.
Proof. intros [] Hr' Hc. by split; rewrite ?Hc. Qed.

Lemma holds_read it (r : R) : holds it r -> exists r',
  ClusterManager_ReadEntity (set_mId (mId it) AuctionHouseItem_new) r = Some ((true, reloaded it), r') /\
  contents r' = contents r /\ holds it r'.
Proof.
  intros Hh. pose proof Hh as [Hr (index & Hok & _) Hn Hf Hb Hv].
  destruct (ReadItem_reloads it r index Hr Hok Hn Hf Hb Hv) as (r' & E & Hr' & Hc).
  exists r'. split; [done|]. split; [done|by apply (holds_contents _ r)].
Qed.

Lemma holds_load it (r : R) : holds it r -> exists r', LoadItem (mId it) r = Some (reloaded it, r') /\
  contents r' = contents r /\ holds it r'.
Proof.
  intros Hh. destruct (holds_read it r Hh) as (r' & E & Hc & Hh'). exists r'. unfold LoadItem.
  by rewrite (Act_bind_Some _ _ _ _ _ E).
Qed.

Lemma holds_save it it' (r : R) : holds it r -> mId it' = mId it -> auction_fits it' -> Forall bid_fits (mBids it') ->
  exists r', SaveItem it' r = Some (true, r') /\ holds it' r'.
Proof.
  intros [Hr [index [Hok _]] Hn Hf Hb Hv] Hid Hf' Hb'. rewrite <- Hid in Hok. unfold never_written in Hn. rewrite <- Hid in Hn.
  destruct (SaveItem_stores it' r index Hr Hok Hn) as (r' & index' & E & Hr' & Hok' & Hroot & Hn' & Hv' & _).
  exists r'. split; [done|]. split; [done|by exists index'|done..].
Qed.

(** Only the messages differ. *)
Definition add_sent (l : list Output) (w : World R) : World R :=
  mkWorld (store w) (g_ServerTime w) (clock w) (characters w) (players w) (accounts w) (loaded w) (npcs w) (sched w)
    (mTimers w) (cs w) (sent w ++ l).

Lemma tell_sent m w : exists l, tell delivered m w = Some (tt, add_sent l w).
Proof.
  unfold tell. rewrite (Act_bind_Some (SendChatMessage delivered m) _ w (delivered m w) (emit (Chat m) w)) by done.
  destruct (delivered m w); [by exists [Chat m]|]. exists [Chat m; OfflineMessage m].
  unfold say, modify, emit, add_sent. cbn. by rewrite <- app_assoc.
Qed.

Lemma find_party_known id (w : World R) cd : characters w !! id = Some cd -> exists p ptr l, find_party id w = Some (p, set_loaded l w) /\
  p_id p = id /\ p_character p = true /\ p_instance p = bool_decide (is_Some (players w !! id)) /\ p_css p = Some ptr /\
  ptr = (if players w !! id is Some _ then InstanceCss id else CharacterCss id) /\ is_Some (get_css ptr w).
Proof.
  intros Hc. unfold find_party. destruct (players w !! id) as [ci|] eqn:Hp; rewrite Hc.
  - eexists _, (InstanceCss id), (loaded w). cbv [mbind Act_bind GetActiveAccountByID mret Act_ret]. split; [by destruct w|].
    cbn [get_css p_id p_character p_instance p_css]. rewrite Hp. cbn. eauto 10.
  - cbv [mbind Act_bind FetchIndividualAccount mret Act_ret]. destruct (accounts w !! AccountID cd) eqn:Ha.
    + eexists _, (CharacterCss id), _. split; [done|]. cbn [get_css p_id p_character p_instance p_css]. rewrite Hc. cbn. eauto 10.
    + eexists _, (CharacterCss id), (loaded w). split; [by destruct w|]. cbn [get_css p_id p_character p_instance p_css]. rewrite Hc. cbn. eauto 10.
Qed.

(** The item has a timer, which runs the task. *)
Definition timed (id : Z) (task : AuctionTask) (when_ : Z) (w : World R) : Prop := exists t,
  mTimers w !! id = Some t /\ mkTimerTask when_ t task ∈ scheduled (sched w).

(** A time that is over is replaced by the next cycle. *)
Definition run_time (now when_ : Z) : Z := if when_ <=? now then u64 (now + g_MainSleep cfg) else when_.

(** One more task: of the rest, only the timers and the messages differ. *)
Record extends (w w' : World R) : Prop := mkExtends {
  e_time : g_ServerTime w' = g_ServerTime w;
  e_lock : cs w' = cs w;
  e_characters : characters w' = characters w;
  e_players : players w' = players w;
  e_accounts : accounts w' = accounts w;
  e_tasks : forall t, t ∈ scheduled (sched w) -> t ∈ scheduled (sched w') }.

Lemma schedule_timer_new id task when_ (w : World R) (Q : unit -> World R -> Prop) :
  (forall w', extends w w' -> store w' = store w -> timed id task (run_time (g_ServerTime w) when_) w' ->
     (forall id', id' <> id -> mTimers w' !! id' = mTimers w !! id') -> Q tt w') ->
  does (schedule_timer cfg id task when_) w Q.
Proof.
  intros HQ. unfold schedule_timer, modify. destruct (Schedule (g_ServerTime w) (g_MainSleep cfg) task when_ (sched w)) as [t s] eqn:E.
  eapply does_eq; [rewrite E; reflexivity|].
  pose proof (scheduled_Schedule (g_ServerTime w) (g_MainSleep cfg) task when_ (sched w)) as Hp. rewrite E in Hp.
  assert (t = mNextTaskId (sched w)) as -> by by injection E. cbn [snd] in Hp. apply HQ; cbn.
  - split; try done. intros x Hx. cbn. rewrite Hp. by right.
  - done.
  - exists (mNextTaskId (sched w)). split; [apply lookup_insert_eq|]. cbn. rewrite Hp. by left.
  - intros id' Hne. by rewrite lookup_insert_ne.
Qed.

Lemma CancelItemTimer_timers id (w : World R) : exists s t, CancelItemTimer id w = Some (tt, set_timers s t w) /\
  t = delete id (mTimers w).
Proof.
  unfold CancelItemTimer, modify. destruct (mTimers w !! id) eqn:E; [by eauto|].
  exists (sched w), (mTimers w). split; [by destruct w|]. by rewrite delete_id.
Qed.

Lemma completed_fits it : auction_fits it -> auction_fits (set_mCompleted true (reloaded it)).
Proof. by intros []. Qed.

(** What an auction that ends without a sale leaves. *)
Record unsold (it : AuctionHouseItem) (w w' : World R) : Prop := mkUnsold {
  u_characters : characters w' = characters w;
  u_players : players w' = players w;
  u_accounts : accounts w' = accounts w;
  u_lock : cs w' = cs w;
  u_timed : timed (mId it) (ExpireTask (set_mCompleted true (reloaded it))) (run_time (g_ServerTime w) (expiry_time cfg it)) w';
  u_store : holds (set_mCompleted true (reloaded it)) (store w') }.

Lemma keep_unsold_does it seller ptr why (w : World R) (Q : unit -> World R -> Prop) : holds it (store w) ->
  p_css seller = Some ptr -> is_Some (get_css ptr w) ->
  (forall w', unsold it (add_cs (-1) w) w' -> Q tt w') ->
  does (keep_unsold cfg creature_name delivered (reloaded it) seller why) w Q.
Proof.
  intros Hh Hp [c Hc] HQ. unfold keep_unsold. rewrite Hp. apply does_bind. eapply does_eq; [unfold deref_css; by rewrite Hc|].
  apply does_bind. match goal with |- does (tell _ ?m) _ _ => destruct (tell_sent m w) as [l El] end.
  eapply does_eq; [exact El|].
  destruct (holds_save it (set_mCompleted true (reloaded it)) (store w) Hh) as (r' & Es & Hh'); [done|by apply completed_fits; destruct Hh|done|].
  apply does_bind. eapply does_eq; [unfold on_store; cbn [store add_sent]; by rewrite Es|].
  apply does_bind. destruct (CancelItemTimer_timers (mId (reloaded it)) (set_store r' (add_sent l w))) as (s1 & t1 & Ec & _).
  eapply does_eq; [exact Ec|]. apply does_bind.
  apply schedule_timer_new. intros w1 [] Hs Ht _. go. apply HQ. cbn in *. split; cbn; try congruence. exact Ht.
Qed.

Lemma CompleteAuction_unsold it cd (w : World R) : mId it <> 0 -> holds it (store w) -> characters w !! mSeller it = Some cd ->
  does (CompleteAuction cfg creature_name delivered (mId it)) w (fun _ w' => unsold it w w').
Proof.
  intros Hid Hh Hcd. destruct (holds_load it (store w) Hh) as (r' & El & Hc & Hh'). unfold CompleteAuction.
  apply does_bind. eapply does_eq; [unfold on_store; by rewrite El|]. cbn [mId reloaded mBids mSeller].
  apply Z.eqb_neq in Hid as ->. go.
  destruct (find_party_known (mSeller it) (add_cs 1 (set_store r' w)) cd Hcd) as (p & ptr & l & Ep & _ & _ & _ & Hp & _ & Hcss).
  eapply does_eq; [exact Ep|]. cbn [rev best_bid]. go. eapply (keep_unsold_does it p ptr); [done|done| |].
  - by destruct ptr.
  - intros w' []. split; try done. cbn in *. lia.
Qed.

(** *** When the server starts *)

(** The timer of a loaded item. *)
Definition item_timed (it : AuctionHouseItem) (w : World R) : Prop :=
  if mCompleted it
  then timed (mId it) (ExpireTask (reloaded it)) (run_time (g_ServerTime w) (expiry_time cfg it)) w
  else timed (mId it) (CompleteTask (mId it)) (run_time (g_ServerTime w) (mEndDate it)) w.

Lemma item_timed_extends it w w' : extends w w' -> mTimers w' !! mId it = mTimers w !! mId it -> item_timed it w -> item_timed it w'.
Proof.
  intros [Hg _ _ _ _ Hs] Hm. unfold item_timed, timed. rewrite Hm, Hg.
  destruct (mCompleted it); intros (t & ? & ?); exists t; auto.
Qed.

Lemma CancelItemTimer_none id (w : World R) (Q : unit -> World R -> Prop) : mTimers w !! id = None -> Q tt w ->
  does (CancelItemTimer id) w Q.
Proof. intros Hn HQ. eapply does_eq; [|exact HQ]. unfold CancelItemTimer, modify. by rewrite Hn. Qed.

Lemma load_items_timed items (w : World R) : is_master cfg = true -> Forall (fun it => holds it (store w)) items ->
  Forall (fun it => in_i32 (mId it)) items -> NoDup (map mId items) ->
  (forall it, it ∈ items -> mTimers w !! mId it = None) ->
  does (load_items cfg (map (fun it => sprintf_d (mId it)) items)) w (fun _ w' =>
    extends w w' /\ Forall (fun it => item_timed it w') items /\
    forall id, id ∉ map mId items -> mTimers w' !! id = mTimers w !! id).
Proof.
  intros Hmaster. revert w. induction items as [|it items IH]; intros w Hh Hi Hnd Hnone.
  - apply does_ret. split; [done|]. by split; [constructor|].
  - cbn [map load_items]. apply list.Forall_cons in Hh as [Hit Hh]. apply list.Forall_cons in Hi as [Hi1 Hi].
    cbn [map] in Hnd. apply list.NoDup_cons in Hnd as [Hnew Hnd].
    destruct (holds_load it (store w) Hit) as (r' & El & Hc & Hh'). apply does_bind.
    eapply does_eq; [unfold on_store; rewrite atoi_sprintf_d_lemma by done; by rewrite El|]. go. cbn [mId reloaded mCompleted mEndDate].
    apply CancelItemTimer_none; [apply Hnone; by left|]. rewrite Hmaster. apply does_bind.
    assert (forall w1, extends w w1 -> store w1 = r' -> item_timed it w1 ->
      (forall id', id' <> mId it -> mTimers w1 !! id' = mTimers w !! id') ->
      does (load_items cfg (map (fun it => sprintf_d (mId it)) items)) w1 (fun _ w' =>
        extends w w' /\ Forall (fun it => item_timed it w') (it :: items) /\
        forall id, id ∉ map mId (it :: items) -> mTimers w' !! id = mTimers w !! id)) as Hrest.
    { intros w1 [] Hs Ht Hm. eapply does_mono; [apply IH|].
      - rewrite Hs. eapply list.Forall_impl; [exact Hh|]. intros it' Hit'.
        apply (holds_contents _ (store w)); [done|by destruct Hh'|done].
      - done.
      - done.
      - intros it' Hit'. rewrite Hm; [apply Hnone; by right|]. intros E. apply Hnew. rewrite <- E.
        apply list_elem_of_In, in_map, list_elem_of_In, Hit'.
      - intros _ w2 (Hext & Hall & Hother). split; [|split].
        + destruct Hext. split; [congruence..|auto].
        + constructor; [|done]. apply (item_timed_extends it w1); [done| |done]. by apply Hother.
        + intros id [Hid1 Hid2]%not_elem_of_cons. rewrite Hother by done. by apply Hm. }
    destruct (mCompleted it) eqn:Ec; cbn [negb].
    all: apply schedule_timer_new; intros w1 [E1] Hs Ht Hm; go; apply Hrest; try done.
    all: try (split; [cbn in *; try done; lia..|done]).
    all: unfold item_timed; rewrite Ec; destruct Ht as (t & ? & ?); exists t; split; [done|]; cbn in E1 |- *; by rewrite E1.
Qed.


(** *** Removing an item *)

Lemma names_map {A B} (f : A -> B) (l : list B) : (forall k, k ∈ l -> exists a, k = f a) -> exists l', l = map f l'.
Proof.
  induction l as [|k l IH]; intros Hl; [by exists []|]. destruct (Hl k) as [a ->]; [by left|].
  destruct IH as [l' ->]; [intros k' Hk'; apply Hl; by right|]. by exists (a :: l').
Qed.

(** Nothing of the item is left in the store. *)
Definition gone (it : AuctionHouseItem) (ks : Keyspace) : Prop :=
  ks !! subkeys_key KEYPREFIX_AUCTION_ITEM (sprintf_d (mId it)) = None /\
  ks !! section_key KEYPREFIX_AUCTION_ITEM (sprintf_d (mId it)) EmptyString = None.

Lemma holds_remove it (r : R) : holds it r -> exists r', ClusterManager_RemoveEntity it r = Some (true, r') /\
  is_connected r' = true /\ gone it (contents r') /\
  forall k, k <> subkeys_key KEYPREFIX_AUCTION_ITEM (sprintf_d (mId it)) ->
    (forall sec, k <> section_key KEYPREFIX_AUCTION_ITEM (sprintf_d (mId it)) sec) -> contents r' !! k = contents r !! k.
Proof.
  intros [Hr (index & Hok & Hroot) _ _ _ _]. destruct (names_map _ _ (index_names _ _ _ _ Hok)) as [secs ->].
  destruct (RemoveEntity_removes (H1 := AuctionHouseItem_laws) it r secs Hr eq_refl (sprintf_d_cstr _) Hok) as (r' & E & Hr' & Hc).
  exists r'. split; [done|]. split; [done|]. cbn [catalog_of id_of AuctionHouseItem_laws] in Hc. split; [split|].
  - rewrite Hc, decide_True; [done|by left].
  - rewrite Hc, decide_True; [done|]. right. apply list_elem_of_In, in_map_iff in Hroot as (sec & E' & Hsec).
    rewrite <- E'. apply list_elem_of_In, in_map, filter_In. split; [done|].
    rewrite !section_key_name in E'. apply append_inj_l, append_inj_l in E' as ->. done.
  - intros k Hk1 Hk2. rewrite Hc, decide_False; [done|]. intros [?|Hk]; [done|].
    apply list_elem_of_In, in_map_iff in Hk as (sec & <- & _). by apply (Hk2 sec).
Qed.


(** Characters, accounts and clocks are the same. *)
Record same_people (w w' : World R) : Prop := mkSamePeople {
  sp_time : g_ServerTime w' = g_ServerTime w;
  sp_lock : cs w' = cs w;
  sp_characters : characters w' = characters w;
  sp_players : players w' = players w;
  sp_accounts : accounts w' = accounts w;
  sp_loaded : loaded w' = loaded w;
  sp_npcs : npcs w' = npcs w }.

Lemma list_key_apart id : LISTPREFIX_AUCTION_ITEMS <> subkeys_key KEYPREFIX_AUCTION_ITEM id /\
  forall sec, LISTPREFIX_AUCTION_ITEMS <> section_key KEYPREFIX_AUCTION_ITEM id sec.
Proof.
  split; [|intros sec; rewrite section_key_name]; unfold subkeys_key, entity_key, KEYPREFIX_AUCTION_ITEM, LISTPREFIX_AUCTION_ITEMS; intros E;
    apply (f_equal (String.get 11)) in E; vm_compute in E; discriminate.
Qed.

Lemma RemoveItem_does it ids (w : World R) (Q : bool -> World R -> Prop) : mId it <> 0 -> holds it (store w) ->
  list_at (contents (store w)) LISTPREFIX_AUCTION_ITEMS = Some ids ->
  (forall w', same_people w w' -> mTimers w' = delete (mId it) (mTimers w) -> is_connected (store w') = true ->
     gone it (contents (store w')) ->
     list_at (contents (store w')) LISTPREFIX_AUCTION_ITEMS = Some (lrem 1 (sprintf_d (mId it)) ids) -> Q true w') ->
  does (RemoveItem cfg (mId it)) w Q.
Proof.
  intros Hid Hh Hl HQ. apply Z.eqb_neq in Hid. destruct (list_key_apart (sprintf_d (mId it))) as [Hk1 Hk2].
  destruct (holds_load it (store w) Hh) as (r1 & E1 & Hc1 & Hh1). unfold RemoveItem. go.
  eapply does_eq; [unfold on_store; cbn [store add_cs]; by rewrite E1|]. cbn [mId mAuctioneer reloaded]. rewrite Hid. go.
  destruct (CancelItemTimer_timers (mId it) (set_store r1 (add_cs 1 w))) as (s & t & Et & ->). eapply does_eq; [exact Et|]. go.
  destruct (holds_remove it r1 Hh1) as (r2 & E2 & Hr2 & [Hg1 Hg2] & Hf2).
  eapply does_eq; [unfold on_store; cbn [store set_timers set_store];
    change (ClusterManager_RemoveEntity (reloaded it)) with (ClusterManager_RemoveEntity (R:=R) it); by rewrite E2|].
  cbn [negb]. go.
  assert (list_at (contents r2) LISTPREFIX_AUCTION_ITEMS = Some ids) as Hl2.
  { unfold list_at. rewrite Hf2, Hc1 by done. exact Hl. }
  destruct (ListRemove_runs LISTPREFIX_AUCTION_ITEMS (sprintf_d (mId it)) _ ids (fun _ ks =>
    list_at ks LISTPREFIX_AUCTION_ITEMS = Some (lrem 1 (sprintf_d (mId it)) ids) /\ forall k, k <> LISTPREFIX_AUCTION_ITEMS -> ks !! k = contents r2 !! k)
    Hl2 ltac:(intros b ks' ? ?; done) r2 Hr2 eq_refl) as (b & r3 & E3 & Hr3 & Hl3 & Hf3).
  eapply does_eq; [unfold on_store; cbn [store set_store]; by rewrite E3|].
  assert (gone it (contents r3)) as Hg by (split; rewrite Hf3 by (by apply not_eq_sym); done).
  destruct (clusterable cfg); go; apply HQ; try done; split; try done; cbn; lia.
Qed.
End InWorld.
