(* ===== verification/AuctionSales.v ===== *)
(** * Auction house: selling and buying

    The queries that list an item and that buy it at once: what the buyer, the seller, the
    store, the timers and the lock are after them. *)

From S2P Require Import Prelude StdSort ByteBuffer Messages Text Float Items Inventory InventoryStock Entities Cluster ClusterFacts Scheduler SchedulerFacts Auction AuctionHouse AuctionFacts.

Section Buying.
Context {R : Type} `{Redis R} {db : ItemDb} `{!StdSort AuctionHouseItem} `{!StdSort (ScheduledTimerTask AuctionTask)}.
Context (cfg : Config) (creature_name : Z -> option string) (delivered : ChatMessage -> World R -> bool).
Context (me account : Z) (npc_at : Z -> option (Z * string)) (queryID : Z) (args : list string).

(** ** Checking *)

(** Only the credits of the buyer's stats may differ. *)
Record validated (ci : CreatureInstance) (w w' : World R) : Prop := mkValidated {
  v_store : store w' = store w;
  v_time : g_ServerTime w' = g_ServerTime w;
  v_characters : characters w' = characters w;
  v_lock : cs w' = cs w;
  v_timers : mTimers w' = mTimers w;
  v_others : forall id, id <> me -> players w' !! id = players w !! id;
  v_me : exists ci', players w' !! me = Some ci' /\ copper (css ci') = copper (css ci) }.

(** What a buyer needs. *)
Record buyable (it : AuctionHouseItem) (ci : CreatureInstance) (cd : CharacterData) (w : World R) : Prop := mkBuyable {
  b_instance : players w !! me = Some ci;
  b_character : characters w !! me = Some cd;
  b_account : UseAccountCredits cfg = true -> is_Some (accounts w !! account);
  b_money : 0 < mBuyItNowCopper it <= u64 (copper (css ci));
  b_credits : mBuyItNowCredits it = 0;
  b_begun : mStartDate it <= g_ServerTime w;
  b_open : mEndDate it = 0 \/ g_ServerTime w < mEndDate it;
  b_slot : GetFreeSlot (inventory cd) INV_CONTAINER <> -1 }.

Lemma sync_credits_me ci (w : World R) (Q : unit -> World R -> Prop) : players w !! me = Some ci ->
  (UseAccountCredits cfg = true -> is_Some (accounts w !! account)) ->
  (forall w', validated ci w w' -> Q tt w') -> does (sync_credits cfg (InstanceCss me) (Some account)) w Q.
Proof.
  intros Hci Hacc HQ. unfold sync_credits. destruct (UseAccountCredits cfg).
  - destruct Hacc as [acc Ha]; [done|]. eapply does_eq; [by rewrite Ha|]. apply HQ. split; try done.
    + intros id Hid. cbn. by rewrite lookup_alter_ne.
    + cbn. rewrite lookup_alter_eq, Hci. cbn. by eexists.
  - eapply does_eq; [done|]. apply HQ. split; try done. by exists ci.
Qed.

Lemma ValidateItem_ok it ci cd (w : World R) (Q : Z -> World R -> Prop) : buyable it ci cd w ->
  (forall w', validated ci w w' -> Q AuctionHouseError.NONE w') -> does (ValidateItem cfg it me account) w Q.
Proof.
  intros [Hci Hcd Hacc Hm Hcr Hb Ho Hs] HQ. unfold ValidateItem. go.
  eapply does_eq; [unfold deref_css; cbn [get_css]; rewrite Hci; reflexivity|].
  destruct (Z.ltb_spec (u64 (copper (css ci))) (mBuyItNowCopper it)); [lia|]. go.
  apply (sync_credits_me ci); [done..|]. intros w' Hv. pose proof Hv as [_ Ht Hc _ _ _ (ci' & Hci' & _)]. go.
  eapply does_eq; [unfold deref_css; cbn [get_css]; rewrite Hci'; reflexivity|]. rewrite Hcr.
  destruct (Z.ltb_spec (u64 (credits (css ci'))) 0); [pose proof (unsigned_range 64 (credits (css ci')) ltac:(done)) as [? _]; lia|]. go.
  rewrite Ht. replace (g_ServerTime w <? mStartDate it) with false by lia. rewrite andb_false_r.
  replace (negb (mEndDate it =? 0) && (mEndDate it <=? g_ServerTime w)) with false by lia. go.
  rewrite Hc, Hcd. go. replace (GetFreeSlot (inventory cd) INV_CONTAINER =? -1) with false by lia. by apply HQ.
Qed.


(** ** Paying *)

Lemma stat_update_sent id stat (w : World R) : exists l, stat_update id stat w = add_sent l w.
Proof.
  unfold stat_update. destruct (players w !! id) as [c|]; [by eexists|]. exists []. unfold add_sent. rewrite app_nil_r. by destruct w.
Qed.

(** [ptr] is where the stats of [id] are. *)
Definition css_of (id : Z) (w : World R) : CssPtr := if players w !! id is Some _ then InstanceCss id else CharacterCss id.

(** What the payment of [n] leaves. *)
Record paid (seller n : Z) (w w' : World R) : Prop := mkPaid {
  pd_store : store w' = store w;
  pd_time : g_ServerTime w' = g_ServerTime w;
  pd_lock : cs w' = cs w;
  pd_timers : mTimers w' = mTimers w;
  pd_inventories : forall id, inventory <$> characters w' !! id = inventory <$> characters w !! id;
  pd_buyer : get_css (InstanceCss me) w' = add_copper (- n) <$> get_css (InstanceCss me) w;
  pd_seller : get_css (css_of seller w) w' = add_copper n <$> get_css (css_of seller w) w }.

Lemma upd_css_frame ptr f (w : World R) : store (upd_css ptr f w) = store w /\ g_ServerTime (upd_css ptr f w) = g_ServerTime w /\
  cs (upd_css ptr f w) = cs w /\ mTimers (upd_css ptr f w) = mTimers w /\
  (forall id, inventory <$> characters (upd_css ptr f w) !! id = inventory <$> characters w !! id) /\
  get_css ptr (upd_css ptr f w) = f <$> get_css ptr w /\
  (forall ptr', ptr' <> ptr -> get_css ptr' (upd_css ptr f w) = get_css ptr' w).
Proof.
  repeat split; try (by destruct ptr).
  - intros id. destruct ptr as [id'|id']; [done|]. cbn. destruct (decide (id = id')) as [->|Hne].
    + rewrite lookup_alter_eq. by destruct (characters w !! id').
    + by rewrite lookup_alter_ne.
  - destruct ptr as [id|id]; cbn; rewrite lookup_alter_eq; [by destruct (players w !! id)|by destruct (characters w !! id)].
  - intros [id'|id'] Hne; destruct ptr as [id|id]; try done; cbn; rewrite lookup_alter_ne by congruence; done.
Qed.

Lemma upd_pending_css ptr id (w : World R) : get_css ptr (upd_character id pending_change w) = get_css ptr w.
Proof.
  destruct ptr as [id'|id']; [done|]. cbn. destruct (decide (id' = id)) as [->|Hne].
  - rewrite lookup_alter_eq. by destruct (characters w !! id).
  - by rewrite lookup_alter_ne.
Qed.

Lemma upd_pending_inventory id id' (w : World R) :
  inventory <$> characters (upd_character id pending_change w) !! id' = inventory <$> characters w !! id'.
Proof.
  cbn. destruct (decide (id' = id)) as [->|Hne].
  - rewrite lookup_alter_eq. by destruct (characters w !! id).
  - by rewrite lookup_alter_ne.
Qed.

Lemma buy_copper_pays seller n (w : World R) : 0 < n -> p_character seller = true ->
  p_css seller = Some (css_of (p_id seller) w) -> p_id seller <> me -> paid (p_id seller) n w (buy_copper me seller n w).
Proof.
  intros Hn Hch Hcss Hne. unfold buy_copper. apply Z.ltb_lt in Hn as ->. rewrite Hcss, Hch.
  destruct (stat_update_sent me STAT_COPPER (upd_css (InstanceCss me) (add_copper (- n)) w)) as [l1 ->].
  set (p := css_of (p_id seller) w). assert (p <> InstanceCss me) as Hp by (unfold p, css_of; case_match; congruence).
  set (w1 := upd_css (InstanceCss me) (add_copper (- n)) w).
  destruct (upd_css_frame (InstanceCss me) (add_copper (- n)) w) as (S1 & T1 & C1 & M1 & I1 & B1 & O1). fold w1 in S1, T1, C1, M1, I1, B1, O1.
  destruct (upd_css_frame p (add_copper n) (add_sent l1 w1)) as (S2 & T2 & C2 & M2 & I2 & B2 & O2).
  set (w2 := upd_css p (add_copper n) (add_sent l1 w1)) in *.
  assert (forall l, paid (p_id seller) n w (add_sent l (upd_character (p_id seller) pending_change w2))) as Hpaid.
  { intros l. split; try (cbn in *; congruence).
    - intros id. change (inventory <$> characters (upd_character (p_id seller) pending_change w2) !! id = inventory <$> characters w !! id).
      rewrite upd_pending_inventory, I2. apply I1.
    - change (get_css (InstanceCss me) (upd_character (p_id seller) pending_change w2) = add_copper (- n) <$> get_css (InstanceCss me) w).
      rewrite upd_pending_css, O2 by done. exact B1.
    - change (get_css p (upd_character (p_id seller) pending_change w2) = add_copper n <$> get_css p w).
      rewrite upd_pending_css, B2. change (get_css p (add_sent l1 w1)) with (get_css p w1). by rewrite O1. }
  destruct (p_instance seller).
  - destruct (stat_update_sent (p_id seller) STAT_COPPER (upd_character (p_id seller) pending_change w2)) as [l2 ->]. apply Hpaid.
  - specialize (Hpaid []). unfold add_sent in Hpaid. rewrite app_nil_r in Hpaid. by destruct w2.
Qed.


(** ** The purchase *)

(** What the purchase of [it], put at [i] of the inventory, leaves. *)
Record bought (it : AuctionHouseItem) (ci : CreatureInstance) (ids : list string) (i : nat) (w w' : World R) : Prop := mkBought {
  bt_lock : cs w' = cs w;
  bt_gone : gone it (contents (store w'));
  bt_list : list_at (contents (store w')) LISTPREFIX_AUCTION_ITEMS = Some (lrem 1 (sprintf_d (mId it)) ids);
  bt_timer : mTimers w' = delete (mId it) (mTimers w);
  bt_buyer : copper <$> get_css (InstanceCss me) w' = Some (i32 (copper (css ci) - mBuyItNowCopper it));
  bt_seller : get_css (css_of (mSeller it) w) w' = add_copper (mBuyItNowCopper it) <$> get_css (css_of (mSeller it) w) w;
  bt_item : exists cd s, characters w' !! me = Some cd /\ cont (inventory cd) INV_CONTAINER !! i = Some s /\
    IID s = mItemId it /\ customLook s = 0 /\ secondsRemaining s = 0 }.

Context (it : AuctionHouseItem) (ci : CreatureInstance) (cd scd : CharacterData) (ids : list string).
Context (a0 a1 name : string) (cdef : Z).
Hypothesis (Ha0 : args !! 0%nat = Some a0) (Ha1 : args !! 1%nat = Some a1) (Hid1 : atoi a1 = mId it) (Hid : mId it <> 0).
Hypothesis (Hnpc : npc_at (atoi a0) = Some (cdef, name)) (Hauctioneer : mAuctioneer it = 0 \/ mAuctioneer it = cdef).

Abbreviation Buy := (AuctionHouseBuyHandler cfg delivered me account npc_at queryID args).

(** The steps up to the check, for an item that is held. *)
Lemma Buy_checks (w : World R) (Q : list Z -> World R -> Prop) : holds it (store w) ->
  (forall r, contents r = contents (store w) -> holds it r ->
     does (purchase cfg delivered me account queryID (reloaded it) (atoi a0) name) (add_cs 1 (set_store r w)) Q) -> does Buy w Q.
Proof.
  intros Hh HQ. destruct (holds_load it (store w) Hh) as (r & E & Hc & Hh'). unfold AuctionHouseBuyHandler. go.
  unfold int_arg at 1, string_arg. go. eapply does_eq; [by rewrite Ha1|]. go. rewrite Hid1.
  eapply does_eq; [unfold on_store; by rewrite E|]. go. cbn [mId reloaded mAuctioneer mSeller mBuyItNowCopper mBuyItNowCredits].
  rewrite (proj2 (Z.eqb_neq _ _) Hid). unfold int_arg, string_arg. go. eapply does_eq; [by rewrite Ha0|]. go. rewrite Hnpc.
  replace (negb (mAuctioneer it =? 0) && negb (mAuctioneer it =? cdef)) with false by lia. by apply HQ.
Qed.


(** A buyer without the copper is told so, and the lock stays taken. *)
Lemma Buy_refused (w : World R) : holds it (store w) -> players w !! me = Some ci ->
  u64 (copper (css ci)) < mBuyItNowCopper it ->
  does Buy w (fun reply w' => reply = PrepExt_QueryResponseError queryID "You do not have enough copper!" /\
    cs w' = cs w + 1 /\ characters w' = characters w /\ players w' = players w).
Proof.
  intros Hh Hci Hm. apply Buy_checks; [done|]. intros r _ _. unfold purchase, ValidateItem. go.
  eapply does_eq; [unfold deref_css; cbn [get_css]; cbn; rewrite Hci; reflexivity|].
  cbn [mBuyItNowCopper reloaded]. apply Z.ltb_lt in Hm as ->. go. eapply does_eq; [reflexivity|]. done.
Qed.

(** The slot of the inventory that was given the item. *)
Lemma dressed_slot m i s : shaped m -> cont m INV_CONTAINER !! i = Some s ->
  cont (update_slot m INV_CONTAINER i (fun s => mkSlot (CCSID s) (IID s) (count s) 0 (bindStatus s) 0 (timeLoaded s))) INV_CONTAINER !! i =
  Some (mkSlot (CCSID s) (IID s) (count s) 0 (bindStatus s) 0 (timeLoaded s)).
Proof.
  intros Hm Hs. unfold update_slot. rewrite cont_set_cont; [|done|by eapply cont_lookup_valid].
  by rewrite list_lookup_alter_eq, Hs.
Qed.


Lemma characters_upd id f (w : World R) : characters (upd_character id f w) !! id = f <$> characters w !! id.
Proof. apply lookup_alter_eq. Qed.
Lemma characters_upd_ne id id' f (w : World R) : id' <> id -> characters (upd_character id f w) !! id' = characters w !! id'.
Proof. intros Hne. by apply lookup_alter_ne. Qed.

(** The item is in the buyer's inventory, dressed with what was read from the store. *)
Record carrying (i : nat) (w : World R) : Prop := mkCarrying {
  c_seller : characters w !! mSeller it = Some scd;
  c_me : exists cd' s, characters w !! me = Some cd' /\ cont (inventory cd') INV_CONTAINER !! i = Some s /\
    IID s = mItemId it /\ customLook s = 0 /\ secondsRemaining s = 0 }.

Lemma carrying_dress i s inv' (w : World R) : mSeller it <> me -> characters w !! me = Some cd -> characters w !! mSeller it = Some scd ->
  shaped inv' -> cont inv' INV_CONTAINER !! i = Some s -> IID s = mItemId it ->
  carrying i (dress_slot me i (reloaded it) (upd_character me pending_change (upd_character me (set_inventory inv') w))).
Proof.
  intros Hne Hcd Hs Hsh Hi HI. split; cbn.
  - by rewrite !lookup_alter_ne by done.
  - rewrite !lookup_alter_eq, Hcd. cbn. eexists _, _. split; [done|]. split; [by eapply dressed_slot|]. done.
Qed.

Lemma purchase_sells i inv' (w : World R) : holds it (store w) -> list_at (contents (store w)) LISTPREFIX_AUCTION_ITEMS = Some ids ->
  buyable it ci cd w -> characters w !! mSeller it = Some scd -> mSeller it <> me ->
  stockable (inventory cd) INV_CONTAINER -> stack_limits_ok -> 1 <= i32 (mCount it + 1) < 2 ^ 30 ->
  AddItem_Ex (g_ServerTime w) (inventory cd) INV_CONTAINER (mItemId it) (i32 (mCount it + 1)) = (Some i, inv') ->
  does (purchase cfg delivered me account queryID (reloaded it) (atoi a0) name) w (fun _ w' => bought it ci ids i (add_cs (-1) w) w').
Proof.
  intros Hh Hl Hb Hscd Hne Hst Hlim Hn Hadd. unfold purchase. go.
  apply (ValidateItem_ok (reloaded it) ci cd); [by destruct Hb|]. intros w1 [V1 V2 V3 V4 V5 V6 (ci' & Hci' & Hcop)].
  cbn [Z.eqb negb AuctionHouseError.NONE]. go.
  assert (characters w1 !! me = Some cd) as Hcd by (rewrite V3; apply Hb).
  eapply does_eq; [unfold take_item; rewrite Hcd, V2; cbn [mItemId mCount reloaded]; rewrite Hadd; reflexivity|].
  destruct (AddItem_Ex_Some _ _ _ _ _ _ _ Hst ltac:(done) Hlim Hn Hadd) as (Hst' & _ & s & _ & Hs & HI & _).
  go. cbn [id]. rewrite characters_upd, Hcd. cbn [fmap option_fmap option_map]. go.
  match goal with |- does (find_party _) ?w0 _ => set (w2 := w0) end.
  assert (carrying i w2) as [Hsel (cd2 & s2 & Hcd2 & Hs2 & HI2)].
  { eapply carrying_dress; [done..| |apply Hst'|done|done]. by rewrite V3. }
  destruct (find_party_known (mSeller it) w2 scd Hsel) as (p & ptr & l & Ep & Pid & Pch & _ & Pcss & -> & _).
  cbn [mSeller mId mBuyItNowCopper mBuyItNowCredits reloaded]. eapply does_eq; [exact Ep|]. go.
  apply (RemoveItem_does cfg it ids); [done|by rewrite <- V1 in Hh|by rewrite <- V1 in Hl|].
  intros w3 [P1 P2 P3 P4 _ _ _] Ht3 _ Hg3 Hl3. go.
  match goal with |- does (buy_credits _ _ _ _ _) (buy_copper _ _ _ ?w0) _ => set (w4 := w0) end.
  assert (forall id, id <> me -> players w4 !! id = players w !! id) as Hpl by (intros id Hid'; cbn; rewrite P4; by apply V6).
  destruct (buy_copper_pays p (mBuyItNowCopper it) w4) as [D1 D2 D3 D4 D5 D6 D7]; [apply Hb|done| |by rewrite Pid|].
  { rewrite Pcss. unfold css_of. rewrite Pid. cbn. by rewrite P4. }
  unfold buy_credits. rewrite (b_credits _ _ _ _ Hb). cbn [Z.ltb Z.compare]. go.
  set (w5 := buy_copper me p (mBuyItNowCopper it) w4) in *.
  assert (exists cd5, characters w5 !! me = Some cd5 /\ inventory cd5 = inventory cd2) as (cd5 & Hcd5 & Hinv).
  { specialize (D5 me). replace (characters w4 !! me) with (Some cd2) in D5 by (cbn; by rewrite P3).
    destruct (characters w5 !! me) as [cd5|]; [|done]. injection D5 as D5. by exists cd5. }
  cbn [id]. rewrite Hcd5. cbn [mbind option_bind]. rewrite Hinv, Hs2. go. eapply does_eq; [reflexivity|]. go.
  split; cbn.
  - rewrite D3. cbn. rewrite P2. cbn. rewrite V4. lia.
  - rewrite D1. exact Hg3.
  - rewrite D1. exact Hl3.
  - rewrite D4. cbn. rewrite Ht3. cbn. by rewrite V5.
  - change (copper <$> get_css (InstanceCss me) w5 = Some (i32 (copper (css ci) - mBuyItNowCopper it))).
    rewrite D6. cbn. rewrite P4. cbn. rewrite Hci'. cbn. by rewrite Hcop.
  - rewrite Pid in D7. unfold css_of in D7 |- *. rewrite Hpl in D7 by done.
    change (get_css (if players w !! mSeller it is Some _ then InstanceCss (mSeller it) else CharacterCss (mSeller it)) w5 =
      add_copper (mBuyItNowCopper it) <$>
      get_css (if players w !! mSeller it is Some _ then InstanceCss (mSeller it) else CharacterCss (mSeller it)) w).
    rewrite D7. destruct (players w !! mSeller it) eqn:Eseller; cbn [get_css].
    + by rewrite Hpl.
    + replace (characters w4 !! mSeller it) with (Some scd) by (cbn; by rewrite P3). by rewrite Hscd.
  - exists cd5, s2. by rewrite Hinv.
Qed.


Lemma Buy_sells i inv' (w : World R) : holds it (store w) -> list_at (contents (store w)) LISTPREFIX_AUCTION_ITEMS = Some ids ->
  buyable it ci cd w -> characters w !! mSeller it = Some scd -> mSeller it <> me ->
  stockable (inventory cd) INV_CONTAINER -> stack_limits_ok -> 1 <= i32 (mCount it + 1) < 2 ^ 30 ->
  AddItem_Ex (g_ServerTime w) (inventory cd) INV_CONTAINER (mItemId it) (i32 (mCount it + 1)) = (Some i, inv') ->
  does Buy w (fun _ w' => bought it ci ids i w w').
Proof.
  intros Hh Hl Hb Hscd Hne Hst Hlim Hn Hadd. apply Buy_checks; [done|]. intros r Hr Hh'.
  eapply does_mono; [apply (purchase_sells i inv'); [done|by cbn; rewrite Hr|by destruct Hb|done..]|].
  intros _ w' []. split; try done. cbn in *. lia.
Qed.
End Buying.

(** An item with no time left is among those the next scan removes, at any time. *)
Lemma expired_scanned {db : ItemDb} now m c i s : cont m c !! i = Some s -> secondsRemaining s = 0 ->
  mkQuery (CCSID s) (GetStackCount s) TYPE_REMOVE (c, i) ∈ ScanExpiredItems now m.
Proof.
  intros Hs Hz. apply cont_lookup_valid in Hs as Hc. unfold ScanExpiredItems. apply list_elem_of_In, in_concat.
  eexists. split; [apply in_map, list_elem_of_In, (elem_of_seqZ 0 MAXCONTAINER c), Hc|].
  apply list_elem_of_In, list_elem_of_omap. exists (i, s). split.
  - apply list_elem_of_lookup. exists i. rewrite lookup_zip_with, Hs, lookup_seq_lt by by eapply lookup_lt_Some. done.
  - assert (GetTimeRemaining now s = 0) as ->; [|by rewrite Hz].
    unfold GetTimeRemaining. rewrite Hz. cbn [Z.ltb Z.compare].
    pose proof (unsigned_range 64 (now - timeLoaded s) ltac:(done)) as Hu. unfold in_unsigned in Hu.
    change (u64 0) with 0. set (x := u64 (now - timeLoaded s)) in *.
    assert (0 <= x / 1000 < 2 ^ 63) as Hx by (split; [apply Z.div_pos|apply Z.div_lt_upper_bound]; lia). clearbody x.
    rewrite (signed_id 64) by (unfold in_signed; lia). destruct (Z.ltb_spec (0 - x / 1000) 0) as [|]; [done|].
    by replace (0 - x / 1000) with 0 by lia.
Qed.

(** ** Properties *)

(** An item that is held and listed, a query of a player for it at its auctioneer, and
    a player who can buy it: [i] is where it goes in the inventory. *)
Record for_sale {R} `{Redis R} {db : ItemDb} (cfg : Config) (me account : Z) (npc_at : Z -> option (Z * string)) (args : list string)
    (it : AuctionHouseItem) (ci : CreatureInstance) (ids : list string) (i : nat) (w : World R) : Prop := mkForSale {
  f_id : mId it <> 0;
  f_query : exists a0 a1 cdef name, args !! 0%nat = Some a0 /\ args !! 1%nat = Some a1 /\ atoi a1 = mId it /\
    npc_at (atoi a0) = Some (cdef, name) /\ (mAuctioneer it = 0 \/ mAuctioneer it = cdef);
  f_holds : holds it (store w);
  f_listed : list_at (contents (store w)) LISTPREFIX_AUCTION_ITEMS = Some ids;
  f_seller : is_Some (characters w !! mSeller it) /\ mSeller it <> me;
  f_count : 1 <= i32 (mCount it + 1) < 2 ^ 30 /\ stack_limits_ok;
  f_buyer : exists cd inv', buyable cfg me account it ci cd w /\ stockable (inventory cd) INV_CONTAINER /\
    AddItem_Ex (g_ServerTime w) (inventory cd) INV_CONTAINER (mItemId it) (i32 (mCount it + 1)) = (Some i, inv') }.

Lemma for_sale_bought {R} `{Redis R} {db : ItemDb} cfg delivered me account npc_at queryID args it ci ids i (w : World R) :
  for_sale cfg me account npc_at args it ci ids i w ->
  does (AuctionHouseBuyHandler cfg delivered me account npc_at queryID args) w (fun _ w' => bought me it ci ids i w w').
Proof.
  intros [Hid (a0 & a1 & cdef & name & Ha0 & Ha1 & Hid1 & Hnpc & Hauct) Hh Hl [[scd Hscd] Hne] [Hn Hlim] (cd & inv' & Hb & Hst & Hadd)].
  by eapply (Buy_sells cfg delivered me account npc_at queryID args it ci cd scd ids).
Qed.

(** C6. Buying at once: the lock is left as it was found, the item is out of the store,
    off the list and without a timer, the buyer has paid the price in copper, the seller's
    stats - of the player in the game, or stored - have got it, and the item is in the
    buyer's inventory; its look and the time it has left are lost. *)
Theorem buy_now_sells {R} `{Redis R} {db : ItemDb} (cfg : Config) (delivered : ChatMessage -> World R -> bool) (me account : Z)
    (npc_at : Z -> option (Z * string)) (queryID : Z) (args : list string) (it : AuctionHouseItem) (ci : CreatureInstance)
    (ids : list string) (i : nat) (w : World R) (Hsale : for_sale cfg me account npc_at args it ci ids i w) :
  exists reply w', AuctionHouseBuyHandler cfg delivered me account npc_at queryID args w = Some (reply, w') /\
    bought me it ci ids i w w'.
Proof. by apply for_sale_bought. Qed.

(** C7. What is bought from the auction house is taken away again: the time left of the
    slot it is put in is 0 seconds, so the next scan for expired items removes the slot,
    whenever it is. *)
Theorem bought_item_expires {R} `{Redis R} {db : ItemDb} (cfg : Config) (delivered : ChatMessage -> World R -> bool) (me account : Z)
    (npc_at : Z -> option (Z * string)) (queryID : Z) (args : list string) (it : AuctionHouseItem) (ci : CreatureInstance)
    (ids : list string) (i : nat) (w : World R) (Hsale : for_sale cfg me account npc_at args it ci ids i w) :
  exists reply w' cd s, AuctionHouseBuyHandler cfg delivered me account npc_at queryID args w = Some (reply, w') /\
    characters w' !! me = Some cd /\ cont (inventory cd) INV_CONTAINER !! i = Some s /\ IID s = mItemId it /\
    forall now, exists q, q ∈ ScanExpiredItems now (inventory cd) /\ iq_type q = TYPE_REMOVE /\ iq_ptr q = (INV_CONTAINER, i).
Proof.
  destruct (for_sale_bought cfg delivered me account npc_at queryID args it ci ids i w Hsale) as (reply & w' & E & [_ _ _ _ _ _ (cd & s & Hcd & Hs & HI & _ & Hz)]).
  exists reply, w', cd, s. split_and!; [done..|]. intros now. eexists. split; [by apply expired_scanned|]. done.
Qed.


(** *** Examples *)

(** Item 7: two potions of the seller 20 for 50 copper, at the auctioneer 300. *)
Definition example_auction : AuctionHouseItem := mkAuction 7 300 [] 20 1000 90000 0 0 50 0 0 5 0 1 false.

Lemma example_auction_fits : auction_fits example_auction.
Proof. by split; vm_compute; split. Qed.

Definition listed_store : Keyspace := {[ LISTPREFIX_AUCTION_ITEMS := RedisList ["7"%string] ]}.
Definition market_store : Keyspace := match SaveItem example_auction listed_store with Some (_, r) => r | None => ∅ end.

Lemma listed_store_ok : entity_ok KEYPREFIX_AUCTION_ITEM (sprintf_d 7) listed_store [].
Proof.
  split.
  - by vm_compute.
  - intros sec. unfold hash_at, listed_store. rewrite lookup_singleton_ne by (by apply list_key_apart). by eexists.
  - by intros k ?%elem_of_nil.
  - constructor.
Qed.

Lemma market_store_holds : holds example_auction market_store.
Proof.
  destruct (SaveItem_stores (H := Keyspace_redis) example_auction listed_store [] eq_refl listed_store_ok)
    as (r' & index' & E & Hr' & Hok & Hroot & Hn & Hv & _).
  - by vm_compute.
  - assert (market_store = r') as -> by (unfold market_store; by rewrite E).
    split; [done|by exists index'|done|apply example_auction_fits|constructor|done].
Qed.

Definition example_config : Config := mkConfig false 24 1 72 0 10 10 true false.
Definition example_stats (n : Z) : CharacterStatSet := mkCss n 0 "Fred".
Definition market_character (n : Z) : CharacterData := mkCharacter (example_stats n) example_inv 0 1.
Definition market (n : Z) : World Keyspace :=
  mkWorld market_store 5000 5 {[ 20 := market_character 10; 21 := market_character n ]}
    {[ 21 := mkInstance 21 (example_stats n) (Some 3) ]} ∅ ∅ ∅ Scheduler_new ∅ 0 [].
Definition example_npc (id : Z) : option (Z * string) := if id =? 900 then Some (300, "Bella"%string) else None.
Definition example_npc_name (id : Z) : option string := if id =? 300 then Some "Bella"%string else None.
Definition buy_args : list string := ["900"; "7"]%string.

Lemma example_stock : stockable example_inv INV_CONTAINER.
Proof.
  split; [apply example_inv_wf|by vm_compute|]. intros s Hs.
  repeat (apply elem_of_cons in Hs as [->|Hs]; [by vm_compute|]). by apply elem_of_nil in Hs.
Qed.

Lemma example_for_sale : @for_sale Keyspace Keyspace_redis example_db example_config 21 1 example_npc buy_args
  example_auction (mkInstance 21 (example_stats 80) (Some 3)) ["7"%string] 0 (market 80).
Proof.
  split.
  - done.
  - by exists "900"%string, "7"%string, 300, "Bella"%string; vm_compute; auto 10.
  - exact market_store_holds.
  - by vm_compute.
  - split; [by eexists|done].
  - split; [done|apply example_limits].
  - eexists (market_character 80), _. split; [|split; [apply example_stock|by vm_compute]].
    split; try done; try (by vm_compute). by right; vm_compute.
Qed.

Lemma buy_now_sells_witness : exists reply w',
  @AuctionHouseBuyHandler Keyspace Keyspace_redis example_db example_config (fun _ _ => true) 21 1 example_npc 9 buy_args (market 80) = Some (reply, w') /\
  cs w' = 0 /\ copper <$> get_css (InstanceCss 21) w' = Some 30 /\ copper <$> get_css (CharacterCss 20) w' = Some 60.
Proof.
  destruct (buy_now_sells (H := Keyspace_redis) (db := example_db) example_config (fun _ _ => true) 21 1 example_npc 9 buy_args
    example_auction _ _ 0%nat _ example_for_sale) as (reply & w' & E & [Hl _ _ _ Hb Hs _]).
  exists reply, w'. split; [exact E|]. split; [exact Hl|]. split; [exact Hb|].
  change (css_of (mSeller example_auction) (market 80)) with (CharacterCss 20) in Hs. by rewrite Hs.
Defined.

Lemma bought_item_expires_witness : exists reply w' cd s,
  @AuctionHouseBuyHandler Keyspace Keyspace_redis example_db example_config (fun _ _ => true) 21 1 example_npc 9 buy_args (market 80) = Some (reply, w') /\
  characters w' !! 21 = Some cd /\ cont (inventory cd) INV_CONTAINER !! 0%nat = Some s /\ IID s = 5.
Proof.
  destruct (bought_item_expires (H := Keyspace_redis) (db := example_db) example_config (fun _ _ => true) 21 1 example_npc 9 buy_args
    example_auction _ _ 0%nat _ example_for_sale) as (reply & w' & cd & s & E & Hc & Hs & HI & _).
  exists reply, w', cd, s. exact (conj E (conj Hc (conj Hs HI))).
Defined.

