(* ===== verification/AuctionRun.v ===== *)
(** * Auction house: from listing to the end of an auction

    A new item in the store and on the list, searches, bids, the timers of a server that
    starts, and what is left when the time of an item is over. *)

From stdpp Require Import sorting.
From S2P Require Import Prelude StdSort ByteBuffer Messages Text Float Items Inventory InventoryStock Entities Cluster ClusterFacts Scheduler SchedulerFacts Auction AuctionHouse AuctionFacts AuctionSales.

(** ** Listing *)

Section Listing.
Context {R : Type} `{Redis R} {db : ItemDb} `{!StdSort (ScheduledTimerTask AuctionTask)}.
Context (cfg : Config) (creature_name : Z -> option string) (delivered : ChatMessage -> World R -> bool).

Lemma does_store {A} (m : Act R A) (w : World R) (Q : A -> World R -> Prop) (P : A -> Keyspace -> Prop) :
  is_connected (store w) = true -> runs m (contents (store w)) P ->
  (forall a r, is_connected r = true -> P a (contents r) -> Q a (set_store r w)) -> does (on_store m) w Q.
Proof.
  intros Hr Hm HQ. destruct (Hm (store w) Hr eq_refl) as (a & r & E & Hr' & HP).
  eapply does_eq; [unfold on_store; by rewrite E|]. by apply HQ.
Qed.

(** The store has nothing of an item with this identifier. *)
Definition fresh (id : Z) (ks : Keyspace) : Prop :=
  ks !! subkeys_key KEYPREFIX_AUCTION_ITEM (sprintf_d id) = None /\
  forall sec, ks !! section_key KEYPREFIX_AUCTION_ITEM (sprintf_d id) sec = None.

Lemma fresh_ok id ks : fresh id ks -> entity_ok KEYPREFIX_AUCTION_ITEM (sprintf_d id) ks [].
Proof.
  intros [H1 H2]. split; [|intros sec|by intros k ?%elem_of_nil|constructor]; unfold list_at, hash_at; [by rewrite H1|].
  rewrite H2. by eexists.
Qed.

Lemma save_fresh it (r : R) : is_connected r = true -> fresh (mId it) (contents r) -> auction_fits it -> Forall bid_fits (mBids it) ->
  exists r', SaveItem it r = Some (true, r') /\ holds it r' /\
    forall k, k <> subkeys_key KEYPREFIX_AUCTION_ITEM (sprintf_d (mId it)) ->
      (forall sec, k <> section_key KEYPREFIX_AUCTION_ITEM (sprintf_d (mId it)) sec) -> contents r' !! k = contents r !! k.
Proof.
  intros Hr Hf Hfits Hb. pose proof (fresh_ok _ _ Hf) as Hok.
  destruct (SaveItem_stores it r [] Hr Hok) as (r' & index' & E & Hr' & Hok' & Hroot & Hn & Hv & Hframe).
  - destruct Hf as [_ H2]. unfold never_written, content, hash_at. rewrite !H2. cbn. by rewrite !lookup_empty.
  - exists r'. split; [done|]. split; [|done]. split; [done|by exists index'|done..].
Qed.

Lemma holds_frame it (r r' : R) : holds it r -> is_connected r' = true ->
  (forall k, k = subkeys_key KEYPREFIX_AUCTION_ITEM (sprintf_d (mId it)) \/
     (exists sec, k = section_key KEYPREFIX_AUCTION_ITEM (sprintf_d (mId it)) sec) -> contents r' !! k = contents r !! k) ->
  holds it r'.
Proof.
  intros [Hr (index & [I1 I2 I3 I4] & Hroot) Hn Hf Hb Hv] Hr' Hk.
  assert (forall sec, hash_at (contents r') (section_key KEYPREFIX_AUCTION_ITEM (sprintf_d (mId it)) sec) =
                      hash_at (contents r) (section_key KEYPREFIX_AUCTION_ITEM (sprintf_d (mId it)) sec)) as Hh
    by (intros sec; unfold hash_at; rewrite Hk by eauto; done).
  split; [done| | |done|done|].
  - exists index. split; [|done]. split; [|intros sec; rewrite Hh; apply I2|done|done].
    unfold list_at. rewrite Hk by auto. exact I1.
  - unfold never_written, content. rewrite Hh. exact Hn.
  - unfold content. rewrite Hh. exact Hv.
Qed.

Lemma next_key_apart id : ID_NEXT_AUCTION_ITEM_ID <> subkeys_key KEYPREFIX_AUCTION_ITEM id /\
  forall sec, ID_NEXT_AUCTION_ITEM_ID <> section_key KEYPREFIX_AUCTION_ITEM id sec.
Proof.
  split; [|intros sec; rewrite section_key_name]; unfold subkeys_key, entity_key, KEYPREFIX_AUCTION_ITEM, ID_NEXT_AUCTION_ITEM_ID; intros E;
    apply (f_equal (String.get 0)) in E; vm_compute in E; discriminate.
Qed.


(** What listing [it] leaves: charged from the seller's stats, stored, listed and with a
    timer whose task has a dangling pointer. *)
Record listed (me : Z) (it : AuctionHouseItem) (charge : Z) (ids : list string) (w w' : World R) : Prop := mkListed {
  li_holds : holds it (store w');
  li_list : list_at (contents (store w')) LISTPREFIX_AUCTION_ITEMS = Some (ids ++ [sprintf_d (mId it)]);
  li_copper : copper <$> get_css (InstanceCss me) w' = (fun c => if charge =? 0 then copper c else i32 (copper c - charge)) <$> get_css (InstanceCss me) w;
  li_timed : timed (mId it) CompleteDangling (run_time cfg (g_ServerTime w) (mEndDate it)) w';
  li_characters : characters w' = characters w;
  li_lock : cs w' = cs w }.

(** The commissions. *)
Lemma charge_does me account ci c1 c2 (w : World R) (Q : unit -> World R -> Prop) : players w !! me = Some ci ->
  (forall w', store w' = store w -> g_ServerTime w' = g_ServerTime w -> characters w' = characters w -> cs w' = cs w ->
     sched w' = sched w -> mTimers w' = mTimers w -> npcs w' = npcs w ->
     copper <$> get_css (InstanceCss me) w' = Some (if c1 =? 0 then copper (css ci) else i32 (copper (css ci) - c1)) -> Q tt w') ->
  does (charge cfg me account c1 c2) w Q.
Proof.
  intros Hci HQ.
  assert (exists ci1 w1, does (if negb (c1 =? 0) then
               _ ← modify (upd_css (InstanceCss me) (add_copper (- c1))); modify (stat_update me STAT_COPPER)
             else mret tt) w (fun _ w' => w' = w1) /\ store w1 = store w /\ g_ServerTime w1 = g_ServerTime w /\
     characters w1 = characters w /\ cs w1 = cs w /\ sched w1 = sched w /\ mTimers w1 = mTimers w /\ npcs w1 = npcs w /\
     players w1 !! me = Some ci1 /\ copper (css ci1) = if c1 =? 0 then copper (css ci) else i32 (copper (css ci) - c1))
    as (ci1 & w1 & D & S1 & T1 & C1 & L1 & K1 & M1 & N1 & Hci1 & Hc1).
  { destruct (c1 =? 0); cbn [negb].
    - exists ci, w. split; [go; done|]. done.
    - eexists _, _. split; [go; reflexivity|].
      destruct (stat_update_sent me STAT_COPPER (upd_css (InstanceCss me) (add_copper (- c1)) w)) as [l ->]. cbn.
      rewrite lookup_alter_eq, Hci. cbn. split_and!; done. }
  unfold charge. apply does_bind. eapply does_mono; [exact D|]. intros _ w' ->. destruct (0 <? c2).
  - go. eapply does_eq; [unfold deref_css; cbn [get_css upd_css upd_player players]; cbn; rewrite lookup_alter_eq, Hci1; reflexivity|].
    destruct (UseAccountCredits cfg); go;
    match goal with |- ?Q0 tt (stat_update me STAT_CREDITS ?w0) => destruct (stat_update_sent me STAT_CREDITS w0) as [l ->] end;
    (apply HQ; try done; cbn; rewrite lookup_alter_eq, Hci1; cbn; by rewrite Hc1).
  - go. apply HQ; try done. cbn. rewrite Hci1. cbn. by rewrite Hc1.
Qed.

Lemma BroadcastNewItem_does it sellerName (w : World R) (Q : unit -> World R -> Prop) : mId it <> 0 -> holds it (store w) ->
  (forall r l, contents r = contents (store w) -> holds it r -> Q tt (add_sent l (set_store r w))) ->
  does (BroadcastNewItem (mId it) sellerName) w Q.
Proof.
  intros Hid Hh HQ. destruct (holds_load it (store w) Hh) as (r & E & Hc & Hh'). unfold BroadcastNewItem. go.
  eapply does_eq; [unfold on_store; by rewrite E|]. cbn [mId reloaded]. rewrite (proj2 (Z.eqb_neq _ _) Hid). go.
  match goal with |- Q tt (emit ?o _) => apply (HQ r [o]) end; done.
Qed.

Lemma Auction_lists me account slot c1 c2 auctioneer rc rcr bc bcr days hours ci cd name n ids (w : World R) :
  players w !! me = Some ci -> characters w !! me = Some cd -> creature_name auctioneer = Some name -> is_master cfg = true ->
  is_connected (store w) = true -> counter_at (contents (store w)) ID_NEXT_AUCTION_ITEM_ID n -> 0 <= n < 2 ^ 31 - 1 ->
  fresh (n + 1) (contents (store w)) -> list_at (contents (store w)) LISTPREFIX_AUCTION_ITEMS = Some ids ->
  let it := new_auction (n + 1) auctioneer me (g_ServerTime w) slot rc rcr bc bcr days hours in
  auction_fits it ->
  does (Auction cfg creature_name delivered me account slot c1 c2 auctioneer rc rcr bc bcr days hours) w
    (fun it' w' => it' = it /\ listed me it c1 ids w w').
Proof.
  intros Hci Hcd Hname Hmaster Hr Hn Hrange Hf Hl it Hfits. unfold Auction. apply does_bind, (charge_does me account ci); [done|].
  intros w1 S1 T1 C1 L1 K1 M1 N1 G1. go. rewrite <- S1 in Hr, Hn, Hf, Hl.
  destruct (next_key_apart (sprintf_d (n + 1))) as [Hk1 Hk2]. destruct (list_key_apart (sprintf_d (n + 1))) as [Hl1 Hl2].
  eapply does_store; [done|apply (NextValue_runs _ _ n (fun z ks => z = n + 1 /\ forall k, k <> ID_NEXT_AUCTION_ITEM_ID -> ks !! k = contents (store w1) !! k)); [done|by intros ks' ?]|].
  intros z r1 Hr1 [-> F1]. go. cbn [g_ServerTime set_store]. rewrite T1, i32_id by (unfold in_signed; lia). fold it.
  destruct (save_fresh it r1 Hr1) as (r2 & E2 & Hh2 & F2); [|done|constructor|].
  { destruct Hf as [H1 H2]. split; [|intros sec]; rewrite F1; auto. }
  eapply does_eq; [unfold on_store; cbn [store set_store]; by rewrite E2|]. go.
  assert (list_at (contents r2) LISTPREFIX_AUCTION_ITEMS = Some ids) as Hl2'.
  { unfold list_at. rewrite F2, F1 by done. exact Hl. }
  eapply does_store; [apply Hh2|apply (ListAdd_runs _ _ _ ids (fun _ ks => list_at ks LISTPREFIX_AUCTION_ITEMS = Some (ids ++ [sprintf_d (mId it)]) /\
    forall k, k <> LISTPREFIX_AUCTION_ITEMS -> ks !! k = contents r2 !! k)); [done|by intros ks' ? ?]|].
  intros b r3 Hr3 [Hl3 F3].
  assert (holds it r3) as Hh3.
  { apply (holds_frame it r2); [done..|]. intros k [->|[sec ->]]; apply F3; by apply not_eq_sym. }
  go. eapply does_eq; [unfold deref_css; cbn [get_css characters set_store]; rewrite C1, Hcd; reflexivity|]. rewrite Hname. go.
  eapply does_eq; [reflexivity|]. go. unfold BroadcastAndSetupTimer. go.
  apply (BroadcastNewItem_does it); [cbn; lia|done|]. intros r4 l4 Hc4 Hh4. rewrite Hmaster.
  apply schedule_timer_new. intros w2 [X1 X2 X3 X4 X5 X6] Hs Ht _. cbn [store set_store add_sent] in *.
  assert (listed me it c1 ids w w2) as Hlisted.
  { split.
    - by rewrite Hs.
    - by rewrite Hs, Hc4.
    - cbn [get_css]. rewrite X4. cbn. change (players w1 !! me) with (players w1 !! me) in *. cbn [get_css] in G1. rewrite G1, Hci. cbn. by destruct (c1 =? 0).
    - cbn in Ht. by rewrite T1 in Ht.
    - rewrite X3. exact C1.
    - rewrite X2. exact L1. }
  destruct (clusterable cfg); go; split; try done. by destruct Hlisted.
Qed.
End Listing.

(** ** Searching *)

Lemma remainingSort_weak now : strict_weak (remainingSort now).
Proof.
  split.
  - intros a b. unfold remainingSort. repeat case_match; to_prop; try done; lia.
  - intros a b c. unfold remainingSort. repeat case_match; to_prop; try tauto; lia.
Qed.

Lemma descending_weak f : strict_weak (descending f).
Proof. apply strict_weak_flip, strict_weak_lt. Qed.

Lemma search_order_weak {db : ItemDb} now order lt : search_order now order = Some lt -> strict_weak lt.
Proof.
  unfold search_order, switch. repeat case_match; intros [= <-]; first [apply remainingSort_weak|apply descending_weak].
Qed.

Lemma StronglySorted_rev {A} (P : A -> A -> Prop) l : StronglySorted P l -> StronglySorted (fun a b => P b a) (rev l).
Proof.
  induction 1 as [|a l Hl IH Hf]; [constructor|]. cbn. apply StronglySorted_app_2; [|done|by repeat constructor].
  intros x y Hx ->%list_elem_of_singleton. apply (proj1 (list.Forall_forall _ _) Hf). by apply list_elem_of_In, in_rev, list_elem_of_In.
Qed.

Section Searching.
Context {R : Type} `{Redis R} {db : ItemDb} `{!StdSort AuctionHouseItem}.

Lemma collect_all q items acc (r : R) : s_maxRows q = -1 -> Forall (fun it => holds it r) items ->
  Forall (fun it => in_i32 (mId it)) items ->
  does (collect q (map (fun it => sprintf_d (mId it)) items) acc) r (fun l r' =>
    l = acc ++ List.filter (search_matches q) (map reloaded items) /\ contents r' = contents r).
Proof.
  intros Hrows. revert acc r. induction items as [|it items IH]; intros acc r Hh Hi; cbn [map collect List.filter].
  - go. by rewrite app_nil_r.
  - apply list.Forall_cons in Hh as [Hit Hh]. apply list.Forall_cons in Hi as [Hi1 Hi]. go.
    destruct (holds_read it r Hit) as (r1 & E & Hc & Hh1). rewrite atoi_sprintf_d_lemma by done.
    eapply does_eq; [exact E|]. cbn [negb]. rewrite Hrows. cbn [Z.ltb Z.compare andb].
    eapply does_mono; [apply IH; [|done]|].
    + eapply list.Forall_impl; [exact Hh|]. intros it' Hit'. apply (holds_contents _ r); [done|apply Hh1|done].
    + intros l r' [-> Hc']. split; [|congruence]. destruct (search_matches q (reloaded it)); [by rewrite <- app_assoc|done].
Qed.
End Searching.

(** C14. A search without a limit of rows finds every listed item that matches and no
    other, each as the store gives it back, sorted by the order asked for - or against
    it, when reversed; an unknown order keeps the order of the list. *)
Theorem Search_finds {R} `{Redis R} {db : ItemDb} `{!StdSort AuctionHouseItem} (now : Z) (q : AuctionHouseSearch)
    (items : list AuctionHouseItem) (r : R) (Hr : is_connected r = true) (Hrows : s_maxRows q = -1)
    (Hlist : list_at (contents r) LISTPREFIX_AUCTION_ITEMS = Some (map (fun it => sprintf_d (mId it)) items))
    (Hheld : Forall (fun it => holds it r) items) (Hids : Forall (fun it => in_i32 (mId it)) items) :
  exists l r', Search now q r = Some (l, r') /\ l ≡ₚ List.filter (search_matches q) (map reloaded items) /\
    match search_order now (s_order q) with
    | Some lt => StronglySorted (fun a b => (if s_reverse q then lt a b else lt b a) = false) l
    | None => l = let found := List.filter (search_matches q) (map reloaded items) in if s_reverse q then rev found else found
    end.
Proof.
  assert (does (Search now q) r (fun l _ => l ≡ₚ List.filter (search_matches q) (map reloaded items) /\
    match search_order now (s_order q) with
    | Some lt => StronglySorted (fun a b => (if s_reverse q then lt a b else lt b a) = false) l
    | None => l = let found := List.filter (search_matches q) (map reloaded items) in if s_reverse q then rev found else found
    end)) as (l & r' & E & Hl); [|by exists l, r'].
  unfold Search. go.
  destruct (GetList_runs LISTPREFIX_AUCTION_ITEMS (contents r) _ (fun l ks => l = map (fun it => sprintf_d (mId it)) items /\ ks = contents r)
    Hlist ltac:(done) r Hr eq_refl) as (ids & r1 & E1 & Hr1 & -> & Hc1).
  eapply does_eq; [exact E1|]. go. eapply does_mono; [apply (collect_all q items); [done| |done]|].
  - eapply list.Forall_impl; [exact Hheld|]. intros it Hit. by apply (holds_contents _ r).
  - intros l r2 [-> _]. cbn [app]. go. set (found := List.filter _ _). destruct (search_order now (s_order q)) as [lt|] eqn:Eo.
    + apply search_order_weak in Eo. pose proof (std_sort_perm lt found Eo) as Hp. pose proof (std_sort_sorted lt found Eo) as Hs.
      destruct (s_reverse q); split; [|by apply StronglySorted_rev in Hs|done|done].
      by rewrite <- Permutation_rev.
    + destruct (s_reverse q); split; try done. by rewrite <- Permutation_rev.
Qed.

(** ** An item that is not there *)

Lemma missing_reads id f : (forall sec k, f sec k = None) -> reads f (set_mId id AuctionHouseItem_new) (set_mId id AuctionHouseItem_new).
Proof.
  intros Hf S re rs flat. exists (mkReaderBase EmptyString KEYPREFIX_AUCTION_ITEM (sprintf_d id) flat).
  cbn [ReadEntity AuctionHouseItem_entity]. eapply gives_bind; [|apply gives_ret]. unfold item_ReadEntity.
  do 13 (eapply gives_bind; [first [ apply gives_ValueULong_none; [done|by split]
    | apply gives_ValueInt_none; [done|by split] | apply gives_ValueBool_none; done ]|]).
  eapply gives_bind.
  - apply (gives_ListValue f _ _ _ []). by rewrite Hf.
  - apply gives_ret.
Qed.

(** An identifier the store has nothing of is loaded as an item with that identifier
    and nothing else, so the tests of [CompleteAuction], [RemoveItem] and the queries for
    a missing item, [mId == 0], never succeed for an identifier other than 0. *)
Theorem missing_item_is_found {R} `{Redis R} (id : Z) (r : R) (Hr : is_connected r = true) (Hnone : fresh id (contents r)) :
  exists r', LoadItem id r = Some (mkAuction id 0 [] 0 0 0 0 0 0 0 0 0 0 0 false, r').
Proof.
  destruct (ReadEntity_reads (H1 := AuctionHouseItem_laws) (set_mId id AuctionHouseItem_new) (set_mId id AuctionHouseItem_new) r []
    (fun _ _ => None) Hr (fresh_ok id _ Hnone)) as (r' & E & _).
  - intros sec k. unfold content, hash_at. change (id_of (set_mId id AuctionHouseItem_new)) with (sprintf_d id).
    rewrite (proj2 Hnone). cbn. by rewrite lookup_empty.
  - by apply missing_reads.
  - exists r'. unfold LoadItem. by rewrite (Act_bind_Some _ _ _ _ _ E).
Qed.

(** ** Bids *)

Lemma filter_others me l : me ∉ map mBuyer l -> List.filter (fun b => negb (mBuyer b =? me)) l = l.
Proof.
  induction l as [|b l IH]; [done|]. cbn [map List.filter]. intros [Hne Hni]%not_elem_of_cons.
  rewrite (proj2 (Z.eqb_neq _ _)) by auto. cbn [negb]. by rewrite IH.
Qed.

Lemma NoDup_map_filter {A B} (f : A -> B) p l : NoDup (map f l) -> NoDup (map f (List.filter p l)).
Proof.
  induction l as [|a l IH]; [done|]. cbn. intros [Hni Hnd]%list.NoDup_cons. destruct (p a); [|by apply IH].
  cbn. apply list.NoDup_cons. split; [|by apply IH]. intros Hin. apply Hni.
  apply list_elem_of_In, in_map_iff in Hin as (x & <- & [Hx _]%filter_In). by apply list_elem_of_In, in_map.
Qed.

(** The loop that deletes the old bid of the buyer. *)
Lemma without_own_filter me l : NoDup (map mBuyer l) ->
  match find_idx (fun b => mBuyer b =? me) l with Some i => delete i l | None => l end =
  List.filter (fun b => negb (mBuyer b =? me)) l.
Proof.
  induction l as [|b l IH]; [done|]. cbn [map find_idx List.filter]. intros [Hni Hnd]%list.NoDup_cons.
  destruct (Z.eqb_spec (mBuyer b) me) as [E|E]; cbn [negb].
  - cbn. symmetry. apply filter_others. by rewrite <- E.
  - specialize (IH Hnd). destruct (find_idx _ l) as [i|]; cbn; f_equal; exact IH.
Qed.

(** What a new bid needs: a last bid of someone else that is lower in copper or credits. *)
Definition acceptable (me copper credits : Z) (l : list AuctionHouseBid) : Prop :=
  match list.last l with
  | None => True
  | Some high => mBuyer high <> me /\ (mCopper high < copper \/ mCredits high < credits)
  end.

(** C37. A bid is taken exactly when there is none, or the last one is another buyer's and
    lower in copper or in credits. It becomes the last one and replaces the old bid of the
    buyer, so that nobody has two; one that is not taken changes nothing. *)
Theorem Bid_rules (now me copper credits : Z) (it : AuctionHouseItem) (Hone : NoDup (map mBuyer (mBids it))) :
  let '(ok, it') := Bid now me copper credits it in
  (ok = true <-> acceptable me copper credits (mBids it)) /\ NoDup (map mBuyer (mBids it')) /\
  it' = if ok then set_mBids (List.filter (fun b => negb (mBuyer b =? me)) (mBids it) ++ [mkBid me copper credits now]) it else it.
Proof.
  unfold Bid, acceptable. rewrite without_own_filter by done. set (others := List.filter _ _).
  assert (NoDup (map mBuyer (others ++ [mkBid me copper credits now]))) as Hnd.
  { rewrite map_app. apply list.NoDup_app. split; [|split; [|apply NoDup_singleton]].
    - by apply NoDup_map_filter.
    - intros x Hx ->%list_elem_of_singleton. apply list_elem_of_In, in_map_iff in Hx as (b & Hb & Hin).
      apply filter_In in Hin as [_ Hin]. cbn in Hb. by rewrite Hb, Z.eqb_refl in Hin. }
  destruct (list.last (mBids it)) as [high|] eqn:El; [|by split].
  destruct ((mCopper high <? copper) || (mCredits high <? credits)) eqn:Eh.
  - apply orb_true_iff in Eh. rewrite !Z.ltb_lt in Eh.
    destruct (Z.eqb_spec (mBuyer high) me); [split; [split; [done|tauto]|done]|]. split; [tauto|done].
  - apply orb_false_iff in Eh. rewrite !Z.ltb_ge in Eh. split; [split; [done|lia]|done].
Qed.

Lemma Bid_rules_witness :
  mBids (Bid 9 2 40 0 (set_mBids [mkBid 2 10 0 1; mkBid 3 20 0 5] example_auction)).2 = [mkBid 3 20 0 5; mkBid 2 40 0 9].
Proof.
  pose proof (Bid_rules 9 2 40 0 (set_mBids [mkBid 2 10 0 1; mkBid 3 20 0 5] example_auction)) as HB.
  destruct (Bid 9 2 40 0 _) as [ok it'] eqn:E. destruct HB as (Hok & _ & Hit).
  - cbn. repeat (apply list.NoDup_cons; split; [rewrite ?elem_of_cons, elem_of_nil; lia|]). constructor.
  - assert (ok = true) as Ht by (apply Hok; cbn; lia). cbn [snd]. rewrite Hit, Ht. reflexivity.
Defined.

(** ** The store and the end of an auction *)

(** An item that is saved and loaded again has its seller, dates, prices, item and
    count, and has lost its bids, its look and the time its item has left. *)
Theorem stored_auction_forgets {R} `{Redis R} (it : AuctionHouseItem) (r : R) (index : list string)
    (Hr : is_connected r = true) (Hok : entity_ok KEYPREFIX_AUCTION_ITEM (sprintf_d (mId it)) (contents r) index)
    (Hnever : never_written it (contents r)) (Hfits : auction_fits it) (Hbids : Forall bid_fits (mBids it)) :
  exists r1 r2, SaveItem it r = Some (true, r1) /\
    LoadItem (mId it) r1 = Some (mkAuction (mId it) (mAuctioneer it) [] (mSeller it) (mStartDate it) (mEndDate it)
      (mReserveCopper it) (mReserveCredits it) (mBuyItNowCopper it) (mBuyItNowCredits it) 0 (mItemId it) 0 (mCount it) (mCompleted it), r2).
Proof.
  destruct (SaveItem_stores it r index Hr Hok Hnever) as (r1 & index' & E1 & Hr1 & Hok1 & Hroot & Hn1 & Hv1 & _).
  destruct (holds_load it r1) as (r2 & E2 & _); [split; eauto|]. by exists r1, r2.
Qed.

Lemma stored_auction_forgets_witness :
  let it := set_mBids [mkBid 2 10 0 1] example_auction in
  exists r1 r2, SaveItem it listed_store = Some (true, r1) /\ LoadItem 7 r1 = Some (example_auction, r2).
Proof.
  apply (stored_auction_forgets (H := Keyspace_redis) (set_mBids [mkBid 2 10 0 1] example_auction) listed_store [] eq_refl listed_store_ok).
  - by vm_compute.
  - destruct example_auction_fits. split; assumption.
  - apply list.Forall_cons. split; [by split|constructor].
Defined.

(** C9. No auction attracts bids: when the time of a stored item is over, whatever was
    bid, nobody's money, inventory or account changes, the item is marked completed and
    is to be expired later. *)
Theorem auctions_attract_no_bids {R} `{Redis R} {db : ItemDb} `{!StdSort (ScheduledTimerTask AuctionTask)} (cfg : Config)
    (creature_name : Z -> option string) (delivered : ChatMessage -> World R -> bool) (it : AuctionHouseItem) (cd : CharacterData)
    (w : World R) (Hid : mId it <> 0) (Hheld : holds it (store w)) (Hseller : characters w !! mSeller it = Some cd) :
  exists w', CompleteAuction cfg creature_name delivered (mId it) w = Some (tt, w') /\ unsold cfg it w w'.
Proof.
  destruct (CompleteAuction_unsold cfg creature_name delivered it cd w Hid Hheld Hseller) as ([] & w' & E & Hu). by exists w'.
Qed.

Lemma auctions_attract_no_bids_witness : exists w',
  @CompleteAuction Keyspace Keyspace_redis example_db _ example_config example_npc_name (fun _ _ => true) 7 (market 80) = Some (tt, w') /\
  characters w' = characters (market 80).
Proof.
  destruct (auctions_attract_no_bids (H := Keyspace_redis) (db := example_db) example_config example_npc_name (fun _ _ => true) example_auction
    (market_character 10) (market 80) ltac:(done) market_store_holds eq_refl) as (w' & E & [Hc _ _ _ _ _]).
  exists w'. exact (conj E Hc).
Defined.



(** A player's new item gets the next identifier, is stored, ends the list, has the
    commission taken from the copper of the player and a timer at its end date; the task
    of the timer is the one whose pointer dangles when it runs. *)
Theorem new_auction_is_listed {R} `{Redis R} {db : ItemDb} `{!StdSort (ScheduledTimerTask AuctionTask)} (cfg : Config)
    (creature_name : Z -> option string) (delivered : ChatMessage -> World R -> bool) (me account : Z) (slot : InventorySlot)
    (c1 c2 auctioneer rc rcr bc bcr days hours : Z) (ci : CreatureInstance) (cd : CharacterData) (name : string) (n : Z)
    (ids : list string) (w : World R) (Hci : players w !! me = Some ci) (Hcd : characters w !! me = Some cd)
    (Hname : creature_name auctioneer = Some name) (Hmaster : is_master cfg = true) (Hr : is_connected (store w) = true)
    (Hn : counter_at (contents (store w)) ID_NEXT_AUCTION_ITEM_ID n) (Hrange : 0 <= n < 2 ^ 31 - 1)
    (Hfresh : fresh (n + 1) (contents (store w))) (Hlist : list_at (contents (store w)) LISTPREFIX_AUCTION_ITEMS = Some ids)
    (Hfits : auction_fits (new_auction (n + 1) auctioneer me (g_ServerTime w) slot rc rcr bc bcr days hours)) :
  let it := new_auction (n + 1) auctioneer me (g_ServerTime w) slot rc rcr bc bcr days hours in
  exists w', Auction cfg creature_name delivered me account slot c1 c2 auctioneer rc rcr bc bcr days hours w = Some (it, w') /\
    listed cfg me it c1 ids w w'.
Proof.
  intros it. destruct (Auction_lists cfg creature_name delivered me account slot c1 c2 auctioneer rc rcr bc bcr days hours ci cd name n ids w)
    as (it' & w' & E & -> & Hl); [done..|]. by exists w'.
Qed.

Definition empty_market : World Keyspace := set_store listed_store (market 80).

Lemma new_auction_is_listed_witness : exists it w',
  @Auction Keyspace Keyspace_redis example_db _ example_config example_npc_name (fun _ _ => true) 21 1 (example_slot 6 0 5 1 0) 3 0 300 0 0 50 0 1 0 empty_market
    = Some (it, w') /\ mEndDate it = 86405000 /\ list_at (store w') LISTPREFIX_AUCTION_ITEMS = Some ["7"; "1"]%string.
Proof.
  destruct (new_auction_is_listed (H := Keyspace_redis) (db := example_db) example_config example_npc_name (fun _ _ => true) 21 1
    (example_slot 6 0 5 1 0) 3 0 300 0 0 50 0 1 0 (mkInstance 21 (example_stats 80) (Some 3)) (market_character 80) "Bella" 0 ["7"%string] empty_market
    eq_refl eq_refl eq_refl eq_refl eq_refl) as (w' & E & [_ Hl _ _ _ _]).
  - by split; vm_compute.
  - by vm_compute.
  - destruct (list_key_apart (sprintf_d (0 + 1))) as [H1 H2]. split; [|intros sec]; by apply lookup_singleton_ne.
  - reflexivity.
  - by split; vm_compute.
  - eexists _, w'. split; [exact E|]. split; [by vm_compute|exact Hl].
Defined.

Definition example_search : AuctionHouseSearch :=
  mkSearch 300 (-1) (-1) AuctionHouseSearchOrder.BUY_COPPER (-1) false 0 99999999 0 9999999 0 99 EmptyString.

Lemma Search_finds_witness : exists r', @Search Keyspace Keyspace_redis example_db _ 5000 example_search market_store = Some ([example_auction], r').
Proof.
  assert (Forall (fun it => holds it market_store) [example_auction]) as Hheld
    by (apply list.Forall_singleton; exact market_store_holds).
  assert (Forall (fun it => in_i32 (mId it)) [example_auction]) as Hids by (apply list.Forall_singleton; by split).
  destruct (Search_finds (H := Keyspace_redis) (db := example_db) 5000 example_search [example_auction] market_store eq_refl eq_refl
    ltac:(vm_compute; reflexivity) Hheld Hids) as (l & r' & E & Hp & _).
  assert (List.filter (search_matches (db := example_db) example_search) (map reloaded [example_auction]) = [example_auction]) as Hf by by vm_compute.
  rewrite Hf in Hp. apply Permutation_singleton_r in Hp as ->. by exists r'.
Defined.

Lemma missing_item_is_found_witness : exists r', LoadItem 1 listed_store = Some (set_mId 1 AuctionHouseItem_new, r').
Proof.
  apply (missing_item_is_found (H := Keyspace_redis) 1 listed_store eq_refl).
  destruct (list_key_apart (sprintf_d 1)) as [H1 H2]. split; [|intros sec]; by apply lookup_singleton_ne.
Defined.
