(* ===== verification/Loot.v ===== *)
(** * Loot: what dead creatures leave, and how a party shares it

    Models the loot containers of [src/SOURCE/Server/DropTable.h] and [DropTable.cpp]
    ([ActiveLootContainer], [WorldLootContainer]) and all of [query/LootHandlers.cpp]: the
    queries [loot.list], [loot.item], [loot.exit], [loot.need], [loot.greed], [loot.pass], the
    offers to the members of a party, the rolls and the award.

    - Players and parties are those of [Party]: a player is a key of its store, a party an
      index, a member an index of the party. [spots] has the places of the players.
    - An instance has its containers and its lootable creatures, which are creatures of
      [StatMods]. [ActiveLootContainer*] is an instance and a key; a [std::map] is a finite
      map whose [operator[]] inserts, a [std::set] a finite set visited in ascending order.
    - The results of [RandModRng] are the sequence [rng], read from the position [drawn].
    - Packets to a player go to the [out] of [Party]; [events] has what else happens.
      Log messages are not modelled.
    - [None] is undefined behaviour: a null or dangling pointer. *)

From stdpp Require Import sorting.
From S2P Require Import Prelude ByteBuffer Messages Text StatTables Stats Items Inventory Party Entities.
From S2P Require StatMods Trade.
Import Trade.QueryErrorMsg.

(** ** Containers *)

Record ActiveLootContainer := mkLoot {
  loot_CreatureID : Z; robinID : Z; stage2Map : gmap Z bool; lootableID : list Z; itemList : list Z;
  greeded : gmap Z (gset Z); needed : gmap Z (gset Z); passed : gmap Z (gset Z) }.

Definition ActiveLootContainer_new (creatureID : Z) : ActiveLootContainer := mkLoot creatureID 0 ∅ [] [] ∅ ∅ ∅.

Definition set_robinID (r : Z) (l : ActiveLootContainer) : ActiveLootContainer :=
  mkLoot (loot_CreatureID l) r (stage2Map l) (lootableID l) (itemList l) (greeded l) (needed l) (passed l).
Definition set_stage2Map (s : gmap Z bool) (l : ActiveLootContainer) : ActiveLootContainer :=
  mkLoot (loot_CreatureID l) (robinID l) s (lootableID l) (itemList l) (greeded l) (needed l) (passed l).
Definition set_lootableID (ids : list Z) (l : ActiveLootContainer) : ActiveLootContainer :=
  mkLoot (loot_CreatureID l) (robinID l) (stage2Map l) ids (itemList l) (greeded l) (needed l) (passed l).
Definition set_itemList (items : list Z) (l : ActiveLootContainer) : ActiveLootContainer :=
  mkLoot (loot_CreatureID l) (robinID l) (stage2Map l) (lootableID l) items (greeded l) (needed l) (passed l).
Definition set_rolls (g n p : gmap Z (gset Z)) (l : ActiveLootContainer) : ActiveLootContainer :=
  mkLoot (loot_CreatureID l) (robinID l) (stage2Map l) (lootableID l) (itemList l) g n p.

(** Whether there is an entry: the value is not looked at. *)
Definition IsStage2 (l : ActiveLootContainer) (itemID : Z) : bool := bool_decide (is_Some (stage2Map l !! itemID)).

Definition SetStage2 (l : ActiveLootContainer) (itemID : Z) (stage2 : bool) : ActiveLootContainer :=
  let b := IsStage2 l itemID in
  if negb stage2 && b then set_stage2Map (delete itemID (stage2Map l)) l
  else if stage2 && negb b then set_stage2Map (<[itemID := true]> (stage2Map l)) l
  else l.

Definition AddItem (l : ActiveLootContainer) (itemID : Z) : ActiveLootContainer :=
  if (16 <? length (itemList l))%nat then l
  else if 0 <? itemID then set_itemList (itemList l ++ [itemID]) l else l.

Definition HasItem (l : ActiveLootContainer) (itemID : Z) : Z := idx (find_idx (fun i => i =? itemID) (itemList l)).

Definition RemoveItem (l : ActiveLootContainer) (index : Z) : ActiveLootContainer :=
  if (index <? 0) || (Z.of_nat (length (itemList l)) <=? index) then l
  else set_itemList (delete (Z.to_nat index) (itemList l)) l.

Definition WriteLootQueryToBuffer (l : ActiveLootContainer) (queryIndex : Z) : option (list Z) :=
  match QueryResponse.Write (fold_left (fun r item => QueryResponse.AddRow r [GetItemProto item 0]) (itemList l) (QueryResponse.new queryIndex)) with
  | inr (bytes, _) => Some bytes
  | inl _ => None
  end.

Definition AddLootableID (l : ActiveLootContainer) (newLootableID : Z) : ActiveLootContainer :=
  if existsb (fun i => i =? newLootableID) (lootableID l) then l
  else set_lootableID (lootableID l ++ [newLootableID]) l.

Definition HasLootableID (l : ActiveLootContainer) (creatureID : Z) : Z :=
  idx (find_idx (fun i => i =? creatureID) (lootableID l)).

(** The list of those who may loot and the second stages of the target stay. *)
Definition CopyLootContents (source l : ActiveLootContainer) : ActiveLootContainer :=
  mkLoot (loot_CreatureID source) (robinID source) (stage2Map l) (lootableID l) (itemList source)
    (greeded source) (needed source) (passed source).

(** *** Decisions *)

Definition decisions (rolls : gmap Z (gset Z)) (itemId : Z) : gset Z := default ∅ (rolls !! itemId).

Definition decide_on (itemId looter : Z) (rolls : gmap Z (gset Z)) : gmap Z (gset Z) :=
  <[itemId := {[looter]} ∪ decisions rolls itemId]> rolls.

Definition Greed (l : ActiveLootContainer) (itemId looter : Z) : ActiveLootContainer :=
  set_rolls (decide_on itemId looter (greeded l)) (needed l) (passed l) l.
Definition Need (l : ActiveLootContainer) (itemId looter : Z) : ActiveLootContainer :=
  set_rolls (greeded l) (decide_on itemId looter (needed l)) (passed l) l.
Definition Pass (l : ActiveLootContainer) (itemId looter : Z) : ActiveLootContainer :=
  set_rolls (greeded l) (needed l) (decide_on itemId looter (passed l)) l.

Definition Decided (itemId looter : Z) (rolls : gmap Z (gset Z)) : bool := bool_decide (looter ∈ decisions rolls itemId).

Definition IsPassed (l : ActiveLootContainer) (itemId looter : Z) : bool := Decided itemId looter (passed l).
Definition IsNeeded (l : ActiveLootContainer) (itemId looter : Z) : bool := Decided itemId looter (needed l).
Definition IsGreeded (l : ActiveLootContainer) (itemId looter : Z) : bool := Decided itemId looter (greeded l).
Definition HasAnyDecided (l : ActiveLootContainer) (itemId looter : Z) : bool :=
  Decided itemId looter (greeded l) || Decided itemId looter (needed l) || Decided itemId looter (passed l).

Definition Count (itemId : Z) (rolls : gmap Z (gset Z)) : Z := Z.of_nat (base.size (decisions rolls itemId)).
Definition CountDecisions (l : ActiveLootContainer) (itemId : Z) : Z :=
  Count itemId (greeded l) + Count itemId (needed l) + Count itemId (passed l).

Definition RemoveAllRolls (l : ActiveLootContainer) : ActiveLootContainer := set_stage2Map ∅ (set_rolls ∅ ∅ ∅ l).

(** Identifier 0: of everyone. *)
Definition RemoveCreatureRollsFromMap (itemId looter : Z) (rolls : gmap Z (gset Z)) : gmap Z (gset Z) :=
  match rolls !! itemId with
  | None => rolls
  | Some s => if looter =? 0 then delete itemId rolls else <[itemId := s ∖ {[looter]}]> rolls
  end.

Definition RemoveCreatureRolls (l : ActiveLootContainer) (itemId looter : Z) : ActiveLootContainer :=
  set_rolls (RemoveCreatureRollsFromMap itemId looter (greeded l)) (RemoveCreatureRollsFromMap itemId looter (needed l))
    (RemoveCreatureRollsFromMap itemId looter (passed l)) l.

(** ** The world *)

Record LootCreature := mkLootCreature { activeLootID : Z; body : StatMods.Creature; npc_X : Z; npc_Z : Z }.

(** [lootsys.creatureList] and the creatures that are no players. *)
Record Instance := mkInstance { creatureList : gmap Z ActiveLootContainer; NPCList : gmap Z LootCreature }.

Inductive Event :=
| Activate (sim IID : Z)                             (* ActivateActionAbilities *)
| Destroyed (itemID : Z)                             (* NotifyDestroy *)
| Local (inst : Z) (packet : list Z) (x z : Z).      (* LSendToLocalSimulator *)

Record CharacterData := mkCharacter { inventory : InventoryManager; pendingChanges : Z }.

Record World := mkWorld {
  parties : PartyManager; instances : gmap Z Instance; characters : gmap Z CharacterData;
  spots : gmap Z (Z * Z); drawn : nat; UpdateList : list StatMods.PendingCreatureUpdate; events : list Event }.

Definition set_pm (p : PartyManager) (w : World) : World :=
  mkWorld p (instances w) (characters w) (spots w) (drawn w) (UpdateList w) (events w).
Definition set_instances (i : gmap Z Instance) (w : World) : World :=
  mkWorld (parties w) i (characters w) (spots w) (drawn w) (UpdateList w) (events w).
Definition set_characters (c : gmap Z CharacterData) (w : World) : World :=
  mkWorld (parties w) (instances w) c (spots w) (drawn w) (UpdateList w) (events w).
Definition draw (w : World) : World :=
  mkWorld (parties w) (instances w) (characters w) (spots w) (S (drawn w)) (UpdateList w) (events w).
Definition set_updates (l : list StatMods.PendingCreatureUpdate) (w : World) : World :=
  mkWorld (parties w) (instances w) (characters w) (spots w) (drawn w) l (events w).
Definition note (e : list Event) (w : World) : World :=
  mkWorld (parties w) (instances w) (characters w) (spots w) (drawn w) (UpdateList w) (events w ++ e).

Definition set_lootSeq (s : Z) (m : PartyManager) : PartyManager :=
  mkPartyManager (env m) (mPartyList m) (nextPartyID m) s.
Definition set_creatureList (l : gmap Z ActiveLootContainer) (i : Instance) : Instance := mkInstance l (NPCList i).
Definition set_NPCList (l : gmap Z LootCreature) (i : Instance) : Instance := mkInstance (creatureList i) l.

(** *** Access *)

Definition undefined {A} : Act World A := fun _ => None.
Definition here {A} (o : option A) : Act World A := match o with Some a => mret a | None => undefined end.

Definition player (ptr : Z) : Act World Creature := e ← gets (fun w => env (parties w)); here (creature e ptr).
Definition party_at (i : nat) : Act World ActiveParty := l ← gets (fun w => mPartyList (parties w)); here (l !! i).
Definition put_party (i : nat) (p : ActiveParty) : Act World unit :=
  modify (fun w => set_pm (set_parties (parties w) (<[i := p]> (mPartyList (parties w)))) w).
Definition on_env (f : Env -> Env) : Act World unit := modify (fun w => set_pm (set_env (parties w) (f (env (parties w)))) w).

Definition instance_at (inst : Z) : Act World Instance := m ← gets instances; here (m !! inst).
Definition put_instance (inst : Z) (i : Instance) : Act World unit := modify (fun w => set_instances (<[inst := i]> (instances w)) w).

(** An [ActiveLootContainer*]: the instance and the key. *)
Definition LootPtr : Type := Z * Z.
Definition loot_at (l : LootPtr) : Act World ActiveLootContainer := i ← instance_at l.1; here (creatureList i !! l.2).
Definition on_loot (l : LootPtr) (f : ActiveLootContainer -> ActiveLootContainer) : Act World unit :=
  i ← instance_at l.1;
  c ← here (creatureList i !! l.2);
  put_instance l.1 (set_creatureList (<[l.2 := f c]> (creatureList i)) i).

(** [&creatureList[key]]: a container that is missing is made. *)
Definition container (inst key : Z) : Act World LootPtr :=
  i ← instance_at inst;
  _ ← match creatureList i !! key with
      | Some _ => mret tt
      | None => put_instance inst (set_creatureList (<[key := ActiveLootContainer_new 0]> (creatureList i)) i)
      end;
  mret (inst, key).

(** [simulatorPtr->AttemptSend] of [LSendToOneSimulator]. *)
Definition LSendToOneSimulator (packet : list Z) (c : Creature) : Act World unit :=
  match simulator c with Some socket => on_env (fun e => emit e (ToSocket socket packet)) | None => mret tt end.

(** A member and its creature when it is online. *)
Definition online (m : PartyMember) : Act World (option Creature) :=
  e ← gets (fun w => env (parties w));
  ok ← here (IsOnlineAndValid e m);
  if (ok : bool) then ptr ← here (mCreaturePtr m); c ← player ptr; mret (Some c) else mret None.

(** ** The loot of an instance *)

(** [int AttachLootToCreature]. *)
Definition AttachLootToCreature (loot : ActiveLootContainer) (CreatureID : Z) (i : Instance) : Z * Instance :=
  if (length (itemList loot) =? 0)%nat then (0, i)
  else
    let c := default (ActiveLootContainer_new 0) (creatureList i !! CreatureID) in
    (CreatureID, set_creatureList (<[CreatureID := CopyLootContents loot c]> (creatureList i)) i).

Definition GetCreature (creatureID : Z) (i : Instance) : Z := match creatureList i !! creatureID with Some _ => creatureID | None => -1 end.

Definition DeleteAllLoot (l : ActiveLootContainer) : list Event := map Destroyed (itemList l).

Definition RemoveCreature (inst creatureID : Z) : Act World unit :=
  i ← instance_at inst;
  if 0 <=? GetCreature creatureID i then
    l ← here (creatureList i !! creatureID);
    _ ← modify (note (DeleteAllLoot l));
    put_instance inst (set_creatureList (delete creatureID (creatureList i)) i)
  else mret tt.

(** ** Offers *)

Section Handlers.
Context {db : ItemDb} `{!StatMods.AbilityHost} (tbl : list StatDefinition) (g_ProtocolVersion g_ServerTime : Z) (rng : nat -> Z).

Definition NONE : Z := 0.
Definition INVSPACE : Z := -2.
Definition LOOT : Z := -3.
Definition LOOTDENIED : Z := -4.
Definition LOOTMISSING : Z := -5.
Definition INVCREATE : Z := -6.
Definition OUTOFRANGE : Z := -10.
Definition NEED_B4_GREED : Z := 1.
Definition MUNDANE : Z := 2.
Definition INTERACT_RANGE : Z := 50.
Definition PARTY_LOOT_RANGE : Z := 1920.

Definition flag (p : ActiveParty) (f : Z) : bool := 0 <? Z.land (mLootFlags p) f.

(** [party->TagItem]. *)
Definition tag_item (party : nat) (itemId creatureId lootCreatureId slot : Z) : Act World LootTag :=
  p ← party_at party;
  s ← gets (fun w => lootSeq (parties w));
  let '(tag, p', s') := TagItem s p itemId creatureId lootCreatureId slot in
  _ ← put_party party p';
  _ ← modify (fun w => set_pm (set_lootSeq s' (parties w)) w);
  mret tag.

(** [GetBoxRange] of the places. *)
Definition box_range (x1 z1 x2 z2 : Z) : Z := Z.max (Z.abs (i32 (x1 - x2))) (Z.abs (i32 (z1 - z2))).

(** [protected_CheckDistanceBetweenCreaturesFor]. *)
Definition CheckDistance (ptr CID range : Z) : Act World Z :=
  c ← player ptr;
  i ← instance_at (actInst c);
  match NPCList i !! CID with
  | None => mret INVALIDOBJ
  | Some n =>
      places ← gets spots;
      place ← here (places !! ptr);
      mret (if range <? box_range place.1 place.2 (npc_X n) (npc_Z n) then OUTOFRANGE else 0)
  end.

Definition inventory_of (charPtr : Z) : Act World InventoryManager :=
  l ← gets characters; c ← here (l !! charPtr); mret (inventory c).

(** The first of a list that is online. *)
Fixpoint first_online (l : list PartyMember) : Act World (option (PartyMember * Creature)) :=
  match l with
  | [] => mret None
  | m :: l' => o ← online m; match o with Some c => mret (Some (m, c)) | None => first_online l' end
  end.

(** The leader, or the first member that is online. *)
Definition loot_master (p : ActiveParty) : Act World (option (PartyMember * Creature)) :=
  match GetMemberByID p (mLeaderID p) ≫= fun i => mMemberList p !! i with
  | Some m => o ← online m; match o with Some c => mret (Some (m, c)) | None => first_online (mMemberList p) end
  | None => first_online (mMemberList p)
  end.

Definition send_offer (tag : LootTag) (ItemID : Z) (needOrGreed : bool) (c : Creature) : Act World unit :=
  LSendToOneSimulator (Party.OfferLoot ItemID (sprintf_d (lootTag tag)) needOrGreed) c.

(** The offers to the other members in range; how many were made. *)
Fixpoint offer_others (party : nat) (receiver ItemID : Z) (needOrGreed : bool) (CID : Z) (l : list PartyMember) (offers : Z)
    : Act World Z :=
  match l with
  | [] => mret offers
  | m :: l' =>
      o ← online m;
      match o with
      | None => offer_others party receiver ItemID needOrGreed CID l' offers
      | Some c =>
          if mCreatureID m =? receiver then offer_others party receiver ItemID needOrGreed CID l' offers
          else
            ptr ← here (mCreaturePtr m);
            dist ← CheckDistance ptr CID PARTY_LOOT_RANGE;
            if dist =? 0 then
              tag ← tag_item party ItemID (CreatureID c) CID 0;
              _ ← send_offer tag ItemID needOrGreed c;
              offer_others party receiver ItemID needOrGreed CID l' (i32 (offers + 1))
            else offer_others party receiver ItemID needOrGreed CID l' offers
      end
  end.

(** An error code ([NONE] is none), or the bytes left in the buffer of the caller. *)
Definition Reply : Type := Z + list Z.

(** Mode -1 is [None]. *)
Definition OfferLoot (mode : option LootMode) (loot : LootPtr) (party : nat) (receiving : Z) (ItemID : Z)
    (needOrGreed : bool) (CID : Z) : Act World Reply :=
  p ← party_at party;
  me ← player receiving;
  match mode with
  | Some ROUND_ROBIN =>
      e ← gets (fun w => env (parties w));
      found ← here (GetNextLooter e p);
      let '(robin, p') := (found : option nat * ActiveParty) in
      _ ← put_party party p';
      k ← here robin;
      m ← here (mMemberList p' !! k);
      _ ← on_loot loot (set_robinID (mCreatureID m));
      ptr ← here (mCreaturePtr m);
      c ← player ptr;
      tag ← tag_item party ItemID (CreatureID c) CID 0;
      _ ← send_offer tag ItemID false c;
      mret (inl NONE)
  | Some LOOT_MASTER =>
      master ← loot_master p;
      match master with
      | None => mret (inl GENERIC)
      | Some (m, c) =>
          bag ← inventory_of (charPtr c);
          tag ← tag_item party ItemID (CreatureID c) CID (GetFreeSlot bag INV_CONTAINER);
          _ ← send_offer tag ItemID false c;
          mret (inl NONE)
      end
  | _ =>
      offers ← offer_others party (CreatureID me) ItemID needOrGreed CID (mMemberList p) 0;
      match mode with
      | Some _ =>
          bag ← inventory_of (charPtr me);
          tag ← tag_item party ItemID (CreatureID me) CID (GetFreeSlot bag INV_CONTAINER);
          mret (inr (Party.OfferLoot ItemID (sprintf_d (lootTag tag)) needOrGreed))
      | None => mret (inl (if offers =? 0 then GENERIC else NONE))
      end
  end.

(** ** Clearing up *)

Definition remove_tags (loot : LootPtr) (party : nat) (itemId creatureId : Z) : Act World unit :=
  l ← loot_at loot;
  p ← party_at party;
  put_party party (RemoveTagsForLootCreatureId p (loot_CreatureID l) itemId creatureId).

Definition ClearLoot (party : nat) (loot : LootPtr) : Act World unit :=
  _ ← remove_tags loot party 0 0; on_loot loot RemoveAllRolls.

Definition ResetLoot (party : nat) (loot : LootPtr) (itemId : Z) : Act World unit :=
  _ ← remove_tags loot party itemId 0; on_loot loot (fun l => RemoveCreatureRolls l itemId 0).

Definition UndoLoot (party : nat) (loot : LootPtr) (itemId creatureId : Z) : Act World unit :=
  _ ← remove_tags loot party itemId creatureId; on_loot loot (fun l => RemoveCreatureRolls l itemId creatureId).

Definition chr_quote : string := String (chr 34) EmptyString.
Definition quoted (s : string) : string := chr_quote +:+ s +:+ chr_quote.

Definition DefaultTombstoneAppearanceOverride : string :=
  "{[" +:+ quoted "a" +:+ "]=" +:+ quoted "Prop-Tombstone1" +:+ ",[" +:+ quoted "size" +:+ "]=3,[" +:+ quoted "type" +:+ "]=" +:+
  quoted "Scenery" +:+ "}|{[" +:+ quoted "a" +:+ "]=" +:+ quoted "Prop-Corpse_Marker" +:+ ",[" +:+ quoted "size" +:+ "]=1,[" +:+
  quoted "type" +:+ "]=" +:+ quoted "Scenery" +:+ "}".

Definition put_string (m s : string) : CharacterStatSet -> option CharacterStatSet := update_member (offsetof m) (write_string s).

(** The creature of an empty container can no longer be looted. *)
Definition close_creature (n : LootCreature) (updates : list StatMods.PendingCreatureUpdate)
    : option (LootCreature * list StatMods.PendingCreatureUpdate) :=
  css ← put_string "loot_seeable_player_ids" EmptyString (StatMods.css (body n));
  css ← put_string "lootable_player_ids" EmptyString css;
  s ← StatMods._RemoveStatusList StatusEffects.IS_USABLE (StatMods.mkScene (StatMods.set_css css (body n)) ∅ updates []);
  css ← put_string "appearance_override" DefaultTombstoneAppearanceOverride (StatMods.css (StatMods.self s));
  Some (mkLootCreature 0 (StatMods.set_css css (StatMods.self s)) (npc_X n) (npc_Z n), StatMods.UpdateList s).

(** The container of [CID] is empty: its creature is told to the players near [ptr]. *)
Definition close_loot (inst CID ptr : Z) : Act World unit :=
  i ← instance_at inst;
  _ ← match NPCList i !! CID with
      | None => mret tt
      | Some n =>
          updates ← gets UpdateList;
          closed ← here (close_creature n updates);
          let '(n', updates') := (closed : LootCreature * list StatMods.PendingCreatureUpdate) in
          _ ← put_instance inst (set_NPCList (<[CID := n']> (NPCList i)) i);
          _ ← modify (set_updates updates');
          packet ← here (PrepExt_SendSpecificStats tbl g_ProtocolVersion (StatMods.CreatureID (body n'))
                           [STAT.APPEARANCE_OVERRIDE; STAT.LOOTABLE_PLAYER_IDS; STAT.LOOT_SEEABLE_PLAYER_IDS] (StatMods.css (body n')));
          places ← gets spots;
          place ← here (places !! ptr);
          modify (note [Local inst packet place.1 place.2])
      end;
  RemoveCreature inst CID.

(** ** Rolls *)

(** [RandModRng(min, max)] for [min < max]: [max] is never the result. *)
Definition RandModRng (min max : Z) : Act World Z :=
  n ← gets drawn; _ ← modify draw; mret (min + (rng n) mod (max - min)).

Definition member_of (p : ActiveParty) (id : Z) : option PartyMember := GetMemberByID p id ≫= fun k => mMemberList p !! k.

(** The creatures in ascending order; the best roll and who made it. *)
Fixpoint roll_for (p : ActiveParty) (item : option ItemDef) (ids : list Z) (maxRoll : Z) (maxRoller : option PartyMember)
    : Act World (option PartyMember) :=
  match ids with
  | [] => mret maxRoller
  | id :: ids' =>
      rolled ← RandModRng 1 100;
      let m := member_of p id in
      m' ← here m;
      d ← here item;
      ptr ← here (mCreaturePtr m');
      c ← player ptr;
      _ ← on_env (fun e => BroadCast e p (WriteLootRoll (Items.mDisplayName d) rolled (display_name c)));
      if maxRoll <? rolled then roll_for p item ids' rolled m else roll_for p item ids' maxRoll maxRoller
  end.

Definition in_order (s : gset Z) : list Z := merge_sort Z.le (elements s).

Definition RollForPartyLoot (p : ActiveParty) (creatureIds : gset Z) (itemId : Z) : Act World (option PartyMember) :=
  match in_order creatureIds with
  | [id] => mret (member_of p id)
  | ids => roll_for p (item_of itemId) ids 0 None
  end.

(** [RollForPartyLoot(...)->mCreaturePtr]. *)
Definition roll_winner (p : ActiveParty) (creatureIds : gset Z) (itemId : Z) : Act World (option Z) :=
  m ← RollForPartyLoot p creatureIds itemId; m' ← here m; mret (mCreaturePtr m').

(** ** The award *)

(** [operator[]] of the three maps of decisions. *)
Definition touch (itemId : Z) (rolls : gmap Z (gset Z)) : gmap Z (gset Z) := <[itemId := decisions rolls itemId]> rolls.

(** One of those who need the item, or else of those who greed it. *)
Definition pick_winner (p : ActiveParty) (loot : LootPtr) (itemId : Z) : Act World (option Z) :=
  _ ← on_loot loot (fun l => set_rolls (greeded l) (touch itemId (needed l)) (passed l) l);
  l ← loot_at loot;
  let needers := decisions (needed l) itemId in
  if (0 <? base.size needers)%nat then roll_winner p needers itemId
  else
    _ ← on_loot loot (fun l => set_rolls (touch itemId (greeded l)) (needed l) (passed l) l);
    let greeders := decisions (greeded l) itemId in
    if (0 <? base.size greeders)%nat then roll_winner p greeders itemId else mret None.

Definition win_message (tag : LootTag) (original winner : string) (creatureId : Z) : list Z :=
  WriteLootWin (sprintf_d (mCreatureId tag) +:+ ":" +:+ sprintf_d (mSlotIndex tag)) original winner creatureId 999.

(** Nobody wants the item. The tag of a member who is not online is made from a null
    pointer. *)
Fixpoint tell_nobody (party : nat) (tag : LootTag) (l : list PartyMember) : Act World unit :=
  match l with
  | [] => mret tt
  | m :: l' =>
      o ← online m;
      c ← here o;
      p ← party_at party;
      let t := GetTag p (mItemId tag) (CreatureID c) in
      _ ← (if LootTag_Valid t then LSendToOneSimulator (win_message t "0" "Nobody" (mCreatureId tag)) c else mret tt);
      tell_nobody party tag l'
  end.

Fixpoint tell_winner (party : nat) (tag : LootTag) (winner : string) (l : list PartyMember) : Act World unit :=
  match l with
  | [] => mret tt
  | m :: l' =>
      o ← online m;
      _ ← match o with
          | None => mret tt
          | Some c =>
              p ← party_at party;
              let t := GetTag p (mItemId tag) (CreatureID c) in
              if LootTag_Valid t then LSendToOneSimulator (win_message t (sprintf_d (lootTag t)) winner (mCreatureId tag)) c else mret tt
          end;
      tell_winner party tag winner l'
  end.

Definition set_character (ptr : Z) (m : InventoryManager) (pending : Z -> Z) : Act World unit :=
  l ← gets characters;
  c ← here (l !! ptr);
  modify (set_characters (<[ptr := mkCharacter m (pending (pendingChanges c))]> l)).

(** [AddItem_Ex] of one item to the backpack; the slot that has it. *)
Definition receive (charPtr itemId : Z) : Act World (option InventorySlot) :=
  bag ← inventory_of charPtr;
  match AddItem_Ex g_ServerTime bag INV_CONTAINER itemId 1 with
  | (None, bag') => _ ← set_character charPtr bag' id; mret None
  | (Some i, bag') =>
      slot ← here (cont bag' INV_CONTAINER !! i);
      _ ← set_character charPtr bag' (fun n => i32 (n + 1));
      mret (Some slot)
  end.

(** The item leaves the container; an empty container is removed. *)
Definition take_from (party : nat) (loot : LootPtr) (tag : LootTag) (conIndex caller : Z) : Act World unit :=
  _ ← on_loot loot (fun l => RemoveItem l conIndex);
  _ ← ResetLoot party loot (mItemId tag);
  l ← loot_at loot;
  if (length (itemList l) =? 0)%nat then
    _ ← ClearLoot party loot; c ← player caller; close_loot (actInst c) (mLootCreatureId tag) caller
  else mret tt.

Definition no_room (name : string) : string := SafeFormat 128 (name +:+ " doesn't have enough space. Starting bidding again").

Definition award (sim : Z) (caller : Z) (party : nat) (loot : LootPtr) (tag : LootTag) (winner : Z) : Act World unit :=
  c ← player winner;
  p ← party_at party;
  let winnerTag := GetTag p (mItemId tag) (CreatureID c) in
  _ ← tell_winner party tag (display_name c) (mMemberList p);
  bag ← inventory_of (charPtr c);
  if GetFreeSlot bag INV_CONTAINER =? -1 then
    _ ← on_env (fun e => BroadcastInfoMessageToAllMembers e p (no_room (display_name c)));
    ResetLoot party loot (mItemId tag)
  else
    got ← receive (charPtr c) (mItemId winnerTag);
    match got with
    | None => ResetLoot party loot (mItemId tag)
    | Some slot =>
        _ ← modify (note [Activate sim (IID slot)]);
        l ← loot_at loot;
        let conIndex := HasItem l (mItemId tag) in
        if conIndex =? -1 then mret tt
        else
          _ ← take_from party loot tag conIndex caller;
          LSendToOneSimulator (Global.AddItemUpdate g_ServerTime slot) c
    end.

(** The robin or the leader passed: the others are asked. *)
Definition offer_again (caller : Z) (party : nat) (loot : LootPtr) (tag : LootTag) (needOrGreed : bool) : Act World unit :=
  _ ← on_loot loot (fun l => RemoveCreatureRolls (SetStage2 l (mItemId tag) true) (mItemId tag) (mCreatureId tag));
  p ← party_at party;
  _ ← put_party party (RemoveCreatureTags p (mItemId tag) (mCreatureId tag));
  r ← OfferLoot None loot party caller (mItemId tag) needOrGreed (mLootCreatureId tag);
  match r with
  | inl e => if e =? GENERIC then ResetLoot party loot (mItemId tag) else mret tt
  | inr _ => mret tt
  end.

Definition is_robin (m : LootMode) : bool := match m with ROUND_ROBIN => true | _ => false end.
Definition is_master (m : LootMode) : bool := match m with LOOT_MASTER => true | _ => false end.

(** The decisions that are waited for. *)
Definition requiredDecisions (p : ActiveParty) (stage2 : bool) (onlineMembers : Z) : Z :=
  if is_robin (mLootMode p) || is_master (mLootMode p) then if stage2 then u32 (onlineMembers - 1) else 1
  else onlineMembers.

(** Whether the player is asked first and has not been asked yet. *)
Definition first_choice (p : ActiveParty) (l : ActiveLootContainer) (itemId id : Z) : bool :=
  negb (IsStage2 l itemId) &&
  ((is_master (mLootMode p) && (mLeaderID p =? id)) || (is_robin (mLootMode p) && (robinID l =? id))).

Definition CheckIfLootReadyToDistribute (sim caller : Z) (loot : LootPtr) (tag : LootTag) : Act World unit :=
  c ← player caller;
  pm ← gets parties;
  party ← here (GetPartyByID pm (PartyID c));
  p ← party_at party;
  n ← here (GetOnlineMemberCount (env pm) p);
  l ← loot_at loot;
  if CountDecisions l (mItemId tag) <? requiredDecisions p (IsStage2 l (mItemId tag)) n then mret tt
  else
    let first := first_choice p l (mItemId tag) (CreatureID c) in
    if first && negb (IsNeeded l (mItemId tag) (CreatureID c) || IsGreeded l (mItemId tag) (CreatureID c)) then
      offer_again caller party loot tag (flag p NEED_B4_GREED)
    else
      winner ← (if first then mret (Some caller) else pick_winner p loot (mItemId tag));
      match winner with
      | None => _ ← tell_nobody party tag (mMemberList p); ResetLoot party loot (mItemId tag)
      | Some w => award sim caller party loot tag w
      end.

(** ** Queries *)

(** [loot.need], [loot.greed] and [loot.pass]; other names decide nothing. *)
Definition decide_as (command : string) (l : ActiveLootContainer) (itemId looter : Z) : ActiveLootContainer :=
  if String.eqb command "loot.need" then Need l itemId looter
  else if String.eqb command "loot.greed" then Greed l itemId looter
  else if String.eqb command "loot.pass" then Pass l itemId looter
  else l.

(** [party->lootTags[key]]: a missing tag is made. *)
Definition tag_at (party : nat) (key : Z) : Act World LootTag :=
  p ← party_at party;
  match List.find (fun t => t.1 =? key) (lootTags p) with
  | Some t => mret t.2
  | None => _ ← put_party party (set_tags p (assign_key key LootTag_Clear (lootTags p))); mret LootTag_Clear
  end.

Definition query_loot_need_greed_pass (q : Trade.Query) : Act World Reply :=
  c ← player (Trade.creatureInstance q);
  pm ← gets parties;
  match GetPartyByID pm (PartyID c) with
  | None => mret (inl GENERIC)
  | Some party =>
      match Trade.args q with
      | command :: key :: _ =>
          tag ← tag_at party (atoi key);
          if negb (LootTag_Valid tag) then mret (inl INVALIDITEM)
          else
            loot ← container (actInst c) (mLootCreatureId tag);
            l ← loot_at loot;
            if HasAnyDecided l (mItemId tag) (CreatureID c) then mret (inl LOOTDENIED)
            else if negb (mCreatureId tag =? CreatureID c) then mret (inl LOOTDENIED)
            else
              _ ← on_loot loot (fun l => decide_as command l (mItemId tag) (mCreatureId tag));
              _ ← CheckIfLootReadyToDistribute (Trade.sim q) (Trade.creatureInstance q) loot tag;
              mret (inr (PrepExt_QueryResponseString (Trade.query_ID q) "OK"))
      | _ => mret (inl GENERIC)
      end
  end.

Definition fail (q : Trade.Query) (message : string) : list Z := PrepExt_QueryResponseString2 (Trade.query_ID q) "FAIL" message.

(** What is written to the client; nothing without the arguments. *)
Definition LootNeedGreedPassHandler (q : Trade.Query) : Act World (list Z) :=
  if (length (Trade.args q) <? 2)%nat then mret []
  else
    r ← query_loot_need_greed_pass q;
    mret (match r with inl e => fail q (Trade.GetErrorString e) | inr bytes => bytes end).

Definition LootListHandler (q : Trade.Query) : Act World (list Z) :=
  match Trade.args q with
  | [] => mret []
  | id :: _ =>
      c ← player (Trade.creatureInstance q);
      i ← instance_at (actInst c);
      let r := GetCreature (atoi id) i in
      if r =? -1 then mret (fail q "Creature does not have any loot.")
      else
        l ← container (actInst c) r;
        loot ← loot_at l;
        here (WriteLootQueryToBuffer loot (Trade.query_ID q))
  end.

Definition LootExitHandler (q : Trade.Query) : Act World (list Z) :=
  mret (PrepExt_QueryResponseString (Trade.query_ID q) "OK").

(** The party shares the item: its quality is read when there is a party. *)
Definition partyLootable (p : option ActiveParty) (ItemID : Z) : option bool :=
  match p with
  | None => Some false
  | Some p => d ← item_of ItemID; Some ((2 <=? mQualityLevel d) || flag p MUNDANE)
  end.

(** The item goes to the player. *)
Definition loot_alone (q : Trade.Query) (c : Creature) (CID ItemID : Z) (loot : LootPtr) (conIndex : Z) : Act World Reply :=
  bag ← inventory_of (Trade.pld_charPtr q);
  if GetFreeSlot bag INV_CONTAINER =? -1 then mret (inl INVSPACE)
  else
    got ← receive (Trade.pld_charPtr q) ItemID;
    match got with
    | None => mret (inl INVCREATE)
    | Some slot =>
        _ ← modify (note [Activate (Trade.sim q) (IID slot)]);
        _ ← on_loot loot (fun l => RemoveItem l conIndex);
        l ← loot_at loot;
        _ ← (if (length (itemList l) =? 0)%nat then close_loot (actInst c) CID (Trade.creatureInstance q) else mret tt);
        mret (inr (Global.AddItemUpdate g_ServerTime slot))
    end.

(** The reply and [conIndex], which is 0 until the item is looked for. *)
Definition query_loot_item (q : Trade.Query) (CID ItemID : Z) : Act World (Reply * Z) :=
  c ← player (Trade.creatureInstance q);
  pm ← gets parties;
  let party := GetPartyByID pm (PartyID c) in
  let p := party ≫= fun i => mPartyList pm !! i in
  shared ← here (partyLootable p ItemID);
  let needOrGreed := (shared : bool) && match p with Some p => flag p NEED_B4_GREED | None => false end in
  dist ← CheckDistance (Trade.creatureInstance q) CID INTERACT_RANGE;
  if negb (dist =? 0) then mret (inl dist, 0)
  else
    i ← instance_at (actInst c);
    let r := GetCreature CID i in
    if r =? -1 then mret (inl LOOT, 0)
    else
      loot ← container (actInst c) r;
      l ← loot_at loot;
      if HasLootableID l (CreatureDefID c) =? -1 then mret (inl LOOTDENIED, 0)
      else
        let conIndex := HasItem l ItemID in
        if conIndex =? -1 then mret (inl LOOTMISSING, conIndex)
        else
          match party, p with
          | Some k, Some p =>
              if shared && HasTags p (CreatureDefID c) ItemID then mret (inl LOOTDENIED, conIndex)
              else if shared && negb (match mLootMode p with FREE_FOR_ALL => negb needOrGreed | _ => false end) then
                o ← OfferLoot (Some (mLootMode p)) loot k (Trade.creatureInstance q) ItemID needOrGreed CID;
                mret (o, conIndex)
              else o ← loot_alone q c CID ItemID loot conIndex; mret (o, conIndex)
          | _, _ => o ← loot_alone q c CID ItemID loot conIndex; mret (o, conIndex)
          end.

Definition LootItemHandler (q : Trade.Query) : Act World (list Z) :=
  match Trade.args q with
  | cid :: item :: _ =>
      r ← query_loot_item q (atoi cid) (atoi item);
      let '(o, conIndex) := (r : Reply * Z) in
      let response := PrepExt_QueryResponseStringList (Trade.query_ID q) ["OK"%string; sprintf_d conIndex] in
      mret (match o with
            | inl e => if e <? 0 then fail q (Trade.GetErrorString e) else response
            | inr bytes => bytes ++ response
            end)
  | _ => mret []
  end.

End Handlers.
