(* ===== verification/LootFacts.v ===== *)
(** * LootFacts: theorems on the loot of a party

    Messages, rolls and events leave the items where they are ([quiet]). A roll is won by
    the highest number ([roll_is_won]); the last decision on an item gives it to one of
    those who asked for it, and the item is then held once more and lies in the container
    once less ([last_decision_awards]) - if it still lies there: otherwise it is made from
    nothing. An item of which not every member online was told is never given away
    ([undecided_item_stays]). *)

From stdpp Require Import sorting.
From S2P Require Import Prelude ByteBuffer Messages Text StatTables Stats Items Inventory InventoryStock Party Entities Loot.
From S2P Require StatMods Trade AbilityTime.

(** ** What messages leave alone *)

(** The same world but for what was sent, drawn and noted. *)
Record quiet (w w' : World) : Prop := {
  q_instances : instances w' = instances w;
  q_characters : characters w' = characters w;
  q_spots : spots w' = spots w;
  q_creatures : creatures (env (parties w')) = creatures (env (parties w));
  q_parties : mPartyList (parties w') = mPartyList (parties w);
  q_seq : lootSeq (parties w') = lootSeq (parties w) }.

#[export] Instance quiet_pre : PreOrder quiet.
Proof.
  split; [intros w; by split|]. intros w1 w2 w3 [] []. split; congruence.
Qed.

Lemma creature_quiet w w' ptr : quiet w w' -> creature (env (parties w')) ptr = creature (env (parties w)) ptr.
Proof. intros [_ _ _ H _ _]. unfold creature. by rewrite H. Qed.

Lemma quiet_note e w : quiet w (note e w).
Proof. by split. Qed.

Lemma quiet_env f w : (forall e, creatures (f e) = creatures e) -> quiet w (set_pm (set_env (parties w) (f (env (parties w)))) w).
Proof. intros H. split; try done. apply H. Qed.

Section Quiet.
Implicit Types (w : World) (m : PartyMember).

Lemma player_does w ptr c (Q : Creature -> World -> Prop) :
  creature (env (parties w)) ptr = Some c -> Q c w -> does (player ptr) w Q.
Proof.
  intros H HQ. unfold player. apply does_bind, does_gets. unfold here. rewrite H. by apply does_ret.
Qed.

Lemma party_at_does w k p (Q : ActiveParty -> World -> Prop) :
  mPartyList (parties w) !! k = Some p -> Q p w -> does (party_at k) w Q.
Proof. intros H HQ. unfold party_at. apply does_bind, does_gets. unfold here. rewrite H. by apply does_ret. Qed.

Lemma on_env_does w f (Q : unit -> World -> Prop) :
  (forall e, creatures (f e) = creatures e) -> (forall w', quiet w w' -> drawn w' = drawn w -> Q tt w') -> does (on_env f) w Q.
Proof. intros H HQ. apply does_modify, HQ; [by apply quiet_env|done]. Qed.

Lemma LSend_does w packet c (Q : unit -> World -> Prop) : (forall w', quiet w w' -> Q tt w') -> does (LSendToOneSimulator packet c) w Q.
Proof.
  intros HQ. unfold LSendToOneSimulator. destruct (simulator c); [apply on_env_does; auto|]. apply does_ret, HQ. reflexivity.
Qed.

(** A member whose pointer leads to a creature, if it has one. *)
Definition sound w m : Prop := forall ptr, mCreaturePtr m = Some ptr -> is_Some (creature (env (parties w)) ptr).

Lemma sound_quiet w w' m : quiet w w' -> sound w m -> sound w' m.
Proof. intros H Hm ptr Hp. rewrite (creature_quiet _ _ _ H). by apply Hm. Qed.

Definition is_online w m : bool := available (env (parties w)) m.

Lemma IsOnline_quiet w w' m : quiet w w' -> IsOnlineAndValid (env (parties w')) m = IsOnlineAndValid (env (parties w)) m.
Proof.
  intros H. unfold IsOnlineAndValid. destruct (negb _); [done|]. destruct (mCreaturePtr m); [|done].
  by rewrite (creature_quiet _ _ _ H).
Qed.

Lemma online_does w m (Q : option Creature -> World -> Prop) :
  sound w m ->
  (if is_online w m
   then forall ptr c, mCreaturePtr m = Some ptr -> creature (env (parties w)) ptr = Some c -> Q (Some c) w
   else Q None w) ->
  does (online m) w Q.
Proof.
  intros Hm HQ. unfold online. apply does_bind, does_gets. apply does_bind.
  assert (IsOnlineAndValid (env (parties w)) m = Some (is_online w m)) as E.
  { apply (IsOnlineAndValid_available _ [m]); [|by left]. intros m' ptr ->%list_elem_of_singleton. apply Hm. }
  rewrite E. apply does_ret. revert E HQ. destruct (is_online w m); [|intros _; by apply does_ret].
  unfold IsOnlineAndValid. destruct (negb _); [done|]. destruct (mCreaturePtr m) as [ptr|] eqn:Ep; [|done].
  intros _ HQ. apply does_bind. apply does_ret. apply does_bind.
  destruct (Hm ptr Ep) as [c Hc]. apply (player_does _ _ c); [done|]. apply does_ret. by eapply HQ.
Qed.

(** The messages to the members on the winner. *)
Lemma tell_winner_does party tag winner l : forall w (Q : unit -> World -> Prop),
  (forall m, m ∈ l -> sound w m) -> is_Some (mPartyList (parties w) !! party) ->
  (forall w', quiet w w' -> Q tt w') -> does (tell_winner party tag winner l) w Q.
Proof.
  induction l as [|m l IH]; intros w Q Hs [p Hp] HQ; simpl; [apply does_ret, HQ; reflexivity|].
  apply does_bind, online_does; [apply Hs; by left|].
  assert (forall w1, quiet w w1 -> does (tell_winner party tag winner l) w1 Q) as Hrest.
  { intros w1 H1. apply IH.
    - intros m' Hm'. apply (sound_quiet w); [done|]. apply Hs. by right.
    - rewrite (q_parties _ _ H1). by eexists.
    - intros w' H2. apply HQ. by etrans. }
  destruct (is_online w m); [intros ptr c _ _|]; apply does_bind.
  - apply does_bind, (party_at_does _ _ p); [done|].
    destruct (LootTag_Valid _); [apply LSend_does, Hrest|apply does_ret, Hrest; reflexivity].
  - apply does_ret, Hrest. reflexivity.
Qed.

(** Telling that nobody wants the item, everyone being online. *)
Lemma tell_nobody_does party tag l : forall w (Q : unit -> World -> Prop),
  (forall m, m ∈ l -> sound w m /\ is_online w m = true) -> is_Some (mPartyList (parties w) !! party) ->
  (forall w', quiet w w' -> Q tt w') -> does (tell_nobody party tag l) w Q.
Proof.
  induction l as [|m l IH]; intros w Q Hs [p Hp] HQ; simpl; [apply does_ret, HQ; reflexivity|].
  destruct (Hs m) as [Hm Hon]; [by left|]. apply does_bind, online_does; [done|]. rewrite Hon. intros ptr c _ _.
  apply does_bind, does_ret. apply does_bind, (party_at_does _ _ p); [done|].
  assert (forall w1, quiet w w1 -> does (tell_nobody party tag l) w1 Q) as Hrest.
  { intros w1 H1. apply IH.
    - intros m' Hm'. destruct (Hs m') as [Hs1 Hs2]; [by right|]. split; [by apply (sound_quiet w)|].
      unfold is_online, available. by rewrite (IsOnline_quiet _ _ _ H1).
    - rewrite (q_parties _ _ H1). by eexists.
    - intros w' H2. apply HQ. by etrans. }
  apply does_bind. destruct (LootTag_Valid _); [apply LSend_does, Hrest|apply does_ret, Hrest; reflexivity].
Qed.

End Quiet.

(** ** Rolls *)

Section Rolls.
Context {db : ItemDb} (rng : nat -> Z).

(** The number that the roll at a position gives: 1 to 99. *)
Definition roll_at (n : nat) : Z := 1 + (rng n) mod 99.

Lemma roll_at_range n : 1 <= roll_at n <= 99.
Proof. unfold roll_at. pose proof (Z.mod_pos_bound (rng n) 99). lia. Qed.

(** A member of the party with a creature. *)
Definition present (w : World) (p : ActiveParty) (id : Z) : Prop :=
  exists m ptr, member_of p id = Some m /\ mCreaturePtr m = Some ptr /\ is_Some (creature (env (parties w)) ptr).

Lemma present_quiet w w' p id : quiet w w' -> present w p id -> present w' p id.
Proof. intros H (m & ptr & H1 & H2 & H3). exists m, ptr. by rewrite (creature_quiet _ _ _ H). Qed.

Lemma RandModRng_does w (Q : Z -> World -> Prop) :
  Q (roll_at (drawn w)) (draw w) -> does (RandModRng rng 1 100) w Q.
Proof. intros HQ. unfold RandModRng. by apply does_bind, does_gets, does_bind, does_modify, does_ret. Qed.

(** Who wins the rolls from a position on: the place of the best roll, if it beats [best]. *)
Definition won_at (ids : list Z) (n : nat) (best : Z) (j : nat) : Prop :=
  (j < length ids)%nat /\ best < roll_at (n + j) /\
  (forall i, (i < length ids)%nat -> roll_at (n + i) <= roll_at (n + j)) /\ (forall i, (i < j)%nat -> roll_at (n + i) < roll_at (n + j)).

Lemma won_at_next id ids n best j : won_at ids (S n) (Z.max best (roll_at n)) j -> won_at (id :: ids) n best (S j).
Proof.
  intros (H1 & H2 & H3 & H4). assert (forall i, n + S i = S n + i)%nat as E by (intros; lia).
  unfold won_at. rewrite E. cbn [length]. split_and!; [lia|lia|..]; intros [|i] Hi; rewrite ?Nat.add_0_r, ?E;
    [lia|apply H3; lia|lia|apply H4; lia].
Qed.

Lemma won_at_first id ids n best :
  best < roll_at n -> (forall i, (i < length ids)%nat -> roll_at (S n + i) <= roll_at n) -> won_at (id :: ids) n best 0.
Proof.
  intros H1 H2. assert (forall i, n + S i = S n + i)%nat as E by (intros; lia).
  unfold won_at. rewrite Nat.add_0_r. cbn [length]. split_and!; [lia|done| |intros i Hi; lia].
  intros [|i] Hi; rewrite ?Nat.add_0_r, ?E; [lia|]. apply H2. lia.
Qed.

Lemma roll_for_does p d ids : forall w best who (Q : option PartyMember -> World -> Prop),
  (forall id, id ∈ ids -> present w p id) ->
  (forall r w', quiet w w' -> drawn w' = (drawn w + length ids)%nat ->
    ((forall i, (i < length ids)%nat -> roll_at (drawn w + i) <= best) /\ r = who \/
     exists j id, won_at ids (drawn w) best j /\ ids !! j = Some id /\ r = member_of p id) -> Q r w') ->
  does (roll_for rng p (Some d) ids best who) w Q.
Proof.
  induction ids as [|id ids IH]; intros w best who Q Hp HQ; simpl.
  { apply does_ret, HQ; [done|simpl; lia|]. left. split; [intros i Hi; simpl in Hi; lia|done]. }
  apply does_bind, RandModRng_does. destruct (Hp id) as (m & ptr & Hm & Hptr & [c Hc]); [by left|]. rewrite Hm.
  apply does_bind, does_ret. apply does_bind, does_ret. apply does_bind. unfold here. rewrite Hptr. apply does_ret.
  apply does_bind, (player_does _ _ c); [done|]. apply does_bind, on_env_does; [intros e; apply creatures_BroadCast|].
  intros w1 Hq Hd. assert (quiet w w1) as Hw1 by (etrans; [|exact Hq]; by split).
  assert (drawn w1 = S (drawn w)) as Hd1 by by rewrite Hd.
  assert (forall i, roll_at (drawn w1 + i) = roll_at (drawn w + S i)) as Hshift by (intros i; rewrite Hd1; f_equal; lia).
  assert (forall id', id' ∈ ids -> present w1 p id') as Hp1.
  { intros id' Hin. apply (present_quiet w); [done|]. apply Hp. by right. }
  destruct (Z.ltb_spec best (roll_at (drawn w))) as [Hbest|Hbest].
  all: apply (IH w1); [done|]; intros r w' Hq' Hd' Hr; apply HQ; [by etrans|rewrite Hd', Hd1; simpl; lia|].
  - right. destruct Hr as [[Hall ->]|(j & id' & Hj & Hin & ->)].
    + exists 0%nat, id. split; [|by rewrite Hm]. apply won_at_first; [done|]. intros i Hi. rewrite <- Hd1. by apply Hall.
    + exists (S j), id'. split; [|done]. apply won_at_next. rewrite Z.max_r, <- Hd1 by lia. done.
  - destruct Hr as [[Hall ->]|(j & id' & Hj & Hin & ->)].
    + left. split; [|done]. intros [|i] Hi; [by rewrite Nat.add_0_r|]. rewrite <- Hshift. apply Hall. simpl in Hi. lia.
    + right. exists (S j), id'. split; [|done]. apply won_at_next. rewrite Z.max_l, <- Hd1 by lia. done.
Qed.

Lemma elem_of_in_order id s : id ∈ in_order s <-> id ∈ s.
Proof. unfold in_order. by rewrite merge_sort_Permutation, elem_of_elements. Qed.

(** The winner of a roll: the only one who takes part, or the one with the best number,
    the first of them in the order of their identifiers. *)
Definition wins_roll (w : World) (s : gset Z) (id : Z) : Prop :=
  exists j, in_order s !! j = Some id /\
    ((1 < length (in_order s))%nat -> won_at (in_order s) (drawn w) 0 j).

Lemma wins_roll_in w s id : wins_roll w s id -> id ∈ s.
Proof. intros (j & Hj & _). apply elem_of_in_order. by eapply list_elem_of_lookup_2. Qed.

Lemma roll_winner_does w p s itemId d (Q : option Z -> World -> Prop) :
  s <> ∅ -> (forall id, id ∈ s -> present w p id) -> item_of itemId = Some d ->
  (forall id m ptr w', quiet w w' -> wins_roll w s id -> member_of p id = Some m -> mCreaturePtr m = Some ptr -> Q (Some ptr) w') ->
  does (roll_winner rng p s itemId) w Q.
Proof.
  intros Hs Hp Hd HQ. unfold roll_winner. apply does_bind.
  assert (forall id, id ∈ in_order s -> present w p id) as Hp' by (intros id Hid; by apply Hp, elem_of_in_order).
  assert (in_order s <> []) as Hne.
  { intros E. apply Hs. apply set_eq. intros id. rewrite <- elem_of_in_order, E. set_solver. }
  assert (forall j id w', quiet w w' -> in_order s !! j = Some id ->
    ((1 < length (in_order s))%nat -> won_at (in_order s) (drawn w) 0 j) ->
    does (m' ← here (member_of p id); mret (mCreaturePtr m')) w' Q) as Hend.
  { intros j id w' Hq Hj Hwon. destruct (Hp' id) as (m & ptr & Hm & Hptr & _); [by eapply list_elem_of_lookup_2|].
    rewrite Hm. apply does_bind, does_ret, does_ret. rewrite Hptr. eapply HQ; [done| |done|done]. by exists j. }
  unfold RollForPartyLoot. destruct (in_order s) as [|id1 [|id2 ids]] eqn:E; [done| |].
  - apply does_ret. apply (Hend 0%nat); [done|done|simpl; lia].
  - rewrite Hd. apply roll_for_does; [done|]. intros r w' Hq _ [[Hall _]|(j & id & Hj & Hin & ->)].
    + specialize (Hall 0%nat ltac:(simpl; lia)). pose proof (roll_at_range (drawn w + 0)). lia.
    + by apply (Hend j id).
Qed.

End Rolls.

(** ** The state behind the representation *)

(** What a world holds: containers and creatures by their pointers, parties, characters. *)
Record View := mkView {
  v_loot : LootPtr -> option ActiveLootContainer; v_npc : Z -> Z -> option LootCreature; v_inst : Z -> bool;
  v_parties : list ActiveParty; v_chars : gmap Z CharacterData; v_spots : gmap Z (Z * Z); v_creatures : gmap Z Creature }.

Definition loot_of (w : World) (l : LootPtr) : option ActiveLootContainer := i ← instances w !! l.1; creatureList i !! l.2.
Definition npc_of (w : World) (inst CID : Z) : option LootCreature := i ← instances w !! inst; NPCList i !! CID.

Record looks (w : World) (v : View) : Prop := {
  l_loot l : loot_of w l = v_loot v l;
  l_npc i n : npc_of w i n = v_npc v i n;
  l_inst i : bool_decide (is_Some (instances w !! i)) = v_inst v i;
  l_parties : mPartyList (parties w) = v_parties v;
  l_chars : characters w = v_chars v;
  l_spots : spots w = v_spots v;
  l_creatures : creatures (env (parties w)) = v_creatures v }.

Definition view (w : World) : View :=
  mkView (loot_of w) (npc_of w) (fun i => bool_decide (is_Some (instances w !! i))) (mPartyList (parties w)) (characters w)
    (spots w) (creatures (env (parties w))).

Lemma looks_view w : looks w (view w).
Proof. by split. Qed.

Lemma looks_quiet w w' v : quiet w w' -> looks w v -> looks w' v.
Proof.
  intros [H1 H2 H3 H4 H5 _] [L1 L2 L3 L4 L5 L6 L7]. split; unfold loot_of, npc_of in *; rewrite ?H1; first [congruence|by auto].
Qed.

Definition upd_loot (l : LootPtr) (o : option ActiveLootContainer) (v : View) : View :=
  mkView (fun l' => if decide (l' = l) then o else v_loot v l') (v_npc v) (v_inst v) (v_parties v) (v_chars v) (v_spots v) (v_creatures v).
Definition upd_npc (inst CID : Z) (n : LootCreature) (v : View) : View :=
  mkView (v_loot v) (fun i c => if decide ((i, c) = (inst, CID)) then Some n else v_npc v i c) (v_inst v) (v_parties v) (v_chars v) (v_spots v) (v_creatures v).
Definition upd_parties (l : list ActiveParty) (v : View) : View :=
  mkView (v_loot v) (v_npc v) (v_inst v) l (v_chars v) (v_spots v) (v_creatures v).
Definition upd_chars (c : gmap Z CharacterData) (v : View) : View :=
  mkView (v_loot v) (v_npc v) (v_inst v) (v_parties v) c (v_spots v) (v_creatures v).

Section Looks.
Implicit Types (w : World) (v : View).

(** The containers of an instance are replaced: [key] by [o]. *)
Lemma looks_loot w v inst key i m o :
  looks w v -> instances w !! inst = Some i -> m !! key = o -> (forall k, k <> key -> m !! k = creatureList i !! k) ->
  looks (set_instances (<[inst := set_creatureList m i]> (instances w)) w) (upd_loot (inst, key) o v).
Proof.
  intros [L1 L2 L3 L4 L5 L6 L7] Hi Ho Hother. split; try done; unfold loot_of, npc_of; cbn [instances set_instances].
  - intros [x k]. cbn [fst snd upd_loot v_loot]. rewrite <- L1. unfold loot_of. cbn [fst snd].
    destruct (decide (x = inst)) as [->|].
    + rewrite lookup_insert_eq, Hi. simpl. destruct (decide (k = key)) as [->|]; [by rewrite decide_True|].
      rewrite decide_False by congruence. by apply Hother.
    + rewrite lookup_insert_ne, decide_False by congruence. done.
  - intros x n. cbn [upd_loot v_npc]. rewrite <- L2. unfold npc_of. destruct (decide (x = inst)) as [->|]; [|by rewrite lookup_insert_ne].
    by rewrite lookup_insert_eq, Hi.
  - intros x. cbn [upd_loot v_inst]. rewrite <- L3. destruct (decide (x = inst)) as [->|]; [|by rewrite lookup_insert_ne].
    rewrite lookup_insert_eq, Hi. apply bool_decide_ext. split; by eexists.
Qed.

Lemma looks_npc w v inst CID i n :
  looks w v -> instances w !! inst = Some i ->
  looks (set_instances (<[inst := set_NPCList (<[CID := n]> (NPCList i)) i]> (instances w)) w) (upd_npc inst CID n v).
Proof.
  intros [L1 L2 L3 L4 L5 L6 L7] Hi. split; try done; unfold loot_of, npc_of; cbn [instances set_instances].
  - intros [x k]. cbn [fst snd upd_npc v_loot]. rewrite <- L1. unfold loot_of. cbn [fst snd].
    destruct (decide (x = inst)) as [->|]; [by rewrite lookup_insert_eq, Hi|by rewrite lookup_insert_ne].
  - intros x k. cbn [upd_npc v_npc]. rewrite <- L2. unfold npc_of. destruct (decide (x = inst)) as [->|].
    + rewrite lookup_insert_eq, Hi. simpl. destruct (decide (k = CID)) as [->|]; [by rewrite lookup_insert_eq, decide_True|].
      by rewrite lookup_insert_ne, decide_False by congruence.
    + rewrite lookup_insert_ne, decide_False by congruence. done.
  - intros x. cbn [upd_npc v_inst]. rewrite <- L3. destruct (decide (x = inst)) as [->|]; [|by rewrite lookup_insert_ne].
    rewrite lookup_insert_eq, Hi. apply bool_decide_ext. split; by eexists.
Qed.

Lemma loot_of_instance w l c : loot_of w l = Some c -> exists i, instances w !! l.1 = Some i /\ creatureList i !! l.2 = Some c.
Proof. unfold loot_of. intros (i & Hi & Hc)%bind_Some. by exists i. Qed.

Lemma instance_at_does w inst i (Q : Instance -> World -> Prop) :
  instances w !! inst = Some i -> Q i w -> does (instance_at inst) w Q.
Proof. intros H HQ. unfold instance_at. apply does_bind, does_gets. unfold here. rewrite H. by apply does_ret. Qed.

Lemma loot_at_does w v l c (Q : ActiveLootContainer -> World -> Prop) :
  looks w v -> v_loot v l = Some c -> Q c w -> does (loot_at l) w Q.
Proof.
  intros Hv Hl HQ. rewrite <- (l_loot _ _ Hv) in Hl. apply loot_of_instance in Hl as (i & Hi & Hc).
  unfold loot_at. apply does_bind, (instance_at_does _ _ i); [done|]. unfold here. rewrite Hc. by apply does_ret.
Qed.

Lemma on_loot_does w v l c f (Q : unit -> World -> Prop) :
  looks w v -> v_loot v l = Some c ->
  (forall w', looks w' (upd_loot l (Some (f c)) v) -> drawn w' = drawn w -> Q tt w') -> does (on_loot l f) w Q.
Proof.
  intros Hv Hl HQ. rewrite <- (l_loot _ _ Hv) in Hl. apply loot_of_instance in Hl as (i & Hi & Hc).
  unfold on_loot. apply does_bind, (instance_at_does _ _ i); [done|]. apply does_bind. unfold here. rewrite Hc. apply does_ret.
  apply does_modify, HQ; [|done]. destruct l as [inst key]. cbn [fst snd] in *.
  apply looks_loot; [done|done|apply lookup_insert_eq|]. intros k Hk. by rewrite lookup_insert_ne.
Qed.

Lemma put_party_does w v k p (Q : unit -> World -> Prop) :
  looks w v -> (forall w', looks w' (upd_parties (<[k := p]> (v_parties v)) v) -> drawn w' = drawn w -> Q tt w') -> does (put_party k p) w Q.
Proof.
  intros Hv HQ. apply does_modify, HQ; [|done]. destruct Hv. split; try done. cbn. by f_equal.
Qed.

Lemma view_player_does w v ptr c (Q : Creature -> World -> Prop) :
  looks w v -> v_creatures v !! ptr = Some c -> Q c w -> does (player ptr) w Q.
Proof. intros Hv Hc. apply player_does. unfold creature. by rewrite (l_creatures _ _ Hv). Qed.

Lemma view_party_does w v k p (Q : ActiveParty -> World -> Prop) :
  looks w v -> v_parties v !! k = Some p -> Q p w -> does (party_at k) w Q.
Proof. intros Hv Hp. apply party_at_does. by rewrite (l_parties _ _ Hv). Qed.

Lemma inventory_of_does w v ch c (Q : InventoryManager -> World -> Prop) :
  looks w v -> v_chars v !! ch = Some c -> Q (inventory c) w -> does (inventory_of ch) w Q.
Proof.
  intros Hv Hc HQ. unfold inventory_of. apply does_bind, does_gets. apply does_bind. rewrite (l_chars _ _ Hv).
  unfold here. rewrite Hc. by apply does_ret, does_ret.
Qed.

Lemma set_character_does w v ch c m f (Q : unit -> World -> Prop) :
  looks w v -> v_chars v !! ch = Some c ->
  (forall w', looks w' (upd_chars (<[ch := mkCharacter m (f (pendingChanges c))]> (v_chars v)) v) -> drawn w' = drawn w -> Q tt w') ->
  does (set_character ch m f) w Q.
Proof.
  intros Hv Hc HQ. unfold set_character. apply does_bind, does_gets. apply does_bind. rewrite (l_chars _ _ Hv).
  unfold here. rewrite Hc. apply does_ret. apply does_modify, HQ; [|done]. destruct Hv. by split.
Qed.

End Looks.

(** ** Clearing up *)

Section Award.
Context {db : ItemDb} `{!StatMods.AbilityHost} (tbl : list StatDefinition) (g_ProtocolVersion g_ServerTime : Z) (rng : nat -> Z).
Implicit Types (w : World) (v : View).

Lemma lookup_same_insert {A} (l : list A) k (x : A) : l !! k = Some x -> is_Some (l !! k).
Proof. intros ->. by eexists. Qed.

(** The tags and decisions on an item of a container are gone. *)
Definition reset_view (k : nat) (loot : LootPtr) (p : ActiveParty) (l : ActiveLootContainer) (item : Z) (v : View) : View :=
  upd_loot loot (Some (RemoveCreatureRolls l item 0))
    (upd_parties (<[k := RemoveTagsForLootCreatureId p (loot_CreatureID l) item 0]> (v_parties v)) v).

Lemma ResetLoot_does w v k loot p l item (Q : unit -> World -> Prop) :
  looks w v -> v_parties v !! k = Some p -> v_loot v loot = Some l ->
  (forall w', looks w' (reset_view k loot p l item v) -> Q tt w') -> does (ResetLoot k loot item) w Q.
Proof.
  intros Hv Hp Hl HQ. unfold ResetLoot, remove_tags. apply does_bind, does_bind, (loot_at_does _ v _ l); [done..|].
  apply does_bind, (view_party_does _ v _ p); [done..|]. apply (put_party_does _ v); [done|]. intros w1 Hv1 _.
  eapply on_loot_does; [exact Hv1|exact Hl|]. intros w2 Hv2 _. by apply HQ.
Qed.

Lemma ClearLoot_does w v k loot p l (Q : unit -> World -> Prop) :
  looks w v -> v_parties v !! k = Some p -> v_loot v loot = Some l ->
  (forall w', looks w' (upd_loot loot (Some (RemoveAllRolls l))
     (upd_parties (<[k := RemoveTagsForLootCreatureId p (loot_CreatureID l) 0 0]> (v_parties v)) v)) -> Q tt w') ->
  does (ClearLoot k loot) w Q.
Proof.
  intros Hv Hp Hl HQ. unfold ClearLoot, remove_tags. apply does_bind, does_bind, (loot_at_does _ v _ l); [done..|].
  apply does_bind, (view_party_does _ v _ p); [done..|]. apply (put_party_does _ v); [done|]. intros w1 Hv1 _.
  eapply on_loot_does; [exact Hv1|exact Hl|]. intros w2 Hv2 _. by apply HQ.
Qed.

(** The creature of a container can be told to be empty. *)
Definition closable (n : LootCreature) : Prop :=
  forall u, exists n' u', close_creature n u = Some (n', u') /\
    is_Some (PrepExt_SendSpecificStats tbl g_ProtocolVersion (StatMods.CreatureID (body n'))
               [STAT.APPEARANCE_OVERRIDE; STAT.LOOTABLE_PLAYER_IDS; STAT.LOOT_SEEABLE_PLAYER_IDS] (StatMods.css (body n'))).

Lemma RemoveCreature_does w v inst CID l (Q : unit -> World -> Prop) :
  looks w v -> v_loot v (inst, CID) = Some l -> 0 <= CID ->
  (forall w', looks w' (upd_loot (inst, CID) None v) -> Q tt w') -> does (RemoveCreature inst CID) w Q.
Proof.
  intros Hv Hl H0 HQ. rewrite <- (l_loot _ _ Hv) in Hl. apply loot_of_instance in Hl as (i & Hi & Hc). cbn [fst snd] in *.
  unfold RemoveCreature. apply does_bind, (instance_at_does _ _ i); [done|]. unfold GetCreature. rewrite Hc.
  rewrite (proj2 (Z.leb_le _ _) H0). apply does_bind, does_ret, does_bind, does_modify, does_modify, HQ.
  apply looks_loot; [by apply (looks_quiet w); [apply quiet_note|]|done|apply lookup_delete_eq|]. intros k Hk. by rewrite lookup_delete_ne.
Qed.

Lemma close_loot_does w v inst CID ptr l (Q : unit -> World -> Prop) :
  looks w v -> v_loot v (inst, CID) = Some l -> 0 <= CID -> (forall n, v_npc v inst CID = Some n -> closable n) ->
  is_Some (v_spots v !! ptr) ->
  (forall w' v', looks w' (upd_loot (inst, CID) None v') -> v_loot v' = v_loot v -> v_parties v' = v_parties v -> v_chars v' = v_chars v -> Q tt w') ->
  does (close_loot tbl g_ProtocolVersion inst CID ptr) w Q.
Proof.
  intros Hv Hl H0 Hn [spot Hspot] HQ. pose proof Hl as Hl2. rewrite <- (l_loot _ _ Hv) in Hl2.
  apply loot_of_instance in Hl2 as (i & Hi & _). cbn [fst] in Hi.
  unfold close_loot. apply does_bind, (instance_at_does _ _ i); [done|]. apply does_bind.
  assert (npc_of w inst CID = NPCList i !! CID) as Enpc by (unfold npc_of; by rewrite Hi).
  rewrite (l_npc _ _ Hv) in Enpc. destruct (NPCList i !! CID) as [n|] eqn:En.
  2:{ apply does_ret, (RemoveCreature_does _ v _ _ l); [done..|]. intros w' Hw'. by eapply HQ. }
  destruct (Hn n Enpc (UpdateList w)) as (n' & u' & Ec & [packet Ep]).
  apply does_bind, does_gets, does_bind. unfold here at 1. rewrite Ec. apply does_ret.
  apply does_bind, does_modify, does_bind, does_modify, does_bind. unfold here at 1. rewrite Ep. apply does_ret.
  pose proof (looks_npc w v inst CID i n' Hv Hi) as Hv1.
  apply does_bind, does_gets, does_bind. unfold here. cbn [spots set_updates set_instances]. rewrite (l_spots _ _ Hv), Hspot.
  apply does_ret, does_modify. eapply (RemoveCreature_does _ (upd_npc inst CID n' v) _ _ l); [|done..|].
  - destruct Hv1. by split.
  - intros w' Hw'. by eapply HQ.
Qed.

(** ** The award *)

Lemma receive_does w v ch c item (Q : option InventorySlot -> World -> Prop) :
  looks w v -> v_chars v !! ch = Some c -> stockable (inventory c) INV_CONTAINER -> stack_limits_ok ->
  (forall o bag pending w', looks w' (upd_chars (<[ch := mkCharacter bag pending]> (v_chars v)) v) -> stockable bag INV_CONTAINER ->
     (o = None /\ (exists err, bag = SetError (inventory c) err) \/
      exists slot, o = Some slot /\ IID slot = item /\ forall ID, held bag ID = held (inventory c) ID + (if item =? ID then 1 else 0)) ->
     Q o w') ->
  does (receive g_ServerTime ch item) w Q.
Proof.
  intros Hv Hc Hst Hlim HQ. unfold receive. apply does_bind, (inventory_of_does _ v _ c); [done..|].
  destruct (AddItem_Ex g_ServerTime (inventory c) INV_CONTAINER item 1) as [[i|] bag] eqn:E.
  - destruct (AddItem_Ex_Some _ _ _ _ _ _ _ Hst (conj (Z.le_refl 0) eq_refl) Hlim (conj (Z.le_refl 1) eq_refl) E) as (Hst' & d & s & Hd & Hs & HI & Hheld).
    apply does_bind. unfold here. rewrite Hs. apply does_ret, does_bind, (set_character_does _ v _ c); [done..|].
    intros w' Hw' _. apply does_ret. eapply HQ; [exact Hw'|done|]. right. exists s. split_and!; [done..|].
    intros ID. rewrite Hheld. unfold added. destruct (_ =? ItemIntegerType.STACKING); done.
  - destruct (AddItem_Ex_None _ _ _ _ _ _ E) as [err ->]. apply does_bind, (set_character_does _ v _ c); [done..|].
    intros w' Hw' _. apply does_ret. eapply HQ; [exact Hw'|by apply stockable_SetError|]. left. by eauto.
Qed.


(** The items of a container, none if there is no container. *)
Definition items (v : View) (loot : LootPtr) : list Z := match v_loot v loot with Some l => itemList l | None => [] end.

(** No tag of the party is for the item of the container. *)
Definition untagged (v : View) (k : nat) (CID item : Z) : Prop :=
  exists p, v_parties v !! k = Some p /\ forall t, t ∈ lootTags p -> ~ (mLootCreatureId t.2 = CID /\ mItemId t.2 = item).

Lemma RemoveTags_untagged p CID item t :
  t ∈ lootTags (RemoveTagsForLootCreatureId p CID item 0) -> t ∈ lootTags p /\ ~ (mLootCreatureId t.2 = CID /\ mItemId t.2 = item).
Proof.
  unfold RemoveTagsForLootCreatureId. cbn [lootTags set_tags]. rewrite !list_elem_of_In, filter_In. intros [Hin Ht].
  split; [done|]. intros [E1 E2]. rewrite E1, E2, !Z.eqb_refl, orb_true_r in Ht. done.
Qed.

Lemma RemoveTags_elem p CID item who t : t ∈ lootTags (RemoveTagsForLootCreatureId p CID item who) -> t ∈ lootTags p.
Proof. unfold RemoveTagsForLootCreatureId. cbn [lootTags set_tags]. rewrite !list_elem_of_In, filter_In. by intros []. Qed.

(** What taking an item out of a container does. *)
Record taken (v v' : View) (k : nat) (loot : LootPtr) (item : Z) : Prop := {
  t_items : items v loot ≡ₚ item :: items v' loot;
  t_chars : v_chars v' = v_chars v;
  t_other l : l <> loot -> v_loot v' l = v_loot v l;
  t_gone : items v' loot = [] -> v_loot v' loot = None;
  t_tags : forall CID, CID = match v_loot v loot with Some l => loot_CreatureID l | None => 0 end -> untagged v' k CID item }.

Lemma take_from_does w v k loot tag i l p caller c (Q : unit -> World -> Prop) :
  looks w v -> v_parties v !! k = Some p -> v_loot v loot = Some l -> itemList l !! i = Some (mItemId tag) ->
  v_creatures v !! caller = Some c -> loot = (actInst c, mLootCreatureId tag) -> 0 <= mLootCreatureId tag ->
  (forall n, v_npc v (actInst c) (mLootCreatureId tag) = Some n -> closable n) -> is_Some (v_spots v !! caller) ->
  (forall w' v', looks w' v' -> taken v v' k loot (mItemId tag) -> Q tt w') ->
  does (take_from tbl g_ProtocolVersion k loot tag (Z.of_nat i) caller) w Q.
Proof.
  intros Hv Hp Hl Hi Hc Hloot H0 Hn Hs HQ. pose proof (lookup_lt_Some _ _ _ Hi) as Hlt.
  assert (RemoveItem l (Z.of_nat i) = set_itemList (delete i (itemList l)) l) as Erem.
  { unfold RemoveItem. rewrite (proj2 (Z.ltb_ge _ _)), (proj2 (Z.leb_gt _ _)), Nat2Z.id by lia. done. }
  unfold take_from. apply does_bind. eapply on_loot_does; [exact Hv|exact Hl|]. rewrite Erem. intros w1 Hv1 _.
  apply does_bind. eapply (ResetLoot_does w1 _ k loot p); [exact Hv1|exact Hp|cbn; by rewrite decide_True|].
  cbn [upd_loot v_parties v_loot]. intros w2 Hv2.
  set (l2 := RemoveCreatureRolls (set_itemList (delete i (itemList l)) l) (mItemId tag) 0) in Hv2.
  set (p2 := RemoveTagsForLootCreatureId p (loot_CreatureID l) (mItemId tag) 0).
  assert (itemList l ≡ₚ mItemId tag :: delete i (itemList l)) as Hperm by by apply delete_Permutation.
  apply does_bind. eapply loot_at_does; [exact Hv2|cbn; by rewrite decide_True|].
  cbn [itemList RemoveCreatureRolls set_rolls set_itemList].
  assert (k < length (v_parties v))%nat as Hk by by eapply lookup_lt_Some.
  assert (forall t, t ∈ lootTags p2 -> ~ (mLootCreatureId t.2 = loot_CreatureID l /\ mItemId t.2 = mItemId tag)) as Huntag.
  { intros t Ht. by apply RemoveTags_untagged in Ht as [_ ?]. }
  destruct (length (delete i (itemList l)) =? 0)%nat eqn:E0.
  - apply Nat.eqb_eq, nil_length_inv in E0. apply does_bind.
    eapply (ClearLoot_does w2 _ k loot p2 l2); [exact Hv2|cbn; by rewrite list_lookup_insert_eq|cbn; by rewrite decide_True|].
    intros w3 Hv3. apply does_bind. eapply view_player_does; [exact Hv3|exact Hc|]. subst loot.
    eapply (close_loot_does w3 _ (actInst c) (mLootCreatureId tag) caller); [exact Hv3|cbn; by rewrite decide_True|done|exact Hn|exact Hs|].
    intros w4 v4 Hv4 E1 E2 E3. eapply HQ; [exact Hv4|]. split.
    + unfold items. rewrite Hl. cbn. rewrite decide_True by done. by rewrite Hperm, E0.
    + exact E3.
    + intros l' Hl'. cbn. rewrite decide_False, E1 by done. cbn. by rewrite !decide_False by done.
    + intros _. cbn. by rewrite decide_True.
    + intros CID ->. rewrite Hl. eexists. split; [cbn; rewrite E2; cbn; apply list_lookup_insert_eq; by rewrite length_insert|].
      intros t Ht%RemoveTags_elem. by apply Huntag.
  - apply does_ret. eapply HQ; [exact Hv2|]. split.
    + unfold items. rewrite Hl. cbn. by rewrite decide_True.
    + done.
    + intros l' Hl'. cbn. by rewrite !decide_False.
    + unfold items. cbn. rewrite decide_True by done. cbn. intros E. by rewrite E in E0.
    + intros CID ->. rewrite Hl. exists p2. split; [cbn; by rewrite list_lookup_insert_eq|done].
Qed.


(** The winner has one more of the item; the container one less, if it had it. *)
Record handed (v v' : View) (k : nat) (loot : LootPtr) (ch item : Z) : Prop := {
  h_bag : exists c bag pending, v_chars v !! ch = Some c /\ v_chars v' = <[ch := mkCharacter bag pending]> (v_chars v) /\
    forall ID, held bag ID = held (inventory c) ID + (if item =? ID then 1 else 0);
  h_items : item ∈ items v loot -> items v loot ≡ₚ item :: items v' loot;
  h_missing : item ∉ items v loot -> items v' loot = items v loot;
  h_other l : l <> loot -> v_loot v' l = v_loot v l;
  h_tags CID : item ∈ items v loot -> CID = match v_loot v loot with Some l => loot_CreatureID l | None => 0 end -> untagged v' k CID item }.

(** Nothing moved: the winner had no room, or the item could not be made. *)
Record kept (v v' : View) (loot : LootPtr) (ch item : Z) : Prop := {
  k_bag : exists c bag pending, v_chars v !! ch = Some c /\ v_chars v' = <[ch := mkCharacter bag pending]> (v_chars v) /\
    (bag = inventory c \/ exists err, bag = SetError (inventory c) err);
  k_items l : items v' l = items v l }.

Lemma GetTag_valid p item id : LootTag_Valid (GetTag p item id) = true -> mItemId (GetTag p item id) = item.
Proof.
  unfold GetTag. destruct (find_idx _ _) as [i|] eqn:E; simpl; [|done].
  destruct (find_idx_lookup _ _ _ E) as (t & Ht & Hp). rewrite Ht. to_prop. done.
Qed.

Lemma HasItem_spec l item :
  ((item ∉ itemList l) /\ HasItem l item = -1) \/ (exists i, itemList l !! i = Some item /\ HasItem l item = Z.of_nat i).
Proof.
  unfold HasItem. destruct (find_idx _ _) as [i|] eqn:E.
  - right. exists i. destruct (find_idx_lookup _ _ _ E) as (x & Hx & Hp). to_prop. subst x. done.
  - left. split; [|done]. apply find_idx_None in E. rewrite list.Forall_forall in E. intros Hin%E. to_prop. done.
Qed.

Lemma reset_items k loot p l item v l' : v_loot v loot = Some l -> items (reset_view k loot p l item v) l' = items v l'.
Proof.
  intros Hl. unfold items, reset_view. cbn. destruct (decide (l' = loot)) as [->|]; [by rewrite Hl|done].
Qed.

Definition members_sound (v : View) (p : ActiveParty) : Prop :=
  forall m ptr, m ∈ mMemberList p -> mCreaturePtr m = Some ptr -> is_Some (v_creatures v !! ptr).

Lemma members_sound_at w v p m : looks w v -> members_sound v p -> m ∈ mMemberList p -> sound w m.
Proof. intros Hv Hs Hm ptr Hp. unfold creature. rewrite (l_creatures _ _ Hv). by eapply Hs. Qed.

Lemma award_does w v sim k loot tag l p caller c winner cw ch (Q : unit -> World -> Prop) :
  looks w v -> v_parties v !! k = Some p -> members_sound v p -> v_loot v loot = Some l ->
  v_creatures v !! caller = Some c -> loot = (actInst c, mLootCreatureId tag) -> 0 <= mLootCreatureId tag ->
  (forall n, v_npc v (actInst c) (mLootCreatureId tag) = Some n -> closable n) -> is_Some (v_spots v !! caller) ->
  v_creatures v !! winner = Some cw -> v_chars v !! charPtr cw = Some ch -> stockable (inventory ch) INV_CONTAINER -> stack_limits_ok ->
  LootTag_Valid (GetTag p (mItemId tag) (CreatureID cw)) = true ->
  (forall w' v', looks w' v' -> handed v v' k loot (charPtr cw) (mItemId tag) \/ kept v v' loot (charPtr cw) (mItemId tag) -> Q tt w') ->
  does (award tbl g_ProtocolVersion g_ServerTime sim caller k loot tag winner) w Q.
Proof.
  intros Hv Hp Hsound Hl Hc Hloot H0 Hn Hs Hcw Hch Hst Hlim Htag HQ. unfold award.
  apply does_bind, (view_player_does _ v _ cw); [done..|]. apply does_bind, (view_party_does _ v _ p); [done..|].
  apply does_bind, tell_winner_does; [intros m; by eapply members_sound_at|by rewrite (l_parties _ _ Hv), Hp|].
  intros w1 Hw1. pose proof (looks_quiet _ _ _ Hw1 Hv) as Hv1.
  apply does_bind, (inventory_of_does _ v _ ch); [done..|].
  assert (v_chars v = <[charPtr cw := mkCharacter (inventory ch) (pendingChanges ch)]> (v_chars v)) as Esame.
  { symmetry. apply insert_id. rewrite Hch. by destruct ch. }
  destruct (GetFreeSlot (inventory ch) INV_CONTAINER =? -1).
  { apply does_bind, on_env_does; [intros e; apply creatures_BroadCast|]. intros w2 Hw2 _.
    apply (ResetLoot_does w2 v k loot p l (mItemId tag)); [by apply (looks_quiet w1)|done..|]. intros w3 Hv3. eapply HQ; [exact Hv3|]. right. split.
    - exists ch, (inventory ch), (pendingChanges ch). split; [done|]. split; [exact Esame|by left].
    - intros l'. by apply reset_items. }
  rewrite (GetTag_valid _ _ _ Htag). apply does_bind, (receive_does w1 v (charPtr cw) ch); [done..|].
  intros o bag pending w2 Hv2 _ [[-> [err ->]]|(slot & -> & Hslot & Hheld)].
  { eapply (ResetLoot_does w2 _ k loot p l); [exact Hv2|exact Hp|exact Hl|]. intros w3 Hv3. eapply HQ; [exact Hv3|]. right. split.
    - eexists ch, _, pending. split; [done|]. split; [reflexivity|by right; eexists].
    - intros l'. etrans; [by apply reset_items|done]. }
  apply does_bind, does_modify. pose proof (looks_quiet _ _ _ (quiet_note [Activate sim (IID slot)] w2) Hv2) as Hv3.
  apply does_bind. eapply loot_at_does; [exact Hv3|exact Hl|].
  set (v2 := upd_chars _ v) in Hv2, Hv3.
  assert (exists c' bag' pending', v_chars v !! charPtr cw = Some c' /\ v_chars v2 = <[charPtr cw := mkCharacter bag' pending']> (v_chars v) /\
    forall ID, held bag' ID = held (inventory c') ID + (if mItemId tag =? ID then 1 else 0)) as Hbag by by exists ch, bag, pending.
  destruct (HasItem_spec l (mItemId tag)) as [[Hnot ->]|(i & Hi & ->)].
  - apply does_ret. eapply HQ; [exact Hv3|]. left. split; [exact Hbag|..]; try done.
    all: unfold items; rewrite Hl; done.
  - rewrite (proj2 (Z.eqb_neq _ _)) by lia. apply does_bind.
    eapply (take_from_does _ v2 k loot tag i l p caller c); try done. intros w4 v4 Hv4 [T1 T2 T3 T4 T5].
    apply LSend_does. intros w5 Hq5. eapply HQ; [by eapply looks_quiet|]. left.
    assert (mItemId tag ∈ items v loot) as Hin by (unfold items; rewrite Hl; by eapply list_elem_of_lookup_2).
    split; [by rewrite T2|done|done|done|]. intros CID _ ->. by apply T5.
Qed.


(** ** The last decision *)

Lemma online_count_creatures e e' l : creatures e = creatures e' -> online_count e l = online_count e' l.
Proof.
  intros E. assert (forall m, IsOnlineAndValid e m = IsOnlineAndValid e' m) as Ev.
  { intros m. unfold IsOnlineAndValid, creature. by rewrite E. }
  induction l as [|m l IH]; simpl; [done|]. by rewrite Ev, IH.
Qed.

(** A member who can win an item: with a creature, a backpack and a tag. *)
Definition can_win (v : View) (p : ActiveParty) (item id : Z) : Prop :=
  exists m ptr c ch, member_of p id = Some m /\ mCreaturePtr m = Some ptr /\ v_creatures v !! ptr = Some c /\
    v_chars v !! charPtr c = Some ch /\ stockable (inventory ch) INV_CONTAINER /\ LootTag_Valid (GetTag p item (CreatureID c)) = true.

(** Those the item is rolled among: who needs it, or else who greeds it. *)
Definition bidders (l : ActiveLootContainer) (item : Z) : gset Z :=
  if decide (decisions (needed l) item = ∅) then decisions (greeded l) item else decisions (needed l) item.

(** The container after the maps were asked for an item. *)
Record touched (l l' : ActiveLootContainer) : Prop := {
  to_items : itemList l' = itemList l; to_id : loot_CreatureID l' = loot_CreatureID l;
  to_bidders i : bidders l' i = bidders l i }.

Lemma decisions_touch rolls item i : decisions (touch item rolls) i = decisions rolls i.
Proof.
  unfold touch, decisions. destruct (decide (i = item)) as [->|]; [by rewrite lookup_insert_eq|by rewrite lookup_insert_ne].
Qed.

Lemma size_pos (s : gset Z) : (0 <? base.size s)%nat = negb (bool_decide (s = ∅)).
Proof.
  destruct (decide (s = ∅)) as [->|Hne]; [done|]. rewrite bool_decide_eq_false_2 by done. apply Nat.ltb_lt.
  destruct (base.size s) eqn:E; [|lia]. apply size_empty_inv in E. by apply leibniz_equiv in E.
Qed.

Lemma can_win_present w v p item id : looks w v -> can_win v p item id -> present w p id.
Proof.
  intros Hv (m & ptr & c & ch & Hm & Hp & Hc & _). exists m, ptr. unfold creature. rewrite (l_creatures _ _ Hv), Hc. by eauto.
Qed.

Lemma pick_winner_does w v p loot l item d (Q : option Z -> World -> Prop) :
  looks w v -> v_loot v loot = Some l -> item_of item = Some d -> (forall id, id ∈ bidders l item -> can_win v p item id) ->
  (forall o w' l', looks w' (upd_loot loot (Some l') v) -> touched l l' ->
     (bidders l item = ∅ /\ o = None \/
      exists id m ptr, wins_roll rng w (bidders l item) id /\ member_of p id = Some m /\ mCreaturePtr m = Some ptr /\ o = Some ptr) -> Q o w') ->
  does (pick_winner rng p loot item) w Q.
Proof.
  intros Hv Hl Hd Hwin HQ. unfold pick_winner. apply does_bind. eapply on_loot_does; [exact Hv|exact Hl|]. intros w1 Hv1 Hd1.
  apply does_bind. eapply loot_at_does; [exact Hv1|cbn; by rewrite decide_True|]. cbn [needed set_rolls greeded].
  rewrite decisions_touch, size_pos.
  assert (forall w2 l2 s, looks w2 (upd_loot loot (Some l2) v) -> touched l l2 -> drawn w2 = drawn w -> s <> ∅ ->
    (forall id, id ∈ s -> can_win v p item id) ->
    (forall o w', looks w' (upd_loot loot (Some l2) v) ->
      (exists id m ptr, wins_roll rng w s id /\ member_of p id = Some m /\ mCreaturePtr m = Some ptr /\ o = Some ptr) -> Q o w') ->
    does (roll_winner rng p s item) w2 Q) as Hroll.
  { intros w2 l2 s Hv2 _ Hd2 Hne Hcan HQ2. apply (roll_winner_does rng _ p s item d); [done| |done|].
    - intros id Hid. eapply (can_win_present _ _ p item); [exact Hv2|]. by apply Hcan.
    - intros id m ptr w' Hq Hwon Hm Hp. apply HQ2; [by eapply looks_quiet|]. exists id, m, ptr.
      split; [|done]. unfold wins_roll in *. by rewrite Hd2 in Hwon. }
  unfold bidders in Hwin, HQ. destruct (decide (decisions (needed l) item = ∅)) as [E|E].
  - rewrite bool_decide_eq_true_2 by done. cbn [negb]. apply does_bind.
    eapply on_loot_does; [exact Hv1|cbn; by rewrite decide_True|]. cbn [needed set_rolls greeded]. intros w2 Hv2 Hd2.
    match type of Hv2 with looks _ (upd_loot _ (Some ?L) _) => set (l2 := L) in Hv2 end.
    assert (looks w2 (upd_loot loot (Some l2) v)) as Hv2'.
    { destruct Hv2. split; try done. intros x. rewrite l_loot0. cbn. by destruct (decide (x = loot)). }
    assert (touched l l2) as Ht by (split; [done..|]; intros i; unfold bidders; cbn; by rewrite !decisions_touch).
    rewrite size_pos.
    destruct (decide (decisions (greeded l) item = ∅)) as [E2|E2].
    + rewrite bool_decide_eq_true_2 by done. apply does_ret. eapply HQ; [exact Hv2'|exact Ht|by left].
    + rewrite bool_decide_eq_false_2 by done. apply (Hroll _ l2); [done..|congruence|done|done|].
      intros o w' Hw' Ho. eapply HQ; [exact Hw'|exact Ht|by right].
  - rewrite bool_decide_eq_false_2 by done. cbn [negb].
    match type of Hv1 with looks _ (upd_loot _ (Some ?L) _) => assert (touched l L) as Ht by (split; [done..|]; intros i; unfold bidders; cbn; by rewrite decisions_touch);
      apply (Hroll _ L); [done|done|done..|] end.
    intros o w' Hw' Ho. eapply HQ; [exact Hw'|exact Ht|by right].
Qed.


(** How a decision that completes the decisions on an item ends. *)
Inductive outcome (w : World) (v v' : View) (k : nat) (p : ActiveParty) (loot : LootPtr) (s : gset Z) (item : Z) : Prop :=
| everyone_passed : s = ∅ -> v_chars v' = v_chars v -> (forall l, items v' l = items v l) -> outcome w v v' k p loot s item
| won id m ptr c : wins_roll rng w s id -> member_of p id = Some m -> mCreaturePtr m = Some ptr -> v_creatures v !! ptr = Some c ->
    handed v v' k loot (charPtr c) item \/ kept v v' loot (charPtr c) item -> outcome w v v' k p loot s item.

(** The party and the creature of an item being decided on. *)
Record deciding (v : View) (k : nat) (p : ActiveParty) (caller : Z) (c : Creature) (tag : LootTag) (l : ActiveLootContainer) : Prop := {
  d_party : v_parties v !! k = Some p;
  d_members : members_sound v p;
  d_online m : m ∈ mMemberList p -> available (mkEnv (v_creatures v) []) m = true;
  d_caller : v_creatures v !! caller = Some c;
  d_id : 0 <= mLootCreatureId tag;
  d_loot : v_loot v (actInst c, mLootCreatureId tag) = Some l;
  d_spot : is_Some (v_spots v !! caller);
  d_closable n : v_npc v (actInst c) (mLootCreatureId tag) = Some n -> closable n;
  d_item : is_Some (item_of (mItemId tag));
  d_bidders id : id ∈ bidders l (mItemId tag) -> can_win v p (mItemId tag) id }.

Lemma award_end_does w v sim k p caller c tag l o (Q : unit -> World -> Prop) :
  looks w v -> deciding v k p caller c tag l -> stack_limits_ok ->
  (forall ptr, o = Some ptr -> exists cw ch, v_creatures v !! ptr = Some cw /\ v_chars v !! charPtr cw = Some ch /\
     stockable (inventory ch) INV_CONTAINER /\ LootTag_Valid (GetTag p (mItemId tag) (CreatureID cw)) = true) ->
  (forall w' v', looks w' v' ->
     match o with
     | None => v_chars v' = v_chars v /\ forall l, items v' l = items v l
     | Some ptr => exists cw, v_creatures v !! ptr = Some cw /\
         (handed v v' k (actInst c, mLootCreatureId tag) (charPtr cw) (mItemId tag) \/
          kept v v' (actInst c, mLootCreatureId tag) (charPtr cw) (mItemId tag))
     end -> Q tt w') ->
  does (match o with
        | None => _ ← tell_nobody k tag (mMemberList p); ResetLoot k (actInst c, mLootCreatureId tag) (mItemId tag)
        | Some ptr => award tbl g_ProtocolVersion g_ServerTime sim caller k (actInst c, mLootCreatureId tag) tag ptr
        end) w Q.
Proof.
  intros Hv [D1 D2 D3 D4 D5 D6 D7 D8 D9 D10] Hlim Hwin HQ. destruct o as [ptr|].
  - destruct (Hwin ptr eq_refl) as (cw & ch & Hcw & Hch & Hst & Htag).
    eapply (award_does w v _ k _ tag l p caller c ptr cw ch); try done. intros w' v' Hv' Ho. eapply HQ; [exact Hv'|]. by exists cw.
  - apply does_bind, tell_nobody_does.
    + intros m Hm. split; [by eapply members_sound_at|]. unfold is_online. rewrite <- (D3 m Hm).
      unfold available, IsOnlineAndValid, creature. by rewrite (l_creatures _ _ Hv).
    + rewrite (l_parties _ _ Hv), D1. by eexists.
    + intros w1 Hq. eapply (ResetLoot_does w1 v k _ p l); [by eapply looks_quiet|done..|].
      intros w2 Hv2. eapply HQ; [exact Hv2|]. split; [done|]. intros l'. by apply reset_items.
Qed.

Lemma handed_upd v v' k loot l l' ch item :
  v_loot v loot = Some l -> itemList l' = itemList l -> loot_CreatureID l' = loot_CreatureID l ->
  handed (upd_loot loot (Some l') v) v' k loot ch item -> handed v v' k loot ch item.
Proof.
  intros Hl T1 T2 [H1 H2 H3 H4 H5].
  assert (items (upd_loot loot (Some l') v) loot = items v loot) as E by (unfold items; cbn; by rewrite decide_True, Hl).
  rewrite E in *. split; [exact H1|done|done| |].
  - intros x Hx. rewrite H4 by done. cbn. by rewrite decide_False.
  - intros CID Hin ->. apply H5; [done|]. cbn. by rewrite decide_True, Hl, T2.
Qed.

Lemma items_upd v loot l l' x : v_loot v loot = Some l -> itemList l' = itemList l -> items (upd_loot loot (Some l') v) x = items v x.
Proof. intros Hl T1. unfold items. cbn. destruct (decide (x = loot)) as [->|]; [by rewrite Hl|done]. Qed.

Lemma kept_upd v v' loot l l' ch item :
  v_loot v loot = Some l -> itemList l' = itemList l -> kept (upd_loot loot (Some l') v) v' loot ch item -> kept v v' loot ch item.
Proof. intros Hl Ht [H1 H2]. split; [exact H1|]. intros x. rewrite H2. by apply (items_upd _ _ l). Qed.

Lemma deciding_upd v k p caller c tag l l' :
  deciding v k p caller c tag l -> touched l l' ->
  deciding (upd_loot (actInst c, mLootCreatureId tag) (Some l') v) k p caller c tag l'.
Proof.
  intros [D1 D2 D3 D4 D5 D6 D7 D8 D9 D10] [_ _ E]. split; try done; [cbn; by rewrite decide_True|]. rewrite E. apply D10.
Qed.

Lemma Check_does w v sim k p caller c tag l n (Q : unit -> World -> Prop) :
  looks w v -> deciding v k p caller c tag l -> stack_limits_ok -> GetPartyByID (parties w) (PartyID c) = Some k ->
  GetOnlineMemberCount (env (parties w)) p = Some n ->
  requiredDecisions p (IsStage2 l (mItemId tag)) n <= CountDecisions l (mItemId tag) ->
  first_choice p l (mItemId tag) (CreatureID c) = false ->
  (forall w' v', looks w' v' -> outcome w v v' k p (actInst c, mLootCreatureId tag) (bidders l (mItemId tag)) (mItemId tag) -> Q tt w') ->
  does (CheckIfLootReadyToDistribute tbl g_ProtocolVersion g_ServerTime rng sim caller (actInst c, mLootCreatureId tag) tag) w Q.
Proof.
  intros Hv Hd Hlim Hk Hn Hreq Hfirst HQ. pose proof Hd as [D1 D2 D3 D4 D5 D6 D7 D8 [d D9] D10].
  unfold CheckIfLootReadyToDistribute. apply does_bind, (view_player_does _ v _ c); [done..|]. apply does_bind, does_gets.
  apply does_bind. unfold here at 1. rewrite Hk. apply does_ret. apply does_bind, (view_party_does _ v _ p); [done..|].
  apply does_bind. unfold here. rewrite Hn. apply does_ret. apply does_bind. eapply loot_at_does; [exact Hv|exact D6|].
  rewrite (proj2 (Z.ltb_ge _ _)) by done. rewrite Hfirst. cbn [andb]. apply does_bind.
  eapply pick_winner_does; [exact Hv|exact D6|exact D9|exact D10|]. intros o w1 l1 Hv1 Ht Ho.
  set (v1 := upd_loot _ _ v) in Hv1. pose proof (deciding_upd _ _ _ _ _ _ _ _ Hd Ht) as Hd1.
  eapply (award_end_does w1 v1 sim k p caller c tag l1 o); [exact Hv1|exact Hd1|done| |].
  - intros ptr ->. destruct Ho as [[_ ?]|(id & m & ptr' & Hwon & Hm & Hp & [= E])]; [done|].
    destruct (D10 id (wins_roll_in _ _ _ _ Hwon)) as (m' & ptr2 & cw & ch & Hm' & Hp' & Hcw & Hch & Hst & Htag).
    exists cw, ch. split; [|done]. change (v_creatures v1) with (v_creatures v). congruence.
  - intros w2 v2 Hv2 Hend. eapply HQ; [exact Hv2|].
    destruct Ho as [[Hs ->]|(id & m & ptr & Hwon & Hm & Hp & ->)].
    + destruct Hend as [E1 E2]. apply everyone_passed; [done|exact E1|]. intros x. rewrite E2. by apply (items_upd _ _ l), Ht.
    + destruct Hend as (cw & Hcw & Hend). apply (won w _ _ _ _ _ _ _ id m ptr cw); try done.
      destruct Hend as [Hend|Hend]; [left; eapply handed_upd; [exact D6|apply Ht|apply Ht|exact Hend]|right; eapply kept_upd; [exact D6|apply Ht|exact Hend]].
Qed.

Lemma decide_as_keeps command l item id :
  itemList (decide_as command l item id) = itemList l /\ loot_CreatureID (decide_as command l item id) = loot_CreatureID l.
Proof. unfold decide_as. by repeat case_test. Qed.

Lemma outcome_upd w v v' k p loot l l' s item :
  v_loot v loot = Some l -> itemList l' = itemList l -> loot_CreatureID l' = loot_CreatureID l ->
  outcome w (upd_loot loot (Some l') v) v' k p loot s item -> outcome w v v' k p loot s item.
Proof.
  intros Hl E1 E2 [H1 H2 H3|id m ptr c H1 H2 H3 H4 H5].
  - apply everyone_passed; [done|done|]. intros x. rewrite H3. by apply (items_upd _ _ l).
  - eapply won; [done..|]. destruct H5; [left; by eapply handed_upd|right; by eapply kept_upd].
Qed.

End Award.


Lemma container_does w v inst key l (Q : LootPtr -> World -> Prop) :
  looks w v -> v_loot v (inst, key) = Some l -> Q (inst, key) w -> does (container inst key) w Q.
Proof.
  intros Hv Hl HQ. rewrite <- (l_loot _ _ Hv) in Hl. apply loot_of_instance in Hl as (i & Hi & Hc). cbn [fst snd] in *.
  unfold container. apply does_bind, (instance_at_does _ _ i); [done|]. rewrite Hc. by apply does_bind, does_ret, does_ret.
Qed.


(** ** Waiting for decisions *)

(** The creatures with a tag for the item of the container. *)
Definition tag_for (CID item : Z) (t : Z * LootTag) : bool :=
  LootTag_Valid t.2 && (mLootCreatureId t.2 =? CID) && (mItemId t.2 =? item).
Definition holders (p : ActiveParty) (CID item : Z) : gset Z :=
  list_to_set ((fun t : Z * LootTag => mCreatureId t.2) <$> List.filter (tag_for CID item) (lootTags p)).

Definition decided_by (l : ActiveLootContainer) (item : Z) : gset Z :=
  decisions (greeded l) item ∪ decisions (needed l) item ∪ decisions (passed l) item.

(** Nobody decided twice. *)
Definition once (l : ActiveLootContainer) (item : Z) : Prop :=
  decisions (greeded l) item ## decisions (needed l) item /\
  decisions (greeded l) item ∪ decisions (needed l) item ## decisions (passed l) item.

Lemma CountDecisions_once l item : once l item -> CountDecisions l item = Z.of_nat (base.size (decided_by l item)).
Proof.
  intros [H1 H2]. unfold CountDecisions, Count, decided_by. rewrite !size_union by done. lia.
Qed.

(** Everyone may ask for an item, and not every member who is online was told of it. *)
Record waiting (v : View) (k : nat) (inst CID item : Z) (p : ActiveParty) (l : ActiveLootContainer) (n : Z) : Prop := {
  w_party : v_parties v !! k = Some p;
  w_mode : mLootMode p = FREE_FOR_ALL;
  w_loot : v_loot v (inst, CID) = Some l;
  w_online : online_count (mkEnv (v_creatures v) []) (mMemberList p) = Some n;
  w_few : Z.of_nat (base.size (holders p CID item)) < n;
  w_decided : decided_by l item ⊆ holders p CID item;
  w_once : once l item }.

Lemma decide_waits command l item id s :
  decided_by l item ⊆ s -> once l item -> HasAnyDecided l item id = false -> id ∈ s ->
  decided_by (decide_as command l item id) item ⊆ s /\ once (decide_as command l item id) item.
Proof.
  unfold HasAnyDecided, Decided, decided_by, once. intros Hsub [H1 H2] [[N1 N2]%orb_false_iff N3]%orb_false_iff Hid.
  apply bool_decide_eq_false_1 in N1, N2, N3.
  assert (forall m, decisions (decide_on item id m) item = {[id]} ∪ decisions m item) as Ed.
  { intros m. unfold decide_on, decisions at 1. by rewrite lookup_insert_eq. }
  unfold decide_as. repeat case_test; cbn [greeded needed passed set_rolls Need Greed Pass]; rewrite ?Ed; set_solver.
Qed.

Lemma holders_clear p key CID item :
  List.find (fun t => t.1 =? key) (lootTags p) = None ->
  holders (set_tags p (assign_key key LootTag_Clear (lootTags p))) CID item = holders p CID item.
Proof.
  intros H. unfold holders. do 2 f_equal. cbn [lootTags set_tags]. induction (lootTags p) as [|[k t] l IH]; simpl in *; [done|].
  destruct (k =? key) eqn:E; [done|]. destruct (key <? k); simpl; [done|]. destruct (tag_for CID item (k, t)); by rewrite IH.
Qed.

Section Waiting.
Context {db : ItemDb} `{!StatMods.AbilityHost} (tbl : list StatDefinition) (g_ProtocolVersion g_ServerTime : Z) (rng : nat -> Z).
Context (k : nat) (inst CID item : Z).

(** A query of a member of the party in the instance, on a tag for the item if it is on a tag. *)
Record concerns (w : World) (p : ActiveParty) (q : Trade.Query) (c : Creature) : Prop := {
  c_caller : creature (env (parties w)) (Trade.creatureInstance q) = Some c;
  c_party : GetPartyByID (parties w) (PartyID c) = Some k;
  c_inst : actInst c = inst;
  c_tag command key rest t : Trade.args q = command :: key :: rest -> List.find (fun t => t.1 =? atoi key) (lootTags p) = Some t ->
    LootTag_Valid t.2 = true -> mItemId t.2 = item /\ mLootCreatureId t.2 = CID }.

(** One such query. *)
Inductive decision (w w' : World) : Prop :=
| decision_of q p c bytes : mPartyList (parties w) !! k = Some p -> concerns w p q c ->
    LootNeedGreedPassHandler tbl g_ProtocolVersion g_ServerTime rng q w = Some (bytes, w') -> decision w w'.

(** The item is waiting, with these items in the container and these characters. *)
Definition still (chars : gmap Z CharacterData) (its : list Z) (v : View) : Prop :=
  exists p l n, waiting v k inst CID item p l n /\ v_chars v = chars /\ itemList l = its.

Lemma Check_waits w v sim caller c tag p l n (Q : unit -> World -> Prop) :
  looks w v -> waiting v k inst CID item p l n -> v_creatures v !! caller = Some c -> GetPartyByID (parties w) (PartyID c) = Some k ->
  mItemId tag = item -> Q tt w ->
  does (CheckIfLootReadyToDistribute tbl g_ProtocolVersion g_ServerTime rng sim caller (inst, CID) tag) w Q.
Proof.
  intros Hv [W1 W2 W3 W4 W5 W6 W7] Hc Hk <- HQ.
  unfold CheckIfLootReadyToDistribute. apply does_bind, (view_player_does _ v _ c); [done..|]. apply does_bind, does_gets.
  apply does_bind. unfold here at 1. rewrite Hk. apply does_ret. apply does_bind, (view_party_does _ v _ p); [done..|].
  apply does_bind. unfold here, GetOnlineMemberCount.
  rewrite (online_count_creatures _ (mkEnv (v_creatures v) [])), W4 by apply (l_creatures _ _ Hv). apply does_ret.
  apply does_bind. eapply loot_at_does; [exact Hv|exact W3|].
  pose proof (subseteq_size _ _ W6) as Hsize.
  unfold requiredDecisions, is_robin, is_master. rewrite W2, CountDecisions_once by done. cbn [orb].
  rewrite (proj2 (Z.ltb_lt _ _)) by lia. by apply does_ret.
Qed.

Lemma holder_of p t : t ∈ lootTags p -> tag_for CID item t = true -> mCreatureId t.2 ∈ holders p CID item.
Proof.
  intros Hin Ht. unfold holders. rewrite elem_of_list_to_set. apply list_elem_of_fmap. exists t. split; [done|].
  apply list_elem_of_In, filter_In. split; [by apply list_elem_of_In|done].
Qed.

Lemma decision_waits w w' v chars its : looks w v -> still chars its v -> decision w w' -> exists v', looks w' v' /\ still chars its v'.
Proof.
  intros Hv (p & l & n & HW & Hch & Hits) [q p0 c bytes Hp0 [C1 C2 C3 C4] E]. pose proof HW as [W1 W2 W3 W4 W5 W6 W7].
  rewrite (l_parties _ _ Hv), W1 in Hp0. injection Hp0 as <-.
  assert (v_creatures v !! Trade.creatureInstance q = Some c) as Hc by by rewrite <- (l_creatures _ _ Hv).
  enough (does (LootNeedGreedPassHandler tbl g_ProtocolVersion g_ServerTime rng q) w (fun _ w' => exists v', looks w' v' /\ still chars its v')) as Hdoes
    by (eapply (does_may _ _ _ Hdoes), E).
  assert (still chars its v) as Hsame by by exists p, l, n.
  unfold LootNeedGreedPassHandler. destruct (Trade.args q) as [|command [|key rest]] eqn:Ea; [apply does_ret; by exists v..|].
  cbn [length Nat.ltb Nat.leb]. apply does_bind. unfold query_loot_need_greed_pass.
  apply does_bind, (view_player_does _ v _ c); [done..|]. apply does_bind, does_gets. rewrite C2, Ea. apply does_bind.
  unfold tag_at. apply does_bind, (view_party_does _ v _ p); [done..|].
  destruct (List.find _ _) as [[tk tag]|] eqn:Ef.
  2:{ apply does_bind. eapply put_party_does; [exact Hv|]. intros w1 Hv1 _. apply does_ret, does_ret, does_ret.
      eexists. split; [exact Hv1|]. eexists _, l, n. split; [|done].
      split; cbn; [apply list_lookup_insert_eq; by eapply lookup_lt_Some|done|done|done|by rewrite holders_clear..|done]. }
  apply does_ret. cbn [snd]. destruct (LootTag_Valid tag) eqn:Evalid; cbn [negb]; [|apply does_ret, does_ret; by exists v].
  destruct (C4 command key rest (tk, tag) eq_refl Ef Evalid) as [Hi Hcid]. cbn [snd] in Hi, Hcid. rewrite C3, Hcid.
  apply does_bind, (container_does _ v _ _ l); [done..|]. apply does_bind, (loot_at_does _ v _ l); [done..|].
  rewrite Hi. destruct (HasAnyDecided l item (CreatureID c)) eqn:Enew; [apply does_ret, does_ret; by exists v|].
  destruct (mCreatureId tag =? CreatureID c) eqn:Emine; cbn [negb]; [|apply does_ret, does_ret; by exists v]. to_prop.
  apply List.find_some in Ef as [Hin _]. rewrite Emine.
  destruct (decide_waits command l item (CreatureID c) _ W6 W7 Enew) as [D1 D2].
  { rewrite <- Emine. apply (holder_of p (tk, tag)); [by apply list_elem_of_In|]. unfold tag_for. cbn [snd].
    by rewrite Evalid, Hcid, Hi, !Z.eqb_refl. }
  destruct (decide_as_keeps command l item (CreatureID c)) as [K1 _].
  apply does_bind. eapply on_loot_does; [exact Hv|exact W3|]. intros w1 Hv1 _.
  assert (waiting (upd_loot (inst, CID) (Some (decide_as command l item (CreatureID c))) v) k inst CID item p
            (decide_as command l item (CreatureID c)) n) as HW1 by (split; try done; cbn; by rewrite decide_True).
  apply does_bind. eapply (Check_waits w1); [exact Hv1|exact HW1|exact Hc| |done|].
  - unfold GetPartyByID in *. rewrite (l_parties _ _ Hv1). cbn [v_parties upd_loot]. by rewrite <- (l_parties _ _ Hv).
  - apply does_ret, does_ret. eexists. split; [exact Hv1|]. eexists _, _, n. split; [exact HW1|]. by rewrite K1.
Qed.
End Waiting.


(** ** An example: three players and a dead creature *)

#[local] Instance no_abilities : StatMods.AbilityHost := {| StatMods.ActivateAbility _ s := Some s; StatMods.CAF_Untransform s := Some s |}.

Definition example_player (n : Z) : Creature := Party.mkCreature (1000 + n) (100 + n) 7 "Player" 10 n (Some n) 1 None.
Definition example_mate (n : Z) : PartyMember := mkMember (1000 + n) (100 + n) "Player" (Some n) (Some n) n.
Definition example_tag (n : Z) : Z * LootTag := (n, mkTag n 9 (100 + n) 50 0 false).

(** Everyone may ask for an item. *)
Definition bidding_party (members : list PartyMember) (tags : list (Z * LootTag)) : ActiveParty :=
  mkParty 7 1001 101 FREE_FOR_ALL (NEED_B4_GREED + MUNDANE) 0 "Player" members tags 0.

Definition bidding_world (members : list PartyMember) (tags : list (Z * LootTag)) (l : ActiveLootContainer) : World :=
  mkWorld (mkPartyManager (mkEnv (list_to_map (map (fun n => (n, example_player n)) [1; 2; 3])) []) [bidding_party members tags] 8 3)
    {[1 := mkInstance {[50 := l]} ∅]} (list_to_map (map (fun n => (n, mkCharacter example_inv 0)) [1; 2; 3]))
    (list_to_map (map (fun n => (n, (0, 0))) [1; 2; 3])) 0 [] [].

Definition all_mates : list PartyMember := map example_mate [1; 2; 3].
Definition all_tags : list (Z * LootTag) := map example_tag [1; 2; 3].

(** Players 1 and 2 need the item 9. *)
Definition example_loot (its : list Z) : ActiveLootContainer :=
  set_rolls ∅ {[9 := {[101; 102]}]} ∅ (set_itemList its (set_lootableID [1001; 1002; 1003] (ActiveLootContainer_new 50))).

Definition example_rng (n : nat) : Z := Z.of_nat n * 7.

Definition example_answer (player : Z) (command key : string) (w : World) : option (list Z * World) :=
  @LootNeedGreedPassHandler example_db no_abilities [] 30 1000 example_rng (Trade.mkQueryCall player player player 4 [command; key]) w.

(** How many of item 9 the players hold, and what is in the container. *)
Definition summary (r : option (list Z * World)) : option (list Z * list Z) :=
  x ← r;
  Some (map (fun n => match characters (snd x) !! n with Some c => @held example_db (inventory c) 9 | None => 0 end) [1; 2; 3],
        match loot_of (snd x) (1, 50) with Some l => itemList l | None => [] end).

Definition last_pass : Trade.Query := Trade.mkQueryCall 3 3 3 4 ["loot.pass"; "3"].
Definition three_players : World := bidding_world all_mates all_tags (example_loot [5; 9]).

Lemma three_deciding :
  deciding (db := example_db) (H := no_abilities) [] 30
    (upd_loot (1, 50) (Some (decide_as "loot.pass" (example_loot [5; 9]) 9 103)) (view three_players)) 0
    (bidding_party all_mates all_tags) 3 (example_player 3) (example_tag 3).2 (decide_as "loot.pass" (example_loot [5; 9]) 9 103).
Proof.
  split.
  - done.
  - intros m ptr Hm. repeat (apply elem_of_cons in Hm as [->|Hm]; [intros [= <-]; vm_compute; eauto|]). by apply not_elem_of_nil in Hm.
  - intros m Hm. repeat (apply elem_of_cons in Hm as [->|Hm]; [by vm_compute|]). by apply not_elem_of_nil in Hm.
  - by vm_compute.
  - done.
  - by vm_compute.
  - vm_compute. eauto.
  - intros n Hn. by vm_compute in Hn.
  - vm_compute. eauto.
  - assert (bidders (decide_as "loot.pass" (example_loot [5; 9]) 9 103) (mItemId (example_tag 3).2) = {[101; 102]}) as -> by by vm_compute.
    intros id [->%elem_of_singleton| ->%elem_of_singleton]%elem_of_union.
    + exists (example_mate 1), 1, (example_player 1), (mkCharacter example_inv 0).
      split_and!; [by vm_compute..|exact example_stockable|by vm_compute].
    + exists (example_mate 2), 2, (example_player 2), (mkCharacter example_inv 0).
      split_and!; [by vm_compute..|exact example_stockable|by vm_compute].
Qed.


(** Player 3 was out of range and has no tag; the others decide. *)
Definition one_away : World :=
  bidding_world all_mates (map example_tag [1; 2]) (set_itemList [9] (ActiveLootContainer_new 50)).


(** ** What the code does not do *)

(** The winner gets the item although the container no longer has it: when someone else
    took it in the meantime, there are two. *)
Lemma award_makes_item :
  summary (example_answer 3 "loot.pass" "3" three_players) = Some ([1; 2; 1], [5]) /\
  summary (example_answer 3 "loot.pass" "3" (bidding_world all_mates all_tags (example_loot [5]))) = Some ([1; 2; 1], [5]).
Proof. by vm_compute. Qed.

(** When everybody passes and a member is not online, a tag is made from a null pointer. *)
Lemma offline_member_undefined :
  example_answer 3 "loot.pass" "3"
    (bidding_world (all_mates ++ [mkMember 1004 104 "Away" None None (-1)]) all_tags
      (set_rolls ∅ ∅ {[9 := {[101; 102]}]} (example_loot [5; 9]))) = None.
Proof. by vm_compute. Qed.

(** The party is asked again for an item that is being decided on: the tags are looked up
    by the looter instead of the dead creature. *)
Definition example_ask (w : World) : option (list Z * World) :=
  @LootItemHandler example_db no_abilities [] 30 1000 (Trade.mkQueryCall 1 1 1 4 ["50"; "9"]%string) w.

Definition beside : World :=
  set_instances {[1 := mkInstance {[50 := set_lootableID [1001] (set_itemList [9] (ActiveLootContainer_new 50))]}
    {[50 := mkLootCreature 50 (StatMods.mkCreature 50 1 [] [] [] [] [] (AbilityTime.mkBuffs [] []) false 0 0 0 None None 0) 0 0]}]}
    (bidding_world all_mates [] (example_loot [])).

Definition tags_after (r : option (list Z * World)) : option (list Z) :=
  x ← r; Some (concat (map (fun p => map fst (lootTags p)) (mPartyList (parties (snd x))))).

Lemma asked_twice :
  tags_after (example_ask beside) = Some [4; 5; 6] /\
  tags_after (x ← example_ask beside; example_ask (snd x)) = Some [4; 5; 6; 7; 8; 9].
Proof. by vm_compute. Qed.
