(* ===== verification/Clans.v ===== *)
(** * Clans: members, ranks and the queries of the players

    Models [src/SOURCE/Server/Clan.h], [Clan.cpp] and [query/ClanHandlers.cpp]: a clan is
    an entity of the store of [Cluster]; every query loads it, changes its copy and saves
    it again. The character database is what [CharacterManager] has in memory and what it
    can load; the players are the list of simulator threads. Messages are built in buffers
    of a fixed size: writing past one is undefined ([None]), as is the use of a null
    pointer. *)

From S2P Require Import Prelude ByteBuffer Messages Text Entities Cluster.

Definition KEYPREFIX_CLAN : string := "Clan".
Definition ID_NEXT_CLAN_ID : string := "NextClanID".
Definition KEYPREFIX_CLAN_NAME_TO_ID : string := "ClanNameToID".
Definition KEYPREFIX_CHARACTER_NAME_TO_ID : string := "CharacterNameToID".

Module Rank.
Definition UNKNOWN : Z := 0.
Definition INITIATE : Z := 1.
Definition MEMBER : Z := 2.
Definition OFFICER : Z := 3.
Definition LEADER : Z := 4.

Definition GetNameByID (id : Z) : string :=
  switch id [(LEADER, "Leader"); (OFFICER, "Officer"); (MEMBER, "Member")]%string "Initiate"%string.

Definition GetIDByName (name : string) : Z :=
  if String.eqb name "Leader" then LEADER
  else if String.eqb name "Officer" then OFFICER
  else if String.eqb name "Member" then MEMBER
  else INITIATE.
End Rank.

(** ** Clans *)

Record ClanMember := mkMember { mID : Z; mRank : Z }.

Definition ClanMember_new : ClanMember := mkMember 0 Rank.MEMBER.

Record Clan := mkClan {
  mId : Z; mName : string; mMOTD : string; mMembers : list ClanMember; mPendingMembers : list Z; mCreated : Z }.

Definition Clan_new : Clan := mkClan 0 EmptyString EmptyString [] [] 0.

Definition set_mId (id : Z) (c : Clan) : Clan := mkClan id (mName c) (mMOTD c) (mMembers c) (mPendingMembers c) (mCreated c).
Definition set_mMOTD (motd : string) (c : Clan) : Clan := mkClan (mId c) (mName c) motd (mMembers c) (mPendingMembers c) (mCreated c).
Definition set_mMembers (l : list ClanMember) (c : Clan) : Clan := mkClan (mId c) (mName c) (mMOTD c) l (mPendingMembers c) (mCreated c).
Definition set_mPendingMembers (l : list Z) (c : Clan) : Clan := mkClan (mId c) (mName c) (mMOTD c) (mMembers c) l (mCreated c).
Definition set_mCreated (t : Z) (c : Clan) : Clan := mkClan (mId c) (mName c) (mMOTD c) (mMembers c) (mPendingMembers c) t.

Definition GetMember (c : Clan) (id : Z) : ClanMember :=
  default ClanMember_new (List.find (fun m => mID m =? id) (mMembers c)).

Definition GetFirstMemberOfRank (c : Clan) (rank : Z) : ClanMember :=
  default ClanMember_new (List.find (fun m => mRank m =? rank) (mMembers c)).

Definition HasMember (c : Clan) (id : Z) : bool := mID (GetMember c id) =? id.

(** The first member with the identifier. *)
Definition RemoveMember (member : ClanMember) (c : Clan) : bool * Clan :=
  match find_idx (fun m => mID m =? mID member) (mMembers c) with
  | Some i => (true, set_mMembers (delete i (mMembers c)) c)
  | None => (false, c)
  end.

Definition UpdateMember (member : ClanMember) (c : Clan) : Clan :=
  match find_idx (fun m => mID m =? mID member) (mMembers c) with
  | Some i => set_mMembers (<[i := member]> (mMembers c)) c
  | None => c
  end.

(** ** The store *)

Definition member_text (m : ClanMember) : string := sprintf_d (mID m) +:+ ":" +:+ sprintf_d (mRank m).

Definition clan_WriteEntity {S} `{EntityWriter S} (c : Clan) (s : S) : S :=
  put_list "PendingMember" (map sprintf_d (mPendingMembers c))
  (put_list "Member" (map member_text (mMembers c))
  (put_ulong "Created" (mCreated c)
  (put_value "MOTD" (mMOTD c)
  (put_value "Name" (mName c)
  (writer_Key KEYPREFIX_CLAN (sprintf_d (mId c)) s))))).

Definition clan_EntityKeys {S} `{EntityReader S} (c : Clan) (s : S) : S :=
  reader_Key KEYPREFIX_CLAN (sprintf_d (mId c)) true s.

(** One stored member: the parts are looked for between commas. *)
Definition read_member (members : list ClanMember) (a : string) : list ClanMember :=
  match Split a "," with
  | l0 :: l1 :: _ => members ++ [mkMember (atoi l0) (atoi l1)]
  | _ => members
  end.

Definition clan_ReadEntity {S} `{EntityReader S} (c : Clan) : Act S Clan :=
  name ← Value "Name" EmptyString;
  motd ← Value "MOTD" EmptyString;
  created ← ValueULong "Created" 0;
  m ← ListValue "Member" EmptyString;
  let members := fold_left read_member m (mMembers c) in
  p ← ListValue "PendingMember" EmptyString;
  mret (mkClan (mId c) name motd members (mPendingMembers c ++ map atoi p) created).

#[export] Instance Clan_entity : Entity Clan := {|
  WriteEntity S _ c s := (true, clan_WriteEntity c s);
  EntityKeys S _ c s := (true, clan_EntityKeys c s);
  ReadEntity S _ c := c' ← clan_ReadEntity c; mret (true, c') |}.

Section ClanManager.
Context {R : Type} `{Redis R}.

Definition clan_name_key (name : string) : string := KEYPREFIX_CLAN_NAME_TO_ID +:+ ":" +:+ cstr name.

Definition SaveClan (c : Clan) : Act R bool :=
  _ ← SetKey (clan_name_key (mName c)) (sprintf_d (mId c)) true;
  ClusterManager_WriteEntity c.

(** The clan of the caller gets its number and its time. *)
Definition CreateClan (time : Z) (c : Clan) : Act R Clan :=
  id ← NextValue ID_NEXT_CLAN_ID 1;
  let c' := set_mCreated (u64 time) (set_mId (i32 id) c) in
  _ ← SaveClan c';
  mret c'.

Definition LoadClan (id : Z) (c : Clan) : Act R (bool * Clan) := ClusterManager_ReadEntity (set_mId id c).

Definition GetClan (id : Z) : Act R Clan := r ← LoadClan id Clan_new; mret r.2.

Definition HasClan (id : Z) : Act R bool := HasKey (KEYPREFIX_CLAN +:+ ":" +:+ sprintf_d id).

Definition FindClanID (name : string) : Act R Z := s ← GetKey (clan_name_key name) "-1"; mret (atoi s).

Definition RemoveClan (c : Clan) : Act R bool :=
  _ ← RemoveKey (clan_name_key (mName c)) true;
  ClusterManager_RemoveEntity c.

(** [UsedNameDatabase::GetIDByName] prints the address of the name with [%d]. *)
Definition GetIDByName (address : string -> Z) (name : string) : Act R Z :=
  s ← GetKey (KEYPREFIX_CHARACTER_NAME_TO_ID +:+ ":" +:+ sprintf_d (i32 (address name))) EmptyString; mret (atoi s).

End ClanManager.

(** ** The world of the queries *)

Record CharacterData := mkCharacter {
  clan : Z; pendingChanges : Z; display_name : string; level : Z; profession : Z; expireTime : Z }.

Record SimulatorThread := mkSimulator {
  InternalID : Z; isConnected : bool; ProtocolState : Z; CreatureDefID : Z; has_charPtr : bool }.

Inductive Output :=
| ToSimulator (sim : Z) (bytes : list Z)
| StatUpdate (creature stat : Z).

Record World (R : Type) := mkWorld {
  store : R;
  g_ServerTime : Z;
  clock : Z;                              (* time(NULL) *)
  charList : gmap Z CharacterData;        (* the characters in memory *)
  loadable : gmap Z CharacterData;        (* what LoadCharacter reads of the others *)
  coppers : gmap Z Z;                     (* css.copper of the creatures, by definition *)
  Simulator : list SimulatorThread;
  cs : Z;                                 (* depth of the lock of the clans *)
  sent : list Output }.

Arguments mkWorld {R}. Arguments store {R}. Arguments g_ServerTime {R}. Arguments clock {R}.
Arguments charList {R}. Arguments loadable {R}. Arguments coppers {R}. Arguments Simulator {R}.
Arguments cs {R}. Arguments sent {R}.

Definition TEMP_EXPIRE_TIME : Z := 20000.
Definition STAT_COPPER : Z := 114.
(** [sizeof] of [SimulatorThread::SendBuf], [SimulatorThread::Aux2] and the local buffers. *)
Definition SENDBUF : Z := 24576.
Definition AUX2 : Z := 128.
Definition LOCALBUF : Z := 256.

Section Handlers.
Context {R : Type} `{Redis R}.
Abbreviation W := (World R).

Definition set_store (r : R) (w : W) : W :=
  mkWorld r (g_ServerTime w) (clock w) (charList w) (loadable w) (coppers w) (Simulator w) (cs w) (sent w).
Definition set_charList (m : gmap Z CharacterData) (w : W) : W :=
  mkWorld (store w) (g_ServerTime w) (clock w) m (loadable w) (coppers w) (Simulator w) (cs w) (sent w).
Definition set_copper (id n : Z) (w : W) : W :=
  mkWorld (store w) (g_ServerTime w) (clock w) (charList w) (loadable w) (<[id := n]> (coppers w)) (Simulator w) (cs w) (sent w).
Definition add_cs (n : Z) (w : W) : W :=
  mkWorld (store w) (g_ServerTime w) (clock w) (charList w) (loadable w) (coppers w) (Simulator w) (cs w + n) (sent w).
Definition emit (l : list Output) (w : W) : W :=
  mkWorld (store w) (g_ServerTime w) (clock w) (charList w) (loadable w) (coppers w) (Simulator w) (cs w) (sent w ++ l).

Definition Enter : Act W unit := modify (add_cs 1).
Definition Leave : Act W unit := modify (add_cs (-1)).

Definition on_store {A} (m : Act R A) : Act W A := fun w =>
  match m (store w) with Some (a, r) => Some (a, set_store r w) | None => None end.

(** ** Characters *)

Definition set_clan (id : Z) (c : CharacterData) : CharacterData :=
  mkCharacter id (i32 (pendingChanges c + 1)) (display_name c) (level c) (profession c) (expireTime c).
Definition set_expire (t : Z) (c : CharacterData) : CharacterData :=
  mkCharacter (clan c) (pendingChanges c) (display_name c) (level c) (profession c) t.

(** [RequestCharacter(id, true)]: whether the pointer is not null. *)
Definition RequestCharacter (id : Z) : Act W bool := fun w =>
  let until := u64 (g_ServerTime w + TEMP_EXPIRE_TIME) in
  match charList w !! id with
  | Some c => Some (true, if expireTime c =? 0 then w else set_charList (<[id := set_expire until c]> (charList w)) w)
  | None =>
      match loadable w !! id with
      | Some c => Some (true, set_charList (<[id := set_expire until c]> (charList w)) w)
      | None => Some (false, w)
      end
  end.

(** A character behind a pointer that is not null. *)
Definition character (id : Z) : Act W CharacterData := fun w =>
  match charList w !! id with Some c => Some (c, w) | None => None end.

(** [cd->clan = clan; cd->pendingChanges++]. *)
Definition put_clan (id clan : Z) : Act W unit := modify (fun w => set_charList (alter (set_clan clan) id (charList w)) w).

(** The first in the order of the identifiers. *)
Definition GetCharacterByName (name : string) (w : W) : option Z :=
  map_fold (fun id c acc =>
    if String.eqb (cstr (display_name c)) (cstr name)
    then Some (match acc with Some a => Z.min a id | None => id end) else acc) None (charList w).

Definition creature_copper (id : Z) : Act W Z := fun w =>
  match coppers w !! id with Some n => Some (n, w) | None => None end.

Definition AdjustCopper (id coinChange : Z) : Act W unit :=
  n ← creature_copper id;
  let n' := i32 (n + coinChange) in
  _ ← modify (set_copper id (if n' <? 0 then 0 else n'));
  modify (emit [StatUpdate id STAT_COPPER]).

(** ** Messages *)

(** The bytes, if they fit into the buffer they are written to. *)
Definition in_buffer (size : Z) (bytes : list Z) : Act W (list Z) :=
  if Z.of_nat (length bytes) <=? size then mret bytes else throw.

Definition clan_message (kind : Z) (fields : list Z) : list Z := seal (PutByte 43 ++ PutShort 0 ++ PutByte kind ++ fields).

Definition playing (s : SimulatorThread) : bool := isConnected s && (ProtocolState s =? 1).

(** To each thread what [f] gives for it, with the size of the buffer it is built in. *)
Fixpoint send_each (f : SimulatorThread -> option (Z * list Z)) (l : list SimulatorThread) : Act W unit :=
  match l with
  | [] => mret tt
  | s :: l' =>
      _ ← (match f s with
           | Some (size, bytes) => b ← in_buffer size bytes; modify (emit [ToSimulator (InternalID s) b])
           | None => mret tt
           end);
      send_each f l'
  end.

Definition to_all (f : SimulatorThread -> option (Z * list Z)) : Act W unit := fun w => send_each f (Simulator w) w.

Definition BroadcastMessage (message : string) : Act W unit :=
  to_all (fun s => if negb (ProtocolState s =? 0) && isConnected s && has_charPtr s
                   then Some (LOCALBUF, PrepExt_Broadcast message) else None).

(** To every player who is a member of the clan. *)
Definition to_members (c : Clan) (size : Z) (bytes : list Z) : Act W unit :=
  b ← in_buffer size bytes;
  to_all (fun s => if playing s && HasMember c (CreatureDefID s) then Some (size, b) else None).

(** One message to a player, another to the members. *)
Definition to_player_or_members (id : Z) (own : list Z) (c : Clan) (bytes : list Z) : Act W unit :=
  b ← in_buffer SENDBUF bytes;
  to_all (fun s => if playing s then
                     if CreatureDefID s =? id then Some (AUX2, own)
                     else if HasMember c (CreatureDefID s) then Some (SENDBUF, b) else None
                   else None).

Definition BroadcastClanDisbandment (c : Clan) : Act W unit :=
  _ ← to_members c 7 (clan_message 8 []);
  BroadcastMessage (SafeFormat 256 ("Clan '" +:+ cstr (mName c) +:+ "' has been disbanded")).

(** The message goes to the first thread of the player. *)
Definition SendClanInvite (c : Clan) (leader : ClanMember) (cdefID : Z) : Act W unit :=
  ok ← RequestCharacter (mID leader);
  name ← (if (ok : bool) then d ← character (mID leader); mret (display_name d) else mret "Unknown"%string);
  b ← in_buffer LOCALBUF (clan_message 10 (PutStringUTF (mName c) ++ PutStringUTF name));
  modify (fun w =>
    match List.find (fun s => playing s && (CreatureDefID s =? cdefID)) (Simulator w) with
    | Some s => emit [ToSimulator (InternalID s) b] w
    | None => w
    end).

Definition BroadcastClanRankChange (memberName : string) (c : Clan) (member : ClanMember) : Act W unit :=
  to_members c LOCALBUF (clan_message 14 (PutStringUTF memberName ++ PutStringUTF (Rank.GetNameByID (mRank member)))).

End Handlers.

(** ** The queries

    [me] is the character of the player ([pld->CreatureDefID]), whose creature and
    character the handlers are given; [sim] is the number of its thread. [address] is where
    the text of a name lies. *)

Section Queries.
Context {R : Type} `{Redis R}.
Context (address : string -> Z).
Context (ClansEnabled : bool) (ClanCost : Z).
Context (me sim queryID : Z) (args : list string).
Abbreviation W := (World R).

Definition reply_error (message : string) : Act W (list Z) := mret (PrepExt_QueryResponseError queryID message).
Definition reply_ok : list Z := PrepExt_QueryResponseString queryID "OK".

Definition not_enabled : Act W (list Z) := reply_error "Clans are not enabled.".
Definition invalid_query : Act W (list Z) := reply_error "Invalid query->".

(** The clan of the player, for the queries that need one. *)
Definition with_clan (k : Z -> Act W (list Z)) : Act W (list Z) :=
  d ← character me;
  if clan d =? 0 then reply_error "You are not in a clan."
  else
    has ← on_store (HasClan (clan d));
    if negb has then reply_error "Your clan does not exist!" else k (clan d).

(** *** Disbanding *)

Fixpoint leave_all (l : list ClanMember) : Act W unit :=
  match l with
  | [] => mret tt
  | m :: l' =>
      ok ← RequestCharacter (mID m);
      _ ← (if (ok : bool) then put_clan (mID m) 0 else mret tt);
      leave_all l'
  end.

Definition ClanDisbandHandler : Act W (list Z) :=
  with_clan (fun clanID =>
    c ← on_store (GetClan clanID);
    if negb (mRank (GetMember c me) =? Rank.LEADER) then reply_error "Must be the leader to set the MOTD!"
    else
      _ ← leave_all (mMembers c);
      _ ← BroadcastClanDisbandment c;
      _ ← on_store (RemoveClan c);
      mret reply_ok).

(** *** Creating *)

Definition ClanCreateHandler : Act W (list Z) :=
  if negb ClansEnabled then not_enabled else
  match args with
  | [] => invalid_query
  | name :: _ =>
      d ← character me;
      if 0 <? clan d then reply_error "You may not create a clan, you are already part of one."
      else
        n ← creature_copper me;
        if n <? i32 ClanCost then reply_error "You do not have enough gold to create a clan."
        else
          _ ← AdjustCopper me (i32 (u32 (- ClanCost)));
          clanID ← on_store (FindClanID name);
          if negb (clanID =? -1) then reply_error "A clan with that name already exists."
          else
            w ← gets id;
            c ← on_store (CreateClan (clock w)
                  (mkClan 0 name EmptyString [mkMember me Rank.LEADER] [] 0));
            _ ← put_clan me (mId c);
            b ← in_buffer SENDBUF (clan_message 9 (PutStringUTF (mName c)));
            _ ← modify (emit [ToSimulator sim b]);
            _ ← BroadcastMessage (SafeFormat (Z.to_nat AUX2)
                  (cstr (display_name d) +:+ " has formed the clan '" +:+ cstr (mName c) +:+ "'."));
            mret reply_ok
  end.

(** *** Reading *)

(** [resp.Write]: never committed before. *)
Definition write_rows (rows : list (list string)) : Act W (list Z) :=
  match QueryResponse.Write (QueryResponse.mkQueryResponse queryID rows false false) with
  | inl _ => throw
  | inr (bytes, _) => mret bytes
  end.

(** [k] on the clan of the player, if there is one. *)
Definition if_clan (k : Clan -> Act W (list (list string))) : Act W (list Z) :=
  d ← character me;
  if negb ClansEnabled || (clan d =? 0) then write_rows []
  else
    has ← on_store (HasClan (clan d));
    if negb has then write_rows []
    else c ← on_store (GetClan (clan d)); rows ← k c; write_rows rows.

Definition ClanInfoHandler : Act W (list Z) :=
  if_clan (fun c => mret
    [[mName c]; [mMOTD c];
     [if (me =? mID (GetFirstMemberOfRank c Rank.LEADER))%Z then "true" else "false"]%string]).

Fixpoint member_rows (l : list ClanMember) : Act W (list (list string)) :=
  match l with
  | [] => mret []
  | m :: l' =>
      ok ← RequestCharacter (mID m);
      row ← (if (ok : bool) then
               d ← character (mID m);
               mret [display_name d; sprintf_d (level d); sprintf_d (profession d);
                     if (expireTime d =? 0)%Z then "true" else "false"; Rank.GetNameByID (mRank m)]%string
             else mret ["Missing!"; "1"; "1"; "false"; Rank.GetNameByID Rank.INITIATE]%string);
      rows ← member_rows l'; mret (row :: rows)
  end.

Definition ClanListHandler : Act W (list Z) := if_clan (fun c => member_rows (mMembers c)).

(** *** The message of the day *)

Definition ClanMotdHandler : Act W (list Z) :=
  if negb ClansEnabled then not_enabled else
  match args with
  | [] => invalid_query
  | motd :: _ =>
      with_clan (fun clanID =>
        c0 ← on_store (GetClan clanID);
        if mRank (GetMember c0 me) <? Rank.OFFICER then reply_error "Must be at least an officer to set the MOTD!"
        else
          let c := set_mMOTD motd c0 in
          _ ← on_store (SaveClan c);
          _ ← to_members c SENDBUF (clan_message 5 (PutStringUTF (mMOTD c)));
          _ ← BroadcastMessage (SafeFormat (Z.to_nat AUX2) ("Clan '" +:+ cstr (mName c) +:+ "' - " +:+ cstr (mMOTD c)));
          mret reply_ok)
  end.

(** *** Invitations *)

Definition ClanInviteAcceptHandler : Act W (list Z) :=
  if negb ClansEnabled then not_enabled else
  match args with
  | [] => invalid_query
  | name :: _ =>
      d ← character me;
      if negb (clan d =? 0) then reply_error "You are already in a clan."
      else
        clanID ← on_store (FindClanID (cstr name));
        if clanID =? -1 then reply_error "The clan does not exist!"
        else
          c0 ← on_store (GetClan clanID);
          match find_idx (Z.eqb me) (mPendingMembers c0) with
          | None => reply_error "No invite found!"
          | Some i =>
              _ ← put_clan me clanID;
              _ ← Enter;
              let c := set_mMembers (mMembers c0 ++ [mkMember me Rank.INITIATE])
                         (set_mPendingMembers (delete i (mPendingMembers c0)) c0) in
              _ ← on_store (SaveClan c);
              _ ← to_player_or_members me (clan_message 9 (PutStringUTF (mName c))) c
                    (clan_message 11 (PutStringUTF (display_name d) ++ PutInteger (level d) ++ PutInteger (profession d)));
              _ ← Leave;
              mret reply_ok
          end
  end.

Definition ClanInviteHandler : Act W (list Z) :=
  if negb ClansEnabled then not_enabled else
  match args with
  | [] => invalid_query
  | invitee :: _ =>
      with_clan (fun clanID =>
        c ← on_store (GetClan clanID);
        let member := GetMember c me in
        if mRank member <? Rank.OFFICER then reply_error "Must be at least an officer to invite a player!"
        else
          w ← gets id;
          match GetCharacterByName invitee w with
          | None => reply_error (SafeFormat (Z.to_nat AUX2) (cstr invitee +:+ " is not online."))
          | Some cdef =>
              _ ← SendClanInvite c member cdef;
              _ ← on_store (SaveClan (set_mPendingMembers (mPendingMembers c ++ [cdef]) c));
              mret reply_ok
          end)
  end.

(** *** Ranks *)

(** Why the rank of a member may not be changed. *)
Definition rank_refused (c : Clan) (them_id newRank : Z) : option string :=
  let me_ := GetMember c me in
  let them := GetMember c them_id in
  if mID me_ =? 0 then Some "You are not in this clan."
  else if mID them =? 0 then Some "Player is not in your clan."
  else if mID me_ =? mID them then Some "Cannot promote or demote yourself."
  else if mRank me_ <? Rank.OFFICER then Some "You must be at least an officer to promote or demote others."
  else if mRank me_ <=? mRank them then Some "You must be of greater rank to promote or demote someone."
  else if mRank me_ <? newRank then Some "You cannot promote someone above your own rank."
  else if newRank <? Rank.INITIATE then Some "Cannot demote below Initiate."
  else if (newRank <? Rank.LEADER) && (length (mMembers c) <? 2)%nat
  then Some "Cannot demote, would leave clan without a leader. Disband instead if you want to leave."
  else None.

Definition ClanRankHandler : Act W (list Z) :=
  if negb ClansEnabled then not_enabled else
  with_clan (fun clanID =>
    match args with
    | memberName :: rankName :: _ =>
        memberCDefID ← on_store (GetIDByName address memberName);
        if memberCDefID =? -1 then reply_error "No such clan member."
        else
          c0 ← on_store (GetClan clanID);
          let newRank := Rank.GetIDByName (cstr rankName) in
          match rank_refused c0 memberCDefID newRank with
          | Some why => reply_error why
          | None =>
              let them := mkMember (mID (GetMember c0 memberCDefID)) newRank in
              _ ← Enter;
              let c := UpdateMember them c0 in
              _ ← on_store (SaveClan c);
              _ ← Leave;
              _ ← BroadcastClanRankChange memberName c them;
              mret reply_ok
          end
    | _ => invalid_query
    end).

(** *** Leaving *)

Definition ClanRemoveHandler : Act W (list Z) :=
  if negb ClansEnabled then not_enabled else
  match args with
  | [] => invalid_query
  | memberName :: _ =>
      with_clan (fun clanID =>
        c0 ← on_store (GetClan clanID);
        if mRank (GetMember c0 me) <? Rank.OFFICER then reply_error "Must be at least an officer to remove a clan me"
        else
          memberCDefID ← on_store (GetIDByName address memberName);
          if memberCDefID =? -1 then reply_error "No such clan member."
          else if memberCDefID =? me then reply_error "Cannot remove yourself from a clan."
          else
            let them := GetMember c0 memberCDefID in
            if mID them =? 0 then reply_error "Player is not in your clan."
            else
              let c := (RemoveMember them c0).2 in
              ok ← RequestCharacter memberCDefID;
              _ ← (if (ok : bool) then put_clan memberCDefID 0 else mret tt);
              _ ← on_store (SaveClan c);
              _ ← to_player_or_members memberCDefID (clan_message 13 []) c
                    (clan_message 12 (PutStringUTF memberName));
              mret reply_ok)
  end.

(** The character keeps its [clan]. *)
Definition ClanLeaveHandler : Act W (list Z) :=
  if negb ClansEnabled then not_enabled else
  with_clan (fun clanID =>
    c0 ← on_store (GetClan clanID);
    let me_ := GetMember c0 me in
    if mID me_ =? 0 then reply_error "Player is not in your clan."
    else
      let c := (RemoveMember me_ c0).2 in
      _ ← on_store (SaveClan c);
      d ← character me;
      _ ← to_player_or_members me (clan_message 13 []) c (clan_message 12 (PutStringUTF (display_name d)));
      mret reply_ok).

End Queries.

(** The queries by name ([clan.disband], [clan.create], ...). *)
Inductive Request := Disband | Create | Info | Motd | InviteAccept | Invite | ChangeRank | ListMembers | RemovePlayer | LeaveClan.

Definition handleQuery {R} `{Redis R} (address : string -> Z) (enabled : bool) (cost : Z) (q : Request)
    (me sim queryID : Z) (args : list string) : Act (World R) (list Z) :=
  match q with
  | Disband => ClanDisbandHandler me queryID
  | Create => ClanCreateHandler enabled cost me sim queryID args
  | Info => ClanInfoHandler enabled me queryID
  | Motd => ClanMotdHandler enabled me queryID args
  | InviteAccept => ClanInviteAcceptHandler enabled me queryID args
  | Invite => ClanInviteHandler enabled me queryID args
  | ChangeRank => ClanRankHandler address enabled me queryID args
  | ListMembers => ClanListHandler enabled me queryID
  | RemovePlayer => ClanRemoveHandler address enabled me queryID args
  | LeaveClan => ClanLeaveHandler enabled me queryID
  end.
