(* ===== verification/ClansFacts.v ===== *)
(** * Clans: what the store keeps of a clan, and what the queries can do *)

From S2P Require Import Prelude ByteBuffer Messages Text Entities Cluster ClusterFacts Clans.

(** ** The stored form of a clan *)

Definition clan_values (c : Clan) : list (string * string * string) :=
  map (fun kv => (EmptyString, kv.1, kv.2))
    [("Name", mName c); ("MOTD", mMOTD c); ("Created", sprintf_lu (mCreated c));
     ("Member", join_items (map member_text (mMembers c)));
     ("PendingMember", join_items (map sprintf_d (mPendingMembers c)))]%string.

#[export, refine] Instance Clan_laws : EntityLaws Clan := {|
  catalog_of _ := KEYPREFIX_CLAN; id_of c := sprintf_d (mId c); values := clan_values |}.
Proof.
  - intros S ? ? c s Hs Hb. eexists. split; [reflexivity|].
    unfold clan_WriteEntity, put_ulong, writer_Key. autorewrite with entity. rewrite Hs, Hb. done.
  - intros S ? c s. exists true. done.
Defined.

(** What is read, whatever is stored. *)
Lemma clan_reads (f : string -> string -> option string) (id : Z) (members pending : list string) :
  list_of_value EmptyString (default EmptyString (f EmptyString "Member"%string)) = Some members ->
  list_of_value EmptyString (default EmptyString (f EmptyString "PendingMember"%string)) = Some pending ->
  reads f (set_mId id Clan_new)
    (mkClan id (default EmptyString (f EmptyString "Name"%string)) (default EmptyString (f EmptyString "MOTD"%string))
       (fold_left read_member members []) (map atoi pending)
       (strtoul (default (sprintf_lu 0) (f EmptyString "Created"%string)))).
Proof.
  intros Hm Hp S re rs flat. exists (mkReaderBase EmptyString KEYPREFIX_CLAN (sprintf_d id) flat).
  cbn [ReadEntity Clan_entity]. eapply gives_bind; [|apply gives_ret]. unfold clan_ReadEntity.
  do 2 (eapply gives_bind; [apply gives_Value|]).
  eapply gives_bind; [unfold ValueULong; eapply gives_bind; [apply gives_Value|apply gives_ret]|].
  eapply gives_bind; [by apply gives_ListValue|]. cbv zeta.
  eapply gives_bind; [by apply gives_ListValue|]. apply gives_ret.
Qed.

(** A stored member has one part. *)
Lemma member_text_part m : Split (member_text m) "," = [member_text m].
Proof.
  apply (split_join_lemma (chr 44) [member_text m]); [done|]. cbn [forallb]. rewrite andb_true_r.
  unfold member_text, lacks. rewrite !all_chars_app. cbn [all_chars].
  pose proof (fun n => sprintf_d_lacks (chr 44) n eq_refl eq_refl) as Hd. unfold lacks in Hd. by rewrite !Hd.
Qed.

Lemma read_members_none l : Forall (fun a => length (Split a ",") = 1%nat) l -> forall acc, fold_left read_member l acc = acc.
Proof.
  induction 1 as [|a l Ha _ IH]; intros acc; [done|]. cbn [fold_left]. unfold read_member at 2.
  by destruct (Split a ",") as [|x [|]].
Qed.

Lemma members_unread l acc : fold_left read_member (drop_empty (map member_text l)) acc = acc.
Proof.
  apply read_members_none. assert (Forall (fun a => length (Split a ",") = 1%nat) (map member_text l)) as Hl.
  { apply Forall_map, list.Forall_forall. intros m _. by rewrite member_text_part. }
  revert Hl. generalize (map member_text l). intros l0. by induction 1 as [|[|] ? ? ? IH]; cbn; [done|apply IH|by constructor].
Qed.

Lemma pending_read l : Forall in_i32 l -> map atoi (drop_empty (map sprintf_d l)) = l.
Proof.
  intros Hl. assert (drop_empty (map sprintf_d l) = map sprintf_d l) as ->.
  { destruct l as [|n l]; [done|]. cbn [map]. destruct (sprintf_d n) eqn:E; [|done]. exfalso.
    inversion Hl as [|? ? Hn]; subst. pose proof (atoi_sprintf_d_lemma n Hn) as Ha. rewrite E in Ha.
    by assert (n = 0) as -> by exact (eq_sym Ha). }
  rewrite map_map. rewrite <- (map_id l) at 2. apply map_ext_Forall.
  eapply list.Forall_impl; [exact Hl|]. apply atoi_sprintf_d_lemma.
Qed.

(** ** The keys of the clans *)

Definition separator (c : Ascii.ascii) : bool := Ascii.eqb c (chr 58) || Ascii.eqb c (chr 94).

Fixpoint stem (s : string) : string :=
  match s with EmptyString => EmptyString | String c s' => if separator c then EmptyString else String c (stem s') end.

Lemma stem_app a s : all_chars (fun c => negb (separator c)) a = true -> stem s = EmptyString -> stem (a +:+ s) = a.
Proof.
  intros Ha Hs. induction a as [|c a IH]; [done|]. cbn [all_chars] in Ha. apply andb_true_iff in Ha as [Hc Ha].
  change (String c a +:+ s) with (String c (a +:+ s)). cbn [stem]. apply negb_true_iff in Hc as ->. by rewrite IH.
Qed.

Lemma sprintf_d_plain n : all_chars (fun c => negb (separator c)) (sprintf_d n) = true.
Proof.
  pose proof (sprintf_d_lacks (chr 58) n eq_refl eq_refl) as H1. pose proof (sprintf_d_lacks (chr 94) n eq_refl eq_refl) as H2.
  unfold lacks in *. induction (sprintf_d n) as [|c s IH]; [done|]. cbn [all_chars] in *.
  apply andb_true_iff in H1 as [H1 ?], H2 as [H2 ?]. rewrite IH by done. rewrite andb_true_r. unfold separator. apply negb_true_iff, orb_false_iff.
  by split; apply Ascii.eqb_neq; intros ->.
Qed.

(** A key of the clan with the number [id], and the part after the number. *)
Lemma clan_key_id id id' s s' : stem s = EmptyString -> stem s' = EmptyString ->
  entity_key KEYPREFIX_CLAN (sprintf_d id) +:+ s = entity_key KEYPREFIX_CLAN (sprintf_d id') +:+ s' ->
  sprintf_d id = sprintf_d id' /\ s = s'.
Proof.
  intros Hs Hs' E. unfold entity_key in E. rewrite !sprintf_d_cstr, !string_app_assoc in E.
  do 2 apply append_inj_l in E. assert (sprintf_d id = sprintf_d id') as Hd.
  { rewrite <- (stem_app (sprintf_d id) s), <- (stem_app (sprintf_d id') s') by (apply sprintf_d_plain || done). by rewrite E. }
  split; [done|]. rewrite Hd in E. by apply append_inj_l in E.
Qed.

Lemma section_key_stem id sec : exists s, section_key KEYPREFIX_CLAN (sprintf_d id) sec =
  entity_key KEYPREFIX_CLAN (sprintf_d id) +:+ s /\ stem s = EmptyString /\ s <> EmptyString.
Proof. destruct (section_key_suffix KEYPREFIX_CLAN (sprintf_d id) sec) as [s E]. by exists (String (chr 58) s). Qed.

Lemma subkeys_key_stem id : exists s, subkeys_key KEYPREFIX_CLAN (sprintf_d id) =
  entity_key KEYPREFIX_CLAN (sprintf_d id) +:+ s /\ stem s = EmptyString /\ s <> EmptyString.
Proof. by exists "^_SUBKEYS_"%string. Qed.

(** The keys that a save of the clan writes. *)
Definition of_clan (id : string) (k : string) : Prop :=
  k = subkeys_key KEYPREFIX_CLAN id \/ exists sec, k = section_key KEYPREFIX_CLAN id sec.

Lemma of_clan_stem id k : of_clan (sprintf_d id) k -> exists s, k = entity_key KEYPREFIX_CLAN (sprintf_d id) +:+ s /\
  stem s = EmptyString /\ s <> EmptyString.
Proof. intros [->|[sec ->]]; [apply subkeys_key_stem|apply section_key_stem]. Qed.

Lemma of_clan_other id id' k : sprintf_d id <> sprintf_d id' -> of_clan (sprintf_d id) k -> ~ of_clan (sprintf_d id') k.
Proof.
  intros Hne (s & -> & Hs & _)%of_clan_stem (s' & E & Hs' & _)%of_clan_stem. by apply clan_key_id in E as [? _].
Qed.

(** The key that [HasClan] asks for is none of them. *)
Definition has_key (id : Z) : string := entity_key KEYPREFIX_CLAN (sprintf_d id).

Lemma has_key_other id id' : ~ of_clan (sprintf_d id') (has_key id).
Proof.
  intros (s & E & Hs & Hne)%of_clan_stem. unfold has_key in E. rewrite <- (string_app_nil (entity_key _ _)) in E at 1.
  apply clan_key_id in E as [_ E]; [by subst s|done|done].
Qed.

Lemma name_key_other id name : ~ of_clan (sprintf_d id) (clan_name_key name) /\ has_key id <> clan_name_key name.
Proof. split; [|done]. by intros (s & E & _)%of_clan_stem. Qed.

(** ** A store in which no clan has members that are read *)

Definition unread (v : option string) : Prop :=
  exists l, list_of_value EmptyString (default EmptyString v) = Some l /\ forall acc, fold_left read_member l acc = acc.

Record quiet (ks : Keyspace) : Prop := mkQuiet {
  q_plain id : ks !! has_key id = None;
  q_entity id : exists index, entity_ok KEYPREFIX_CLAN (sprintf_d id) ks index;
  q_members id : unread (content ks (section_key KEYPREFIX_CLAN (sprintf_d id) EmptyString) "Member");
  q_pending id : default EmptyString (content ks (section_key KEYPREFIX_CLAN (sprintf_d id) EmptyString) "PendingMember") = EmptyString;
  q_name name : ks !! clan_name_key name = None \/ exists s, ks !! clan_name_key name = Some (RedisString s) }.

Definition clan_key (k : string) : Prop := String.prefix "Clan" k = true.

Lemma clan_keys_start : (forall name, clan_key (clan_name_key name)) /\ (forall id, clan_key (has_key id)) /\
  forall id k, of_clan (sprintf_d id) k -> clan_key k.
Proof.
  assert (forall s, clan_key ("Clan" +:+ s)) as Hp.
  { intros s. exact (prefix_nil s). }
  split; [|split]; [done|done|]. intros id k (s & -> & _)%of_clan_stem. unfold entity_key. rewrite string_app_assoc. apply Hp.
Qed.

Lemma content_ext (ks ks' : Keyspace) k f : ks' !! k = ks !! k -> content ks' k f = content ks k f.
Proof. intros E. unfold content, hash_at. by rewrite E. Qed.

Lemma entity_ok_ext (ks ks' : Keyspace) catalog id index :
  ks' !! subkeys_key catalog id = ks !! subkeys_key catalog id ->
  (forall sec, ks' !! section_key catalog id sec = ks !! section_key catalog id sec) ->
  entity_ok catalog id ks index -> entity_ok catalog id ks' index.
Proof.
  intros Hi Hs [H1 H2 H3 H4]. split; [by unfold list_at; rewrite Hi| |done|done].
  intros sec. unfold hash_at. rewrite Hs. apply H2.
Qed.

(** The part of one clan is as it was. *)
Lemma quiet_clan_ext (ks ks' : Keyspace) id : (forall k, of_clan (sprintf_d id) k -> ks' !! k = ks !! k) -> quiet ks ->
  (exists index, entity_ok KEYPREFIX_CLAN (sprintf_d id) ks' index) /\
  unread (content ks' (section_key KEYPREFIX_CLAN (sprintf_d id) EmptyString) "Member") /\
  default EmptyString (content ks' (section_key KEYPREFIX_CLAN (sprintf_d id) EmptyString) "PendingMember") = EmptyString.
Proof.
  intros Hk [_ He Hm Hp _]. rewrite !(content_ext ks ks') by (apply Hk; right; by eexists).
  split; [|done]. destruct (He id) as [index Hi]. exists index. apply (entity_ok_ext ks); [apply Hk; by left| |done].
  intros sec. apply Hk. right. by eexists.
Qed.

Lemma quiet_ext (ks ks' : Keyspace) : (forall k, clan_key k -> ks' !! k = ks !! k) -> quiet ks -> quiet ks'.
Proof.
  intros Hk Hq. destruct clan_keys_start as (Hn & Hh & Ho).
  assert (forall id k, of_clan (sprintf_d id) k -> ks' !! k = ks !! k) as Hc by (intros id k Hof; by eapply Hk, Ho).
  split.
  - intros id. rewrite Hk by done. apply (q_plain _ Hq).
  - intros id. by apply (quiet_clan_ext ks ks' id (Hc id) Hq).
  - intros id. by apply (quiet_clan_ext ks ks' id (Hc id) Hq).
  - intros id. by apply (quiet_clan_ext ks ks' id (Hc id) Hq).
  - intros name. rewrite Hk by done. apply (q_name _ Hq).
Qed.

Lemma quiet_empty (ks : Keyspace) : (forall k, clan_key k -> ks !! k = None) -> quiet ks.
Proof.
  intros Hk. apply (quiet_ext ∅ ks); [intros k Hc; by rewrite Hk, lookup_empty|]. split.
  - done.
  - intros id. exists []. split; [done|by eexists|by intros k ?%elem_of_nil|by constructor].
  - intros id. by exists [].
  - done.
  - by left.
Qed.

(** ** The manager on such a store *)

Section Manager.
Context {R : Type} `{Redis R}.

Lemma NextValue_any key ks (Q : Z -> Keyspace -> Prop) :
  (forall z ks', (forall k, k <> key -> ks' !! k = ks !! k) -> Q z ks') -> runs (NextValue key 1) ks Q.
Proof.
  intros HQ. unfold NextValue. cbn [Z.ltb Z.compare]. apply runs_bind, runs_send. intros rep Hrep.
  cbn [replies redis] in Hrep |- *. unfold add_integer in *.
  assert (forall v k, k <> key -> <[key := v]> ks !! k = ks !! k) as Hins by (intros v k Hk; by rewrite lookup_insert_ne).
  destruct (ks !! key) as [[s| |]|]; [destruct (redis_integer s) as [z|]|..];
    try match goal with |- context [if ?b then (ReplyInteger _, _) else _] => destruct b end;
    subst rep; cbn [fst snd WRONGTYPE is_error as_integer]; apply runs_ret, HQ; auto.
Qed.

Lemma HasKey_runs key ks (Q : bool -> Keyspace -> Prop) : Q (bool_decide (is_Some (ks !! key))) ks -> runs (HasKey key) ks Q.
Proof.
  intros HQ. unfold HasKey. apply runs_bind, runs_send. intros rep ->. apply runs_ret. cbn.
  by destruct (ks !! key).
Qed.

Lemma GetKey_runs key d ks (Q : string -> Keyspace -> Prop) :
  (ks !! key = None -> Q d ks) -> (forall s, ks !! key = Some (RedisString s) -> Q s ks) ->
  (ks !! key = None \/ exists s, ks !! key = Some (RedisString s)) -> runs (GetKey key d) ks Q.
Proof.
  intros H1 H2 Hk. unfold GetKey. apply runs_bind, runs_send. intros rep Hrep. cbn [replies redis fst snd] in Hrep |- *.
  destruct Hk as [E|[s E]]; rewrite E in Hrep; subst rep; cbn [is_null as_string]; apply runs_ret; auto.
Qed.

Lemma HasClan_quiet id ks (Q : bool -> Keyspace -> Prop) : quiet ks -> Q false ks -> runs (HasClan id) ks Q.
Proof.
  intros Hq HQ. apply HasKey_runs. pose proof (q_plain _ Hq id) as E. unfold has_key, entity_key in E.
  rewrite sprintf_d_cstr in E. change (cstr KEYPREFIX_CLAN) with KEYPREFIX_CLAN in E. rewrite E. by rewrite bool_decide_false by (by intros [? ?]).
Qed.

Lemma FindClanID_quiet name ks (Q : Z -> Keyspace -> Prop) : quiet ks -> (forall z, Q z ks) -> runs (FindClanID name) ks Q.
Proof.
  intros Hq HQ. unfold FindClanID. apply runs_bind. apply GetKey_runs; [intros _|intros s _|apply (q_name _ Hq)]; by apply runs_ret.
Qed.

(** What is read of a clan of the store. *)
Lemma ReadClan_runs id ks index members pending (Q : bool * Clan -> Keyspace -> Prop) :
  let field := content ks (section_key KEYPREFIX_CLAN (sprintf_d id) EmptyString) in
  entity_ok KEYPREFIX_CLAN (sprintf_d id) ks index ->
  list_of_value EmptyString (default EmptyString (field "Member"%string)) = Some members ->
  list_of_value EmptyString (default EmptyString (field "PendingMember"%string)) = Some pending ->
  Q (true, mkClan id (default EmptyString (field "Name"%string)) (default EmptyString (field "MOTD"%string))
       (fold_left read_member members []) (map atoi pending) (strtoul (default (sprintf_lu 0) (field "Created"%string)))) ks ->
  runs (LoadClan id Clan_new) ks Q.
Proof.
  intros field Hok Hm Hp HQ r Hr <-. unfold LoadClan.
  destruct (ReadEntity_reads (H1 := Clan_laws) (set_mId id Clan_new) _ r index
    (fun sec k => content (contents r) (section_key KEYPREFIX_CLAN (sprintf_d id) sec) k) Hr Hok ltac:(done)
    (clan_reads _ id members pending Hm Hp)) as (r' & E & Hr' & Hc').
  eexists _, r'. split; [exact E|]. split; [done|]. by rewrite Hc'.
Qed.

Lemma GetClan_quiet id ks (Q : Clan -> Keyspace -> Prop) : quiet ks ->
  (forall c, mId c = id -> mMembers c = [] -> mPendingMembers c = [] -> Q c ks) -> runs (GetClan id) ks Q.
Proof.
  intros Hq HQ. destruct (q_members _ Hq id) as (l & Hl & Hm). destruct (q_entity _ Hq id) as [index Hi].
  unfold GetClan. apply runs_bind. eapply (ReadClan_runs id ks index l []); [done|done|by rewrite (q_pending _ Hq)|].
  apply runs_ret. apply HQ; [done|apply Hm|done].
Qed.

(** A save, of a clan of any members. *)
Lemma clan_values_root c : Forall (fun x => x.1.1 = EmptyString) (clan_values c).
Proof. apply list.Forall_forall. intros x Hx. apply list_elem_of_In, in_map_iff in Hx as (? & <- & _). done. Qed.

Lemma SaveClan_runs c ks index : entity_ok KEYPREFIX_CLAN (sprintf_d (mId c)) ks index ->
  runs (SaveClan c) ks (fun ok ks' => ok = true /\
    (exists index', entity_ok KEYPREFIX_CLAN (sprintf_d (mId c)) ks' index') /\
    (forall k v, last_value (clan_values c) EmptyString k = Some v ->
       content ks' (section_key KEYPREFIX_CLAN (sprintf_d (mId c)) EmptyString) k = Some v) /\
    ks' !! clan_name_key (mName c) = Some (RedisString (sprintf_d (mId c))) /\
    forall k, k <> clan_name_key (mName c) -> ~ of_clan (sprintf_d (mId c)) k -> ks' !! k = ks !! k).
Proof.
  intros Hok. unfold SaveClan. apply runs_bind. unfold SetKey. apply runs_bind, runs_send. intros rep _. apply runs_ret.
  cbn [redis snd]. set (ks1 := <[_ := _]> ks). intros r Hr Hks.
  assert (forall k, of_clan (sprintf_d (mId c)) k -> ks1 !! k = ks !! k) as F1.
  { intros k Hk. subst ks1. rewrite lookup_insert_ne; [done|]. intros <-. exact (proj1 (name_key_other _ _) Hk). }
  assert (entity_ok KEYPREFIX_CLAN (sprintf_d (mId c)) (contents r) index) as Hok1.
  { rewrite Hks. apply (entity_ok_ext ks); [apply F1; by left|intros sec; apply F1; right; by eexists|done]. }
  destruct (WriteEntity_saves (H1 := Clan_laws) c r index Hr Hok1) as (r' & index' & E & Hr' & [Hok' Hc Hi Hframe]).
  cbn [catalog_of id_of Clan_laws values] in *. exists true, r'. split; [done|]. split; [done|]. split; [done|].
  split; [by exists index'|]. split; [|split].
  - intros k v Hk. rewrite Hc. unfold saved_value. rewrite (last_value_root _ _ _ _ (clan_values_root c)). by rewrite Hk.
  - assert (~ of_clan (sprintf_d (mId c)) (clan_name_key (mName c))) as Hnc by apply name_key_other.
    rewrite Hframe, Hks; [apply lookup_insert_eq| |].
    + intros Ek. apply Hnc. by left.
    + intros sec Ek. apply Hnc. right. by eexists.
  - intros k Hn Hk. rewrite Hframe, Hks.
    + subst ks1. by rewrite lookup_insert_ne.
    + intros ->. apply Hk. by left.
    + intros sec ->. apply Hk. right. by eexists.
Qed.

Lemma SaveClan_quiet c ks : mPendingMembers c = [] -> quiet ks -> runs (SaveClan c) ks (fun _ ks' => quiet ks').
Proof.
  intros Hp Hq. destruct (q_entity _ Hq (mId c)) as [index Hok]. eapply runs_mono; [by eapply SaveClan_runs|].
  intros ok ks' (_ & [index' Hok'] & Hv & Hn & Hk).
  assert (forall id, sprintf_d id <> sprintf_d (mId c) -> forall k, of_clan (sprintf_d id) k -> ks' !! k = ks !! k) as Hother.
  { intros id Hne k Hof. apply Hk; [intros ->; by apply (proj1 (name_key_other id (mName c)))|by eapply of_clan_other]. }
  split.
  - intros id. rewrite Hk; [apply (q_plain _ Hq)|exact (proj2 (name_key_other id (mName c)))|apply has_key_other].
  - intros id. destruct (decide (sprintf_d id = sprintf_d (mId c))) as [->|Hne]; [by exists index'|].
    by apply (quiet_clan_ext ks ks' id (Hother id Hne) Hq).
  - intros id. destruct (decide (sprintf_d id = sprintf_d (mId c))) as [->|Hne].
    + rewrite (Hv "Member"%string (join_items (map member_text (mMembers c)))) by done. cbn [default from_option].
      eexists. split; [by apply list_roundtrip; left|]. apply members_unread.
    + by apply (quiet_clan_ext ks ks' id (Hother id Hne) Hq).
  - intros id. destruct (decide (sprintf_d id = sprintf_d (mId c))) as [->|Hne].
    + rewrite (Hv "PendingMember"%string (join_items (map sprintf_d (mPendingMembers c)))) by done. by rewrite Hp.
    + by apply (quiet_clan_ext ks ks' id (Hother id Hne) Hq).
  - intros name. destruct (decide (clan_name_key name = clan_name_key (mName c))) as [->|Hne]; [right; by eexists|].
    rewrite Hk; [apply (q_name _ Hq)|done|]. intros (s & E & _)%of_clan_stem. done.
Qed.

End Manager.

(** ** The queries on such a store *)

Section Frozen.
Context {R : Type} `{Redis R}.
Context (address : string -> Z) (enabled : bool) (cost : Z).
Abbreviation W := (World R).

Lemma on_store_does {A} (m : Act R A) (w : W) (Q : A -> Keyspace -> Prop) (P : A -> W -> Prop) :
  is_connected (store w) = true -> runs m (contents (store w)) Q ->
  (forall a r, is_connected r = true -> Q a (contents r) -> P a (set_store r w)) -> does (on_store m) w P.
Proof.
  intros Hw Hm HP. destruct (Hm (store w) Hw eq_refl) as (a & r & E & Hr & HQ).
  exists a, (set_store r w). split; [unfold on_store; by rewrite E|auto].
Qed.

(** The store is connected and quiet. *)
Definition calm (w : W) : Prop := is_connected (store w) = true /\ quiet (contents (store w)).

(** The player is refused: of the world, not even the store changes. *)
Definition refused (queryID : Z) (w : W) (reply : list Z) (w' : W) : Prop := exists why r,
  reply = PrepExt_QueryResponseError queryID why /\ w' = set_store r w /\ is_connected r = true /\ contents r = contents (store w).

Lemma refuse_now queryID why (w w' : W) r : w' = set_store r w -> is_connected r = true -> contents r = contents (store w) ->
  does (reply_error queryID why) w' (refused queryID w).
Proof. intros -> Hr Hc. apply does_ret. by exists why, r. Qed.

Lemma set_store_eq (w : W) : w = set_store (store w) w.
Proof. by destruct w. Qed.

Lemma with_clan_refused me queryID k (w : W) d : calm w -> charList w !! me = Some d ->
  does (with_clan me queryID k) w (refused queryID w).
Proof.
  intros [Hw Hq] Hd. unfold with_clan. apply does_bind. eapply does_eq; [unfold character; by rewrite Hd|].
  destruct (clan d =? 0); [eapply refuse_now; [apply set_store_eq|done|done]|].
  apply does_bind. eapply (on_store_does _ w (fun has ks => has = false /\ ks = contents (store w)));
    [done|by apply HasClan_quiet|].
  intros has r Hr [-> Hc]. cbn [negb]. by eapply refuse_now.
Qed.

Lemma accept_refused me queryID args (w : W) d : calm w -> charList w !! me = Some d ->
  does (ClanInviteAcceptHandler enabled me queryID args) w (refused queryID w).
Proof.
  intros [Hw Hq] Hd. unfold ClanInviteAcceptHandler.
  destruct enabled; cbn [negb]; [|by eapply refuse_now; [apply set_store_eq|..]].
  destruct args as [|name args']; [by eapply refuse_now; [apply set_store_eq|..]|].
  apply does_bind. eapply does_eq; [unfold character; by rewrite Hd|].
  destruct (negb (clan d =? 0)); [by eapply refuse_now; [apply set_store_eq|..]|].
  apply does_bind. eapply (on_store_does _ w (fun _ ks => ks = contents (store w))); [done|by apply FindClanID_quiet|].
  intros z r Hr Hc. destruct (z =? -1); [by eapply refuse_now|].
  apply does_bind. eapply (on_store_does _ _ (fun c ks => mPendingMembers c = [] /\ ks = contents (store w))); [done| |].
  { cbn [store set_store]. rewrite Hc. by apply GetClan_quiet. }
  intros c r' Hr' [Hp Hc']. rewrite Hp. cbn [find_idx]. by eapply (refuse_now _ _ w _ r').
Qed.

(** The queries that change a clan. *)
Definition changes_clan (q : Request) : bool :=
  match q with Create | Info | ListMembers => false | _ => true end.

Lemma query_refused q me sim queryID args (w : W) d : changes_clan q = true -> calm w -> charList w !! me = Some d ->
  does (handleQuery address enabled cost q me sim queryID args) w (refused queryID w).
Proof.
  intros Hq Hw Hd.
  assert (forall why, does (reply_error queryID why) w (refused queryID w)) as Hnow.
  { intros why. destruct Hw as [Hw _]. by eapply refuse_now; [apply set_store_eq|..]. }
  destruct q; try done; cbn [handleQuery].
  all: unfold ClanDisbandHandler, ClanMotdHandler, ClanInviteHandler, ClanRankHandler, ClanRemoveHandler, ClanLeaveHandler, not_enabled, invalid_query.
  all: try (by eapply accept_refused); try (destruct enabled; [cbn [negb]|apply Hnow]); try (destruct args as [|a args']; [apply Hnow|]);
    by eapply with_clan_refused.
Qed.

(** The queries that tell of the clan of a player find none. *)
Lemma if_clan_none me queryID k (w : W) d : calm w -> charList w !! me = Some d ->
  does (if_clan enabled me queryID k) w (fun reply w' => reply = seal (PutByte 1 ++ PutShort 0 ++ PutInteger queryID ++ PutShort 0) /\
    exists r, w' = set_store r w /\ is_connected r = true /\ contents r = contents (store w)).
Proof.
  intros [Hw Hq] Hd. unfold if_clan. apply does_bind. eapply does_eq; [unfold character; by rewrite Hd|].
  destruct (negb enabled || (clan d =? 0)); [apply does_ret; split; [done|]; exists (store w); by split; [apply set_store_eq|]|].
  apply does_bind. eapply (on_store_does _ w (fun has ks => has = false /\ ks = contents (store w)));
    [done|by apply HasClan_quiet|].
  intros has r Hr [-> Hc]. cbn [negb]. apply does_ret. split; [done|]. by exists r.
Qed.

End Frozen.

(** ** Founding a clan keeps the store quiet *)

Section Founding.
Context {R : Type} `{Redis R}.
Context (address : string -> Z) (enabled : bool) (cost : Z).
Abbreviation W := (World R).

(** An action that does not touch the store. *)
Definition aside {A} (m : Act W A) : Prop := forall w, may m w (fun _ w' => store w' = store w).

Lemma aside_ret {A} (a : A) : aside (mret a).
Proof. intros w. by apply may_ret. Qed.

Lemma aside_throw {A} : aside (throw : Act W A).
Proof. by intros w a w'. Qed.

Lemma aside_bind {A B} (m : Act W A) (k : A -> Act W B) : aside m -> (forall a, aside (k a)) -> aside (m ≫= k).
Proof.
  intros Hm Hk w. apply may_bind. eapply may_mono; [apply Hm|]. intros a w1 <-. apply Hk.
Qed.

Lemma aside_modify f : (forall w : W, store (f w) = store w) -> aside (modify f).
Proof. intros Hf w. by apply may_modify. Qed.

Lemma aside_in_buffer size bytes : aside (in_buffer size bytes).
Proof. unfold in_buffer. destruct (_ <=? _); [apply aside_ret|apply aside_throw]. Qed.

Lemma aside_send_each f l : aside (send_each f l).
Proof.
  induction l as [|s l IH]; [apply aside_ret|]. cbn [send_each]. apply aside_bind; [|done].
  destruct (f s) as [[size bytes]|]; [|apply aside_ret]. apply aside_bind; [apply aside_in_buffer|]. intros b. by apply aside_modify.
Qed.

Lemma aside_to_all f : aside (to_all f).
Proof. intros w. apply aside_send_each. Qed.

Lemma calm_set_store (w : W) r : is_connected r = true -> quiet (contents r) -> calm (set_store r w).
Proof. by split. Qed.

Lemma calm_same (w w' : W) : store w' = store w -> calm w -> calm w'.
Proof. unfold calm. by intros ->. Qed.

(** An action of the store, then the rest. *)
Lemma may_store {A B} (m : Act R A) (k : A -> Act W B) (w : W) Q : calm w ->
  runs m (contents (store w)) (fun _ ks => quiet ks) -> (forall a w', calm w' -> may (k a) w' Q) ->
  may (on_store m ≫= k) w Q.
Proof.
  intros [Hw _] Hm Hk. apply may_bind. eapply does_may, on_store_does; [done|exact Hm|].
  intros a r Hr Hr'. by apply Hk, calm_set_store.
Qed.

Lemma may_aside {A B} (m : Act W A) (k : A -> Act W B) (w : W) Q : aside m -> calm w ->
  (forall a w', calm w' -> may (k a) w' Q) -> may (m ≫= k) w Q.
Proof. intros Hm Hw Hk. apply may_bind. eapply may_mono; [apply Hm|]. intros a w' Hs. by apply Hk, (calm_same w). Qed.

Lemma CreateClan_quiet time c ks : mPendingMembers c = [] -> quiet ks ->
  runs (CreateClan time c) ks (fun c' ks' => quiet ks').
Proof.
  intros Hp Hq. unfold CreateClan. apply runs_bind. apply NextValue_any. intros z ks1 Hk.
  apply runs_bind. eapply runs_mono.
  - apply SaveClan_quiet; [done|]. apply (quiet_ext ks); [|done]. intros k Hc. apply Hk. by intros ->.
  - intros ok ks' Hq'. by apply runs_ret.
Qed.

Lemma create_calm me sim queryID args (w : W) : calm w ->
  may (ClanCreateHandler enabled cost me sim queryID args) w (fun _ w' => calm w').
Proof.
  intros Hw. unfold ClanCreateHandler, not_enabled, invalid_query, reply_error.
  destruct enabled; cbn [negb]; [|by apply may_ret]. destruct args as [|name args']; [by apply may_ret|].
  apply may_aside; [|done|].
  { intros w1 d w2. unfold character. destruct (charList w1 !! me); [|done]. by intros [= _ <-]. }
  clear w Hw. intros d w Hw. destruct (0 <? clan d); [by apply may_ret|].
  apply may_aside; [|done|].
  { intros w1 n w2. unfold creature_copper. destruct (coppers w1 !! me); [|done]. by intros [= _ <-]. }
  clear w Hw. intros n w Hw. destruct (n <? i32 cost); [by apply may_ret|].
  apply may_aside; [|done|].
  { unfold AdjustCopper. repeat (apply aside_bind; intros); try by apply aside_modify.
    intros w1 n1 w2. unfold creature_copper. destruct (coppers w1 !! me); [|done]. by intros [= _ <-]. }
  clear w Hw. intros _ w Hw. apply may_store; [done|apply FindClanID_quiet; apply Hw || intros _; apply Hw|].
  clear w Hw. intros z w Hw. destruct (negb (z =? -1)); [by apply may_ret|]. apply may_bind, may_gets.
  apply may_store; [done|apply CreateClan_quiet; [done|apply Hw]|].
  clear w Hw. intros c w Hw. apply may_aside; [by apply aside_modify|done|].
  clear w Hw. intros _ w Hw. apply may_aside; [apply aside_in_buffer|done|].
  clear w Hw. intros b w Hw. apply may_aside; [by apply aside_modify|done|].
  clear w Hw. intros _ w Hw. apply may_aside; [apply aside_to_all|done|].
  clear w Hw. intros _ w Hw. by apply may_ret.
Qed.

(** ** The life of the clans *)

(** A query of a player, or a change of anything but the keys of the clans. *)
Inductive clan_step : W -> W -> Prop :=
| step_query q me sim queryID args reply w w' :
    handleQuery address enabled cost q me sim queryID args w = Some (reply, w') -> clan_step w w'
| step_other w w' : is_connected (store w') = true ->
    (forall k, clan_key k -> contents (store w') !! k = contents (store w) !! k) -> clan_step w w'.

Definition no_clans (w : W) : Prop :=
  is_connected (store w) = true /\ forall k, clan_key k -> contents (store w) !! k = None.

Lemma refused_calm queryID (w w' : W) reply : calm w -> refused queryID w reply w' -> calm w'.
Proof. intros [_ Hq] (why & r & _ & -> & Hr & Hc). apply calm_set_store; [done|]. by rewrite Hc. Qed.

(** Without a character there is no answer. *)
Lemma no_character q me sim queryID args (w : W) : charList w !! me = None -> calm w ->
  may (handleQuery address enabled cost q me sim queryID args) w (fun _ w' => calm w').
Proof.
  intros Hd Hw.
  assert (forall why, may (reply_error queryID why) w (fun _ w' => calm w')) as Hnow by (intros why; by apply may_ret).
  assert (forall B (k : CharacterData -> Act W B) (Q : B -> W -> Prop), may (character me ≫= k) w Q) as Hnone.
  { intros B k Q b w'. unfold character. cbv [mbind Act_bind]. by rewrite Hd. }
  destruct q; cbn [handleQuery];
    unfold ClanDisbandHandler, ClanCreateHandler, ClanInfoHandler, ClanMotdHandler, ClanInviteAcceptHandler, ClanInviteHandler,
      ClanRankHandler, ClanListHandler, ClanRemoveHandler, ClanLeaveHandler, if_clan, with_clan, not_enabled, invalid_query;
    try (destruct (negb enabled); [apply Hnow|]); try (destruct args as [|a args']; [apply Hnow|]); exact (Hnone _ _ _).
Qed.

Lemma query_calm q me sim queryID args (w : W) : calm w ->
  may (handleQuery address enabled cost q me sim queryID args) w (fun _ w' => calm w').
Proof.
  intros Hw. destruct (charList w !! me) as [d|] eqn:Hd; [|by apply no_character].
  destruct (changes_clan q) eqn:Hq.
  - eapply does_may, does_mono; [by eapply query_refused|]. intros reply w'. by apply refused_calm.
  - destruct q; try done; cbn [handleQuery]; [by apply create_calm| |];
      (eapply does_may, does_mono; [by eapply if_clan_none|]); intros reply w' (_ & r & -> & Hr & Hc);
      (apply calm_set_store; [done|]; rewrite Hc; apply Hw).
Qed.

Lemma reachable_calm (w0 w : W) : no_clans w0 -> rtc clan_step w0 w -> calm w.
Proof.
  intros [H0 Hk] Hr. assert (calm w0) as Hw by (split; [done|by apply quiet_empty]).
  clear H0 Hk. induction Hr as [|w1 w2 w3 Hs _ IH]; [done|]. apply IH.
  destruct Hs as [q me sim queryID args reply w1 w2 E|w1 w2 Hc Hk]; [by eapply query_calm|].
  split; [done|]. eapply quiet_ext; [exact Hk|apply Hw].
Qed.

End Founding.

(** ** What is kept of a clan *)

Section Kept.
Context {R : Type} `{Redis R}.

Record kept (c : Clan) (ks : Keyspace) : Prop := mkKept {
  k_index : exists index, entity_ok KEYPREFIX_CLAN (sprintf_d (mId c)) ks index;
  k_values k v : last_value (clan_values c) EmptyString k = Some v ->
    content ks (section_key KEYPREFIX_CLAN (sprintf_d (mId c)) EmptyString) k = Some v;
  k_name : ks !! clan_name_key (mName c) = Some (RedisString (sprintf_d (mId c))) }.

Lemma GetClan_kept c ks (Q : Clan -> Keyspace -> Prop) : kept c ks -> in_unsigned 64 (mCreated c) ->
  Forall in_i32 (mPendingMembers c) -> Q (set_mMembers [] c) ks -> runs (GetClan (mId c)) ks Q.
Proof.
  intros [[index Hi] Hv _] Hc Hp HQ. unfold GetClan. apply runs_bind.
  eapply (ReadClan_runs (mId c) ks index (drop_empty (map member_text (mMembers c))) (drop_empty (map sprintf_d (mPendingMembers c)))); [done| | |].
  - rewrite (Hv "Member"%string (join_items (map member_text (mMembers c)))) by done. by apply list_roundtrip; left.
  - rewrite (Hv "PendingMember"%string (join_items (map sprintf_d (mPendingMembers c)))) by done. by apply list_roundtrip; left.
  - rewrite (Hv "Name"%string (mName c)), (Hv "MOTD"%string (mMOTD c)), (Hv "Created"%string (sprintf_lu (mCreated c))) by done.
    cbn [default from_option id]. rewrite members_unread, pending_read, strtoul_print by done. by apply runs_ret.
Qed.

Lemma FindClanID_kept c ks (Q : Z -> Keyspace -> Prop) : kept c ks -> in_i32 (mId c) -> Q (mId c) ks ->
  runs (FindClanID (mName c)) ks Q.
Proof.
  intros [_ _ Hn] Hid HQ. unfold FindClanID. apply runs_bind. apply GetKey_runs; rewrite Hn; [done| |right; by eexists].
  intros s [= <-]. apply runs_ret. by rewrite atoi_sprintf_d_lemma.
Qed.

Lemma SaveClan_kept c ks index : entity_ok KEYPREFIX_CLAN (sprintf_d (mId c)) ks index ->
  runs (SaveClan c) ks (fun ok ks' => ok = true /\ kept c ks').
Proof.
  intros Hok. eapply runs_mono; [by eapply SaveClan_runs|]. intros ok ks' (-> & Hi & Hv & Hn & _). by split.
Qed.

Lemma CreateClan_kept time c n ks : quiet ks -> counter_at ks ID_NEXT_CLAN_ID n -> 0 <= n < 2 ^ 31 - 1 ->
  mPendingMembers c = [] ->
  runs (CreateClan time c) ks (fun c' ks' => c' = set_mCreated (u64 time) (set_mId (n + 1) c) /\ kept c' ks' /\ quiet ks').
Proof.
  intros Hq Hn Hr Hp. unfold CreateClan. apply runs_bind. eapply NextValue_runs; [done|]. intros ks1 Hk. cbv zeta.
  assert (i32 (n + 1) = n + 1) as -> by (apply signed_id; [lia|unfold in_signed; lia]).
  set (c' := set_mCreated _ _). assert (quiet ks1) as Hq1.
  { apply (quiet_ext ks); [|done]. intros k Hc. apply Hk. by intros ->. }
  destruct (q_entity _ Hq1 (mId c')) as [index Hi]. intros r Hr1 Hc1.
  destruct (SaveClan_kept c' ks1 index Hi r Hr1 Hc1) as (ok & r' & E & Hr' & -> & Hkept).
  destruct (SaveClan_quiet c' ks1 Hp Hq1 r Hr1 Hc1) as (ok & r2 & E2 & _ & Hq').
  rewrite E in E2. injection E2 as <- <-. exists c', r'. rewrite (Act_bind_Some _ _ _ _ _ E). done.
Qed.

(** Messages that fit are sent. *)
Lemma send_each_fits f l (w : World R) : (forall s size b, f s = Some (size, b) -> Z.of_nat (length b) <= size) ->
  exists o, send_each f l w = Some (tt, emit o w).
Proof.
  intros Hf. revert w. induction l as [|s l IH]; intros w; cbn [send_each].
  - exists []. by destruct w; unfold emit; cbn; rewrite app_nil_r.
  - destruct (f s) as [[size b]|] eqn:E.
    + destruct (IH (emit [ToSimulator (InternalID s) b] w)) as [o Ho]. exists (ToSimulator (InternalID s) b :: o).
      cbv [mbind Act_bind in_buffer mret Act_ret modify]. rewrite (proj2 (Z.leb_le _ _) (Hf _ _ _ E)). rewrite Ho.
      unfold emit. cbn. by rewrite <- app_assoc.
    + destruct (IH w) as [o Ho]. by exists o.
Qed.

End Kept.

(** ** Properties *)

Section Properties.
Context {R : Type} `{Redis R}.
Context (address : string -> Z) (enabled : bool) (cost : Z).
Abbreviation W := (World R).

(** C2. Once a clan is founded nothing can be done with it. However the players use the
    queries of the clans, and whatever else changes in the world, every request to disband
    a clan, to set its message, to invite, to accept an invitation, to change a rank, to
    remove a member or to leave is refused and changes neither the store nor a character,
    and the queries that tell of a clan answer without rows. *)
Theorem clans_are_frozen (w0 w : W) (me sim queryID : Z) (args : list string) (q : Request) (d : CharacterData)
    (H0 : no_clans w0) (Hr : rtc (clan_step address enabled cost) w0 w) (Hd : charList w !! me = Some d) (Hq : q <> Create) :
  exists reply w', handleQuery address enabled cost q me sim queryID args w = Some (reply, w') /\
    (if changes_clan q then exists why, reply = PrepExt_QueryResponseError queryID why
     else reply = seal (PutByte 1 ++ PutShort 0 ++ PutInteger queryID ++ PutShort 0)) /\
    charList w' = charList w /\ coppers w' = coppers w /\ sent w' = sent w /\ contents (store w') = contents (store w).
Proof.
  pose proof (reachable_calm address enabled cost w0 w H0 Hr) as Hw. destruct (changes_clan q) eqn:E.
  - destruct (query_refused address enabled cost q me sim queryID args w d E Hw Hd) as (reply & w' & Eq & why & r & -> & -> & _ & Hc).
    eexists _, _. split; [exact Eq|]. by split; [exists why|].
  - destruct q; try done;
      destruct (if_clan_none enabled me queryID
        (fun c => mret [[mName c]; [mMOTD c]; [if (me =? mID (GetFirstMemberOfRank c Rank.LEADER))%Z then "true" else "false"]%string])
        w d Hw Hd) as (reply & w' & Eq & -> & r & -> & _ & Hc);
      destruct (if_clan_none enabled me queryID (fun c => member_rows (mMembers c)) w d Hw Hd) as (reply2 & w2 & Eq2 & -> & r2 & -> & _ & Hc2);
      eexists _, _; (split; [exact Eq || exact Eq2|done]).
Qed.

(** A clan that is saved and loaded again keeps its name, its message, its time and the
    invited players, and loses its members: they are written as [id:rank] and looked for
    between commas. The name leads to the clan. *)
Theorem saved_clan_loses_members (c : Clan) (r : R) (index : list string) (Hr : is_connected r = true)
    (Hok : entity_ok KEYPREFIX_CLAN (sprintf_d (mId c)) (contents r) index) (Hid : in_i32 (mId c))
    (Hc : in_unsigned 64 (mCreated c)) (Hp : Forall in_i32 (mPendingMembers c)) :
  exists r' r1 r2, SaveClan c r = Some (true, r') /\ GetClan (mId c) r' = Some (set_mMembers [] c, r1) /\
    FindClanID (mName c) r' = Some (mId c, r2).
Proof.
  destruct (SaveClan_kept c _ index Hok r Hr eq_refl) as (ok & r' & E & Hr' & -> & Hk).
  destruct (GetClan_kept c _ (fun c' _ => c' = set_mMembers [] c) Hk Hc Hp eq_refl r' Hr' eq_refl) as (c' & r1 & E1 & _ & ->).
  destruct (FindClanID_kept c _ (fun z _ => z = mId c) Hk Hid eq_refl r' Hr' eq_refl) as (z & r2 & E2 & _ & ->).
  by exists r', r1, r2.
Qed.

Lemma send_fits f (w : W) : (forall s size b, f s = Some (size, b) -> Z.of_nat (length b) <= size) ->
  does (to_all f) w (fun _ w' => exists o, w' = emit o w).
Proof. intros Hf. destruct (send_each_fits f (Simulator w) w Hf) as [o E]. exists tt, (emit o w). split; [exact E|by exists o]. Qed.

Lemma length_PutStringUTF name : Z.of_nat (length (PutStringUTF name)) <= Z.of_nat (String.length name) + 3.
Proof.
  rewrite PutStringUTF_length. unfold PutStringReq, strlen. pose proof (cstr_length name). destruct (_ <? 255); lia.
Qed.

Lemma broadcast_fits message (w : W) :
  does (BroadcastMessage (SafeFormat (Z.to_nat AUX2) message)) w (fun _ w' => exists o, w' = emit o w).
Proof.
  apply send_fits. intros s size b. destruct (negb _ && _ && _); [|done]. intros [= <- <-].
  unfold PrepExt_Broadcast. rewrite seal_frame. cbn [length]. rewrite !length_app.
  pose proof (length_PutStringUTF (SafeFormat (Z.to_nat AUX2) message)).
  pose proof (substring_length (Z.to_nat AUX2 - 2) (cstr message)). unfold SafeFormat, AUX2, LOCALBUF in *.
  rewrite PutShort_mod. cbn [length]. unfold PutByte. cbn [length]. lia.
Qed.

Lemma clan_message_fits kind fields (w : W) : Z.of_nat (length fields) + 4 <= SENDBUF ->
  in_buffer SENDBUF (clan_message kind fields) w = Some (clan_message kind fields, w).
Proof.
  intros Hf. unfold in_buffer. rewrite (proj2 (Z.leb_le _ _)); [done|]. unfold clan_message. rewrite seal_frame.
  cbn [length]. rewrite !length_app, PutShort_mod. unfold PutByte. cbn [length]. lia.
Qed.

(** The checks and the payment that come before the name is looked up. *)
Lemma pay_then (w : W) me sim queryID n name args d (Q : list Z -> W -> Prop) :
  charList w !! me = Some d -> clan d <= 0 -> coppers w !! me = Some n -> 0 <= cost < 2 ^ 31 -> cost <= n < 2 ^ 31 ->
  (forall w1, store w1 = store w -> coppers w1 = <[me := n - cost]> (coppers w) -> charList w1 = charList w ->
     clock w1 = clock w -> Simulator w1 = Simulator w -> loadable w1 = loadable w ->
     does (clanID ← on_store (FindClanID name);
           if negb (clanID =? -1) then reply_error queryID "A clan with that name already exists."
           else
             w ← gets id;
             c ← on_store (CreateClan (clock w) (mkClan 0 name EmptyString [mkMember me Rank.LEADER] [] 0));
             _ ← put_clan me (mId c);
             b ← in_buffer SENDBUF (clan_message 9 (PutStringUTF (mName c)));
             _ ← modify (emit [ToSimulator sim b]);
             _ ← BroadcastMessage (SafeFormat (Z.to_nat AUX2)
                   (cstr (display_name d) +:+ " has formed the clan '" +:+ cstr (mName c) +:+ "'."));
             mret (reply_ok queryID)) w1 Q) ->
  does (ClanCreateHandler true cost me sim queryID (name :: args)) w Q.
Proof.
  intros Hd Hc Hn Hcost Henough HQ. unfold ClanCreateHandler. cbn [negb].
  apply does_bind. eapply does_eq; [unfold character; by rewrite Hd|].
  rewrite (proj2 (Z.ltb_ge 0 (clan d)) Hc). apply does_bind. eapply does_eq; [unfold creature_copper; by rewrite Hn|].
  assert (i32 cost = cost) as -> by (apply i32_id; unfold in_signed; lia). rewrite (proj2 (Z.ltb_ge n cost)) by lia.
  assert (i32 (n + i32 (u32 (- cost))) = n - cost) as Hpay.
  { rewrite signed_unsigned, (signed_id 32 (- cost)) by (lia || (unfold in_signed; lia)). apply i32_id. unfold in_signed. lia. }
  apply does_bind. unfold AdjustCopper. apply does_bind. eapply does_eq; [unfold creature_copper; by rewrite Hn|]. cbv zeta.
  rewrite Hpay, (proj2 (Z.ltb_ge (n - cost) 0)) by lia. apply does_bind, does_modify, does_modify. by apply HQ.
Qed.

(** C13. A player who is in no clan and has the copper founds a clan: the copper is taken,
    the clan gets the next number, the name leads to it and the player's character belongs to
    it. What the store then gives of the clan is its name and time without any member, not
    even the founder, and [HasClan] denies that it exists. *)
Theorem create_founds_clan (w0 w : W) (me sim queryID n next : Z) (name : string) (args : list string) (d : CharacterData)
    (H0 : no_clans w0) (Hr : rtc (clan_step address true cost) w0 w) (Hd : charList w !! me = Some d) (Hc : clan d <= 0)
    (Hn : coppers w !! me = Some n) (Hcost : 0 <= cost < 2 ^ 31) (Henough : cost <= n < 2 ^ 31)
    (Hfree : contents (store w) !! clan_name_key name = None)
    (Hnext : counter_at (contents (store w)) ID_NEXT_CLAN_ID next) (Hsmall : 0 <= next < 2 ^ 31 - 1)
    (Hname : Z.of_nat (String.length name) <= 24000) :
  exists w' r1 r2 r3,
    handleQuery address true cost Create me sim queryID (name :: args) w = Some (PrepExt_QueryResponseString queryID "OK", w') /\
    coppers w' = <[me := n - cost]> (coppers w) /\ charList w' !! me = Some (set_clan (next + 1) d) /\
    FindClanID name (store w') = Some (next + 1, r1) /\
    GetClan (next + 1) (store w') = Some (mkClan (next + 1) name EmptyString [] [] (u64 (clock w)), r2) /\
    HasClan (next + 1) (store w') = Some (false, r3).
Proof.
  destruct (reachable_calm address true cost w0 w H0 Hr) as [Hw Hq]. cbn [handleQuery].
  assert (does (ClanCreateHandler true cost me sim queryID (name :: args)) w (fun reply w' =>
    reply = PrepExt_QueryResponseString queryID "OK" /\ coppers w' = <[me := n - cost]> (coppers w) /\
    charList w' !! me = Some (set_clan (next + 1) d) /\ is_connected (store w') = true /\ quiet (contents (store w')) /\
    kept (mkClan (next + 1) name EmptyString [mkMember me Rank.LEADER] [] (u64 (clock w))) (contents (store w')))) as Hdoes.
  { eapply pay_then; [done..|]. intros w1 Hs Hcop Hch Hclock _ _. rewrite <- Hs in Hw, Hq, Hfree, Hnext. rewrite <- Hcop, <- Hclock.
    apply does_bind. eapply (on_store_does _ _ (fun z ks => z = -1 /\ ks = contents (store w1))); [done| |].
    { unfold FindClanID. apply runs_bind, GetKey_runs; rewrite Hfree; [intros _; by apply runs_ret|done|by left]. }
    intros z r Hr1 [-> Hc1]. cbn [Z.eqb negb]. apply does_bind, does_gets. apply does_bind.
    eapply on_store_does; [exact Hr1|cbn [store set_store]; rewrite Hc1; by eapply CreateClan_kept|].
    intros c r' Hr' (-> & Hk & Hq'). cbn [clock set_store]. apply does_bind, does_modify.
    apply does_bind. eapply does_eq; [apply clan_message_fits; cbn [mName set_mId set_mCreated]; pose proof (length_PutStringUTF name); unfold SENDBUF; lia|].
    apply does_bind, does_modify. apply does_bind. eapply does_mono; [apply broadcast_fits|]. intros _ w' [o ->]. apply does_ret.
    cbn [coppers charList store set_store emit set_charList mId set_mId set_mCreated]. rewrite lookup_alter_eq, Hch, Hd. done. }
  destruct Hdoes as (reply & w' & E & -> & Hcop & Hch & Hr' & Hq' & Hk).
  set (c := mkClan _ _ _ _ _ _) in Hk.
  destruct (FindClanID_kept c _ (fun z _ => z = next + 1) Hk ltac:(unfold in_signed; cbn; lia) eq_refl _ Hr' eq_refl) as (z & r1 & E1 & _ & ->).
  destruct (GetClan_kept c _ (fun c' _ => c' = set_mMembers [] c) Hk ltac:(apply unsigned_range; lia) ltac:(constructor) eq_refl _ Hr' eq_refl)
    as (c' & r2 & E2 & _ & ->).
  destruct (HasClan_quiet (next + 1) _ (fun b _ => b = false) Hq' eq_refl _ Hr' eq_refl) as (b & r3 & E3 & _ & ->).
  exists w', r1, r2, r3. done.
Qed.

(** C40. Founding a clan whose name is taken costs as much as founding one: the copper is
    taken before the name is looked up, and the query is then refused. *)
Theorem taken_name_costs (w : W) (me sim queryID n : Z) (name id : string) (args : list string) (d : CharacterData)
    (Hw : is_connected (store w) = true) (Hd : charList w !! me = Some d) (Hc : clan d <= 0)
    (Hn : coppers w !! me = Some n) (Hcost : 0 <= cost < 2 ^ 31) (Henough : cost <= n < 2 ^ 31)
    (Htaken : contents (store w) !! clan_name_key name = Some (RedisString id)) (Hid : atoi id <> -1) :
  exists w', handleQuery address true cost Create me sim queryID (name :: args) w =
      Some (PrepExt_QueryResponseError queryID "A clan with that name already exists.", w') /\
    coppers w' = <[me := n - cost]> (coppers w) /\ charList w' = charList w /\ contents (store w') = contents (store w).
Proof.
  cbn [handleQuery]. assert (does (ClanCreateHandler true cost me sim queryID (name :: args)) w (fun reply w' =>
    reply = PrepExt_QueryResponseError queryID "A clan with that name already exists." /\
    coppers w' = <[me := n - cost]> (coppers w) /\ charList w' = charList w /\ contents (store w') = contents (store w)))
    as (reply & w' & E & -> & Hw'); [|by exists w'].
  eapply pay_then; [done..|]. intros w1 Hs Hcop Hch _ _ _. rewrite <- Hs in Hw, Htaken |- *. apply does_bind.
  eapply (on_store_does _ _ (fun z ks => z <> -1 /\ ks = contents (store w1))); [done| |].
  - unfold FindClanID. apply runs_bind, GetKey_runs; rewrite Htaken; [done| |right; by eexists].
    intros s [= <-]. by apply runs_ret.
  - intros z r Hr [Hz Hks]. rewrite (proj2 (Z.eqb_neq z (-1)) Hz). by apply does_ret.
Qed.

End Properties.

(** ** Ranks *)

(** A rank is changed by an officer or leader of the clan who outranks the member before
    the change and is not outranked by the member after it. *)
Theorem rank_change_rules (me them newRank : Z) (c : Clan) :
  rank_refused me c them newRank = None <->
  mID (GetMember c me) <> 0 /\ mID (GetMember c them) <> 0 /\ mID (GetMember c me) <> mID (GetMember c them) /\
  Rank.OFFICER <= mRank (GetMember c me) /\ mRank (GetMember c them) < mRank (GetMember c me) /\
  Rank.INITIATE <= newRank <= mRank (GetMember c me) /\
  (newRank < Rank.LEADER -> (2 <= length (mMembers c))%nat).
Proof.
  unfold rank_refused, Rank.OFFICER, Rank.INITIATE, Rank.LEADER. rewrite (Nat.ltb_antisym 2).
  destruct (Nat.leb_spec 2 (length (mMembers c))); cbn [negb]; rewrite ?andb_false_r, ?andb_true_r;
    repeat (case_test; to_prop); (split; [done || lia|]); try done; intros; exfalso; lia.
Qed.

(** A member that is updated keeps its place, and no one else's rank changes. *)
Lemma UpdateMember_ranks (c : Clan) (m : ClanMember) (id : Z) : id <> mID m ->
  GetMember (UpdateMember m c) id = GetMember c id.
Proof.
  intros Hid. unfold UpdateMember, GetMember. destruct (find_idx _ (mMembers c)) as [i|] eqn:E; [|done].
  apply find_idx_lookup in E as (x & Hx & Hm%Z.eqb_eq). cbn [mMembers set_mMembers]. f_equal.
  revert i Hx. induction (mMembers c) as [|y l IH]; intros [|i] Hx; try done; cbn.
  - injection Hx as ->. rewrite Hm. by rewrite (proj2 (Z.eqb_neq (mID m) id)) by congruence.
  - destruct (mID y =? id); [done|by apply IH].
Qed.

Lemma GetMember_in c id : mID (GetMember c id) <> 0 -> mID (GetMember c id) = id /\ GetMember c id ∈ mMembers c.
Proof.
  unfold GetMember. destruct (List.find _ (mMembers c)) as [m|] eqn:E; [|done]. intros _.
  apply List.find_some in E as [Hin Hm%Z.eqb_eq]. by split; [|apply list_elem_of_In].
Qed.

(** ** Examples *)

Definition example_world : World Keyspace :=
  mkWorld ∅ 5000 1000 {[1 := mkCharacter 0 0 "Anubia" 10 2 0]} ∅ {[1 := 150000]} [mkSimulator 4 true 1 1 true] 0 [].

Definition example_query (q : Request) (args : list string) : World Keyspace -> option (list Z * World Keyspace) :=
  handleQuery (fun _ => 7) true 100000 q 1 4 9 args.

Definition founded_world : World Keyspace :=
  match example_query Create ["Wolves"%string] example_world with Some (_, w) => w | None => example_world end.

Lemma example_no_clans : no_clans example_world.
Proof. by split. Qed.

Lemma founded_reached : rtc (clan_step (fun _ => 7) true 100000) example_world founded_world.
Proof.
  eapply rtc_once, (step_query _ _ _ Create 1 4 9 ["Wolves"%string] (PrepExt_QueryResponseString 9 "OK")). by vm_compute.
Defined.

Lemma clans_are_frozen_witness :
  clan <$> charList founded_world !! 1 = Some 1 /\
  exists reply w', example_query Disband [] founded_world = Some (reply, w') /\ contents (store w') = contents (store founded_world).
Proof.
  split; [by vm_compute|].
  destruct (clans_are_frozen (H := Keyspace_redis) (fun _ => 7) true 100000 example_world founded_world 1 4 9 [] Disband
    (mkCharacter 1 1 "Anubia" 10 2 0) example_no_clans founded_reached ltac:(by vm_compute) ltac:(done))
    as (reply & w' & E & _ & _ & _ & _ & Hc).
  exists reply, w'. exact (conj E Hc).
Defined.

Lemma create_founds_clan_witness : exists w' r2,
  example_query Create ["Wolves"%string] example_world = Some (PrepExt_QueryResponseString 9 "OK", w') /\
  GetClan 1 (store w') = Some (mkClan 1 "Wolves" EmptyString [] [] 1000, r2).
Proof.
  destruct (create_founds_clan (H := Keyspace_redis) (fun _ => 7) 100000 example_world example_world 1 4 9 150000 0 "Wolves" []
    (mkCharacter 0 0 "Anubia" 10 2 0) example_no_clans (rtc_refl _ _) ltac:(by vm_compute) ltac:(done) ltac:(by vm_compute)
    ltac:(lia) ltac:(lia) ltac:(by vm_compute) ltac:(by vm_compute) ltac:(lia) ltac:(by vm_compute))
    as (w' & r1 & r2 & r3 & E & _ & _ & _ & E2 & _).
  exists w', r2. exact (conj E E2).
Defined.

(** A second player takes the name again. *)
Lemma taken_name_costs_witness : exists w',
  handleQuery (fun _ => 7) true 100000 Create 2 4 9 ["Wolves"%string]
    (set_copper 2 100000 (set_charList (<[2 := mkCharacter 0 0 "Bast" 9 1 0]> (charList founded_world)) founded_world)) =
    Some (PrepExt_QueryResponseError 9 "A clan with that name already exists.", w') /\ coppers w' !! 2 = Some 0.
Proof.
  set (w := set_copper _ _ _).
  destruct (taken_name_costs (H := Keyspace_redis) (fun _ => 7) 100000 w 2 4 9 100000 "Wolves" "1" []
    (mkCharacter 0 0 "Bast" 9 1 0) eq_refl ltac:(by vm_compute) ltac:(done) ltac:(by vm_compute) ltac:(lia) ltac:(lia)
    ltac:(by vm_compute) ltac:(by vm_compute)) as (w' & E & Hc & _).
  exists w'. split; [exact E|]. by rewrite Hc, lookup_insert_eq.
Defined.
