(* ===== verification/Crafting.v ===== *)
(** * Crafting: recipes and the query that applies them

    Models [src/SOURCE/Server/Crafting.h], [Crafting.cpp] without the loading of the
    file, and the handler of [mod.craft] in [query/ItemHandlers.cpp]. A condition or an
    action of a recipe is a text with arguments between commas. A result [None] is
    undefined behaviour: a null pointer given to [strcmp], an index past the end, a
    division by zero.

    The input slots of the players always have an item definition, the outputs never; the
    two uses of [CraftInputSlot] are two records. *)

From S2P Require Import Prelude StdSort ByteBuffer Messages Text Items Inventory.

(** ** Recipes *)

Record CraftRecipe := mkRecipe {
  mDesc : string; mInputCount : Z; mOutputCount : Z; mConditions : list string; mActions : list string }.

Record CraftInputSlot := mkInput { in_CCSID : Z; in_ID : Z; in_StackCount : Z; in_ItemDef : ItemDef }.

Record CraftOutput := mkOutput { out_ID : Z; out_StackCount : Z }.

Definition GetOutputCount (r : CraftRecipe) : Z := i32 (mOutputCount r).
Definition GetName (r : CraftRecipe) : string := mDesc r.

(** The first condition that asks for an item: its argument is not looked at. *)
Fixpoint required_count (conditions : list string) : option Z :=
  match conditions with
  | [] => Some 0
  | c :: l =>
      let args := Split c "," in
      if (length args <=? 2)%nat then required_count l
      else if String.eqb (nth 1 args EmptyString) "requireid" then atoi <$> args !! 3%nat
      else required_count l
  end.

Definition GetRequiredItemCount (r : CraftRecipe) (itemID : Z) : option Z := required_count (mConditions r).

Definition GetRequiredItems (r : CraftRecipe) (requiredItems : list Z) : list Z :=
  requiredItems ++ flat_map (fun c =>
    match Split c "," with
    | _ :: op :: a :: _ => if String.eqb op "requireid" then [atoi a] else []
    | _ => []
    end) (mConditions r).

(** By type, then by identifier. *)
Definition SortComparator (lhs rhs : CraftInputSlot) : bool :=
  if mType (in_ItemDef lhs) <? mType (in_ItemDef rhs) then true
  else if mType (in_ItemDef lhs) =? mType (in_ItemDef rhs) then mID (in_ItemDef lhs) <? mID (in_ItemDef rhs)
  else false.

Definition GetIntParam (strVector : list string) (index : nat) : Z :=
  match strVector !! index with Some s => atoi s | None => 0 end.
Definition GetStringParam (strVector : list string) (index : nat) : option string := strVector !! index.

(** ** Conditions *)

Inductive Comparator :=
| CMP_NONE | CMP_EQUAL | CMP_NOTEQUAL | CMP_LESS | CMP_LESSOREQUAL | CMP_GREATER | CMP_GREATEROREQUAL.

Definition symbols : list (string * Comparator) :=
  [("=", CMP_EQUAL); ("!=", CMP_NOTEQUAL); ("<", CMP_LESS); ("<=", CMP_LESSOREQUAL); (">", CMP_GREATER);
   (">=", CMP_GREATEROREQUAL)]%string.

Definition GetComparator (symbol : string) : Comparator :=
  match List.find (fun s => String.eqb symbol s.1) symbols with Some s => s.2 | None => CMP_NONE end.

Definition INVALID_PROPERTY : Z := -1.

Definition GetProperty (object : CraftInputSlot) (propertyName : string) : Z :=
  let d := in_ItemDef object in
  if String.eqb propertyName "level" then mLevel d
  else if String.eqb propertyName "quality" then mQualityLevel d
  else if String.eqb propertyName "type" then mType d
  else if String.eqb propertyName "weapontype" then mWeaponType d
  else if String.eqb propertyName "armortype" then mArmorType d
  else if String.eqb propertyName "equiptype" then mEquipType d
  else INVALID_PROPERTY.

Definition Compare (leftValue : Z) (compareOp : Comparator) (rightValue : Z) : bool :=
  match compareOp with
  | CMP_EQUAL => leftValue =? rightValue
  | CMP_NOTEQUAL => negb (leftValue =? rightValue)
  | CMP_LESS => leftValue <? rightValue
  | CMP_LESSOREQUAL => leftValue <=? rightValue
  | CMP_GREATER => rightValue <? leftValue
  | CMP_GREATEROREQUAL => rightValue <=? leftValue
  | CMP_NONE => false
  end.

(** What the loop over the conditions does with one of them: leave with [false], count it
    or go on without counting it. *)
Inductive Outcome := Refused | Passed | Ignored.

Definition passes (b : bool) : option Outcome := Some (if b then Passed else Refused).

Definition check_requireid (args : list string) (slot : CraftInputSlot) : option Outcome :=
  let itemCount := GetIntParam args 3 in
  passes ((in_ID slot =? GetIntParam args 2) && negb ((0 <=? itemCount) && negb (in_StackCount slot =? itemCount))).

Definition check_requireidxmult (args : list string) (inputItems : list CraftInputSlot) (slot : CraftInputSlot)
    : option Outcome :=
  let checkIndex := GetIntParam args 3 in
  let mult := Z.max 1 (GetIntParam args 4) in
  if negb (in_ID slot =? GetIntParam args 2) then Some Refused
  else if (checkIndex <? 0) || (Z.of_nat (length inputItems) <=? checkIndex) then Some Refused
  else
    other ← inputItems !! Z.to_nat checkIndex;
    passes (in_StackCount slot =? i32 (in_StackCount other * mult)).

(** [stack % 0] is undefined. *)
Definition check_requireidmult (args : list string) (slot : CraftInputSlot) : option Outcome :=
  let itemCount := GetIntParam args 3 in
  if negb (in_ID slot =? GetIntParam args 2) then Some Refused
  else if itemCount =? 0 then None
  else passes (Z.rem (in_StackCount slot) itemCount =? 0).

Definition check_cmp (args : list string) (slot : CraftInputSlot) : option Outcome :=
  name ← GetStringParam args 2;
  let leftValue := GetProperty slot name in
  if leftValue =? INVALID_PROPERTY then Some Refused
  else
    symbol ← GetStringParam args 3;
    passes (Compare leftValue (GetComparator symbol) (GetIntParam args 4)).

Definition check_one (inputItems : list CraftInputSlot) (condition : string) : option Outcome :=
  let args := Split condition "," in
  if (length args <=? 2)%nat then Some Ignored
  else
    let itemIndex := GetIntParam args 0 in
    if (itemIndex <? 0) || (Z.of_nat (length inputItems) <=? itemIndex) then Some Refused
    else
      slot ← inputItems !! Z.to_nat itemIndex;
      op ← GetStringParam args 1;
      if String.eqb op "requireid" then check_requireid args slot
      else if String.eqb op "requireidxmult" then check_requireidxmult args inputItems slot
      else if String.eqb op "requireidmult" then check_requireidmult args slot
      else if String.eqb op "itemtype" then passes (mType (in_ItemDef slot) =? GetIntParam args 2)
      else if String.eqb op "quality" then passes (mQualityLevel (in_ItemDef slot) =? GetIntParam args 2)
      else if String.eqb op "cmp" then check_cmp args slot
      else Some Ignored.

(** [None] in the result: the loop left with [false]. *)
Fixpoint check_loop (inputItems : list CraftInputSlot) (conditions : list string) (passed : nat) : option (option nat) :=
  match conditions with
  | [] => Some (Some passed)
  | c :: l =>
      o ← check_one inputItems c;
      match o with
      | Refused => Some None
      | Passed => check_loop inputItems l (S passed)
      | Ignored => check_loop inputItems l passed
      end
  end.

Definition CheckCondition (conditions : list string) (inputItems : list CraftInputSlot) : option bool :=
  r ← check_loop inputItems conditions 0;
  Some (match r with Some passed => (passed =? length conditions)%nat | None => false end).

(** ** The manager *)

Section Manager.
Context `{!StdSort CraftInputSlot} (mRecipes : list CraftRecipe).

Definition SortInputs (inputItems : list CraftInputSlot) : list CraftInputSlot := std_sort SortComparator inputItems.

Fixpoint find_recipe (recipes : list CraftRecipe) (inputItems : list CraftInputSlot) : option (option CraftRecipe) :=
  match recipes with
  | [] => Some None
  | r :: l =>
      if negb (mInputCount r =? Z.of_nat (length inputItems)) then find_recipe l inputItems
      else
        ok ← CheckCondition (mConditions r) inputItems;
        if (ok : bool) then Some (Some r) else find_recipe l inputItems
  end.

(** The inputs are sorted in place. *)
Definition GetRecipe (inputItems : list CraftInputSlot) : option (option CraftRecipe * list CraftInputSlot) :=
  let sorted := SortInputs inputItems in
  r ← find_recipe mRecipes sorted; Some (r, sorted).

Definition gives (resultItemID : Z) (action : string) : bool :=
  match Split action "," with
  | op :: args => String.eqb op "giveid" && (GetIntParam args 0 =? resultItemID)
  | [] => false
  end.

Definition GetFirstRecipeForResult (resultItemID : Z) : option CraftRecipe :=
  List.find (fun r => existsb (gives resultItemID) (mActions r)) mRecipes.

(** The input an action counts by; a negative index is a large [size_t]. *)
Definition checked_input (inputItems : list CraftInputSlot) (checkIndex : Z) : option CraftInputSlot :=
  if (checkIndex <? 0) || (Z.of_nat (length inputItems) <=? checkIndex) then None else inputItems !! Z.to_nat checkIndex.

Definition run_action (inputItems : list CraftInputSlot) (action : string) : list CraftOutput :=
  let args := Split action "," in
  let op := nth 0 args EmptyString in
  let itemID := GetIntParam args 1 in
  if String.eqb op "giveid" then
    let itemCount := GetIntParam args 2 in
    [mkOutput itemID (if itemCount <=? 0 then 1 else itemCount)]
  else if String.eqb op "giveidxmult" then
    match checked_input inputItems (GetIntParam args 2) with
    | Some slot => [mkOutput itemID (i32 (in_StackCount slot * Z.max 1 (GetIntParam args 3)))]
    | None => []
    end
  else if String.eqb op "giveidxdiv" then
    match checked_input inputItems (GetIntParam args 2) with
    | Some slot =>
        let count := Z.quot (in_StackCount slot) (Z.max 1 (GetIntParam args 3)) in
        if 0 <? count then [mkOutput itemID count] else []
    | None => []
    end
  else [].

Definition GenerateOutputs (recipe : CraftRecipe) (inputItems : list CraftInputSlot) (outputItems : list CraftOutput)
    : list CraftOutput := outputItems ++ flat_map (run_action inputItems) (mActions recipe).

(** Whether there are outputs, the sorted inputs and the outputs. *)
Definition RunRecipe (recipe : option CraftRecipe) (inputItems : list CraftInputSlot) (outputItems : list CraftOutput)
    : option (bool * list CraftInputSlot * list CraftOutput) :=
  let sorted := SortInputs inputItems in
  found ← match recipe with
          | Some r => Some (Some r, sorted)
          | None => GetRecipe sorted
          end;
  let '(r, sorted') := (found : option CraftRecipe * list CraftInputSlot) in
  match r with
  | None => Some (false, sorted', outputItems)
  | Some r =>
      let outputs := GenerateOutputs r sorted' outputItems in
      Some ((0 <? length outputs)%nat, sorted', outputs)
  end.

End Manager.

(** ** The query [mod.craft] *)

Inductive Output :=
| Packet (buffer : list Z)
| Activate (IID : Z)               (* ActivateActionAbilities *)
| Destroyed (itemID : Z).          (* NotifyDestroy *)

(** The inventory of the player, the changes of the character and what happened. *)
Record Bench := mkBench { inv : InventoryManager; pendingChanges : Z; out : list Output }.

Definition set_inv (m : InventoryManager) (b : Bench) : Bench := mkBench m (pendingChanges b) (out b).
Definition add_pending (b : Bench) : Bench := mkBench (inv b) (i32 (pendingChanges b + 1)) (out b).
Definition emit (o : list Output) (b : Bench) : Bench := mkBench (inv b) (pendingChanges b) (out b ++ o).

Definition PORTABLE_CRAFTKIT : Z := 5.
Definition NOCRAFT : Z := -30.

(** An error code, or the packet of the reply. *)
Definition Reply : Type := Z + list Z.

Section Query.
Context {db : ItemDb} `{!StdSort CraftInputSlot} (mRecipes : list CraftRecipe).
(** [protected_CheckDistance]: 0 when the object is near. *)
Context (g_ServerTime : Z) (CreatureID : Z) (CheckDistance : Z -> Z) (queryID : Z).

Definition reply_error (message : string) : Reply := inr (PrepExt_QueryResponseError queryID message).

(** The slots that are named and hold an item that exists; a container that does not
    exist is read past the end of the array. *)
Fixpoint resolve_inputs (m : InventoryManager) (args : list string) : option (list CraftInputSlot) :=
  match args with
  | [] => Some []
  | a :: l =>
      let ccsid := GetCCSIDFromHexID (Some a) in
      if MAXCONTAINER <=? container_of ccsid then None
      else
        rest ← resolve_inputs m l;
        Some (match p ← GetItemPtrByCCSID m ccsid; slot ← deref m p; d ← item_of (IID slot); Some (slot, d) with
              | Some (slot, d) => mkInput ccsid (IID slot) (GetStackCount slot) d :: rest
              | None => rest
              end)
  end.

Definition one_or (n : Z) (one many : string) : string := if n =? 1 then one else many.

(** Whether all outputs exist, and whether one is a bound book. *)
Fixpoint verify_outputs (outputs : list CraftOutput) (book : bool) : bool * bool :=
  match outputs with
  | [] => (true, book)
  | o :: l =>
      match item_of (out_ID o) with
      | None => (false, book)
      | Some d => verify_outputs l (book || ((GetDynamicMax d ItemIntegerType.BOOK_PAGE =? -1) && (0 <? GetDynamicMax d ItemIntegerType.BOOK)))
      end
  end.

(** The device that is used: an error code, or the crafting kit and whether it is used up. *)
Definition find_device (m : InventoryManager) (book : bool) (creatureID : Z) : Z + option ((Z * nat) * bool) :=
  if creatureID =? CreatureID then
    if book then inr None
    else
      match GetBestSpecialItem m (GetContainerIDFromName "inv") PORTABLE_CRAFTKIT with
      | None => inl NOCRAFT
      | Some p =>
          match slot ← deref m p; d ← item_of (IID slot); Some (slot, d) with
          | None => inl NOCRAFT
          | Some (slot, d) =>
              inr (Some (p, (1 <=? GetDynamicMax d ItemIntegerType.STACKING) && (0 <? GetStackCount slot)))
          end
      end
  else
    let distCheck := CheckDistance creatureID in
    if distCheck =? 0 then inr None else inl distCheck.

Definition obtained (o : CraftOutput) (d : ItemDef) : string :=
  "Obtained " +:+ sprintf_d (out_StackCount o) +:+ " " +:+ mDisplayName d.

(** An output that does not fit is lost. *)
Fixpoint give_outputs (outputs : list CraftOutput) (b : Bench) (msgs : list string) : option (Bench * list string) :=
  match outputs with
  | [] => Some (b, msgs)
  | o :: l =>
      match AddItem_Ex g_ServerTime (inv b) INV_CONTAINER (out_ID o) (out_StackCount o) with
      | (None, m) => give_outputs l (set_inv m b) msgs
      | (Some i, m) =>
          d ← item_of (out_ID o);
          slot ← cont m INV_CONTAINER !! i;
          give_outputs l (emit [Activate (IID slot); Packet (Global.AddItemUpdate g_ServerTime slot)] (add_pending (set_inv m b)))
            (msgs ++ [obtained o d])
      end
  end.

(** The message that an item is gone: the server's own slot stays. *)
Definition announce_removal (slot : InventorySlot) : list Output * list Z :=
  (if GetStackCount slot =? 1 then [Destroyed (IID slot)] else [], Global.RemoveItemUpdate slot).

Definition use_device (device : option ((Z * nat) * bool)) (b : Bench) : option (Bench * list Z) :=
  match device with
  | Some (p, true) =>
      slot ← deref (inv b) p;
      let '(o, bytes) := announce_removal slot in Some (emit o b, bytes)
  | _ => Some (b, [])
  end.

Fixpoint remove_inputs (inputs : list CraftInputSlot) (b : Bench) (bytes : list Z) : Bench * list Z :=
  match inputs with
  | [] => (b, bytes)
  | i :: l =>
      let '(o, more) := match p ← GetItemPtrByCCSID (inv b) (in_CCSID i); deref (inv b) p with
                        | Some slot => announce_removal slot
                        | None => ([], [])
                        end in
      remove_inputs l (add_pending (set_inv (snd (RemItem (inv b) (in_CCSID i))) (emit o b))) (bytes ++ more)
  end.

Definition send (bytes : list Z) (b : Bench) : Bench := emit [Packet bytes] b.

Definition craft_done (msgs : list string) : list Z :=
  (if (0 <? length msgs)%nat then PrepExt_SendInfoMessage "Successful craft!" INFOMSG_INFO else []) ++
  concat (map (fun m => PrepExt_SendInfoMessage m INFOMSG_INFO) msgs).

(** The reply of every craft, successful or not. *)
Definition craft_reply : Reply := inr (PrepExt_QueryResponseString queryID "OK").

Definition unable (b : Bench) : Reply * Bench := (craft_reply, send (PrepExt_Info "Unable to craft." INFOMSG_INFO) b).

(** The exchange of the inputs for the outputs. *)
Definition exchange (device : option ((Z * nat) * bool)) (inputs : list CraftInputSlot) (outputs : list CraftOutput) (b : Bench)
    : option (Reply * Bench) :=
  given ← give_outputs outputs b [];
  let '(b1, msgs) := (given : Bench * list string) in
  used ← use_device device b1;
  let '(b2, bytes) := (used : Bench * list Z) in
  let '(b3, bytes') := remove_inputs inputs b2 bytes in
  let b4 := if (0 <? length bytes')%nat then send bytes' b3 else b3 in
  Some (craft_reply, send (craft_done msgs) b4).

Definition ModCraftHandler (args : list string) (b : Bench) : option (Reply * Bench) :=
  match args with
  | [] => None
  | creature :: slots =>
      let creatureID := i32 (strtol creature 10) in
      inputs ← resolve_inputs (inv b) slots;
      if (length inputs =? 0)%nat then Some (reply_error "You must provide some input items.", b)
      else
        got ← GetRecipe mRecipes inputs;
        let '(found, sorted) := (got : option CraftRecipe * list CraftInputSlot) in
        match found with
        | None =>
            Some (reply_error (one_or (Z.of_nat (length sorted)) "That item does" "Those items do" +:+ " not match a known combination."), b)
        | Some recipe =>
            let requiredSlots := GetOutputCount recipe in
            if CountFreeSlots (inv b) INV_CONTAINER <? requiredSlots then
              Some (reply_error ("You must have " +:+ sprintf_d requiredSlots +:+ " empty inventory " +:+
                                 one_or requiredSlots "slot" "slots" +:+ "."), b)
            else
              ran ← RunRecipe mRecipes (Some recipe) sorted [];
              let '(ok, sorted', outputs) := (ran : bool * list CraftInputSlot * list CraftOutput) in
              let '(verified, book) := verify_outputs outputs false in
              if ok && verified then
                match find_device (inv b) book creatureID with
                | inl code => Some (inl code, b)
                | inr device => exchange device sorted' outputs b
                end
              else Some (unable b)
        end
  end.

End Query.
