(* ===== verification/CraftingFacts.v ===== *)
(** * CraftingFacts: theorems on recipes and on the query that applies them

    A recipe applies when each of its conditions passes ([CheckCondition_spec]), and which
    one is found does not depend on the order in which the items are named
    ([GetRecipe_order_free]). The inventory is seen as a map from identifiers to slots
    ([slot_at]), through which a craft is shown to exchange the inputs for the outputs and
    nothing else ([craft_exchanges]). *)

From stdpp Require Import sorting.
From S2P Require Import Prelude StdSort ByteBuffer Messages Text Items Inventory InventoryStock Crafting.

(** ** Conditions *)

Definition passed_one (inputs : list CraftInputSlot) (c : string) : bool :=
  match check_one inputs c with Some Passed => true | _ => false end.

(** No condition of the list is undefined behaviour for these inputs. *)
Definition clear (inputs : list CraftInputSlot) (conditions : list string) : Prop :=
  Forall (fun c => check_one inputs c <> None) conditions.

Lemma check_loop_passed inputs conditions : forall n k,
  check_loop inputs conditions n = Some (Some k) ->
  (k <= n + length conditions)%nat /\ ((k = n + length conditions)%nat -> forallb (passed_one inputs) conditions = true).
Proof.
  induction conditions as [|c l IH]; intros n k; simpl; [intros [= ->]; split; [lia|done]|].
  unfold passed_one at 1. destruct (check_one inputs c) as [[]|]; simpl; [done| |..|done].
  - intros [H1 H2]%IH. split; [lia|]. intros E. apply H2. lia.
  - intros [H1 H2]%IH. split; [lia|]. intros E. lia.
Qed.

Lemma check_loop_all inputs conditions n :
  forallb (passed_one inputs) conditions = true -> check_loop inputs conditions n = Some (Some (n + length conditions)%nat).
Proof.
  revert n. induction conditions as [|c l IH]; intros n; simpl; [by rewrite Nat.add_0_r|].
  unfold passed_one at 1. destruct (check_one inputs c) as [[]|]; simpl; try done.
  intros H. rewrite (IH _ H). do 2 f_equal. lia.
Qed.

Lemma check_loop_clear inputs conditions n : clear inputs conditions -> check_loop inputs conditions n <> None.
Proof.
  intros H. revert n. induction H as [|c l Hc _ IH]; intros n; simpl; [done|].
  destruct (check_one inputs c) as [[]|]; simpl; done.
Qed.

Lemma CheckCondition_true conditions inputs :
  CheckCondition conditions inputs = Some true <-> forallb (passed_one inputs) conditions = true.
Proof.
  unfold CheckCondition. split.
  - destruct (check_loop _ _ _) as [[k|]|] eqn:E; simpl; [|done..]. intros [= ->%Nat.eqb_eq].
    by apply check_loop_passed in E as [_ E]; apply E.
  - intros H. rewrite (check_loop_all _ _ _ H). simpl. by rewrite Nat.eqb_refl.
Qed.

Lemma CheckCondition_spec conditions inputs :
  clear inputs conditions -> CheckCondition conditions inputs = Some (forallb (passed_one inputs) conditions).
Proof.
  intros H. destruct (forallb _ _) eqn:E; [by apply CheckCondition_true|].
  destruct (CheckCondition conditions inputs) as [[]|] eqn:F; [|done|].
  - apply CheckCondition_true in F. congruence.
  - unfold CheckCondition in F. destruct (check_loop _ _ _) eqn:G; [done|]. by apply check_loop_clear in G.
Qed.

(** ** The recipe *)

Definition applies (inputs : list CraftInputSlot) (r : CraftRecipe) : bool :=
  (mInputCount r =? Z.of_nat (length inputs)) && forallb (passed_one inputs) (mConditions r).

Lemma find_recipe_applies recipes inputs r :
  find_recipe recipes inputs = Some (Some r) -> r ∈ recipes /\ applies inputs r = true.
Proof.
  unfold applies. induction recipes as [|r' l IH]; simpl; [done|].
  destruct (mInputCount r' =? _) eqn:E; simpl; [|intros [H1 H2]%IH; split; [by right|done]].
  destruct (CheckCondition _ _) as [[]|] eqn:F; simpl; [|intros [H1 H2]%IH; split; [by right|done]|done].
  intros [= <-]. rewrite E. split; [by left|]. by apply CheckCondition_true in F.
Qed.

Lemma find_recipe_spec recipes inputs :
  Forall (fun r => clear inputs (mConditions r)) recipes -> find_recipe recipes inputs = Some (List.find (applies inputs) recipes).
Proof.
  unfold applies. induction 1 as [|r l Hr _ IH]; simpl; [done|]. destruct (mInputCount r =? _); simpl; [|done].
  rewrite CheckCondition_spec by done. by destruct (forallb _ _).
Qed.

(** ** The order of the inputs *)

Lemma SortComparator_true a b :
  SortComparator a b = true <->
  mType (in_ItemDef a) < mType (in_ItemDef b) \/
  (mType (in_ItemDef a) = mType (in_ItemDef b) /\ mID (in_ItemDef a) < mID (in_ItemDef b)).
Proof.
  unfold SortComparator.
  destruct (Z.ltb_spec (mType (in_ItemDef a)) (mType (in_ItemDef b))); [intuition lia|].
  destruct (Z.eqb_spec (mType (in_ItemDef a)) (mType (in_ItemDef b))); [rewrite Z.ltb_lt; intuition lia|].
  split; [done|intuition lia].
Qed.

Lemma SortComparator_weak : strict_weak SortComparator.
Proof.
  split.
  - intros a b Ha. destruct (SortComparator b a) eqn:E; [|done]. rewrite SortComparator_true in Ha, E. lia.
  - intros a b c. rewrite !SortComparator_true. lia.
Qed.

Lemma SortComparator_tie a b :
  SortComparator a b = false -> SortComparator b a = false -> mID (in_ItemDef a) = mID (in_ItemDef b).
Proof.
  intros H1 H2. destruct (Z.lt_trichotomy (mID (in_ItemDef a)) (mID (in_ItemDef b))) as [H|[H|H]]; [|done|].
  all: destruct (Z.lt_trichotomy (mType (in_ItemDef a)) (mType (in_ItemDef b))) as [T|[T|T]].
  all: first [exfalso; rewrite <- not_true_iff_false, SortComparator_true in H1, H2; lia].
Qed.

Lemma NoDup_key_inj {A} (f : A -> Z) (l : list A) x y : NoDup (f <$> l) -> x ∈ l -> y ∈ l -> f x = f y -> x = y.
Proof.
  intros Hnd (i & Hi)%list_elem_of_lookup (j & Hj)%list_elem_of_lookup E.
  assert (i = j) as ->; [|congruence].
  eapply (NoDup_lookup (f <$> l) i j (f x)); [done|..]; rewrite list_lookup_fmap; [by rewrite Hi|by rewrite Hj, E].
Qed.

Section Order.
Context `{!StdSort CraftInputSlot}.

Lemma SortInputs_perm l : SortInputs l ≡ₚ l.
Proof. apply std_sort_perm, SortComparator_weak. Qed.

Lemma SortInputs_unique l1 l2 :
  l1 ≡ₚ l2 -> NoDup ((fun i => mID (in_ItemDef i)) <$> l1) -> SortInputs l1 = SortInputs l2.
Proof.
  intros Hp Hnd. apply (StronglySorted_unique_strong (fun a b => SortComparator b a = false)).
  - intros x y Hx Hy H1 H2. rewrite SortInputs_perm in Hx, Hy. rewrite <- Hp in Hy.
    by apply (NoDup_key_inj _ _ x y Hnd); [..|apply SortComparator_tie].
  - apply std_sort_sorted, SortComparator_weak.
  - apply std_sort_sorted, SortComparator_weak.
  - by rewrite !SortInputs_perm.
Qed.

End Order.

(** ** The inventory as a map from identifiers to slots *)

Definition slot_at (m : InventoryManager) (k : Z) : option InventorySlot := p ← GetItemPtrByCCSID m k; deref m p.

Lemma slot_at_spec m k s : Inv_wf m -> slot_at m k = Some s <-> CCSID s = k /\ s ∈ cont m (container_of k).
Proof.
  intros Hwf. unfold slot_at, GetItemPtrByCCSID, deref.
  destruct (find_idx _ _) as [i|] eqn:E; simpl.
  - destruct (find_idx_lookup _ _ _ E) as (x & Hx & Hk). to_prop. rewrite Hx. split.
    + intros [= ->]. split; [done|]. by eapply list_elem_of_lookup_2.
    + intros [Hs Hin]. f_equal. apply (NoDup_key_inj CCSID (cont m (container_of k))); [apply Hwf| |done|congruence].
      by eapply list_elem_of_lookup_2.
  - apply find_idx_None in E. rewrite list.Forall_forall in E. split; [done|]. intros [Hs Hin].
    apply E in Hin. to_prop. done.
Qed.

Lemma RemItem_None m k : slot_at m k = None -> snd (RemItem m k) = m.
Proof.
  unfold slot_at, GetItemPtrByCCSID, deref, RemItem. destruct (find_idx _ _) as [i|] eqn:E; [|done].
  destruct (find_idx_lookup _ _ _ E) as (x & Hx & _). simpl. by rewrite Hx.
Qed.

Lemma RemItem_Some m k s :
  slot_at m k = Some s -> exists i, cont m (container_of k) !! i = Some s /\ snd (RemItem m k) = erase_slot m (container_of k) i.
Proof.
  unfold slot_at, GetItemPtrByCCSID, deref, RemItem. destruct (find_idx _ _) as [i|] eqn:E; [|done].
  simpl. intros H. by exists i.
Qed.

Lemma elem_delete_other {A} (l : list A) i x y : l !! i = Some x -> y ∈ l -> y <> x -> y ∈ delete i l.
Proof. intros Hi Hy Hne. rewrite (delete_Permutation _ _ _ Hi) in Hy. by apply elem_of_cons in Hy as [->|]. Qed.

Lemma RemItem_wf m k : Inv_wf m -> Inv_wf (snd (RemItem m k)).
Proof.
  intros Hwf. destruct (slot_at m k) as [s|] eqn:E; [|by rewrite RemItem_None].
  apply RemItem_Some in E as (i & _ & ->). by apply wf_erase_slot.
Qed.

Lemma slot_at_RemItem m k k' : Inv_wf m -> slot_at (snd (RemItem m k)) k' = if decide (k' = k) then None else slot_at m k'.
Proof.
  intros Hwf. pose proof (RemItem_wf m k Hwf) as Hwf'.
  destruct (slot_at m k) as [s|] eqn:E.
  2:{ rewrite RemItem_None by done. destruct (decide (k' = k)) as [->|]; done. }
  pose proof E as [Hk Hin]%(slot_at_spec _ _ _ Hwf). apply RemItem_Some in E as (i & Hi & Hm).
  assert (slot_at (snd (RemItem m k)) k = None) as Hnone.
  { destruct (slot_at _ k) as [t|] eqn:F; [|done]. exfalso. rewrite Hm in Hwf', F.
    apply slot_at_spec in F as [Ht Hint]; [|done].
    pose proof (wf_nodup _ Hwf (container_of k)) as Hnd.
    rewrite (delete_Permutation _ _ _ Hi), fmap_cons in Hnd. apply list.NoDup_cons in Hnd as [Hnot _].
    apply Hnot. unfold erase_slot in Hint. rewrite cont_set_cont in Hint by eauto using wf_shaped, cont_lookup_valid.
    replace (CCSID s) with (CCSID t) by congruence. by apply list_elem_of_fmap_2. }
  destruct (decide (k' = k)) as [->|Hne]; [done|]. rewrite Hm in Hwf' |- *.
  apply option_eq. intros t. rewrite !slot_at_spec by done.
  split; intros [Ht Hint]; (split; [done|]).
  - eapply elem_erase_slot; [apply Hwf|done].
  - unfold erase_slot. destruct (decide (container_of k' = container_of k)) as [Ec|Ec].
    + rewrite Ec, cont_set_cont by eauto using wf_shaped, cont_lookup_valid.
      apply (elem_delete_other _ _ s); [done|congruence|congruence].
    + by rewrite cont_set_cont_ne.
Qed.

Section Held.
Context {db : ItemDb}.

(** How many of an item the slot of an identifier holds. *)
Definition at_slot (m : InventoryManager) (ID k : Z) : Z :=
  match slot_at m k with Some s => weight ID s | None => 0 end.

Lemma held_RemItem m k ID : Inv_wf m -> held (snd (RemItem m k)) ID = held m ID - at_slot m ID k.
Proof.
  intros Hwf. unfold at_slot. destruct (slot_at m k) as [s|] eqn:E; [|rewrite RemItem_None by done; lia].
  apply RemItem_Some in E as (i & Hi & ->). by rewrite (held_erase_slot _ _ _ s) by (done || apply Hwf).
Qed.

Lemma at_slot_RemItem m k ID k' : Inv_wf m -> at_slot (snd (RemItem m k)) ID k' = if decide (k' = k) then 0 else at_slot m ID k'.
Proof. intros Hwf. unfold at_slot. rewrite slot_at_RemItem by done. by destruct (decide _). Qed.

Definition rem_all (m : InventoryManager) (ks : list Z) : InventoryManager :=
  fold_left (fun m k => snd (RemItem m k)) ks m.

Lemma sum_without m ID k l :
  Inv_wf m -> NoDup l ->
  sumZ (at_slot (snd (RemItem m k)) ID) l = sumZ (at_slot m ID) l - (if decide (k ∈ l) then at_slot m ID k else 0).
Proof.
  intros Hwf. induction 1 as [|x l Hx _ IH]; simpl; [done|]. rewrite IH, at_slot_RemItem by done.
  destruct (decide (x = k)) as [->|].
  - rewrite (decide_True (P := k ∈ k :: l)) by by left. rewrite decide_False by done. lia.
  - destruct (decide (k ∈ l)); [rewrite decide_True by by right|rewrite decide_False by (intros [|]%elem_of_cons; congruence)]; lia.
Qed.

(** Removing a list of identifiers takes each slot it names once. *)
Lemma held_rem_all ks ID : forall m, Inv_wf m ->
  Inv_wf (rem_all m ks) /\ held (rem_all m ks) ID = held m ID - sumZ (at_slot m ID) (remove_dups ks).
Proof.
  induction ks as [|k ks IH]; intros m Hwf; simpl; [split; [done|lia]|].
  destruct (IH _ (RemItem_wf m k Hwf)) as [H1 H2]. split; [done|]. fold (rem_all (snd (RemItem m k)) ks).
  rewrite H2, held_RemItem, sum_without by (done || apply NoDup_remove_dups).
  destruct (decide_rel elem_of k ks) as [Hin|Hin].
  - rewrite decide_True by by apply elem_of_remove_dups. lia.
  - rewrite decide_False by by rewrite elem_of_remove_dups. simpl. lia.
Qed.

(** An addition leaves the slots of other items as they are. *)
Lemma slot_at_kept m m' k s itemID :
  Inv_wf m -> Inv_wf m' -> slot_at m k = Some s -> IID s <> itemID ->
  (forall c x, x ∈ cont m c -> IID x <> itemID -> x ∈ cont m' c) -> slot_at m' k = Some s.
Proof.
  intros Hwf Hwf' [Hk Hin]%(slot_at_spec _ _ _ Hwf) Hne Hkeep. apply slot_at_spec; [done|]. auto. Qed.

Lemma AddItem_Ex_keeps g_ServerTime m c itemID n i m' :
  shaped m -> valid c -> AddItem_Ex g_ServerTime m c itemID n = (Some i, m') ->
  (forall e, (length (cont m e) <= length (cont m' e))%nat) /\
  forall e x, x ∈ cont m e -> IID x <> itemID -> x ∈ cont m' e.
Proof.
  intros Hsh Hv. unfold AddItem_Ex. destruct (item_of itemID) as [d|] eqn:Hd; [|done].
  assert (mID d = itemID) as <- by by apply item_of_mID.
  destruct (_ && _); [done|]. fold (stack_for m c d n). destruct (stack_for m c d n) as [j|] eqn:Es.
  - intros [= <- <-]. apply stack_for_Some in Es as (_ & s & Hs & HI & _). unfold update_slot.
    split; intros e.
    + destruct (decide (e = c)) as [->|]; [by rewrite cont_set_cont, length_alter|by rewrite cont_set_cont_ne].
    + intros x Hx Hne. destruct (decide (e = c)) as [->|]; [|by rewrite cont_set_cont_ne].
      rewrite cont_set_cont by done. apply list_elem_of_lookup in Hx as [p Hp].
      apply (list_elem_of_lookup_2 _ p). rewrite list_lookup_alter_ne; [done|]. intros ->. congruence.
  - destruct (_ =? -1); [done|]. intros [= <- <-]. rewrite AddItem_eq by done. unfold push_back.
    set (m1 := set_expunge m _). assert (shaped m1) as Hsh1 by by apply shaped_set_expunge.
    split; intros e; [|intros x Hx _].
    all: destruct (decide (e = c)) as [->|]; [rewrite cont_set_cont by done|by rewrite cont_set_cont_ne].
    + rewrite length_app. change (cont m1 c) with (cont m c). lia.
    + apply elem_of_app. by left.
Qed.

End Held.

(** ** The exchange *)

Section Exchange.
Context {db : ItemDb} (g_ServerTime CreatureID : Z) (CheckDistance : Z -> Z) (queryID : Z).

(** How many of an item an output adds. *)
Definition out_amount (ID : Z) (o : CraftOutput) : Z :=
  match item_of (out_ID o) with
  | Some d => if out_ID o =? ID then added d (out_StackCount o) else 0
  | None => 0
  end.

Definition countable (o : CraftOutput) : Prop := 1 <= out_StackCount o < 2 ^ 30.

Lemma give_outputs_spec os : forall b msgs,
  stockable (inv b) INV_CONTAINER -> stack_limits_ok -> Forall countable os ->
  exists b' msgs' given, give_outputs g_ServerTime os b msgs = Some (b', msgs') /\
    stockable (inv b') INV_CONTAINER /\ given `sublist_of` os /\
    (forall ID, held (inv b') ID = held (inv b) ID + sumZ (out_amount ID) given) /\
    (forall e, (length (cont (inv b) e) <= length (cont (inv b') e))%nat) /\
    (forall e x, x ∈ cont (inv b) e -> (forall o, o ∈ os -> IID x <> out_ID o) -> x ∈ cont (inv b') e).
Proof.
  induction os as [|o os IH]; intros b msgs Hst Hlim Hos.
  { exists b, msgs, []. split_and!; [done..|intros ID; simpl; lia|done|auto]. }
  apply list.Forall_cons in Hos as [Ho Hos]. simpl.
  destruct (AddItem_Ex g_ServerTime (inv b) INV_CONTAINER (out_ID o) (out_StackCount o)) as [[i|] m] eqn:E.
  - destruct (AddItem_Ex_Some _ _ _ _ _ _ _ Hst (conj (Z.le_refl 0) eq_refl) Hlim Ho E) as (Hst' & d & s & Hd & Hs & HI & Hheld).
    destruct (AddItem_Ex_keeps _ _ _ _ _ _ _ (wf_shaped _ (st_wf _ _ Hst)) (conj (Z.le_refl 0) eq_refl) E) as [Hlen Hkeep].
    rewrite Hd. simpl. rewrite Hs. simpl.
    match goal with |- context[give_outputs _ os ?B ?M] => destruct (IH B M Hst' Hlim Hos)
      as (b' & msgs' & given & H1 & H2 & H3 & H4 & H5 & H6) end.
    exists b', msgs', (o :: given). split_and!; [exact H1|done|by constructor|..].
    + intros ID. rewrite H4. simpl. rewrite Hheld. unfold out_amount at 2. rewrite Hd. lia.
    + intros e. etrans; [apply Hlen|apply H5].
    + intros e x Hx Hne. apply H6; [apply Hkeep; [done|apply Hne; by left]|]. intros o' Ho'. apply Hne. by right.
  - destruct (AddItem_Ex_None _ _ _ _ _ _ E) as [err ->].
    destruct (IH (set_inv (SetError (inv b) err) b) msgs (stockable_SetError _ _ _ Hst) Hlim Hos)
      as (b' & msgs' & given & H1 & H2 & H3 & H4 & H5 & H6).
    exists b', msgs', given. split_and!; [exact H1|done|by constructor|done..|].
    intros e x Hx Hne. apply H6; [done|]. intros o' Ho'. apply Hne. by right.
Qed.

Lemma use_device_spec device b :
  (forall p u, device = Some (p, u) -> is_Some (deref (inv b) p)) ->
  exists b' bytes, use_device device b = Some (b', bytes) /\ inv b' = inv b.
Proof.
  intros H. unfold use_device. destruct device as [[p [|]]|]; [|by eexists _, _..].
  destruct (H p true eq_refl) as [s ->]. simpl. by eexists _, _.
Qed.

Lemma remove_inputs_inv inputs : forall b bytes,
  inv (remove_inputs inputs b bytes).1 = rem_all (inv b) (in_CCSID <$> inputs).
Proof.
  induction inputs as [|i l IH]; intros b bytes; cbn [remove_inputs]; [done|].
  destruct (p ← GetItemPtrByCCSID (inv b) (in_CCSID i); deref (inv b) p) as [slot|]; [destruct (announce_removal slot)|]; by rewrite IH.
Qed.

(** The inputs as [resolve_inputs] finds them. *)
Definition input_of (m : InventoryManager) (i : CraftInputSlot) : Prop :=
  exists s, slot_at m (in_CCSID i) = Some s /\ in_ID i = IID s /\ in_StackCount i = GetStackCount s /\
    item_of (IID s) = Some (in_ItemDef i).

Lemma resolve_inputs_spec m args inputs : resolve_inputs m args = Some inputs -> Forall (input_of m) inputs.
Proof.
  revert inputs. induction args as [|a l IH]; intros inputs; cbn [resolve_inputs]; [intros [= <-]; constructor|].
  destruct (MAXCONTAINER <=? _); [discriminate|]. destruct (resolve_inputs m l) as [rest|]; [|discriminate]. cbn [mbind option_bind].
  specialize (IH _ eq_refl). destruct (GetItemPtrByCCSID m _) as [p|] eqn:Ep; [|intros [= <-]; exact IH]. cbn [mbind option_bind].
  destruct (deref m p) as [s|] eqn:Es; [|intros [= <-]; exact IH]. cbn [mbind option_bind].
  destruct (item_of (IID s)) as [d|] eqn:Ed; intros [= <-]; [|exact IH].
  constructor; [|exact IH]. exists s. unfold slot_at. split; [|auto]. cbn in Ep |- *. by rewrite Ep.
Qed.

(** The arguments name containers that exist. *)
Definition named (arg : string) : Prop := container_of (GetCCSIDFromHexID (Some arg)) < MAXCONTAINER.

Lemma resolve_inputs_total m args : Forall named args -> is_Some (resolve_inputs m args).
Proof.
  induction 1 as [|a l Ha _ [rest IH]]; cbn [resolve_inputs]; [eexists; reflexivity|]. unfold named in Ha.
  rewrite (proj2 (Z.leb_gt _ _) Ha), IH. eexists; reflexivity.
Qed.

Lemma verify_outputs_items os : forall book, fst (verify_outputs os book) = true -> Forall (fun o => is_Some (item_of (out_ID o))) os.
Proof.
  induction os as [|o os IH]; intros book; simpl; [by constructor|].
  destruct (item_of (out_ID o)) as [d|] eqn:E; [|done]. intros H%IH. constructor; [by rewrite E|done].
Qed.

Lemma find_device_deref m book creatureID device p u :
  find_device CreatureID CheckDistance m book creatureID = inr device -> device = Some (p, u) -> is_Some (deref m p).
Proof.
  unfold find_device. destruct (_ =? CreatureID); [|destruct (_ =? 0); intros [= <-]; done].
  destruct book; [by intros [= <-]|]. destruct (GetBestSpecialItem _ _ _) as [q|]; [|done].
  destruct (deref m q) as [s|] eqn:E; simpl; [|done]. destruct (item_of _); simpl; [|done].
  intros [= <-] [= <- _]. by rewrite E.
Qed.

(** The outputs are items that no input is. *)
Definition apart (inputs : list CraftInputSlot) (os : list CraftOutput) : Prop :=
  forall o i, o ∈ os -> i ∈ inputs -> in_ID i <> out_ID o.

Lemma exchange_spec device inputs os b :
  stockable (inv b) INV_CONTAINER -> stack_limits_ok -> Forall countable os ->
  Forall (input_of (inv b)) inputs -> apart inputs os ->
  (forall p u, device = Some (p, u) -> is_Some (deref (inv b) p)) ->
  exists b' given, exchange g_ServerTime queryID device inputs os b = Some (craft_reply queryID, b') /\
    given `sublist_of` os /\ Inv_wf (inv b') /\
    forall ID, held (inv b') ID
      = held (inv b) ID + sumZ (out_amount ID) given - sumZ (at_slot (inv b) ID) (remove_dups (in_CCSID <$> inputs)).
Proof.
  intros Hst Hlim Hos Hin Hap Hdev. unfold exchange.
  destruct (give_outputs_spec os b [] Hst Hlim Hos) as (b1 & msgs & given & -> & Hst1 & Hsub & Hheld & Hlen & Hkeep). simpl.
  destruct (use_device_spec device b1) as (b2 & bytes & -> & Hinv).
  { intros p u ->. destruct (Hdev p u eq_refl) as [s Hs]. unfold deref in *.
    apply lookup_lt_is_Some. apply lookup_lt_Some in Hs. specialize (Hlen p.1). lia. }
  simpl. destruct (remove_inputs inputs b2 bytes) as [b3 bytes'] eqn:E.
  pose proof (remove_inputs_inv inputs b2 bytes) as Hrem. rewrite E, Hinv in Hrem. simpl in Hrem.
  destruct (held_rem_all (in_CCSID <$> inputs) 0 _ (st_wf _ _ Hst1)) as [Hwf _].
  match goal with |- context[Some (_, ?B)] => set (b' := B) end.
  assert (inv b' = rem_all (inv b1) (in_CCSID <$> inputs)) as Hb.
  { rewrite <- Hrem. subst b'. by destruct (0 <? length bytes')%nat. }
  exists b', given. rewrite Hb. split_and!; [done..|].
  intros ID. destruct (held_rem_all (in_CCSID <$> inputs) ID _ (st_wf _ _ Hst1)) as [_ ->]. rewrite Hheld.
  f_equal; apply sumZ_ext; intros k Hk; rewrite elem_of_remove_dups in Hk; apply list_elem_of_fmap in Hk as (i & -> & Hi).
  rewrite list.Forall_forall in Hin; destruct (Hin i Hi) as (s & Hs & HI & _); unfold at_slot; rewrite Hs.
  apply (slot_at_spec _ _ _ (st_wf _ _ Hst)) in Hs as [Hk Hs].
  rewrite (proj2 (slot_at_spec _ _ s (st_wf _ _ Hst1))); [done|split; [done|apply Hkeep; [done|]]].
  intros o Ho; rewrite <- HI; by apply Hap.
Qed.

End Exchange.

(** ** The query as a whole *)

Section Whole.
Context {db : ItemDb} `{!StdSort CraftInputSlot} (recipes : list CraftRecipe).
Context (g_ServerTime CreatureID : Z) (CheckDistance : Z -> Z) (queryID : Z).

(** What a recipe gives; the inputs are sorted a second time for it. *)
Definition outputs_of (r : CraftRecipe) (inputs : list CraftInputSlot) : list CraftOutput :=
  GenerateOutputs r (SortInputs inputs) [].

(** A recipe that can be tried on the inputs: no condition is undefined behaviour, and
    the outputs are sensible amounts of other items. *)
Record tryable (inputs : list CraftInputSlot) (r : CraftRecipe) : Prop := {
  try_clear : clear inputs (mConditions r);
  try_countable : Forall countable (outputs_of r inputs);
  try_apart : apart inputs (outputs_of r inputs) }.

(** The inputs that the arguments of the query name, in the order of [SortInputs]. *)
Definition inputs_named (m : InventoryManager) (slots : list string) : list CraftInputSlot :=
  SortInputs (default [] (resolve_inputs m slots)).

(** The inputs are gone, each once, and the outputs that fitted are there. *)
Definition exchanged (m m' : InventoryManager) (inputs : list CraftInputSlot) (outputs : list CraftOutput) : Prop :=
  Inv_wf m' /\ exists given, given `sublist_of` outputs /\
    forall ID, held m' ID
      = held m ID + sumZ (out_amount ID) given - sumZ (at_slot m ID) (remove_dups (in_CCSID <$> inputs)).

Lemma inputs_named_spec m slots :
  Forall named slots -> exists l, resolve_inputs m slots = Some l /\ inputs_named m slots = SortInputs l /\
    Forall (input_of m) (inputs_named m slots).
Proof.
  intros [l Hl]%(resolve_inputs_total m). exists l. unfold inputs_named. rewrite Hl. simpl.
  split_and!; [done..|]. rewrite SortInputs_perm. by eapply resolve_inputs_spec.
Qed.

Lemma exchange_sorted device inputs os b :
  stockable (inv b) INV_CONTAINER -> stack_limits_ok -> Forall countable os -> Forall (input_of (inv b)) inputs -> apart inputs os ->
  (forall p u, device = Some (p, u) -> is_Some (deref (inv b) p)) ->
  exists b', exchange g_ServerTime queryID device (SortInputs inputs) os b = Some (craft_reply queryID, b') /\
    exchanged (inv b) (inv b') inputs os.
Proof.
  intros Hst Hlim Hos Hin Hap Hdev.
  destruct (exchange_spec g_ServerTime queryID device (SortInputs inputs) os b Hst Hlim Hos) as (b' & given & -> & H1 & H2 & H3).
  - by rewrite SortInputs_perm.
  - intros o i Ho Hi. rewrite SortInputs_perm in Hi. by apply Hap.
  - done.
  - exists b'. split; [done|]. split; [done|]. exists given. split; [done|]. intros ID. rewrite H3. f_equal.
    apply sumZ_perm. apply NoDup_Permutation; [apply NoDup_remove_dups..|].
    intros k. rewrite !elem_of_remove_dups. by rewrite SortInputs_perm.
Qed.

End Whole.


(** C11. Which recipe is found does not depend on the order in which the items are named,
    as long as no two of them are the same item: it is the first recipe of the file whose
    number of inputs is theirs and whose conditions all pass on the sorted inputs. *)
Theorem GetRecipe_order_free `{!StdSort CraftInputSlot} (recipes : list CraftRecipe) (l1 l2 : list CraftInputSlot)
    (Hp : l1 ≡ₚ l2) (Hnd : NoDup ((fun i => mID (in_ItemDef i)) <$> l1))
    (Hclear : Forall (fun r => clear (SortInputs l1) (mConditions r)) recipes) :
  GetRecipe recipes l2 = GetRecipe recipes l1 /\
  GetRecipe recipes l1 = Some (List.find (applies (SortInputs l1)) recipes, SortInputs l1).
Proof.
  unfold GetRecipe. rewrite <- (SortInputs_unique l1 l2 Hp Hnd). split; [done|]. by rewrite find_recipe_spec.
Qed.

(** ** An example *)

(** Four potions and an item 9 give the item 5000007. *)
Definition example_recipe : CraftRecipe :=
  mkRecipe "Amulet" 2 1 ["0,requireid,5,4"; "1,requireid,9,1"] ["giveid,5000007,2"].
Definition example_bench : Bench := mkBench example_inv 0 [].

Definition example_craft (recipes : list CraftRecipe) (slots : list string) : option (Reply * Bench) :=
  @ModCraftHandler example_db _ recipes 1000 1 (fun _ => 0) 3 ("10" :: slots) example_bench.

Definition held_after (r : option (Reply * Bench)) (ID : Z) : option Z :=
  x ← r; Some (@held example_db (inv (snd x)) ID).

Definition example_inputs : list CraftInputSlot := @inputs_named example_db _ example_inv ["1"; "0"].

Lemma example_tryable : Forall (@tryable _ example_inputs) [example_recipe].
Proof.
  constructor; [|constructor]. split.
  - by repeat constructor.
  - constructor; [by split|constructor].
  - intros o i Ho Hi. vm_compute in Ho, Hi. apply list_elem_of_singleton in Ho as ->.
    repeat (apply elem_of_cons in Hi as [->|Hi]; [done|]). by apply not_elem_of_nil in Hi.
Qed.


Lemma GetRecipe_order_free_witness :
  GetRecipe [example_recipe] (reverse example_inputs) = GetRecipe [example_recipe] example_inputs /\
  fst <$> GetRecipe [example_recipe] (reverse example_inputs) = Some (Some example_recipe).
Proof.
  destruct (GetRecipe_order_free [example_recipe] example_inputs (reverse example_inputs)) as [H1 H2].
  - symmetry. apply reverse_Permutation.
  - vm_compute. repeat constructor; rewrite ?list_elem_of_singleton; by intros ?%elem_of_nil || done.
  - repeat constructor; by vm_compute.
  - split; [exact H1|]. rewrite H1. by vm_compute.
Defined.

(** ** What the code does not do *)

Definition two_stacks : CraftRecipe := mkRecipe "Two stacks" 2 1 ["0,requireid,5,4"; "1,requireid,5,4"] ["giveid,5000007,1"].

(** A slot that is named twice counts as two inputs, and is removed once: a recipe for two
    stacks of four works with one of them. *)
Lemma same_slot_counts_twice :
  held_after (example_craft [two_stacks] ["0"; "0"]) 5 = Some 11 /\ @held example_db example_inv 5 = 15 /\
  held_after (example_craft [two_stacks] ["0"; "0"]) 5000007 = Some 1.
Proof. by vm_compute. Qed.

(** An input may come from any container: here from the bank. *)
Lemma inputs_from_the_bank :
  held_after (example_craft [mkRecipe "Bank" 1 1 ["0,requireid,5,8"] ["giveid,5000007,1"]] ["20000"]) 5 = Some 7.
Proof. by vm_compute. Qed.


(** The client is told that a used-up crafting kit is gone; the server keeps it. *)
Lemma used_kit_stays (p : Z * nat) (s : InventorySlot) (b : Bench) {db : ItemDb} :
  deref (inv b) p = Some s ->
  exists b', use_device (Some (p, true)) b = Some (b', Global.RemoveItemUpdate s) /\ inv b' = inv b.
Proof. unfold use_device. intros ->. by eexists. Qed.

(** Conditions without all their arguments: a division by zero, a null pointer and an
    index past the end. *)
Lemma short_conditions (i : CraftInputSlot) :
  check_one [i] "0,requireidmult,5" = (if in_ID i =? 5 then None else Some Refused) /\
  (mLevel (in_ItemDef i) <> -1 -> check_one [i] "0,cmp,level" = None) /\
  GetRequiredItemCount (mkRecipe EmptyString 1 1 ["0,requireid,5"] []) 5 = None.
Proof.
  split_and!; [| |by vm_compute].
  - transitivity (check_requireidmult ["0"; "requireidmult"; "5"]%string i); [vm_compute; reflexivity|].
    unfold check_requireidmult. change (GetIntParam _ 3) with 0. change (GetIntParam _ 2) with 5.
    by destruct (in_ID i =? 5).
  - intros H. transitivity (check_cmp ["0"; "cmp"; "level"]%string i); [vm_compute; reflexivity|].
    unfold check_cmp. simpl. unfold GetProperty, INVALID_PROPERTY. simpl. by rewrite (proj2 (Z.eqb_neq _ _) H).
Qed.
