(* ===== verification/FileReader.v ===== *)
(** * The line reader ([FileReader.h], [FileReader.cpp])

    [FileReader] reads the text files of the server line by line. The file is the
    text not read yet and the end-of-file flag of the C library, which is set by
    the read that meets the end. [read_file] is the loop
    [while(lfr.FileOpen()) { lfr.ReadLine(); ... }] that every loader is made of. *)

From S2P Require Import Prelude Text.

Definition Comment_Slash : Z := 1.
Definition Comment_Semi : Z := 2.
Definition Comment_Both : Z := 3.
Definition BUFFERSIZE : nat := 4096.

Definition newline : Ascii.ascii := chr 10.
Definition return_char : Ascii.ascii := chr 13.
Definition tab : Ascii.ascii := chr 9.
Definition space : Ascii.ascii := chr 32.
Definition semicolon : Ascii.ascii := chr 59.

Record FileReader := mkFileReader {
  open : bool;          (* FileHandle[ActiveFile] != NULL *)
  rest : string;        (* what the handle has not delivered yet *)
  eof : bool;           (* feof *)
  DataBuffer : string;
  LineNumber : Z;
  CommentStyle : Z }.

Definition OpenText (file : string) : FileReader := mkFileReader true file false EmptyString 0 0.

Definition set_CommentStyle (style : Z) (r : FileReader) : FileReader :=
  mkFileReader (open r) (rest r) (eof r) (DataBuffer r) (LineNumber r) style.

Definition FileOpen (r : FileReader) : bool := open r && negb (eof r).

(** The characters [fgets] delivers for a buffer of [S n] bytes: up to and with
    the next newline, at most [n]. The flag tells that the end was met. *)
Fixpoint take_line (n : nat) (s : string) : string * string * bool :=
  match n, s with
  | O, _ => (EmptyString, s, false)
  | S _, EmptyString => (EmptyString, EmptyString, true)
  | S n', String c s' =>
      if Ascii.eqb c newline then (String c EmptyString, s', false)
      else let '(l, r, e) := take_line n' s' in (String c l, r, e)
  end.

(** The C string stored at a buffer: what precedes the first zero byte. *)
Fixpoint c_str (s : string) : string :=
  match s with
  | EmptyString => EmptyString
  | String c s' => if Ascii.eqb c (chr 0) then EmptyString else String c (c_str s')
  end.

(** The loops that overwrite the characters at the end of the buffer with zero. *)
Fixpoint strip_end (p : Ascii.ascii -> bool) (s : string) : string :=
  match s with
  | EmptyString => EmptyString
  | String c s' =>
      match strip_end p s' with
      | EmptyString => if p c then EmptyString else String c EmptyString
      | t => String c t
      end
  end.

Definition is_newline (c : Ascii.ascii) : bool := Ascii.eqb c newline || Ascii.eqb c return_char.
Definition is_blank (c : Ascii.ascii) : bool := Ascii.eqb c space || Ascii.eqb c tab.

Definition RemoveTrailingWhitespace (s : string) : string := strip_end is_blank s.

(** [RemoveBeginningWhitespace] shifts the text only when a character that is not
    blank is found after the first position. *)
Fixpoint skip_blank (s : string) : string :=
  match s with
  | String c s' => if is_blank c then skip_blank s' else s
  | EmptyString => EmptyString
  end.

Definition RemoveBeginningWhitespace (s : string) : string :=
  match skip_blank s with EmptyString => s | t => t end.

(** [*strchr(s, c) = 0] and [*strstr(s, "//") = 0] where there is one. *)
Fixpoint cut_char (d : Ascii.ascii) (s : string) : string :=
  match s with
  | EmptyString => EmptyString
  | String c s' => if Ascii.eqb c d then EmptyString else String c (cut_char d s')
  end.

Fixpoint cut_string (d : string) (s : string) : string :=
  match s with
  | EmptyString => EmptyString
  | String c s' => if String.prefix d s then EmptyString else String c (cut_string d s')
  end.

(** [int ReadLine(void)]. *)
Definition ReadLine (r : FileReader) : FileReader :=
  let '(l, rest', e) := take_line (BUFFERSIZE - 1) (rest r) in
  let pos_null := e && String.eqb l EmptyString in
  let read := if pos_null then EmptyString else c_str l in
  let stripped := strip_end is_newline read in
  let line := negb (String.length stripped =? String.length read)%nat in
  let buf1 := if Z.land (CommentStyle r) Comment_Slash =? 0 then stripped
              else cut_string "//" stripped in
  let buf2 := if Z.land (CommentStyle r) Comment_Semi =? 0 then buf1
              else cut_char semicolon buf1 in
  mkFileReader (open r) rest' (e || eof r) (RemoveTrailingWhitespace buf2)
    (if line then LineNumber r + 1 else LineNumber r) (CommentStyle r).

(** The lines a loader sees, each with its number; [None] when out of fuel. *)
Fixpoint read_file (fuel : nat) (r : FileReader) : option (list (Z * string)) :=
  match fuel with
  | O => None
  | S fuel' =>
      if FileOpen r then
        let r' := ReadLine r in
        cons (LineNumber r', DataBuffer r') <$> read_file fuel' r'
      else Some []
  end.

(** Every turn but the last reads a character. *)
Definition file_fuel (file : string) : nat := S (S (String.length file)).

(** ** Breaking a line

    The blocks of a line as texts: [SingleBreak], [MultiBreak] and the accesses
    [BlockToStringC], [BlockToIntC] with the positions left out. *)

Definition MULTIBLOCKCOUNT : nat := 64.

Definition one_of (del : string) (c : Ascii.ascii) : bool :=
  match String.index 0 (String c EmptyString) del with Some _ => true | None => false end.

(** [strpbrk]: what precedes the first delimiter and what follows it. *)
Fixpoint strpbrk (del s : string) : option (string * string) :=
  match s with
  | EmptyString => None
  | String c s' =>
      if one_of del c then Some (EmptyString, s')
      else '(before, after) ← strpbrk del s'; Some (String c before, after)
  end.

(** The block before the delimiter and the one behind it. Without a delimiter the length
    [len1] of the second block is the one of an earlier line, its position is 0. *)
Definition SingleBreak (del s : string) (len1 : nat) : (string * string) * nat :=
  match strpbrk del s with
  | Some (before, after) => ((before, after), String.length after)
  | None => ((s, String.substring 0 len1 s), len1)
  end.

(** The delimiters at the beginning. *)
Fixpoint skip_delimiters (del s : string) : string :=
  match s with
  | String c s' => if one_of del c then skip_delimiters del s' else s
  | EmptyString => EmptyString
  end.

(** [room] blocks at most. *)
Fixpoint break_blocks (room : nat) (del s : string) : list string :=
  match room, s with
  | O, _ | _, EmptyString => []
  | S room', _ =>
      match strpbrk del s with
      | Some (before, after) => before :: break_blocks room' del (skip_delimiters del after)
      | None => [s]
      end
  end.

Definition MultiBreak (del s : string) : list string := break_blocks (MULTIBLOCKCOUNT - 1) del s.

(** The block behind the last is empty; what is further is left from an earlier line:
    [None]. *)
Definition block (blocks : list string) (i : nat) : option string :=
  if (i =? length blocks)%nat then Some EmptyString else blocks !! i.

Definition upper (c : Ascii.ascii) : Ascii.ascii :=
  if (97 <=? code c) && (code c <=? 122) then chr (code c - 32) else c.

(** [BlockToStringC(i, Case_Upper)]. *)
Definition ToUpperCase (s : string) : string := map_string upper s.

(** ** Lemmas *)

Lemma take_line_progress n s l r e :
  (0 < n)%nat -> take_line n s = (l, r, e) ->
  e = true \/ (String.length r < String.length s)%nat.
Proof.
  revert n l r e. induction s as [|c s IH]; intros [|n] l r e Hn H; simpl in H; try lia.
  - injection H as <- <- <-. by left.
  - destruct (Ascii.eqb c newline).
    + injection H as <- <- <-. right. simpl. lia.
    + destruct (take_line n s) as [[l' r'] e'] eqn:E. injection H as <- <- <-.
      destruct n as [|n].
      * destruct s; simpl in E; injection E as <- <- <-; right; simpl; lia.
      * destruct (IH (S n) l' r' e' ltac:(lia) E) as [->|Hlt]; [by left|right; simpl; lia].
Qed.

(** Reading a file ends, whatever is in it. *)
Lemma read_file_total fuel r :
  (String.length (rest r) + 2 <= fuel)%nat -> is_Some (read_file fuel r).
Proof.
  revert r. induction fuel as [|fuel IH]; intros r Hf; [lia|]. simpl.
  destruct (FileOpen r) eqn:Eo; [|by eexists].
  assert (is_Some (read_file fuel (ReadLine r))) as [ls ->]; [|by eexists].
  unfold ReadLine. destruct (take_line _ _) as [[l rest'] e] eqn:E.
  apply take_line_progress in E as [->|Hlt]; [| |unfold BUFFERSIZE; lia].
  - destruct fuel as [|fuel]; [lia|]. simpl. unfold FileOpen. simpl.
    rewrite andb_false_r. by eexists.
  - apply IH. simpl. lia.
Qed.
