(* ===== verification/ConfigString.v ===== *)
(** * ConfigString: texts of keys and values

    Models [src/SOURCE/Server/ConfigString.h] and [ConfigString.cpp]: pairs between [&],
    a key and a value between [=]. An entry has the parts of its pair, two at least; of
    the parts behind the second nothing is read. *)

From S2P Require Import Prelude ByteBuffer Text Float.

Abbreviation ConfigString := (list (list string)).

Definition Clear (mData : ConfigString) : ConfigString := [].

(** Parts are added until there are two. *)
Definition pad_two (values : list string) : list string := values ++ replicate (2 - length values) EmptyString.

(** An empty text leaves what was there. *)
Definition Assign (data : string) (mData : ConfigString) : ConfigString :=
  if (String.length data =? 0)%nat then mData else map (fun pair => pad_two (Split pair "=")) (Split data "&").

Definition ConfigString_new (data : string) : ConfigString := Assign data [].

Definition has_key (key : string) (entry : list string) : bool :=
  match entry with k :: _ => String.eqb k key | [] => false end.

Fixpoint GetValueIntOrDefault (mData : ConfigString) (key : string) (def : Z) : Z :=
  match mData with
  | [] => def
  | e :: l => if has_key key e then match e with _ :: v :: _ => atoi (cstr v) | _ => def end
              else GetValueIntOrDefault l key def
  end.

Definition GetValueInt (mData : ConfigString) (key : string) : Z := GetValueIntOrDefault mData key 0.

Fixpoint GetValueFloatOrDefault (mData : ConfigString) (key : string) (def : Z) : Z :=
  match mData with
  | [] => def
  | e :: l => if has_key key e then match e with _ :: v :: _ => atof_float (cstr v) | _ => def end
              else GetValueFloatOrDefault l key def
  end.

Definition GetValueFloat (mData : ConfigString) (key : string) : Z := GetValueFloatOrDefault mData key 0.

(** The last one, unlike the numbers. *)
Definition GetValueString (mData : ConfigString) (key : string) : string :=
  fold_left (fun output e => if has_key key e then match e with _ :: v :: _ => v | _ => output end else output) mData EmptyString.

Definition IsEmpty (mData : ConfigString) : bool := (length mData =? 0)%nat.

Definition HasKey (mData : ConfigString) (key : string) : bool := existsb (has_key key) mData.

Fixpoint SetKeyValue (mData : ConfigString) (key value : string) : ConfigString :=
  match mData with
  | [] => [[key; value]]
  | e :: l => if has_key key e then <[1%nat := value]> e :: l else e :: SetKeyValue l key value
  end.

Definition print_entry (e : list string) : string :=
  match e with k :: v :: _ => k +:+ "=" +:+ v | _ => EmptyString end.

Definition GenerateString (mData : ConfigString) : string := Join (map print_entry mData) "&".

(** ** Theorems *)

Definition equals : Ascii.ascii := chr 61.
Definition ampersand : Ascii.ascii := chr 38.

(** The entries a text can hold: a key and a value without delimiters. *)
Definition entry_ok (e : list string) : bool :=
  match e with
  | [k; v] => lacks equals k && lacks ampersand k && lacks equals v && lacks ampersand v
  | _ => false
  end.

Lemma lacks_app d a b : lacks d (a +:+ b) = lacks d a && lacks d b.
Proof. unfold lacks. induction a as [|c a IH]; simpl; [done|]. by rewrite IH, andb_assoc. Qed.

Lemma Split_entry k v : lacks equals k = true -> lacks equals v = true -> Split (k +:+ "=" +:+ v) "=" = [k; v].
Proof.
  intros Hk Hv. pose proof (split_join_lemma equals [k; v] ltac:(done)) as E. simpl in E. rewrite Hk, Hv in E. by apply E.
Qed.

Lemma print_entry_lacks e : entry_ok e = true -> lacks ampersand (print_entry e) = true.
Proof.
  destruct e as [|k [|v [|]]]; try done. simpl. intros H. to_prop. rewrite !lacks_app. rewrite H2, H0. done.
Qed.

Lemma read_entry e : entry_ok e = true -> pad_two (Split (print_entry e) "=") = e.
Proof. destruct e as [|k [|v [|]]]; try done. cbn [entry_ok]. intros H. to_prop. cbn [print_entry]. by rewrite Split_entry. Qed.

Lemma GenerateString_cons e l : entry_ok e = true -> (String.length (GenerateString (e :: l)) =? 0)%nat = false.
Proof.
  destruct e as [|k [|v [|]]]; try done. intros _. apply Nat.eqb_neq. unfold GenerateString. simpl.
  destruct (map print_entry l); rewrite ?string_length_app; simpl; rewrite ?string_length_app; simpl; lia.
Qed.

(** C0. What a configuration text is generated from is read back from it: every entry, in
    the order it had, with its value. *)
Theorem config_roundtrip (mData old : ConfigString) (Hne : mData <> []) (Hok : forallb entry_ok mData = true) :
  Assign (GenerateString mData) old = mData.
Proof.
  unfold Assign. destruct mData as [|e l]; [done|]. pose proof Hok as Hok'. simpl in Hok. apply andb_true_iff in Hok as [He Hl].
  rewrite GenerateString_cons by done. unfold GenerateString.
  assert (Forall (fun e => entry_ok e = true) (e :: l)) as Hall by (apply list.Forall_forall; intros x Hx; apply (proj1 (forallb_forall _ _) Hok'), list_elem_of_In, Hx).
  change "&"%string with (String ampersand EmptyString). rewrite split_join_lemma; [|done|].
  - rewrite map_map. clear - Hall. induction Hall as [|x l' Hx _ IH]; [done|]. cbn [map]. by rewrite read_entry, IH.
  - clear - Hall. induction Hall as [|x l' Hx _ IH]; [done|]. cbn [map forallb]. by rewrite print_entry_lacks, IH.
Qed.

Lemma config_roundtrip_witness :
  Assign (GenerateString [["gamble"; "1"]; ["cost_per_level"; "250"]]%string) [] = [["gamble"; "1"]; ["cost_per_level"; "250"]]%string.
Proof. apply config_roundtrip; [discriminate|reflexivity]. Defined.

(** A text does not read the last value of a key and a number the first: with a key twice
    the value that [SetKeyValue] changes is not the one [GetValueString] reads. *)
Lemma duplicate_key_keeps_value :
  let c := ConfigString_new "a=1&a=2" in
  GetValueInt (SetKeyValue c "a" "7") "a" = 7 /\ GetValueString (SetKeyValue c "a" "7") "a" = "2"%string.
Proof. by vm_compute. Qed.

(** Assigning an empty text keeps the old entries. *)
Lemma Assign_empty mData : Assign EmptyString mData = mData.
Proof. done. Qed.
