(* ===== verification/Gamble.v ===== *)
(** * Gamble: items that turn into other items when they are bought

    Models [src/SOURCE/Server/Gamble.h] and [Gamble.cpp], and of [Item.cpp]
    [RunPurchaseModifier] and [CheckVirtualItemGamble]. A random number is an argument
    [raw], which [RandInt] brings into its range. [None] is undefined behaviour or, for
    the range searches of [Items], a search that does not end. *)

From S2P Require Import Prelude ByteBuffer Text Float Items FileReader ConfigString.

(** [uniform_int_distribution(min, max)]. *)
Definition RandInt (raw min max : Z) : option Z :=
  if max <? min then None else Some (min + raw mod (max - min + 1)).

Record GambleItemSelection := mkSelection { ItemID : Z; Shares : Z }.

Record GambleDefinition := mkGamble {
  defName : string; triggerItemID : Z; searchType : Z; params : ItemListQuery; itemSelection : list GambleItemSelection }.

Definition GambleDefinition_Clear : GambleDefinition := mkGamble EmptyString 0 0 ItemListQuery_Reset [].

Definition set_defName (s : string) (g : GambleDefinition) : GambleDefinition :=
  mkGamble s (triggerItemID g) (searchType g) (params g) (itemSelection g).
Definition set_triggerItemID (z : Z) (g : GambleDefinition) : GambleDefinition :=
  mkGamble (defName g) z (searchType g) (params g) (itemSelection g).
Definition set_searchType (z : Z) (g : GambleDefinition) : GambleDefinition :=
  mkGamble (defName g) (triggerItemID g) z (params g) (itemSelection g).
Definition set_params (p : ItemListQuery) (g : GambleDefinition) : GambleDefinition :=
  mkGamble (defName g) (triggerItemID g) (searchType g) p (itemSelection g).
Definition set_itemSelection (l : list GambleItemSelection) (g : GambleDefinition) : GambleDefinition :=
  mkGamble (defName g) (triggerItemID g) (searchType g) (params g) l.

Definition read_selection (subitem : string) : list GambleItemSelection :=
  let entry := Split subitem ":" in
  if (2 <=? length entry)%nat then [mkSelection (GetInteger entry 0) (GetInteger entry 1)] else [].

Definition AddItemSelections (itemList : string) (g : GambleDefinition) : GambleDefinition :=
  set_itemSelection (itemSelection g ++ flat_map read_selection (Split itemList ",")) g.

(** ** The choice *)

Definition maxShares (l : list GambleItemSelection) : Z := fold_left (fun n s => i32 (n + Shares s)) l 0.

Fixpoint pick (rnd base : Z) (l : list GambleItemSelection) : Z :=
  match l with
  | [] => 0
  | s :: l' =>
      if (base <=? rnd) && (rnd <=? i32 (base + Shares s - 1)) then ItemID s
      else pick rnd (i32 (base + Shares s)) l'
  end.

Definition GetRandomSelection (raw : Z) (g : GambleDefinition) : option Z :=
  rnd ← RandInt raw 1 (maxShares (itemSelection g));
  Some (pick rnd 1 (itemSelection g)).

(** ** The definitions *)

Definition SEARCH_NONE : Z := 0.
Definition SEARCH_LINEARRANGE : Z := 1.
Definition SEARCH_EQUIP : Z := 2.
Definition SEARCH_QUERY : Z := 3.
Definition SEARCH_LIST : Z := 4.

Definition SearchName : list (string * Z) :=
  [("none", SEARCH_NONE); ("linear", SEARCH_LINEARRANGE); ("equip", SEARCH_EQUIP); ("query", SEARCH_QUERY); ("list", SEARCH_LIST)]%string.

Definition GetSearchType (name : string) : Z :=
  match find_idx (fun e => String.eqb e.1 name) SearchName with
  | Some i => default SEARCH_NONE (snd <$> SearchName !! i)
  | None => SEARCH_NONE
  end.

Definition set_query (key : string) (v : Z) (q : ItemListQuery) : ItemListQuery :=
  if String.eqb key "MINID" then mkItemListQuery v (maxID q) (equipType q) (weaponType q) (minLevel q) (maxLevel q)
  else if String.eqb key "MAXID" then mkItemListQuery (minID q) v (equipType q) (weaponType q) (minLevel q) (maxLevel q)
  else if String.eqb key "EQUIPTYPE" then mkItemListQuery (minID q) (maxID q) (i8 v) (weaponType q) (minLevel q) (maxLevel q)
  else if String.eqb key "WEAPONTYPE" then mkItemListQuery (minID q) (maxID q) (equipType q) (i8 v) (minLevel q) (maxLevel q)
  else if String.eqb key "MINLEVEL" then mkItemListQuery (minID q) (maxID q) (equipType q) (weaponType q) (i16 v) (maxLevel q)
  else if String.eqb key "MAXLEVEL" then mkItemListQuery (minID q) (maxID q) (equipType q) (weaponType q) (minLevel q) (i16 v)
  else q.

(** A definition is kept when it has a type; a new entry starts from the fields of one
    that has none. *)
Definition finish (g : GambleDefinition) (defList : list GambleDefinition) : list GambleDefinition :=
  if searchType g =? SEARCH_NONE then defList else defList ++ [g].

Definition set_key (key value : string) (g : GambleDefinition) : GambleDefinition :=
  if String.eqb key "NAME" then set_defName (String.substring 0 19 value) g
  else if String.eqb key "TRIGGERITEMID" then set_triggerItemID (atoi value) g
  else if String.eqb key "SEARCHTYPE" then set_searchType (GetSearchType value) g
  else if String.eqb key "ITEMSELECTION" then AddItemSelections value g
  else set_params (set_query key (atoi value) (params g)) g.

(** The state of the loop: the length of the second block of the last line that had one,
    the entry that is read and the entries so far. *)
Definition load_line (st : nat * GambleDefinition * list GambleDefinition) (line : string)
    : nat * GambleDefinition * list GambleDefinition :=
  let '(len1, g, defList) := st in
  if String.eqb line EmptyString then st
  else
    let '((b0, b1), len1') := SingleBreak "=" line len1 in
    let key := ToUpperCase b0 in
    if String.eqb key "[ENTRY]" then
      (len1', if searchType g =? SEARCH_NONE then g else GambleDefinition_Clear, finish g defList)
    else (len1', set_key key b1 g, defList).

Definition LoadFile (file : string) (defList : list GambleDefinition) : option (list GambleDefinition) :=
  lines ← read_file (file_fuel file) (set_CommentStyle Comment_Semi (OpenText file));
  let '(_, g, l) := fold_left load_line (map snd lines) (0%nat, GambleDefinition_Clear, defList) in
  Some (finish g l).

Definition GetStandardCount (defList : list GambleDefinition) : Z := i32 (Z.of_nat (length defList)).

Definition GetGambleDefByTriggerItemID (defList : list GambleDefinition) (itemID : Z) : option GambleDefinition :=
  find_idx (fun g => triggerItemID g =? itemID) defList ≫= fun i => defList !! i.

(** ** Buying *)

Definition search_items (items : ItemManager) (g : GambleDefinition) : option (list ItemDef) :=
  let q := params g in
  if searchType g =? SEARCH_LINEARRANGE then EnumPointersByIDRange items (minID q) (maxID q)
  else if searchType g =? SEARCH_EQUIP then EnumPointersByRangeType items (minID q) (maxID q) (equipType q)
  else if searchType g =? SEARCH_QUERY then EnumPointersByQuery items q
  else Some [].

Definition RunPurchaseModifier (items : ItemManager) (defList : list GambleDefinition) (raw itemID : Z) : option Z :=
  match GetGambleDefByTriggerItemID defList itemID with
  | None => Some itemID
  | Some gDef =>
      if searchType gDef =? SEARCH_LIST then GetRandomSelection raw gDef
      else
        searchList ← search_items items gDef;
        if (length searchList =? 0)%nat then Some itemID
        else
          randIndex ← RandInt raw 0 (i32 (Z.of_nat (length searchList)) - 1);
          Some (match searchList !! Z.to_nat randIndex with Some d => mID d | None => itemID end)
  end.

(** *** Items that are made when they are bought *)

Definition MAX_QUALITY_LEVEL : nat := 6.

Record VirtualItemSpawnParams (P : Type) := mkSpawn {
  level : Z; rarity : Z; namedMob : bool; sp_EquipType : Z; sp_WeaponType : Z; minimumQuality : Z;
  dropRateProfile : P; dropMult : list Z (* floats *) }.
Arguments mkSpawn {P}. Arguments level {P}. Arguments sp_EquipType {P}. Arguments minimumQuality {P}.
Arguments rarity {P}. Arguments namedMob {P}. Arguments sp_WeaponType {P}. Arguments dropRateProfile {P}. Arguments dropMult {P}.

(** What [VirtualItem.cpp] and [DropTable.cpp] do for a purchase: the profiles of drop
    rates, and an item that is rolled with a random number. An item that is made has an
    identifier no item had; the others stay. *)
Class VirtualItems := {
  DropRateProfile : Type;
  GetProfileByName : string -> DropRateProfile;
  RollVirtualItem : ItemDb -> VirtualItemSpawnParams DropRateProfile -> Z -> Z * ItemDb;
  RollVirtualItem_keeps : forall db p raw ID d,
    @item_of db ID = Some d -> @item_of (snd (RollVirtualItem db p raw)) ID = Some d;
  RollVirtualItem_default : forall db p raw, @default_item (snd (RollVirtualItem db p raw)) = @default_item db }.

Definition SetAllDropMult (value : Z) : list Z := replicate (S MAX_QUALITY_LEVEL) value.

(** The parameters of the roll and the cost, when the item is gambled. *)
Definition CheckVirtualItemGamble `{VirtualItems} (itemDef : ItemDef) (charLevel : Z)
    : option (VirtualItemSpawnParams DropRateProfile * Z) :=
  let cfg := ConfigString_new (Params itemDef) in
  if GetValueInt cfg "gamble" =? 0 then None
  else
    let costperlevel := GetValueInt cfg "cost_per_level" in
    let lvl := if charLevel <? mMinUseLevel itemDef then mMinUseLevel itemDef else charLevel in
    let cost := i32 (lvl * costperlevel) in
    Some (mkSpawn lvl 0 false (mEquipType itemDef) (mWeaponType itemDef) (mQualityLevel itemDef)
            (GetProfileByName (GetValueString cfg "drop_rate_profile")) (SetAllDropMult (GetValueFloat cfg "drop_rate_bonus")),
          if cost <? mValue itemDef then mValue itemDef else cost).

(** ** Theorems *)

(** Every item as often as it has shares. *)
Definition shares (l : list GambleItemSelection) : list Z := flat_map (fun s => replicate (Z.to_nat (Shares s)) (ItemID s)) l.

Lemma sumZ_nonneg_shares l : Forall (fun s => 0 <= Shares s) l -> 0 <= sumZ Shares l.
Proof. induction 1; simpl; lia. Qed.

Lemma pick_spec l : forall base rnd,
  Forall (fun s => 0 <= Shares s) l -> 0 <= base -> base + sumZ Shares l < 2 ^ 31 ->
  base <= rnd < base + sumZ Shares l -> shares l !! Z.to_nat (rnd - base) = Some (pick rnd base l).
Proof.
  induction l as [|s l IH]; intros base rnd H H0 Hs Hr; simpl in *; [lia|].
  apply list.Forall_cons in H as [Hn H]. pose proof (sumZ_nonneg_shares l H) as Hp.
  rewrite !i32_id by (unfold in_signed; lia). fold (shares l).
  destruct ((base <=? rnd) && (rnd <=? base + Shares s - 1)) eqn:E; to_prop.
  - rewrite lookup_app_l by (rewrite length_replicate; lia). by rewrite lookup_replicate_2 by lia.
  - assert (base + Shares s <= rnd) as Hge by (destruct E; to_prop; lia).
    rewrite lookup_app_r by (rewrite length_replicate; lia). rewrite length_replicate.
    replace (Z.to_nat (rnd - base) - Z.to_nat (Shares s))%nat with (Z.to_nat (rnd - (base + Shares s))) by lia.
    apply IH; [done|lia..].
Qed.

Lemma maxShares_from l : forall n,
  Forall (fun s => 0 <= Shares s) l -> 0 <= n -> n + sumZ Shares l < 2 ^ 31 ->
  fold_left (fun n s => i32 (n + Shares s)) l n = n + sumZ Shares l.
Proof.
  induction l as [|s l IH]; intros n H H0 Hs; simpl in *; [lia|].
  apply list.Forall_cons in H as [Hn H]. pose proof (sumZ_nonneg_shares l H) as Hp.
  rewrite i32_id by (unfold in_signed; lia). rewrite IH by (done || lia). lia.
Qed.

(** C0. A gamble gives each item with the weight of its shares: with the shares laid out
    one after the other, the item that a random number chooses is the one at its
    place. *)
Theorem shares_decide (g : GambleDefinition) (raw : Z)
    (Hn : Forall (fun s => 0 <= Shares s) (itemSelection g)) (Hs : 0 < sumZ Shares (itemSelection g) < 2 ^ 31 - 1) :
  GetRandomSelection raw g = shares (itemSelection g) !! Z.to_nat (raw mod sumZ Shares (itemSelection g)).
Proof.
  unfold GetRandomSelection, maxShares. rewrite maxShares_from by (done || lia). rewrite Z.add_0_l. unfold RandInt.
  rewrite (proj2 (Z.ltb_ge _ _)) by lia. simpl. set (t := sumZ Shares (itemSelection g)) in *.
  replace (t - 1 + 1) with t by lia. pose proof (Z.mod_pos_bound raw t ltac:(lia)).
  rewrite <- (pick_spec _ 1) by (done || (fold t; lia)). f_equal. lia.
Qed.

Definition example_gamble : GambleDefinition :=
  AddItemSelections "101:2,102:1,103" (set_triggerItemID 7 (set_searchType SEARCH_LIST GambleDefinition_Clear)).

Lemma shares_decide_witness :
  map (fun raw => GetRandomSelection raw example_gamble) [0; 1; 2; 3] = [Some 101; Some 101; Some 102; Some 101].
Proof.
  assert (Forall (fun s => 0 <= Shares s) (itemSelection example_gamble)) as Hn by (repeat constructor; vm_compute; discriminate).
  cbn [map]. rewrite (shares_decide example_gamble 0), (shares_decide example_gamble 1), (shares_decide example_gamble 2),
    (shares_decide example_gamble 3); try exact Hn; try (by vm_compute); reflexivity.
Defined.

(** A list without shares is undefined behaviour: the range of the random number is empty. *)
Lemma no_shares raw : GetRandomSelection raw (set_itemSelection [] example_gamble) = None.
Proof. done. Qed.

(** The fields of an entry without a search type are kept for the next one. *)
Lemma fields_leak :
  (fun l => map itemSelection l) <$> LoadFile (Join ["[ENTRY]"; "ItemSelection=5:1"; "[ENTRY]"; "SearchType=list"; "ItemSelection=6:1"]
    (String newline EmptyString))%string [] = Some [[mkSelection 5 1; mkSelection 6 1]].
Proof. by vm_compute. Qed.
