(* ===== verification/Shop.v ===== *)
(** * Shops: vendors, the buyback list and essence shops

    Models [src/SOURCE/Server/EssenceShop.h] and [EssenceShop.cpp], of
    [query/TradeHandlers.cpp] the queries [trade.shop] and [trade.essence], and of
    [query/ItemHandlers.cpp] the queries [shop.contents] and [essenceShop.contents]. A
    result [None] is undefined behaviour: a container that does not exist, a pointer to
    an item that has moved, an empty range of random numbers. *)

From S2P Require Import Prelude ByteBuffer Messages Text Float Items Inventory FileReader ConfigString Gamble.

(** ** Essence shops *)

Record EssenceShopItem := mkShopItem { es_ItemID : Z; EssenceCost : Z }.

Record EssenceShop := mkShop { CreatureDefID : Z; EssenceID : Z; EssenceList : list EssenceShopItem }.

Definition EssenceShop_Clear : EssenceShop := mkShop 0 0 [].

Definition set_CreatureDefID (id : Z) (s : EssenceShop) : EssenceShop := mkShop id (EssenceID s) (EssenceList s).
Definition set_EssenceID (id : Z) (s : EssenceShop) : EssenceShop := mkShop (CreatureDefID s) id (EssenceList s).

Definition AddItem (id cost : Z) (s : EssenceShop) : EssenceShop :=
  mkShop (CreatureDefID s) (EssenceID s) (EssenceList s ++ [mkShopItem id cost]).

(** A reply of rows; the rows of a shop always fit ([None] when there are too many). *)
Definition write_rows (queryID : Z) (rows : list (list string)) : option (list Z) :=
  match QueryResponse.Write (fold_left QueryResponse.AddRow rows (QueryResponse.new queryID)) with
  | inl _ => None
  | inr (bytes, _) => Some bytes
  end.

Definition WriteQueryEssenceShop (queryID : Z) (s : EssenceShop) : option (list Z) :=
  write_rows queryID ([sprintf_d (EssenceID s); "0"%string]
    :: map (fun i => [GetItemProto (es_ItemID i) 0; sprintf_d (EssenceCost i)]) (EssenceList s)).

Definition WriteQueryShop (queryID : Z) (s : EssenceShop) : option (list Z) :=
  write_rows queryID (map (fun i => [GetItemProto (es_ItemID i) 0]) (EssenceList s)).

(** [strstr], and [strchr] for the colon. *)
Definition strstr (s word : string) : option string :=
  i ← String.index 0 word s; Some (String.substring i (String.length s - i) s).

Definition GetItemIDFromProto (itemProtoStr : string) : Z :=
  match strstr itemProtoStr "item" with
  | None => 0
  | Some pos =>
      match String.index 0 ":" pos with
      | None => 0
      | Some epos => atoi (String.substring 4 (epos - 4) pos)
      end
  end.

Definition GetTradeIndexByID (itemID : Z) (s : EssenceShop) : Z := idx (find_idx (fun i => es_ItemID i =? itemID) (EssenceList s)).

Abbreviation EssenceShopContainer := (list EssenceShop).

Definition GetShopByCDefID (cdefid : Z) (l : EssenceShopContainer) : option nat := find_idx (fun s => CreatureDefID s =? cdefid) l.

(** 0 bytes when there is no such shop. *)
Definition ProcessQueryEssenceShop (cdefid queryID : Z) (l : EssenceShopContainer) : option (list Z) :=
  match GetShopByCDefID cdefid l ≫= fun i => l !! i with
  | Some s => WriteQueryEssenceShop queryID s
  | None => Some []
  end.

Definition ProcessQueryShop (cdefid queryID : Z) (l : EssenceShopContainer) : option (list Z) :=
  match GetShopByCDefID cdefid l ≫= fun i => l !! i with
  | Some s => WriteQueryShop queryID s
  | None => Some []
  end.

(** The shop of the creature and the item that is named. *)
Definition GetEssenceShopPtr (cdefid : Z) (itemproto : string) (l : EssenceShopContainer) : option (EssenceShop * EssenceShopItem) :=
  s ← (GetShopByCDefID cdefid l ≫= fun i => l !! i);
  let itemid := GetItemIDFromProto itemproto in
  if itemid <=? 0 then None
  else i ← find_idx (fun i => es_ItemID i =? itemid) (EssenceList s); item ← EssenceList s !! i; Some (s, item).

(** ** The file of the shops *)

Definition IsInteger (str : string) : bool := all_chars (fun c => (48 <=? code c) && (code c <=? 57)) str.

Definition ResolveItemIdentifier (items : ItemManager) (str : string) : Z :=
  if IsInteger str then atoi str else mID (fst (GetSafePointerByExactName items str)).

(** An entry ends where the next begins; one without a creature is not cleared. *)
Definition finish_shop (s : EssenceShop) (l : EssenceShopContainer) : EssenceShop * EssenceShopContainer :=
  if CreatureDefID s =? 0 then (s, l) else (EssenceShop_Clear, l ++ [s]).

Definition load_line (items : ItemManager) (st : EssenceShop * EssenceShopContainer) (line : string) : EssenceShop * EssenceShopContainer :=
  let '(newItem, l) := st in
  match MultiBreak "=," line with
  | [] => st
  | b0 :: _ as blocks =>
      let key := ToUpperCase b0 in
      let value := default EmptyString (block blocks 1) in
      if String.eqb key "[ENTRY]" then finish_shop newItem l
      else if String.eqb key "CREATUREDEFID" then (set_CreatureDefID (atoi value) newItem, l)
      else if String.eqb key "ESSENCEID" then (set_EssenceID (atoi value) newItem, l)
      else if String.eqb key "ITEM" then
        let id := ResolveItemIdentifier items value in
        if id <=? 0 then st
        else (AddItem id (atoi (default EmptyString (block blocks 2))) newItem, l)
      else st
  end.

Definition LoadFromFile (items : ItemManager) (file : string) (l : EssenceShopContainer) : option EssenceShopContainer :=
  lines ← read_file (file_fuel file) (set_CommentStyle Comment_Semi (OpenText file));
  let '(newItem, l') := fold_left (load_line items) (map snd lines) (EssenceShop_Clear, l) in
  Some (snd (finish_shop newItem l')).

(** ** A customer *)

Inductive Output :=
| Activate (IID : Z)               (* ActivateActionAbilities *)
| Destroyed (itemID : Z)           (* NotifyDestroy *)
| StatUpdate (stat : Z).           (* SendStatUpdate *)

(** The definitions of items, since a purchase may make one; the inventory and the
    changes of the character; the coins and the level of the creature. *)
Record Customer := mkCustomer {
  db : ItemDb; inv : InventoryManager; pendingChanges : Z; copper : Z; level : Z; out : list Output }.

Definition set_db (d : ItemDb) (w : Customer) : Customer := mkCustomer d (inv w) (pendingChanges w) (copper w) (level w) (out w).
Definition set_inv (m : InventoryManager) (w : Customer) : Customer := mkCustomer (db w) m (pendingChanges w) (copper w) (level w) (out w).
Definition add_pending (w : Customer) : Customer :=
  mkCustomer (db w) (inv w) (i32 (pendingChanges w + 1)) (copper w) (level w) (out w).
Definition emit (o : list Output) (w : Customer) : Customer := mkCustomer (db w) (inv w) (pendingChanges w) (copper w) (level w) (out w ++ o).

Definition STAT_COPPER : Z := 114.

Definition AdjustCopper (coinChange : Z) (w : Customer) : Customer :=
  let n := i32 (copper w + coinChange) in
  emit [StatUpdate STAT_COPPER] (mkCustomer (db w) (inv w) (pendingChanges w) (if n <? 0 then 0 else n) (level w) (out w)).

(** [(int)(mValue * g_VendorMarkup)]: a product of a [double], which 2.5 times an [int]
    is without rounding. *)
Definition g_VendorMarkup : Z * Z := (5, 2).
Definition markup_cost (mValue : Z) : Z :=
  truncate (round_ratio double (mValue <? 0) (Z.abs mValue * fst g_VendorMarkup) (snd g_VendorMarkup)).

(** ** The queries *)

Section Queries.
Context `{VirtualItems} (g_ItemManager : ItemManager) (g_GambleManager : list GambleDefinition).
(** The shops of the instance and the definitions of its creatures. *)
Context (itemShopList essenceShopList : EssenceShopContainer) (NPCList : gmap Z Z).
(** [room n]: a vector of [n] slots takes another one without moving them. *)
Context (g_ServerTime BuybackLimit : Z) (room : nat -> bool).
(** The random numbers of the purchase. *)
Context (raw1 raw2 : Z) (queryID : Z).

Definition ResolveCreatureDef (CreatureID : Z) : Z := default (-1) (NPCList !! CreatureID).

Definition reply (s : string) : list Z := PrepExt_QueryResponseString queryID s.
Definition reply_error (s : string) : list Z := PrepExt_QueryResponseError queryID s.

(** [SafeCopy] to [Aux1]. *)
Definition in_Aux1 (s : string) : string := String.substring 0 4095 (cstr s).

Definition item_def (w : Customer) (ID : Z) : option ItemDef := @item_of (db w) ID.

(** A pointer of the inventory: [Some None] is null. *)
Definition item_ptr (w : Customer) (ccsid : Z) : option (option (Z * nat)) :=
  if MAXCONTAINER <=? container_of ccsid then None else Some (GetItemPtrByCCSID (inv w) ccsid).

(** Whether the slot stays where it is when one is added at the end of container [c], the
    first one erased before if [full]. *)
Definition stays (m : InventoryManager) (p : Z * nat) (c : Z) (full : bool) : bool :=
  negb (fst p =? c) || (negb full && room (length (cont m c))).

(** *** Selling *)

Definition buyback_full (m : InventoryManager) : bool := BuybackLimit <=? Z.of_nat (length (cont m BUYBACK_CONTAINER)).

Definition helper_trade_shop_sell (itemHex : string) (w : Customer) : option (list Z * Customer) :=
  let CCSID_ := u32 (strtol (cstr itemHex) 16) in
  p ← item_ptr w CCSID_;
  match p with
  | None => Some (reply_error "Item not found in inventory.", w)
  | Some p =>
      item ← deref (inv w) p;
      match item_def w (IID item) with
      | None => Some (reply_error "Item does not exist in server database.", w)
      | Some d =>
          let cost := i32 (mValue d * @GetStackCount (db w) item) in
          '(packet, destroyed, m) ← AddBuyBack g_ServerTime BuybackLimit (inv w) item;
          if stays (inv w) p BUYBACK_CONTAINER (buyback_full (inv w)) then
            let w1 := emit (map Destroyed (option_list destroyed)) (set_inv (snd (RemItem m CCSID_)) w) in
            Some (reply "OK" ++ packet ++ Global.RemoveItemUpdate item, AdjustCopper cost (add_pending w1))
          else None
      end
  end.

(** *** Buying back *)

Definition helper_trade_shop_buyback (CCSID_ : Z) (w : Customer) : option (list Z * Customer) :=
  p ← item_ptr w CCSID_;
  match p with
  | None => Some (reply_error "Item not found in buyback list.", w)
  | Some p =>
      buybackItem ← deref (inv w) p;
      let freeslot := GetFreeSlot (inv w) INV_CONTAINER in
      if freeslot =? -1 then Some (reply_error "No free inventory space.", w)
      else
        match item_def w (IID buybackItem) with
        | None => Some (reply_error "Item does not exist in database.", w)
        | Some d =>
            let cost := i32 (mValue d * @GetStackCount (db w) buybackItem) in
            if copper w <? cost then Some (reply_error "Not enough coin.", w)
            else
              let newItem := set_CCSID (GetCCSID INV_CONTAINER freeslot) (CopyFrom InventorySlot_new buybackItem false) in
              let '(r, m) := Inventory.AddItem g_ServerTime (inv w) INV_CONTAINER newItem in
              if r =? -1 then Some (reply_error "Failed to create item.", set_inv m w)
              else if stays (inv w) p INV_CONTAINER false then
                let w1 := add_pending (add_pending (set_inv (snd (RemItem m (CCSID buybackItem))) w)) in
                Some (Global.RemoveItemUpdate buybackItem ++ Global.AddItemUpdate g_ServerTime newItem ++ reply "OK",
                      AdjustCopper (- cost) w1)
              else None
        end
  end.

(** *** Buying *)

Definition add_error (m : InventoryManager) : list Z :=
  reply (if LastError m =? ERR.ERROR_ITEM then "Server error: item does not exist."
         else if LastError m =? ERR.ERROR_SPACE then "You do not have any free inventory space."
         else if LastError m =? ERR.ERROR_LIMIT then "You already the maximum amount of these items."
         else "Server error: undefined error.").

(** What the item becomes: the identifier, the cost and the definitions, or [None] when the
    coins do not suffice for an item that is made. *)
Definition gambled (d : ItemDef) (cost : Z) (w : Customer) : option (option (Z * Z * ItemDb)) :=
  newItemID ← RunPurchaseModifier g_ItemManager g_GambleManager raw1 (mID d);
  Some (if newItemID =? mID d then
          match CheckVirtualItemGamble d (level w) with
          | Some (viParam, cost') =>
              if copper w <? cost' then None
              else let '(id, db') := RollVirtualItem (db w) viParam raw2 in Some (id, cost', db')
          | None => Some (newItemID, cost, db w)
          end
        else Some (newItemID, cost, db w)).

Definition purchase (itemID : Z) (w : Customer) : option (list Z * Customer) :=
  match item_def w itemID with
  | None => Some (reply "Server error: item does not exist.", w)
  | Some d =>
      let cost := markup_cost (mValue d) in
      if copper w <? cost then Some (reply "Not enough coin.", w)
      else
        g ← gambled d cost w;
        match g with
        | None => Some (reply "Not enough coin.", w)
        | Some (newItemID, cost', db') =>
            let w' := set_db db' w in
            if newItemID =? 0 then Some (reply "A purchase modifier has failed.", w')
            else
              match @AddItem_Ex db' g_ServerTime (inv w') INV_CONTAINER newItemID 1 with
              | (None, m) => Some (add_error m, add_pending (set_inv m w'))
              | (Some i, m) =>
                  slot ← cont m INV_CONTAINER !! i;
                  Some (reply "OK" ++ Global.AddItemUpdate g_ServerTime slot,
                        AdjustCopper (- cost') (emit [Activate (IID slot)] (set_inv m w')))
              end
        end
  end.

(** [mGrove] and [admin] are the zone of the player and its permission. *)
Definition TradeShopHandler (mGrove admin : bool) (args : list string) (w : Customer) : option (list Z * Customer) :=
  match args with
  | creature :: choice :: more =>
      if mGrove && negb admin then Some (reply_error "You cannot use shops in a grove.", w)
      else if String.eqb choice "sell" then
        match more with
        | hex :: _ => helper_trade_shop_sell hex w
        | [] => Some (reply "OK", w)
        end
      else
        let proto := in_Aux1 choice in
        match GetEssenceShopPtr (ResolveCreatureDef (atoi (cstr creature))) proto itemShopList with
        | Some (_, item) => purchase (es_ItemID item) w
        | None =>
            '(bytes, w') ← helper_trade_shop_buyback (u32 (strtol proto 16)) w;
            Some (if (0 <? length bytes)%nat then bytes else reply_error "Failed to determine item selection.", w')
        end
  | _ => Some (reply "OK", w)
  end.

(** *** Essences *)

Definition TradeEssenceHandler (args : list string) (w : Customer) : option (list Z * Customer) :=
  match args with
  | creature :: choice :: _ =>
      match GetEssenceShopPtr (ResolveCreatureDef (atoi (cstr creature))) (in_Aux1 choice) essenceShopList with
      | None => Some (reply_error "Failed to determine item selection.", w)
      | Some (shop, item) =>
          if i32 (@GetItemCount (db w) (inv w) INV_CONTAINER (EssenceID shop)) <? EssenceCost item then
            Some (reply "You do not have enough essences.", w)
          else
            match @AddItem_Ex (db w) g_ServerTime (inv w) INV_CONTAINER (es_ItemID item) 1 with
            | (None, m) => Some (add_error m, add_pending (set_inv m w))
            | (Some i, m) =>
                slot ← cont m INV_CONTAINER !! i;
                '(packet, m') ← @RemoveItemsAndUpdate (db w) g_ServerTime m INV_CONTAINER (EssenceID shop) (EssenceCost item);
                Some (PrepExt_QueryResponseStringList queryID ["OK"%string; sprintf_d (EssenceCost item)]
                        ++ Global.AddItemUpdate g_ServerTime slot ++ packet,
                      add_pending (emit [Activate (IID slot)] (set_inv m' w)))
            end
      end
  | _ => Some ([], w)
  end.

(** *** The contents *)

Definition not_found (what : string) (CDef : Z) : list Z := reply_error (what +:+ sprintf_d CDef +:+ "]").

Definition ShopContentsHandler (CreatureID : Z) (args : list string) (w : Customer) : option (list Z) :=
  match args with
  | [] => Some []
  | creature :: _ =>
      let CID := atoi (cstr creature) in
      if CID =? CreatureID then
        write_rows queryID (map (fun s => [GetItemProto (IID s) 0]) (cont (inv w) BUYBACK_CONTAINER))
      else
        bytes ← ProcessQueryShop (ResolveCreatureDef CID) queryID itemShopList;
        Some (if (length bytes =? 0)%nat then not_found "Shop Contents not found for [" (ResolveCreatureDef CID) else bytes)
  end.

Definition EssenceShopContentsHandler (args : list string) : option (list Z) :=
  match args with
  | [] => Some []
  | creature :: _ =>
      let CDef := ResolveCreatureDef (atoi (cstr creature)) in
      bytes ← ProcessQueryEssenceShop CDef queryID essenceShopList;
      Some (if (length bytes =? 0)%nat then not_found "EssenceShop not found for [" CDef else bytes)
  end.

End Queries.
