(* ===== verification/Script.v ===== *)
(** * The script compiler ([ScriptCore.h], [ScriptCore.cpp])

    The server's own script language (TSL): a line-oriented text is compiled into
    instructions. Modelled are [ScriptDef], the compiled script, and
    [ScriptCompiler], the data kept while compiling. [ScriptPlayer] runs the
    result.

    A class derived from [ScriptDef] adds instructions, metadata and commands of
    its own through virtual methods: they are the class [CompilerHost], its laws
    [CompilerHostLaws]. [None] is undefined behaviour (a vector indexed out of
    range). Error messages are left out, and with them the name of the source
    file. *)

From S2P Require Import Prelude Text Float FileReader.

(** ** Instructions *)

Inductive CoreOpCodes :=
  | OP_NOP | OP_END | OP_GOTO | OP_RESETGOTO | OP_PRINT | OP_PRINTVAR | OP_PRINTAPPVAR
  | OP_PRINTINTARR | OP_WAIT | OP_INC | OP_DEC | OP_SET | OP_COPYVAR | OP_GETAPPVAR
  | OP_CALL | OP_RETURN | OP_IARRAPPEND | OP_IARRDELETE | OP_IARRVALUE | OP_IARRCLEAR
  | OP_IARRSIZE | OP_QUEUEEVENT | OP_EXECQUEUE | OP_PUSHVAR | OP_PUSHINT | OP_PUSHFLOAT
  | OP_PUSHAPPVAR | OP_POP | OP_CMP | OP_JMP.

(** The enumerators in the order of the [enum]; the value of one is its place. *)
Definition core_opcodes : list CoreOpCodes :=
  [OP_NOP; OP_END; OP_GOTO; OP_RESETGOTO; OP_PRINT; OP_PRINTVAR; OP_PRINTAPPVAR;
   OP_PRINTINTARR; OP_WAIT; OP_INC; OP_DEC; OP_SET; OP_COPYVAR; OP_GETAPPVAR;
   OP_CALL; OP_RETURN; OP_IARRAPPEND; OP_IARRDELETE; OP_IARRVALUE; OP_IARRCLEAR;
   OP_IARRSIZE; OP_QUEUEEVENT; OP_EXECQUEUE; OP_PUSHVAR; OP_PUSHINT; OP_PUSHFLOAT;
   OP_PUSHAPPVAR; OP_POP; OP_CMP; OP_JMP].

#[export] Instance CoreOpCodes_eq_dec : EqDecision CoreOpCodes.
Proof. solve_decision. Defined.

Definition op_code (o : CoreOpCodes) : Z :=
  idx (find_idx (fun o' => bool_decide (o = o')) core_opcodes).

Definition OP_MAXCOREOPCODE : Z := Z.of_nat (length core_opcodes).

(** The enumerator an integer is compared with in a [switch], if it is one. *)
Definition core_op (z : Z) : option CoreOpCodes :=
  if z <? 0 then None else core_opcodes !! Z.to_nat z.

Inductive OpCodeParamType :=
  | OPT_NONE | OPT_LABEL | OPT_STR | OPT_INT | OPT_BOOL | OPT_FLOAT | OPT_VAR
  | OPT_APPINT | OPT_INTSTK | OPT_INTARR | OPT_TABLE.

#[export] Instance OpCodeParamType_eq_dec : EqDecision OpCodeParamType.
Proof. solve_decision. Defined.

Inductive ComparisonType := CMP_INV | CMP_EQ | CMP_NEQ | CMP_LT | CMP_LTE | CMP_GT | CMP_GTE.

#[export] Instance ComparisonType_eq_dec : EqDecision ComparisonType.
Proof. solve_decision. Defined.

Definition cmp_code (c : ComparisonType) : Z :=
  match c with
  | CMP_INV => 0 | CMP_EQ => 1 | CMP_NEQ => 2 | CMP_LT => 3
  | CMP_LTE => 4 | CMP_GT => 5 | CMP_GTE => 6
  end.

Record OpCodeInfo := mkInfo {
  name : string;
  info_opCode : Z;
  numParams : nat;
  paramType : list OpCodeParamType }.

Definition defCoreOpCode : list OpCodeInfo := [
  mkInfo "nop"          (op_code OP_NOP)         0 [OPT_NONE;   OPT_NONE;   OPT_NONE];
  mkInfo "end"          (op_code OP_END)         0 [OPT_NONE;   OPT_NONE;   OPT_NONE];
  mkInfo "goto"         (op_code OP_GOTO)        1 [OPT_LABEL;  OPT_NONE;   OPT_NONE];
  mkInfo "reset_goto"   (op_code OP_RESETGOTO)   1 [OPT_LABEL;  OPT_NONE;   OPT_NONE];
  mkInfo "print"        (op_code OP_PRINT)       1 [OPT_STR;    OPT_NONE;   OPT_NONE];
  mkInfo "printvar"     (op_code OP_PRINTVAR)    1 [OPT_VAR;    OPT_NONE;   OPT_NONE];
  mkInfo "printappvar"  (op_code OP_PRINTAPPVAR) 1 [OPT_STR;    OPT_NONE;   OPT_NONE];
  mkInfo "printintarr"  (op_code OP_PRINTINTARR) 1 [OPT_INTARR; OPT_NONE;   OPT_NONE];
  mkInfo "wait"         (op_code OP_WAIT)        1 [OPT_INT;    OPT_NONE;   OPT_NONE];
  mkInfo "inc"          (op_code OP_INC)         1 [OPT_VAR;    OPT_NONE;   OPT_NONE];
  mkInfo "dec"          (op_code OP_DEC)         1 [OPT_VAR;    OPT_NONE;   OPT_NONE];
  mkInfo "set"          (op_code OP_SET)         2 [OPT_VAR;    OPT_INT;    OPT_NONE];
  mkInfo "copyvar"      (op_code OP_COPYVAR)     2 [OPT_VAR;    OPT_VAR;    OPT_NONE];
  mkInfo "getappvar"    (op_code OP_GETAPPVAR)   2 [OPT_STR;    OPT_VAR;    OPT_NONE];
  mkInfo "call"         (op_code OP_CALL)        1 [OPT_LABEL;  OPT_NONE;   OPT_NONE];
  mkInfo "return"       (op_code OP_RETURN)      0 [OPT_NONE;   OPT_NONE;   OPT_NONE];
  mkInfo "iarrappend"   (op_code OP_IARRAPPEND)  2 [OPT_INTARR; OPT_INTSTK; OPT_NONE];
  mkInfo "iarrdelete"   (op_code OP_IARRDELETE)  2 [OPT_INTARR; OPT_INTSTK; OPT_NONE];
  mkInfo "iarrvalue"    (op_code OP_IARRVALUE)   3 [OPT_INTARR; OPT_INTSTK; OPT_VAR];
  mkInfo "iarrclear"    (op_code OP_IARRCLEAR)   1 [OPT_INTARR; OPT_NONE;   OPT_NONE];
  mkInfo "iarrsize"     (op_code OP_IARRSIZE)    2 [OPT_INTARR; OPT_VAR;    OPT_NONE];
  mkInfo "queue_event"  (op_code OP_QUEUEEVENT)  2 [OPT_STR;    OPT_INT;    OPT_NONE];
  mkInfo "exec_queue"   (op_code OP_EXECQUEUE)   0 [OPT_NONE;   OPT_NONE;   OPT_NONE];
  mkInfo "pushvar"      (op_code OP_PUSHVAR)     1 [OPT_VAR;    OPT_NONE;   OPT_NONE];
  mkInfo "pushint"      (op_code OP_PUSHINT)     1 [OPT_INT;    OPT_NONE;   OPT_NONE];
  mkInfo "pop"          (op_code OP_POP)         1 [OPT_VAR;    OPT_NONE;   OPT_NONE];
  mkInfo "_pushappvar"  (op_code OP_PUSHAPPVAR)  0 [OPT_NONE;   OPT_NONE;   OPT_NONE];
  mkInfo "_cmp"         (op_code OP_CMP)         0 [OPT_NONE;   OPT_NONE;   OPT_NONE];
  mkInfo "_jmp"         (op_code OP_JMP)         0 [OPT_NONE;   OPT_NONE;   OPT_NONE] ].

(** The table [ScriptCore::extCoreOpCode] of the base class. *)
Definition extCoreOpCode : list OpCodeInfo :=
  [mkInfo "nop" (op_code OP_NOP) 0 [OPT_NONE; OPT_NONE; OPT_NONE]].

(** ** The compiled script *)

Record OpData := mkOp { opCode : Z; param1 : Z; param2 : Z; param3 : Z }.

(** The [OpData] constructors: the opcode is kept in an [unsigned char]. *)
Definition newOp (op p1 p2 p3 : Z) : OpData := mkOp (u8 op) p1 p2 p3.

Record LabelDef := mkLabel { label_name : string; instrOffset : Z }.

Definition MAX_ARRAY_DATA_SIZE : Z := 64.

Record IntArray := mkIntArray { array_name : string; arrayData : list Z }.

Inductive CallStyle := CALLSTYLE_CALL | CALLSTYLE_GOTO.

Definition FLAG_REPORT_END : Z := 1.
Definition FLAG_REPORT_LABEL : Z := 2.
Definition FLAG_REPORT_ALL : Z := 0x0FFFFFFF.
Definition FLAG_BITS : Z := 0xFFFFFFFF.
Definition FLAG_DEFAULT : Z := FLAG_REPORT_ALL.

Record ScriptDef := mkDef {
  scriptName : string;
  instr : list OpData;
  stringList : list string;
  label : list LabelDef;
  varName : list string;
  curInst : Z;
  mLabelMap : gmap string Z;
  mIntArray : list IntArray;
  scriptSpeed : Z;
  scriptIdleSpeed : Z;
  queueExternalJumps : bool;
  queueCallStyle : CallStyle;
  mFlags : Z }.

(** [ScriptDef()] and [ClearBase()]. *)
Definition newDef : ScriptDef := mkDef EmptyString [] [] [] [] 0 ∅ [] 1 0 false CALLSTYLE_CALL FLAG_DEFAULT.

Definition set_scriptName v d := mkDef v (instr d) (stringList d) (label d) (varName d) (curInst d) (mLabelMap d) (mIntArray d) (scriptSpeed d) (scriptIdleSpeed d) (queueExternalJumps d) (queueCallStyle d) (mFlags d).
Definition set_instr v d := mkDef (scriptName d) v (stringList d) (label d) (varName d) (curInst d) (mLabelMap d) (mIntArray d) (scriptSpeed d) (scriptIdleSpeed d) (queueExternalJumps d) (queueCallStyle d) (mFlags d).
Definition set_stringList v d := mkDef (scriptName d) (instr d) v (label d) (varName d) (curInst d) (mLabelMap d) (mIntArray d) (scriptSpeed d) (scriptIdleSpeed d) (queueExternalJumps d) (queueCallStyle d) (mFlags d).
Definition set_label v m d := mkDef (scriptName d) (instr d) (stringList d) v (varName d) (curInst d) m (mIntArray d) (scriptSpeed d) (scriptIdleSpeed d) (queueExternalJumps d) (queueCallStyle d) (mFlags d).
Definition set_varName v d := mkDef (scriptName d) (instr d) (stringList d) (label d) v (curInst d) (mLabelMap d) (mIntArray d) (scriptSpeed d) (scriptIdleSpeed d) (queueExternalJumps d) (queueCallStyle d) (mFlags d).
Definition set_mIntArray v d := mkDef (scriptName d) (instr d) (stringList d) (label d) (varName d) (curInst d) (mLabelMap d) v (scriptSpeed d) (scriptIdleSpeed d) (queueExternalJumps d) (queueCallStyle d) (mFlags d).
Definition set_speeds v i d := mkDef (scriptName d) (instr d) (stringList d) (label d) (varName d) (curInst d) (mLabelMap d) (mIntArray d) v i (queueExternalJumps d) (queueCallStyle d) (mFlags d).
Definition set_queue b s d := mkDef (scriptName d) (instr d) (stringList d) (label d) (varName d) (curInst d) (mLabelMap d) (mIntArray d) (scriptSpeed d) (scriptIdleSpeed d) b s (mFlags d).
Definition set_mFlags v d := mkDef (scriptName d) (instr d) (stringList d) (label d) (varName d) (curInst d) (mLabelMap d) (mIntArray d) (scriptSpeed d) (scriptIdleSpeed d) (queueExternalJumps d) (queueCallStyle d) v.

(** ** The data of a compilation *)

Record BlockData := mkBlock {
  mLineNumber : Z; mInstIndex : Z; mInstIndexElse : Z; mNestLevel : Z;
  mResolved : bool; mUseElse : bool }.

Record ScriptCompiler := mkCompiler {
  mCurrentNestLevel : Z;
  mBlockData : list BlockData;
  compile_line : Z;                     (* mLineNumber *)
  mTokens : list string;
  mInlineBeginInstr : Z;
  mSymbols : gmap string string;
  mPendingLabelReference : list Z }.

Definition newCompiler : ScriptCompiler := mkCompiler 0 [] 0 [] 0 ∅ [].

Definition set_blocks n v c := mkCompiler n v (compile_line c) (mTokens c) (mInlineBeginInstr c) (mSymbols c) (mPendingLabelReference c).
Definition set_line v c := mkCompiler (mCurrentNestLevel c) (mBlockData c) v (mTokens c) (mInlineBeginInstr c) (mSymbols c) (mPendingLabelReference c).
Definition set_tokens v c := mkCompiler (mCurrentNestLevel c) (mBlockData c) (compile_line c) v (mInlineBeginInstr c) (mSymbols c) (mPendingLabelReference c).
Definition set_inline v c := mkCompiler (mCurrentNestLevel c) (mBlockData c) (compile_line c) (mTokens c) v (mSymbols c) (mPendingLabelReference c).
Definition set_symbols v c := mkCompiler (mCurrentNestLevel c) (mBlockData c) (compile_line c) (mTokens c) (mInlineBeginInstr c) v (mPendingLabelReference c).
Definition set_pending v c := mkCompiler (mCurrentNestLevel c) (mBlockData c) (compile_line c) (mTokens c) (mInlineBeginInstr c) (mSymbols c) v.

(** *** [ScriptCompiler] *)

Definition OpenBlock (lineNumber instructionIndex : Z) (c : ScriptCompiler) : ScriptCompiler :=
  set_blocks (mCurrentNestLevel c + 1)
    (mBlockData c ++ [mkBlock lineNumber instructionIndex 0 (mCurrentNestLevel c) false false]) c.

(** The loop [for(i = size - 1; i >= 0; i--) if(!mBlockData[i].mResolved) ...]. *)
Fixpoint last_unresolved (i : nat) (blocks : list BlockData) : option nat :=
  match i with
  | O => None
  | S i' =>
      match blocks !! i' with
      | Some b => if mResolved b then last_unresolved i' blocks else Some i'
      | None => None
      end
  end.

Definition GetLastUnresolvedBlock (c : ScriptCompiler) : option nat :=
  last_unresolved (length (mBlockData c)) (mBlockData c).

Definition resolve_block (b : BlockData) : BlockData :=
  mkBlock (mLineNumber b) (mInstIndex b) (mInstIndexElse b) (mNestLevel b) true (mUseElse b).

Definition else_block (inst : Z) (b : BlockData) : BlockData :=
  mkBlock (mLineNumber b) (mInstIndex b) inst (mNestLevel b) (mResolved b) true.

Definition CloseBlock (c : ScriptCompiler) : ScriptCompiler * bool :=
  match GetLastUnresolvedBlock c with
  | Some i => (set_blocks (mCurrentNestLevel c - 1) (alter resolve_block i (mBlockData c)) c, true)
  | None => (c, false)
  end.

Definition AddSymbol (key value : string) (c : ScriptCompiler) : ScriptCompiler :=
  set_symbols (<[key := value]> (mSymbols c)) c.

Definition HasSymbol (token : string) (c : ScriptCompiler) : bool :=
  match mSymbols c !! token with Some _ => true | None => false end.

Definition replace_symbol (c : ScriptCompiler) (token : string) : string :=
  if HasSymbol token c then default EmptyString (mSymbols c !! token) else token.

Definition CheckSymbolReplacements (c : ScriptCompiler) : ScriptCompiler :=
  if bool_decide (size (mSymbols c) = 0%nat) then c
  else set_tokens (replace_symbol c <$> mTokens c) c.

Definition ExpectTokens (count : nat) (c : ScriptCompiler) : bool :=
  (length (mTokens c) =? count)%nat.

Definition AddPendingLabelReference (instructionIndex : Z) (c : ScriptCompiler) : ScriptCompiler :=
  set_pending (mPendingLabelReference c ++ [instructionIndex]) c.

(** ** Text of a line *)

Definition quotation : Ascii.ascii := chr 34.

(** [Tokenize]: one turn of its loop, on the character [c] at [i], [None] for the
    terminating zero. The state is [start], [quote], the tokens found and the
    quoted ones among them; [end] is -1 at the start of every turn. *)
Definition Scan : Type := Z * bool * list string * list string.

Definition scan_limits (i : Z) (c : option Ascii.ascii) (start : Z) (quote : bool) : Z * Z * bool :=
  match c with
  | None =>
      if quote then (-1, -1, false)
      else if start =? -1 then (start, -1, quote) else (start, i - 1, quote)
  | Some c =>
      if is_blank c then
        if negb (start =? -1) && negb quote then (start, i - 1, quote) else (start, -1, quote)
      else if Ascii.eqb c quotation then
        if quote then (start, i, quote) else (i, -1, true)
      else if start =? -1 then (i, -1, quote) else (start, -1, quote)
  end.

Definition scan_char (src : string) (i : Z) (c : option Ascii.ascii) (st : Scan) : Scan :=
  let '(start, quote, destList, quoted) := st in
  let '(start1, end1, quote1) := scan_limits i c start quote in
  if end1 =? -1 then (start1, quote1, destList, quoted)
  else
    let '(s, e) := if quote1 then (start1 + 1, end1 - 1) else (start1, end1) in
    if e + 1 <=? Z.of_nat (String.length src) then
      let subStr := String.substring (Z.to_nat s) (Z.to_nat (e - s + 1)) src in
      (-1, false, destList ++ [subStr], if quote1 then quoted ++ [subStr] else quoted)
    else (-1, quote1, destList, quoted).

Fixpoint scan_from (src : string) (i : Z) (s : string) (st : Scan) : Scan :=
  match s with
  | EmptyString => scan_char src i None st
  | String c s' => scan_from src (i + 1) s' (scan_char src i (Some c) st)
  end.

(** The tokens, and the quoted ones, which [Tokenize] adds to [stringList]. *)
Definition Tokenize (srcString : string) : list string * list string :=
  let '(_, _, destList, quoted) := scan_from srcString 0 srcString (-1, false, [], []) in
  (destList, quoted).

Definition GetSubstring (strList : list string) (index : nat) : option string := strList !! index.

Definition GetOffsetIntoString (value : string) (offset : nat) : option string :=
  if (String.length value <=? offset)%nat then None
  else Some (String.substring offset (String.length value - offset) value).

Definition has_char (d : Ascii.ascii) (s : string) : bool :=
  bool_decide (d ∈ String.list_ascii_of_string s).

(** The first character, [0] of the empty string. *)
Definition first_char (s : string) : Ascii.ascii :=
  match s with String c _ => c | EmptyString => chr 0 end.

(** ** Names *)

(** A search returns the index of the name or -1; [Create...] adds a name that is
    not there. *)
Definition GetLabelIndex (n : string) (d : ScriptDef) : Z := default (-1) (mLabelMap d !! n).

Definition add_label (n : string) (targInst : Z) (d : ScriptDef) : ScriptDef :=
  let label' := label d ++ [mkLabel n targInst] in
  set_label label' (<[n := Z.of_nat (length label') - 1]> (mLabelMap d)) d.

Definition set_offset (targInst : Z) (l : LabelDef) : LabelDef := mkLabel (label_name l) targInst.

Definition CreateLabel (n : option string) (targInst : Z) (d : ScriptDef) : ScriptDef * Z :=
  match n with
  | None => (d, -1)
  | Some n =>
      if String.eqb n EmptyString then (d, -1)
      else
        let r := GetLabelIndex n d in
        let d1 := if r =? -1 then add_label n targInst d else d in
        let r1 := if r =? -1 then Z.of_nat (length (label d1)) - 1 else r in
        (if 0 <=? targInst then set_label (alter (set_offset targInst) (Z.to_nat r1) (label d1)) (mLabelMap d1) d1
         else d1, r1)
  end.

Definition string_index (n : string) (l : list string) : option nat := find_idx (fun s => String.eqb s n) l.

Definition GetStringIndex (n : string) (d : ScriptDef) : Z := idx (string_index n (stringList d)).

Definition CreateString (n : string) (d : ScriptDef) : ScriptDef * Z :=
  let r := GetStringIndex n d in
  if r =? -1 then
    let d1 := set_stringList (stringList d ++ [n]) d in
    (d1, Z.of_nat (length (stringList d1)) - 1)
  else (d, r).

Definition GetVariableIndex (n : string) (d : ScriptDef) : Z := idx (string_index n (varName d)).

Definition CreateVariable (n : string) (d : ScriptDef) : ScriptDef * Z :=
  match string_index n (varName d) with
  | Some i => (d, Z.of_nat i)
  | None =>
      let d1 := set_varName (varName d ++ [n]) d in
      (d1, Z.of_nat (length (varName d1)) - 1)
  end.

Definition GetIntArrayIndex (n : string) (d : ScriptDef) : Z :=
  idx (find_idx (fun a => String.eqb (array_name a) n) (mIntArray d)).

Definition CreateIntArray (n : string) (d : ScriptDef) : ScriptDef * Z :=
  let d1 := if GetIntArrayIndex n d =? -1 then set_mIntArray (mIntArray d ++ [mkIntArray n []]) d else d in
  (d1, Z.of_nat (length (mIntArray d1)) - 1).

(** ** Operands and instructions *)

Definition PushOpCode (opcode p1 p2 p3 : Z) (d : ScriptDef) : ScriptDef :=
  mkDef (scriptName d) (instr d ++ [newOp opcode p1 p2 p3]) (stringList d) (label d) (varName d)
    (curInst d + 1) (mLabelMap d) (mIntArray d) (scriptSpeed d) (scriptIdleSpeed d)
    (queueExternalJumps d) (queueCallStyle d) (mFlags d).

(** The type of the source and the value; a name may be registered. *)
Definition ResolveOperandType (token : string) (d : ScriptDef) : ScriptDef * OpCodeParamType * Z :=
  if Ascii.eqb (first_char token) (chr 64) then
    let '(d1, v) := CreateString token d in (d1, OPT_APPINT, v)
  else
    let var := GetVariableIndex token d in
    if 0 <=? var then (d, OPT_VAR, var)
    else if has_char (chr 46) token then (d, OPT_FLOAT, atof_int token)
    else (d, OPT_INT, atoi token).

(** The operand value and, for one that is to be pushed, its source type. *)
Definition ResolveOperand (paramType : OpCodeParamType) (token : option string) (d : ScriptDef)
  : ScriptDef * Z * OpCodeParamType :=
  match token with
  | None => (d, 0, OPT_NONE)
  | Some token =>
      match paramType with
      | OPT_LABEL => let '(d1, v) := CreateLabel (Some token) (-1) d in (d1, v, OPT_NONE)
      | OPT_STR => let '(d1, v) := CreateString token d in (d1, v, OPT_NONE)
      | OPT_FLOAT => (d, atof_int token, OPT_NONE)
      | OPT_INT => (d, atoi token, OPT_NONE)
      | OPT_VAR => let '(d1, v) := CreateVariable token d in (d1, v, OPT_NONE)
      | OPT_INTARR => let '(d1, v) := CreateIntArray token d in (d1, v, OPT_NONE)
      | OPT_INTSTK => let '(d1, pushType, v) := ResolveOperandType token d in (d1, v, pushType)
      | _ => (d, 0, OPT_NONE)
      end
  end.

Definition ConvertParamTypeToPushType (paramType : OpCodeParamType) : option CoreOpCodes :=
  match paramType with
  | OPT_INT => Some OP_PUSHINT
  | OPT_FLOAT => Some OP_PUSHFLOAT
  | OPT_VAR => Some OP_PUSHVAR
  | OPT_APPINT => Some OP_PUSHAPPVAR
  | _ => None
  end.

Definition ResolveComparisonType (token : string) : ComparisonType :=
  if String.eqb token "=" then CMP_EQ
  else if String.eqb token "!=" then CMP_NEQ
  else if String.eqb token "<" then CMP_LT
  else if String.eqb token "<=" then CMP_LTE
  else if String.eqb token ">" then CMP_GT
  else if String.eqb token ">=" then CMP_GTE
  else CMP_INV.

(** ** Derived classes

    What a class derived from [ScriptDef] overrides; [X] holds the members it
    adds. *)

Class CompilerHost (X : Type) := {
  GetExtendedOpCodeTable : list OpCodeInfo;
  SetMetaDataDerived : string -> ScriptDef * ScriptCompiler * X -> ScriptDef * ScriptCompiler * X;
  HandleAdvancedCommand :
    string -> ScriptDef * ScriptCompiler * X -> ScriptDef * ScriptCompiler * X * bool }.

(** The methods of [ScriptDef] itself. *)
Definition base_host : CompilerHost unit := {|
  GetExtendedOpCodeTable := extCoreOpCode;
  SetMetaDataDerived _ st := st;
  HandleAdvancedCommand _ st := (st, false) |}.

(** ** Flags and metadata *)

Definition SetFlag (flag value : Z) (d : ScriptDef) : ScriptDef :=
  if flag =? FLAG_BITS then set_mFlags value d
  else if negb (value =? 0) then set_mFlags (Z.lor (mFlags d) flag) d
  else set_mFlags (Z.land (mFlags d) (u32 (Z.lnot flag))) d.

Definition HasFlag (flag : Z) (d : ScriptDef) : bool := negb (Z.land (mFlags d) flag =? 0).

(** Nothing in the program calls it. *)
Definition SetScriptSpeed (token : string) (d : ScriptDef) : ScriptDef :=
  set_speeds 1 (scriptIdleSpeed d) d.

Definition CanIdle (d : ScriptDef) : bool := 0 <? scriptIdleSpeed d.

Definition UseEventQueue (d : ScriptDef) : bool := queueExternalJumps d.

(** The flag of a [#flag] line; 0 when there is none of that name. *)
Definition flag_named (flagName : string) : Z :=
  if String.eqb flagName "report_end" then FLAG_REPORT_END
  else if String.eqb flagName "report_label" then FLAG_REPORT_LABEL
  else if String.eqb flagName "report_all" then FLAG_REPORT_ALL
  else if String.eqb flagName "bits" then FLAG_BITS
  else 0.

Section Compiler.
Context {X : Type} `{!CompilerHost X}.

Definition SetMetaDataBase (opname : string) (st : ScriptDef * ScriptCompiler * X)
  : ScriptDef * ScriptCompiler * X :=
  let '(d, c, x) := st in
  let tokens := mTokens c in
  if String.eqb opname "#name" then
    match tokens !! 1%nat with Some t => (set_scriptName t d, c, x) | None => st end
  else if String.eqb opname "#symbol" then
    match tokens !! 1%nat, tokens !! 2%nat with
    | Some k, Some v => (d, AddSymbol k v c, x)
    | _, _ => st
    end
  else if String.eqb opname "#speed" then
    match tokens !! 1%nat with
    | Some t => (set_speeds (atoi t) (scriptIdleSpeed d) d, c, x)
    | None => st
    end
  else if String.eqb opname "#idlespeed" then
    match tokens !! 1%nat with
    | Some t => (set_speeds (scriptSpeed d) (atoi t) d, c, x)
    | None => st
    end
  else if String.eqb opname "#queue_jumps" then
    let style := match tokens !! 1%nat with
                 | Some t => if String.eqb t "goto" then CALLSTYLE_GOTO else CALLSTYLE_CALL
                 | None => CALLSTYLE_CALL
                 end in
    (set_queue true style d, c, x)
  else if String.eqb opname "#flag" then
    match tokens !! 1%nat, tokens !! 2%nat with
    | Some flagName, Some v => (SetFlag (flag_named flagName) (u32 (atoi v)) d, c, x)
    | _, _ => st
    end
  else SetMetaDataDerived opname st.

(** ** The instruction tables *)

Definition GetInstructionData (opcode : Z) : OpCodeInfo :=
  match find (fun i => info_opCode i =? opcode) defCoreOpCode with
  | Some i => i
  | None =>
      match find (fun i => info_opCode i =? opcode) GetExtendedOpCodeTable with
      | Some i => i
      | None => mkInfo "nop" (op_code OP_NOP) 0 [OPT_NONE; OPT_NONE; OPT_NONE]
      end
  end.

Definition GetInstructionDataByName (n : string) : OpCodeInfo :=
  match find (fun i => String.eqb (name i) n) defCoreOpCode with
  | Some i => i
  | None =>
      match find (fun i => String.eqb (name i) n) GetExtendedOpCodeTable with
      | Some i => i
      | None => mkInfo "nop" (op_code OP_NOP) 0 [OPT_NONE; OPT_NONE; OPT_NONE]
      end
  end.

(** ** Compiling a line *)

Definition push_type (ty : OpCodeParamType) (v : Z) (d : ScriptDef) : ScriptDef :=
  match ConvertParamTypeToPushType ty with
  | Some op => PushOpCode (op_code op) v 0 0 d
  | None => d
  end.

(** The line [if left cmp right ...]: the operands are pushed backwards, the
    comparison instruction is the start of a block. *)
Definition compile_if (tokens : list string) (d : ScriptDef) (c : ScriptCompiler)
  : ScriptDef * ScriptCompiler :=
  match tokens !! 1%nat, tokens !! 2%nat, tokens !! 3%nat with
  | Some t1, Some t2, Some t3 =>
      let '(d1, tleft, vleft) := ResolveOperandType t1 d in
      let cmp := ResolveComparisonType t2 in
      let '(d2, tright, vright) := ResolveOperandType t3 d1 in
      if bool_decide (cmp = CMP_INV) then (d2, c)
      else
        let d3 := push_type tright vright d2 in
        let d4 := push_type tleft vleft d3 in
        let jumpCount := match tokens !! 5%nat with
                         | Some t => if String.eqb t "else" then atoi t else 2
                         | None => 2
                         end in
        (PushOpCode (op_code OP_CMP) (cmp_code cmp) jumpCount 0 d4,
         OpenBlock (compile_line c) (curInst d4) c)
  | _, _, _ => (d, c)
  end.

(** [instr[i].param1 = v] and the like. *)
Definition put_param1 (v : Z) (o : OpData) : OpData := mkOp (opCode o) v (param2 o) (param3 o).
Definition put_param2 (v : Z) (o : OpData) : OpData := mkOp (opCode o) (param1 o) v (param3 o).
Definition put_param3 (v : Z) (o : OpData) : OpData := mkOp (opCode o) (param1 o) (param2 o) v.

Definition update_instr (i : Z) (f : OpData -> OpData) (d : ScriptDef) : option ScriptDef :=
  if (0 <=? i) && (i <? Z.of_nat (length (instr d)))
  then Some (set_instr (alter f (Z.to_nat i) (instr d)) d) else None.

Definition compile_endif (d : ScriptDef) (c : ScriptCompiler) : option (ScriptDef * ScriptCompiler) :=
  match GetLastUnresolvedBlock c with
  | None => Some (d, c)
  | Some b =>
      block ← mBlockData c !! b;
      d' ← (if mUseElse block then
              d1 ← update_instr (mInstIndex block)
                     (put_param2 (mInstIndexElse block - mInstIndex block + 1)) d;
              update_instr (mInstIndexElse block) (put_param1 (curInst d1)) d1
            else update_instr (mInstIndex block) (put_param2 (curInst d - mInstIndex block)) d);
      Some (d', (CloseBlock c).1)
  end.

Definition compile_else (d : ScriptDef) (c : ScriptCompiler) : ScriptDef * ScriptCompiler :=
  match GetLastUnresolvedBlock c with
  | None => (d, c)
  | Some b =>
      (PushOpCode (op_code OP_JMP) (curInst d + 1) 0 0 d,
       set_blocks (mCurrentNestLevel c) (alter (else_block (curInst d)) b (mBlockData c)) c)
  end.

Definition compile_recompare (d : ScriptDef) (c : ScriptCompiler) : ScriptDef :=
  match GetLastUnresolvedBlock c with
  | None => d
  | Some b =>
      match mBlockData c !! b with
      | Some block => PushOpCode (op_code OP_JMP) (mInstIndex block - 2) 0 0 d
      | None => d
      end
  end.

(** The operand loop from operand [i] on: the entries of [param] and
    [resolveLabels]. A value that comes from several sources is pushed. *)
Fixpoint compile_operands (i : nat) (types : list OpCodeParamType) (tokens : list string)
  (d : ScriptDef) : ScriptDef * list Z * bool :=
  match types with
  | [] => (d, [], false)
  | ty :: types' =>
      let '(d1, v, pushType) := ResolveOperand ty (GetSubstring tokens (i + 1)) d in
      let '(d2, v2) :=
        if bool_decide (pushType = OPT_NONE) then (d1, v)
        else match ConvertParamTypeToPushType pushType with
             | None => (d1, v)
             | Some op => (PushOpCode (op_code op) v 0 0 d1, 0)
             end in
      let '(d3, params, resolveLabels) := compile_operands (S i) types' tokens d2 in
      (d3, v2 :: params, bool_decide (ty = OPT_LABEL) || resolveLabels)
  end.

Definition compile_instruction (opinfo : OpCodeInfo) (tokens : list string)
  (d : ScriptDef) (c : ScriptCompiler) : ScriptDef * ScriptCompiler :=
  let '(d1, params, resolveLabels) :=
    compile_operands 0 (take (numParams opinfo) (paramType opinfo)) tokens d in
  (PushOpCode (info_opCode opinfo) (nth 0 params 0) (nth 1 params 0) (nth 2 params 0) d1,
   if resolveLabels then AddPendingLabelReference (curInst d1) c else c).

(** The part of [CompileLine] after the tokens are found. *)
Definition compile_tokens (st : ScriptDef * ScriptCompiler * X) : option (ScriptDef * ScriptCompiler * X) :=
  let '(d, c, x) := st in
  let tokens := mTokens c in
  match GetSubstring tokens 0 with
  | None => Some st
  | Some opname =>
      if Ascii.eqb (first_char opname) (chr 58) then
        Some ((CreateLabel (GetOffsetIntoString opname 1) (curInst d) d).1, c, x)
      else if String.eqb opname "if" then Some (compile_if tokens d c, x)
      else if String.eqb opname "endif" then '(d', c') ← compile_endif d c; Some (d', c', x)
      else if String.eqb opname "else" then Some (compile_else d c, x)
      else if String.eqb opname "recompare" then Some (compile_recompare d c, c, x)
      else if Ascii.eqb (first_char opname) (chr 35) then Some (SetMetaDataBase opname st)
      else
        let '(st', handled) := HandleAdvancedCommand opname st in
        if handled then Some st'
        else
          let '(d', c', x') := st' in
          let opinfo := GetInstructionDataByName opname in
          if info_opCode opinfo =? op_code OP_NOP then Some st'
          else Some (compile_instruction opinfo (mTokens c') d' c', x')
  end.

(** Tokens and symbol replacement, the start of [CompileLine]. *)
Definition prepare_line (line : string) (d : ScriptDef) (c : ScriptCompiler) : ScriptDef * ScriptCompiler :=
  let '(destList, quoted) := Tokenize line in
  (set_stringList (stringList d ++ quoted) d, CheckSymbolReplacements (set_tokens destList c)).

Definition CompileLine (line : string) (st : ScriptDef * ScriptCompiler * X)
  : option (ScriptDef * ScriptCompiler * X) :=
  let '(d, c, x) := st in compile_tokens (prepare_line line d c, x).

(** ** Labels *)

Definition resolve_label (l : LabelDef) : LabelDef :=
  if instrOffset l =? -1 then mkLabel (label_name l) 0 else l.

(** [instr[index].paramK = label[instr[index].paramK].instrOffset] for the label operands. *)
Definition label_offset (labels : list LabelDef) (v : Z) : option Z :=
  if v <? 0 then None else instrOffset <$> labels !! Z.to_nat v.

Definition link_param (labels : list LabelDef) (ty : option OpCodeParamType) (v : Z) : option Z :=
  if bool_decide (ty = Some OPT_LABEL) then label_offset labels v else Some v.

Definition link_op (labels : list LabelDef) (o : OpData) : option OpData :=
  let opInfo := GetInstructionData (opCode o) in
  p1 ← link_param labels (paramType opInfo !! 0%nat) (param1 o);
  p2 ← link_param labels (paramType opInfo !! 1%nat) (param2 o);
  p3 ← link_param labels (paramType opInfo !! 2%nat) (param3 o);
  Some (mkOp (opCode o) p1 p2 p3).

Fixpoint resolve_pending (pending : list Z) (labels : list LabelDef) (ops : list OpData)
  : option (list OpData) :=
  match pending with
  | [] => Some ops
  | index :: pending' =>
      if 0 <=? index then
        o ← ops !! Z.to_nat index;
        o' ← link_op labels o;
        resolve_pending pending' labels (<[Z.to_nat index := o']> ops)
      else resolve_pending pending' labels ops
  end.

Definition FinalizeCompile (st : ScriptDef * ScriptCompiler * X) : option (ScriptDef * ScriptCompiler * X) :=
  let '(d, c, x) := st in
  let labels := resolve_label <$> label d in
  ops ← resolve_pending (mPendingLabelReference c) labels (instr d);
  Some (set_instr ops (set_label labels (mLabelMap d) d), set_pending [] c, x).

Definition BeginInlineBlock (st : ScriptDef * ScriptCompiler * X) : ScriptDef * ScriptCompiler * X :=
  let '(d, c, x) := st in (d, set_inline (curInst d) c, x).

Definition FinishInlineBlock := FinalizeCompile.

(** ** Compiling a file *)

Fixpoint compile_lines (lines : list (Z * string)) (st : ScriptDef * ScriptCompiler * X)
  : option (ScriptDef * ScriptCompiler * X) :=
  match lines with
  | [] => Some st
  | (n, l) :: lines' =>
      let '(d, c, x) := st in
      st' ← CompileLine l (d, set_line n c, x);
      compile_lines lines' st'
  end.

(** The loop over the lines of a file and what follows it. *)
Definition compile_source (lines : list (Z * string)) (d : ScriptDef) (x : X) : option (ScriptDef * X) :=
  st ← compile_lines lines (d, newCompiler, x);
  '(d', _, x') ← FinalizeCompile st;
  Some (d', x').

(** A missing file leaves the script as it is. *)
Definition CompileFromSource (file : option string) (d : ScriptDef) (x : X) : option (ScriptDef * X) :=
  match file with
  | None => Some (d, x)
  | Some text =>
      lines ← read_file (file_fuel text) (set_CommentStyle Comment_Semi (OpenText text));
      compile_source lines d x
  end.

End Compiler.

(** [Expect] and its detail text are only for messages. *)
Definition Expect (token : string) (ty : OpCodeParamType) (d : ScriptDef) : bool :=
  match ty with
  | OPT_NONE => false
  | OPT_LABEL => 0 <=? GetLabelIndex token d
  | OPT_VAR => 0 <=? GetVariableIndex token d
  | OPT_INTARR => 0 <=? GetIntArrayIndex token d
  | _ => true
  end.
