(* ===== verification/ScriptPlayer.v ===== *)
(** * The script interpreter ([ScriptPlayer] of [ScriptCore.h], [ScriptCore.cpp])

    A player runs a compiled script; the definition is an argument ([def] points
    to it). [g_ServerTime] is an argument [now]. The classes derived from
    [ScriptPlayer] add instructions that act on the game: the class [PlayerHost]
    over a world [W]. The time spent ([mProcessingTime]) is left out. *)

From S2P Require Import Prelude Script.

Definition MAX_STACK_SIZE : Z := 16.
Definition MAX_QUEUE_SIZE : Z := 32.

Record ScriptEvent := mkEvent { mLabel : string; mFireTime : Z }.

Record ScriptPlayer := mkPlayer {
  curInst : Z;
  mActive : bool;
  mExecuting : bool;
  nextFire : Z;
  vars : list Z;
  intArray : list IntArray;
  scriptEventQueue : list ScriptEvent;
  varStack : list Z;      (* the bottom first *)
  callStack : list Z;
  advance : Z }.

Definition newPlayer : ScriptPlayer := mkPlayer 0 false false 0 [] [] [] [] [] 0.

Definition set_curInst v p := mkPlayer v (mActive p) (mExecuting p) (nextFire p) (vars p) (intArray p) (scriptEventQueue p) (varStack p) (callStack p) (advance p).
Definition set_mExecuting v p := mkPlayer (curInst p) (mActive p) v (nextFire p) (vars p) (intArray p) (scriptEventQueue p) (varStack p) (callStack p) (advance p).
Definition set_nextFire v p := mkPlayer (curInst p) (mActive p) (mExecuting p) v (vars p) (intArray p) (scriptEventQueue p) (varStack p) (callStack p) (advance p).
Definition set_vars v p := mkPlayer (curInst p) (mActive p) (mExecuting p) (nextFire p) v (intArray p) (scriptEventQueue p) (varStack p) (callStack p) (advance p).
Definition set_intArray v p := mkPlayer (curInst p) (mActive p) (mExecuting p) (nextFire p) (vars p) v (scriptEventQueue p) (varStack p) (callStack p) (advance p).
Definition set_scriptEventQueue v p := mkPlayer (curInst p) (mActive p) (mExecuting p) (nextFire p) (vars p) (intArray p) v (varStack p) (callStack p) (advance p).
Definition set_varStack v p := mkPlayer (curInst p) (mActive p) (mExecuting p) (nextFire p) (vars p) (intArray p) (scriptEventQueue p) v (callStack p) (advance p).
Definition set_callStack v p := mkPlayer (curInst p) (mActive p) (mExecuting p) (nextFire p) (vars p) (intArray p) (scriptEventQueue p) (varStack p) v (advance p).
Definition set_advance v p := mkPlayer (curInst p) (mActive p) (mExecuting p) (nextFire p) (vars p) (intArray p) (scriptEventQueue p) (varStack p) (callStack p) v.

(** ** Integer arrays *)

Definition VerifyIndex (index : Z) (a : IntArray) : bool :=
  (0 <=? index) && (index <? Z.of_nat (length (arrayData a))).

Definition array_Clear (a : IntArray) : IntArray := mkIntArray (array_name a) [].
Definition array_Size (a : IntArray) : Z := Z.of_nat (length (arrayData a)).

Definition array_Append (value : Z) (a : IntArray) : IntArray :=
  if MAX_ARRAY_DATA_SIZE <=? Z.of_nat (length (arrayData a)) then a
  else mkIntArray (array_name a) (arrayData a ++ [value]).

Definition RemoveByIndex (index : Z) (a : IntArray) : IntArray :=
  if VerifyIndex index a then mkIntArray (array_name a) (delete (Z.to_nat index) (arrayData a)) else a.

Definition GetValueByIndex (index : Z) (a : IntArray) : Z :=
  if VerifyIndex index a then nth (Z.to_nat index) (arrayData a) 0 else 0.

Definition GetIndexByValue (value : Z) (a : IntArray) : Z :=
  idx (find_idx (fun v => v =? value) (arrayData a)).

(** ** Stacks, variables and tables *)

Definition PushVarStack (value : Z) (p : ScriptPlayer) : ScriptPlayer :=
  if MAX_STACK_SIZE <? Z.of_nat (length (varStack p)) then p else set_varStack (varStack p ++ [value]) p.

Definition PushCallStack (value : Z) (p : ScriptPlayer) : ScriptPlayer :=
  if MAX_STACK_SIZE <? Z.of_nat (length (callStack p)) then p else set_callStack (callStack p ++ [value]) p.

(** The topmost element, 0 of an empty stack, and the rest. *)
Definition pop_back (l : list Z) : Z * list Z :=
  match reverse l with
  | v :: r => (v, reverse r)
  | [] => (0, [])
  end.

Definition PopVarStack (p : ScriptPlayer) : Z * ScriptPlayer :=
  let '(v, l) := pop_back (varStack p) in (v, set_varStack l p).

Definition PopCallStack (p : ScriptPlayer) : Z * ScriptPlayer :=
  let '(v, l) := pop_back (callStack p) in (v, set_callStack l p).

(** [v[index]] of a vector. *)
Definition at_index {A} (l : list A) (index : Z) : option A :=
  if index <? 0 then None else l !! Z.to_nat index.

Definition GetStringPtr (index : Z) (def : ScriptDef) : string := default "<null>" (at_index (stringList def) index).
Definition GetStringTableEntry (index : Z) (def : ScriptDef) : string := default EmptyString (at_index (stringList def) index).
Definition GetVarValue (index : Z) (p : ScriptPlayer) : Z := default 0 (at_index (vars p) index).

Definition VerifyIntArrayIndex (index : Z) (def : ScriptDef) : Z :=
  if (index <? 0) || (Z.of_nat (length (mIntArray def)) <=? index) then -1 else index.

(** The index is an [unsigned int]. *)
Definition SetVar (index value : Z) (p : ScriptPlayer) : ScriptPlayer :=
  if Z.of_nat (length (vars p)) <=? u32 index then p
  else set_vars (<[Z.to_nat (u32 index) := value]> (vars p)) p.

(** [vars[index] += d], unchecked. *)
Definition add_var (index d : Z) (p : ScriptPlayer) : option ScriptPlayer :=
  v ← at_index (vars p) index;
  Some (set_vars (<[Z.to_nat index := i32 (v + d)]> (vars p)) p).

(** The instructions on arrays check the index against the definition and then use
    the player's array of that index. *)
Definition with_array (index : Z) (def : ScriptDef) (f : IntArray -> ScriptPlayer -> ScriptPlayer)
  (p : ScriptPlayer) : option ScriptPlayer :=
  if 0 <=? VerifyIntArrayIndex index def then
    a ← at_index (intArray p) index; Some (f a p)
  else Some p.

Definition put_array (index : Z) (a : IntArray) (p : ScriptPlayer) : ScriptPlayer :=
  set_intArray (<[Z.to_nat index := a]> (intArray p)) p.

(** The base class has no application properties, and nothing overrides it. *)
Definition GetApplicationPropertyAsInteger (propertyName : string) : Z := 0.

(** ** Control *)

Definition EndExecution (p : ScriptPlayer) : ScriptPlayer := set_scriptEventQueue [] (set_mExecuting false p).

Definition ClearQueue (p : ScriptPlayer) : ScriptPlayer := set_scriptEventQueue [] p.

Definition Call (targetInstructionIndex : Z) (p : ScriptPlayer) : ScriptPlayer :=
  set_curInst targetInstructionIndex (PushCallStack (curInst p + 1) p).

Definition ResetGoto (now targetInstructionIndex : Z) (p : ScriptPlayer) : ScriptPlayer :=
  set_nextFire now (set_curInst targetInstructionIndex (set_varStack [] (set_callStack [] p))).

Definition event_index (labelName : string) (q : list ScriptEvent) : option nat :=
  find_idx (fun e => String.eqb (mLabel e) labelName) q.

Definition QueueEvent (now : Z) (labelName : string) (fireDelay : Z) (p : ScriptPlayer) : ScriptPlayer :=
  if MAX_QUEUE_SIZE <=? Z.of_nat (length (scriptEventQueue p)) then p
  else
    let fireTime := u64 (now + fireDelay) in
    match event_index labelName (scriptEventQueue p) with
    | Some i => set_scriptEventQueue (alter (fun e => mkEvent (mLabel e) fireTime) i (scriptEventQueue p)) p
    | None => set_scriptEventQueue (scriptEventQueue p ++ [mkEvent labelName fireTime]) p
    end.

Definition PerformJumpRequest (now : Z) (def : ScriptDef) (n : string) (callStyle : CallStyle)
  (p : ScriptPlayer) : option (ScriptPlayer * bool) :=
  let index := GetLabelIndex n def in
  if 0 <=? index then
    l ← at_index (label def) index;
    let p1 := set_mExecuting true p in
    Some (match callStyle with
          | CALLSTYLE_GOTO => ResetGoto now (instrOffset l) p1
          | CALLSTYLE_CALL => Call (instrOffset l) p1
          end, true)
  else if UseEventQueue def then Some (p, false)
  else Some (EndExecution p, false).

Definition JumpToLabel (now : Z) (def : ScriptDef) (n : string) (p : ScriptPlayer)
  : option (ScriptPlayer * bool) :=
  if UseEventQueue def then Some (QueueEvent now n 0 p, true)
  else PerformJumpRequest now def n CALLSTYLE_GOTO p.

(** [scriptEventQueue.erase(scriptEventQueue.begin() + i)]. *)
Definition erase_event (i : nat) (p : ScriptPlayer) : option ScriptPlayer :=
  if (i <? length (scriptEventQueue p))%nat
  then Some (set_scriptEventQueue (delete i (scriptEventQueue p)) p) else None.

Definition due (now : Z) (e : ScriptEvent) : bool := mFireTime e <=? now.

Definition ExecQueue (now : Z) (def : ScriptDef) (p : ScriptPlayer) : option (ScriptPlayer * bool) :=
  match find_idx (due now) (scriptEventQueue p) with
  | None => Some (p, false)
  | Some i =>
      e ← scriptEventQueue p !! i;
      '(p1, _) ← PerformJumpRequest now def (mLabel e) (queueCallStyle def) p;
      p2 ← erase_event i p1;
      Some (p2, true)
  end.

(** A player without a script is stopped. *)
Definition FullReset (def : option ScriptDef) (p : ScriptPlayer) : ScriptPlayer :=
  match def with
  | None =>
      mkPlayer (curInst p) false false (nextFire p) (vars p) (intArray p) (scriptEventQueue p)
        (varStack p) (callStack p) (advance p)
  | Some d =>
      mkPlayer 0 true true 0 (replicate (length (varName d)) 0) (array_Clear <$> mIntArray d) []
        [] [] (advance p)
  end.

Definition Initialize (def : ScriptDef) (p : ScriptPlayer) : ScriptPlayer := FullReset (Some def) p.

Definition IsWaiting (now : Z) (p : ScriptPlayer) : bool := nextFire p <? now.

Definition CanRunIdle (def : ScriptDef) : bool := CanIdle def.

(** ** Instructions *)

Class PlayerHost (W : Type) := {
  RunImplementationCommands : Z -> ScriptDef -> Z -> ScriptPlayer * W -> option (ScriptPlayer * W) }.

(** [ScriptPlayer::RunImplementationCommands]: nothing, or an error message. *)
Definition base_player_host (W : Type) : PlayerHost W := {|
  RunImplementationCommands _ _ _ st := Some st |}.

(** The result of OP_CMP; any other comparison code is false. *)
Definition compare_values (cmp l r : Z) : bool :=
  switch cmp
    [(cmp_code CMP_EQ, l =? r); (cmp_code CMP_NEQ, negb (l =? r));
     (cmp_code CMP_LT, l <? r); (cmp_code CMP_LTE, l <=? r);
     (cmp_code CMP_GT, r <? l); (cmp_code CMP_GTE, r <=? l)]
    false.

Definition jump (target : Z) (p : ScriptPlayer) : ScriptPlayer := set_advance 0 (set_curInst target p).

(** The cases of the [switch] of [RunSingleInstruction], with [breakScript];
    [None] of the outer option is the default case. *)
Definition exec_core (now : Z) (def : ScriptDef) (i : OpData) (p : ScriptPlayer)
  : option (option (bool * ScriptPlayer)) :=
  let ok p := Some (Some (false, p)) in
  let ok' (o : option ScriptPlayer) := Some (p' ← o; Some (false, p')) in
  match core_op (opCode i) with
  | Some OP_END => Some (Some (true, EndExecution p))
  | Some OP_GOTO => ok (jump (param1 i) p)
  | Some OP_RESETGOTO => ok (set_advance 0 (ResetGoto now (param1 i) p))
  | Some OP_PRINT => ok' (_ ← at_index (stringList def) (param1 i); Some p)
  | Some OP_PRINTVAR => ok' (_ ← at_index (varName def) (param1 i); Some p)
  | Some OP_PRINTAPPVAR => ok p
  | Some OP_PRINTINTARR => ok' (with_array (param1 i) def (fun _ p => p) p)
  | Some OP_WAIT => Some (Some (true, set_nextFire (u64 (now + param1 i)) p))
  | Some OP_PUSHVAR => ok (PushVarStack (GetVarValue (param1 i) p) p)
  | Some OP_PUSHAPPVAR => ok (PushVarStack (GetApplicationPropertyAsInteger (GetStringPtr (param1 i) def)) p)
  | Some OP_PUSHINT => ok (PushVarStack (param1 i) p)
  | Some OP_POP => let '(v, p1) := PopVarStack p in ok (SetVar (param1 i) v p1)
  | Some OP_CMP =>
      let '(vleft, p1) := PopVarStack p in
      let '(vright, p2) := PopVarStack p1 in
      ok (if compare_values (param1 i) vleft vright then p2 else set_advance (i16 (param2 i)) p2)
  | Some OP_INC => ok' (add_var (param1 i) 1 p)
  | Some OP_DEC => ok' (add_var (param1 i) (-1) p)
  | Some OP_SET => ok (SetVar (param1 i) (param2 i) p)
  | Some OP_COPYVAR => ok (SetVar (param2 i) (GetVarValue (param1 i) p) p)
  | Some OP_GETAPPVAR =>
      ok (SetVar (param2 i) (GetApplicationPropertyAsInteger (GetStringPtr (param1 i) def)) p)
  | Some OP_CALL => ok (set_advance 0 (Call (param1 i) p))
  | Some OP_RETURN => let '(v, p1) := PopCallStack p in ok (jump v p1)
  | Some OP_JMP => ok (jump (param1 i) p)
  | Some OP_IARRAPPEND =>
      let '(v, p1) := PopVarStack p in
      ok' (with_array (param1 i) def (fun a => put_array (param1 i) (array_Append v a)) p1)
  | Some OP_IARRDELETE =>
      let '(v, p1) := PopVarStack p in
      ok' (with_array (param1 i) def (fun a => put_array (param1 i) (RemoveByIndex v a)) p1)
  | Some OP_IARRVALUE =>
      let '(v, p1) := PopVarStack p in
      ok' (with_array (param1 i) def (fun a => SetVar (param3 i) (GetValueByIndex v a)) p1)
  | Some OP_IARRCLEAR => ok' (with_array (param1 i) def (fun a => put_array (param1 i) (array_Clear a)) p)
  | Some OP_IARRSIZE =>
      ok' (if 0 <=? VerifyIntArrayIndex (param1 i) def then
             a ← at_index (intArray p) (param1 i); Some (SetVar (param2 i) (array_Size a) p)
           else Some (SetVar (param2 i) 0 p))
  | Some OP_QUEUEEVENT => ok (QueueEvent now (GetStringPtr (param1 i) def) (u64 (param2 i)) p)
  | Some OP_EXECQUEUE =>
      Some ('(p1, jumped) ← ExecQueue now def p;
            Some (false, if (jumped : bool) then set_advance 0 p1 else p1))
  | Some OP_NOP | Some OP_PUSHFLOAT | None => None
  end.

Section Player.
Context {W : Type} `{!PlayerHost W}.

(** The [switch] and what follows it. *)
Definition exec_instruction (now : Z) (def : ScriptDef) (i : OpData) (st : ScriptPlayer * W)
  : option (bool * (ScriptPlayer * W)) :=
  let '(p, w) := st in
  let p0 := set_advance 1 p in
  '(breakScript, (p1, w1)) ←
    match exec_core now def i p0 with
    | Some r => '(b, p1) ← r; Some (b, (p1, w))
    | None => st1 ← RunImplementationCommands now def (opCode i) (p0, w); Some (false, st1)
    end;
  Some (breakScript : bool, (set_curInst (curInst p1 + advance p1) p1, w1)).

(** [bool RunSingleInstruction(void)]. *)
Definition RunSingleInstruction (now : Z) (def : ScriptDef) (st : ScriptPlayer * W)
  : option (bool * (ScriptPlayer * W)) :=
  let '(p, w) := st in
  if negb (mExecuting p) then Some (true, st)
  else if Z.of_nat (length (instr def)) <=? curInst p then Some (true, (set_mExecuting false p, w))
  else if now <? nextFire p then Some (true, st)
  else i ← at_index (instr def) (curInst p); exec_instruction now def i st.

(** ** Loops *)

(** What a loop comes to: a state, undefined behaviour, or no end within the fuel. *)
Inductive Outcome := Done (st : ScriptPlayer * W) | Undefined | OutOfFuel.

Definition running (now : Z) (p : ScriptPlayer) : bool :=
  mExecuting p && mActive p && (nextFire p <=? now).

Fixpoint at_speed (fuel : nat) (now : Z) (def : ScriptDef) (maxCount count : Z)
  (st : ScriptPlayer * W) : Outcome :=
  match fuel with
  | O => OutOfFuel
  | S fuel' =>
      if running now (fst st) then
        match RunSingleInstruction now def st with
        | None => Undefined
        | Some (true, st') => Done st'
        | Some (false, st') =>
            if maxCount <=? count + 1 then Done st'
            else at_speed fuel' now def maxCount (count + 1) st'
        end
      else Done st
  end.

Definition speed_limit (def : ScriptDef) (maxCommands : Z) : Z :=
  if maxCommands <? scriptSpeed def then scriptSpeed def else maxCommands.

Definition RunAtSpeed (fuel : nat) (now : Z) (def : ScriptDef) (maxCommands : Z) (st : ScriptPlayer * W) : Outcome :=
  at_speed fuel now def (speed_limit def maxCommands) 0 st.

Fixpoint RunUntilWait (fuel : nat) (now : Z) (def : ScriptDef) (st : ScriptPlayer * W) : Outcome :=
  match fuel with
  | O => OutOfFuel
  | S fuel' =>
      if running now (fst st) then
        match RunSingleInstruction now def st with
        | None => Undefined
        | Some (true, st') => Done st'
        | Some (false, st') => RunUntilWait fuel' now def st'
        end
      else Done st
  end.

Fixpoint RunScript (fuel : nat) (now : Z) (def : ScriptDef) (st : ScriptPlayer * W) : Outcome :=
  match fuel with
  | O => OutOfFuel
  | S fuel' =>
      if mExecuting (fst st) && mActive (fst st) then
        match RunSingleInstruction now def st with
        | None => Undefined
        | Some (_, st') => RunScript fuel' now def st'
        end
      else Done st
  end.

End Player.
