(* ===== verification/ScriptTypes.v ===== *)
(** * Compiled scripts are well typed

    Every instruction of a compiled script has operands of the kinds its table
    entry asks for, in range; jumps do not leave the script at its start. The
    invariant [compile_ok] says so during a compilation, where the instructions in
    [mPendingLabelReference] still have label indices for operands. *)

From S2P Require Import Prelude Text FileReader Script ScriptPlayer.

Abbreviation len l := (Z.of_nat (length l)).

(** [param1], [param2] or [param3]. *)
Definition param (k : nat) (o : OpData) : Z :=
  match k with O => param1 o | S O => param2 o | _ => param3 o end.

(** An operand of a kind; [labels] is what a label operand stays below. *)
Definition operand_ok (d : ScriptDef) (labels : Z) (ty : OpCodeParamType) (v : Z) : Prop :=
  match ty with
  | OPT_LABEL => 0 <= v < labels
  | OPT_STR => 0 <= v < len (stringList d)
  | OPT_VAR => 0 <= v < len (varName d)
  | OPT_INTARR => 0 <= v < len (mIntArray d)
  | _ => True
  end.

Section Typing.
Context {X : Type} `{!CompilerHost X}.

(** Instruction [o] at place [i]; [pending]: its labels are not resolved yet. *)
Definition op_ok (d : ScriptDef) (pending : Prop) (i : nat) (o : OpData) : Prop :=
  (forall k ty, paramType (GetInstructionData (opCode o)) !! k = Some ty ->
     (pending -> operand_ok d (len (label d)) ty (param k o)) /\
     (~ pending -> operand_ok d (len (instr d) + 1) ty (param k o))) /\
  (opCode o = op_code OP_CMP -> 0 <= Z.of_nat i + param2 o /\ param2 o <= len (instr d) + 2) /\
  (opCode o = op_code OP_JMP -> 0 <= param1 o).

(** The names of labels and their places. *)
Definition labels_ok (d : ScriptDef) : Prop :=
  (forall n v, mLabelMap d !! n = Some v -> 0 <= v < len (label d)) /\
  Forall (fun l => -1 <= instrOffset l <= len (instr d)) (label d).

(** An open block starts at a comparison with two pushes before it; its [else] is
    a jump. *)
Definition block_ok (d : ScriptDef) (b : BlockData) : Prop :=
  mResolved b = false ->
  2 <= mInstIndex b /\
  (exists o, instr d !! Z.to_nat (mInstIndex b) = Some o /\ opCode o = op_code OP_CMP) /\
  (mUseElse b = true -> mInstIndex b < mInstIndexElse b /\
     exists o, instr d !! Z.to_nat (mInstIndexElse b) = Some o /\ opCode o = op_code OP_JMP).

Record compile_ok (d : ScriptDef) (c : ScriptCompiler) : Prop := {
  ok_cur : Script.curInst d = len (instr d);
  ok_labels : labels_ok d;
  ok_blocks : Forall (block_ok d) (mBlockData c);
  ok_pending : NoDup (mPendingLabelReference c);
  ok_pending_range : Forall (fun i => 0 <= i < len (instr d)) (mPendingLabelReference c);
  ok_ops : forall i o, instr d !! i = Some o ->
    op_ok d (Z.of_nat i ∈ mPendingLabelReference c) i o }.

(** A finished script. *)
Record script_typed (d : ScriptDef) : Prop := {
  typed_cur : Script.curInst d = len (instr d);
  typed_map : forall n v, mLabelMap d !! n = Some v -> 0 <= v < len (label d);
  typed_labels : Forall (fun l => 0 <= instrOffset l <= len (instr d)) (label d);
  typed_ops : forall i o, instr d !! i = Some o -> op_ok d False i o }.

(** What the tables of a derived class and its own commands must respect. *)
Definition info_ok (i : OpCodeInfo) : Prop :=
  GetInstructionData (info_opCode i) = i /\ 0 <= info_opCode i < 256 /\
  info_opCode i <> op_code OP_PUSHFLOAT /\
  length (paramType i) = 3%nat /\ Forall (eq OPT_NONE) (drop (numParams i) (paramType i)) /\
  (info_opCode i = op_code OP_CMP \/ info_opCode i = op_code OP_JMP -> numParams i = 0%nat).

Class CompilerHostLaws := {
  tables_ok : Forall info_ok (defCoreOpCode ++ GetExtendedOpCodeTable);
  metadata_ok opname d c x d' c' x' :
    compile_ok d c -> SetMetaDataDerived opname (d, c, x) = (d', c', x') -> compile_ok d' c';
  command_ok opname d c x d' c' x' :
    compile_ok d c -> HandleAdvancedCommand opname (d, c, x) = (d', c', x', true) -> compile_ok d' c';
  command_unhandled opname st st' :
    HandleAdvancedCommand opname st = (st', false) -> st' = st }.

(** ** Complete lines

    A line that lacks an operand is compiled with 0 in its place, whatever the
    kind of the operand. *)
Definition operand_present (tokens : list string) (k : nat) (ty : OpCodeParamType) : bool :=
  match tokens !! (k + 1)%nat with
  | Some t => negb (bool_decide (ty = OPT_LABEL) && String.eqb t EmptyString)
  | None => false
  end.

Fixpoint operands_present (tokens : list string) (k : nat) (types : list OpCodeParamType) : bool :=
  match types with
  | [] => true
  | ty :: types' => operand_present tokens k ty && operands_present tokens (S k) types'
  end.

Definition tokens_complete (tokens : list string) : bool :=
  match tokens with
  | [] => true
  | opname :: _ =>
      let opinfo := GetInstructionDataByName opname in
      operands_present tokens 0 (take (numParams opinfo) (paramType opinfo))
  end.

(** Every line of a source, as the compiler sees it after symbol replacement. *)
Fixpoint lines_complete (lines : list (Z * string)) (st : ScriptDef * ScriptCompiler * X) : bool :=
  match lines with
  | [] => true
  | (n, l) :: lines' =>
      let '(d, c, x) := st in
      let st1 := (d, set_line n c, x) in
      tokens_complete (mTokens (prepare_line l d (set_line n c)).2) &&
      match CompileLine l st1 with Some st' => lines_complete lines' st' | None => true end
  end.

End Typing.

(** ** The tables *)

Lemma core_op_code o : core_op (op_code o) = Some o.
Proof. by destruct o. Qed.


Lemma core_op_inv z o : core_op z = Some o -> z = op_code o.
Proof.
  unfold core_op. destruct (z <? 0) eqn:E; [done|]. to_prop. intros H.
  rewrite <- (Z2Nat.id z) by lia. generalize dependent (Z.to_nat z). clear E.
  intros n H.
  do 30 (destruct n as [|n]; [simpl in H; by simplify_eq|]). done.
Qed.

Lemma op_code_inj o o' : op_code o = op_code o' -> o = o'.
Proof. intros H. apply (f_equal core_op) in H. rewrite !core_op_code in H. by simplify_eq. Qed.

Lemma op_code_u8 o : u8 (op_code o) = op_code o.
Proof. by destruct o. Qed.

(** ** Growing tables *)

(** The tables of names only get longer, and so does the list of instructions. *)
Record grows (d d' : ScriptDef) : Prop := {
  grows_strings : len (stringList d) <= len (stringList d');
  grows_vars : len (varName d) <= len (varName d');
  grows_arrays : len (mIntArray d) <= len (mIntArray d');
  grows_labels : len (label d) <= len (label d');
  grows_instr : len (instr d) <= len (instr d') }.

#[export] Instance grows_preorder : PreOrder grows.
Proof.
  split.
  - intros d. split; lia.
  - intros d1 d2 d3 [] []. split; lia.
Qed.

Lemma operand_ok_mono d d' b b' ty v :
  grows d d' -> b <= b' -> operand_ok d b ty v -> operand_ok d' b' ty v.
Proof. intros [] Hb. destruct ty; simpl; lia. Qed.

(** Operations that register names and leave the instructions alone. *)
Record names_only (d d' : ScriptDef) : Prop := {
  names_grow : grows d d';
  names_instr : instr d' = instr d;
  names_cur : Script.curInst d' = Script.curInst d;
  names_labels : labels_ok d -> labels_ok d' }.

#[export] Instance names_only_preorder : PreOrder names_only.
Proof.
  split.
  - intros d. by split.
  - intros d1 d2 d3 [] []. split; [by etrans|congruence|congruence|auto].
Qed.

Lemma string_index_range n l i : string_index n l = Some i -> 0 <= Z.of_nat i < len l.
Proof. intros (x & Hx%lookup_lt_Some & _)%find_idx_lookup. lia. Qed.

Lemma CreateString_ok n d d' v :
  CreateString n d = (d', v) -> names_only d d' /\ 0 <= v < len (stringList d').
Proof.
  unfold CreateString, GetStringIndex. intros H.
  destruct (string_index n (stringList d)) as [i|] eqn:E; simpl in H.
  - apply string_index_range in E.
    destruct (Z.of_nat i =? -1) eqn:E2; to_prop; [lia|]. injection H as <- <-. by split.
  - injection H as <- <-. simpl. rewrite length_app. simpl. split; [|lia].
    split; [split; simpl; rewrite ?length_app; simpl; lia|done..].
Qed.

Lemma CreateVariable_ok n d d' v :
  CreateVariable n d = (d', v) -> names_only d d' /\ 0 <= v < len (varName d').
Proof.
  unfold CreateVariable. intros H.
  destruct (string_index n (varName d)) as [i|] eqn:E; simpl in H.
  - apply string_index_range in E. injection H as <- <-. by split.
  - injection H as <- <-. simpl. rewrite length_app. simpl. split; [|lia].
    split; [split; simpl; rewrite ?length_app; simpl; lia|done..].
Qed.

Lemma CreateIntArray_ok n d d' v :
  CreateIntArray n d = (d', v) -> names_only d d' /\ 0 <= v < len (mIntArray d').
Proof.
  unfold CreateIntArray, GetIntArrayIndex. intros H. injection H as <- <-.
  destruct (find_idx _ (mIntArray d)) as [i|] eqn:E; simpl.
  - apply find_idx_lookup in E as (x & Hx%lookup_lt_Some & _).
    destruct (Z.of_nat i =? -1) eqn:E2; to_prop; [lia|]. split; [done|lia].
  - rewrite !length_app. simpl. split; [|lia].
    split; [split; simpl; rewrite ?length_app; simpl; lia|done..].
Qed.

Lemma GetLabelIndex_range n d : labels_ok d -> -1 <= GetLabelIndex n d < len (label d).
Proof.
  intros [Hm _]. unfold GetLabelIndex. destruct (mLabelMap d !! n) eqn:E; simpl; [|lia].
  apply Hm in E. lia.
Qed.

Lemma add_label_ok n t d :
  labels_ok d -> -1 <= t <= len (instr d) -> labels_ok (add_label n t d).
Proof.
  intros [Hm Hl] Ht. split; simpl.
  - intros n' v. rewrite length_app. simpl. destruct (decide (n' = n)) as [->|Hne].
    + rewrite lookup_insert_eq. intros [= <-]. lia.
    + rewrite lookup_insert_ne by done. intros H%Hm. lia.
  - apply Forall_app. split; [done|]. repeat constructor; simpl; lia.
Qed.

Lemma set_offset_ok d i v : labels_ok d -> 0 <= v <= len (instr d) ->
  labels_ok (set_label (alter (set_offset v) i (label d)) (mLabelMap d) d).
Proof.
  intros [Hm Hl] Hv. split; simpl; rewrite ?length_alter; [done|].
  apply Forall_alter; [done|]. intros; simpl; lia.
Qed.

Lemma add_label_grows n t d : grows d (add_label n t d).
Proof. split; simpl; rewrite ?length_app; lia. Qed.

(** A label operand: the label is registered, its place may be unknown. *)
Lemma CreateLabel_ref_ok n d d' v :
  labels_ok d -> n <> EmptyString -> CreateLabel (Some n) (-1) d = (d', v) ->
  names_only d d' /\ 0 <= v < len (label d').
Proof.
  intros Hok Hn. unfold CreateLabel. rewrite (proj2 (String.eqb_neq _ _) Hn).
  pose proof (GetLabelIndex_range n d Hok). simpl. intros [= <- <-].
  destruct (GetLabelIndex n d =? -1) eqn:E; to_prop.
  - split; [split; auto using add_label_grows|].
    { intros _. apply add_label_ok; [done|lia]. }
    simpl. rewrite length_app. simpl. lia.
  - split; [done|lia].
Qed.

(** A label line: the label is the place of the next instruction. *)
Lemma CreateLabel_def_ok n d :
  labels_ok d -> Script.curInst d = len (instr d) ->
  names_only d (CreateLabel n (Script.curInst d) d).1.
Proof.
  intros Hok Hc. unfold CreateLabel. destruct n as [n|]; [|done].
  destruct (String.eqb n EmptyString); [done|].
  pose proof (GetLabelIndex_range n d Hok) as Hr.
  rewrite (proj2 (Z.leb_le 0 (Script.curInst d))) by lia. simpl.
  set (r := Z.to_nat _). clearbody r. destruct (GetLabelIndex n d =? -1).
  - split; [split; simpl; rewrite ?length_alter, ?length_app; simpl; lia|done|done|].
    intros _. apply (set_offset_ok (add_label n (Script.curInst d) d)).
    + apply add_label_ok; [done|lia].
    + simpl. lia.
  - split; [split; simpl; rewrite ?length_alter; lia|done|done|].
    intros _. apply set_offset_ok; [done|lia].
Qed.

(** ** Pushing instructions *)

Section Compile.
Context {X : Type} `{!CompilerHost X} `{Laws : !CompilerHostLaws}.

Lemma op_ok_grows d d' P i o : grows d d' -> op_ok d P i o -> op_ok d' P i o.
Proof.
  intros Hg (Ht & Hc & Hj). split; [|split; [|done]].
  - intros k ty Hk. destruct (Ht k ty Hk) as [H1 H2].
    split; intros HP; (eapply operand_ok_mono; [exact Hg| |auto]); destruct Hg; lia.
  - intros Ho. specialize (Hc Ho). destruct Hg. lia.
Qed.

Lemma op_ok_iff d P Q i o : (P <-> Q) -> op_ok d P i o -> op_ok d Q i o.
Proof.
  intros HPQ (Ht & Hc & Hj). split; [|done].
  intros k ty Hk. destruct (Ht k ty Hk). split; intros; tauto.
Qed.

Lemma block_ok_app d d' l b : instr d' = instr d ++ l -> block_ok d b -> block_ok d' b.
Proof.
  intros Hi Hb Hr. destruct (Hb Hr) as (H2 & (o & Ho & Hop) & He). rewrite Hi.
  split; [done|]. split; [exists o; split; [by apply lookup_app_l_Some|done]|].
  intros Hu. destruct (He Hu) as (? & o' & Ho' & ?). split; [done|].
  exists o'. split; [by apply lookup_app_l_Some|done].
Qed.

Lemma compile_ok_names d d' c : compile_ok d c -> names_only d d' -> compile_ok d' c.
Proof.
  intros [H1 H2 H3 H4 H5 H6] [Hg Hi Hc Hl]. split; rewrite ?Hi, ?Hc; auto.
  - eapply list.Forall_impl; [exact H3|]. intros b. apply (block_ok_app d d' []).
    by rewrite app_nil_r.
  - intros i o Ho. eapply op_ok_grows; [exact Hg|auto].
Qed.

(** Changes of the definition outside names and instructions. *)
Lemma compile_ok_same d d' c :
  instr d' = instr d -> stringList d' = stringList d -> label d' = label d ->
  varName d' = varName d -> Script.curInst d' = Script.curInst d ->
  mLabelMap d' = mLabelMap d -> mIntArray d' = mIntArray d ->
  compile_ok d c -> compile_ok d' c.
Proof.
  intros E1 E2 E3 E4 E5 E6 E7 H. apply (compile_ok_names d); [done|].
  split; [split; rewrite ?E1, ?E2, ?E3, ?E4, ?E7; lia|done|done|].
  intros [Hm Hl]. split; rewrite ?E1, ?E3, ?E6; done.
Qed.

(** ... and of the compiler outside blocks and pending references. *)
Lemma compile_ok_compiler d c c' :
  mBlockData c' = mBlockData c -> mPendingLabelReference c' = mPendingLabelReference c ->
  compile_ok d c -> compile_ok d c'.
Proof. intros E1 E2 []. split; rewrite ?E1, ?E2; done. Qed.

Lemma push_grows op p1 p2 p3 d : grows d (PushOpCode op p1 p2 p3 d).
Proof. split; simpl; rewrite ?length_app; lia. Qed.

Lemma push_labels op p1 p2 p3 d : labels_ok d -> labels_ok (PushOpCode op p1 p2 p3 d).
Proof.
  intros [Hm Hl]. split; simpl; [done|]. rewrite length_app. simpl.
  eapply list.Forall_impl; [exact Hl|]. intros l. simpl. lia.
Qed.

Lemma fresh_index d c : compile_ok d c -> len (instr d) ∉ mPendingLabelReference c.
Proof.
  intros H Hin. pose proof (ok_pending_range _ _ H) as Hr.
  rewrite list.Forall_forall in Hr. apply Hr in Hin. lia.
Qed.

Lemma compile_ok_push d c op p1 p2 p3 :
  compile_ok d c ->
  op_ok (PushOpCode op p1 p2 p3 d) False (length (instr d)) (newOp op p1 p2 p3) ->
  compile_ok (PushOpCode op p1 p2 p3 d) c.
Proof.
  intros H Ho. pose proof (fresh_index d c H) as Hf. destruct H as [H1 H2 H3 H4 H5 H6].
  split; simpl; rewrite ?length_app; simpl.
  - lia.
  - by apply push_labels.
  - eapply list.Forall_impl; [exact H3|]. intros b. by eapply block_ok_app.
  - done.
  - eapply list.Forall_impl; [exact H5|]. intros; simpl in *; lia.
  - intros i o [Hi|[Hi Hx]]%lookup_app_Some.
    + eapply op_ok_grows; [apply push_grows|auto].
    + destruct (i - length (instr d))%nat as [|n] eqn:E; simpl in Hx; [|done].
      injection Hx as <-. assert (i = length (instr d)) as -> by lia.
      eapply op_ok_iff; [|exact Ho]. split; [done|]. intros Hin. by apply Hf.
Qed.

Lemma compile_ok_push_pending d c op p1 p2 p3 :
  compile_ok d c ->
  op_ok (PushOpCode op p1 p2 p3 d) True (length (instr d)) (newOp op p1 p2 p3) ->
  compile_ok (PushOpCode op p1 p2 p3 d) (AddPendingLabelReference (Script.curInst d) c).
Proof.
  intros H Ho. pose proof (fresh_index d c H) as Hf. destruct H as [H1 H2 H3 H4 H5 H6].
  rewrite H1. split; simpl; rewrite ?length_app; simpl.
  - lia.
  - by apply push_labels.
  - eapply list.Forall_impl; [exact H3|]. intros b. by eapply block_ok_app.
  - apply list.NoDup_app. split; [done|]. split; [|apply NoDup_singleton].
    intros x Hx ->%list_elem_of_singleton. done.
  - apply Forall_app. split; [|repeat constructor; lia].
    eapply list.Forall_impl; [exact H5|]. intros; simpl in *; lia.
  - intros i o [Hi|[Hi Hx]]%lookup_app_Some.
    + eapply op_ok_grows; [apply push_grows|]. eapply op_ok_iff; [|by apply H6].
      rewrite elem_of_app, list_elem_of_singleton. split; [by left|intros [?|E]]; [done|].
      apply lookup_lt_Some in Hi. lia.
    + destruct (i - length (instr d))%nat as [|n] eqn:E; simpl in Hx; [|done].
      injection Hx as <-. assert (i = length (instr d)) as -> by lia.
      eapply op_ok_iff; [|exact Ho]. split; [intros _|done].
      apply elem_of_app. right. by apply list_elem_of_singleton.
Qed.

(** *** Pushes of a value *)

(** A value to be pushed that was found by [ResolveOperandType]. *)
Definition source_ok (d : ScriptDef) (ty : OpCodeParamType) (v : Z) : Prop :=
  (ty = OPT_APPINT \/ ty = OPT_VAR \/ ty = OPT_FLOAT \/ ty = OPT_INT) /\
  (ty = OPT_VAR -> 0 <= v < len (varName d)).

Lemma ResolveOperandType_ok token d d' ty v :
  ResolveOperandType token d = (d', ty, v) -> names_only d d' /\ source_ok d' ty v.
Proof.
  unfold ResolveOperandType. destruct (Ascii.eqb _ _).
  - destruct (CreateString token d) as [d1 v1] eqn:E. intros [= <- <- <-].
    apply CreateString_ok in E as [? ?]. split; [done|]. split; [auto|done].
  - destruct (0 <=? GetVariableIndex token d) eqn:E.
    + to_prop. intros [= <- <- <-]. split; [done|]. split; [auto|intros _].
      unfold GetVariableIndex in *. destruct (string_index _ _) eqn:E2; simpl in *; [|lia].
      by apply string_index_range in E2.
    + destruct (has_char _ _); intros [= <- <- <-]; (split; [done|]); split; [auto|done|auto|done].
Qed.

Lemma source_ok_grows d d' ty v : grows d d' -> source_ok d ty v -> source_ok d' ty v.
Proof. intros [] [? Hv]. split; [done|]. intros E. specialize (Hv E). lia. Qed.

Lemma ext_info_ok i : In i GetExtendedOpCodeTable -> info_ok i.
Proof.
  intros Hi. pose proof tables_ok as Ht. rewrite list.Forall_forall in Ht. apply Ht.
  apply elem_of_app. right. by apply list_elem_of_In.
Qed.

Lemma pushfloat_info :
  paramType (GetInstructionData (op_code OP_PUSHFLOAT)) = [OPT_NONE; OPT_NONE; OPT_NONE].
Proof.
  unfold GetInstructionData.
  change (find _ defCoreOpCode) with (@None OpCodeInfo). cbv iota beta.
  destruct (find _ _) as [i|] eqn:E; [|done].
  apply find_some in E as [Hi Hc]. apply ext_info_ok in Hi as (_ & _ & Hne & _).
  by apply Z.eqb_eq in Hc.
Qed.

Lemma none_operand (k : nat) ty :
  [OPT_NONE; OPT_NONE; OPT_NONE] !! k = Some ty -> ty = OPT_NONE.
Proof. destruct k as [|[|[|k]]]; intros H; cbn in H; by simplify_eq. Qed.

(** Instructions whose operands need nothing but the pushed variable to exist. *)
Lemma push_type_ok d c ty v :
  compile_ok d c -> source_ok d ty v ->
  compile_ok (push_type ty v d) c /\ grows d (push_type ty v d) /\
  Script.curInst (push_type ty v d) = Script.curInst d + 1.
Proof.
  intros Hok [Hty Hv]. unfold push_type.
  assert (exists op, ConvertParamTypeToPushType ty = Some op /\
            op_code op <> op_code OP_CMP /\ op_code op <> op_code OP_JMP /\
            forall k t, paramType (GetInstructionData (op_code op)) !! k = Some t ->
              t = OPT_NONE \/ t = OPT_INT \/ (t = OPT_VAR /\ ty = OPT_VAR /\ k = 0%nat))
    as (op & -> & Hc & Hj & Ht).
  { destruct Hty as [->|[->|[->| ->]]]; eexists; (split; [reflexivity|]);
      (split; [done|]); (split; [done|]).
    - change (paramType _) with [OPT_NONE; OPT_NONE; OPT_NONE]. by intros k t ->%none_operand; left.
    - change (paramType _) with [OPT_VAR; OPT_NONE; OPT_NONE].
      intros [|k] t Hk; [injection Hk as <-; auto|].
      left. by apply (none_operand (S k)).
    - rewrite pushfloat_info. by intros k t ->%none_operand; left.
    - change (paramType _) with [OPT_INT; OPT_NONE; OPT_NONE].
      intros [|k] t Hk; [injection Hk as <-; auto|].
      left. by apply (none_operand (S k)). }
  split; [|split; [apply push_grows|done]].
  apply compile_ok_push; [done|]. unfold newOp. rewrite op_code_u8. split; [|done].
  intros k t Hk. destruct (Ht k t Hk) as [->|[->|(-> & -> & ->)]]; [done..|].
  specialize (Hv eq_refl). simpl. lia.
Qed.

(** *** Operands *)

Lemma ResolveOperand_ok ty tokens i d c d1 v pt :
  compile_ok d c -> operand_present tokens i ty = true ->
  ResolveOperand ty (GetSubstring tokens (i + 1)) d = (d1, v, pt) ->
  names_only d d1 /\ operand_ok d1 (len (label d1)) ty v /\
  (pt = OPT_NONE \/ (ty = OPT_INTSTK /\ source_ok d1 pt v)).
Proof.
  intros Hok Hp. unfold operand_present in Hp. unfold ResolveOperand, GetSubstring.
  destruct (tokens !! (i + 1)%nat) as [t|]; [|done].
  destruct ty; cbv beta iota; simpl in Hp; try by (intros [= <- <- <-]; split_and!; [done..|by left]).
  - apply negb_true_iff, String.eqb_neq in Hp.
    destruct (CreateLabel (Some t) (-1) d) as [d2 v2] eqn:E. intros [= <- <- <-].
    destruct (CreateLabel_ref_ok t d d2 v2 (ok_labels _ _ Hok) Hp E). (split; [done|split; [done|auto]]).
  - destruct (CreateString t d) as [d2 v2] eqn:E. intros [= <- <- <-].
    apply CreateString_ok in E as [? ?]. (split; [done|split; [done|auto]]).
  - destruct (CreateVariable t d) as [d2 v2] eqn:E. intros [= <- <- <-].
    apply CreateVariable_ok in E as [? ?]. (split; [done|split; [done|auto]]).
  - destruct (ResolveOperandType t d) as [[d2 pt2] v2] eqn:E. intros [= <- <- <-].
    apply ResolveOperandType_ok in E as [? ?]. (split; [done|split; [done|auto]]).
  - destruct (CreateIntArray t d) as [d2 v2] eqn:E. intros [= <- <- <-].
    apply CreateIntArray_ok in E as [? ?]. (split; [done|split; [done|auto]]).
Qed.

Lemma compile_operands_ok types : forall i tokens d c d' params r,
  compile_ok d c -> operands_present tokens i types = true ->
  compile_operands i types tokens d = (d', params, r) ->
  compile_ok d' c /\ grows d d' /\ (r = true <-> OPT_LABEL ∈ types) /\
  Forall2 (operand_ok d' (len (label d'))) types params.
Proof.
  induction types as [|ty types IH]; intros i tokens d c d' params r Hok Hp H; simpl in H.
  - injection H as <- <- <-. split_and!; [done..| |constructor].
    split; [done|]. by intros ?%not_elem_of_nil.
  - simpl in Hp. apply andb_true_iff in Hp as [Hp1 Hp2].
    destruct (ResolveOperand ty (GetSubstring tokens (i + 1)) d) as [[d1 v] pt] eqn:E.
    destruct (ResolveOperand_ok ty tokens i d c d1 v pt Hok Hp1 E) as (Hn & Hv & Hpt).
    pose proof (compile_ok_names _ _ _ Hok Hn) as Hok1.
    assert (exists d2 v2, (if bool_decide (pt = OPT_NONE) then (d1, v)
        else match ConvertParamTypeToPushType pt with
             | None => (d1, v)
             | Some op => (PushOpCode (op_code op) v 0 0 d1, 0)
             end) = (d2, v2) /\ compile_ok d2 c /\ grows d1 d2 /\
        operand_ok d2 (len (label d2)) ty v2) as (d2 & v2 & Ed & Hok2 & Hg2 & Hv2).
    { destruct Hpt as [->|[-> Hs]]; simpl; [by eexists _, _|].
      destruct (push_type_ok d1 c pt v Hok1 Hs) as (Hpo & Hpg & _).
      unfold push_type in Hpo, Hpg.
      destruct pt; try (destruct Hs as [[?|[?|[?|?]]] _]; discriminate); simpl in *;
        eexists _, _; (split; [reflexivity|]); done. }
    rewrite Ed in H.
    destruct (compile_operands (S i) types tokens d2) as [[d3 ps] r3] eqn:E3.
    injection H as <- <- <-.
    destruct (IH (S i) tokens d2 c d3 ps r3 Hok2 Hp2 E3) as (Hok3 & Hg3 & Hr3 & Hall).
    split; [done|]. split; [etrans; [apply Hn|by etrans]|]. split.
    + rewrite orb_true_iff, bool_decide_eq_true, Hr3, elem_of_cons.
      split; intros [?|?]; auto.
    + constructor; [|done]. eapply operand_ok_mono; [exact Hg3| |done]. destruct Hg3; lia.
Qed.

(** The operands as [param1] to [param3] of the instruction. *)
Lemma param_nth k op ps :
  (k < 3)%nat -> param k (newOp op (nth 0 ps 0) (nth 1 ps 0) (nth 2 ps 0)) = nth k ps 0.
Proof. destruct k as [|[|[|k]]]; [done..|lia]. Qed.

Lemma compile_instruction_ok opinfo tokens d c :
  compile_ok d c -> info_ok opinfo ->
  operands_present tokens 0 (take (numParams opinfo) (paramType opinfo)) = true ->
  compile_ok (compile_instruction opinfo tokens d c).1 (compile_instruction opinfo tokens d c).2.
Proof.
  intros Hok (Hinfo & Hrange & _ & Hlen & Hnone & Hjc) Hp. unfold compile_instruction.
  destruct (compile_operands _ _ _ d) as [[d1 ps] r] eqn:E. simpl.
  destruct (compile_operands_ok _ _ _ _ _ _ _ _ Hok Hp E) as (Hok1 & Hg & Hr & Hall).
  set (o := newOp (info_opCode opinfo) (nth 0 ps 0) (nth 1 ps 0) (nth 2 ps 0)).
  set (d2 := PushOpCode _ _ _ _ d1).
  assert (opCode o = info_opCode opinfo) as Ho by (apply Z.mod_small; exact Hrange).
  assert (forall k ty b, paramType opinfo !! k = Some ty ->
            (ty = OPT_LABEL -> b = len (label d2)) -> operand_ok d2 b ty (param k o)) as Hops.
  { intros k ty b Hk Hb.
    assert (k < 3)%nat by (apply lookup_lt_Some in Hk; lia).
    unfold o. rewrite param_nth by done.
    destruct (decide (k < numParams opinfo)%nat) as [Hlt|Hge].
    - rewrite <- (lookup_take_lt _ (numParams opinfo)) in Hk by done.
      destruct (Forall2_lookup_l _ _ _ _ _ Hall Hk) as (v & Hv & Hvok).
      rewrite (nth_lookup_Some _ _ _ _ Hv).
      assert (operand_ok d2 (len (label d2)) ty v) as Hv2.
      { eapply operand_ok_mono; [apply push_grows|done|exact Hvok]. }
      destruct ty; try exact Hv2. by rewrite Hb.
    - rewrite list.Forall_forall in Hnone. rewrite <- (Hnone ty); [done|].
      apply list_elem_of_lookup. exists (k - numParams opinfo)%nat. rewrite lookup_drop.
      by replace (numParams opinfo + (k - numParams opinfo))%nat with k by lia. }
  assert (forall op, op = OP_CMP \/ op = OP_JMP -> opCode o = op_code op ->
            param1 o = 0 /\ param2 o = 0) as Hzero.
  { intros op Hop Eo. assert (numParams opinfo = 0%nat) as E0
      by (apply Hjc; destruct Hop as [->| ->]; [left|right]; congruence).
    rewrite E0 in Hall. inversion Hall; subst. done. }
  assert (forall P : Prop, (P -> r = true) -> (~ P -> r = false) ->
            op_ok d2 P (length (instr d1)) o) as Hop.
  { intros P HP1 HP2. split; [rewrite Ho, Hinfo; intros k ty Hk; split; intros HP|split].
    - by apply Hops.
    - apply Hops; [done|]. intros ->. specialize (HP2 HP).
      assert (r = true) as Hrt; [|congruence]. apply Hr.
      destruct (decide (k < numParams opinfo)%nat) as [Hlt|Hge].
      + apply list_elem_of_lookup. exists k. by rewrite lookup_take_lt.
      + exfalso. rewrite list.Forall_forall in Hnone.
        discriminate (Hnone OPT_LABEL). apply list_elem_of_lookup.
        exists (k - numParams opinfo)%nat. rewrite lookup_drop.
        by replace (numParams opinfo + (k - numParams opinfo))%nat with k by lia.
    - intros Eo. destruct (Hzero OP_CMP (or_introl eq_refl) Eo) as [_ ->]. lia.
    - intros Eo. destruct (Hzero OP_JMP (or_intror eq_refl) Eo) as [-> _]. lia. }
  destruct r.
  - apply compile_ok_push_pending; [done|]. apply Hop; tauto.
  - apply compile_ok_push; [done|]. by apply Hop.
Qed.

(** *** Blocks *)

Lemma last_unresolved_Some i bs b :
  last_unresolved i bs = Some b -> exists block, bs !! b = Some block /\ mResolved block = false.
Proof.
  induction i as [|i IH]; simpl; [done|].
  destruct (bs !! i) as [block|] eqn:E; [|done].
  destruct (mResolved block) eqn:Er; [done|]. intros [= <-]. eauto.
Qed.

Lemma compile_ok_blocks d c n bs :
  compile_ok d c -> Forall (block_ok d) bs -> compile_ok d (set_blocks n bs c).
Proof. intros [] ?. by split. Qed.

(** The block [GetLastUnresolvedBlock] points to. *)
Lemma open_block d c b :
  compile_ok d c -> GetLastUnresolvedBlock c = Some b ->
  exists block, mBlockData c !! b = Some block /\ mResolved block = false /\ block_ok d block.
Proof.
  intros Hok (block & Hb & Hr)%last_unresolved_Some. exists block. split_and!; [done..|].
  apply (Forall_lookup_1 _ _ _ _ (ok_blocks _ _ Hok) Hb).
Qed.

Lemma no_operands op :
  op = OP_CMP \/ op = OP_JMP ->
  paramType (GetInstructionData (op_code op)) = [OPT_NONE; OPT_NONE; OPT_NONE].
Proof. by intros [->| ->]. Qed.

(** Comparisons and jumps need no more than their targets. *)
Lemma branch_op_ok d P i o :
  opCode o = op_code OP_CMP \/ opCode o = op_code OP_JMP ->
  (opCode o = op_code OP_CMP -> 0 <= Z.of_nat i + param2 o /\ param2 o <= len (instr d) + 2) ->
  (opCode o = op_code OP_JMP -> 0 <= param1 o) -> op_ok d P i o.
Proof.
  intros Ho Hc Hj. split; [|done]. intros k ty.
  assert (paramType (GetInstructionData (opCode o)) = [OPT_NONE; OPT_NONE; OPT_NONE]) as ->
    by (destruct Ho as [->| ->]; done).
  by intros ->%none_operand.
Qed.

Lemma compile_ok_update d c i f o :
  compile_ok d c -> instr d !! i = Some o ->
  opCode o = op_code OP_CMP \/ opCode o = op_code OP_JMP -> opCode (f o) = opCode o ->
  (opCode o = op_code OP_CMP -> 0 <= Z.of_nat i + param2 (f o) /\ param2 (f o) <= len (instr d) + 2) ->
  (opCode o = op_code OP_JMP -> 0 <= param1 (f o)) ->
  update_instr (Z.of_nat i) f d = Some (set_instr (alter f i (instr d)) d) /\
  compile_ok (set_instr (alter f i (instr d)) d) c.
Proof.
  intros Hok Ho Hop Hf Hc Hj. pose proof (lookup_lt_Some _ _ _ Ho) as Hlt.
  split.
  { unfold update_instr. rewrite Nat2Z.id.
    by rewrite (proj2 (Z.leb_le _ _)), (proj2 (Z.ltb_lt _ _)) by lia. }
  assert (forall j o', instr d !! j = Some o' ->
            exists o2, alter f i (instr d) !! j = Some o2 /\ opCode o2 = opCode o') as Hsame.
  { intros j o' Hj'. destruct (decide (i = j)) as [<-|Hne].
    - rewrite list_lookup_alter_eq, Ho. simplify_eq. simpl. eauto.
    - rewrite list_lookup_alter_ne by done. eauto. }
  assert (grows d (set_instr (alter f i (instr d)) d)) as Hg
    by (split; simpl; rewrite ?length_alter; lia).
  destruct Hok as [H1 H2 H3 H4 H5 H6]. split; simpl; rewrite ?length_alter; [done| | |done|done|].
  - destruct H2 as [Hm Hl]. split; [done|]. simpl. by rewrite length_alter.
  - eapply list.Forall_impl; [exact H3|]. intros b Hb Hr. simpl.
    destruct (Hb Hr) as (Hi & (o1 & Ho1 & Ec) & He). split; [done|]. split.
    + destruct (Hsame _ _ Ho1) as (o2 & ? & ?). exists o2. split; [done|by etrans].
    + intros Hu. destruct (He Hu) as (? & o1' & Ho1' & ?). split; [done|].
      destruct (Hsame _ _ Ho1') as (o2 & ? & ?). exists o2. split; [done|by etrans].
  - intros j o'. destruct (decide (i = j)) as [<-|Hne].
    + rewrite list_lookup_alter_eq, Ho. simpl. intros [= <-].
      apply branch_op_ok; rewrite Hf; [done| |done]. simpl. rewrite length_alter. done.
    + rewrite list_lookup_alter_ne by done. intros Ho'. eapply op_ok_grows; [exact Hg|auto].
Qed.

Lemma CloseBlock_ok d c : compile_ok d c -> compile_ok d (CloseBlock c).1.
Proof.
  intros Hok. unfold CloseBlock. destruct (GetLastUnresolvedBlock c); [|done].
  apply compile_ok_blocks; [done|]. apply Forall_alter; [apply Hok|].
  intros b _ _ Hr. done.
Qed.

Lemma compile_endif_ok d c :
  compile_ok d c -> exists d' c', compile_endif d c = Some (d', c') /\ compile_ok d' c'.
Proof.
  intros Hok. unfold compile_endif.
  destruct (GetLastUnresolvedBlock c) as [b|] eqn:Eb; [|eauto].
  destruct (open_block d c b Hok Eb) as (block & -> & Hr & Hblock).
  destruct (Hblock Hr) as (Hi2 & (o & Ho & Hop) & He). simpl.
  pose proof (lookup_lt_Some _ _ _ Ho) as Hlt. pose proof (ok_cur _ _ Hok) as Hcur.
  rewrite <- (Z2Nat.id (mInstIndex block)) in He |- * by lia.
  set (i := Z.to_nat (mInstIndex block)) in *.
  destruct (mUseElse block) eqn:Eu.
  - destruct (He eq_refl) as (Hie & oe & Hoe & Hope).
    pose proof (lookup_lt_Some _ _ _ Hoe) as Hlte.
    rewrite <- (Z2Nat.id (mInstIndexElse block)) in Hie |- * by lia.
    set (e := Z.to_nat (mInstIndexElse block)) in *.
    destruct (compile_ok_update d c i (put_param2 (Z.of_nat e - Z.of_nat i + 1)) o)
      as [-> Hok1]; [done..|by left|done|simpl; lia|by rewrite Hop|]. simpl.
    set (d1 := set_instr _ d) in *.
    assert (instr d1 !! e = Some oe) as Hoe1.
    { simpl. rewrite list_lookup_alter_ne by lia. done. }
    destruct (compile_ok_update d1 c e (put_param1 (Script.curInst d)) oe)
      as [-> Hok2]; [done..|by right|done|by rewrite Hope|simpl; lia|]. simpl.
    eexists _, _. split; [reflexivity|]. by apply CloseBlock_ok.
  - destruct (compile_ok_update d c i (put_param2 (Script.curInst d - Z.of_nat i)) o)
      as [-> Hok1]; [done..|by left|done|simpl; lia|by rewrite Hop|]. simpl.
    eexists _, _. split; [reflexivity|]. by apply CloseBlock_ok.
Qed.

Lemma compile_else_ok d c :
  compile_ok d c -> compile_ok (compile_else d c).1 (compile_else d c).2.
Proof.
  intros Hok. unfold compile_else.
  destruct (GetLastUnresolvedBlock c) as [b|] eqn:Eb; [|done].
  destruct (open_block d c b Hok Eb) as (block & Hb & Hr & Hblock). simpl.
  pose proof (ok_cur _ _ Hok) as Hcur.
  assert (compile_ok (PushOpCode (op_code OP_JMP) (Script.curInst d + 1) 0 0 d) c) as Hok1.
  { apply compile_ok_push; [done|].
    apply branch_op_ok; [by right|done|simpl; lia]. }
  apply compile_ok_blocks; [done|].
  pose proof (ok_blocks _ _ Hok1) as Hbs. apply Forall_alter; [done|].
  intros block' Hb' Hok' Hr'. simpl in Hr'. destruct (Hok' Hr') as (Hi2 & (o & Ho & Hop) & _).
  split; [done|]. split; [by exists o|]. intros _.
  assert (block' = block) as -> by congruence.
  destruct (Hblock Hr) as (_ & (o1 & Ho1 & _) & _). pose proof (lookup_lt_Some _ _ _ Ho1).
  unfold else_block. cbn [mInstIndex mInstIndexElse]. split; [lia|].
  rewrite Hcur, Nat2Z.id. simpl. rewrite lookup_app_r by lia. rewrite Nat.sub_diag. by eexists.
Qed.

Lemma compile_recompare_ok d c : compile_ok d c -> compile_ok (compile_recompare d c) c.
Proof.
  intros Hok. unfold compile_recompare.
  destruct (GetLastUnresolvedBlock c) as [b|] eqn:Eb; [|done].
  destruct (open_block d c b Hok Eb) as (block & -> & Hr & Hblock).
  destruct (Hblock Hr) as (Hi2 & _).
  apply compile_ok_push; [done|]. apply branch_op_ok; [by right|done|simpl; lia].
Qed.

Lemma compile_if_ok tokens d c :
  compile_ok d c -> compile_ok (compile_if tokens d c).1 (compile_if tokens d c).2.
Proof.
  intros Hok. unfold compile_if.
  destruct (tokens !! 1%nat) as [t1|]; [|done]. destruct (tokens !! 2%nat) as [t2|]; [|done].
  destruct (tokens !! 3%nat) as [t3|]; [|done].
  destruct (ResolveOperandType t1 d) as [[d1 ty1] v1] eqn:E1.
  destruct (ResolveOperandType t3 d1) as [[d2 ty2] v2] eqn:E2.
  apply ResolveOperandType_ok in E1 as [Hn1 Hs1]. apply ResolveOperandType_ok in E2 as [Hn2 Hs2].
  assert (compile_ok d2 c) as Hok2 by (eapply compile_ok_names; [eapply compile_ok_names|]; done).
  destruct (bool_decide _); [done|].
  destruct (push_type_ok d2 c ty2 v2 Hok2 Hs2) as (Hok3 & Hg3 & Hc3).
  set (d3 := push_type ty2 v2 d2) in *.
  assert (source_ok d3 ty1 v1) as Hs1'.
  { eapply source_ok_grows; [exact Hg3|]. eapply source_ok_grows; [apply Hn2|done]. }
  destruct (push_type_ok d3 c ty1 v1 Hok3 Hs1') as (Hok4 & Hg4 & Hc4).
  set (d4 := push_type ty1 v1 d3) in *.
  pose proof (ok_cur _ _ Hok4) as Hcur. pose proof (ok_cur _ _ Hok2) as Hcur2.
  set (jump := match tokens !! 5%nat with Some t => _ | None => _ end).
  assert (0 <= jump <= 2) as Hjump.
  { unfold jump. destruct (tokens !! 5%nat) as [t|]; [|done].
    destruct (String.eqb t "else") eqn:Et; [|done]. apply String.eqb_eq in Et as ->.
    change (atoi "else") with 0. done. }
  cbn [fst snd]. clearbody jump.
  assert (compile_ok (PushOpCode (op_code OP_CMP) (cmp_code (ResolveComparisonType t2)) jump 0 d4) c) as Hok5.
  { apply compile_ok_push; [done|]. apply branch_op_ok; [by left|simpl; lia|done]. }
  apply compile_ok_blocks; [done|]. apply Forall_app. split; [apply Hok5|].
  apply Forall_singleton. intros _. cbn [mInstIndex mUseElse]. split; [lia|]. split; [|done].
  rewrite Hcur, Nat2Z.id. simpl. rewrite lookup_app_r by lia. rewrite Nat.sub_diag. by eexists.
Qed.

(** *** Lines *)

Lemma set_names_only (d d' : ScriptDef) :
  instr d' = instr d -> stringList d' = stringList d -> label d' = label d ->
  varName d' = varName d -> Script.curInst d' = Script.curInst d ->
  mLabelMap d' = mLabelMap d -> mIntArray d' = mIntArray d -> names_only d d'.
Proof.
  intros E1 E2 E3 E4 E5 E6 E7.
  split; [split; rewrite ?E1, ?E2, ?E3, ?E4, ?E7; lia|done|done|].
  intros [Hm Hl]. split; rewrite ?E1, ?E3, ?E6; done.
Qed.

Lemma SetMetaDataBase_ok opname d c x d' c' x' :
  compile_ok d c -> SetMetaDataBase opname (d, c, x) = (d', c', x') -> compile_ok d' c'.
Proof.
  intros Hok. unfold SetMetaDataBase.
  assert (forall d2 : ScriptDef, names_only d d2 -> compile_ok d2 c) as Hn
    by (intros; by eapply compile_ok_names).
  assert (forall f v, names_only d (SetFlag f v d)) as Hf
    by (intros; unfold SetFlag; repeat case_test; by apply set_names_only).
  intros H. repeat (case_match; simplify_eq);
    first [ done | by eapply metadata_ok | by apply (compile_ok_compiler _ c) | by apply Hn
          | by apply Hn, set_names_only ].
Qed.

Lemma prepare_line_ok line d c :
  compile_ok d c -> compile_ok (prepare_line line d c).1 (prepare_line line d c).2.
Proof.
  intros Hok. unfold prepare_line. destruct (Tokenize line) as [destList quoted]. simpl.
  apply (compile_ok_compiler _ c).
  - unfold CheckSymbolReplacements. by destruct (bool_decide _).
  - unfold CheckSymbolReplacements. by destruct (bool_decide _).
  - eapply compile_ok_names; [exact Hok|].
    split; [split; simpl; rewrite ?length_app; lia|done..].
Qed.

Lemma GetInstructionData_nop : info_ok (GetInstructionData (op_code OP_NOP)).
Proof.
  change (GetInstructionData (op_code OP_NOP))
    with (mkInfo "nop" (op_code OP_NOP) 0 [OPT_NONE; OPT_NONE; OPT_NONE]).
  split_and!; try done. by repeat constructor.
Qed.

Lemma found_info_ok (p : OpCodeInfo -> bool) :
  info_ok match find p defCoreOpCode with
          | Some i => i
          | None => match find p GetExtendedOpCodeTable with
                    | Some i => i
                    | None => mkInfo "nop" (op_code OP_NOP) 0 [OPT_NONE; OPT_NONE; OPT_NONE]
                    end
          end.
Proof.
  pose proof tables_ok as Ht. rewrite list.Forall_forall in Ht.
  destruct (find p defCoreOpCode) as [i|] eqn:E.
  { apply find_some in E as [E _]. apply Ht, elem_of_app. left. by apply list_elem_of_In. }
  destruct (find p GetExtendedOpCodeTable) as [i|] eqn:E2; [|apply GetInstructionData_nop].
  apply find_some in E2 as [E2 _]. by apply ext_info_ok.
Qed.

Lemma info_by_code_ok z : info_ok (GetInstructionData z).
Proof. apply (found_info_ok (fun i => info_opCode i =? z)). Qed.

Lemma info_by_name_ok n : info_ok (GetInstructionDataByName n).
Proof. apply (found_info_ok (fun i => String.eqb (name i) n)). Qed.

Lemma CompileLine_ok line d c x :
  compile_ok d c -> tokens_complete (mTokens (prepare_line line d c).2) = true ->
  exists d' c' x', CompileLine line (d, c, x) = Some (d', c', x') /\ compile_ok d' c'.
Proof.
  intros Hok Ht. unfold CompileLine. apply (prepare_line_ok line) in Hok.
  destruct (prepare_line line d c) as [d1 c1]. cbn [fst snd] in *. clear d c.
  unfold compile_tokens, GetSubstring.
  destruct (mTokens c1) as [|opname tokens] eqn:Et; [by eauto 6|].
  change ((opname :: tokens) !! 0%nat) with (Some opname). cbv beta iota.
  destruct (Ascii.eqb (first_char opname) (chr 58)); [|destruct (String.eqb opname "if");
    [|destruct (String.eqb opname "endif"); [|destruct (String.eqb opname "else");
    [|destruct (String.eqb opname "recompare"); [|destruct (Ascii.eqb _ _)]]]]].
  - eexists _, _, _. split; [reflexivity|]. eapply compile_ok_names; [exact Hok|].
    apply CreateLabel_def_ok; apply Hok.
  - pose proof (compile_if_ok (opname :: tokens) d1 c1 Hok) as H.
    destruct (compile_if _ _ _). by eauto 6.
  - destruct (compile_endif_ok d1 c1 Hok) as (d2 & c2 & -> & H). simpl. by eauto 6.
  - pose proof (compile_else_ok d1 c1 Hok) as H. destruct (compile_else _ _). by eauto 6.
  - eexists _, _, _. split; [reflexivity|]. by apply compile_recompare_ok.
  - destruct (SetMetaDataBase opname (d1, c1, x)) as [[d2 c2] x2] eqn:E.
    apply SetMetaDataBase_ok in E; [|done]. by eauto 6.
  - destruct (HandleAdvancedCommand opname (d1, c1, x)) as [[[d2 c2] x2] handled] eqn:E.
    destruct handled.
    + apply command_ok in E; [|done]. by eauto 6.
    + apply command_unhandled in E. injection E as -> -> ->.
      destruct (info_opCode _ =? _); [by eauto 6|]. rewrite Et.
      pose proof (compile_instruction_ok (GetInstructionDataByName opname) (opname :: tokens) d1 c1
        Hok (info_by_name_ok opname) Ht) as H.
      destruct (compile_instruction _ _ _ _). by eauto 6.
Qed.

Lemma compile_lines_ok lines : forall d c x,
  compile_ok d c -> lines_complete lines (d, c, x) = true ->
  exists d' c' x', compile_lines lines (d, c, x) = Some (d', c', x') /\ compile_ok d' c'.
Proof.
  induction lines as [|[n l] lines IH]; intros d c x Hok Hl; [by eauto 6|].
  cbn [lines_complete compile_lines] in *. apply andb_true_iff in Hl as [H1 H2].
  assert (compile_ok d (set_line n c)) as Hok' by by apply (compile_ok_compiler d c).
  destruct (CompileLine_ok l d (set_line n c) x Hok' H1) as (d1 & c1 & x1 & E & Hok1).
  rewrite E in H2 |- *. simpl. by apply IH.
Qed.

(** *** Labels *)

Lemma link_param_ok d labels ty v :
  length labels = length (label d) ->
  Forall (fun l => 0 <= instrOffset l <= len (instr d)) labels ->
  (forall t, ty = Some t -> operand_ok d (len (label d)) t v) ->
  exists v', link_param labels ty v = Some v' /\
    (forall t, ty = Some t -> operand_ok d (len (instr d) + 1) t v') /\
    (ty = Some OPT_NONE -> v' = v).
Proof.
  intros Hlen Hl Hty. unfold link_param, label_offset.
  destruct (bool_decide_reflect (ty = Some OPT_LABEL)) as [->|Hne].
  - specialize (Hty _ eq_refl). simpl in Hty.
    destruct (v <? 0) eqn:E; to_prop; [lia|].
    assert (Z.to_nat v < length labels)%nat as [l Hl']%lookup_lt_is_Some by lia.
    rewrite Hl'. simpl. eexists. split; [reflexivity|]. split; [|done].
    intros t [= <-]. apply (Forall_lookup_1 _ _ _ _ Hl) in Hl'. simpl. lia.
  - exists v. split; [done|]. split; [|done]. intros t Ht. specialize (Hty t Ht).
    destruct t; simpl in *; congruence.
Qed.

Lemma link_op_ok d labels i o :
  length labels = length (label d) ->
  Forall (fun l => 0 <= instrOffset l <= len (instr d)) labels ->
  op_ok d True i o ->
  exists o', link_op labels o = Some o' /\ opCode o' = opCode o /\ op_ok d False i o'.
Proof.
  intros Hlen Hl (Ht & Hc & Hj). unfold link_op. cbv zeta.
  destruct (info_by_code_ok (opCode o)) as (_ & _ & _ & H3 & _).
  set (types := paramType (GetInstructionData (opCode o))) in *.
  assert (forall k, (k < 3)%nat -> exists v', link_param labels (types !! k) (param k o) = Some v' /\
    (forall t, types !! k = Some t -> operand_ok d (len (instr d) + 1) t v') /\
    (types !! k = Some OPT_NONE -> v' = param k o)) as Hk.
  { intros k Hk. apply link_param_ok; [done..|]. intros t E. by apply Ht. }
  destruct (Hk 0%nat ltac:(lia)) as (v1 & E1 & Ht1 & Hn1).
  destruct (Hk 1%nat ltac:(lia)) as (v2 & E2 & Ht2 & Hn2).
  destruct (Hk 2%nat ltac:(lia)) as (v3 & E3 & Ht3 & _).
  cbn [param] in E1, E2, E3. rewrite E1, E2, E3. simpl. eexists. split; [reflexivity|].
  split; [done|]. split; [|split]; cbn [opCode param1 param2].
  - intros k ty E. fold types in E. split; [done|intros _].
    assert (k < 3)%nat as Hk3 by (apply lookup_lt_Some in E; lia).
    destruct k as [|[|[|k]]]; [auto..|lia].
  - intros Ho. rewrite Hn2; [by apply Hc|]. unfold types. rewrite Ho. done.
  - intros Ho. rewrite Hn1; [by apply Hj|]. unfold types. rewrite Ho. done.
Qed.

Lemma resolve_pending_ok d labels pending : forall ops,
  length labels = length (label d) ->
  Forall (fun l => 0 <= instrOffset l <= len (instr d)) labels ->
  NoDup pending -> Forall (fun i => 0 <= i < len ops) pending ->
  (forall i o, ops !! i = Some o -> op_ok d (Z.of_nat i ∈ pending) i o) ->
  exists ops', resolve_pending pending labels ops = Some ops' /\ length ops' = length ops /\
    forall i o, ops' !! i = Some o -> op_ok d False i o.
Proof.
  induction pending as [|p pending IH]; intros ops Hlen Hl Hnd Hr Hops; simpl.
  - exists ops. split_and!; [done..|]. intros i o Hi.
    eapply op_ok_iff; [|by apply Hops]. split; [by intros ?%not_elem_of_nil|done].
  - apply list.NoDup_cons in Hnd as [Hp Hnd]. apply list.Forall_cons in Hr as [Hpr Hr].
    rewrite (proj2 (Z.leb_le 0 p)) by lia.
    assert (Z.to_nat p < length ops)%nat as [o Ho]%lookup_lt_is_Some by lia. rewrite Ho. simpl.
    destruct (link_op_ok d labels (Z.to_nat p) o Hlen Hl) as (o' & -> & Hoc & Hok').
    { eapply op_ok_iff; [|by apply Hops]. rewrite Z2Nat.id by lia.
      split; [done|intros _; by left]. }
    simpl.
    destruct (IH (<[Z.to_nat p := o']> ops)) as (ops' & E & Hlen' & Hok); [done..| | |].
    + by rewrite length_insert.
    + intros i o2. destruct (decide (i = Z.to_nat p)) as [->|Hne].
      * rewrite list_lookup_insert_eq by lia. intros [= <-].
        eapply op_ok_iff; [|exact Hok']. rewrite Z2Nat.id by lia. split; [done|]. by intros ?%Hp.
      * rewrite list_lookup_insert_ne by done. intros Hi.
        eapply op_ok_iff; [|by apply Hops]. rewrite elem_of_cons.
        split; [intros [E|?]; [lia|done]|by right].
    + exists ops'. split; [done|]. rewrite length_insert in Hlen'. done.
Qed.

Lemma FinalizeCompile_ok d c x :
  compile_ok d c ->
  exists d' c', FinalizeCompile (d, c, x) = Some (d', c', x) /\ script_typed d' /\
    len (instr d') = len (instr d).
Proof.
  intros [H1 H2 H3 H4 H5 H6]. unfold FinalizeCompile.
  set (labels := resolve_label <$> label d).
  assert (length labels = length (label d)) as Hlen by apply length_fmap.
  assert (Forall (fun l => 0 <= instrOffset l <= len (instr d)) labels) as Hl.
  { apply list.Forall_fmap. eapply list.Forall_impl; [apply H2|]. intros l Hl. simpl.
    unfold resolve_label. case_test; to_prop; simpl in *; lia. }
  destruct (resolve_pending_ok d labels _ _ Hlen Hl H4 H5 H6) as (ops & -> & Hol & Hok).
  simpl. eexists _, _. split; [reflexivity|]. split; [|simpl; lia].
  split; simpl.
  - congruence.
  - intros n v Hn. rewrite Hlen. by eapply H2.
  - by rewrite Hol.
  - intros i o Hi. eapply op_ok_grows; [|by apply Hok].
    split; simpl; lia.
Qed.
End Compile.

(** ** Sources *)

Lemma core_infos_ok `{!CompilerHost X} : Forall info_ok defCoreOpCode.
Proof.
  repeat (apply list.Forall_cons; split;
    [split_and!; [reflexivity|done|done|done|done|repeat constructor|
      intros [E|E]; first [reflexivity | exfalso; revert E; done]]|]).
  constructor.
Qed.

#[export] Instance base_host_laws : @CompilerHostLaws unit base_host.
Proof.
  split.
  - apply Forall_app. split; [apply core_infos_ok|].
    by repeat constructor.
  - intros ? ? ? ? ? ? ? H [= <- <- <-]. exact H.
  - done.
  - by intros ? ? ? [= ->].
Qed.

Lemma newDef_typed `{!CompilerHost X} : script_typed newDef.
Proof. by split. Qed.

Lemma script_typed_compile_ok `{!CompilerHost X} d :
  script_typed d -> compile_ok d newCompiler.
Proof.
  intros [H1 H2 H3 H4]. split; simpl; [done| |constructor|constructor|constructor|].
  - split; [done|]. eapply list.Forall_impl; [exact H3|]. intros; simpl in *; lia.
  - intros i o Hi. eapply op_ok_iff; [|by apply H4]. split; [done|]. by intros ?%not_elem_of_nil.
Qed.

(** The lines of a file as [CompileFromSource] reads them. *)
Definition source_lines (text : string) : list (Z * string) :=
  default [] (read_file (file_fuel text) (set_CommentStyle Comment_Semi (OpenText text))).

Definition source_complete `{!CompilerHost X} (text : string) (d : ScriptDef) (x : X) : bool :=
  lines_complete (source_lines text) (d, newCompiler, x).

Lemma CompileFromSource_lines `{!CompilerHost X} text d x :
  CompileFromSource (Some text) d x = compile_source (source_lines text) d x.
Proof.
  unfold CompileFromSource, source_lines.
  destruct (read_file_total (file_fuel text) (set_CommentStyle Comment_Semi (OpenText text)))
    as [lines E]; [unfold file_fuel; simpl; lia|]. by rewrite E.
Qed.

Lemma compile_typed_lemma `{!CompilerHost X} `{!CompilerHostLaws} text d x :
  script_typed d -> source_complete text d x = true ->
  exists d' x', CompileFromSource (Some text) d x = Some (d', x') /\ script_typed d'.
Proof.
  intros Hd. rewrite CompileFromSource_lines. unfold source_complete, compile_source.
  generalize (source_lines text) as lines. intros lines Hc.
  destruct (compile_lines_ok lines d newCompiler x (script_typed_compile_ok d Hd) Hc)
    as (d1 & c1 & x1 & -> & Hok). cbn [mbind option_bind].
  destruct (FinalizeCompile_ok d1 c1 x1 Hok) as (d2 & c2 & -> & Ht & _). eauto.
Qed.

(** C15. A source in which every line has its operands compiles without undefined
    behaviour into a well typed script: every label, string, variable and array
    operand is in range, a label is a place in the script, and no comparison or
    jump leads before its start. It holds for every class derived from
    [ScriptDef] whose tables and commands respect the kinds, and for a script that
    is compiled into a definition that holds others already. *)
Theorem compile_typed `{!CompilerHost X} `{!CompilerHostLaws} text d x :
  script_typed d -> source_complete text d x = true ->
  exists d' x', CompileFromSource (Some text) d x = Some (d', x') /\ script_typed d'.
Proof. apply compile_typed_lemma. Qed.

(** A script with every kind of operand. *)
Definition sample_source : string :=
  Join ["set x 3"; ":top"; "if x > 0 ; count down"; "dec x"; "iarrappend A x"; "recompare";
        "else"; "print done"; "endif"; "queue_event top 500"; "wait 100"; "exec_queue"; "end"]
    (String newline EmptyString).

Lemma compile_typed_witness :
  exists d' x', @CompileFromSource unit base_host (Some sample_source) newDef tt = Some (d', x') /\
    @script_typed unit base_host d'.
Proof.
  apply (@compile_typed unit base_host base_host_laws); [apply newDef_typed|].
  vm_compute. reflexivity.
Defined.
