(* ===== verification/ScriptSafety.v ===== *)
(** * Running a script is safe

    A player of a well typed script never meets undefined behaviour: its variables
    and arrays are those of the script, its stacks, arrays and event queue are
    bounded, its place is not before the start. [player_ok] is preserved by every
    operation; [PlayerHostLaws] is what the instructions of a derived class must
    respect. *)

From S2P Require Import Prelude Text FileReader Script ScriptPlayer ScriptTypes.

(** [advance] is a [short]: beyond this length the branches of a script may not
    reach. *)
Definition small_script (d : ScriptDef) : Prop := len (instr d) <= 32765.

(** The label of an event is known, or unknown labels do not end the script. *)
Definition label_known (d : ScriptDef) (n : string) : Prop :=
  UseEventQueue d = true \/ is_Some (mLabelMap d !! n).

Definition events_ok (d : ScriptDef) : Prop :=
  forall i o, instr d !! i = Some o -> opCode o = op_code OP_QUEUEEVENT ->
    label_known d (GetStringPtr (param1 o) d).

(** The state of a player apart from its place. *)
Record player_inv (d : ScriptDef) (p : ScriptPlayer) : Prop := {
  inv_vars : length (vars p) = length (varName d);
  inv_arrays : length (intArray p) = length (mIntArray d);
  inv_array_size : Forall (fun a => len (arrayData a) <= MAX_ARRAY_DATA_SIZE) (intArray p);
  inv_varStack : len (varStack p) <= MAX_STACK_SIZE + 1;
  inv_callStack : len (callStack p) <= MAX_STACK_SIZE + 1;
  inv_returns : Forall (fun i => 0 <= i) (callStack p);
  inv_queue : len (scriptEventQueue p) <= MAX_QUEUE_SIZE;
  inv_events : Forall (fun e => label_known d (mLabel e)) (scriptEventQueue p) }.

Definition player_ok (d : ScriptDef) (p : ScriptPlayer) : Prop :=
  player_inv d p /\ 0 <= curInst p.

(** A script that can be run. *)
Record script_ok `{!CompilerHost X} (d : ScriptDef) : Prop := {
  ok_typed : script_typed d;
  ok_small : small_script d;
  ok_events : events_ok d }.

(** The state within [RunSingleInstruction], before the place is advanced. *)
Definition step_ok (d : ScriptDef) (p : ScriptPlayer) : Prop :=
  player_inv d p /\ 0 <= curInst p + advance p.

Class PlayerHostLaws (X W : Type) `{!CompilerHost X} `{!PlayerHost W} :=
  run_implementation_ok now d i o p w :
    script_ok d -> instr d !! i = Some o -> curInst p = Z.of_nat i -> advance p = 1 ->
    player_inv d p ->
    exists p' w', RunImplementationCommands now d (opCode o) (p, w) = Some (p', w') /\ step_ok d p'.

(** ** Operations *)

Lemma delete_le {A} (l : list A) i : (length (delete i l) <= length l)%nat.
Proof. revert i. induction l as [|x l IH]; intros [|i]; simpl; [lia..|]. specialize (IH i). lia. Qed.

Section Operations.
Context (d : ScriptDef).

(** A state that differs only in the place, the clock or the flags. *)
Lemma inv_same p p' :
  vars p' = vars p -> intArray p' = intArray p -> varStack p' = varStack p ->
  callStack p' = callStack p -> scriptEventQueue p' = scriptEventQueue p ->
  player_inv d p -> player_inv d p'.
Proof. intros E1 E2 E3 E4 E5 []. split; rewrite ?E1, ?E2, ?E3, ?E4, ?E5; done. Qed.

Lemma inv_set_varStack l p :
  len l <= MAX_STACK_SIZE + 1 -> player_inv d p -> player_inv d (set_varStack l p).
Proof. intros ? []. by split. Qed.

Lemma inv_set_callStack l p :
  len l <= MAX_STACK_SIZE + 1 -> Forall (fun i => 0 <= i) l ->
  player_inv d p -> player_inv d (set_callStack l p).
Proof. intros ?? []. by split. Qed.

Lemma inv_set_queue q p :
  len q <= MAX_QUEUE_SIZE -> Forall (fun e => label_known d (mLabel e)) q ->
  player_inv d p -> player_inv d (set_scriptEventQueue q p).
Proof. intros ?? []. by split. Qed.

Lemma inv_PushVarStack v p : player_inv d p -> player_inv d (PushVarStack v p).
Proof.
  intros H. unfold PushVarStack. destruct (_ <? _) eqn:E; to_prop; [done|].
  apply inv_set_varStack; [|done]. rewrite length_app. simpl. lia.
Qed.

Lemma pop_back_length l v l' : pop_back l = (v, l') -> len l' <= len l.
Proof.
  unfold pop_back. rewrite <- (length_reverse l). destruct (reverse l) as [|x r] eqn:E.
  - intros [= <- <-]. simpl. lia.
  - intros [= <- <-]. rewrite length_reverse. simpl. lia.
Qed.

Lemma pop_back_Forall (P : Z -> Prop) l v l' :
  pop_back l = (v, l') -> Forall P l -> (P 0 -> P v) /\ Forall P l'.
Proof.
  unfold pop_back. rewrite <- (Forall_reverse P l).
  destruct (reverse l) as [|x r] eqn:E.
  - intros [= <- <-] _. by split.
  - intros [= <- <-] [Hx Hr]%list.Forall_cons. split; [done|]. by apply Forall_reverse.
Qed.

Lemma inv_PopVarStack p v p' : PopVarStack p = (v, p') -> player_inv d p -> player_inv d p'.
Proof.
  unfold PopVarStack. destruct (pop_back (varStack p)) as [v1 l] eqn:E. intros [= <- <-] H.
  apply pop_back_length in E. apply inv_set_varStack; [|done]. destruct H. lia.
Qed.

Lemma PopVarStack_place p v p' :
  PopVarStack p = (v, p') -> curInst p' = curInst p /\ advance p' = advance p /\
    vars p' = vars p /\ intArray p' = intArray p.
Proof. unfold PopVarStack. destruct (pop_back (varStack p)). by intros [= <- <-]. Qed.

Lemma inv_PopCallStack p v p' :
  PopCallStack p = (v, p') -> player_inv d p -> player_inv d p' /\ 0 <= v.
Proof.
  unfold PopCallStack. destruct (pop_back (callStack p)) as [v1 l] eqn:E. intros [= <- <-] H.
  destruct (pop_back_Forall _ _ _ _ E (inv_returns _ _ H)) as [Hv Hl].
  apply pop_back_length in E. split; [|by apply Hv].
  apply inv_set_callStack; [destruct H; lia|done|done].
Qed.

Lemma inv_PushCallStack v p : 0 <= v -> player_inv d p -> player_inv d (PushCallStack v p).
Proof.
  intros Hv H. unfold PushCallStack. destruct (_ <? _) eqn:E; to_prop; [done|].
  apply inv_set_callStack; [rewrite length_app; simpl; lia| |done].
  apply Forall_app. split; [apply H|by repeat constructor].
Qed.

Lemma inv_SetVar i v p : player_inv d p -> player_inv d (SetVar i v p).
Proof.
  intros []. unfold SetVar. destruct (_ <=? _); [by split|].
  split; simpl; rewrite ?length_insert; done.
Qed.

Lemma inv_add_var i v p :
  player_inv d p -> 0 <= i < len (varName d) ->
  exists p', add_var i v p = Some p' /\ player_inv d p' /\ curInst p' = curInst p /\ advance p' = advance p.
Proof.
  intros H Hi. unfold add_var, at_index. destruct (i <? 0) eqn:E; to_prop; [lia|].
  assert (Z.to_nat i < length (vars p))%nat as [x Hx]%lookup_lt_is_Some
    by (rewrite (inv_vars _ _ H); lia).
  rewrite Hx. simpl. eexists. split; [reflexivity|]. split; [|done].
  destruct H. split; simpl; rewrite ?length_insert; done.
Qed.

Lemma inv_put_array i a p :
  len (arrayData a) <= MAX_ARRAY_DATA_SIZE -> player_inv d p -> player_inv d (put_array i a p).
Proof.
  intros Ha []. split; simpl; rewrite ?length_insert; try done.
  by apply Forall_insert.
Qed.

(** The instructions on arrays, given what they do to the array. *)
Lemma inv_with_array i f p :
  player_inv d p ->
  (forall a, len (arrayData a) <= MAX_ARRAY_DATA_SIZE ->
     player_inv d (f a p) /\ curInst (f a p) = curInst p /\ advance (f a p) = advance p) ->
  exists p', with_array i d f p = Some p' /\ player_inv d p' /\
    curInst p' = curInst p /\ advance p' = advance p.
Proof.
  intros H Hf. unfold with_array, VerifyIntArrayIndex, at_index.
  destruct ((i <? 0) || (len (mIntArray d) <=? i)) eqn:E; [by exists p|]. to_prop.
  rewrite (proj2 (Z.leb_le 0 i)), (proj2 (Z.ltb_ge i 0)) by lia.
  assert (Z.to_nat i < length (intArray p))%nat as [a Ha]%lookup_lt_is_Some
    by (rewrite (inv_arrays _ _ H); lia).
  rewrite Ha. simpl. eexists. split; [reflexivity|].
  apply Hf. by apply (Forall_lookup_1 _ _ _ _ (inv_array_size _ _ H)) in Ha.
Qed.

Lemma array_Append_size v a :
  len (arrayData a) <= MAX_ARRAY_DATA_SIZE -> len (arrayData (array_Append v a)) <= MAX_ARRAY_DATA_SIZE.
Proof.
  intros. unfold array_Append. destruct (_ <=? _) eqn:E; to_prop; [done|].
  simpl. rewrite length_app. simpl. lia.
Qed.

Lemma RemoveByIndex_size v a :
  len (arrayData a) <= MAX_ARRAY_DATA_SIZE -> len (arrayData (RemoveByIndex v a)) <= MAX_ARRAY_DATA_SIZE.
Proof.
  intros. unfold RemoveByIndex. destruct (VerifyIndex v a); [|done]. simpl.
  pose proof (delete_le (arrayData a) (Z.to_nat v)). lia.
Qed.

Lemma inv_EndExecution p : player_inv d p -> player_inv d (EndExecution p).
Proof. intros H. apply inv_set_queue; [done|done|]. by apply (inv_same p). Qed.

Lemma inv_ResetGoto now t p : player_inv d p -> player_inv d (ResetGoto now t p).
Proof. intros []. by split. Qed.

Lemma inv_Call t p : 0 <= curInst p + 1 -> player_inv d p -> player_inv d (Call t p).
Proof.
  intros Hp H. apply (inv_same (PushCallStack (curInst p + 1) p)); [done..|].
  by apply inv_PushCallStack.
Qed.

Lemma inv_QueueEvent now n delay p :
  label_known d n -> player_inv d p -> player_inv d (QueueEvent now n delay p).
Proof.
  intros Hn H. unfold QueueEvent. destruct (_ <=? _) eqn:E; to_prop; [done|].
  destruct (event_index n (scriptEventQueue p)) as [i|].
  - apply inv_set_queue; [rewrite length_alter; lia| |done].
    apply Forall_alter; [apply H|]. intros; done.
  - apply inv_set_queue; [rewrite length_app; simpl; lia| |done].
    apply Forall_app. split; [apply H|by apply Forall_singleton].
Qed.

End Operations.

(** ** Jumps *)

(** An operand that is in range. *)
Lemma at_index_bind {A B} (l : list A) v (b : B) :
  0 <= v < len l -> (_ ← at_index l v; Some b) = Some b.
Proof.
  intros Hv. unfold at_index. destruct (v <? 0) eqn:E; to_prop; [lia|].
  by assert (Z.to_nat v < length l)%nat as [x ->]%lookup_lt_is_Some by lia.
Qed.

Section Safety.
Context {X W : Type} `{!CompilerHost X} `{!PlayerHost W} `{Laws : !PlayerHostLaws X W}.
Context (d : ScriptDef) (Hd : script_ok d).

Lemma label_index_place n :
  0 <= GetLabelIndex n d ->
  exists l, at_index (label d) (GetLabelIndex n d) = Some l /\ 0 <= instrOffset l.
Proof.
  intros Hi. pose proof (ok_typed _ Hd) as Ht. unfold GetLabelIndex, at_index in *.
  destruct (mLabelMap d !! n) as [v|] eqn:E; simpl in *; [|lia].
  apply (typed_map _ Ht) in E. destruct (v <? 0) eqn:E2; to_prop; [lia|].
  assert (Z.to_nat v < length (label d))%nat as [l Hl]%lookup_lt_is_Some by lia.
  exists l. split; [done|].
  apply (Forall_lookup_1 _ _ _ _ (typed_labels _ Ht)) in Hl. simpl in Hl. lia.
Qed.

Lemma label_unknown n : GetLabelIndex n d < 0 -> mLabelMap d !! n = None.
Proof.
  intros Hi. unfold GetLabelIndex in Hi. destruct (mLabelMap d !! n) as [v|] eqn:E; [|done].
  apply (typed_map _ (ok_typed _ Hd)) in E. simpl in Hi. lia.
Qed.

(** The queue is unchanged, unless the label is unknown and ends the script. *)
Lemma PerformJumpRequest_ok now n style p :
  player_inv d p -> 0 <= curInst p + 1 ->
  exists p' b, PerformJumpRequest now d n style p = Some (p', b) /\ player_inv d p' /\
    (label_known d n -> scriptEventQueue p' = scriptEventQueue p) /\
    (0 <= curInst p -> 0 <= curInst p').
Proof.
  intros Hp Hc. unfold PerformJumpRequest. destruct (0 <=? GetLabelIndex n d) eqn:E; to_prop.
  - destruct (label_index_place n E) as (l & -> & Hl). simpl.
    assert (player_inv d (set_mExecuting true p)) as Hp' by by apply (inv_same d p).
    eexists _, _. split; [reflexivity|]. destruct style; split_and!; try done.
    + by apply inv_Call.
    + intros _. unfold Call, PushCallStack. by destruct (_ <? _).
    + by apply inv_ResetGoto.
  - destruct (UseEventQueue d) eqn:Eu; [by eexists _, _|].
    eexists _, _. split; [reflexivity|]. split_and!; [by apply inv_EndExecution| |done].
    intros [?|[? Hn]]; [congruence|]. by rewrite label_unknown in Hn.
Qed.

Lemma ExecQueue_ok now p :
  player_inv d p -> 0 <= curInst p ->
  exists p' b, ExecQueue now d p = Some (p', b) /\ player_inv d p' /\ 0 <= curInst p' /\
    (b = false -> p' = p).
Proof.
  intros Hp Hc. unfold ExecQueue.
  destruct (find_idx (due now) (scriptEventQueue p)) as [i|] eqn:E; [|by eexists _, _].
  apply find_idx_lookup in E as (e & He & _). rewrite He. simpl.
  pose proof (Forall_lookup_1 _ _ _ _ (inv_events _ _ Hp) He) as Hk. simpl in Hk.
  destruct (PerformJumpRequest_ok now (mLabel e) (queueCallStyle d) p Hp ltac:(lia))
    as (p1 & b & -> & Hp1 & Hq & Hc1). simpl. unfold erase_event. rewrite (Hq Hk).
  rewrite (proj2 (Nat.ltb_lt _ _)) by by eapply lookup_lt_Some. simpl.
  eexists _, _. split; [reflexivity|]. split_and!; [|by apply Hc1|done].
  apply inv_set_queue; [|apply Forall_delete, Hp|done].
  pose proof (delete_le (scriptEventQueue p) i). destruct Hp. lia.
Qed.

(** ** Instructions *)

Lemma operand_typed i o op k ty :
  instr d !! i = Some o -> opCode o = op_code op ->
  paramType (GetInstructionData (op_code op)) !! k = Some ty ->
  operand_ok d (len (instr d) + 1) ty (param k o).
Proof.
  intros Hi Ho Hk. destruct (typed_ops _ (ok_typed _ Hd) i o Hi) as [Ht _].
  rewrite Ho in Ht. destruct (Ht k ty Hk) as [_ H]. apply H. by intros [].
Qed.

Lemma advanced p p' :
  player_inv d p' -> curInst p' = curInst p -> advance p' = advance p ->
  0 <= curInst p -> advance p = 1 -> step_ok d p'.
Proof. intros ?????. split; [done|lia]. Qed.

Lemma jumped t p : player_inv d p -> 0 <= t -> step_ok d (jump t p).
Proof. intros Hp Ht. split; [by apply (inv_same d p)|simpl; lia]. Qed.

Lemma i16_small z : - 32768 <= z < 32768 -> i16 z = z.
Proof. intros. apply signed_id; [lia|]. unfold in_signed. lia. Qed.

Lemma SetVar_place i v p : curInst (SetVar i v p) = curInst p /\ advance (SetVar i v p) = advance p.
Proof. unfold SetVar. by destruct (_ <=? _). Qed.

Lemma PushVarStack_place v p :
  curInst (PushVarStack v p) = curInst p /\ advance (PushVarStack v p) = advance p.
Proof. unfold PushVarStack. by destruct (_ <? _). Qed.

Lemma QueueEvent_place now n delay p :
  curInst (QueueEvent now n delay p) = curInst p /\ advance (QueueEvent now n delay p) = advance p.
Proof. unfold QueueEvent. destruct (_ <=? _); [done|]. by destruct (event_index _ _). Qed.


Definition safe_result (r : option (bool * ScriptPlayer)) : Prop :=
  exists b p', r = Some (b, p') /\ step_ok d p'.

Lemma safe_some b p' : step_ok d p' -> safe_result (Some (b, p')).
Proof. by eexists _, _. Qed.

Lemma safe_bind (o : option ScriptPlayer) :
  (exists p', o = Some p' /\ step_ok d p') -> safe_result (p' ← o; Some (false, p')).
Proof. intros (p' & -> & H). by apply safe_some. Qed.

Section Instruction.
Context (now : Z) (i : nat) (o : OpData) (p : ScriptPlayer).
Context (Hi : instr d !! i = Some o) (Hc : curInst p = Z.of_nat i) (Ha : advance p = 1).
Context (Hp : player_inv d p).

Lemma stays p' :
  player_inv d p' -> curInst p' = curInst p /\ advance p' = advance p -> step_ok d p'.
Proof. intros Hp' [E1 E2]. split; [done|lia]. Qed.

Lemma popped_stays v p1 p' :
  PopVarStack p = (v, p1) -> (player_inv d p1 -> player_inv d p') ->
  curInst p' = curInst p1 /\ advance p' = advance p1 -> step_ok d p'.
Proof.
  intros E Hp' [E1 E2]. destruct (PopVarStack_place p v p1 E) as (E3 & E4 & _).
  apply stays; [apply Hp'; by eapply inv_PopVarStack|split; congruence].
Qed.

Lemma array_op op f p1 :
  player_inv d p1 -> curInst p1 = curInst p -> advance p1 = advance p ->
  (forall a, len (arrayData a) <= MAX_ARRAY_DATA_SIZE ->
     player_inv d (f a p1) /\ curInst (f a p1) = curInst p1 /\ advance (f a p1) = advance p1) ->
  safe_result (p' ← with_array op d f p1; Some (false, p')).
Proof.
  intros Hp1 E1 E2 Hf. apply safe_bind.
  destruct (inv_with_array d op f p1 Hp1 Hf) as (p' & -> & Hp' & E3 & E4).
  exists p'. split; [done|]. apply stays; [done|split; congruence].
Qed.

Lemma branch_target op v :
  opCode o = op_code op -> op = OP_GOTO \/ op = OP_RESETGOTO \/ op = OP_CALL \/ op = OP_JMP ->
  v = param1 o -> 0 <= v.
Proof.
  intros Ho Hop ->. destruct Hop as [->|[->|[->| ->]]].
  1-3: pose proof (operand_typed i o _ 0 OPT_LABEL Hi Ho eq_refl) as H; simpl in H; lia.
  destruct (typed_ops _ (ok_typed _ Hd) i o Hi) as (_ & _ & Hj). by apply Hj.
Qed.

Lemma compare_safe : opCode o = op_code OP_CMP -> 0 <= curInst p + i16 (param2 o).
Proof.
  intros Ho. destruct (typed_ops _ (ok_typed _ Hd) i o Hi) as (_ & Hcmp & _).
  specialize (Hcmp Ho). pose proof (ok_small _ Hd) as Hs. unfold small_script in Hs.
  pose proof (lookup_lt_Some _ _ _ Hi). rewrite i16_small by lia. lia.
Qed.

Lemma exec_core_ok :
  match exec_core now d o p with Some r => safe_result r | None => True end.
Proof.
  unfold exec_core. destruct (core_op (opCode o)) as [op|] eqn:Eop; [|done].
  apply core_op_inv in Eop.
  destruct op; cbv zeta; try done; destruct (PopVarStack p) as [v p1] eqn:Epop.
  - (* end *) apply safe_some, stays; [by apply inv_EndExecution|done].
  - (* goto *) apply safe_some, jumped; [done|by eapply branch_target; eauto].
  - (* reset_goto *)
    apply safe_some. split; [by apply (inv_same d (ResetGoto now (param1 o) p)), inv_ResetGoto|].
    simpl. rewrite Z.add_0_r. eapply branch_target; eauto.
  - (* print *)
    apply safe_bind. exists p. split; [|by apply stays].
    pose proof (operand_typed i o _ 0 OPT_STR Hi Eop eq_refl) as H. by apply at_index_bind.
  - (* printvar *)
    apply safe_bind. exists p. split; [|by apply stays].
    pose proof (operand_typed i o _ 0 OPT_VAR Hi Eop eq_refl) as H. by apply at_index_bind.
  - by apply safe_some, stays.
  - by apply array_op.
  - (* wait *) apply safe_some, stays; [by apply (inv_same d p)|done].
  - (* inc *)
    apply safe_bind. pose proof (operand_typed i o _ 0 OPT_VAR Hi Eop eq_refl) as H.
    destruct (inv_add_var d (param1 o) 1 p Hp H) as (p' & -> & Hp' & Hplace). exists p'.
    split; [done|]. by apply stays.
  - (* dec *)
    apply safe_bind. pose proof (operand_typed i o _ 0 OPT_VAR Hi Eop eq_refl) as H.
    destruct (inv_add_var d (param1 o) (-1) p Hp H) as (p' & -> & Hp' & Hplace). exists p'.
    split; [done|]. by apply stays.
  - by apply safe_some, stays; [apply inv_SetVar|apply SetVar_place].
  - by apply safe_some, stays; [apply inv_SetVar|apply SetVar_place].
  - by apply safe_some, stays; [apply inv_SetVar|apply SetVar_place].
  - (* call *)
    apply safe_some. split.
    + apply (inv_same d (Call (param1 o) p)); [done..|]. apply inv_Call; [lia|done].
    + simpl. rewrite Z.add_0_r. eapply branch_target; eauto.
  - (* return *)
    destruct (PopCallStack p) as [t p2] eqn:Ecall.
    destruct (inv_PopCallStack d p t p2 Ecall Hp). by apply safe_some, jumped.
  - (* iarrappend *)
    destruct (PopVarStack_place p v p1 Epop) as (? & ? & _).
    apply array_op; [by eapply inv_PopVarStack|done|done|].
    intros a Hsize. split; [|done]. apply inv_put_array; [by apply array_Append_size|].
    by eapply inv_PopVarStack.
  - (* iarrdelete *)
    destruct (PopVarStack_place p v p1 Epop) as (? & ? & _).
    apply array_op; [by eapply inv_PopVarStack|done|done|].
    intros a Hsize. split; [|done]. apply inv_put_array; [by apply RemoveByIndex_size|].
    by eapply inv_PopVarStack.
  - (* iarrvalue *)
    destruct (PopVarStack_place p v p1 Epop) as (? & ? & _).
    apply array_op; [by eapply inv_PopVarStack|done|done|].
    intros a Hsize. split; [|apply SetVar_place]. apply inv_SetVar. by eapply inv_PopVarStack.
  - (* iarrclear *)
    apply array_op; [done..|]. intros a _. split; [|done]. by apply inv_put_array.
  - (* iarrsize *)
    apply safe_bind. unfold VerifyIntArrayIndex, at_index.
    destruct ((param1 o <? 0) || (len (mIntArray d) <=? param1 o)) eqn:E.
    + eexists. split; [reflexivity|]. apply stays; [by apply inv_SetVar|apply SetVar_place].
    + to_prop. rewrite (proj2 (Z.leb_le 0 _)), (proj2 (Z.ltb_ge _ 0)) by lia.
      assert (Z.to_nat (param1 o) < length (intArray p))%nat as [a Harr]%lookup_lt_is_Some
        by (rewrite (inv_arrays _ _ Hp); lia).
      rewrite Harr. simpl. eexists. split; [reflexivity|].
      apply stays; [by apply inv_SetVar|apply SetVar_place].
  - (* queue_event *)
    apply safe_some, stays; [|apply QueueEvent_place].
    apply inv_QueueEvent; [|done]. by eapply (ok_events _ Hd).
  - (* exec_queue *)
    destruct (ExecQueue_ok now p Hp ltac:(lia)) as (p' & b & -> & Hp' & Hc' & Hsame). simpl.
    apply safe_some. destruct b; [|rewrite Hsame by done; by apply stays].
    split; [by apply (inv_same d p')|simpl; lia].
  - by apply safe_some, stays; [apply inv_PushVarStack|apply PushVarStack_place].
  - by apply safe_some, stays; [apply inv_PushVarStack|apply PushVarStack_place].
  - by apply safe_some, stays; [apply inv_PushVarStack|apply PushVarStack_place].
  - (* pop *)
    apply safe_some. eapply popped_stays; [exact Epop|apply inv_SetVar|apply SetVar_place].
  - (* cmp *)
    destruct (PopVarStack p1) as [v2 p2] eqn:Epop2. apply safe_some.
    destruct (PopVarStack_place p v p1 Epop) as (E1 & E2 & _).
    destruct (PopVarStack_place p1 v2 p2 Epop2) as (E3 & E4 & _).
    assert (player_inv d p2) as Hp2 by (eapply inv_PopVarStack; [done|by eapply inv_PopVarStack]).
    destruct (compare_values _ v v2); [apply stays; [done|split; congruence]|].
    split; [by apply (inv_same d p2)|]. simpl. rewrite E3, E1. by apply compare_safe.
  - (* jmp *) apply safe_some, jumped; [done|by eapply branch_target; eauto].
Qed.
End Instruction.

(** ** Steps and runs *)

Lemma set_advance_inv v p : player_inv d p -> player_inv d (set_advance v p).
Proof. by apply inv_same. Qed.

Lemma RunSingleInstruction_ok now p w :
  player_ok d p ->
  exists b p' w', RunSingleInstruction now d (p, w) = Some (b, (p', w')) /\ player_ok d p'.
Proof.
  intros [Hp Hc]. unfold RunSingleInstruction.
  destruct (mExecuting p); simpl; [|by eexists _, _, _].
  destruct (len (instr d) <=? curInst p) eqn:E; to_prop.
  { eexists _, _, _. split; [reflexivity|]. split; [by apply (inv_same d p)|done]. }
  destruct (now <? nextFire p); [by eexists _, _, _|].
  unfold at_index. destruct (curInst p <? 0) eqn:E2; to_prop; [lia|].
  assert (Z.to_nat (curInst p) < length (instr d))%nat as [o Ho]%lookup_lt_is_Some by lia.
  rewrite Ho. simpl. set (p0 := set_advance 1 p).
  assert (player_inv d p0) as Hp0 by by apply set_advance_inv.
  assert (curInst p0 = Z.of_nat (Z.to_nat (curInst p))) as Hc0 by (simpl; lia).
  assert (exists b p1 w1, match exec_core now d o p0 with
      | Some r => '(b, p1) ← r; Some (b, (p1, w))
      | None => st1 ← RunImplementationCommands now d (opCode o) (p0, w); Some (false, st1)
      end = Some (b, (p1, w1)) /\ step_ok d p1) as (b & p1 & w1 & -> & Hs & Hplace).
  { pose proof (exec_core_ok now _ o p0 Ho Hc0 eq_refl Hp0) as Hcore.
    destruct (exec_core now d o p0) as [r|].
    - destruct Hcore as (b & p1 & -> & Hs). by eexists _, _, _.
    - destruct (run_implementation_ok now d _ o p0 w Hd Ho Hc0 eq_refl Hp0) as (p1 & w1 & -> & Hs).
      by eexists _, _, _. }
  simpl. eexists _, _, _. split; [reflexivity|]. split; [|done]. by apply (inv_same d p1).
Qed.

Lemma at_speed_ok fuel : forall now maxCount count p w,
  player_ok d p ->
  match at_speed fuel now d maxCount count (p, w) with
  | Done (p', _) => player_ok d p' | Undefined => False | OutOfFuel => True end.
Proof.
  induction fuel as [|fuel IH]; intros now maxCount count p w Hp; [done|].
  cbn [at_speed fst]. destruct (running now p); [|done].
  destruct (RunSingleInstruction_ok now p w Hp) as (b & p' & w' & -> & Hp').
  destruct b; [done|]. destruct (maxCount <=? count + 1); [done|]. by apply IH.
Qed.

Lemma RunUntilWait_ok fuel : forall now p w,
  player_ok d p ->
  match RunUntilWait fuel now d (p, w) with
  | Done (p', _) => player_ok d p' | Undefined => False | OutOfFuel => True end.
Proof.
  induction fuel as [|fuel IH]; intros now p w Hp; [done|].
  cbn [RunUntilWait fst]. destruct (running now p); [|done].
  destruct (RunSingleInstruction_ok now p w Hp) as (b & p' & w' & -> & Hp').
  destruct b; [done|]. by apply IH.
Qed.

Lemma RunScript_ok fuel : forall now p w,
  player_ok d p ->
  match RunScript fuel now d (p, w) with
  | Done (p', _) => player_ok d p' | Undefined => False | OutOfFuel => True end.
Proof.
  induction fuel as [|fuel IH]; intros now p w Hp; [done|].
  cbn [RunScript fst]. destruct (mExecuting p && mActive p); [|done].
  destruct (RunSingleInstruction_ok now p w Hp) as (b & p' & w' & -> & Hp'). by apply IH.
Qed.

Lemma Initialize_ok p : player_ok d (Initialize d p).
Proof.
  split; [|done]. split; simpl; rewrite ?length_replicate, ?length_fmap; try done.
  apply list.Forall_fmap. by apply list.Forall_true.
Qed.

Lemma JumpToLabel_ok now n p :
  player_ok d p -> exists p' b, JumpToLabel now d n p = Some (p', b) /\ player_ok d p'.
Proof.
  intros [Hp Hc]. unfold JumpToLabel. destruct (UseEventQueue d) eqn:E.
  - eexists _, _. split; [reflexivity|]. split.
    + apply inv_QueueEvent; [by left|done].
    + by rewrite (proj1 (QueueEvent_place now n 0 p)).
  - destruct (PerformJumpRequest_ok now n CALLSTYLE_GOTO p Hp ltac:(lia)) as (p' & b & -> & Hp' & _ & Hc').
    eexists _, _. split; [reflexivity|]. split; [done|by apply Hc'].
Qed.

End Safety.

(** ** Reachable players

    What the server does with a player, in any order and at any times: [Initialize]
    and then single instructions, runs of each kind, jumps, resets and the end. *)
Section Reachable.
Context {W : Type} `{!PlayerHost W}.

Inductive player_step (d : ScriptDef) : ScriptPlayer * W -> ScriptPlayer * W -> Prop :=
  | step_single now st b st' :
      RunSingleInstruction now d st = Some (b, st') -> player_step d st st'
  | step_at_speed fuel now k st st' :
      RunAtSpeed fuel now d k st = Done st' -> player_step d st st'
  | step_until_wait fuel now st st' :
      RunUntilWait fuel now d st = Done st' -> player_step d st st'
  | step_script fuel now st st' :
      RunScript fuel now d st = Done st' -> player_step d st st'
  | step_jump now n p w p' b :
      JumpToLabel now d n p = Some (p', b) -> player_step d (p, w) (p', w)
  | step_reset p w : player_step d (p, w) (FullReset (Some d) p, w)
  | step_clear p w : player_step d (p, w) (ClearQueue p, w)
  | step_end p w : player_step d (p, w) (EndExecution p, w)
  | step_world p w w' : player_step d (p, w) (p, w').

Definition reachable (d : ScriptDef) (st : ScriptPlayer * W) : Prop :=
  exists p w, rtc (player_step d) (Initialize d p, w) st.

(** Nothing that can be done with a player is undefined. *)
Definition safe_player (d : ScriptDef) (st : ScriptPlayer * W) : Prop :=
  player_ok d (fst st) /\
  (forall now, RunSingleInstruction now d st <> None) /\
  (forall now n, JumpToLabel now d n (fst st) <> None) /\
  (forall fuel now k, RunAtSpeed fuel now d k st <> Undefined) /\
  (forall fuel now, RunUntilWait fuel now d st <> Undefined) /\
  (forall fuel now, RunScript fuel now d st <> Undefined).

End Reachable.

(** [events_ok] as a test. *)
Definition label_knownb (d : ScriptDef) (n : string) : bool :=
  UseEventQueue d || bool_decide (is_Some (mLabelMap d !! n)).

Definition events_okb (d : ScriptDef) : bool :=
  forallb (fun o => negb (opCode o =? op_code OP_QUEUEEVENT) ||
                    label_knownb d (GetStringPtr (param1 o) d)) (instr d).

Definition small_scriptb (d : ScriptDef) : bool := len (instr d) <=? 32765.

Lemma events_okb_spec d : events_okb d = true -> events_ok d.
Proof.
  unfold events_okb. rewrite forallb_forall. intros H i o Hi Ho.
  specialize (H o (proj1 (list_elem_of_In _ _) (list_elem_of_lookup_2 _ _ _ Hi))).
  rewrite Ho, Z.eqb_refl in H. simpl in H. unfold label_knownb in H. to_prop.
  destruct H as [H|H]; [by left|right]. by apply bool_decide_eq_true in H.
Qed.

Section Reachable_ok.
Context {X W : Type} `{!CompilerHost X} `{!PlayerHost W} `{Laws : !PlayerHostLaws X W}.

Lemma player_step_ok d (st st' : ScriptPlayer * W) :
  script_ok d -> player_step d st st' -> player_ok d (fst st) -> player_ok d (fst st').
Proof.
  intros Hd Hs Hp. destruct Hs as
    [now [p w] b st' E|fuel now k [p w] st' E|fuel now [p w] st' E|fuel now [p w] st' E
    |now n p w p' b E|p w|p w|p w|p w w']; cbn [fst] in *.
  - destruct (RunSingleInstruction_ok d Hd now p w Hp) as (b' & p' & w' & E' & Hp').
    by simplify_eq.
  - pose proof (at_speed_ok d Hd fuel now (speed_limit d k) 0 p w Hp) as H.
    unfold RunAtSpeed in E. rewrite E in H. by destruct st'.
  - pose proof (RunUntilWait_ok d Hd fuel now p w Hp) as H. rewrite E in H. by destruct st'.
  - pose proof (RunScript_ok d Hd fuel now p w Hp) as H. rewrite E in H. by destruct st'.
  - destruct (JumpToLabel_ok d Hd now n p Hp) as (p2 & b2 & E2 & Hp2). by simplify_eq.
  - apply Initialize_ok.
  - destruct Hp. split; [|done]. by apply inv_set_queue.
  - destruct Hp. split; [|done]. by apply inv_EndExecution.
  - done.
Qed.

Lemma reachable_ok d (st : ScriptPlayer * W) : script_ok d -> reachable d st -> player_ok d (fst st).
Proof.
  intros Hd (p & w & Hr). revert Hr. generalize (Initialize_ok d p).
  change (Initialize d p) with (fst (Initialize d p, w)) at 1.
  generalize (Initialize d p, w). intros st0 H0 Hr.
  induction Hr as [st0|st0 st1 st2 Hs Hr IH]; [done|].
  apply IH. by eapply player_step_ok.
Qed.

Lemma player_ok_safe d (st : ScriptPlayer * W) : script_ok d -> player_ok d (fst st) -> safe_player d st.
Proof.
  intros Hd Hp. destruct st as [p w]. simpl in Hp. split_and!; [done|intros..].
  - destruct (RunSingleInstruction_ok d Hd now p w Hp) as (b' & p' & w' & -> & Hp'). done.
  - simpl. by destruct (JumpToLabel_ok d Hd now n p Hp) as (p2 & b2 & -> & Hp2).
  - intros E. pose proof (at_speed_ok d Hd fuel now (speed_limit d k) 0 p w Hp) as H.
    unfold RunAtSpeed in E. by rewrite E in H.
  - intros E. pose proof (RunUntilWait_ok d Hd fuel now p w Hp) as H. by rewrite E in H.
  - intros E. pose proof (RunScript_ok d Hd fuel now p w Hp) as H. by rewrite E in H.
Qed.

Lemma compiled_script_ok text x0 d x `{!CompilerHostLaws} :
  source_complete text newDef x0 = true ->
  CompileFromSource (Some text) newDef x0 = Some (d, x) ->
  small_scriptb d = true -> events_okb d = true -> script_ok d.
Proof.
  intros Hc Hd Hs He.
  destruct (compile_typed_lemma text newDef x0 newDef_typed Hc) as (d' & x' & E & Ht).
  assert (d' = d) as -> by congruence.
  split; [done|by apply Z.leb_le|by apply events_okb_spec].
Qed.

End Reachable_ok.

#[export] Instance base_player_laws W :
  @PlayerHostLaws unit W base_host (base_player_host W).
Proof.
  intros now d i o p w Hd Hi Hc Ha Hp. exists p, w. split; [done|]. split; [done|lia].
Qed.

(** The definition compiled from a source without derived members. *)
Definition compiled (text : string) : ScriptDef :=
  match @CompileFromSource unit base_host (Some text) newDef tt with
  | Some (d, _) => d
  | None => newDef
  end.

