(* ===== verification/ScriptRun.v ===== *)
(** * Runs of a script: their end, waits and events

    How long the loops of [ScriptPlayer] run, what a [wait] does, and that
    [exec_queue] gets every due event done. *)

From S2P Require Import Prelude Text FileReader Script ScriptPlayer ScriptTypes ScriptSafety.

(** ** Definitions *)

(** Where a label is. *)
Definition place_of (d : ScriptDef) (n : string) : Z :=
  default 0 (instrOffset <$> at_index (label d) (GetLabelIndex n d)).

(** [ExecQueue] again and again: where each call went. *)
Fixpoint exec_queue_times (n : nat) (now : Z) (d : ScriptDef) (p : ScriptPlayer)
  : option (list Z * ScriptPlayer) :=
  match n with
  | O => Some ([], p)
  | S n' =>
      '(p1, jumped) ← ExecQueue now d p;
      '(places, p2) ← exec_queue_times n' now d p1;
      Some ((if (jumped : bool) then [curInst p1] else []) ++ places, p2)
  end.

Definition labels_known (d : ScriptDef) (q : list ScriptEvent) : Prop :=
  Forall (fun e => is_Some (mLabelMap d !! mLabel e)) q.

(** ** Bounded runs *)

Section Runs.
Context {W : Type} `{!PlayerHost W}.

Lemma at_speed_ends fuel : forall now d maxCount count (st : ScriptPlayer * W),
  (1 <= fuel)%nat -> maxCount <= count + Z.of_nat fuel ->
  at_speed fuel now d maxCount count st <> OutOfFuel.
Proof.
  induction fuel as [|fuel IH]; intros now d maxCount count st Hf Hc; [lia|].
  cbn [at_speed]. destruct (running now (fst st)); [|done].
  destruct (RunSingleInstruction now d st) as [[[] st']|]; [done| |done].
  destruct (maxCount <=? count + 1) eqn:E; to_prop; [done|].
  apply IH; lia.
Qed.

Lemma at_speed_more fuel : forall fuel' now d maxCount count (st : ScriptPlayer * W),
  (fuel <= fuel')%nat -> at_speed fuel now d maxCount count st <> OutOfFuel ->
  at_speed fuel' now d maxCount count st = at_speed fuel now d maxCount count st.
Proof.
  induction fuel as [|fuel IH]; intros [|fuel'] now d maxCount count st Hf Hn; try done; [lia|].
  cbn [at_speed] in *. destruct (running now (fst st)); [|done].
  destruct (RunSingleInstruction now d st) as [[[] st']|]; [done| |done].
  destruct (maxCount <=? count + 1); [done|]. apply IH; [lia|done].
Qed.

(** C27. [RunAtSpeed] always comes back, whatever the script: it executes at most
    as many instructions as the greater of its argument and the speed of the
    script, and at least one if it may run at all. *)
Theorem RunAtSpeed_terminates fuel now d k (st : ScriptPlayer * W) :
  (Z.to_nat (Z.max 1 (Z.max k (scriptSpeed d))) <= fuel)%nat ->
  RunAtSpeed fuel now d k st <> OutOfFuel /\
  RunAtSpeed fuel now d k st = RunAtSpeed (Z.to_nat (Z.max 1 (Z.max k (scriptSpeed d)))) now d k st.
Proof.
  intros Hf. unfold RunAtSpeed.
  assert (speed_limit d k = Z.max k (scriptSpeed d)) as ->.
  { unfold speed_limit. destruct (k <? scriptSpeed d) eqn:E; to_prop; lia. }
  split; [apply at_speed_ends; lia|].
  apply at_speed_more; [done|]. apply at_speed_ends; lia.
Qed.

(** ** A state in which an instruction is executed *)

Definition ready (now : Z) (d : ScriptDef) (p : ScriptPlayer) (o : OpData) : Prop :=
  mExecuting p = true /\ mActive p = true /\ nextFire p <= now /\ 0 <= curInst p /\
  instr d !! Z.to_nat (curInst p) = Some o.

Lemma ready_step now d p w o :
  ready now d p o -> RunSingleInstruction now d (p, w) = exec_instruction now d o (p, w).
Proof.
  intros (He & _ & Hf & Hc & Ho). unfold RunSingleInstruction. rewrite He. simpl.
  pose proof (lookup_lt_Some _ _ _ Ho).
  rewrite (proj2 (Z.leb_gt _ _)), (proj2 (Z.ltb_ge now _)) by lia.
  unfold at_index. rewrite (proj2 (Z.ltb_ge _ 0)) by lia. by rewrite Ho.
Qed.

Lemma ready_running now d p o : ready now d p o -> running now p = true.
Proof.
  intros (He & Ha & Hf & _). unfold running. rewrite He, Ha. simpl. by apply Z.leb_le.
Qed.

(** The state after a [wait]. *)
Definition waiting (now : Z) (o : OpData) (p : ScriptPlayer) : ScriptPlayer :=
  set_curInst (curInst p + 1) (set_nextFire (u64 (now + param1 o)) (set_advance 1 p)).

Lemma wait_step now d p w o :
  ready now d p o -> opCode o = op_code OP_WAIT ->
  RunSingleInstruction now d (p, w) = Some (true, (waiting now o p, w)).
Proof.
  intros Hr Ho. rewrite (ready_step now d p w o Hr). unfold exec_instruction, exec_core.
  by rewrite Ho, core_op_code.
Qed.

(** [wait ms] stops the script until [ms] milliseconds have passed: before, no
    way of running it does anything; from then on the next instruction is
    executed. [IsWaiting] says the opposite of its name: it is false while the
    script waits and true when it is over. *)
Theorem wait_resumes now d p w o o' t fuel k :
  ready now d p o -> opCode o = op_code OP_WAIT -> 0 <= now + param1 o < 2 ^ 64 ->
  instr d !! Z.to_nat (curInst p + 1) = Some o' ->
  exists p', RunSingleInstruction now d (p, w) = Some (true, (p', w)) /\
    curInst p' = curInst p + 1 /\
    (t < now + param1 o ->
       RunSingleInstruction t d (p', w) = Some (true, (p', w)) /\
       RunAtSpeed (S fuel) t d k (p', w) = Done (p', w) /\
       RunUntilWait (S fuel) t d (p', w) = Done (p', w) /\ IsWaiting t p' = false) /\
    (now + param1 o <= t ->
       RunSingleInstruction t d (p', w) = exec_instruction t d o' (p', w) /\
       running t p' = true /\ (now + param1 o < t -> IsWaiting t p' = true)).
Proof.
  intros Hr Ho Hrange Ho'. exists (waiting now o p).
  rewrite (wait_step now d p w o Hr Ho). split; [done|]. split; [done|].
  destruct Hr as (He & Ha & _ & Hc & _).
  assert (nextFire (waiting now o p) = now + param1 o) as Hfire by (simpl; by apply unsigned_id).
  split; intros Ht.
  - assert (running t (waiting now o p) = false) as Hrun.
    { unfold running. rewrite Hfire, (proj2 (Z.leb_gt _ _)) by lia. by rewrite andb_false_r. }
    split_and!.
    + unfold RunSingleInstruction. rewrite Hfire. cbn [mExecuting waiting set_curInst set_nextFire set_advance curInst].
      rewrite He. simpl. pose proof (lookup_lt_Some _ _ _ Ho').
      by rewrite (proj2 (Z.leb_gt _ _)), (proj2 (Z.ltb_lt t _)) by lia.
    + unfold RunAtSpeed. cbn [at_speed fst]. by rewrite Hrun.
    + cbn [RunUntilWait fst]. by rewrite Hrun.
    + unfold IsWaiting. rewrite Hfire. by apply Z.ltb_ge; lia.
  - assert (ready t d (waiting now o p) o') as Hr'.
    { split_and!; [done|done|lia|simpl; lia|done]. }
    split_and!.
    + by apply ready_step.
    + by eapply ready_running.
    + intros Hlt. unfold IsWaiting. rewrite Hfire. by apply Z.ltb_lt.
Qed.

(** ** Runs that never end *)

Lemma RunScript_stuck fuel now d (st : ScriptPlayer * W) :
  mExecuting (fst st) && mActive (fst st) = true ->
  RunSingleInstruction now d st = Some (true, st) -> RunScript fuel now d st = OutOfFuel.
Proof.
  intros Hr Hs. induction fuel as [|fuel IH]; [done|]. cbn [RunScript]. by rewrite Hr, Hs.
Qed.

(** [RunScript] ignores what [RunSingleInstruction] returns: a script with a
    [wait] that is not its last instruction keeps it in its loop for ever, since
    the server time does not move while it runs. [RunUntilWait] never returns from
    a script that jumps to itself. *)
Theorem unbounded_runs_hang now d p w o :
  ready now d p o ->
  (opCode o = op_code OP_WAIT -> 0 < param1 o -> now + param1 o < 2 ^ 64 -> 0 <= now ->
     is_Some (instr d !! Z.to_nat (curInst p + 1)) ->
     forall fuel, RunScript fuel now d (p, w) = OutOfFuel) /\
  (opCode o = op_code OP_GOTO -> param1 o = curInst p ->
     forall fuel, RunUntilWait fuel now d (p, w) = OutOfFuel).
Proof.
  intros Hr. split.
  - intros Ho Hms Hlim Hnow [o' Ho'] [|fuel]; [done|]. cbn [RunScript fst].
    destruct (Hr) as (He & Ha & _ & Hc & _). rewrite He, Ha. cbn [andb].
    rewrite (wait_step now d p w o Hr Ho). apply RunScript_stuck; [by simpl; rewrite He, Ha|].
    unfold RunSingleInstruction. cbn [waiting set_curInst set_nextFire set_advance mExecuting curInst nextFire].
    rewrite He, unsigned_id by (split; lia). simpl. pose proof (lookup_lt_Some _ _ _ Ho').
    by rewrite (proj2 (Z.leb_gt _ _)), (proj2 (Z.ltb_lt now _)) by lia.
  - intros Ho Hself fuel. revert p Hr Hself.
    induction fuel as [|fuel IH]; intros p Hr Hself; [done|]. cbn [RunUntilWait fst].
    rewrite (ready_running now d p o Hr), (ready_step now d p w o Hr).
    unfold exec_instruction, exec_core. rewrite Ho, core_op_code. cbn [mbind option_bind].
    apply IH; [|simpl; lia].
    destruct Hr as (He & Ha & Hf & Hc & Hi).
    split_and!; [done|done|done|simpl; lia|]. simpl. by rewrite Hself, Z.add_0_r.
Qed.

End Runs.

(** ** The event queue *)

Section Queue.
Context `{!CompilerHost X} (d : ScriptDef) (Hd : script_ok d).

Lemma find_idx_filter {A} (f : A -> bool) l i x :
  find_idx f l = Some i -> l !! i = Some x ->
  List.filter f l = x :: List.filter f (delete i l) /\
  List.filter (fun y => negb (f y)) (delete i l) = List.filter (fun y => negb (f y)) l.
Proof.
  revert i. induction l as [|y l IH]; intros i; simpl; [done|].
  destruct (f y) eqn:E.
  - intros [= <-] [= ->]. done.
  - destruct (find_idx f l) as [j|] eqn:Ej; [|done]. intros [= <-] Hx. simpl in *.
    destruct (IH j eq_refl Hx) as [-> H2]. rewrite E. simpl. by rewrite H2.
Qed.

Lemma find_idx_filter_nil {A} (f : A -> bool) l :
  find_idx f l = None -> List.filter f l = [] /\ List.filter (fun y => negb (f y)) l = l.
Proof.
  rewrite find_idx_None. induction 1 as [|x l Hx _ IH]; [done|]. simpl. rewrite Hx. simpl.
  destruct IH as [-> ->]. done.
Qed.

Lemma ExecQueue_due now p i e :
  labels_known d (scriptEventQueue p) ->
  find_idx (due now) (scriptEventQueue p) = Some i -> scriptEventQueue p !! i = Some e ->
  exists p', ExecQueue now d p = Some (p', true) /\ curInst p' = place_of d (mLabel e) /\
    scriptEventQueue p' = delete i (scriptEventQueue p).
Proof.
  intros Hk Hi He. unfold ExecQueue. rewrite Hi, He. simpl.
  pose proof (Forall_lookup_1 _ _ _ _ Hk He) as [v Hv]. simpl in Hv.
  assert (0 <= GetLabelIndex (mLabel e) d) as Hl.
  { unfold GetLabelIndex. rewrite Hv. simpl.
    by apply (typed_map _ (ok_typed _ Hd)) in Hv as [? _]. }
  unfold PerformJumpRequest. rewrite (proj2 (Z.leb_le 0 _)) by done.
  destruct (label_index_place d Hd _ Hl) as (l & El & _). unfold place_of. rewrite El. simpl.
  pose proof (lookup_lt_Some _ _ _ He) as Hlt.
  unfold erase_event. destruct (queueCallStyle d).
  - assert (scriptEventQueue (Call (instrOffset l) (set_mExecuting true p)) = scriptEventQueue p) as ->
      by (unfold Call, PushCallStack; by destruct (_ <? _)).
    rewrite (proj2 (Nat.ltb_lt _ _)) by done. simpl. by eexists.
  - simpl. rewrite (proj2 (Nat.ltb_lt _ _)) by done. simpl. by eexists.
Qed.

Lemma exec_queue_drains_lemma now n : forall p,
  labels_known d (scriptEventQueue p) ->
  length (List.filter (due now) (scriptEventQueue p)) = n ->
  exists p', exec_queue_times n now d p =
      Some (place_of d <$> (mLabel <$> List.filter (due now) (scriptEventQueue p)), p') /\
    scriptEventQueue p' = List.filter (fun e => negb (due now e)) (scriptEventQueue p).
Proof.
  induction n as [|n IH]; intros p Hk Hn.
  - apply nil_length_inv in Hn. rewrite Hn. exists p. split; [done|].
    destruct (find_idx (due now) (scriptEventQueue p)) as [i|] eqn:E.
    + destruct (find_idx_lookup _ _ _ E) as (e & He & _).
      destruct (find_idx_filter _ _ _ _ E He) as [Hf _]. congruence.
    + symmetry. by apply find_idx_filter_nil.
  - destruct (find_idx (due now) (scriptEventQueue p)) as [i|] eqn:E.
    2: { apply find_idx_filter_nil in E as [E _]. by rewrite E in Hn. }
    destruct (find_idx_lookup _ _ _ E) as (e & He & _).
    destruct (find_idx_filter _ _ _ _ E He) as [Hf Hr].
    destruct (ExecQueue_due now p i e Hk E He) as (p1 & E1 & Hc & Hq).
    destruct (IH p1) as (p2 & E2 & Hq2).
    + rewrite Hq. by apply Forall_delete.
    + rewrite Hq. rewrite Hf in Hn. by injection Hn.
    + exists p2. cbn [exec_queue_times]. rewrite E1. cbn [mbind option_bind]. rewrite E2. simpl.
      rewrite Hf, Hq in *. simpl. by rewrite Hc, Hq2, Hr.
Qed.
End Queue.


(** An event whose label does not exist is undefined behaviour when it is
    executed, unless the script queues its jumps: the failed jump ends the script
    and clears the queue, and [ExecQueue] then erases from the empty queue. *)
Theorem ExecQueue_unknown_label now d p i e :
  find_idx (due now) (scriptEventQueue p) = Some i -> scriptEventQueue p !! i = Some e ->
  mLabelMap d !! mLabel e = None -> UseEventQueue d = false ->
  ExecQueue now d p = None.
Proof.
  intros Hi He Hl Hu. unfold ExecQueue. rewrite Hi, He. simpl.
  unfold PerformJumpRequest, GetLabelIndex. rewrite Hl, Hu. simpl.
  unfold erase_event. simpl. done.
Qed.

(** ** Witnesses *)

#[local] Existing Instance base_player_host.

Definition lines_text (l : list string) : string := Join l (String newline EmptyString).

Definition wait_script : ScriptDef := compiled (lines_text ["wait 100"; "end"]).
Definition loop_script : ScriptDef := compiled (lines_text [":top"; "goto top"]).
Definition event_source : string :=
  lines_text ["queue_event one 50"; "queue_event two 0"; ":one"; "exec_queue"; ":two"; "end"].
Definition bad_event_script : ScriptDef := compiled (lines_text ["queue_event gone 0"; "exec_queue"]).

Lemma RunAtSpeed_terminates_witness :
  RunAtSpeed 25 0 loop_script 25 (Initialize loop_script newPlayer, tt) <> OutOfFuel /\
  RunAtSpeed 25 0 loop_script 25 (Initialize loop_script newPlayer, tt) =
  RunAtSpeed 25 0 loop_script 25 (Initialize loop_script newPlayer, tt).
Proof. apply (RunAtSpeed_terminates 25 0 loop_script 25). vm_compute. lia. Defined.

Lemma wait_ready : ready 7 wait_script (Initialize wait_script newPlayer) (mkOp (op_code OP_WAIT) 100 0 0).
Proof. by vm_compute. Qed.

Lemma wait_resumes_witness :
  exists p', RunSingleInstruction 7 wait_script (Initialize wait_script newPlayer, tt) = Some (true, (p', tt)) /\
    curInst p' = 1 /\
    (50 < 107 -> RunSingleInstruction 50 wait_script (p', tt) = Some (true, (p', tt)) /\
       RunAtSpeed 5 50 wait_script 3 (p', tt) = Done (p', tt) /\
       RunUntilWait 5 50 wait_script (p', tt) = Done (p', tt) /\ IsWaiting 50 p' = false) /\
    (107 <= 50 -> RunSingleInstruction 50 wait_script (p', tt) =
         exec_instruction 50 wait_script (mkOp (op_code OP_END) 0 0 0) (p', tt) /\
       running 50 p' = true /\ (107 < 50 -> IsWaiting 50 p' = true)).
Proof.
  apply (wait_resumes 7 wait_script (Initialize wait_script newPlayer) tt
    (mkOp (op_code OP_WAIT) 100 0 0) (mkOp (op_code OP_END) 0 0 0) 50 4 3).
  - apply wait_ready.
  - reflexivity.
  - cbn [param1]. lia.
  - vm_compute. reflexivity.
Defined.

Lemma unbounded_runs_hang_witness :
  (forall fuel, RunScript fuel 7 wait_script (Initialize wait_script newPlayer, tt) = OutOfFuel) /\
  (forall fuel, RunUntilWait fuel 7 loop_script (Initialize loop_script newPlayer, tt) = OutOfFuel).
Proof.
  split.
  - apply (unbounded_runs_hang 7 wait_script (Initialize wait_script newPlayer) tt
      (mkOp (op_code OP_WAIT) 100 0 0)).
    + apply wait_ready.
    + reflexivity.
    + done.
    + cbn [param1]. lia.
    + lia.
    + by eexists.
  - apply (unbounded_runs_hang 7 loop_script (Initialize loop_script newPlayer) tt
      (mkOp (op_code OP_GOTO) 0 0 0)); [by vm_compute|reflexivity|reflexivity].
Defined.

(** The two events are queued, the second is due at once. *)
Definition queued_player : ScriptPlayer :=
  QueueEvent 10 "two" 0 (QueueEvent 10 "one" 50 (Initialize (compiled event_source) newPlayer)).


Lemma ExecQueue_unknown_label_witness :
  ExecQueue 10 bad_event_script (QueueEvent 10 "gone" 0 (Initialize bad_event_script newPlayer)) = None.
Proof.
  apply (ExecQueue_unknown_label 10 _ _ 0 (mkEvent "gone" 10)); vm_compute; reflexivity.
Defined.
