(* ===== verification/ScriptText.v ===== *)
(** * The text of a script: tokens and lines

    [Tokenize] finds the words and quoted phrases a line was made of, and the line
    reader the lines a file was made of. *)

From S2P Require Import Prelude Text FileReader Script.

(** ** Definitions *)

(** A word, or a phrase in quotation marks. *)
Inductive Token := Word (w : string) | Phrase (w : string).

Definition token_text (t : Token) : string := match t with Word w | Phrase w => w end.

Definition print_token (t : Token) : string :=
  match t with
  | Word w => w
  | Phrase w => String quotation (w +:+ String quotation EmptyString)
  end.

Definition phrases (l : list Token) : list string :=
  omap (fun t => match t with Phrase w => Some w | Word _ => None end) l.

Definition word_char (c : Ascii.ascii) : bool := negb (is_blank c) && negb (Ascii.eqb c quotation).
Definition phrase_char (c : Ascii.ascii) : bool := negb (Ascii.eqb c quotation).

Definition token_okb (t : Token) : bool :=
  match t with
  | Word w => negb (String.eqb w EmptyString) && all_chars word_char w
  | Phrase w => all_chars phrase_char w
  end.

Definition one_space : string := String space EmptyString.
Definition one_newline : string := String newline EmptyString.

(** A line that the reader delivers as it is: short enough for its buffer, without
    newlines, comments, zero bytes and blanks at the end. *)
Definition line_char (c : Ascii.ascii) : bool :=
  negb (is_newline c) && negb (Ascii.eqb c semicolon) && negb (Ascii.eqb c (chr 0)).

Definition line_okb (l : string) : bool :=
  all_chars line_char l && (String.length l <? BUFFERSIZE - 1)%nat &&
  String.eqb (strip_end is_blank l) l.

(** ** Tokens *)

Lemma substring_app pre w post :
  String.substring (String.length pre) (String.length w) (pre +:+ (w +:+ post)) = w.
Proof.
  induction pre as [|c pre IH].
  - change (String.substring 0 (String.length w) (w +:+ post) = w).
    induction w as [|c w IHw]; [by destruct post|].
    change (String c (String.substring 0 (String.length w) (w +:+ post)) = String c w).
    by rewrite IHw.
  - exact IH.
Qed.

Section Scan.
Context (src : string).

(** Characters of a word, or of a phrase, do not change the state. *)
Lemma scan_word w : forall i rest start dest quoted,
  0 <= start -> all_chars word_char w = true ->
  scan_from src i (w +:+ rest) (start, false, dest, quoted) =
  scan_from src (i + Z.of_nat (String.length w)) rest (start, false, dest, quoted).
Proof.
  induction w as [|c w IH]; intros i rest start dest quoted Hs Hw.
  - cbn. by rewrite Z.add_0_r.
  - cbn [all_chars] in Hw. apply andb_true_iff in Hw as [Hc Hw].
    unfold word_char in Hc. apply andb_true_iff in Hc as [Hb Hq].
    apply negb_true_iff in Hb, Hq.
    change (String c w +:+ rest) with (String c (w +:+ rest)). cbn [scan_from scan_char scan_limits].
    rewrite Hb, Hq, (proj2 (Z.eqb_neq start (-1))) by lia. cbv beta iota.
    change (-1 =? -1) with true. cbv beta iota. rewrite IH by done. f_equal. cbn [String.length]. lia.
Qed.

Lemma scan_phrase w : forall i rest start dest quoted,
  0 <= start -> all_chars phrase_char w = true ->
  scan_from src i (w +:+ rest) (start, true, dest, quoted) =
  scan_from src (i + Z.of_nat (String.length w)) rest (start, true, dest, quoted).
Proof.
  induction w as [|c w IH]; intros i rest start dest quoted Hs Hw.
  - cbn. by rewrite Z.add_0_r.
  - cbn [all_chars] in Hw. apply andb_true_iff in Hw as [Hq Hw].
    unfold phrase_char in Hq. apply negb_true_iff in Hq.
    change (String c w +:+ rest) with (String c (w +:+ rest)). cbn [scan_from scan_char scan_limits].
    rewrite Hq, (proj2 (Z.eqb_neq start (-1))) by lia. cbn [negb andb].
    destruct (is_blank c); change (-1 =? -1) with true; cbv beta iota;
      rewrite IH by done; f_equal; cbn [String.length]; lia.
Qed.

Lemma word_char_start c : word_char c = true -> is_blank c = false /\ Ascii.eqb c quotation = false.
Proof.
  unfold word_char. intros [H1 H2]%andb_true_iff. by apply negb_true_iff in H1, H2.
Qed.

(** The end of a word, at a blank or at the end of the line. *)
Lemma scan_word_end pre w post c dest quoted :
  src = pre +:+ (w +:+ post) -> w <> EmptyString ->
  c = None \/ c = Some space ->
  scan_char src (Z.of_nat (String.length (pre +:+ w))) c
    (Z.of_nat (String.length pre), false, dest, quoted) = (-1, false, dest ++ [w], quoted).
Proof.
  intros Hsrc Hw Hc. unfold scan_char.
  assert (scan_limits (Z.of_nat (String.length (pre +:+ w))) c (Z.of_nat (String.length pre)) false =
    (Z.of_nat (String.length pre), Z.of_nat (String.length (pre +:+ w)) - 1, false)) as ->.
  { destruct Hc as [->| ->]; unfold scan_limits; [|change (is_blank space) with true];
      rewrite (proj2 (Z.eqb_neq _ _)) by lia; done. }
  rewrite string_length_app.
  assert (0 < String.length w)%nat as Hl by (destruct w; [done|simpl; lia]).
  rewrite (proj2 (Z.eqb_neq _ _)) by lia. cbv beta iota.
  assert (String.length src = String.length pre + (String.length w + String.length post))%nat as Hlen
    by (by rewrite Hsrc, !string_length_app).
  rewrite (proj2 (Z.leb_le _ _)) by lia. rewrite Nat2Z.id.
  replace (Z.to_nat (Z.of_nat (String.length pre + String.length w) - 1 - Z.of_nat (String.length pre) + 1))
    with (String.length w) by lia.
  by rewrite Hsrc, substring_app.
Qed.

Lemma scan_phrase_end pre w post dest quoted :
  src = pre +:+ String quotation (w +:+ post) ->
  scan_char src (Z.of_nat (String.length pre + 1 + String.length w)) (Some quotation)
    (Z.of_nat (String.length pre), true, dest, quoted) = (-1, false, dest ++ [w], quoted ++ [w]).
Proof.
  intros Hsrc. unfold scan_char, scan_limits.
  change (is_blank quotation) with false. change (Ascii.eqb quotation quotation) with true.
  cbv beta iota. rewrite (proj2 (Z.eqb_neq _ _)) by lia. cbv beta iota.
  assert (src = (pre +:+ String quotation EmptyString) +:+ (w +:+ post)) as Hsrc2
    by (by rewrite string_app_assoc).
  assert (String.length src = String.length pre + 1 + (String.length w + String.length post))%nat as Hlen
    by (by rewrite Hsrc2, !string_length_app).
  rewrite (proj2 (Z.leb_le _ _)) by lia.
  replace (Z.to_nat (Z.of_nat (String.length pre) + 1))
    with (String.length (pre +:+ String quotation EmptyString)) by (rewrite string_length_app; simpl; lia).
  replace (Z.to_nat _) with (String.length w) by lia.
  by rewrite Hsrc2, substring_app.
Qed.

(** Between tokens: blanks and the end change nothing. *)
Lemma scan_idle i c dest quoted :
  c = None \/ c = Some space ->
  scan_char src i c (-1, false, dest, quoted) = (-1, false, dest, quoted).
Proof. by intros [->| ->]. Qed.

(** A token and what follows it: nothing, or a blank. *)
Lemma scan_token pre t rest dest quoted :
  src = pre +:+ (print_token t +:+ rest) -> token_okb t = true ->
  rest = EmptyString \/ (exists r, rest = String space r) ->
  exists st, st = (-1, false, dest ++ [token_text t], quoted ++ phrases [t]) /\
  scan_from src (Z.of_nat (String.length pre)) (print_token t +:+ rest) (-1, false, dest, quoted) =
  match rest with
  | EmptyString => st
  | String _ r => scan_from src (Z.of_nat (String.length (pre +:+ print_token t)) + 1) r st
  end.
Proof.
  intros Hsrc Hok Hrest. eexists. split; [reflexivity|]. destruct t as [w|w]; cbn [print_token token_text] in *.
  - cbn [token_okb] in Hok. apply andb_true_iff in Hok as [Hne Hw].
    apply negb_true_iff, String.eqb_neq in Hne. simpl phrases. rewrite app_nil_r.
    destruct w as [|c w]; [done|]. pose proof Hw as Hw'.
    cbn [all_chars] in Hw. apply andb_true_iff in Hw as [Hc Hw].
    destruct (word_char_start c Hc) as [Hb Hq].
    assert (scan_from src (Z.of_nat (String.length pre)) (String c w +:+ rest) (-1, false, dest, quoted)
      = scan_from src (Z.of_nat (String.length (pre +:+ String c w))) rest
          (Z.of_nat (String.length pre), false, dest, quoted)) as ->.
    { change (String c w +:+ rest) with (String c (w +:+ rest)).
      cbn [scan_from scan_char scan_limits]. rewrite Hb, Hq. change (-1 =? -1) with true. cbv beta iota.
      change (-1 =? -1) with true. cbv beta iota.
      rewrite scan_word by (lia || done). f_equal. rewrite string_length_app. cbn [String.length]. lia. }
    destruct Hrest as [->|[r ->]]; cbn [scan_from].
    + apply (scan_word_end pre (String c w) EmptyString); [done|done|by left].
    + rewrite (scan_word_end pre (String c w) (String space r)); [done|done|done|by right].
  - cbn [token_okb] in Hok. simpl phrases.
    assert (String quotation (w +:+ String quotation EmptyString) +:+ rest
            = String quotation (w +:+ String quotation rest)) as E.
    { change (String quotation ((w +:+ String quotation EmptyString) +:+ rest)
              = String quotation (w +:+ String quotation rest)).
      by rewrite string_app_assoc. }
    rewrite E in Hsrc |- *.
    assert (scan_from src (Z.of_nat (String.length pre)) (String quotation (w +:+ String quotation rest))
              (-1, false, dest, quoted)
      = scan_from src (Z.of_nat (String.length pre + 1 + String.length w)) (String quotation rest)
          (Z.of_nat (String.length pre), true, dest, quoted)) as ->.
    { cbn [scan_from scan_char scan_limits]. change (is_blank quotation) with false.
      change (Ascii.eqb quotation quotation) with true. cbv beta iota.
      change (-1 =? -1) with true. cbv beta iota.
      rewrite scan_phrase by (lia || done).
      by replace (Z.of_nat (String.length pre + 1 + String.length w))
        with (Z.of_nat (String.length pre) + 1 + Z.of_nat (String.length w)) by lia. }
    cbn [scan_from]. rewrite (scan_phrase_end pre w (String quotation rest)) by done.
    destruct Hrest as [->|[r ->]]; cbn [scan_from].
    + by apply scan_idle; left.
    + rewrite scan_idle by (by right). f_equal. rewrite !string_length_app. cbn [String.length].
      rewrite string_length_app. cbn [String.length]. lia.
Qed.

Lemma scan_tokens l : forall pre dest quoted,
  l <> [] -> src = pre +:+ Join (print_token <$> l) one_space -> forallb token_okb l = true ->
  scan_from src (Z.of_nat (String.length pre)) (Join (print_token <$> l) one_space) (-1, false, dest, quoted)
  = (-1, false, dest ++ (token_text <$> l), quoted ++ phrases l).
Proof.
  induction l as [|t l IH]; intros pre dest quoted Hne Hsrc Hok; [done|].
  cbn [forallb] in Hok. apply andb_true_iff in Hok as [Ht Hl].
  destruct l as [|t2 l].
  - change (Join (print_token <$> [t]) one_space) with (print_token t) in *.
    rewrite <- (string_app_nil (print_token t)) in Hsrc |- *.
    destruct (scan_token pre t EmptyString dest quoted Hsrc Ht (or_introl eq_refl)) as (st & -> & ->).
    done.
  - set (rest := Join (print_token <$> t2 :: l) one_space) in *.
    assert (Join (print_token <$> t :: t2 :: l) one_space = print_token t +:+ String space rest) as E
      by (apply join_cons; done).
    rewrite E in Hsrc |- *.
    destruct (scan_token pre t (String space rest) dest quoted Hsrc Ht) as (st & -> & ->);
      [right; by eexists|].
    replace (Z.of_nat (String.length (pre +:+ print_token t)) + 1)
      with (Z.of_nat (String.length ((pre +:+ print_token t) +:+ one_space)))
      by (rewrite (string_length_app _ one_space); simpl; lia).
    rewrite IH; [|done| |done].
    + assert (phrases (t :: t2 :: l) = phrases [t] ++ phrases (t2 :: l)) as -> by (by destruct t).
      by rewrite <- !app_assoc.
    + fold rest. rewrite Hsrc, !string_app_assoc. done.
Qed.
End Scan.

Lemma Tokenize_tokens l :
  forallb token_okb l = true ->
  Tokenize (Join (print_token <$> l) one_space) = (token_text <$> l, phrases l).
Proof.
  intros Hok. destruct l as [|t l]; [done|]. unfold Tokenize.
  pose proof (scan_tokens (Join (print_token <$> t :: l) one_space) (t :: l) EmptyString [] []
    ltac:(done) eq_refl Hok) as E.
  change (Z.of_nat (String.length EmptyString)) with 0 in E. by rewrite E.
Qed.

(** C35. [Tokenize] inverts printing: of any words (neither empty nor with blanks or
    quotation marks) and phrases (any text without quotation marks, the empty one
    included) written with blanks between them it returns exactly the words and
    phrases, and adds exactly the phrases to the strings of the script. *)
Theorem Tokenize_print l :
  forallb token_okb l = true ->
  Tokenize (Join (print_token <$> l) one_space) = (token_text <$> l, phrases l).
Proof. apply Tokenize_tokens. Qed.

Lemma Tokenize_print_witness :
  Tokenize (Join (print_token <$> [Word "print"; Phrase "hello there"; Phrase EmptyString; Word "x"]) one_space)
  = (["print"; "hello there"; EmptyString; "x"], ["hello there"; EmptyString]).
Proof. apply (Tokenize_print [Word "print"; Phrase "hello there"; Phrase EmptyString; Word "x"]). reflexivity. Defined.

(** ** Lines *)

Lemma take_line_newline n l rest :
  all_chars line_char l = true -> (String.length l < n)%nat ->
  take_line n (l +:+ String newline rest) = (l +:+ one_newline, rest, false).
Proof.
  revert n. induction l as [|c l IH]; intros [|n] Hl Hn; simpl in Hn; try lia; [done|].
  cbn [all_chars] in Hl. apply andb_true_iff in Hl as [Hc Hl].
  unfold line_char, is_newline in Hc. rewrite !andb_true_iff, !negb_true_iff in Hc.
  destruct Hc as [[Hc _] _]. apply orb_false_iff in Hc as [Hc _].
  change (String c l +:+ ?r) with (String c (l +:+ r)). cbn [take_line]. rewrite Hc.
  by rewrite IH by (done || lia).
Qed.

Lemma take_line_end n l :
  all_chars line_char l = true -> (String.length l < n)%nat ->
  take_line n l = (l, EmptyString, true).
Proof.
  revert n. induction l as [|c l IH]; intros [|n] Hl Hn; simpl in Hn; try lia; [done|].
  cbn [all_chars] in Hl. apply andb_true_iff in Hl as [Hc Hl].
  unfold line_char, is_newline in Hc. rewrite !andb_true_iff, !negb_true_iff in Hc.
  destruct Hc as [[Hc _] _]. apply orb_false_iff in Hc as [Hc _].
  cbn [take_line]. rewrite Hc. by rewrite IH by (done || lia).
Qed.

Lemma c_str_line l rest :
  all_chars line_char l = true -> c_str (l +:+ rest) = l +:+ c_str rest.
Proof.
  induction l as [|c l IH]; intros Hl; [done|].
  cbn [all_chars] in Hl. apply andb_true_iff in Hl as [Hc Hl].
  unfold line_char in Hc. rewrite !andb_true_iff, !negb_true_iff in Hc. destruct Hc as [_ Hc].
  change (String c l +:+ ?r) with (String c (l +:+ r)). cbn [c_str]. by rewrite Hc, IH.
Qed.

Lemma strip_newline_line l rest :
  all_chars line_char l = true -> strip_end is_newline rest = EmptyString ->
  strip_end is_newline (l +:+ rest) = l.
Proof.
  intros Hl Hr. induction l as [|c l IH]; [done|].
  cbn [all_chars] in Hl. apply andb_true_iff in Hl as [Hc Hl].
  unfold line_char in Hc. rewrite !andb_true_iff, !negb_true_iff in Hc. destruct Hc as [[Hc _] _].
  change (String c l +:+ rest) with (String c (l +:+ rest)). cbn [strip_end].
  rewrite IH by done. destruct l; [by rewrite Hc|done].
Qed.

Lemma cut_semicolon_line l : all_chars line_char l = true -> cut_char semicolon l = l.
Proof.
  induction l as [|c l IH]; intros Hl; [done|].
  cbn [all_chars] in Hl. apply andb_true_iff in Hl as [Hc Hl].
  unfold line_char in Hc. rewrite !andb_true_iff, !negb_true_iff in Hc. destruct Hc as [[_ Hc] _].
  cbn [cut_char]. by rewrite Hc, IH.
Qed.

(** What [ReadLine] makes of a line that is delivered with the end [e]. *)
Lemma ReadLine_line r l e rest' fin :
  line_okb l = true -> CommentStyle r = Comment_Semi ->
  take_line (BUFFERSIZE - 1) (rest r) = (l +:+ e, rest', fin) ->
  c_str e = e -> strip_end is_newline e = EmptyString ->
  exists n, ReadLine r = mkFileReader (open r) rest' (fin || eof r) l n Comment_Semi.
Proof.
  intros Hl Hstyle Ht He1 He2. unfold line_okb in Hl. rewrite !andb_true_iff in Hl.
  destruct Hl as [[Hl _] Hs]. apply String.eqb_eq in Hs.
  unfold ReadLine. rewrite Ht, Hstyle.
  set (read := if fin && String.eqb (l +:+ e) EmptyString then _ else _).
  assert (strip_end is_newline read = l) as ->.
  { unfold read. destruct (fin && String.eqb (l +:+ e) EmptyString) eqn:E.
    - apply andb_true_iff in E as [_ E]. apply String.eqb_eq in E. by destruct l.
    - rewrite c_str_line, He1 by done. by apply strip_newline_line. }
  change (Z.land Comment_Semi Comment_Slash =? 0) with true.
  change (Z.land Comment_Semi Comment_Semi =? 0) with false. cbv beta iota.
  rewrite cut_semicolon_line by done. unfold RemoveTrailingWhitespace. rewrite Hs. by eexists.
Qed.

Lemma read_file_lines lines : forall fuel r,
  lines <> [] -> forallb line_okb lines = true ->
  open r = true -> eof r = false -> CommentStyle r = Comment_Semi ->
  rest r = Join lines one_newline -> (length lines < fuel)%nat ->
  exists numbered, read_file fuel r = Some numbered /\ (snd <$> numbered) = lines.
Proof.
  induction lines as [|l lines IH]; intros [|fuel] r Hne Hok Hopen Heof Hstyle Hrest Hf; try done; [simpl in Hf; lia|].
  cbn [forallb] in Hok. apply andb_true_iff in Hok as [Hl Hok].
  cbn [read_file]. unfold FileOpen. rewrite Hopen, Heof. cbn [andb negb].
  pose proof Hl as Hl'. unfold line_okb in Hl'. rewrite !andb_true_iff in Hl'.
  destruct Hl' as [[Hchars Hlen%Nat.ltb_lt] _].
  destruct lines as [|l2 lines].
  - change (Join [l] one_newline) with l in Hrest.
    destruct (ReadLine_line r l EmptyString EmptyString true Hl Hstyle) as [n ->]; [|done|done|].
    { rewrite Hrest, string_app_nil. by apply take_line_end. }
    destruct fuel as [|fuel]; [simpl in Hf; lia|].
    cbn [read_file]. unfold FileOpen. simpl. rewrite andb_false_r. by eexists.
  - rewrite join_cons in Hrest by done.
    change (one_newline +:+ ?r) with (String newline r) in Hrest.
    destruct (ReadLine_line r l one_newline (Join (l2 :: lines) one_newline) false Hl Hstyle)
      as [n ->]; [|done|done|].
    { rewrite Hrest. by apply take_line_newline. }
    simpl orb. rewrite Heof.
    destruct (IH fuel (mkFileReader (open r) (Join (l2 :: lines) one_newline) false l n Comment_Semi))
      as (numbered & -> & Hn); [done..|simpl in *; lia|].
    simpl. eexists. split; [reflexivity|]. cbn [fmap list_fmap snd]. f_equal. exact Hn.
Qed.

Lemma Join_length_lines lines :
  (length lines <= S (String.length (Join lines one_newline)))%nat.
Proof.
  induction lines as [|l lines IH]; [simpl; lia|]. destruct lines as [|l2 lines]; [simpl; lia|].
  rewrite join_cons by done. rewrite !string_length_app.
  change (String.length one_newline) with 1%nat. simpl length in *. lia.
Qed.

(** A loader sees every line of its file, in order and unchanged: the lines
    written with newlines between them are what [FileOpen] and [ReadLine] deliver,
    provided a line fits the buffer, contains no comment, newline or zero byte and
    does not end in a blank. *)
Theorem read_file_Join lines :
  lines <> [] -> forallb line_okb lines = true ->
  exists numbered,
    read_file (file_fuel (Join lines one_newline))
      (set_CommentStyle Comment_Semi (OpenText (Join lines one_newline))) = Some numbered /\
    (snd <$> numbered) = lines.
Proof.
  intros Hne Hok. apply read_file_lines; [done..|].
  pose proof (Join_length_lines lines). unfold file_fuel. lia.
Qed.

Lemma read_file_Join_witness :
  exists numbered,
    read_file (file_fuel (Join ["set x 3"; EmptyString; "end"] one_newline))
      (set_CommentStyle Comment_Semi (OpenText (Join ["set x 3"; EmptyString; "end"] one_newline)))
      = Some numbered /\
    (snd <$> numbered) = ["set x 3"; EmptyString; "end"].
Proof. apply read_file_Join; [discriminate|]. vm_compute. reflexivity. Defined.
