(* ===== verification/ScriptImp.v ===== *)
(** * Structured scripts: the specification of the compiler

    The part of the script language made of [inc], [dec], [set], [copyvar], [if],
    [else], [endif] and [recompare] is a structured programming language with
    conditionals and loops. This file gives it a syntax, a meaning of its own
    ([exec], over named variables) and its text, and proves what the compiler makes
    of that text. [ScriptRefine] proves that running the result is the meaning. *)

From S2P Require Import Prelude Text FileReader Script ScriptPlayer ScriptTypes ScriptSafety ScriptText.

(** ** Syntax, meaning and text *)

Inductive expr := Num (n : Z) | Var (x : string).

(** [While] is an [if] whose last command is [recompare]. *)
Inductive stmt :=
  | Inc (x : string)
  | Dec (x : string)
  | Assign (x : string) (n : Z)
  | Copy (x y : string)
  | Seq (s1 s2 : stmt)
  | If (l : expr) (c : ComparisonType) (r : expr) (s : stmt)
  | IfElse (l : expr) (c : ComparisonType) (r : expr) (s1 s2 : stmt)
  | While (l : expr) (c : ComparisonType) (r : expr) (s : stmt).

Definition store : Type := string -> Z.

Definition update (x : string) (v : Z) (st : store) : store :=
  fun y => if bool_decide (y = x) then v else st y.

Definition eval (e : expr) (st : store) : Z := match e with Num n => n | Var x => st x end.

Definition holds (l : expr) (c : ComparisonType) (r : expr) (st : store) : bool :=
  match c with
  | CMP_INV => false
  | CMP_EQ => eval l st =? eval r st
  | CMP_NEQ => negb (eval l st =? eval r st)
  | CMP_LT => eval l st <? eval r st
  | CMP_LTE => eval l st <=? eval r st
  | CMP_GT => eval r st <? eval l st
  | CMP_GTE => eval r st <=? eval l st
  end.

Inductive exec : stmt -> store -> store -> Prop :=
  | exec_inc x st : exec (Inc x) st (update x (i32 (st x + 1)) st)
  | exec_dec x st : exec (Dec x) st (update x (i32 (st x - 1)) st)
  | exec_assign x n st : exec (Assign x n) st (update x n st)
  | exec_copy x y st : exec (Copy x y) st (update y (st x) st)
  | exec_seq s1 s2 st st1 st2 : exec s1 st st1 -> exec s2 st1 st2 -> exec (Seq s1 s2) st st2
  | exec_if_true l c r s st st' : holds l c r st = true -> exec s st st' -> exec (If l c r s) st st'
  | exec_if_false l c r s st : holds l c r st = false -> exec (If l c r s) st st
  | exec_else_true l c r s1 s2 st st' :
      holds l c r st = true -> exec s1 st st' -> exec (IfElse l c r s1 s2) st st'
  | exec_else_false l c r s1 s2 st st' :
      holds l c r st = false -> exec s2 st st' -> exec (IfElse l c r s1 s2) st st'
  | exec_while_false l c r s st : holds l c r st = false -> exec (While l c r s) st st
  | exec_while_true l c r s st st1 st2 :
      holds l c r st = true -> exec s st st1 -> exec (While l c r s) st1 st2 ->
      exec (While l c r s) st st2.

Definition cmp_text (c : ComparisonType) : string :=
  match c with
  | CMP_INV => "?" | CMP_EQ => "=" | CMP_NEQ => "!=" | CMP_LT => "<" | CMP_LTE => "<="
  | CMP_GT => ">" | CMP_GTE => ">="
  end.

Definition expr_text (e : expr) : string := match e with Num n => sprintf_d n | Var x => x end.

Definition if_line (l : expr) (c : ComparisonType) (r : expr) : list string :=
  ["if"; expr_text l; cmp_text c; expr_text r].

(** The words of each line. *)
Fixpoint words (s : stmt) : list (list string) :=
  match s with
  | Inc x => [["inc"; x]]
  | Dec x => [["dec"; x]]
  | Assign x n => [["set"; x; sprintf_d n]]
  | Copy x y => [["copyvar"; x; y]]
  | Seq s1 s2 => words s1 ++ words s2
  | If l c r s => [if_line l c r] ++ words s ++ [["endif"]]
  | IfElse l c r s1 s2 => [if_line l c r] ++ words s1 ++ [["else"]] ++ words s2 ++ [["endif"]]
  | While l c r s => [if_line l c r] ++ words s ++ [["recompare"]; ["endif"]]
  end.

(** A program: its variables are set to 0 first, which declares them; [end] ends it. *)
Definition program_words (vs : list string) (s : stmt) : list (list string) :=
  ((fun x => ["set"; x; "0"]) <$> vs) ++ words s ++ [["end"]].

Definition print_words (ws : list string) : string := Join ws one_space.

Definition program_text (vs : list string) (s : stmt) : string :=
  Join (print_words <$> program_words vs s) one_newline.

(** ** Well-formed programs *)

(** A name: a letter and then letters, digits or [_]. *)
Definition name_char (c : Ascii.ascii) : bool := isalnum c || (code c =? 95).
Definition letter (c : Ascii.ascii) : bool := isalnum c && negb (is_digit 10 c).

Definition name_okb (x : string) : bool :=
  letter (first_char x) && all_chars name_char x && (String.length x <? 1000)%nat.

Definition expr_okb (vs : list string) (e : expr) : bool :=
  match e with
  | Num n => (- 2 ^ 31 <=? n) && (n <? 2 ^ 31)
  | Var x => bool_decide (x ∈ vs)
  end.

Fixpoint stmt_okb (vs : list string) (s : stmt) : bool :=
  match s with
  | Inc x | Dec x => bool_decide (x ∈ vs)
  | Assign x n => bool_decide (x ∈ vs) && expr_okb vs (Num n)
  | Copy x y => bool_decide (x ∈ vs) && bool_decide (y ∈ vs)
  | Seq s1 s2 => stmt_okb vs s1 && stmt_okb vs s2
  | If l c r s | While l c r s =>
      expr_okb vs l && expr_okb vs r && bool_decide (c <> CMP_INV) && stmt_okb vs s
  | IfElse l c r s1 s2 =>
      expr_okb vs l && expr_okb vs r && bool_decide (c <> CMP_INV) && stmt_okb vs s1 && stmt_okb vs s2
  end.

Definition program_okb (vs : list string) (s : stmt) : bool :=
  forallb name_okb vs && bool_decide (NoDup vs) && stmt_okb vs s.

(** ** The code *)

(** The place of a variable. *)
Definition slot (vs : list string) (x : string) : Z := idx (string_index x vs).

Definition push_code (vs : list string) (e : expr) : OpData :=
  match e with
  | Num n => mkOp (op_code OP_PUSHINT) n 0 0
  | Var x => mkOp (op_code OP_PUSHVAR) (slot vs x) 0 0
  end.

Definition test_code (vs : list string) (l : expr) (c : ComparisonType) (r : expr) (skip : Z) : list OpData :=
  [push_code vs r; push_code vs l; mkOp (op_code OP_CMP) (cmp_code c) skip 0].

(** The instructions of a statement that starts at [pc]. *)
Fixpoint code_of (vs : list string) (s : stmt) (pc : Z) : list OpData :=
  match s with
  | Inc x => [mkOp (op_code OP_INC) (slot vs x) 0 0]
  | Dec x => [mkOp (op_code OP_DEC) (slot vs x) 0 0]
  | Assign x n => [mkOp (op_code OP_SET) (slot vs x) n 0]
  | Copy x y => [mkOp (op_code OP_COPYVAR) (slot vs x) (slot vs y) 0]
  | Seq s1 s2 =>
      let c1 := code_of vs s1 pc in c1 ++ code_of vs s2 (pc + len c1)
  | If l c r s =>
      let c1 := code_of vs s (pc + 3) in test_code vs l c r (len c1 + 1) ++ c1
  | IfElse l c r s1 s2 =>
      let c1 := code_of vs s1 (pc + 3) in
      let c2 := code_of vs s2 (pc + 3 + len c1 + 1) in
      test_code vs l c r (len c1 + 2) ++ c1 ++
      [mkOp (op_code OP_JMP) (pc + 3 + len c1 + 1 + len c2) 0 0] ++ c2
  | While l c r s =>
      let c1 := code_of vs s (pc + 3) in
      test_code vs l c r (len c1 + 2) ++ c1 ++ [mkOp (op_code OP_JMP) pc 0 0]
  end.

Definition program_code (vs : list string) (s : stmt) : list OpData :=
  ((fun x => mkOp (op_code OP_SET) (slot vs x) 0 0) <$> vs) ++
  code_of vs s (len vs) ++ [mkOp (op_code OP_END) 0 0 0].

(** A definition with more code, and nothing else changed. *)
Definition add_code (l : list OpData) (d : ScriptDef) : ScriptDef :=
  mkDef (scriptName d) (instr d ++ l) (stringList d) (label d) (varName d)
    (Script.curInst d + len l) (mLabelMap d) (mIntArray d) (scriptSpeed d) (scriptIdleSpeed d)
    (queueExternalJumps d) (queueCallStyle d) (mFlags d).

(** ** Texts *)

Lemma string_index_slot vs x : x ∈ vs -> exists i, string_index x vs = Some i /\ vs !! i = Some x.
Proof.
  intros Hx. destruct (string_index x vs) as [i|] eqn:E.
  - exists i. split; [done|]. apply find_idx_lookup in E as (y & Hy & He).
    apply String.eqb_eq in He. congruence.
  - exfalso. unfold string_index in E. rewrite find_idx_None, list.Forall_forall in E.
    specialize (E x Hx). simpl in E. by rewrite String.eqb_refl in E.
Qed.

Lemma string_index_absent vs x : x ∉ vs -> string_index x vs = None.
Proof.
  intros Hx. apply find_idx_None, list.Forall_forall. intros y Hy.
  apply String.eqb_neq. by intros ->.
Qed.

Lemma name_char_facts c :
  name_char c = true -> word_char c = true /\ line_char c = true /\ Ascii.eqb c (chr 46) = false.
Proof.
  intros H.
  pose proof (chr_range_forall (fun c => implb (name_char c)
    (word_char c && line_char c && negb (Ascii.eqb c (chr 46)))) eq_refl c) as E.
  cbv beta in E. rewrite H in E. cbn [implb] in E.
  rewrite !andb_true_iff, negb_true_iff in E. tauto.
Qed.

Definition number_char (c : Ascii.ascii) : bool := is_digit 10 c || (code c =? 45).

Lemma number_char_facts c :
  number_char c = true ->
  word_char c = true /\ line_char c = true /\ Ascii.eqb c (chr 46) = false /\
  letter c = false /\ Ascii.eqb c (chr 64) = false.
Proof.
  intros H.
  pose proof (chr_range_forall (fun c => implb (number_char c)
    (word_char c && line_char c && negb (Ascii.eqb c (chr 46)) && negb (letter c)
     && negb (Ascii.eqb c (chr 64)))) eq_refl c) as E.
  cbv beta in E. rewrite H in E. cbn [implb] in E.
  rewrite !andb_true_iff, !negb_true_iff in E. tauto.
Qed.

Lemma letter_facts c : letter c = true -> Ascii.eqb c (chr 64) = false.
Proof.
  intros H.
  pose proof (chr_range_forall (fun c => implb (letter c) (negb (Ascii.eqb c (chr 64)))) eq_refl c) as E.
  cbv beta in E. rewrite H in E. cbn [implb] in E. by apply negb_true_iff in E.
Qed.

Lemma sprintf_d_chars n :
  all_chars number_char (sprintf_d n) = true /\ sprintf_d n <> EmptyString.
Proof.
  assert (forall m, 0 <= m -> all_chars number_char (print_unsigned 10 m) = true) as Hall.
  { intros m Hm. eapply all_chars_mono; [|by apply (print_unsigned_all 10 ltac:(lia))].
    intros c Hc. unfold number_char. by rewrite Hc. }
  unfold sprintf_d. case_test; to_prop.
  - split; [|done]. cbn [all_chars]. rewrite Hall by lia. done.
  - split; [by apply Hall|]. unfold print_unsigned. cbn [print_digits].
    destruct (_ <? _); [done|apply print_digits_nonempty].
Qed.

Lemma all_chars_first p s : all_chars p s = true -> s <> EmptyString -> p (first_char s) = true.
Proof. destruct s as [|c s]; [done|]. cbn [all_chars first_char]. rewrite andb_true_iff. tauto. Qed.

Lemma has_char_absent p c s : all_chars p s = true -> p c = false -> has_char c s = false.
Proof.
  intros Hs Hc. apply bool_decide_eq_false. induction s as [|c' s IH]; cbn [String.list_ascii_of_string].
  - by intros ?%not_elem_of_nil.
  - cbn [all_chars] in Hs. apply andb_true_iff in Hs as [Hc' Hs].
    intros [->|Hin]%elem_of_cons; [congruence|]. by apply IH.
Qed.

Lemma name_ok_word x : name_okb x = true -> token_okb (Word x) = true.
Proof.
  unfold name_okb. rewrite !andb_true_iff. intros [[Hf Hx] _]. cbn [token_okb].
  apply andb_true_iff. split; [by destruct x|].
  eapply all_chars_mono; [|exact Hx]. intros c Hc. by apply name_char_facts in Hc as [? _].
Qed.

Lemma number_word n : token_okb (Word (sprintf_d n)) = true.
Proof.
  destruct (sprintf_d_chars n) as [Ha Hne]. cbn [token_okb]. apply andb_true_iff.
  split; [by apply negb_true_iff, String.eqb_neq|].
  eapply all_chars_mono; [|exact Ha]. intros c Hc. by apply number_char_facts in Hc as [? _].
Qed.

Lemma number_not_name n vs :
  Forall (fun x => name_okb x = true) vs -> sprintf_d n ∉ vs.
Proof.
  intros Hvs Hin. rewrite list.Forall_forall in Hvs. specialize (Hvs _ Hin).
  unfold name_okb in Hvs. rewrite !andb_true_iff in Hvs. destruct Hvs as [[Hf _] _].
  destruct (sprintf_d_chars n) as [Ha Hne].
  pose proof (all_chars_first _ _ Ha Hne) as Hd.
  apply number_char_facts in Hd as (_ & _ & _ & Hl & _). congruence.
Qed.

(** ** Code of a line *)

Lemma add_code_app l1 l2 d : add_code l2 (add_code l1 d) = add_code (l1 ++ l2) d.
Proof.
  unfold add_code. simpl. rewrite app_assoc, length_app. f_equal. lia.
Qed.

Lemma push_add_code op p1 p2 p3 d :
  PushOpCode (op_code op) p1 p2 p3 d = add_code [mkOp (op_code op) p1 p2 p3] d.
Proof. unfold PushOpCode, add_code, newOp. by rewrite op_code_u8. Qed.

Lemma update_add_code d l1 o l2 f i :
  i = len (instr d) + len l1 ->
  update_instr i f (add_code (l1 ++ o :: l2) d) = Some (add_code (l1 ++ f o :: l2) d).
Proof.
  intros ->. unfold update_instr. cbn [add_code instr].
  rewrite !length_app. cbn [length].
  rewrite (proj2 (Z.leb_le _ _)), (proj2 (Z.ltb_lt _ _)) by lia. cbn [andb]. f_equal.
  unfold set_instr, add_code. cbn [scriptName instr stringList label varName Script.curInst
    mLabelMap mIntArray scriptSpeed scriptIdleSpeed queueExternalJumps queueCallStyle mFlags].
  rewrite !length_app. cbn [length]. f_equal.
  replace (Z.to_nat (len (instr d) + len l1)) with (length (instr d ++ l1) + 0)%nat
    by (rewrite length_app; lia).
  rewrite !app_assoc, alter_app_r. done.
Qed.

Section Compiling.
Context {X : Type} `{!CompilerHost X}.

Definition plain_commands : list string := ["inc"; "dec"; "set"; "copyvar"; "end"].

(** The derived class leaves the commands of the programs alone. *)
Definition leaves_plain : Prop :=
  forall opname st, opname ∈ plain_commands -> HandleAdvancedCommand opname st = (st, false).

Context (Hplain : leaves_plain).

Lemma words_phrases (ws : list string) : phrases (Word <$> ws) = [].
Proof. induction ws as [|w ws IH]; [done|exact IH]. Qed.

Lemma words_texts (ws : list string) : token_text <$> (Word <$> ws) = ws.
Proof. induction ws as [|w ws IH]; [done|]. cbn. by rewrite IH. Qed.

Lemma words_print (ws : list string) : print_token <$> (Word <$> ws) = ws.
Proof. induction ws as [|w ws IH]; [done|]. cbn. by rewrite IH. Qed.

Definition words_okb (ws : list string) : bool := forallb (fun w => token_okb (Word w)) ws.

Lemma words_okb_tokens ws : words_okb ws = true -> forallb token_okb (Word <$> ws) = true.
Proof. induction ws as [|w ws IH]; [done|]. cbn. rewrite !andb_true_iff. intros [? ?]. auto. Qed.

Lemma CompileLine_words ws d c (x : X) :
  words_okb ws = true -> mSymbols c = ∅ ->
  CompileLine (print_words ws) (d, c, x) = compile_tokens (d, set_tokens ws c, x).
Proof.
  intros Hw Hs. unfold CompileLine, prepare_line, print_words.
  pose proof (Tokenize_tokens (Word <$> ws) (words_okb_tokens ws Hw)) as E.
  rewrite words_print, words_texts, words_phrases in E. rewrite E.
  rewrite app_nil_r. unfold CheckSymbolReplacements. cbn [mSymbols set_tokens]. rewrite Hs.
  rewrite bool_decide_true by apply map_size_empty. by destruct d.
Qed.

Lemma CreateVariable_known v d i :
  string_index v (varName d) = Some i -> CreateVariable v d = (d, Z.of_nat i).
Proof. intros E. unfold CreateVariable. by rewrite E. Qed.

Lemma slot_index vs v i : string_index v vs = Some i -> slot vs v = Z.of_nat i.
Proof. intros E. unfold slot. by rewrite E. Qed.

(** The state after the tokens of a line are stored. *)
Lemma compile_plain opname ws d c x :
  opname ∈ plain_commands ->
  compile_tokens (d, set_tokens (opname :: ws) c, x) =
  Some (compile_instruction (GetInstructionDataByName opname) (opname :: ws) d (set_tokens (opname :: ws) c), x).
Proof.
  intros Hin. unfold compile_tokens. cbn [mTokens set_tokens].
  change (GetSubstring (opname :: ws) 0) with (Some opname). cbv beta iota.
  rewrite Hplain by done.
  repeat (apply elem_of_cons in Hin as [->|Hin]; [reflexivity|]).
  by apply not_elem_of_nil in Hin.
Qed.


#[local] Arguments atoi : simpl never.
#[local] Arguments sprintf_d : simpl never.
#[local] Arguments push_type : simpl never.
#[local] Arguments PushOpCode : simpl never.

Ltac plain_line E :=
  rewrite compile_plain by (unfold plain_commands; set_solver);
  unfold compile_instruction; simpl; unfold CreateVariable; rewrite !E; simpl;
  rewrite push_add_code.

Lemma compile_inc v d c x :
  v ∈ varName d ->
  compile_tokens (d, set_tokens ["inc"; v] c, x) =
  Some (add_code [mkOp (op_code OP_INC) (slot (varName d) v) 0 0] d, set_tokens ["inc"; v] c, x).
Proof.
  intros (i & E & _)%string_index_slot. rewrite (slot_index _ _ _ E). by plain_line E.
Qed.

Lemma compile_dec v d c x :
  v ∈ varName d ->
  compile_tokens (d, set_tokens ["dec"; v] c, x) =
  Some (add_code [mkOp (op_code OP_DEC) (slot (varName d) v) 0 0] d, set_tokens ["dec"; v] c, x).
Proof.
  intros (i & E & _)%string_index_slot. rewrite (slot_index _ _ _ E). by plain_line E.
Qed.

Lemma compile_set v t d c x :
  v ∈ varName d ->
  compile_tokens (d, set_tokens ["set"; v; t] c, x) =
  Some (add_code [mkOp (op_code OP_SET) (slot (varName d) v) (atoi t) 0] d,
        set_tokens ["set"; v; t] c, x).
Proof.
  intros (i & E & _)%string_index_slot. rewrite (slot_index _ _ _ E). by plain_line E.
Qed.

Lemma compile_copy v1 v2 d c x :
  v1 ∈ varName d -> v2 ∈ varName d ->
  compile_tokens (d, set_tokens ["copyvar"; v1; v2] c, x) =
  Some (add_code [mkOp (op_code OP_COPYVAR) (slot (varName d) v1) (slot (varName d) v2) 0] d,
        set_tokens ["copyvar"; v1; v2] c, x).
Proof.
  intros (i & E & _)%string_index_slot (i2 & E2 & _)%string_index_slot.
  rewrite (slot_index _ _ _ E), (slot_index _ _ _ E2).
  rewrite compile_plain by (unfold plain_commands; set_solver).
  unfold compile_instruction; simpl; unfold CreateVariable; rewrite E; simpl; rewrite E2; simpl.
  by rewrite push_add_code.
Qed.

Lemma compile_end d c x :
  compile_tokens (d, set_tokens ["end"] c, x) =
  Some (add_code [mkOp (op_code OP_END) 0 0 0] d, set_tokens ["end"] c, x).
Proof.
  rewrite compile_plain by (unfold plain_commands; set_solver).
  unfold compile_instruction; simpl. by rewrite push_add_code.
Qed.

(** The first [set] of a variable declares it. *)
Definition declare (v : string) (d : ScriptDef) : ScriptDef := set_varName (varName d ++ [v]) d.

Lemma compile_declare v t d c x :
  v ∉ varName d ->
  compile_tokens (d, set_tokens ["set"; v; t] c, x) =
  Some (add_code [mkOp (op_code OP_SET) (len (varName d)) (atoi t) 0] (declare v d),
        set_tokens ["set"; v; t] c, x).
Proof.
  intros E%string_index_absent.
  rewrite compile_plain by (unfold plain_commands; set_solver).
  unfold compile_instruction; simpl; unfold CreateVariable; rewrite E; simpl.
  rewrite push_add_code, length_app. simpl.
  by replace (Z.of_nat (length (varName d) + 1) - 1) with (len (varName d)) by lia.
Qed.

(** ** Conditions *)

Lemma resolve_expr e d :
  Forall (fun v => name_okb v = true) (varName d) -> expr_okb (varName d) e = true ->
  exists ty v, ResolveOperandType (expr_text e) d = (d, ty, v) /\
    forall d', push_type ty v d' = add_code [push_code (varName d) e] d'.
Proof.
  intros Hn He. unfold ResolveOperandType. destruct e as [n|v]; cbn [expr_text expr_okb push_code] in *.
  - rewrite andb_true_iff, Z.leb_le, Z.ltb_lt in He.
    destruct (sprintf_d_chars n) as [Ha Hne].
    pose proof (all_chars_first _ _ Ha Hne) as Hd.
    apply number_char_facts in Hd as (_ & _ & _ & _ & ->).
    unfold GetVariableIndex. rewrite string_index_absent by by apply number_not_name.
    cbn [idx]. change (0 <=? -1) with false. cbv beta iota.
    rewrite (has_char_absent _ _ _ Ha) by done.
    rewrite atoi_sprintf_d_lemma by (unfold in_signed; simpl; lia).
    eexists _, _. split; [reflexivity|]. intros d'. unfold push_type. simpl.
    by rewrite push_add_code.
  - apply bool_decide_eq_true in He. rewrite list.Forall_forall in Hn.
    pose proof (Hn v He) as Hv. unfold name_okb in Hv. rewrite !andb_true_iff in Hv.
    destruct Hv as [[Hl _] _]. rewrite (letter_facts _ Hl).
    destruct (string_index_slot _ _ He) as (i & E & _). unfold GetVariableIndex. rewrite E.
    cbn [idx]. rewrite (proj2 (Z.leb_le 0 _)) by lia.
    eexists _, _. split; [reflexivity|]. intros d'. unfold push_type. simpl.
    by rewrite push_add_code, (slot_index _ _ _ E).
Qed.

Lemma cmp_text_resolves c : c <> CMP_INV -> ResolveComparisonType (cmp_text c) = c.
Proof. by destruct c. Qed.

Lemma compile_if_line l c r d comp x :
  Forall (fun v => name_okb v = true) (varName d) ->
  expr_okb (varName d) l = true -> expr_okb (varName d) r = true -> c <> CMP_INV ->
  compile_tokens (d, set_tokens (if_line l c r) comp, x) =
  Some (add_code (test_code (varName d) l c r 2) d,
        OpenBlock (compile_line comp) (Script.curInst d + 2) (set_tokens (if_line l c r) comp), x).
Proof.
  intros Hn Hl Hr Hc.
  destruct (resolve_expr l d Hn Hl) as (tl & vl & El & Pl).
  destruct (resolve_expr r d Hn Hr) as (tr & vr & Er & Pr).
  unfold compile_tokens, if_line. cbn [mTokens set_tokens].
  match goal with |- context [GetSubstring ?t 0] => change (GetSubstring t 0) with (Some "if") end.
  cbv beta iota. change (Ascii.eqb (first_char "if") (chr 58)) with false.
  change (String.eqb "if" "if") with true. cbv beta iota.
  unfold compile_if. cbn [lookup list_lookup]. rewrite El, Er, cmp_text_resolves by done.
  rewrite bool_decide_false by done. rewrite Pl, Pr, push_add_code, !add_code_app.
  unfold test_code. cbn [app].
  by replace (Script.curInst (add_code [push_code (varName d) r; push_code (varName d) l] d))
    with (Script.curInst d + 2) by (cbn [add_code Script.curInst length]; lia).
Qed.

(** ** Blocks *)

Definition closed_blocks (bs : list BlockData) : Prop := Forall (fun b => mResolved b = true) bs.

Lemma last_unresolved_prefix n bs l :
  (n <= length bs)%nat -> last_unresolved n (bs ++ l) = last_unresolved n bs.
Proof.
  induction n as [|n IH]; intros Hn; [done|]. cbn [last_unresolved].
  rewrite lookup_app_l by lia. destruct (bs !! n) as [b|]; [|done].
  destruct (mResolved b); [apply IH; lia|done].
Qed.

Lemma last_unresolved_skip bs closed :
  closed_blocks closed ->
  last_unresolved (length (bs ++ closed)) (bs ++ closed) = last_unresolved (length bs) bs.
Proof.
  induction closed as [|b closed IH] using rev_ind; intros Hc; [by rewrite app_nil_r|].
  apply Forall_app in Hc as [Hc Hb]. apply list.Forall_cons in Hb as [Hb _].
  rewrite app_assoc, length_app. cbn [length]. rewrite Nat.add_1_r. cbn [last_unresolved].
  rewrite lookup_app_r, Nat.sub_diag by lia.
  change ([b] !! 0%nat) with (Some b). cbv beta iota. rewrite Hb.
  rewrite last_unresolved_prefix by lia. by apply IH.
Qed.

Lemma open_block_found bs b closed :
  mResolved b = false -> closed_blocks closed ->
  last_unresolved (length (bs ++ b :: closed)) (bs ++ b :: closed) = Some (length bs).
Proof.
  intros Hb Hc. replace (bs ++ b :: closed) with ((bs ++ [b]) ++ closed) by by rewrite <- app_assoc.
  rewrite last_unresolved_skip by done. rewrite length_app. cbn [length]. rewrite Nat.add_1_r. cbn [last_unresolved].
  rewrite lookup_app_r, Nat.sub_diag by lia.
  change ([b] !! 0%nat) with (Some b). cbv beta iota. by rewrite Hb.
Qed.

Lemma middle_lookup {A} (l1 : list A) x l2 : (l1 ++ x :: l2) !! length l1 = Some x.
Proof. by rewrite lookup_app_r, Nat.sub_diag. Qed.

Lemma middle_alter {A} (f : A -> A) (l1 : list A) x l2 :
  alter f (length l1) (l1 ++ x :: l2) = l1 ++ f x :: l2.
Proof. by rewrite <- (Nat.add_0_r (length l1)), alter_app_r. Qed.

(** Two compilers with the same symbols and pending references. *)
Definition same_tables (c c' : ScriptCompiler) : Prop :=
  mSymbols c' = mSymbols c /\ mPendingLabelReference c' = mPendingLabelReference c.

Lemma compile_endif_if d0 c l1 o l2 bs b closed :
  mBlockData c = bs ++ b :: closed -> mResolved b = false -> mUseElse b = false ->
  closed_blocks closed -> mInstIndex b = len (instr d0) + len l1 ->
  exists c', compile_endif (add_code (l1 ++ o :: l2) d0) c =
      Some (add_code (l1 ++ put_param2 (Script.curInst d0 - len (instr d0) + len l2 + 1) o :: l2) d0, c') /\
    mBlockData c' = bs ++ resolve_block b :: closed /\ same_tables c c'.
Proof.
  intros Hbs Hb Hu Hc Hi. unfold compile_endif, CloseBlock, GetLastUnresolvedBlock.
  rewrite Hbs, open_block_found by done. rewrite middle_lookup. cbn [mbind option_bind].
  rewrite Hu. rewrite (update_add_code d0 l1 o l2 _ _ Hi). cbn [mbind option_bind].
  eexists. split; [|split].
  - replace (Script.curInst (add_code (l1 ++ o :: l2) d0) - mInstIndex b)
      with (Script.curInst d0 - len (instr d0) + len l2 + 1); [reflexivity|].
    cbn [add_code Script.curInst]. rewrite Hi, length_app. cbn [length]. lia.
  - cbn [fst mBlockData set_blocks]. by rewrite middle_alter.
  - done.
Qed.

Lemma compile_endif_else d0 c l1 o l2 j l3 bs b closed :
  mBlockData c = bs ++ b :: closed -> mResolved b = false -> mUseElse b = true ->
  closed_blocks closed -> mInstIndex b = len (instr d0) + len l1 ->
  mInstIndexElse b = len (instr d0) + len l1 + 1 + len l2 ->
  exists c', compile_endif (add_code (l1 ++ o :: l2 ++ j :: l3) d0) c =
      Some (add_code (l1 ++ put_param2 (len l2 + 2) o :: l2 ++
              put_param1 (Script.curInst d0 + len l1 + 1 + len l2 + 1 + len l3) j :: l3) d0, c') /\
    mBlockData c' = bs ++ resolve_block b :: closed /\ same_tables c c'.
Proof.
  intros Hbs Hb Hu Hc Hi He. unfold compile_endif, CloseBlock, GetLastUnresolvedBlock.
  rewrite Hbs, open_block_found by done. rewrite middle_lookup. cbn [mbind option_bind].
  rewrite Hu. rewrite (update_add_code d0 l1 o _ _ _ Hi). cbn [mbind option_bind].
  set (o' := put_param2 _ o).
  assert (l1 ++ o' :: l2 ++ j :: l3 = (l1 ++ o' :: l2) ++ j :: l3) as -> by by rewrite <- app_assoc.
  rewrite (update_add_code d0 (l1 ++ o' :: l2) j l3)
    by (rewrite length_app; cbn [length]; lia).
  cbn [mbind option_bind]. eexists. split; [|split].
  - rewrite <- app_assoc. subst o'. cbn [app].
    replace (mInstIndexElse b - mInstIndex b + 1) with (len l2 + 2) by lia.
    match goal with |- context [put_param1 (Script.curInst (add_code ?l d0))] =>
      replace (Script.curInst (add_code l d0))
        with (Script.curInst d0 + len l1 + 1 + len l2 + 1 + len l3) end; [reflexivity|].
    cbn [add_code Script.curInst]. repeat (rewrite ?length_app; cbn [app length]). lia.
  - cbn [fst mBlockData set_blocks]. by rewrite middle_alter.
  - done.
Qed.

(** ** Sequences of lines *)

Lemma compile_lines_app l1 l2 : forall (st : ScriptDef * ScriptCompiler * X),
  compile_lines (l1 ++ l2) st = st' ← compile_lines l1 st; compile_lines l2 st'.
Proof.
  induction l1 as [|[n l] l1 IH]; intros st; [done|].
  cbn [compile_lines app]. destruct st as [[d c] x].
  destruct (CompileLine l (d, set_line n c, x)) as [st'|]; [apply IH|done].
Qed.

(** What lines compile to from a definition, in any compiler without symbols: the
    code is added, every block opened is closed again. *)
Definition compiles_to (wss : list (list string)) (d d' : ScriptDef) : Prop :=
  forall c (x : X) numbered,
    (snd <$> numbered) = print_words <$> wss -> mSymbols c = ∅ ->
    exists c' closed, compile_lines numbered (d, c, x) = Some (d', c', x) /\
      same_tables c c' /\ mBlockData c' = mBlockData c ++ closed /\ closed_blocks closed.

Lemma compiles_nil d : compiles_to [] d d.
Proof.
  intros c x numbered E Hs. apply fmap_nil_inv in E as ->. exists c, []. rewrite app_nil_r. split_and!; [done..|].
  constructor.
Qed.

Lemma compiles_app w1 w2 d d1 d2 :
  compiles_to w1 d d1 -> compiles_to w2 d1 d2 -> compiles_to (w1 ++ w2) d d2.
Proof.
  intros H1 H2 c x numbered E Hs. rewrite fmap_app in E.
  apply fmap_app_inv in E as (n1 & n2 & E1 & E2 & ->).
  destruct (H1 c x n1 (eq_sym E1) Hs) as (c1 & cl1 & R1 & [S1 P1] & B1 & C1).
  destruct (H2 c1 x n2 (eq_sym E2)) as (c2 & cl2 & R2 & [S2 P2] & B2 & C2); [congruence|].
  exists c2, (cl1 ++ cl2). rewrite compile_lines_app, R1. cbn [mbind option_bind].
  split; [done|]. split; [split; congruence|]. split; [by rewrite B2, B1, app_assoc|].
  by apply Forall_app.
Qed.

Lemma compiles_line ws d d' :
  words_okb ws = true ->
  (forall c x, compile_tokens (d, set_tokens ws c, x) = Some (d', set_tokens ws c, x)) ->
  compiles_to [ws] d d'.
Proof.
  intros Hw Hc c x numbered E Hs.
  destruct numbered as [|[n l] [|]]; [done| |done]. injection E as ->.
  cbn [compile_lines]. rewrite CompileLine_words by done. rewrite Hc.
  eexists _, []. split; [reflexivity|]. rewrite app_nil_r. split_and!; [done..|]. constructor.
Qed.

(** One line, whatever it does to the compiler. *)
Lemma compile_one n ws l d c (x : X) :
  l = print_words ws -> words_okb ws = true -> mSymbols c = ∅ ->
  compile_lines [(n, l)] (d, c, x) = compile_tokens (d, set_tokens ws (set_line n c), x).
Proof.
  intros -> Hw Hs. cbn [compile_lines]. rewrite CompileLine_words by done.
  by destruct (compile_tokens _).
Qed.

(** The first line of a block: the comparison is compiled and the block open. *)
Definition begin_block (d : ScriptDef) (c c' : ScriptCompiler) : Prop :=
  same_tables c c' /\ exists b, mBlockData c' = mBlockData c ++ [b] /\
    mResolved b = false /\ mUseElse b = false /\ mInstIndex b = Script.curInst d + 2.

Lemma if_line_words vs l c r :
  Forall (fun v => name_okb v = true) vs -> expr_okb vs l = true -> expr_okb vs r = true ->
  c <> CMP_INV -> words_okb (if_line l c r) = true.
Proof.
  intros Hn Hl Hr Hc.
  assert (forall e, expr_okb vs e = true -> token_okb (Word (expr_text e)) = true) as He.
  { intros [n|v] Hv; cbn [expr_text]; [apply number_word|].
    apply bool_decide_eq_true in Hv. rewrite list.Forall_forall in Hn. by apply name_ok_word, Hn. }
  unfold words_okb, if_line. cbn [forallb].
  rewrite (He l), (He r) by done. by destruct c.
Qed.

Lemma compile_begin n line l cmp r d c (x : X) :
  line = print_words (if_line l cmp r) ->
  Forall (fun v => name_okb v = true) (varName d) ->
  expr_okb (varName d) l = true -> expr_okb (varName d) r = true -> cmp <> CMP_INV ->
  mSymbols c = ∅ ->
  exists c', compile_lines [(n, line)] (d, c, x) = Some (add_code (test_code (varName d) l cmp r 2) d, c', x) /\
    begin_block d c c'.
Proof.
  intros -> Hn Hl Hr Hcmp Hs.
  rewrite (compile_one n (if_line l cmp r)) by (done || by eapply if_line_words).
  rewrite compile_if_line by done. eexists. split; [reflexivity|].
  split; [done|]. eexists. split; [reflexivity|]. done.
Qed.

Lemma compile_endif_line n d c (x : X) :
  mSymbols c = ∅ ->
  compile_lines [(n, print_words ["endif"])] (d, c, x) =
  '(d', c') ← compile_endif d (set_tokens ["endif"] (set_line n c)); Some (d', c', x).
Proof. intros Hs. by rewrite (compile_one n ["endif"]). Qed.

Lemma compile_else_line n d c bs b closed (x : X) :
  mSymbols c = ∅ -> mBlockData c = bs ++ b :: closed -> mResolved b = false -> closed_blocks closed ->
  exists c', compile_lines [(n, print_words ["else"])] (d, c, x) =
      Some (add_code [mkOp (op_code OP_JMP) (Script.curInst d + 1) 0 0] d, c', x) /\
    mBlockData c' = bs ++ else_block (Script.curInst d) b :: closed /\ same_tables c c'.
Proof.
  intros Hs Hbs Hb Hc. rewrite (compile_one n ["else"]) by done.
  change (compile_tokens (d, set_tokens ["else"] (set_line n c), x))
    with (Some (compile_else d (set_tokens ["else"] (set_line n c)), x)).
  unfold compile_else, GetLastUnresolvedBlock. cbn [set_tokens set_line mBlockData].
  rewrite Hbs, open_block_found, push_add_code by done.
  eexists. split; [reflexivity|]. cbn [set_blocks mBlockData]. by rewrite middle_alter.
Qed.

Lemma compile_recompare_line n d c bs b closed (x : X) :
  mSymbols c = ∅ -> mBlockData c = bs ++ b :: closed -> mResolved b = false -> closed_blocks closed ->
  compile_lines [(n, print_words ["recompare"])] (d, c, x) =
    Some (add_code [mkOp (op_code OP_JMP) (mInstIndex b - 2) 0 0] d,
          set_tokens ["recompare"] (set_line n c), x).
Proof.
  intros Hs Hbs Hb Hc. rewrite (compile_one n ["recompare"]) by done.
  change (compile_tokens (d, set_tokens ["recompare"] (set_line n c), x))
    with (Some (compile_recompare d (set_tokens ["recompare"] (set_line n c)),
                set_tokens ["recompare"] (set_line n c), x)).
  unfold compile_recompare, GetLastUnresolvedBlock. cbn [set_tokens set_line mBlockData].
  by rewrite Hbs, open_block_found, middle_lookup, push_add_code.
Qed.

(** ** Statements *)

Lemma numbered_one (n1 : list (Z * string)) ws :
  print_words <$> [ws] = snd <$> n1 -> exists k, n1 = [(k, print_words ws)].
Proof. destruct n1 as [|[k l] [|]]; [done| |done]. intros [= ->]. by exists k. Qed.

Lemma numbered_app (n : list (Z * string)) w1 w2 :
  snd <$> n = print_words <$> (w1 ++ w2) ->
  exists n1 n2, n = n1 ++ n2 /\ snd <$> n1 = print_words <$> w1 /\ snd <$> n2 = print_words <$> w2.
Proof.
  rewrite fmap_app. intros (n1 & n2 & E1 & E2 & ->)%fmap_app_inv. by exists n1, n2.
Qed.

Definition compiles_stmt (s : stmt) : Prop :=
  forall d, Forall (fun v => name_okb v = true) (varName d) ->
    Script.curInst d = len (instr d) -> stmt_okb (varName d) s = true ->
    compiles_to (words s) d (add_code (code_of (varName d) s (Script.curInst d)) d).

Lemma add_code_cur l d : Script.curInst d = len (instr d) ->
  Script.curInst (add_code l d) = len (instr (add_code l d)).
Proof. intros E. cbn [add_code Script.curInst instr]. rewrite length_app. lia. Qed.

Lemma test_code_app vs l c r skip code :
  test_code vs l c r skip ++ code =
  [push_code vs r; push_code vs l] ++ mkOp (op_code OP_CMP) (cmp_code c) skip 0 :: code.
Proof. done. Qed.

Lemma compile_stmt_if l c r s : compiles_stmt s -> compiles_stmt (If l c r s).
Proof.
  intros IH d Hn Hcur Hok comp x numbered E Hs.
  cbn [stmt_okb] in Hok. rewrite !andb_true_iff in Hok. destruct Hok as [[[Hl Hr] Hc] Hok].
  apply bool_decide_eq_true in Hc. cbn [words] in E.
  apply numbered_app in E as (n1 & n2 & -> & E1 & E2).
  apply numbered_app in E2 as (n3 & n4 & -> & E3 & E4).
  destruct (numbered_one n1 _ (eq_sym E1)) as [k1 ->].
  destruct (numbered_one n4 _ (eq_sym E4)) as [k4 ->].
  destruct (compile_begin k1 _ l c r d comp x eq_refl Hn Hl Hr Hc Hs)
    as (c1 & R1 & [S1 P1] & b & B1 & Hb & Hu & Hi).
  set (d1 := add_code (test_code (varName d) l c r 2) d) in *.
  destruct (IH d1 Hn ltac:(by apply add_code_cur) Hok c1 x n3 E3 ltac:(congruence))
    as (c2 & closed & R2 & [S2 P2] & B2 & C2).
  rewrite !compile_lines_app, R1. cbn [mbind option_bind].
  rewrite compile_lines_app, R2. cbn [mbind option_bind].
  rewrite compile_endif_line by congruence.
  change (varName d1) with (varName d).
  cbn [code_of]. replace (Script.curInst d1) with (Script.curInst d + 3) by (cbn; lia).
  set (code := code_of (varName d) s (Script.curInst d + 3)).
  unfold d1. rewrite add_code_app, !test_code_app.
  destruct (compile_endif_if d (set_tokens ["endif"] (set_line k4 c2)) [push_code (varName d) r; push_code (varName d) l]
    (mkOp (op_code OP_CMP) (cmp_code c) 2 0) code (mBlockData comp) b closed) as (c3 & -> & B3 & [S3 P3]).
  { cbn [mBlockData set_tokens set_line]. by rewrite B2, B1, <- app_assoc. }
  { done. } { done. } { done. } { cbn [length]. lia. }
  cbn [mbind option_bind]. exists c3, (resolve_block b :: closed).
  split_and!; [|split; cbn in *; congruence|done|by constructor].
  cbn [put_param2 opCode param1 param3].
  by replace (Script.curInst d - len (instr d) + len code + 1) with (len code + 1) by lia.
Qed.

Lemma compile_stmt_else l c r s1 s2 :
  compiles_stmt s1 -> compiles_stmt s2 -> compiles_stmt (IfElse l c r s1 s2).
Proof.
  intros IH1 IH2 d Hn Hcur Hok comp x numbered E Hs.
  cbn [stmt_okb] in Hok. rewrite !andb_true_iff in Hok. destruct Hok as [[[[Hl Hr] Hc] Hok1] Hok2].
  apply bool_decide_eq_true in Hc. cbn [words] in E.
  apply numbered_app in E as (n1 & n2 & -> & E1 & E2).
  apply numbered_app in E2 as (n3 & n4 & -> & E3 & E4).
  apply numbered_app in E4 as (n5 & n6 & -> & E5 & E6).
  apply numbered_app in E6 as (n7 & n8 & -> & E7 & E8).
  destruct (numbered_one n1 _ (eq_sym E1)) as [k1 ->].
  destruct (numbered_one n5 _ (eq_sym E5)) as [k5 ->].
  destruct (numbered_one n8 _ (eq_sym E8)) as [k8 ->].
  destruct (compile_begin k1 _ l c r d comp x eq_refl Hn Hl Hr Hc Hs)
    as (c1 & R1 & [S1 P1] & b & B1 & Hb & Hu & Hi).
  set (d1 := add_code (test_code (varName d) l c r 2) d) in *.
  destruct (IH1 d1 Hn ltac:(by apply add_code_cur) Hok1 c1 x n3 E3 ltac:(congruence))
    as (c2 & cl1 & R2 & [S2 P2] & B2 & C2).
  set (code1 := code_of (varName d1) s1 (Script.curInst d1)) in *.
  destruct (compile_else_line k5 (add_code code1 d1) c2 (mBlockData comp) b cl1 x)
    as (c3 & R3 & B3 & [S3 P3]); [congruence|by rewrite B2, B1, <- app_assoc|done|done|].
  set (d3 := add_code _ (add_code code1 d1)) in R3.
  destruct (IH2 d3 Hn ltac:(by repeat apply add_code_cur) Hok2 c3 x n7 E7 ltac:(congruence))
    as (c4 & cl2 & R4 & [S4 P4] & B4 & C4).
  set (code2 := code_of (varName d3) s2 (Script.curInst d3)) in *.
  rewrite !compile_lines_app, R1. cbn [mbind option_bind].
  rewrite compile_lines_app, R2. cbn [mbind option_bind].
  rewrite compile_lines_app, R3. cbn [mbind option_bind].
  rewrite compile_lines_app, R4. cbn [mbind option_bind].
  rewrite compile_endif_line by congruence.
  set (jmp := mkOp (op_code OP_JMP) (Script.curInst (add_code code1 d1) + 1) 0 0) in d3.
  assert (add_code code2 d3 = add_code ([push_code (varName d) r; push_code (varName d) l] ++
      mkOp (op_code OP_CMP) (cmp_code c) 2 0 :: code1 ++ jmp :: code2) d) as ->.
  { unfold d3, d1. by rewrite !add_code_app. }
  destruct (compile_endif_else d (set_tokens ["endif"] (set_line k8 c4)) [push_code (varName d) r; push_code (varName d) l]
    (mkOp (op_code OP_CMP) (cmp_code c) 2 0) code1 jmp code2 (mBlockData comp)
    (else_block (Script.curInst (add_code code1 d1)) b) (cl1 ++ cl2)) as (c5 & -> & B5 & [S5 P5]).
  { cbn [mBlockData set_tokens set_line]. rewrite B4, B3, <- app_assoc. done. }
  { done. } { done. } { by apply Forall_app. } { cbn [length else_block mInstIndex]. lia. }
  { cbn [else_block mInstIndexElse add_code Script.curInst d1 length test_code]. lia. }
  cbn [mbind option_bind]. eexists c5, (_ :: cl1 ++ cl2).
  split_and!; [|split; cbn in *; congruence|exact B5|constructor; [done|by apply Forall_app]].
  assert (code1 = code_of (varName d) s1 (Script.curInst d + 3)) as Ec1
    by (unfold code1; by replace (Script.curInst d1) with (Script.curInst d + 3) by (cbn; lia)).
  assert (code2 = code_of (varName d) s2 (Script.curInst d + 3 + len code1 + 1)) as Ec2
    by (unfold code2; by replace (Script.curInst d3) with (Script.curInst d + 3 + len code1 + 1) by (cbn; lia)).
  cbn [code_of]. rewrite <- Ec1, <- Ec2, test_code_app. cbn [put_param2 put_param1 opCode param1 param2 param3 jmp length].
  do 4 f_equal. cbn [app]. unfold jmp, put_param1. cbn [opCode param2 param3]. 
  by replace (Script.curInst d + Z.of_nat 2 + 1 + len code1 + 1 + len code2)
    with (Script.curInst d + 3 + len code1 + 1 + len code2) by lia.
Qed.

Lemma compile_stmt_while l c r s : compiles_stmt s -> compiles_stmt (While l c r s).
Proof.
  intros IH d Hn Hcur Hok comp x numbered E Hs.
  cbn [stmt_okb] in Hok. rewrite !andb_true_iff in Hok. destruct Hok as [[[Hl Hr] Hc] Hok].
  apply bool_decide_eq_true in Hc. cbn [words] in E.
  apply numbered_app in E as (n1 & n2 & -> & E1 & E2).
  apply numbered_app in E2 as (n3 & n4 & -> & E3 & E4).
  apply (numbered_app n4 [["recompare"]] [["endif"]]) in E4 as (n5 & n6 & -> & E5 & E6).
  destruct (numbered_one n1 _ (eq_sym E1)) as [k1 ->].
  destruct (numbered_one n5 _ (eq_sym E5)) as [k5 ->].
  destruct (numbered_one n6 _ (eq_sym E6)) as [k6 ->].
  destruct (compile_begin k1 _ l c r d comp x eq_refl Hn Hl Hr Hc Hs)
    as (c1 & R1 & [S1 P1] & b & B1 & Hb & Hu & Hi).
  set (d1 := add_code (test_code (varName d) l c r 2) d) in *.
  destruct (IH d1 Hn ltac:(by apply add_code_cur) Hok c1 x n3 E3 ltac:(congruence))
    as (c2 & closed & R2 & [S2 P2] & B2 & C2).
  rewrite !compile_lines_app, R1. cbn [mbind option_bind].
  rewrite compile_lines_app, R2. cbn [mbind option_bind].
  rewrite compile_lines_app.
  assert (mBlockData c2 = mBlockData comp ++ b :: closed) as B2' by by rewrite B2, B1, <- app_assoc.
  rewrite (compile_recompare_line k5 _ c2 (mBlockData comp) b closed) by (done || congruence).
  cbn [mbind option_bind]. rewrite compile_endif_line by (cbn; congruence).
  change (varName d1) with (varName d).
  cbn [code_of]. replace (Script.curInst d1) with (Script.curInst d + 3) by (cbn; lia).
  set (code := code_of (varName d) s (Script.curInst d + 3)).
  replace (mInstIndex b - 2) with (Script.curInst d) by lia.
  unfold d1. rewrite !add_code_app, !test_code_app.
  set (tail := code ++ [mkOp (op_code OP_JMP) (Script.curInst d) 0 0]).
  set (c3 := set_tokens ["endif"] _).
  destruct (compile_endif_if d c3 [push_code (varName d) r; push_code (varName d) l]
    (mkOp (op_code OP_CMP) (cmp_code c) 2 0) tail (mBlockData comp) b closed) as (c4 & -> & B4 & [S4 P4]).
  { done. } { done. } { done. } { done. } { cbn [length]. lia. }
  cbn [mbind option_bind]. exists c4, (resolve_block b :: closed).
  split_and!; [|split; cbn in *; congruence|done|by constructor].
  cbn [put_param2 opCode param1 param3].
  replace (Script.curInst d - len (instr d) + len tail + 1) with (len code + 2); [done|].
  unfold tail. rewrite length_app. cbn [length]. lia.
Qed.

Lemma compile_stmt_ok s : compiles_stmt s.
Proof.
  induction s as [v|v|v n|v w|s1 IH1 s2 IH2|l c r s IH|l c r s1 IH1 s2 IH2|l c r s IH].
  6: by apply compile_stmt_if. 6: by apply compile_stmt_else. 6: by apply compile_stmt_while.
  all: intros d Hn Hcur Hok; cbn [words code_of stmt_okb expr_okb] in *;
    rewrite ?andb_true_iff, ?bool_decide_eq_true in Hok.
  1-4: assert (forall v, v ∈ varName d -> token_okb (Word v) = true) as Hw
    by (intros v' Hv'; rewrite list.Forall_forall in Hn; by apply name_ok_word, Hn).
  - apply compiles_line; [unfold words_okb; cbn [forallb]; by rewrite (Hw v)|].
    intros. by apply compile_inc.
  - apply compiles_line; [unfold words_okb; cbn [forallb]; by rewrite (Hw v)|].
    intros. by apply compile_dec.
  - destruct Hok as [Hv Hnum]. apply compiles_line.
    + unfold words_okb. cbn [forallb]. by rewrite (Hw v), number_word.
    + intros. rewrite compile_set by done. rewrite atoi_sprintf_d_lemma; [done|].
      rewrite Z.leb_le, Z.ltb_lt in Hnum. unfold in_signed. simpl. lia.
  - destruct Hok as [Hv Hw2]. apply compiles_line.
    + unfold words_okb. cbn [forallb]. by rewrite (Hw v), (Hw w).
    + intros. by apply compile_copy.
  - destruct Hok as [Hok1 Hok2]. rewrite <- add_code_app.
    eapply compiles_app; [by apply IH1|].
    apply (IH2 (add_code _ d)); [done|by apply add_code_cur|done].
Qed.
End Compiling.
