(* ===== verification/ScriptRefine.v ===== *)
(** * Running a compiled structured script is its meaning

    The text of a program of [ScriptImp], read from its file, compiled and run by
    the interpreter, ends exactly when the program does and leaves its variables
    with the values the meaning of the program gives them. *)

From S2P Require Import Prelude Text FileReader Script ScriptPlayer ScriptTypes ScriptSafety.
From S2P Require Import ScriptRun ScriptText ScriptImp.

(** ** The lines of a program are readable *)

Definition good_word (w : string) : bool :=
  token_okb (Word w) && all_chars line_char w && (String.length w <? 1000)%nat.

Definition good_line (ws : list string) : bool :=
  (0 <? length ws)%nat && (length ws <=? 4)%nat && forallb good_word ws.

Lemma print_digits_length base fuel : forall n acc,
  (String.length (print_digits fuel base n acc) <= fuel + String.length acc)%nat.
Proof.
  induction fuel as [|fuel IH]; intros n acc; cbn [print_digits]; [lia|].
  destruct (_ <? _); [simpl; lia|]. etrans; [apply IH|]. simpl. lia.
Qed.

Lemma sprintf_d_length n : - 2 ^ 31 <= n < 2 ^ 31 -> (String.length (sprintf_d n) <= 40)%nat.
Proof.
  intros Hn.
  assert (forall m, 0 <= m <= 2 ^ 31 -> (String.length (print_unsigned 10 m) <= 32)%nat) as H.
  { intros m Hm. unfold print_unsigned. etrans; [apply print_digits_length|].
    assert (Z.log2 m <= 31) by (change 31 with (Z.log2 (2 ^ 31)); apply Z.log2_le_mono; lia).
    pose proof (Z.log2_nonneg m). simpl String.length. lia. }
  unfold sprintf_d. case_test; to_prop.
  - cbn [String.length]. specialize (H (- n) ltac:(lia)). lia.
  - specialize (H n ltac:(lia)). lia.
Qed.

Lemma name_good x : name_okb x = true -> good_word x = true.
Proof.
  intros Hx. unfold good_word. rewrite name_ok_word by done.
  unfold name_okb in Hx. rewrite !andb_true_iff in Hx. destruct Hx as [[_ Hx] Hl].
  rewrite Hl, andb_true_r. cbn [andb]. eapply all_chars_mono; [|exact Hx].
  intros c Hc. by apply name_char_facts in Hc as (_ & ? & _).
Qed.

Lemma number_good n : - 2 ^ 31 <= n < 2 ^ 31 -> good_word (sprintf_d n) = true.
Proof.
  intros Hn. unfold good_word. rewrite number_word. destruct (sprintf_d_chars n) as [Ha _].
  pose proof (sprintf_d_length n Hn). rewrite (proj2 (Nat.ltb_lt _ _)) by lia.
  rewrite andb_true_r. cbn [andb]. eapply all_chars_mono; [|exact Ha].
  intros c Hc. by apply number_char_facts in Hc as (_ & ? & _).
Qed.

Lemma strip_end_solid p a w :
  w <> EmptyString -> all_chars (fun c => negb (p c)) w = true -> strip_end p (a +:+ w) = a +:+ w.
Proof.
  intros Hne Hw.
  assert (strip_end p w = w) as E.
  { induction w as [|c w IH]; [done|]. cbn [all_chars strip_end] in *.
    apply andb_true_iff in Hw as [Hc Hw]. apply negb_true_iff in Hc. rewrite Hc.
    destruct w as [|c2 w]; [done|]. by rewrite IH. }
  induction a as [|c a IH]; [exact E|].
  change (String c a +:+ w) with (String c (a +:+ w)). cbn [strip_end]. rewrite IH.
  by destruct a, w.
Qed.

Lemma good_word_facts w :
  good_word w = true ->
  w <> EmptyString /\ all_chars word_char w = true /\ all_chars line_char w = true /\
  (String.length w < 1000)%nat.
Proof.
  unfold good_word. cbn [token_okb]. rewrite !andb_true_iff, negb_true_iff.
  intros [[[Hne Hw] Hl] Hlen]. apply String.eqb_neq in Hne. apply Nat.ltb_lt in Hlen. done.
Qed.

Lemma print_words_good ws :
  ws <> [] -> forallb good_word ws = true ->
  all_chars line_char (print_words ws) = true /\
  (String.length (print_words ws) <= 1000 * length ws)%nat /\
  exists a w, print_words ws = a +:+ w /\ good_word w = true.
Proof.
  unfold print_words. induction ws as [|w ws IH]; intros Hne Hws; [done|].
  cbn [forallb] in Hws. apply andb_true_iff in Hws as [Hw Hws].
  destruct (good_word_facts w Hw) as (_ & _ & Hl & Hlen).
  destruct ws as [|w2 ws].
  - change (Join [w] one_space) with w. split_and!; [done|simpl; lia|by exists EmptyString, w].
  - destruct (IH ltac:(done) Hws) as (IH1 & IH2 & a & w3 & E & Hw3).
    rewrite join_cons by done. split_and!.
    + rewrite !all_chars_app, Hl, IH1. done.
    + rewrite !string_length_app. change (String.length one_space) with 1%nat.
      cbn [length] in *. lia.
    + exists (w +:+ one_space +:+ a), w3. by rewrite E, !string_app_assoc.
Qed.

Lemma good_line_ok ws : good_line ws = true -> line_okb (print_words ws) = true.
Proof.
  unfold good_line. rewrite !andb_true_iff. intros [[Hne%Nat.ltb_lt H4%Nat.leb_le] Hws].
  destruct (print_words_good ws) as (Hc & Hlen & a & w & E & Hw); [by destruct ws; [simpl in Hne; lia|]|done|].
  unfold line_okb. rewrite Hc. cbn [andb]. apply andb_true_iff. split.
  - apply Nat.ltb_lt. change (BUFFERSIZE - 1)%nat with (4 * 1000 + 95)%nat. lia.
  - apply String.eqb_eq. rewrite E. destruct (good_word_facts w Hw) as (Hne' & Hwc & _).
    apply strip_end_solid; [done|]. eapply all_chars_mono; [|exact Hwc].
    unfold word_char. intros c. rewrite andb_true_iff. tauto.
Qed.

Lemma expr_good vs e :
  Forall (fun v => name_okb v = true) vs -> expr_okb vs e = true -> good_word (expr_text e) = true.
Proof.
  intros Hn He. destruct e as [n|v]; cbn [expr_okb expr_text] in *.
  - rewrite andb_true_iff, Z.leb_le, Z.ltb_lt in He. by apply number_good.
  - apply bool_decide_eq_true in He. rewrite list.Forall_forall in Hn. by apply name_good, Hn.
Qed.

Lemma words_good vs s :
  Forall (fun v => name_okb v = true) vs -> stmt_okb vs s = true -> Forall (fun ws => good_line ws = true) (words s).
Proof.
  intros Hn.
  assert (forall v, v ∈ vs -> good_word v = true) as Hv.
  { intros v Hv. rewrite list.Forall_forall in Hn. by apply name_good, Hn. }
  assert (forall l c r, expr_okb vs l = true -> expr_okb vs r = true -> good_line (if_line l c r) = true) as Hif.
  { intros l c r Hl Hr. unfold good_line, if_line. cbn [forallb].
    rewrite (expr_good vs l), (expr_good vs r) by done. by destruct c. }
  induction s as [v|v|v n|v w|s1 IH1 s2 IH2|l c r s IH|l c r s1 IH1 s2 IH2|l c r s IH];
    cbn [stmt_okb words]; rewrite ?andb_true_iff, ?bool_decide_eq_true; intros Hok.
  - apply Forall_singleton. unfold good_line. cbn [forallb]. by rewrite (Hv v).
  - apply Forall_singleton. unfold good_line. cbn [forallb]. by rewrite (Hv v).
  - destruct Hok as [H1 H2]. apply Forall_singleton. unfold good_line. cbn [forallb].
    rewrite (Hv v) by done. pose proof (expr_good vs (Num n) Hn H2) as E. cbn [expr_text] in E.
    by rewrite E.
  - destruct Hok as [H1 H2]. apply Forall_singleton. unfold good_line. cbn [forallb].
    by rewrite (Hv v), (Hv w).
  - destruct Hok. apply Forall_app. auto.
  - destruct Hok as [[[Hl Hr] _] Hs]. repeat (apply Forall_app; split); auto; apply Forall_singleton; auto.
  - destruct Hok as [[[[Hl Hr] _] Hs1] Hs2].
    repeat (apply Forall_app; split); auto; apply Forall_singleton; auto.
  - destruct Hok as [[[Hl Hr] _] Hs]. apply Forall_app. split; [apply Forall_singleton; auto|].
    apply Forall_app. split; [auto|]. by repeat constructor.
Qed.

(** ** The compiled program *)

(** The definition a program compiles to. *)
Definition program_def (vs : list string) (s : stmt) : ScriptDef :=
  add_code (program_code vs s) (set_varName vs newDef).

Lemma slot_fresh pre v post : v ∉ pre -> slot (pre ++ v :: post) v = len pre.
Proof.
  intros Hv. unfold slot, string_index. induction pre as [|w pre IH]; cbn [app find_idx].
  - by rewrite String.eqb_refl.
  - rewrite (proj2 (String.eqb_neq w v)) by (intros ->; apply Hv; by left).
    assert (v ∉ pre) as Hv' by (intros Hin; apply Hv; by right). specialize (IH Hv').
    destruct (find_idx _ (pre ++ v :: post)) as [i|]; simpl in *; lia.
Qed.

Section Program.
Context {X : Type} `{!CompilerHost X} (Hplain : leaves_plain).

Lemma compile_declarations post : forall pre code,
  Forall (fun v => name_okb v = true) post -> NoDup (pre ++ post) ->
  compiles_to ((fun x => ["set"; x; "0"]) <$> post)
    (add_code code (set_varName pre newDef))
    (add_code (code ++ ((fun x => mkOp (op_code OP_SET) (slot (pre ++ post) x) 0 0) <$> post))
       (set_varName (pre ++ post) newDef)).
Proof.
  induction post as [|v post IH]; intros pre code Hn Hnd.
  - rewrite !app_nil_r. apply compiles_nil.
  - apply list.Forall_cons in Hn as [Hv Hn].
    assert (v ∉ pre) as Hfresh.
    { apply list.NoDup_app in Hnd as (_ & Hd & _). intros Hin. apply (Hd v Hin). by left. }
    rewrite fmap_cons.
    apply (compiles_app [["set"; v; "0"]] _ _
      (add_code (code ++ [mkOp (op_code OP_SET) (len pre) 0 0]) (set_varName (pre ++ [v]) newDef))).
    + apply compiles_line.
      { unfold words_okb. cbn [forallb]. by rewrite (name_ok_word v). }
      intros c x. rewrite compile_declare by done.
      change (atoi "0") with 0. cbn [add_code varName set_varName].
      rewrite <- add_code_app. done.
    + specialize (IH (pre ++ [v]) (code ++ [mkOp (op_code OP_SET) (len pre) 0 0]) Hn).
      rewrite <- !app_assoc in IH. cbn [app] in IH. specialize (IH Hnd).
      rewrite fmap_cons, slot_fresh by done. exact IH.
Qed.

Lemma compile_program vs s (x : X) :
  program_okb vs s = true ->
  CompileFromSource (Some (program_text vs s)) newDef x = Some (program_def vs s, x).
Proof.
  unfold program_okb. rewrite !andb_true_iff, forallb_forall, bool_decide_eq_true.
  intros [[Hn Hnd] Hok].
  assert (Forall (fun v => name_okb v = true) vs) as Hnames.
  { apply list.Forall_forall. intros v Hv. apply Hn. by apply list_elem_of_In. }
  rewrite CompileFromSource_lines. unfold source_lines, compile_source.
  destruct (read_file_lines (print_words <$> program_words vs s) (file_fuel (program_text vs s))
    (set_CommentStyle Comment_Semi (OpenText (program_text vs s)))) as (numbered & -> & Hlines);
    try done.
  { unfold program_words. intros E. apply (f_equal length) in E.
    rewrite length_fmap, !length_app in E. cbn [length] in E. lia. }
  { apply forallb_forall. intros l Hl%list_elem_of_In.
    apply list_elem_of_fmap in Hl as (ws & -> & Hws). apply good_line_ok.
    unfold program_words in Hws. rewrite !elem_of_app, list_elem_of_singleton in Hws.
    destruct Hws as [Hws|[Hws| ->]]; [| |done].
    - apply list_elem_of_fmap in Hws as (v & -> & Hv). unfold good_line. cbn [forallb].
      rewrite list.Forall_forall in Hnames. by rewrite (name_good v) by auto.
    - pose proof (words_good vs s Hnames Hok) as Hg. rewrite list.Forall_forall in Hg. auto. }
  { pose proof (Join_length_lines (print_words <$> program_words vs s)).
    unfold file_fuel, program_text. lia. }
  cbn [default from_option id].
  set (d1 := add_code ((fun x => mkOp (op_code OP_SET) (slot vs x) 0 0) <$> vs) (set_varName vs newDef)).
  assert (compiles_to (program_words vs s) newDef (program_def vs s)) as Hc.
  { unfold program_words. apply (compiles_app _ _ _ d1).
    { apply (compile_declarations vs [] [] Hnames Hnd). }
    assert (Script.curInst d1 = len vs) as Hcur
      by (unfold d1; cbn [add_code Script.curInst]; by rewrite length_fmap).
    assert (Script.curInst d1 = len (instr d1)) as Hcur2 by (by apply add_code_cur).
    apply (compiles_app _ _ _ (add_code (code_of vs s (len vs)) d1)).
    - rewrite <- Hcur. by apply (compile_stmt_ok Hplain s d1).
    - apply compiles_line; [done|]. intros c y. rewrite compile_end by done.
      unfold program_def, program_code, d1. by rewrite !add_code_app. }
  destruct (Hc newCompiler x numbered Hlines eq_refl) as (c' & closed & -> & [Hs Hp] & _).
  cbn [mbind option_bind]. unfold FinalizeCompile. rewrite Hp. cbn [mPendingLabelReference newCompiler resolve_pending mbind option_bind].
  reflexivity.
Qed.
End Program.

(** ** Running the code *)

(** [l] is what the script holds from [pc] on. *)
Definition code_at (d : ScriptDef) (pc : Z) (l : list OpData) : Prop :=
  exists l1 l2, instr d = l1 ++ l ++ l2 /\ pc = len l1.

Lemma code_at_app d pc a b :
  code_at d pc (a ++ b) -> code_at d pc a /\ code_at d (pc + len a) b.
Proof.
  intros (l1 & l2 & E & ->). split.
  - exists l1, (b ++ l2). by rewrite E, <- app_assoc.
  - exists (l1 ++ a), l2. split; [by rewrite E, <- !app_assoc|]. rewrite length_app. lia.
Qed.

Lemma code_at_head d pc o l : code_at d pc (o :: l) -> 0 <= pc /\ instr d !! Z.to_nat pc = Some o.
Proof.
  intros (l1 & l2 & E & ->). split; [lia|]. rewrite Nat2Z.id, E.
  change ((o :: l) ++ l2) with (o :: (l ++ l2)). apply middle_lookup.
Qed.

Section Machine.
Context {W : Type} `{!PlayerHost W} (now : Z) (d : ScriptDef) (Hsmall : len (instr d) <= 32765).
Local Abbreviation vs := (varName d).
Context (Hnodup : NoDup vs) (Hvars : len vs <= len (instr d)).

Definition vm_step (st st' : ScriptPlayer * W) : Prop :=
  running now (fst st) = true /\ RunSingleInstruction now d st = Some (false, st').

(** The machine is at [pc], its variables are those of the store, its stack holds [stk]. *)
Record vm_state (sigma : store) (pc : Z) (stk : list Z) (p : ScriptPlayer) : Prop := {
  vm_place : curInst p = pc;
  vm_exec : mExecuting p = true;
  vm_active : mActive p = true;
  vm_time : nextFire p <= now;
  vm_stack : varStack p = stk;
  vm_vars : vars p = sigma <$> vs }.

Lemma vm_ready (sigma : store) pc stk p o l :
  vm_state sigma pc stk p -> code_at d pc (o :: l) -> ready now d p o.
Proof.
  intros [] Hc. apply code_at_head in Hc as [H1 H2]. subst pc. by split_and!.
Qed.

(** One step, from what the instruction does. *)
Lemma vm_one (sigma : store) pc stk p w o l b p1 :
  vm_state sigma pc stk p -> code_at d pc (o :: l) ->
  exec_core now d o (set_advance 1 p) = Some (Some (b, p1)) ->
  RunSingleInstruction now d (p, w) = Some (b, (set_curInst (curInst p1 + advance p1) p1, w)) /\
  running now p = true.
Proof.
  intros Hs Hc He. pose proof (vm_ready _ _ _ _ _ _ Hs Hc) as Hr.
  rewrite (ready_step now d p w o Hr). unfold exec_instruction. rewrite He. split; [done|].
  by eapply ready_running.
Qed.

Lemma slot_lookup v : v ∈ vs -> exists i, slot vs v = Z.of_nat i /\ vs !! i = Some v.
Proof.
  intros (i & E & Hi)%string_index_slot. exists i. split; [by apply slot_index|done].
Qed.

Lemma read_slot (sigma : store) v : v ∈ vs -> at_index (sigma <$> vs) (slot vs v) = Some (sigma v).
Proof.
  intros (i & -> & Hi)%slot_lookup. unfold at_index.
  rewrite (proj2 (Z.ltb_ge _ 0)) by lia. by rewrite Nat2Z.id, list_lookup_fmap, Hi.
Qed.

Lemma write_slot (sigma : store) v x i :
  vs !! i = Some v -> <[i := x]> (sigma <$> vs) = update v x sigma <$> vs.
Proof.
  intros Hi. apply list_eq. intros j. rewrite list_lookup_fmap.
  destruct (decide (j = i)) as [->|Hne].
  - rewrite list_lookup_insert_eq by (rewrite length_fmap; by eapply lookup_lt_Some).
    rewrite Hi. simpl. unfold update. by rewrite bool_decide_true.
  - rewrite list_lookup_insert_ne, list_lookup_fmap by done.
    destruct (vs !! j) as [u|] eqn:E; [|done]. simpl. unfold update.
    rewrite bool_decide_false; [done|]. intros ->. apply Hne. by eapply NoDup_lookup.
Qed.

Lemma SetVar_slot (sigma : store) v x p :
  v ∈ vs -> vars p = sigma <$> vs -> SetVar (slot vs v) x p = set_vars (update v x sigma <$> vs) p.
Proof.
  intros (i & -> & Hi)%slot_lookup Hv. pose proof (lookup_lt_Some _ _ _ Hi).
  unfold SetVar. rewrite unsigned_id by (split; lia). rewrite Hv, length_fmap.
  rewrite (proj2 (Z.leb_gt _ _)) by lia. by rewrite Nat2Z.id, (write_slot _ v).
Qed.

Lemma add_var_slot (sigma : store) v k p :
  v ∈ vs -> vars p = sigma <$> vs ->
  add_var (slot vs v) k p = Some (set_vars (update v (i32 (sigma v + k)) sigma <$> vs) p).
Proof.
  intros Hv Hp. unfold add_var. rewrite Hp, read_slot by done. simpl.
  destruct (slot_lookup v Hv) as (i & -> & Hi). by rewrite Nat2Z.id, (write_slot _ v).
Qed.

Lemma GetVarValue_slot (sigma : store) v p :
  v ∈ vs -> vars p = sigma <$> vs -> GetVarValue (slot vs v) p = sigma v.
Proof. intros Hv Hp. unfold GetVarValue. by rewrite Hp, read_slot. Qed.

(** The machine goes from one state to another in [n] steps. *)
Definition goes (n : nat) (p p' : ScriptPlayer) : Prop :=
  forall w : W, nsteps vm_step n (p, w) (p', w).

Lemma goes_trans n1 n2 p1 p2 p3 : goes n1 p1 p2 -> goes n2 p2 p3 -> goes (n1 + n2) p1 p3.
Proof. intros H1 H2 w. by eapply nsteps_trans. Qed.

Lemma goes_one (sigma : store) pc stk p o l p1 :
  vm_state sigma pc stk p -> code_at d pc (o :: l) ->
  exec_core now d o (set_advance 1 p) = Some (Some (false, p1)) ->
  goes 1 p (set_curInst (curInst p1 + advance p1) p1).
Proof.
  intros Hs Hc He w. destruct (vm_one sigma pc stk p w o l false p1 Hs Hc He).
  apply nsteps_once. done.
Qed.

(** The assignments. *)
Lemma goes_write (sigma : store) pc p o l v x :
  vm_state sigma pc [] p -> code_at d pc (o :: l) ->
  exec_core now d o (set_advance 1 p) =
    Some (Some (false, set_vars (update v x sigma <$> vs) (set_advance 1 p))) ->
  exists p', goes 1 p p' /\ vm_state (update v x sigma) (pc + 1) [] p'.
Proof.
  intros Hs Hc He. eexists. split; [by eapply goes_one|].
  destruct Hs. split; simpl; try done. lia.
Qed.

Lemma run_inc (sigma : store) pc p v :
  v ∈ vs -> vm_state sigma pc [] p -> code_at d pc [mkOp (op_code OP_INC) (slot vs v) 0 0] ->
  exists p', goes 1 p p' /\ vm_state (update v (i32 (sigma v + 1)) sigma) (pc + 1) [] p'.
Proof.
  intros Hv Hs Hc. eapply goes_write; [done..|]. unfold exec_core. cbn [opCode]. rewrite core_op_code.
  cbn [param1]. rewrite (add_var_slot sigma) by (done || apply Hs). done.
Qed.

Lemma run_dec (sigma : store) pc p v :
  v ∈ vs -> vm_state sigma pc [] p -> code_at d pc [mkOp (op_code OP_DEC) (slot vs v) 0 0] ->
  exists p', goes 1 p p' /\ vm_state (update v (i32 (sigma v - 1)) sigma) (pc + 1) [] p'.
Proof.
  intros Hv Hs Hc. eapply goes_write; [done..|]. unfold exec_core. cbn [opCode]. rewrite core_op_code.
  cbn [param1]. rewrite (add_var_slot sigma) by (done || apply Hs). done.
Qed.

Lemma run_set (sigma : store) pc p v n l :
  v ∈ vs -> vm_state sigma pc [] p -> code_at d pc (mkOp (op_code OP_SET) (slot vs v) n 0 :: l) ->
  exists p', goes 1 p p' /\ vm_state (update v n sigma) (pc + 1) [] p'.
Proof.
  intros Hv Hs Hc. eapply goes_write; [done..|]. unfold exec_core. cbn [opCode]. rewrite core_op_code.
  cbn [param1 param2]. rewrite (SetVar_slot sigma) by (done || apply Hs). done.
Qed.

Lemma run_copy (sigma : store) pc p v u :
  v ∈ vs -> u ∈ vs -> vm_state sigma pc [] p ->
  code_at d pc [mkOp (op_code OP_COPYVAR) (slot vs v) (slot vs u) 0] ->
  exists p', goes 1 p p' /\ vm_state (update u (sigma v) sigma) (pc + 1) [] p'.
Proof.
  intros Hv Hu Hs Hc. eapply goes_write; [done..|]. unfold exec_core. cbn [opCode]. rewrite core_op_code.
  cbn [param1 param2]. rewrite (GetVarValue_slot sigma) by (done || apply Hs).
  rewrite (SetVar_slot sigma) by (done || apply Hs). done.
Qed.

Lemma run_jump (sigma : store) pc p t l :
  vm_state sigma pc [] p -> code_at d pc (mkOp (op_code OP_JMP) t 0 0 :: l) ->
  exists p', goes 1 p p' /\ vm_state sigma t [] p'.
Proof.
  intros Hs Hc. eexists. split; [eapply goes_one; [done..|]|].
  - unfold exec_core. cbn [opCode]. rewrite core_op_code. reflexivity.
  - destruct Hs. split; simpl; try done. lia.
Qed.

(** A test: two pushes and the comparison. *)
Lemma run_push (sigma : store) pc stk p e l :
  expr_okb vs e = true -> (length stk <= 2)%nat -> vm_state sigma pc stk p ->
  code_at d pc (push_code vs e :: l) ->
  exists p', goes 1 p p' /\ vm_state sigma (pc + 1) (stk ++ [eval e sigma]) p'.
Proof.
  intros He Hstk Hs Hc.
  assert (exec_core now d (push_code vs e) (set_advance 1 p) =
    Some (Some (false, PushVarStack (eval e sigma) (set_advance 1 p)))) as Hexec.
  { destruct e as [n|v]; unfold exec_core; cbn [push_code opCode]; rewrite core_op_code; [done|].
    cbn [expr_okb] in He. apply bool_decide_eq_true in He. cbn [param1].
    rewrite (GetVarValue_slot sigma) by (done || apply Hs). done. }
  eexists. split; [by eapply goes_one|].
  assert (PushVarStack (eval e sigma) (set_advance 1 p) =
    set_varStack (stk ++ [eval e sigma]) (set_advance 1 p)) as ->.
  { unfold PushVarStack. cbn [varStack set_advance]. rewrite (vm_stack _ _ _ _ Hs).
    rewrite (proj2 (Z.ltb_ge MAX_STACK_SIZE _)) by (unfold MAX_STACK_SIZE; lia). done. }
  destruct Hs. split; simpl; try done. lia.
Qed.

Lemma compare_values_holds l c r sigma :
  compare_values (cmp_code c) (eval l sigma) (eval r sigma) = holds l c r sigma.
Proof. by destruct c. Qed.

Lemma run_test (sigma : store) pc p l c r skip rest :
  expr_okb vs l = true -> expr_okb vs r = true -> 0 <= skip <= len (instr d) ->
  vm_state sigma pc [] p -> code_at d pc (test_code vs l c r skip ++ rest) ->
  exists p', goes 3 p p' /\
    vm_state sigma (if holds l c r sigma then pc + 3 else pc + 2 + skip) [] p'.
Proof.
  intros Hl Hr Hskip Hs Hc. unfold test_code in Hc. cbn [app] in Hc.
  destruct (run_push sigma pc [] p r _ Hr ltac:(simpl; lia) Hs Hc) as (p1 & G1 & Hs1).
  apply (code_at_app d pc [_]) in Hc as [_ Hc]. cbn [length] in Hc.
  destruct (run_push sigma (pc + 1) [eval r sigma] p1 l _ Hl ltac:(simpl; lia) Hs1 Hc) as (p2 & G2 & Hs2).
  apply (code_at_app d (pc + 1) [_]) in Hc as [_ Hc]. cbn [length app] in Hc, Hs2.
  eexists. split.
  { eapply (goes_trans 1 2); [exact G1|]. eapply (goes_trans 1 1); [exact G2|].
    eapply goes_one; [exact Hs2|exact Hc|].
    unfold exec_core. cbn [opCode]. rewrite core_op_code. unfold PopVarStack at 1. cbn [varStack set_advance].
    rewrite (vm_stack _ _ _ _ Hs2).
    change (pop_back [eval r sigma; eval l sigma]) with (eval l sigma, [eval r sigma]). cbv beta iota.
    unfold PopVarStack. cbn [varStack set_varStack].
    change (pop_back [eval r sigma]) with (eval r sigma, @nil Z). cbv beta iota.
    cbn [param1 param2]. rewrite compare_values_holds, i16_small by lia. reflexivity. }
  destruct Hs2. destruct (holds l c r sigma); split; simpl; try done; lia.
Qed.

Lemma code_at_len pc l : code_at d pc l -> 0 <= pc /\ pc + len l <= len (instr d).
Proof. intros (l1 & l2 & E & ->). rewrite E, !length_app. lia. Qed.

Lemma vm_state_pc sigma pc pc' stk p : vm_state sigma pc stk p -> pc = pc' -> vm_state sigma pc' stk p.
Proof. by intros ? <-. Qed.

(** ** Terminating programs *)

Definition runs_to (s : stmt) (sigma sigma' : store) : Prop :=
  forall pc p, stmt_okb vs s = true -> code_at d pc (code_of vs s pc) -> vm_state sigma pc [] p ->
    exists n p', goes n p p' /\ vm_state sigma' (pc + len (code_of vs s pc)) [] p'.

(** The three parts of the code of a conditional, and what its test does. *)
Lemma run_condition sigma pc p l c r skip code rest :
  expr_okb vs l = true -> expr_okb vs r = true ->
  code_at d pc (test_code vs l c r skip ++ code ++ rest) -> vm_state sigma pc [] p ->
  0 <= skip <= len code + 3 ->
  code_at d (pc + 3) code /\ code_at d (pc + 3 + len code) rest /\
  exists p', goes 3 p p' /\ vm_state sigma (if holds l c r sigma then pc + 3 else pc + 2 + skip) [] p'.
Proof.
  intros Hl Hr Hc Hs Hskip. pose proof (code_at_len _ _ Hc) as Hlen.
  rewrite !length_app in Hlen. cbn [test_code length] in Hlen.
  split_and!; [| |eapply run_test; try done; lia].
  - apply code_at_app in Hc as [_ Hc]. by apply code_at_app in Hc as [Hc _].
  - apply code_at_app in Hc as [_ Hc]. by apply code_at_app in Hc as [_ Hc].
Qed.

Lemma while_code l c r s pc :
  code_of vs (While l c r s) pc =
  test_code vs l c r (len (code_of vs s (pc + 3)) + 2) ++ code_of vs s (pc + 3) ++
  [mkOp (op_code OP_JMP) pc 0 0].
Proof. done. Qed.

Lemma test_code_len l c r skip code : len (test_code vs l c r skip ++ code) = 3 + len code.
Proof. rewrite length_app. simpl length. lia. Qed.

Lemma test_code_nil l c r skip code :
  test_code vs l c r skip ++ code = test_code vs l c r skip ++ code ++ [].
Proof. by rewrite app_nil_r. Qed.

Lemma exec_runs s sigma sigma' : exec s sigma sigma' -> runs_to s sigma sigma'.
Proof.
  induction 1 as [v st|v st|v n st|v u st|s1 s2 st st1 st2 _ IH1 _ IH2|l c r s st st' Hh _ IH
    |l c r s st Hh|l c r s1 s2 st st' Hh _ IH|l c r s1 s2 st st' Hh _ IH|l c r s st Hh
    |l c r s st st1 st2 Hh _ IH1 _ IH2]; intros pc p Hok Hc Hs;
    cbn [stmt_okb] in Hok; rewrite ?andb_true_iff, ?bool_decide_eq_true in Hok.
  - exists 1%nat. by apply run_inc.
  - exists 1%nat. by apply run_dec.
  - exists 1%nat. eapply run_set; [apply Hok|done..].
  - exists 1%nat. apply run_copy; [apply Hok..|done|done].
  - destruct Hok as [Hok1 Hok2]. cbn [code_of] in *.
    destruct (code_at_app _ _ _ _ Hc) as [Hc1 Hc2].
    destruct (IH1 pc p Hok1 Hc1 Hs) as (n1 & p1 & G1 & Hs1).
    destruct (IH2 _ p1 Hok2 Hc2 Hs1) as (n2 & p2 & G2 & Hs2).
    exists (n1 + n2)%nat, p2. split; [by eapply goes_trans|].
    eapply vm_state_pc; [exact Hs2|]. rewrite length_app. lia.
  - destruct Hok as [[[Hl Hr] _] Hok]. cbn [code_of] in *.
    rewrite (test_code_nil l c r) in Hc.
    destruct (run_condition st pc p l c r _ _ _ Hl Hr Hc Hs) as (Hc1 & _ & p1 & G1 & Hs1); [lia|].
    rewrite Hh in Hs1. destruct (IH _ p1 Hok Hc1 Hs1) as (n2 & p2 & G2 & Hs2).
    exists (3 + n2)%nat, p2. split; [by eapply goes_trans|].
    eapply vm_state_pc; [exact Hs2|]. rewrite test_code_len. lia.
  - destruct Hok as [[[Hl Hr] _] Hok]. cbn [code_of] in *.
    rewrite (test_code_nil l c r) in Hc.
    destruct (run_condition st pc p l c r _ _ _ Hl Hr Hc Hs) as (_ & _ & p1 & G1 & Hs1); [lia|].
    rewrite Hh in Hs1. exists 3%nat, p1. split; [done|].
    eapply vm_state_pc; [exact Hs1|]. rewrite test_code_len. lia.
  - destruct Hok as [[[[Hl Hr] _] Hok1] Hok2]. cbn [code_of] in *.
    destruct (run_condition st pc p l c r _ _ _ Hl Hr Hc Hs) as (Hc1 & Hc2 & p1 & G1 & Hs1); [lia|].
    rewrite Hh in Hs1. destruct (IH _ p1 Hok1 Hc1 Hs1) as (n2 & p2 & G2 & Hs2).
    destruct (run_jump st' _ p2 _ _ Hs2 Hc2) as (p3 & G3 & Hs3).
    exists (3 + (n2 + 1))%nat, p3. split; [eapply goes_trans; [done|by eapply goes_trans]|].
    eapply vm_state_pc; [exact Hs3|]. rewrite test_code_len, length_app. cbn [app length]. lia.
  - destruct Hok as [[[[Hl Hr] _] Hok1] Hok2]. cbn [code_of] in *.
    destruct (run_condition st pc p l c r _ _ _ Hl Hr Hc Hs) as (_ & Hc2 & p1 & G1 & Hs1); [lia|].
    rewrite Hh in Hs1.
    apply code_at_app in Hc2 as [_ Hc2]. change (len [_]) with 1 in Hc2.
    eapply (vm_state_pc _ _ (pc + 3 + len (code_of vs s1 (pc + 3)) + 1)) in Hs1; [|lia].
    destruct (IH _ p1 Hok2 Hc2 Hs1) as (n2 & p2 & G2 & Hs2).
    exists (3 + n2)%nat, p2. split; [by eapply goes_trans|].
    eapply vm_state_pc; [exact Hs2|]. rewrite test_code_len, length_app. cbn [app length]. lia.
  - destruct Hok as [[[Hl Hr] _] Hok]. rewrite while_code in Hc |- *.
    destruct (run_condition st pc p l c r _ _ _ Hl Hr Hc Hs) as (_ & _ & p1 & G1 & Hs1); [lia|].
    rewrite Hh in Hs1. exists 3%nat, p1. split; [done|].
    eapply vm_state_pc; [exact Hs1|]. rewrite test_code_len, length_app. cbn [length]. lia.
  - pose proof Hok as [[[Hl Hr] Hcmp] Hbody]. pose proof Hc as Hc0. rewrite while_code in Hc.
    destruct (run_condition st pc p l c r _ _ _ Hl Hr Hc Hs) as (Hc1 & Hc2 & p1 & G1 & Hs1); [lia|].
    rewrite Hh in Hs1. destruct (IH1 _ p1 Hbody Hc1 Hs1) as (n2 & p2 & G2 & Hs2).
    destruct (run_jump st1 _ p2 _ _ Hs2 Hc2) as (p3 & G3 & Hs3).
    destruct (IH2 pc p3) as (n4 & p4 & G4 & Hs4); [|done..|].
    { cbn [stmt_okb]. rewrite Hl, Hr, Hbody. by rewrite bool_decide_true. }
    exists (3 + (n2 + (1 + n4)))%nat, p4. split; [|done].
    eapply goes_trans; [done|]. eapply goes_trans; [done|]. by eapply goes_trans.
Qed.

(** ** Programs that do not end *)

Definition goes_long (k : nat) (p : ScriptPlayer) : Prop :=
  forall w : W, exists n st, (k <= n)%nat /\ nsteps vm_step n (p, w) st.

Lemma goes_goes_long n k p p' : goes n p p' -> goes_long k p' -> goes_long (n + k) p.
Proof.
  intros H1 H2 w. destruct (H2 w) as (m & st & Hm & Hst). exists (n + m)%nat, st.
  split; [lia|]. by eapply nsteps_trans.
Qed.

Lemma goes_long_less k k' p : (k <= k')%nat -> goes_long k' p -> goes_long k p.
Proof. intros Hk H w. destruct (H w) as (n & st & ? & ?). exists n, st. split; [lia|done]. Qed.

Definition ends_or_runs (k : nat) (s : stmt) (sigma : store) : Prop :=
  forall pc p, stmt_okb vs s = true -> code_at d pc (code_of vs s pc) -> vm_state sigma pc [] p ->
    (exists sigma', exec s sigma sigma') \/ goes_long k p.

Lemma runs_long k : forall s sigma, ends_or_runs k s sigma.
Proof.
  induction k as [|k IHk]; intros s sigma; [intros pc p _ _ _; right; intros w; exists 0%nat, (p, w); split; [lia|constructor]|].
  revert sigma. induction s as [v|v|v n|v u|s1 IH1 s2 IH2|l c r s IH|l c r s1 IH1 s2 IH2|l c r s IH];
    intros sigma pc p Hok Hc Hs; try (left; eexists; constructor; fail);
    cbn [stmt_okb] in Hok; rewrite ?andb_true_iff, ?bool_decide_eq_true in Hok.
  - destruct Hok as [Hok1 Hok2]. cbn [code_of] in *.
    destruct (code_at_app _ _ _ _ Hc) as [Hc1 Hc2].
    destruct (IH1 sigma pc p Hok1 Hc1 Hs) as [[sigma1 E1]|Hl]; [|by right].
    destruct (exec_runs _ _ _ E1 pc p Hok1 Hc1 Hs) as (n1 & p1 & G1 & Hs1).
    destruct (IH2 sigma1 _ p1 Hok2 Hc2 Hs1) as [[sigma2 E2]|Hl].
    + left. exists sigma2. by econstructor.
    + right. eapply goes_long_less; [|by eapply goes_goes_long]. lia.
  - destruct Hok as [[[Hl Hr] _] Hok]. cbn [code_of] in *.
    destruct (holds l c r sigma) eqn:Hh; [|left; eexists; by constructor].
    rewrite (test_code_nil l c r) in Hc.
    destruct (run_condition sigma pc p l c r _ _ _ Hl Hr Hc Hs) as (Hc1 & _ & p1 & G1 & Hs1); [lia|].
    rewrite Hh in Hs1. destruct (IH sigma _ p1 Hok Hc1 Hs1) as [[sigma1 E1]|Hlong].
    + left. exists sigma1. by constructor.
    + right. eapply goes_long_less; [|by eapply goes_goes_long]. lia.
  - destruct Hok as [[[[Hl Hr] _] Hok1] Hok2]. cbn [code_of] in *.
    destruct (run_condition sigma pc p l c r _ _ _ Hl Hr Hc Hs) as (Hc1 & Hc2 & p1 & G1 & Hs1); [lia|].
    destruct (holds l c r sigma) eqn:Hh.
    + destruct (IH1 sigma _ p1 Hok1 Hc1 Hs1) as [[sigma1 E1]|Hlong].
      * left. exists sigma1. by apply exec_else_true.
      * right. eapply goes_long_less; [|by eapply goes_goes_long]. lia.
    + apply code_at_app in Hc2 as [_ Hc2]. change (len [_]) with 1 in Hc2.
      eapply (vm_state_pc _ _ (pc + 3 + len (code_of vs s1 (pc + 3)) + 1)) in Hs1; [|lia].
      destruct (IH2 sigma _ p1 Hok2 Hc2 Hs1) as [[sigma1 E1]|Hlong].
      * left. exists sigma1. by apply exec_else_false.
      * right. eapply goes_long_less; [|by eapply goes_goes_long]. lia.
  - pose proof Hok as [[[Hl Hr] Hcmp] Hbody]. pose proof Hc as Hc0. rewrite while_code in Hc.
    destruct (holds l c r sigma) eqn:Hh; [|left; eexists; by apply exec_while_false].
    destruct (run_condition sigma pc p l c r _ _ _ Hl Hr Hc Hs) as (Hc1 & Hc2 & p1 & G1 & Hs1); [lia|].
    rewrite Hh in Hs1. destruct (IH sigma _ p1 Hbody Hc1 Hs1) as [[sigma1 E1]|Hlong].
    2: { right. eapply goes_long_less; [|by eapply goes_goes_long]. lia. }
    destruct (exec_runs _ _ _ E1 _ p1 Hbody Hc1 Hs1) as (n2 & p2 & G2 & Hs2).
    destruct (run_jump sigma1 _ p2 _ _ Hs2 Hc2) as (p3 & G3 & Hs3).
    destruct (IHk (While l c r s) sigma1 pc p3) as [[sigma2 E2]|Hlong]; [|done..| |].
    + cbn [stmt_okb]. rewrite Hl, Hr, Hbody. by rewrite bool_decide_true.
    + left. exists sigma2. by eapply exec_while_true.
    + right. eapply (goes_long_less _ (3 + (n2 + (1 + k)))); [lia|].
      eapply goes_goes_long; [exact G1|]. eapply goes_goes_long; [exact G2|].
      by eapply goes_goes_long.
Qed.

(** ** The whole program *)

Definition zeros : store := fun _ => 0.

Lemma run_zeros l : forall pc p,
  (forall v, v ∈ l -> v ∈ vs) ->
  code_at d pc ((fun x => mkOp (op_code OP_SET) (slot vs x) 0 0) <$> l) ->
  vm_state zeros pc [] p ->
  exists p', goes (length l) p p' /\ vm_state zeros (pc + len l) [] p'.
Proof.
  induction l as [|v l IH]; intros pc p Hl Hc Hs.
  - exists p. split; [intros w; constructor|]. eapply vm_state_pc; [exact Hs|simpl; lia].
  - rewrite fmap_cons in Hc.
    destruct (run_set zeros pc p v 0 _ (Hl v ltac:(by left)) Hs Hc) as (p1 & G1 & Hs1).
    apply (code_at_app d pc [_]) in Hc as [_ Hc]. change (len [_]) with 1 in Hc.
    assert (vm_state zeros (pc + 1) [] p1) as Hs1'.
    { destruct Hs1. split; try done. rewrite vm_vars0. apply list_fmap_ext. intros _ u _.
      unfold update, zeros. by destruct (bool_decide _). }
    destruct (IH (pc + 1) p1 ltac:(intros; apply Hl; by right) Hc Hs1') as (p2 & G2 & Hs2).
    exists p2. split; [by apply (goes_trans 1 (length l) p p1)|].
    eapply vm_state_pc; [exact Hs2|]. cbn [length]. lia.
Qed.

Lemma run_end sigma pc p w l :
  vm_state sigma pc [] p -> code_at d pc (mkOp (op_code OP_END) 0 0 0 :: l) ->
  exists p', RunSingleInstruction now d (p, w) = Some (true, (p', w)) /\
    mExecuting p' = false /\ vars p' = sigma <$> vs.
Proof.
  intros Hs Hc. pose proof (vm_ready _ _ _ _ _ _ Hs Hc) as Hr.
  rewrite (ready_step now d p w _ Hr). unfold exec_instruction, exec_core. cbn [opCode].
  rewrite core_op_code. eexists. split; [reflexivity|]. split; [done|]. apply Hs.
Qed.

Lemma RunScript_steps n f st st' :
  nsteps vm_step n st st' -> RunScript (n + f) now d st = RunScript f now d st'.
Proof.
  induction 1 as [st|n st st1 st2 [Hr Hs] _ IH]; [done|]. cbn [RunScript Nat.add].
  unfold running in Hr. apply andb_true_iff in Hr as [Hr _]. by rewrite Hr, Hs.
Qed.

Lemma RunScript_short n f st st' :
  nsteps vm_step n st st' -> (f <= n)%nat -> RunScript f now d st = OutOfFuel.
Proof.
  intros Hn. revert f. induction Hn as [st|n st st1 st2 [Hr Hs] _ IH]; intros [|f] Hf; try done; [lia|].
  cbn [RunScript]. unfold running in Hr. apply andb_true_iff in Hr as [Hr _].
  rewrite Hr, Hs. apply IH. lia.
Qed.
End Machine.

Section Whole.
Context {W : Type} `{!PlayerHost W} (vs : list string) (s : stmt).
Context (Hok : program_okb vs s = true) (Hsmall : len (program_code vs s) <= 32765).
Context (now : Z) (Hnow : 0 <= now).
Local Abbreviation d := (program_def vs s).

Lemma program_facts : NoDup vs /\ stmt_okb vs s = true /\ len vs <= len (instr d).
Proof.
  unfold program_okb in Hok. rewrite !andb_true_iff, bool_decide_eq_true in Hok.
  destruct Hok as [[_ Hnd] Hs]. split_and!; [done|done|].
  simpl. unfold program_code. rewrite !length_app, length_fmap. lia.
Qed.

(** The initial state reaches the body with all variables 0. *)
Lemma reach_body p :
  exists p1, goes (W := W) now d (length vs) (Initialize d p) p1 /\ vm_state now d zeros (len vs) [] p1 /\
    code_at d (len vs) (code_of vs s (len vs)) /\
    code_at d (len vs + len (code_of vs s (len vs))) [mkOp (op_code OP_END) 0 0 0].
Proof.
  destruct program_facts as (Hnd & _ & Hlen).
  assert (code_at d 0 (program_code vs s)) as Hc.
  { exists [], []. split; [simpl; by rewrite app_nil_r|done]. }
  unfold program_code in Hc. apply code_at_app in Hc as [Hc1 Hc2].
  rewrite length_fmap in Hc2. apply code_at_app in Hc2 as [Hc2 Hc3].
  assert (vm_state now d zeros 0 [] (Initialize d p)) as H0.
  { split; try done. simpl. clear. induction vs as [|v l IH]; [done|]. cbn. by rewrite IH. }
  destruct (run_zeros now d Hsmall Hnd Hlen vs 0 _ ltac:(done) Hc1 H0) as (p1 & G & Hs).
  exists p1. split_and!; done.
Qed.

Lemma program_ends p w sigma :
  exec s zeros sigma ->
  exists n p', (forall more, RunScript (n + more) now d (Initialize d p, w) = Done (p', w)) /\
    mExecuting p' = false /\ vars p' = sigma <$> vs.
Proof.
  intros He. destruct program_facts as (Hnd & Hs & Hlen).
  destruct (reach_body p) as (p1 & G1 & Hs1 & Hc & Hend).
  destruct (exec_runs now d Hsmall Hnd Hlen s _ _ He _ p1 Hs Hc Hs1) as (n2 & p2 & G2 & Hs2).
  destruct (run_end now d sigma _ p2 w [] Hs2 Hend) as (p3 & Hr & Hex & Hv).
  exists (length vs + (n2 + 2))%nat, p3. split; [|done]. intros more.
  rewrite <- !Nat.add_assoc. rewrite (RunScript_steps now d (length vs) _ _ _ (G1 w)).
  rewrite (RunScript_steps now d n2 _ _ _ (G2 w)). cbn [RunScript Nat.add fst].
  rewrite (vm_exec _ _ _ _ _ _ Hs2), (vm_active _ _ _ _ _ _ Hs2), Hr. cbn [andb fst].
  by rewrite Hex.
Qed.

Lemma program_runs p w fuel st' :
  RunScript fuel now d (Initialize d p, w) = Done st' -> exists sigma, exec s zeros sigma.
Proof.
  intros Hrun. destruct program_facts as (Hnd & Hs & Hlen).
  destruct (reach_body p) as (p1 & G1 & Hs1 & Hc & _).
  destruct (runs_long now d Hsmall Hnd Hlen fuel s zeros _ p1 Hs Hc Hs1) as [?|Hlong]; [done|].
  pose proof (goes_goes_long now d _ _ _ _ G1 Hlong w) as (n & st & Hn & Hst).
  rewrite (RunScript_short now d n fuel _ _ Hst) in Hrun by lia. done.
Qed.
End Whole.

(** C1. The compiler and the interpreter implement the structured language: the
    text of a program, written to a file, is read and compiled without error, and
    the script runs to its end exactly when the program ends by its meaning
    [exec]; the variables of the player then have the values the program computes,
    [int] arithmetic included. This holds for every nesting of [if], [else] and
    [recompare] loops, in every class derived from the script classes that leaves
    the five commands alone, as long as the code fits 32765 instructions. *)
Theorem compiled_program_refines {X W} `{!CompilerHost X} `{!PlayerHost W} vs s (x : X) (w : W) p now :
  leaves_plain -> program_okb vs s = true -> len (program_code vs s) <= 32765 -> 0 <= now ->
  exists d, CompileFromSource (Some (program_text vs s)) newDef x = Some (d, x) /\
    (forall sigma, exec s zeros sigma ->
       exists n p', (forall more, RunScript (n + more) now d (Initialize d p, w) = Done (p', w)) /\
         mExecuting p' = false /\ forall v, v ∈ vs -> GetVarValue (slot vs v) p' = sigma v) /\
    (forall fuel st', RunScript fuel now d (Initialize d p, w) = Done st' ->
       exists sigma, exec s zeros sigma).
Proof.
  intros Hplain Hok Hsmall Hnow. exists (program_def vs s).
  split; [by apply compile_program|]. split.
  - intros sigma He.
    destruct (program_ends vs s Hok Hsmall now Hnow p w sigma He) as (n & p' & Hr & Hex & Hv).
    exists n, p'. split; [done|]. split; [done|]. intros v Hin.
    by apply (GetVarValue_slot (program_def vs s)).
  - intros fuel st'. by apply program_runs.
Qed.

(** The sum of the numbers below 5, and a flag. *)
Definition sample_program : stmt :=
  Seq (Assign "n" 5)
  (Seq (While (Var "n") CMP_GT (Num 0)
          (Seq (Dec "n") (IfElse (Var "n") CMP_EQ (Num 2) (Copy "n" "two") (Inc "sum"))))
       (If (Var "sum") CMP_GTE (Num (-4)) (Inc "done"))).

Definition sample_vars : list string := ["n"; "sum"; "two"; "done"].

Lemma compiled_program_refines_witness :
  exists d, @CompileFromSource unit base_host (Some (program_text sample_vars sample_program)) newDef tt
      = Some (d, tt) /\
    (forall sigma, exec sample_program zeros sigma ->
       exists n p', (forall more, @RunScript unit (base_player_host unit) (n + more) 7 d
           (Initialize d newPlayer, tt) = Done (p', tt)) /\
         mExecuting p' = false /\
         forall v, v ∈ sample_vars -> GetVarValue (slot sample_vars v) p' = sigma v) /\
    (forall fuel st', @RunScript unit (base_player_host unit) fuel 7 d (Initialize d newPlayer, tt) = Done st' ->
       exists sigma, exec sample_program zeros sigma).
Proof.
  apply (@compiled_program_refines unit unit base_host (base_player_host unit)).
  - intros opname st _. reflexivity.
  - vm_compute. reflexivity.
  - vm_compute. discriminate.
  - lia.
Defined.
